(* ===== verification/_CoqProject ===== *)
-Q . S2P
Prelude.v
Effects.v
Merkle.v
Types.v
State.v
StateEntries.v
Proofs.v
Policies.v
AspectRuntime.v
AspectEntry.v
Decimal.v
AspectSource.v
AspectClosure.v
AspectLower.v
AspectVerify.v
AspectWellFormed.v
AspectSound.v
Aspects.v
Runtime.v
Ledger.v
Token.v
Assets.v
Amm.v
Oracle.v
Bridge.v
Governance.v
Lending.v
Staking.v
Factory.v
AspectHost.v
Steps.v
Exec.v
Transactions.v
Mempool.v
Block.v
Consensus.v
Protocol.v
Network.v
Storage.v
Verify.v
Release.v
Evaluator.v
Fixtures.v
Rehearsal.v
Genesis.v
CrossShard.v
RpcTypes.v
Rpc.v
RpcTransport.v
HttpText.v
RpcClient.v
Serving.v
Node.v
NodeReports.v
NodeTracks.v
NodeFacts.v
NodeRestart.v
NodeSync.v
E2eServers.v
NodeCli.v
ClientCli.v
Artifacts.v
Sample.v
Witnesses.v
WitnessesIo.v
WitnessesNode.v
WitnessesCli.v
