(* ===== verification/Prelude.v ===== *)
(** * DeTTa: a verification library for the secured contract-space runtime

    ** The program

    DeTTa (crates/detta-* under src/) is a replicated contract runtime.  A
    state ([DeTTaState], crates/detta-core) holds the contracts, a key-value
    storage, a registry of grants, nonces, the event log and the cross-shard
    outbox.  Transactions call methods of built-in contracts (token, AMM pool,
    oracle, bridge, governance, lending vault, staking, router, factory,
    account registry) or of aspect contracts, whose code is a verified module
    in a small S-expression language (crates/detta-aspects parses, lowers and
    verifies it; crates/detta-aspect-runtime evaluates it to a trace of host
    operations that the core applies).  Blocks of transactions are built from
    a mempool and validated by re-execution; crates/detta-consensus collects
    the votes of a cluster of validators into finality certificates, detects
    equivocation and updates the validator set.  A persistent node
    (crates/detta-node) keeps its state, pending transactions, blocks and
    signing records in files (crates/detta-storage), talks to its peers in
    signed messages (crates/detta-protocol, crates/detta-network) and answers
    clients over JSON-RPC (crates/detta-rpc).  crates/detta-evaluator runs
    restricted scripts and crates/detta-verify checks states, traces and
    release manifests.  The binaries detta-node and detta-client serve a node
    and talk to one; crates/detta-e2e has the clients, fixtures and servers of
    the end-to-end tests.

    ** The files, in the order they build on each other

    - [Prelude]: machine integers with checked, saturating and panicking
      arithmetic; ordered traversal of maps and sets as Rust's BTreeMap and
      BTreeSet iterate; lemmas on sums over maps.
    - [Effects]: outcomes ([Ok], [Err], [Panic], [OutOfFuel]), the state and
      error monad, the weakest precondition [wp] of successful runs, and
      [runs R F]: a run never panics, keeps the relation [R] whatever its
      outcome, and does not run out of fuel where [F] holds.
    - [Merkle], [Types], [State], [Proofs]: Merkle roots and proofs, the data
      types, the state with its roots and declared invariants, inclusion and
      non-inclusion proofs (all detta-core).  The class [Host] has the code
      that is not in the repository: SHA-256, serde_json and the decoding of a
      bridge certificate.  [StateEntries]: maps in snapshots, written as the
      vector of their entries.
    - [Policies]: the policy manifests of the built-in contracts.
    - [AspectRuntime]: the evaluator of aspect expressions
      (detta-aspect-runtime), with proof rules for it; [AspectEntry] has its
      other entry points.
    - [AspectSource], [AspectLower], [AspectVerify] (detta-aspects): tokenizer,
      parser and canonical printer; lowering to the module IR; the verifier.
      [AspectClosure] is the traversal of a bundle's aspects, which
      detta-aspects and detta-core have a copy of each.  [AspectWellFormed] and
      [AspectSound] prove what verification establishes.
    - [Aspects], [AspectHost] (detta-core): module records, argument
      conversion, scopes; applying the trace of a method to the state.
    - [Runtime]: call context, reentrancy guard, frames, argument decoding.
      [Ledger]: the consistency of the ledgers.  [Token], [Assets], [Amm],
      [Oracle], [Bridge], [Governance], [Lending], [Staking], [Factory]: the
      contracts.
    - [Steps], [Exec], [Transactions]: the relation every method keeps, the
      dispatch and [execute_call], [apply_transaction] and sequences of them.
    - [Mempool], [Block]: admission and draining; building, checking and
      applying blocks, snapshots, the validator node (detta-core).
    - [Consensus]: detta-consensus.
    - [Protocol] (detta-protocol): messages, frames, signing payloads,
      signatures, version negotiation, snapshot chunks.  [Wire] has serde_json
      and Ed25519 as parameters, [WireLaws] what the code relies on.
    - [Network] (detta-network): the in-memory transport, framing on a
      stream, the handshake, registered peers, the reconnect queue, retries.
    - [Decimal], [Storage] (detta-storage): decimal text; every operation of
      [FileStorage] over a map from paths to contents, and the states an
      atomic write passes through.
    - [Verify], [Release] (detta-verify): lint, kernel traces, differential
      replay and the generated corpora; the validation of the release, audit
      and readiness manifests.
    - [Evaluator], [Fixtures] (detta-evaluator, and the primitives of
      detta-core): restricted scripts, read, printed and run; the published
      fixtures and their inventory.
    - [Rehearsal] (detta-core): the rehearsal of a scheduled upgrade.
    - [Genesis]: the preset chains of the detta-node binary ([Demo]) and of
      detta-e2e/src/fixtures.rs ([E2e]), with what the presets establish.
      [CrossShard]: a message from the outbox of one chain to the ledger of
      another.
    - [RpcTypes], [Rpc], [RpcTransport] (detta-rpc): requests, results and
      error codes; the service with signed submissions, subscriptions and
      queries; connections, handlers with a token and a rate limit, HTTP.
      The class [JsonRpcHandler] is the interface between a connection and
      the service or node behind it.
    - [Node], [NodeReports], [NodeSync] (detta-node): the persistent validator
      node over its memory and its files ([World]): start and restart,
      persistence, validator-set updates, the double-signing guard, network
      envelopes; metadata roots, metrics, alerts, the requests it answers,
      gossip; state sync over any [ProtocolStream].  [NodeTracks], [NodeFacts]
      and [NodeRestart] hold what is proved of it.
    - [RpcClient] (detta-e2e/src/client.rs), on [HttpText]: the line and HTTP
      clients, each with the server at the other end of its connection.
      [Serving]: servers that take one connection after the other.
      [E2eServers] (detta-e2e/src/network.rs, proofs.rs): the servers of the
      end-to-end harness, the snapshot peer over the bytes of its connection.
    - [NodeCli], [ClientCli] (detta-node/src/bin): the two command lines, from
      their options to the node and the session they run.
    - [Artifacts] (detta-verify and its refresh tool): theorem coverage, the
      proof-artifact manifest, and the refresh of the standard library's
      release.
    - [Sample], [Witnesses], [WitnessesIo], [WitnessesNode], [WitnessesCli]: a
      concrete host, genesis, transactions, modules in source text and a
      session from a genesis file to a receipt, at which the theorems with
      hypotheses apply.

    Functions keep their Rust names; a method of a contract is a function of
    the transaction, the sender and the arguments into the monad [M] over
    the state and the call context.  [Result] is [outcome]; a Rust panic (an
    underflow with overflow checks on, an index out of range) is [Panic].
    Strings are byte strings, amounts are naturals kept within [u128].

    ** What the theorems show

    - Execution: every transaction ends with a receipt ([Transactions]); one
      that fails changes nothing but its nonce; no nonce runs twice; the
      ledgers stay consistent, the logs only grow, and code changes only by
      due upgrades, whatever contracts and aspect code a transaction calls;
      a contract on the call stack cannot be changed behind its back, its
      token balances apart, which move with assets.
    - Contracts: the outcome of token transfers on every branch, allowances
      and permits, the constant product of swaps and the assets they move,
      borrowing and liquidation
      limits, exact minting on redemption, unbonding.
    - Proofs: Merkle proofs are complete, and sound unless an input hashed by
      the verification collides with one hashed for the root.
    - Mempool, blocks, consensus: the bounds of the pool, canonical draining;
      a block proposed for the next height by an active validator is applied
      by every active validator in the proposer's state and finalized; an
      accepted block commits, in its nine roots, to its execution; two
      certificates at one height agree if less than a third equivocate.
    - Aspects: the canonical source parses back to the package; parsing and
      verification end; a verified module is well formed (references, types,
      owners, closures) and no action reaches itself through the calls the
      verifier collects; the effects, writes, registry accesses and calls of every
      execution are within the declared policy (for the plain fragment, and
      four modules show why it is needed); evaluation ends within its budget.
    - Protocol and network: frames and chunked snapshots round-trip, a
      signature covers domain, network, chain and message, a reconstructed
      snapshot is fixed by its hash, and the transport is a FIFO network.
    - Storage: no two recorded signatures for one validator, domain and
      height, in any interleaving; a crash leaves the old or the new value;
      the block files implement a map from heights to blocks.
    - Node: along any run, restarts included, a node signs one block for each
      domain and height; its trusted keys change only by updates that a
      quorum signed; a restart recovers what the operations of [committed]
      (transactions, blocks, certificates, evidence, validator sets and their
      authorized updates, signatures) left; queries change
      nothing; state sync carries the state of one node to another, and what
      a client accepts from any peer is whole.
    - RPC: an accepted signed submission is authentic; the notification feed
      is the end of the full log and polling misses nothing; a connection
      serves its lines; tokens and limits guard the handler; HTTP bodies are
      delimited by one agreed length, however a connection ends.
    - Scripts and tooling: scripts round-trip and run exactly when allowed;
      the fixtures hold; lint and trace checks are exact; replays agree; a
      rehearsal predicts the execution; readiness needs every gate; a
      refreshed release is consistent and refreshing it again changes nothing.
    - End to end: a client's session is the handler's own, over lines and over
      HTTP; a genesis file starts a node that restarts in what it committed;
      the faucet pays; a finalized report is on disk; a message in a finalized
      outbox is redeemable on the other chain; the snapshot peer writes what
      the state-sync client is proved against.  One oversized line ends the
      server's loop ([Serving]).

    ** Fuel and bounds

    Recursion that Rust leaves unbounded takes fuel, and totality lemmas show
    that the chosen fuel never runs out: [execute_call] takes
    twice the number of aspect contracts plus four ([call_fuel]; the
    reentrancy guard admits each aspect contract once and built-in contracts
    between them); closures and the call-graph search the number of names
    plus one; the parser two for each token plus two; inference the number of
    actions plus one.  The evaluator recurses on its own depth limit (64).
    The parser of scripts takes one for each token, a newline-delimited
    connection one for each byte of input plus one; the state-sync client
    takes its fuel as an argument, one for each chunk plus one being enough;
    the snapshot peer takes one for each byte of input plus one.

    ** Not modelled

    - The tests, and the temporary directories of the end-to-end harness.
    - Sockets, threads and process exit codes: a server is given the bytes
      that reach it, and the two ends of a connection take turns.  The text a
      command prints is the value it shows.
    - Failures of the operating system other than a missing or an existing
      file; the contents of checked-in model files, which are a parameter.
    - The measured time a node reports and the Debug text of its errors,
      which are arguments of the operations.
    - The text of diagnostics in evaluation errors, and the trace root (a hash
      of Rust's debug text of the trace).
    - Exhaustion of the machine stack on deeply nested source text, and of
      memory. *)
From Stdlib Require Export Strings.Byte Ascii.
From stdpp Require Export base tactics list gmap strings pretty sorting.
From Stdlib Require Export NArith Lia.

#[export] Set Default Goal Selector "!".
Declare Scope detta_scope.
Delimit Scope detta_scope with detta.
Open Scope string_scope.
Open Scope list_scope.
Open Scope N_scope.

(** ** Machine integers

    [u64], [usize] and [u128] are naturals kept below a maximum.  The checked
    and saturating operations are those of [core::num]; plain subtraction
    panics on underflow (overflow checks on), which [outcome] records. *)
Definition u64_max : N := 18446744073709551615.
Definition u128_max : N := 340282366920938463463374607431768211455.

Definition checked_add (max a b : N) : option N :=
  if a + b <=? max then Some (a + b) else None.
Definition checked_mul (max a b : N) : option N :=
  if a * b <=? max then Some (a * b) else None.
Definition checked_sub (a b : N) : option N :=
  if b <=? a then Some (a - b) else None.
Definition saturating_add (max a b : N) : N := N.min max (a + b).
Definition saturating_mul (max a b : N) : N := N.min max (a * b).
Definition saturating_sub (a b : N) : N := a - b.

Abbreviation checked_add_u128 := (checked_add u128_max).
Abbreviation checked_mul_u128 := (checked_mul u128_max).
Abbreviation checked_add_u64 := (checked_add u64_max).
Abbreviation saturating_add_u64 := (saturating_add u64_max).
Abbreviation saturating_mul_u64 := (saturating_mul u64_max).

Lemma checked_add_Some max a b c :
  checked_add max a b = Some c ↔ c = a + b ∧ a + b ≤ max.
Proof. unfold checked_add. destruct (N.leb_spec (a + b) max); intuition (subst; try lia; congruence). Qed.
Lemma checked_add_None max a b : checked_add max a b = None ↔ max < a + b.
Proof. unfold checked_add. destruct (N.leb_spec (a + b) max); intuition (subst; try lia; congruence). Qed.
Lemma checked_mul_Some max a b c :
  checked_mul max a b = Some c ↔ c = a * b ∧ a * b ≤ max.
Proof. unfold checked_mul. destruct (N.leb_spec (a * b) max); intuition (subst; try lia; congruence). Qed.
Lemma checked_sub_Some a b c : checked_sub a b = Some c ↔ c = a - b ∧ b ≤ a.
Proof. unfold checked_sub. destruct (N.leb_spec b a); intuition (subst; try lia; congruence). Qed.

(** [iter().try_fold(0u128, |acc, v| acc.checked_add(v))] *)
Definition try_sum (l : list N) : option N :=
  foldl (λ acc v, acc ≫= λ a, checked_add_u128 a v) (Some 0) l.
Definition sumN (l : list N) : N := foldr N.add 0 l.

Lemma try_sum_acc l a :
  a ≤ u128_max →
  foldl (λ acc v, acc ≫= λ a, checked_add_u128 a v) (Some a) l =
    if a + sumN l <=? u128_max then Some (a + sumN l) else None.
Proof.
  revert a. induction l as [|x l IH]; intros a Ha; simpl.
  - rewrite N.add_0_r. destruct (N.leb_spec a u128_max); [done|lia].
  - unfold checked_add. destruct (N.leb_spec (a + x) u128_max) as [Hle|Hgt].
    + rewrite IH by done. by rewrite N.add_assoc.
    + replace (foldl _ None l) with (@None N) by (clear; by induction l).
      destruct (N.leb_spec (a + (x + sumN l)) u128_max); [lia|done].
Qed.

(** The fold overflows exactly when the whole sum does, whatever the order. *)
Lemma try_sum_Some l s : try_sum l = Some s ↔ s = sumN l ∧ sumN l ≤ u128_max.
Proof.
  unfold try_sum. rewrite try_sum_acc by (unfold u128_max; lia).
  rewrite N.add_0_l. destruct (N.leb_spec (sumN l) u128_max); intuition (subst; try lia; congruence).
Qed.

#[export] Instance sumN_Permutation : Proper (Permutation ==> eq) sumN.
Proof. induction 1; simpl; lia. Qed.
#[export] Instance try_sum_Permutation : Proper (Permutation ==> eq) try_sum.
Proof.
  intros l1 l2 Hp. unfold try_sum. rewrite !try_sum_acc by (unfold u128_max; lia).
  by rewrite (sumN_Permutation _ _ Hp).
Qed.
Lemma sumN_app l1 l2 : sumN (l1 ++ l2) = sumN l1 + sumN l2.
Proof. induction l1; simpl; lia. Qed.

(** ** Total orders

    [BTreeMap] and [BTreeSet] iterate in key order; [cmp] is the derived
    [Ord] of the key type. *)
Class Cmp (A : Type) := cmp : A → A → comparison.
Class CmpLaws (A : Type) {H : Cmp A} := {
  cmp_eq_iff (x y : A) : cmp x y = Eq ↔ x = y;
  cmp_opp (x y : A) : cmp y x = CompOpp (cmp x y);
  cmp_lt_trans (x y z : A) : cmp x y = Lt → cmp y z = Lt → cmp x z = Lt;
}.

Definition cmp_le `{Cmp A} (x y : A) : Prop := cmp x y ≠ Gt.
Definition cmp_lt `{Cmp A} (x y : A) : Prop := cmp x y = Lt.
#[export] Instance cmp_le_dec `{Cmp A} : RelDecision (cmp_le (A:=A)).
Proof. intros x y. unfold cmp_le. apply _. Defined.
#[export] Instance cmp_lt_dec `{Cmp A} : RelDecision (cmp_lt (A:=A)).
Proof. intros x y. unfold cmp_lt. apply _. Defined.

#[export] Instance cmp_N : Cmp N := N.compare.
#[export] Instance cmp_N_laws : CmpLaws N.
Proof.
  split; unfold cmp, cmp_N; intros.
  - apply N.compare_eq_iff.
  - apply N.compare_antisym.
  - rewrite N.compare_lt_iff in *. lia.
Qed.

Fixpoint cmp_list `{Cmp A} (l1 l2 : list A) : comparison :=
  match l1, l2 with
  | [], [] => Eq
  | [], _ :: _ => Lt
  | _ :: _, [] => Gt
  | x :: l1, y :: l2 => match cmp x y with Eq => cmp_list l1 l2 | c => c end
  end.
#[export] Instance cmp_list_inst `{Cmp A} : Cmp (list A) := cmp_list.
#[export] Instance cmp_list_laws `{CmpLaws A} : CmpLaws (list A).
Proof.
  split; unfold cmp, cmp_list_inst.
  - induction x as [|a x IH]; intros [|b y]; simpl; try naive_solver.
    destruct (cmp a b) eqn:Hc.
    + apply cmp_eq_iff in Hc as ->. rewrite IH. naive_solver.
    + split; [done|]. intros [= -> ->].
      pose proof (proj2 (cmp_eq_iff b b) eq_refl); congruence.
    + split; [done|]. intros [= -> ->].
      pose proof (proj2 (cmp_eq_iff b b) eq_refl); congruence.
  - induction x as [|a x IH]; intros [|b y]; simpl; try done.
    rewrite (cmp_opp a b). by destruct (cmp a b); simpl.
  - induction x as [|a x IH]; intros [|b y] [|c z]; simpl; try done.
    destruct (cmp a b) eqn:Hab; [|intros _|done].
    + apply cmp_eq_iff in Hab as ->. destruct (cmp b c); try done. eauto.
    + destruct (cmp b c) eqn:Hbc; [|intros _|done].
      * apply cmp_eq_iff in Hbc as ->. by rewrite Hab.
      * by rewrite (cmp_lt_trans a b c Hab Hbc).
Qed.

Definition cmp_pair `{Cmp A, Cmp B} (x y : A * B) : comparison :=
  match cmp x.1 y.1 with Eq => cmp x.2 y.2 | c => c end.
#[export] Instance cmp_pair_inst `{Cmp A, Cmp B} : Cmp (A * B) := cmp_pair.
#[export] Instance cmp_pair_laws `{CmpLaws A, CmpLaws B} : CmpLaws (A * B).
Proof.
  split; unfold cmp, cmp_pair_inst, cmp_pair.
  - intros [a b] [a' b']; simpl. destruct (cmp a a') eqn:Hc.
    + apply cmp_eq_iff in Hc as ->. rewrite cmp_eq_iff. naive_solver.
    + split; [done|]. intros [= -> ->].
      pose proof (proj2 (cmp_eq_iff a' a') eq_refl); congruence.
    + split; [done|]. intros [= -> ->].
      pose proof (proj2 (cmp_eq_iff a' a') eq_refl); congruence.
  - intros [a b] [a' b']; simpl. rewrite (cmp_opp a a').
    destruct (cmp a a'); simpl; [apply cmp_opp|done|done].
  - intros [a b] [a' b'] [a'' b'']; simpl.
    destruct (cmp a a') eqn:H1'; [|intros _|done].
    + apply cmp_eq_iff in H1' as ->. destruct (cmp a' a''); try done.
      apply cmp_lt_trans.
    + destruct (cmp a' a'') eqn:H2'; [|intros _|done].
      * apply cmp_eq_iff in H2' as ->. by rewrite H1'.
      * by rewrite (cmp_lt_trans _ _ _ H1' H2').
Qed.

(** An order pulled back along an injection. *)
Lemma cmp_via_laws {A B} `{CmpLaws B} (f : A → B) `{!Inj (=) (=) f} :
  CmpLaws A (H := λ x y, cmp (f x) (f y)).
Proof.
  split.
  - intros x y. etrans; [apply (cmp_eq_iff (f x) (f y))|].
    split; [apply (inj f)|by intros ->].
  - intros x y. apply (cmp_opp (f x) (f y)).
  - intros x y z. apply (cmp_lt_trans (f x) (f y) (f z)).
Qed.

(** [str] compares byte by byte. *)
Definition string_codes (s : string) : list N := N_of_ascii <$> String.list_ascii_of_string s.
#[export] Instance string_codes_inj : Inj (=) (=) string_codes.
Proof.
  intros s1 s2 Heq. unfold string_codes in Heq.
  apply list_fmap_eq_inj in Heq; [|intros a b Hab;
    by rewrite <- (ascii_N_embedding a), Hab, ascii_N_embedding].
  by rewrite <- (String.string_of_list_ascii_of_string s1), Heq,
    String.string_of_list_ascii_of_string.
Qed.
#[export] Instance cmp_string : Cmp string := λ x y, cmp (string_codes x) (string_codes y).
#[export] Instance cmp_string_laws : CmpLaws string.
Proof. exact (cmp_via_laws string_codes). Qed.

Section order.
Context `{CmpLaws A}.

Lemma cmp_refl (x : A) : cmp x x = Eq.
Proof. by apply cmp_eq_iff. Qed.
Lemma cmp_gt_lt (x y : A) : cmp x y = Gt ↔ cmp y x = Lt.
Proof. rewrite (cmp_opp x y). destruct (cmp x y); simpl; naive_solver. Qed.
Lemma cmp_lt_irrefl (x : A) : ¬ cmp_lt x x.
Proof. unfold cmp_lt. by rewrite cmp_refl. Qed.

#[export] Instance cmp_le_total : Total (cmp_le (A:=A)).
Proof.
  intros x y. unfold cmp_le. rewrite (cmp_opp x y). destruct (cmp x y); simpl; naive_solver.
Qed.
#[export] Instance cmp_le_trans : Transitive (cmp_le (A:=A)).
Proof.
  intros x y z. unfold cmp_le. intros Hxy Hyz Hxz. apply cmp_gt_lt in Hxz.
  destruct (cmp x y) eqn:E1; [apply cmp_eq_iff in E1 as ->| |done].
  - by apply cmp_gt_lt in Hxz.
  - apply Hyz, cmp_gt_lt. by eapply cmp_lt_trans.
Qed.
#[export] Instance cmp_le_antisymm : AntiSymm (=) (cmp_le (A:=A)).
Proof.
  intros x y. unfold cmp_le. rewrite (cmp_opp x y). rewrite <- cmp_eq_iff.
  destruct (cmp x y); naive_solver.
Qed.
End order.

(** ** [BTreeMap] and [BTreeSet] iteration *)
Definition entry_le `{Cmp K} {V} (x y : K * V) : Prop := cmp_le x.1 y.1.
#[export] Instance entry_le_dec `{Cmp K} {V} : RelDecision (entry_le (K:=K) (V:=V)).
Proof. intros x y. unfold entry_le. apply _. Defined.

Definition entries `{Countable K, Cmp K} {V} (m : gmap K V) : list (K * V) :=
  merge_sort entry_le (map_to_list m).
Definition keys `{Countable K, Cmp K} {V} (m : gmap K V) : list K := (entries m).*1.
Definition values `{Countable K, Cmp K} {V} (m : gmap K V) : list V := (entries m).*2.
Definition set_iter `{Countable K, Cmp K} (X : gset K) : list K :=
  merge_sort cmp_le (elements X).

Lemma entries_Permutation `{Countable K, Cmp K} {V} (m : gmap K V) :
  entries m ≡ₚ map_to_list m.
Proof. apply merge_sort_Permutation. Qed.
Lemma elem_of_forallb {A} (f : A → bool) l : forallb f l = true ↔ ∀ x, x ∈ l → f x = true.
Proof. rewrite forallb_forall. by setoid_rewrite list_elem_of_In. Qed.
Lemma elem_of_entries `{Countable K, Cmp K} {V} (m : gmap K V) k v :
  (k, v) ∈ entries m ↔ m !! k = Some v.
Proof. rewrite entries_Permutation. apply elem_of_map_to_list. Qed.
Lemma elem_of_values `{Countable K, Cmp K} {V} (m : gmap K V) v :
  v ∈ values m ↔ ∃ k, m !! k = Some v.
Proof.
  unfold values. rewrite list_elem_of_fmap. split.
  - intros ([k v'] & -> & Hin). exists k. by apply elem_of_entries.
  - intros [k Hk]. exists (k, v). split; [done|]. by apply elem_of_entries.
Qed.
Lemma elem_of_keys `{Countable K, Cmp K} {V} (m : gmap K V) k :
  k ∈ keys m ↔ is_Some (m !! k).
Proof.
  unfold keys. rewrite list_elem_of_fmap. split.
  - intros ([k' v'] & -> & Hin). exists v'. by apply elem_of_entries.
  - intros [v Hk]. exists (k, v). split; [done|]. by apply elem_of_entries.
Qed.
Lemma NoDup_keys `{Countable K, Cmp K} {V} (m : gmap K V) : NoDup (keys m).
Proof. unfold keys. rewrite entries_Permutation. apply NoDup_fst_map_to_list. Qed.
Lemma elem_of_set_iter `{Countable K, Cmp K} (X : gset K) x : x ∈ set_iter X ↔ x ∈ X.
Proof. unfold set_iter. rewrite merge_sort_Permutation. apply elem_of_elements. Qed.
Lemma length_entries `{Countable K, Cmp K} {V} (m : gmap K V) : length (entries m) = size m.
Proof. rewrite entries_Permutation. apply length_map_to_list. Qed.

Lemma entries_sorted `{Countable K, CmpLaws K} {V} (m : gmap K V) :
  StronglySorted (entry_le (K:=K)) (entries m).
Proof.
  apply StronglySorted_merge_sort.
  - intros [x ?] [y ?] [z ?]. apply cmp_le_trans.
  - intros [x ?] [y ?]. apply cmp_le_total.
Qed.

(** Iteration is strictly increasing: keys do not repeat. *)
Lemma keys_strictly_sorted `{Countable K, CmpLaws K} {V} (m : gmap K V) :
  StronglySorted (cmp_lt (A:=K)) (keys m).
Proof.
  pose proof (entries_sorted m) as Hs. pose proof (NoDup_keys m) as Hnd.
  unfold keys in *. revert Hnd. induction Hs as [|[k v] l Hs IH Hall]; simpl; [constructor|].
  intros [Hni Hnd]%NoDup_cons. constructor; [by apply IH|].
  apply Forall_fmap, Forall_forall. intros [k' v'] Hin; simpl.
  rewrite Forall_forall in Hall. specialize (Hall _ Hin). unfold entry_le, cmp_le in Hall.
  unfold cmp_lt. simpl in *. destruct (cmp k k') eqn:Hc; [|done|done].
  apply cmp_eq_iff in Hc as ->. destruct Hni. apply list_elem_of_fmap. by exists (k', v').
Qed.
