(* ===== verification/Effects.v ===== *)
(** * Effects: the state-and-error monad of the executor

    A method on [&mut self] that returns [Result] is a function from the state
    to an outcome and the state it leaves behind: an error keeps the mutations
    made before it, as in Rust, so that rolling them back is the caller's
    work.  [Panic] stands for an arithmetic panic (underflow, division by
    zero, a failed [expect]) and [OutOfFuel] for a recursion bound of the
    model that is too small; neither is a value of the source's error type. *)
From S2P Require Import Prelude.

Inductive outcome (E A : Type) : Type :=
| Ok (a : A)
| Err (e : E)
| Panic
| OutOfFuel.
Arguments Ok {E A} a.
Arguments Err {E A} e.
Arguments Panic {E A}.
Arguments OutOfFuel {E A}.

(** [Option::ok_or] and [if cond { return Err(e) }]. *)
Definition ok_or {E A} (o : option A) (e : E) : outcome E A :=
  match o with Some a => Ok a | None => Err e end.
Definition ensure {E} (b : bool) (e : E) : outcome E () :=
  if b then Ok () else Err e.
(** [a - b] and [a / b] on unsigned integers. *)
Definition sub_or_panic {E} (a b : N) : outcome E N :=
  if b <=? a then Ok (a - b) else Panic.
Definition div_or_panic {E} (a b : N) : outcome E N :=
  if b =? 0 then Panic else Ok (a / b).

(** [Result::map_err(|_| e)] *)
Definition map_err {E E' A} (o : outcome E A) (e : E') : outcome E' A :=
  match o with Ok a => Ok a | Err _ => Err e | Panic => Panic | OutOfFuel => OutOfFuel end.

Definition outcome_bind {E A B} (o : outcome E A) (k : A → outcome E B) : outcome E B :=
  match o with Ok a => k a | Err e => Err e | Panic => Panic | OutOfFuel => OutOfFuel end.

Definition SE (S E A : Type) : Type := S → outcome E A * S.

Section monad.
Context {S E : Type}.

Definition ret {A} (a : A) : SE S E A := λ s, (Ok a, s).
Definition throw {A} (e : E) : SE S E A := λ s, (Err e, s).
Definition out_of_fuel {A} : SE S E A := λ s, (OutOfFuel, s).
Definition lift {A} (o : outcome E A) : SE S E A := λ s, (o, s).
Definition gets {A} (f : S → A) : SE S E A := λ s, (Ok (f s), s).
Definition modify (f : S → S) : SE S E () := λ s, (Ok (), f s).
Definition bind {A B} (m : SE S E A) (k : A → SE S E B) : SE S E B := λ s,
  match m s with
  | (Ok a, s') => k a s'
  | (Err e, s') => (Err e, s')
  | (Panic, s') => (Panic, s')
  | (OutOfFuel, s') => (OutOfFuel, s')
  end.
(** [let r = m(); cleanup(); r] *)
Definition finally {A} (m : SE S E A) (f : S → S) : SE S E A := λ s,
  let '(o, s') := m s in (o, f s').
End monad.

Notation "'let!' x := m 'in' k" := (bind m (λ x, k))
  (at level 10, x name, m at level 100, k at level 200) : detta_scope.
Notation "'let!' ' p := m 'in' k" := (bind m (λ x, match x with p => k end))
  (at level 10, p pattern, m at level 100, k at level 200) : detta_scope.
Notation "'do!' m 'in' k" := (bind m (λ _, k))
  (at level 10, m at level 100, k at level 200) : detta_scope.
Notation "'let?' x := o 'in' k" := (bind (lift o) (λ x, k))
  (at level 10, x name, o at level 100, k at level 200) : detta_scope.
Notation "'let?' ' p := o 'in' k" := (bind (lift o) (λ x, match x with p => k end))
  (at level 10, p pattern, o at level 100, k at level 200) : detta_scope.
Notation "'do?' o 'in' k" := (bind (lift o) (λ _, k))
  (at level 10, o at level 100, k at level 200) : detta_scope.
Notation "'let*' x := o 'in' k" := (outcome_bind o (λ x, k))
  (at level 10, x name, o at level 100, k at level 200) : detta_scope.
Notation "'do*' o 'in' k" := (outcome_bind o (λ _, k))
  (at level 10, o at level 100, k at level 200) : detta_scope.
Open Scope detta_scope.

(** [iter().map(f).collect::<Result<Vec<_>, _>>()] *)
Fixpoint mapR {E A B} (f : A → outcome E B) (l : list A) : outcome E (list B) :=
  match l with
  | [] => Ok []
  | x :: l => let* y := f x in let* ys := mapR f l in Ok (y :: ys)
  end.
(** [for x in l { f(x)?; }] *)
Fixpoint forM {S E A} (f : A → SE S E ()) (l : list A) : SE S E () :=
  match l with
  | [] => ret ()
  | x :: l => do! f x in forM f l
  end.
Fixpoint mapM {S E A B} (f : A → SE S E B) (l : list A) : SE S E (list B) :=
  match l with
  | [] => ret []
  | x :: l => let! y := f x in let! ys := mapM f l in ret (y :: ys)
  end.

(** ** Weakest preconditions

    [wp m Q s]: when [m], run from [s], succeeds, its result and final state
    satisfy [Q].  Failures are the business of [runs] below: they say what a
    computation does whatever its outcome. *)
Definition wp {S E A} (m : SE S E A) (Q : A → S → Prop) (s : S) : Prop :=
  match m s with (Ok a, s') => Q a s' | _ => True end.

Section wp.
Context {S E : Type}.
Implicit Types s : S.

Lemma wp_ret {A} (a : A) Q s : wp (E:=E) (ret a) Q s ↔ Q a s.
Proof. done. Qed.
Lemma wp_throw {A} (e : E) (Q : A → S → Prop) s : wp (throw e) Q s ↔ True.
Proof. done. Qed.
Lemma wp_gets {A} (f : S → A) Q s : wp (E:=E) (gets f) Q s ↔ Q (f s) s.
Proof. done. Qed.
Lemma wp_modify (f : S → S) Q s : wp (E:=E) (modify f) Q s ↔ Q () (f s).
Proof. done. Qed.
Lemma wp_bind {A B} (m : SE S E A) (k : A → SE S E B) Q s :
  wp (bind m k) Q s ↔ wp m (λ a, wp (k a) Q) s.
Proof. unfold wp, bind. by destruct (m s) as [[] ?]. Qed.
Lemma wp_lift {A} (o : outcome E A) Q s : wp (lift o) Q s ↔ ∀ a, o = Ok a → Q a s.
Proof. unfold wp, lift. destruct o; naive_solver. Qed.
Lemma wp_mono {A} (m : SE S E A) (Q Q' : A → S → Prop) s :
  wp m Q s → (∀ a s', Q a s' → Q' a s') → wp m Q' s.
Proof. unfold wp. destruct (m s) as [[] ?]; naive_solver. Qed.
Lemma wp_Ok {A} (m : SE S E A) (Q : A → S → Prop) s a s' :
  wp m Q s → m s = (Ok a, s') → Q a s'.
Proof. unfold wp. intros H Heq. by rewrite Heq in H. Qed.
(** A loop keeps any invariant its body keeps. *)
Lemma wp_forM {A} (f : A → SE S E ()) (I : S → Prop) l s :
  (∀ x s, x ∈ l → I s → wp (f x) (λ _, I) s) → I s → wp (forM f l) (λ _, I) s.
Proof.
  revert s. induction l as [|x l IH]; intros s Hf HI; simpl; [done|].
  rewrite wp_bind. eapply wp_mono; [apply Hf; [apply list_elem_of_here|done]|].
  intros u s' HI'. apply IH; [|done]. intros y s'' Hy. apply Hf. by apply list_elem_of_further.
Qed.
End wp.

(** Successful runs of the pure guards. *)
Lemma ok_or_Ok {E A} (o : option A) (e : E) a : ok_or o e = Ok a ↔ o = Some a.
Proof. destruct o; naive_solver. Qed.
Lemma ensure_Ok {E} (b : bool) (e : E) u : ensure b e = Ok u ↔ b = true.
Proof. destruct b, u; naive_solver. Qed.
Lemma sub_Ok {E} a b c : sub_or_panic (E:=E) a b = Ok c ↔ b ≤ a ∧ c = a - b.
Proof. unfold sub_or_panic. destruct (N.leb_spec b a); intuition (subst; try lia; congruence). Qed.
Lemma div_Ok {E} a b c : div_or_panic (E:=E) a b = Ok c ↔ b ≠ 0 ∧ c = a / b.
Proof. unfold div_or_panic. destruct (N.eqb_spec b 0); intuition (subst; congruence). Qed.
Lemma outcome_bind_Ok {E A B} (o : outcome E A) (k : A → outcome E B) b :
  outcome_bind o k = Ok b ↔ ∃ a, o = Ok a ∧ k a = Ok b.
Proof. destruct o; naive_solver. Qed.
Lemma bind_Ok {S E A B} (m : SE S E A) (k : A → SE S E B) s b s' :
  bind m k s = (Ok b, s') ↔ ∃ a s1, m s = (Ok a, s1) ∧ k a s1 = (Ok b, s').
Proof. unfold bind. destruct (m s) as [[] ?]; naive_solver. Qed.
Lemma lift_Ok {S E A} (o : outcome E A) (s s' : S) a : lift o s = (Ok a, s') ↔ o = Ok a ∧ s' = s.
Proof. unfold lift. naive_solver. Qed.

(** ** Runs

    [runs R F m]: whatever the outcome, [m] relates the state it starts from
    to the state it leaves by [R]; it never panics; and from a state where
    [F] holds it does not run out of fuel. *)
Definition runs {S E A} (R : relation S) (F : S → Prop) (m : SE S E A) : Prop :=
  ∀ s, R s (m s).2 ∧ (m s).1 ≠ Panic ∧ (F s → (m s).1 ≠ OutOfFuel).

(** A pure computation that returns a value or an error. *)
Definition total {E A} (o : outcome E A) : Prop := o ≠ Panic ∧ o ≠ OutOfFuel.

Class Frame {S} (R : relation S) (F : S → Prop) : Prop := {
  frame_preorder :: PreOrder R;
  frame_stable s s' : R s s' → F s → F s';
}.

Section runs.
Context {S E : Type} (R : relation S) (F : S → Prop) `{!Frame R F}.

Lemma runs_lift {A} (o : outcome E A) : total o → runs R F (lift o).
Proof. intros [??] s. by split. Qed.
Lemma runs_ret {A} (a : A) : runs (E:=E) R F (ret a).
Proof. by intros s. Qed.
Lemma runs_throw {A} (e : E) : runs (A:=A) R F (throw e).
Proof. by intros s. Qed.
Lemma runs_gets {A} (f : S → A) : runs (E:=E) R F (gets f).
Proof. by intros s. Qed.
Lemma runs_modify (f : S → S) : (∀ s, R s (f s)) → runs (E:=E) R F (modify f).
Proof. intros Hf s. by split; [apply Hf|]. Qed.
Lemma runs_bind {A B} (m : SE S E A) (k : A → SE S E B) :
  runs R F m → (∀ a, runs R F (k a)) → runs R F (bind m k).
Proof.
  intros Hm Hk s. unfold bind. specialize (Hm s) as (HR & Hp & Hf).
  destruct (m s) as [[a|e| |] s']; simpl in *; [|naive_solver..].
  destruct (Hk a s') as (HR' & Hp' & Hf'). split_and!; [by etrans|done|].
  intros HF. apply Hf'. by eapply frame_stable.
Qed.
Lemma runs_bind_lift {A B} (o : outcome E A) (k : A → SE S E B) :
  total o → (∀ a, o = Ok a → runs R F (k a)) → runs R F (bind (lift o) k).
Proof.
  intros [Hp Hf] Hk s. unfold bind, lift. destruct o as [a|e| |]; simpl; try done.
  by apply Hk.
Qed.
Lemma runs_bind_ret {A B} (a : A) (k : A → SE S E B) : runs R F (k a) → runs R F (bind (ret a) k).
Proof. intros Hk s. apply Hk. Qed.
Lemma runs_forM {A} (f : A → SE S E ()) l : (∀ x, runs R F (f x)) → runs R F (forM f l).
Proof. intros Hf. induction l as [|x l IH]; simpl; [apply runs_ret|]. by apply runs_bind. Qed.
Lemma runs_mono (R' : relation S) (F' : S → Prop) {A} (m : SE S E A) :
  (∀ s s', R s s' → R' s s') → (∀ s, F' s → F s) → runs R F m → runs R' F' m.
Proof. intros HR HF Hm s. destruct (Hm s) as (?&?&?). split_and!; auto. Qed.
End runs.

Lemma total_Ok {E A} (a : A) : total (E:=E) (Ok a).
Proof. by split. Qed.
Lemma total_Err {E A} (e : E) : total (A:=A) (Err e).
Proof. by split. Qed.
Lemma total_ok_or {E A} (o : option A) (e : E) : total (ok_or o e).
Proof. by destruct o. Qed.
Lemma total_ensure {E} (b : bool) (e : E) : total (ensure b e).
Proof. by destruct b. Qed.
Lemma total_sub {E} a b : b ≤ a → total (E:=E) (sub_or_panic a b).
Proof. intros. unfold sub_or_panic. destruct (N.leb_spec b a); [by split|lia]. Qed.
Lemma total_div {E} a b : b ≠ 0 → total (E:=E) (div_or_panic a b).
Proof. intros. unfold div_or_panic. by destruct (N.eqb_spec b 0). Qed.
Lemma total_bind {E A B} (o : outcome E A) (k : A → outcome E B) :
  total o → (∀ a, o = Ok a → total (k a)) → total (outcome_bind o k).
Proof. intros [??] Hk. destruct o; try done. by apply Hk. Qed.
Lemma total_mapR {E A B} (f : A → outcome E B) l : (∀ x, total (f x)) → total (mapR f l).
Proof.
  intros Hf. induction l as [|x l IH]; simpl; [by split|].
  apply total_bind; [done|]. intros. apply total_bind; [done|]. by split.
Qed.

Lemma total_map_err {E E' A} (o : outcome E A) (e : E') : total o → total (map_err o e).
Proof. intros [??]. by destruct o. Qed.

(** Turns the successes of guards in the context into the facts they check. *)
Ltac simplify_ok :=
  repeat match goal with
  | H : ok_or _ _ = Ok _ |- _ => apply ok_or_Ok in H
  | H : ensure _ _ = Ok _ |- _ => apply ensure_Ok in H
  | H : sub_or_panic _ _ = Ok _ |- _ => apply sub_Ok in H as [? ?]
  | H : div_or_panic _ _ = Ok _ |- _ => apply div_Ok in H as [? ?]
  | H : outcome_bind _ _ = Ok _ |- _ => apply outcome_bind_Ok in H as (? & ? & ?)
  | H : Ok _ = Ok _ |- _ => apply (f_equal (λ o, match o with Ok a => Some a | _ => None end)) in H;
      cbv beta iota in H
  | H : Some _ = Some _ |- _ => injection H as H
  | H : Err _ = Ok _ |- _ => discriminate H
  | H : checked_add _ _ _ = Some _ |- _ => apply checked_add_Some in H as [? ?]
  | H : checked_mul _ _ _ = Some _ |- _ => apply checked_mul_Some in H as [? ?]
  | H : (_ && _)%bool = true |- _ => apply andb_true_iff in H as [? ?]
  | H : negb _ = true |- _ => apply negb_true_iff in H
  | H : negb _ = false |- _ => apply negb_false_iff in H
  | H : (_ || _)%bool = false |- _ => apply orb_false_iff in H as [? ?]
  | H : (_ <=? _) = true |- _ => apply N.leb_le in H
  | H : (_ <? _) = true |- _ => apply N.ltb_lt in H
  | H : (_ <? _) = false |- _ => apply N.ltb_ge in H
  | H : (_ <=? _) = false |- _ => apply N.leb_gt in H
  | H : (_ =? _) = true |- _ => apply N.eqb_eq in H
  | H : (_ =? _) = false |- _ => apply N.eqb_neq in H
  | H : bool_decide _ = true |- _ => apply bool_decide_eq_true in H
  | H : bool_decide _ = false |- _ => apply bool_decide_eq_false in H
  end.

Create HintDb total discriminated.
#[export] Hint Constants Opaque : total.
#[export] Hint Resolve total_Ok total_Err total_ok_or total_ensure total_bind total_mapR
  total_map_err : total.
#[export] Hint Extern 4 (total (match ?x with _ => _ end)) => destruct x : total.
#[export] Hint Extern 3 (total (div_or_panic _ _)) => apply total_div; simplify_ok; lia : total.
#[export] Hint Extern 3 (total (sub_or_panic _ _)) => apply total_sub; simplify_ok; lia : total.
Create HintDb runs discriminated.
#[export] Hint Constants Opaque : runs.
#[export] Hint Resolve runs_ret runs_throw runs_gets : runs.
#[export] Hint Extern 0 (Frame _ _) => apply _ : runs.

(** Runs a computation symbolically under [runs]: binds are split, guards
    leave their equation in the context, matches on data are case-split. *)
Ltac runs_step :=
  match goal with
  | |- runs _ _ (bind (lift _) _) => refine (runs_bind_lift _ _ _ _ _ _); [solve [eauto with total]|intros ? ?]
  | |- runs _ _ (bind (ret _) _) => refine (runs_bind_ret _ _ _ _ _)
  | |- runs _ _ (bind _ _) => refine (runs_bind _ _ _ _ _ _); [|intros ?]; [try solve [eauto with runs]|]
  | |- runs _ _ (match ?x with _ => _ end) => destruct x eqn:?
  | |- runs _ _ (lift _) => refine (runs_lift _ _ _ _); solve [eauto with total]
  | |- runs _ _ _ => solve [eauto with runs]
  end.
Ltac runs_tac := repeat (cbv beta zeta; runs_step).

(** Normalises a [wp] goal one constructor of the monad at a time. *)
Ltac wp_step :=
  match goal with
  | |- wp (bind _ _) _ _ => rewrite wp_bind
  | |- wp (ret _) _ _ => rewrite wp_ret
  | |- wp (throw _) _ _ => exact I
  | |- wp (gets _) _ _ => rewrite wp_gets
  | |- wp (modify _) _ _ => rewrite wp_modify
  | |- wp (lift _) _ _ => rewrite wp_lift; intros ? ?
  | |- wp (match ?x with _ => _ end) _ _ => destruct x eqn:?
  end.
Ltac wp_tac := repeat (cbv beta zeta; wp_step); cbv beta.
