(* ===== verification/Merkle.v ===== *)
(** * Merkle: hex, hashing and the Merkle trees of the state commitments

    Models the commitment helpers at the end of crates/detta-core/src/lib.rs
    ([root_of], [merkle_root], [merkle_proof], [MerkleProof::verify],
    [verify_non_inclusion], the hex codec).  SHA-256 and the JSON serialiser
    are third-party: they are the classes [Sha256] and [Serialize]. *)
From S2P Require Import Prelude.

Class Sha256 := sha256 : list byte → list byte.
(** [canonical_bytes] of a [T: Serialize], i.e. [serde_json::to_vec]. *)
Class Serialize (T : Type) := canonical_bytes : T → list byte.

#[export] Instance byte_eq_decision : EqDecision byte := Byte.byte_eq_dec.

Definition bytes_of_string (s : string) : list byte := String.list_byte_of_string s.

(** ** Hexadecimal *)
Definition hex_digit (n : N) : ascii :=
  default "0"%char (String.get (N.to_nat n) "0123456789abcdef").

Fixpoint hex_lower (bytes : list byte) : string :=
  match bytes with
  | [] => ""
  | b :: bytes =>
      String (hex_digit (N.shiftr (Byte.to_N b) 4))
        (String (hex_digit (N.land (Byte.to_N b) 15)) (hex_lower bytes))
  end.

Definition hex_value (value : N) : option N :=
  if (48 <=? value) && (value <=? 57) then Some (value - 48)
  else if (97 <=? value) && (value <=? 102) then Some (value - 97 + 10)
  else if (65 <=? value) && (value <=? 70) then Some (value - 65 + 10)
  else None.

Fixpoint hex_pairs (value : string) : option (list byte) :=
  match value with
  | "" => Some []
  | String _ "" => None
  | String h (String l rest) =>
      high ← hex_value (N_of_ascii h);
      low ← hex_value (N_of_ascii l);
      b ← Byte.of_N (N.lor (N.shiftl high 4) low);
      bs ← hex_pairs rest;
      Some (b :: bs)
  end.
Definition hex_to_bytes (value : string) : option (list byte) :=
  if Nat.even (String.length value) then hex_pairs value else None.

(** [u64::to_be_bytes] *)
Definition byte_of (n : N) : byte := default x00 (Byte.of_N (n mod 256)).
Definition u64_to_be_bytes (n : N) : list byte :=
  (λ i, byte_of (N.shiftr (n mod 2 ^ 64) (8 * i))) <$> [7; 6; 5; 4; 3; 2; 1; 0].
Definition len_prefix (bs : list byte) : list byte := u64_to_be_bytes (N.of_nat (length bs)).

(** ** Proof records *)
Inductive SiblingSide := SideLeft | SideRight.
Record MerkleStep := { step_side : SiblingSide; step_hash : string }.
Record MerkleProof := {
  mp_root : string;
  mp_leaf_hash : string;
  mp_index : nat;
  mp_leaf_count : nat;
  mp_path : list MerkleStep;
}.

#[export] Instance SiblingSide_eq_dec : EqDecision SiblingSide.
Proof. solve_decision. Defined.
#[export] Instance MerkleStep_eq_dec : EqDecision MerkleStep.
Proof. solve_decision. Defined.
#[export] Instance MerkleProof_eq_dec : EqDecision MerkleProof.
Proof. solve_decision. Defined.

Section merkle.
Context {sha : Sha256}.

Definition root_of `{Serialize T} (value : T) : string :=
  hex_lower (sha256 (canonical_bytes value)).

Definition leaf_preimage (bytes : list byte) : list byte :=
  bytes_of_string "detta-merkle-leaf" ++ len_prefix bytes ++ bytes.
Definition merkle_leaf `{Serialize T} (value : T) : list byte :=
  sha256 (leaf_preimage (canonical_bytes value)).

Definition node_preimage (l r : list byte) : list byte :=
  bytes_of_string "detta-merkle-node" ++ len_prefix l ++ l ++ len_prefix r ++ r.
Definition merkle_node (l r : list byte) : list byte := sha256 (node_preimage l r).

(** [level.chunks(2)], the odd chunk paired with itself. *)
Fixpoint next_merkle_level (level : list (list byte)) : list (list byte) :=
  match level with
  | [] => []
  | [l] => [merkle_node l l]
  | l :: r :: rest => merkle_node l r :: next_merkle_level rest
  end.

(** [while level.len() > 1 { level = next_merkle_level(level) }]; a level of
    length [n > 1] is followed by one of length at most [n - 1], so [length
    level] iterations are enough. *)
Fixpoint merkle_levels (fuel : nat) (level : list (list byte)) : list (list byte) :=
  match fuel with
  | O => level
  | S fuel =>
      if (length level <=? 1)%nat then level
      else merkle_levels fuel (next_merkle_level level)
  end.
Definition empty_root_bytes : list byte := sha256 (bytes_of_string "detta-empty-merkle-root").
Definition merkle_root_bytes (leaves : list (list byte)) : list byte :=
  match leaves with
  | [] => empty_root_bytes
  | _ => default [] (head (merkle_levels (length leaves) leaves))
  end.
Definition merkle_root `{Serialize T} (values : list T) : string :=
  hex_lower (merkle_root_bytes (merkle_leaf <$> values)).

(** The path part of [merkle_proof]. *)
Definition sibling_index (current_index len : nat) : nat :=
  if Nat.even current_index then
    if (current_index + 1 <? len)%nat then (current_index + 1)%nat else current_index
  else (current_index - 1)%nat.
Fixpoint merkle_path (fuel : nat) (level : list (list byte)) (current_index : nat)
    : list MerkleStep :=
  match fuel with
  | O => []
  | S fuel =>
      if (length level <=? 1)%nat then [] else
      let sibling := sibling_index current_index (length level) in
      {| step_side := if (sibling <? current_index)%nat then SideLeft else SideRight;
         step_hash := hex_lower (default [] (level !! sibling)) |}
      :: merkle_path fuel (next_merkle_level level) (current_index / 2)
  end.
Definition merkle_proof `{Serialize T} (values : list T) (index : nat) : option MerkleProof :=
  if (length values <=? index)%nat then None else
  let leaves := merkle_leaf <$> values in
  Some {| mp_root := hex_lower (merkle_root_bytes leaves);
          mp_leaf_hash := hex_lower (default [] (leaves !! index));
          mp_index := index;
          mp_leaf_count := length values;
          mp_path := merkle_path (length leaves) leaves index |}.

(** The loop of [MerkleProof::verify]. *)
Fixpoint fold_path (current : list byte) (path : list MerkleStep) : option (list byte) :=
  match path with
  | [] => Some current
  | step :: path =>
      sibling ← hex_to_bytes (step_hash step);
      fold_path (match step_side step with
                 | SideLeft => merkle_node sibling current
                 | SideRight => merkle_node current sibling
                 end) path
  end.
Definition verify `{Serialize T} (self : MerkleProof) (value : T) : bool :=
  if decide (mp_leaf_hash self = hex_lower (merkle_leaf value)) then
    match hex_to_bytes (mp_leaf_hash self) with
    | None => false
    | Some current =>
        match fold_path current (mp_path self) with
        | None => false
        | Some current => bool_decide (hex_lower current = mp_root self)
        end
    end
  else false.

(** [verify_non_inclusion]: the neighbours' verification results are the
    [bool] components, as in the source. *)
Definition verify_non_inclusion `{Cmp K} (empty_root : string) (key : K) (root : string)
    (leaf_count : nat) (predecessor successor : option (K * MerkleProof * bool)) : bool :=
  if (leaf_count =? 0)%nat then
    match predecessor, successor with
    | None, None => bool_decide (root = empty_root)
    | _, _ => false
    end
  else
    match predecessor, successor with
    | Some (pred_key, pred_proof, pred_valid), Some (succ_key, succ_proof, succ_valid) =>
        pred_valid && succ_valid
        && bool_decide (cmp_lt pred_key key) && bool_decide (cmp_lt key succ_key)
        && (mp_index pred_proof + 1 =? mp_index succ_proof)%nat
        && (mp_leaf_count pred_proof =? leaf_count)%nat
        && (mp_leaf_count succ_proof =? leaf_count)%nat
    | None, Some (succ_key, succ_proof, succ_valid) =>
        succ_valid && bool_decide (cmp_lt key succ_key)
        && (mp_index succ_proof =? 0)%nat && (mp_leaf_count succ_proof =? leaf_count)%nat
    | Some (pred_key, pred_proof, pred_valid), None =>
        pred_valid && bool_decide (cmp_lt pred_key key)
        && (mp_index pred_proof + 1 =? leaf_count)%nat
        && (mp_leaf_count pred_proof =? leaf_count)%nat
    | None, None => false
    end.
End merkle.

(** ** The hex codec *)
Lemma hex_digits_value (b : byte) :
  hex_value (N_of_ascii (hex_digit (N.shiftr (Byte.to_N b) 4))) =
    Some (N.shiftr (Byte.to_N b) 4) ∧
  hex_value (N_of_ascii (hex_digit (N.land (Byte.to_N b) 15))) =
    Some (N.land (Byte.to_N b) 15) ∧
  Byte.of_N (N.lor (N.shiftl (N.shiftr (Byte.to_N b) 4) 4) (N.land (Byte.to_N b) 15)) = Some b.
Proof. destruct b; vm_compute; done. Qed.

Lemma hex_lower_length bs : String.length (hex_lower bs) = (2 * length bs)%nat.
Proof. induction bs as [|b bs IH]; cbn [hex_lower String.length length]; lia. Qed.

Lemma hex_pairs_lower bs : hex_pairs (hex_lower bs) = Some bs.
Proof.
  induction bs as [|b bs IH]; [done|]. cbn [hex_lower hex_pairs].
  destruct (hex_digits_value b) as (-> & -> & Hb). cbn [mbind option_bind].
  rewrite Hb. cbn. by rewrite IH.
Qed.

(** Decoding the lower-case hex of any byte string gives it back. *)
Lemma hex_to_bytes_lower bs : hex_to_bytes (hex_lower bs) = Some bs.
Proof.
  unfold hex_to_bytes. rewrite hex_lower_length, hex_pairs_lower.
  by rewrite (proj2 (Nat.even_spec _) (ex_intro _ (length bs) eq_refl)).
Qed.
#[export] Instance hex_lower_inj : Inj (=) (=) hex_lower.
Proof. intros x y Heq. apply (inj Some). by rewrite <- !hex_to_bytes_lower, Heq. Qed.

(** ** Levels *)
Section levels.
Context {sha : Sha256}.
Implicit Types level : list (list byte).

(** Induction two leaves at a time, as the levels are consumed. *)
Lemma pairs_ind (P : list (list byte) → Prop) :
  P [] → (∀ x, P [x]) → (∀ x y l, P l → P (x :: y :: l)) → ∀ l, P l.
Proof.
  intros H0 H1 H2. cut (∀ n l, (length l ≤ n)%nat → P l); [eauto|].
  induction n as [|n IH]; intros [|x [|y l]] Hl; simpl in Hl; auto; [lia..|].
  apply H2, IH. lia.
Qed.

Lemma next_level_length level :
  length (next_merkle_level level) = ((length level + 1) / 2)%nat.
Proof.
  induction level as [|x|x y l IH] using pairs_ind; [done..|].
  cbn [next_merkle_level length]. rewrite IH.
  replace (S (S (length l)) + 1)%nat with (length l + 1 + 1 * 2)%nat by lia.
  rewrite Nat.div_add; lia.
Qed.
Lemma next_level_shrinks level n :
  (1 < length level)%nat → (length level ≤ S n)%nat →
  (0 < length (next_merkle_level level) ≤ n)%nat.
Proof.
  intros H1 H2. rewrite next_level_length. split; [apply Nat.div_str_pos; lia|].
  apply Nat.lt_succ_r, Nat.Div0.div_lt_upper_bound; lia.
Qed.

Lemma sibling_index_SS i n :
  sibling_index (S (S i)) (S (S n)) = S (S (sibling_index i n)).
Proof.
  unfold sibling_index. change (Nat.even (S (S i))) with (Nat.even i).
  destruct (Nat.even i) eqn:Hi.
  - destruct (Nat.ltb_spec (i + 1) n), (Nat.ltb_spec (S (S i) + 1) (S (S n))); lia.
  - destruct i; [done|lia].
Qed.

(** One step of the path recomputes the parent hash. *)
Lemma next_level_lookup level i cur :
  level !! i = Some cur →
  let sib := sibling_index i (length level) in
  ∃ s, level !! sib = Some s ∧
    next_merkle_level level !! (i / 2)%nat =
      Some (if (sib <? i)%nat then merkle_node s cur else merkle_node cur s).
Proof.
  revert i. induction level as [|x|x y l IH] using pairs_ind; intros i Hi; [done| |].
  - destruct i; [|done]. injection Hi as ->. by exists cur.
  - destruct i as [|[|i]]; [injection Hi as ->; by exists y|injection Hi as ->; by exists x|].
    specialize (IH i Hi) as (s & Hs & Hn). exists s.
    cbn [length]. rewrite sibling_index_SS. split; [exact Hs|].
    replace (S (S i)) with (i + 1 * 2)%nat at 1 by lia. rewrite Nat.div_add by lia.
    replace (i / 2 + 1)%nat with (S (i / 2)) by lia. cbn [next_merkle_level].
    change ((_ :: ?l) !! S ?n) with (l !! n). rewrite Hn. by cbn.
Qed.

Lemma fold_merkle_path fuel level i cur :
  (length level ≤ fuel)%nat → level !! i = Some cur →
  fold_path cur (merkle_path fuel level i) = head (merkle_levels fuel level).
Proof.
  revert level i cur. induction fuel as [|fuel IH]; intros level i cur Hf Hi; simpl.
  { destruct level; [done|simpl in Hf; lia]. }
  destruct (Nat.leb_spec (length level) 1) as [Hle|Hgt].
  { destruct level as [|x [|]]; [done| |simpl in Hle; lia]. by destruct i; [injection Hi as ->|]. }
  destruct (next_level_lookup level i cur Hi) as (s & Hs & Hn). cbn [fold_path step_hash step_side].
  rewrite Hs. cbn [default from_option id]. rewrite hex_to_bytes_lower. cbn [mbind option_bind].
  etrans; [|apply IH; [apply next_level_shrinks; lia|apply Hn]].
  by destruct (_ <? _)%nat.
Qed.

Lemma merkle_levels_single fuel level :
  level ≠ [] → (length level ≤ fuel)%nat → ∃ r, merkle_levels fuel level = [r].
Proof.
  revert level. induction fuel as [|fuel IH]; intros level Hne Hf; simpl.
  { destruct level; [done|simpl in Hf; lia]. }
  destruct (Nat.leb_spec (length level) 1) as [Hle|Hgt].
  { destruct level as [|x [|]]; [done|eauto|simpl in Hle; lia]. }
  pose proof (next_level_shrinks level fuel ltac:(lia) Hf).
  apply IH; [|lia]. destruct (next_merkle_level level); simpl in *; [lia|done].
Qed.
Lemma merkle_root_bytes_head level :
  level ≠ [] → head (merkle_levels (length level) level) = Some (merkle_root_bytes level).
Proof.
  intros Hne. destruct (merkle_levels_single (length level) level Hne ltac:(done)) as [r Hr].
  unfold merkle_root_bytes. destruct level; [done|]. by rewrite Hr.
Qed.
Lemma elem_of_next_level level h :
  h ∈ next_merkle_level level → ∃ l r, l ∈ level ∧ r ∈ level ∧ h = merkle_node l r.
Proof.
  induction level as [|x|x y l IH] using pairs_ind; simpl.
  - by intros ?%not_elem_of_nil.
  - intros ->%list_elem_of_singleton. exists x, x. set_solver.
  - intros [->|Hin]%elem_of_cons; [exists x, y; set_solver|].
    destruct (IH Hin) as (a & b & ? & ? & ->). exists a, b. set_solver.
Qed.
End levels.

(** ** Completeness *)

Lemma merkle_proof_at `{Sha256, Serialize T} (vals : list T) (index : nat) value :
  vals !! index = Some value →
  ∃ p, merkle_proof vals index = Some p ∧ mp_root p = merkle_root vals ∧ mp_index p = index ∧
    mp_leaf_count p = length vals ∧ verify p value = true.
Proof.
  intros Hv. unfold merkle_proof.
  pose proof (lookup_lt_Some _ _ _ Hv). destruct (Nat.leb_spec (length vals) index); [lia|].
  eexists. repeat split. unfold verify. cbn [mp_leaf_hash mp_path mp_root].
  set (leaves := merkle_leaf <$> vals).
  assert (leaves !! index = Some (merkle_leaf value)) as Hl
    by (unfold leaves; by rewrite list_lookup_fmap, Hv).
  rewrite Hl. cbn [default from_option id]. rewrite decide_True by done.
  rewrite hex_to_bytes_lower, (fold_merkle_path _ _ _ (merkle_leaf value)) by done.
  rewrite merkle_root_bytes_head by (by destruct leaves). by apply bool_decide_eq_true.
Qed.

(** [merkle_proof] produces, for every index in range, a proof that
    [MerkleProof::verify] accepts for the value at that index and whose root
    is [merkle_root] of the values; out of range it returns [None]. *)
Theorem merkle_proof_complete `{Sha256, Serialize T} (vals : list T) (index : nat) :
  match vals !! index with
  | None => merkle_proof vals index = None
  | Some value => ∃ p, merkle_proof vals index = Some p ∧
      mp_root p = merkle_root vals ∧ mp_index p = index ∧
      mp_leaf_count p = length vals ∧ verify p value = true
  end.
Proof.
  destruct (vals !! index) as [value|] eqn:Hv; [by apply merkle_proof_at|].
  apply lookup_ge_None in Hv. unfold merkle_proof. by rewrite (proj2 (Nat.leb_le _ _)).
Qed.

(** ** Soundness up to a SHA-256 collision *)
Definition sha_collision {sha : Sha256} : Prop :=
  ∃ x y : list byte, x ≠ y ∧ sha256 x = sha256 y.

Section sound.
Context {sha : Sha256} (sha256_length : ∀ x, length (sha256 x) = 32%nat).

Lemma sha_eq_or_collision x y : sha256 x = sha256 y → x = y ∨ sha_collision.
Proof.
  intros Heq. destruct (decide (x = y)); [by left|right]. by exists x, y.
Qed.
(** Domain separation: a leaf and a node never share a preimage. *)
Lemma leaf_node_disjoint b l r : leaf_preimage b ≠ node_preimage l r.
Proof.
  unfold leaf_preimage, node_preimage. intros [Heq _]%app_inj_1; [|done].
  by vm_compute in Heq.
Qed.
Lemma leaf_preimage_inj b b' : leaf_preimage b = leaf_preimage b' → b = b'.
Proof.
  unfold leaf_preimage. intros [_ Heq]%app_inj_1; [|done].
  by apply app_inj_1 in Heq as [_ ?].
Qed.
Lemma node_preimage_inj l r l' r' :
  length l = length l' ∨ length r = length r' → length l' = length r' →
  node_preimage l r = node_preimage l' r' → l = l' ∧ r = r'.
Proof.
  intros Hlen Hlen' Heq. assert (length l = length l') as Hll.
  { apply (f_equal length) in Heq. unfold node_preimage, len_prefix, u64_to_be_bytes in Heq.
    rewrite !length_app, !length_fmap in Heq. simpl in Heq. lia. }
  unfold node_preimage in Heq. apply app_inj_1 in Heq as [_ Heq]; [|done].
  apply app_inj_1 in Heq as [_ Heq]; [|done]. apply app_inj_1 in Heq as [-> Heq]; [|done].
  by apply app_inj_1 in Heq as [_ ->].
Qed.

(** The byte strings hashed on the way to a Merkle root: those of one level,
    of the levels of a tree, and of [merkle_root]. *)
Fixpoint level_inputs (level : list (list byte)) : list (list byte) :=
  match level with
  | [] => []
  | [l] => [node_preimage l l]
  | l :: r :: rest => node_preimage l r :: level_inputs rest
  end.
Fixpoint levels_inputs (fuel : nat) (level : list (list byte)) : list (list byte) :=
  match fuel with
  | O => []
  | S fuel =>
      if (length level <=? 1)%nat then []
      else level_inputs level ++ levels_inputs fuel (next_merkle_level level)
  end.
Definition root_inputs `{Serialize T} (vals : list T) : list (list byte) :=
  match vals with
  | [] => [bytes_of_string "detta-empty-merkle-root"]
  | _ => (leaf_preimage ∘ canonical_bytes <$> vals) ++ levels_inputs (length vals) (merkle_leaf <$> vals)
  end.
(** The byte strings hashed by the loop of [verify] and by [verify]. *)
Fixpoint path_inputs (current : list byte) (path : list MerkleStep) : list (list byte) :=
  match path with
  | [] => []
  | step :: path =>
      match hex_to_bytes (step_hash step) with
      | None => []
      | Some sibling =>
          let input := match step_side step with
                       | SideLeft => node_preimage sibling current
                       | SideRight => node_preimage current sibling
                       end in
          input :: path_inputs (sha256 input) path
      end
  end.
Definition verify_inputs `{Serialize T} (p : MerkleProof) (value : T) : list (list byte) :=
  leaf_preimage (canonical_bytes value) :: path_inputs (merkle_leaf value) (mp_path p).
(** A collision between two given finite lists of inputs. *)
Definition collision_between (xs ys : list (list byte)) : Prop :=
  ∃ x y, x ∈ xs ∧ y ∈ ys ∧ x ≠ y ∧ sha256 x = sha256 y.

Lemma sha_eq_or_between xs ys x y :
  x ∈ xs → y ∈ ys → sha256 x = sha256 y → x = y ∨ collision_between xs ys.
Proof. intros. destruct (decide (x = y)); [by left|right]. by exists x, y. Qed.
Lemma next_level_inputs level : next_merkle_level level = sha256 <$> level_inputs level.
Proof. induction level as [|x|x y l IH] using pairs_ind; [done..|]. cbn. by rewrite IH. Qed.
Lemma elem_of_level_inputs level x :
  x ∈ level_inputs level → ∃ l r, l ∈ level ∧ r ∈ level ∧ x = node_preimage l r.
Proof.
  induction level as [|a|a b l IH] using pairs_ind; simpl.
  - by intros ?%not_elem_of_nil.
  - intros ->%list_elem_of_singleton. exists a, a. set_solver.
  - intros [->|Hin]%elem_of_cons; [exists a, b; set_solver|].
    destruct (IH Hin) as (c & d & ? & ? & ->). exists c, d. set_solver.
Qed.
Lemma levels_inputs_iter fuel level :
  ∃ k, merkle_levels fuel level = Nat.iter k next_merkle_level level ∧
    ∀ j, (j < k)%nat → level_inputs (Nat.iter j next_merkle_level level) ⊆ levels_inputs fuel level.
Proof.
  clear sha256_length. revert level.
  induction fuel as [|fuel IH]; intros level; simpl; [exists O; split; [done|lia]|].
  destruct (length level <=? 1)%nat; [exists O; split; [done|lia]|].
  destruct (IH (next_merkle_level level)) as (k & -> & Hk). exists (S k).
  split; [by rewrite Nat.iter_succ_r|]. intros [|j] Hj; [simpl; set_solver|].
  rewrite Nat.iter_succ_r. specialize (Hk j ltac:(lia)). set_solver.
Qed.

Lemma fold_path_snoc cur path s r :
  fold_path cur (path ++ [s]) = Some r →
  ∃ c sib, fold_path cur path = Some c ∧
    let input := match step_side s with SideLeft => node_preimage sib c | SideRight => node_preimage c sib end in
    r = sha256 input ∧ path_inputs cur (path ++ [s]) = path_inputs cur path ++ [input].
Proof.
  revert cur. induction path as [|s' path IH]; intros cur; simpl.
  - intros (sib & -> & [= <-])%bind_Some. exists cur, sib. by destruct (step_side s).
  - intros (sib & -> & Hf)%bind_Some. simpl. destruct (IH _ Hf) as (c & sib' & Hc & Hr & Hp).
    exists c, sib'. split_and!; [done|done|]. simpl. f_equal. by destruct (step_side s').
Qed.
Lemma fold_path_length cur path r :
  length cur = 32%nat → fold_path cur path = Some r → length r = 32%nat.
Proof.
  destruct path as [|s path _] using rev_ind; [by intros ? [= ->]|].
  intros _ (c & sib & _ & -> & _)%fold_path_snoc. apply sha256_length.
Qed.

(** Leaf hashes whose inputs are among [ys]. *)
Definition leaves_from (ys leaves : list (list byte)) : Prop :=
  ∀ h, h ∈ leaves → ∃ b, leaf_preimage b ∈ ys ∧ h = sha256 (leaf_preimage b).

Lemma iter_level_length ys k leaves h :
  leaves_from ys leaves → h ∈ Nat.iter k next_merkle_level leaves → length h = 32%nat.
Proof.
  intros Hl. destruct k as [|k]; simpl.
  - intros (b & _ & ->)%Hl. apply sha256_length.
  - intros (a & b & _ & _ & ->)%elem_of_next_level. apply sha256_length.
Qed.

(** A path that ends in the [k]-th level started from a leaf. *)
Lemma fold_path_level xs ys k leaves path b r :
  leaves_from ys leaves →
  (∀ j, (j < k)%nat → level_inputs (Nat.iter j next_merkle_level leaves) ⊆ ys) →
  leaf_preimage b ∈ xs → path_inputs (sha256 (leaf_preimage b)) path ⊆ xs →
  fold_path (sha256 (leaf_preimage b)) path = Some r →
  r ∈ Nat.iter k next_merkle_level leaves →
  sha256 (leaf_preimage b) ∈ leaves ∨ collision_between xs ys.
Proof.
  intros Hleaves. revert path r. induction k as [|k IH]; intros path r Hys Hb Hxs Hf Hin.
  - destruct path as [|s path _] using rev_ind; [injection Hf as <-; by left|right].
    apply fold_path_snoc in Hf as (c & sib & _ & Hr & Hp). rewrite Hp in Hxs.
    destruct (Hleaves _ Hin) as (b' & Hb' & ->). symmetry in Hr.
    eapply sha_eq_or_between in Hr as [Hr|]; [|done|set_solver|done].
    destruct (step_side s); symmetry in Hr; by apply leaf_node_disjoint in Hr.
  - assert (∃ x, x ∈ level_inputs (Nat.iter k next_merkle_level leaves) ∧ r = sha256 x) as (x & Hx & ->).
    { simpl in Hin. rewrite next_level_inputs in Hin. apply list_elem_of_fmap in Hin as (x & -> & ?). eauto. }
    pose proof (Hys k ltac:(lia) _ Hx) as Hxy. apply elem_of_level_inputs in Hx as (l & r' & Hl & Hr' & ->).
    destruct path as [|s path _] using rev_ind.
    { injection Hf as Hf. eapply sha_eq_or_between in Hf as [Hf|]; [|by right|done..].
      by apply leaf_node_disjoint in Hf. }
    apply fold_path_snoc in Hf as (c & sib & Hc & Hr & Hp). rewrite Hp in Hxs.
    pose proof (fold_path_length _ _ _ (sha256_length _) Hc) as Hclen.
    pose proof (iter_level_length ys k _ _ Hleaves Hl) as Hllen.
    pose proof (iter_level_length ys k _ _ Hleaves Hr') as Hrlen.
    symmetry in Hr. eapply sha_eq_or_between in Hr as [Hr|]; [|by right|set_solver|done].
    eapply (IH path c); try done; [intros j Hj; apply Hys; lia|set_solver|].
    destruct (step_side s); apply node_preimage_inj in Hr as [-> ->]; try done; lia.
Qed.
End sound.

(** C31. A proof accepted by [MerkleProof::verify] against the Merkle root of
    [vals] is about a value whose canonical bytes are those of one of
    [vals], unless one of the byte strings that the verification hashed and
    one of those hashed to compute the root are different and have the same
    SHA-256 digest.  SHA-256 digests have 32 bytes. *)
Theorem merkle_proof_sound {sha : Sha256} `{Serialize T} (vals : list T) (p : MerkleProof) (value : T)
    (sha256_length : ∀ x, length (sha256 x) = 32%nat)
    (Hroot : mp_root p = merkle_root vals) (Hverify : verify p value = true) :
  (∃ v, v ∈ vals ∧ canonical_bytes v = canonical_bytes value) ∨
  collision_between (verify_inputs p value) (root_inputs vals).
Proof.
  unfold verify in Hverify. case_decide as Hleaf; [|done].
  rewrite Hleaf, hex_to_bytes_lower in Hverify.
  destruct (fold_path _ _) as [r|] eqn:Hf; [|done].
  apply bool_decide_eq_true in Hverify. rewrite Hroot in Hverify. apply (inj hex_lower) in Hverify.
  unfold verify_inputs. set (xs := _ :: _).
  assert (path_inputs (merkle_leaf value) (mp_path p) ⊆ xs) as Hxs by set_solver.
  assert (leaf_preimage (canonical_bytes value) ∈ xs) as Hx by apply list_elem_of_here.
  destruct (decide (vals = [])) as [->|Hne].
  - right. simpl in Hverify. unfold empty_root_bytes in Hverify.
    destruct (mp_path p) as [|s path _] using rev_ind.
    + injection Hf as <-. unfold merkle_leaf in Hverify. eapply sha_eq_or_between in Hverify as [Hv|Hc]; [|exact Hc|done|apply list_elem_of_here].
      by unfold leaf_preimage in Hv; vm_compute in Hv.
    + apply fold_path_snoc in Hf as (c & sib & _ & -> & Hp). rewrite Hp in Hxs.
      eapply sha_eq_or_between in Hverify as [Hv|Hc]; [|exact Hc|set_solver|apply list_elem_of_here].
      destruct (step_side s); unfold node_preimage in Hv; by vm_compute in Hv.
  - assert (merkle_leaf <$> vals ≠ []) as Hne' by (by destruct vals).
    assert (root_inputs vals = (leaf_preimage ∘ canonical_bytes <$> vals) ++
      levels_inputs (length (merkle_leaf <$> vals)) (merkle_leaf <$> vals)) as ->
      by (rewrite length_fmap; by destruct vals).
    set (leaves := merkle_leaf <$> vals) in *. set (ys := _ ++ _).
    pose proof (merkle_root_bytes_head _ Hne') as Hhead.
    destruct (levels_inputs_iter (length leaves) leaves) as (k & Hk & Hys).
    destruct (fold_path_level sha256_length xs ys k leaves (mp_path p)
      (canonical_bytes value) r) as [Hin|]; [ | |done|done|exact Hf| | |by right].
    + intros h (v & -> & Hv)%list_elem_of_fmap. exists (canonical_bytes v). split; [|done].
      apply elem_of_app. left. apply list_elem_of_fmap. by exists v.
    + intros j Hj. specialize (Hys j Hj). set_solver.
    + rewrite <- Hk, Hverify. destruct (merkle_levels _ _) as [|x l]; [done|].
      injection Hhead as ->. apply list_elem_of_here.
    + apply list_elem_of_fmap in Hin as (v & Heq & Hv). unfold merkle_leaf in Heq.
      eapply (sha_eq_or_between xs ys) in Heq as [Heq|]; [left|by right|done|].
      * exists v. split; [done|]. symmetry. by apply leaf_preimage_inj in Heq.
      * apply elem_of_app. left. apply list_elem_of_fmap. by exists v.
Qed.

(** A stand-in digest for witnesses: 32 bytes, taken from the end. *)
Definition toy_sha : Sha256 := λ x, take 32 (reverse x ++ replicate 32 x00).
Definition toy_serialize : Serialize string := bytes_of_string.

Lemma toy_sha_length x : length (toy_sha x) = 32%nat.
Proof. unfold toy_sha. rewrite length_take, length_app, length_replicate. lia. Qed.

Lemma merkle_proof_sound_witness :
  ∃ p : MerkleProof,
    merkle_proof (sha := toy_sha) (H := toy_serialize) ["a"; "b"; "c"] 1 = Some p ∧
    ((∃ v, v ∈ ["a"; "b"; "c"] ∧ bytes_of_string v = bytes_of_string "b") ∨
     collision_between (sha := toy_sha)
       (verify_inputs (sha := toy_sha) (H := toy_serialize) p "b")
       (root_inputs (sha := toy_sha) (H := toy_serialize) ["a"; "b"; "c"])).
Proof.
  destruct (merkle_proof (sha := toy_sha) (H := toy_serialize) ["a"; "b"; "c"] 1) as [p|] eqn:Hp;
    [|by vm_compute in Hp].
  exists p. split; [done|].
  apply (merkle_proof_sound (sha := toy_sha) (H := toy_serialize) ["a"; "b"; "c"] p "b").
  - apply toy_sha_length.
  - vm_compute in Hp. injection Hp as <-. by vm_compute.
  - vm_compute in Hp. injection Hp as <-. by vm_compute.
Defined.

(** ** What the proofs do not bind *)

(** Duplicating the last element of an odd level does not change the next. *)
Lemma next_level_duplicate {sha : Sha256} l x :
  Nat.Even (length l) →
  next_merkle_level (l ++ [x; x]) = next_merkle_level (l ++ [x]).
Proof.
  induction l as [|y|y z l IH] using pairs_ind; intros [n Hn]; simpl in *; [done|lia|].
  f_equal. apply IH. exists (n - 1)%nat. lia.
Qed.

(** The Merkle root does not commit to the number of leaves: a list of
    odd length three or more has the same root as the list with its last
    element repeated. *)
Theorem merkle_root_duplicate_last {sha : Sha256} `{Serialize T} (vals : list T) (last : T)
    (Hne : vals ≠ []) (Heven : Nat.Even (length vals)) :
  merkle_root (vals ++ [last; last]) = merkle_root (vals ++ [last]).
Proof.
  unfold merkle_root. f_equal. rewrite !fmap_app. simpl.
  set (l := merkle_leaf <$> vals). set (x := merkle_leaf last).
  assert (length l = length vals) as Hlen by (unfold l; apply length_fmap).
  assert (l ≠ []) as Hl by (by destruct vals).
  apply (inj Some). rewrite <- !merkle_root_bytes_head by (by destruct l).
  assert (∃ n, length (l ++ [x; x]) = S n ∧ length (l ++ [x]) = n ∧ (2 ≤ n)%nat) as (n & Hn1 & Hn2 & Hn).
  { exists (length (l ++ [x])). rewrite !length_app; simpl. destruct l; simpl in *; [done|lia]. }
  rewrite Hn1, Hn2. destruct n as [|n]; [lia|]. cbn [merkle_levels]. rewrite Hn1, Hn2.
  destruct (Nat.leb_spec (S (S n)) 1); [lia|]. destruct (Nat.leb_spec (S n) 1); [lia|].
  rewrite next_level_duplicate by (by rewrite Hlen).
  set (m := next_merkle_level (l ++ [x])).
  assert (0 < length m ≤ n)%nat as Hm by (apply next_level_shrinks; lia).
  clearbody m. clear -Hm. change (head (merkle_levels (S n) m) = head (merkle_levels n m)).
  revert m Hm. induction n as [|n IH]; intros m Hm; [lia|].
  change (head (if (length m <=? 1)%nat then m else merkle_levels (S n) (next_merkle_level m)) =
          head (if (length m <=? 1)%nat then m else merkle_levels n (next_merkle_level m))).
  destruct (Nat.leb_spec (length m) 1); [done|]. apply IH, next_level_shrinks; lia.
Qed.
Lemma merkle_root_duplicate_last_witness :
  merkle_root (sha := toy_sha) (H := toy_serialize) ["a"; "b"; "c"; "c"] =
  merkle_root (sha := toy_sha) (H := toy_serialize) ["a"; "b"; "c"].
Proof.
  apply (merkle_root_duplicate_last (sha := toy_sha) (H := toy_serialize) ["a"; "b"] "c"); [done|].
  by exists 1%nat.
Defined.

(** [verify] reads neither the index nor the leaf count of a proof. *)
Lemma verify_ignores_position {sha : Sha256} `{Serialize T} p (value : T) i n :
  verify {| mp_root := mp_root p; mp_leaf_hash := mp_leaf_hash p; mp_index := i;
            mp_leaf_count := n; mp_path := mp_path p |} value = verify p value.
Proof. done. Qed.
