(* ===== verification/Types.v ===== *)
(** * Types: the data model of the executor

    The enums and structs of crates/detta-core/src/lib.rs (lines 9-640 and
    1330-2560) and the aspect-module IR of crates/detta-aspects/src/lib.rs
    (lines 134-292).  An enum keeps its variants in order; a variant name
    shared by several enums carries a prefix.  [BTreeMap] is [gmap],
    [BTreeSet] is [gset]; where iteration order is observable it is
    [Prelude.entries]. *)
From S2P Require Import Prelude Merkle.
#[export] Set Warnings "-register-all".

Abbreviation ChainId := string.
Abbreviation ContractId := string.
Abbreviation Principal := string.
Abbreviation AssetId := string.
Abbreviation TxHash := string.
Abbreviation Nonce := N.
Abbreviation Amount := N.

(** ** Methods and arguments *)
Inductive Method :=
| Transfer | Approve | TransferFrom | Permit | AddLiquidity | Swap | SubmitPrice
| QueueBridgeMessage | RedeemBridgeMessage | PauseContract | UnpauseContract
| ScheduleUpgrade | ExecuteUpgrade | SchedulePolicyUpdate | ExecutePolicyUpdate
| DepositCollateral | Borrow | Liquidate | Stake | Unstake | RequestUnstake
| CompleteUnstake | ClaimStakingRewards | RouteTransferFrom | DeployToken
| DeployAmmPool | SubmitAspectModule | DeployAspectContract | RegisterAccountKey
| RevokeAccountKey
| Other (name : string).

Inductive Argument :=
| ArgPrincipal (p : Principal)
| ArgAsset (a : AssetId)
| ArgAmount (n : Amount)
| ArgText (s : string)
| ArgCertificate (s : string).

(** ** Storage keys and values *)
Inductive StateKey :=
| Balance (contract : ContractId) (owner : Principal) (asset : AssetId)
| TotalSupply (contract : ContractId) (asset : AssetId)
| Reserve (contract : ContractId) (asset : AssetId)
| AmmFeeCollected (contract : ContractId) (asset : AssetId)
| LpSupply (contract : ContractId)
| LpBalance (contract : ContractId) (owner : Principal)
| OraclePrice (contract : ContractId) (asset : AssetId)
| OracleTimestamp (contract : ContractId) (asset : AssetId)
| BridgeMessageConsumed (contract : ContractId) (message_id : string)
| Collateral (contract : ContractId) (borrower : Principal) (asset : AssetId)
| Debt (contract : ContractId) (borrower : Principal) (asset : AssetId)
| DebtLastAccrualHeight (contract : ContractId) (borrower : Principal) (asset : AssetId)
| BadDebt (contract : ContractId) (asset : AssetId)
| StakeBalance (contract : ContractId) (staker : Principal) (asset : AssetId)
| TotalStaked (contract : ContractId) (asset : AssetId)
| PendingUnbond (contract : ContractId) (staker : Principal) (asset : AssetId)
| TotalPendingUnbond (contract : ContractId) (asset : AssetId)
| StakingPenaltyCollected (contract : ContractId) (asset : AssetId)
| UnbondReadyHeight (contract : ContractId) (staker : Principal) (asset : AssetId)
| StakingRewardBalance (contract : ContractId) (staker : Principal) (asset : AssetId)
| StakingLastRewardHeight (contract : ContractId) (staker : Principal) (asset : AssetId)
| AspectState (contract : ContractId) (aspect state : string) (key : list string).

Definition owner_contract (k : StateKey) : ContractId :=
  match k with
  | Balance c _ _ | TotalSupply c _ | Reserve c _ | AmmFeeCollected c _ | LpSupply c
  | LpBalance c _ | OraclePrice c _ | OracleTimestamp c _ | BridgeMessageConsumed c _
  | Collateral c _ _ | Debt c _ _ | DebtLastAccrualHeight c _ _ | BadDebt c _
  | StakeBalance c _ _ | TotalStaked c _ | PendingUnbond c _ _ | TotalPendingUnbond c _
  | StakingPenaltyCollected c _ | UnbondReadyHeight c _ _ | StakingRewardBalance c _ _
  | StakingLastRewardHeight c _ _ | AspectState c _ _ _ => c
  end.

Inductive StateValue := UInt (v : Amount).
Definition as_uint (v : StateValue) : Amount := match v with UInt v => v end.

(** ** The capability registry *)
Inductive GrantRight := SpendAllowance | UpdateOracle | RightGovernanceAdmin | SubmitTransaction.
Inductive GrantKey :=
| AccountSigner (account : Principal) (public_key_hex : string)
| Allowance (contract : ContractId) (owner spender : Principal) (asset : AssetId)
| OracleUpdater (contract : ContractId) (subject : Principal)
| GovernanceAdmin (contract : ContractId) (subject : Principal).

(** ** Orders and encodings

    The derived [Ord] of these enums compares the variant index, then the
    fields from left to right: the lexicographic order on the index and the
    list of string fields. *)
Definition encode_Method (m : Method) : N * list string :=
  match m with
  | Transfer => (0, []) | Approve => (1, []) | TransferFrom => (2, []) | Permit => (3, [])
  | AddLiquidity => (4, []) | Swap => (5, []) | SubmitPrice => (6, [])
  | QueueBridgeMessage => (7, []) | RedeemBridgeMessage => (8, [])
  | PauseContract => (9, []) | UnpauseContract => (10, []) | ScheduleUpgrade => (11, [])
  | ExecuteUpgrade => (12, []) | SchedulePolicyUpdate => (13, [])
  | ExecutePolicyUpdate => (14, []) | DepositCollateral => (15, []) | Borrow => (16, [])
  | Liquidate => (17, []) | Stake => (18, []) | Unstake => (19, []) | RequestUnstake => (20, [])
  | CompleteUnstake => (21, []) | ClaimStakingRewards => (22, [])
  | RouteTransferFrom => (23, []) | DeployToken => (24, []) | DeployAmmPool => (25, [])
  | SubmitAspectModule => (26, []) | DeployAspectContract => (27, [])
  | RegisterAccountKey => (28, []) | RevokeAccountKey => (29, []) | Other s => (30, [s])
  end.
Definition decode_Method (x : N * list string) : option Method :=
  match x with
  | (30, [s]) => Some (Other s)
  | (n, []) =>
      [Transfer; Approve; TransferFrom; Permit; AddLiquidity; Swap; SubmitPrice;
       QueueBridgeMessage; RedeemBridgeMessage; PauseContract; UnpauseContract;
       ScheduleUpgrade; ExecuteUpgrade; SchedulePolicyUpdate; ExecutePolicyUpdate;
       DepositCollateral; Borrow; Liquidate; Stake; Unstake; RequestUnstake; CompleteUnstake;
       ClaimStakingRewards; RouteTransferFrom; DeployToken; DeployAmmPool;
       SubmitAspectModule; DeployAspectContract; RegisterAccountKey; RevokeAccountKey]
      !! N.to_nat n
  | _ => None
  end.
Definition encode_StateKey (k : StateKey) : N * list string :=
  match k with
  | Balance c o a => (0, [c; o; a])
  | TotalSupply c a => (1, [c; a])
  | Reserve c a => (2, [c; a])
  | AmmFeeCollected c a => (3, [c; a])
  | LpSupply c => (4, [c])
  | LpBalance c o => (5, [c; o])
  | OraclePrice c a => (6, [c; a])
  | OracleTimestamp c a => (7, [c; a])
  | BridgeMessageConsumed c m => (8, [c; m])
  | Collateral c b a => (9, [c; b; a])
  | Debt c b a => (10, [c; b; a])
  | DebtLastAccrualHeight c b a => (11, [c; b; a])
  | BadDebt c a => (12, [c; a])
  | StakeBalance c s a => (13, [c; s; a])
  | TotalStaked c a => (14, [c; a])
  | PendingUnbond c s a => (15, [c; s; a])
  | TotalPendingUnbond c a => (16, [c; a])
  | StakingPenaltyCollected c a => (17, [c; a])
  | UnbondReadyHeight c s a => (18, [c; s; a])
  | StakingRewardBalance c s a => (19, [c; s; a])
  | StakingLastRewardHeight c s a => (20, [c; s; a])
  | AspectState c a s key => (21, c :: a :: s :: key)
  end.
Definition decode_StateKey (x : N * list string) : option StateKey :=
  match x with
  | (0, [c; o; a]) => Some (Balance c o a)
  | (1, [c; a]) => Some (TotalSupply c a)
  | (2, [c; a]) => Some (Reserve c a)
  | (3, [c; a]) => Some (AmmFeeCollected c a)
  | (4, [c]) => Some (LpSupply c)
  | (5, [c; o]) => Some (LpBalance c o)
  | (6, [c; a]) => Some (OraclePrice c a)
  | (7, [c; a]) => Some (OracleTimestamp c a)
  | (8, [c; m]) => Some (BridgeMessageConsumed c m)
  | (9, [c; b; a]) => Some (Collateral c b a)
  | (10, [c; b; a]) => Some (Debt c b a)
  | (11, [c; b; a]) => Some (DebtLastAccrualHeight c b a)
  | (12, [c; a]) => Some (BadDebt c a)
  | (13, [c; s; a]) => Some (StakeBalance c s a)
  | (14, [c; a]) => Some (TotalStaked c a)
  | (15, [c; s; a]) => Some (PendingUnbond c s a)
  | (16, [c; a]) => Some (TotalPendingUnbond c a)
  | (17, [c; a]) => Some (StakingPenaltyCollected c a)
  | (18, [c; s; a]) => Some (UnbondReadyHeight c s a)
  | (19, [c; s; a]) => Some (StakingRewardBalance c s a)
  | (20, [c; s; a]) => Some (StakingLastRewardHeight c s a)
  | (21, c :: a :: s :: key) => Some (AspectState c a s key)
  | _ => None
  end.
Definition encode_GrantKey (k : GrantKey) : N * list string :=
  match k with
  | AccountSigner a p => (0, [a; p])
  | Allowance c o s a => (1, [c; o; s; a])
  | OracleUpdater c s => (2, [c; s])
  | GovernanceAdmin c s => (3, [c; s])
  end.
Definition decode_GrantKey (x : N * list string) : option GrantKey :=
  match x with
  | (0, [a; p]) => Some (AccountSigner a p)
  | (1, [c; o; s; a]) => Some (Allowance c o s a)
  | (2, [c; s]) => Some (OracleUpdater c s)
  | (3, [c; s]) => Some (GovernanceAdmin c s)
  | _ => None
  end.

#[export] Instance Method_eq_dec : EqDecision Method.
Proof. solve_decision. Defined.
#[export] Instance Argument_eq_dec : EqDecision Argument.
Proof. solve_decision. Defined.
#[export] Instance StateKey_eq_dec : EqDecision StateKey.
Proof. solve_decision. Defined.
#[export] Instance StateValue_eq_dec : EqDecision StateValue.
Proof. solve_decision. Defined.
#[export] Instance GrantRight_eq_dec : EqDecision GrantRight.
Proof. solve_decision. Defined.
#[export] Instance GrantKey_eq_dec : EqDecision GrantKey.
Proof. solve_decision. Defined.

Lemma decode_encode_Method m : decode_Method (encode_Method m) = Some m.
Proof. by destruct m. Qed.
Lemma decode_encode_StateKey k : decode_StateKey (encode_StateKey k) = Some k.
Proof. by destruct k. Qed.
Lemma decode_encode_GrantKey k : decode_GrantKey (encode_GrantKey k) = Some k.
Proof. by destruct k. Qed.

Lemma inj_from_decode {A B} (f : A → B) (g : B → option A) :
  (∀ x, g (f x) = Some x) → Inj (=) (=) f.
Proof. intros Hgf x y Heq. apply (inj Some). by rewrite <- !Hgf, Heq. Qed.
#[export] Instance encode_Method_inj : Inj (=) (=) encode_Method.
Proof. eapply inj_from_decode, decode_encode_Method. Qed.
#[export] Instance encode_StateKey_inj : Inj (=) (=) encode_StateKey.
Proof. eapply inj_from_decode, decode_encode_StateKey. Qed.
#[export] Instance encode_GrantKey_inj : Inj (=) (=) encode_GrantKey.
Proof. eapply inj_from_decode, decode_encode_GrantKey. Qed.

#[export] Instance Method_countable : Countable Method :=
  inj_countable encode_Method decode_Method decode_encode_Method.
#[export] Instance StateKey_countable : Countable StateKey :=
  inj_countable encode_StateKey decode_StateKey decode_encode_StateKey.
#[export] Instance GrantKey_countable : Countable GrantKey :=
  inj_countable encode_GrantKey decode_GrantKey decode_encode_GrantKey.
#[export] Instance cmp_Method : Cmp Method := λ x y, cmp (encode_Method x) (encode_Method y).
#[export] Instance cmp_StateKey : Cmp StateKey := λ x y, cmp (encode_StateKey x) (encode_StateKey y).
#[export] Instance cmp_GrantKey : Cmp GrantKey := λ x y, cmp (encode_GrantKey x) (encode_GrantKey y).
#[export] Instance cmp_Method_laws : CmpLaws Method.
Proof. exact (cmp_via_laws encode_Method). Qed.
#[export] Instance cmp_StateKey_laws : CmpLaws StateKey.
Proof. exact (cmp_via_laws encode_StateKey). Qed.
#[export] Instance cmp_GrantKey_laws : CmpLaws GrantKey.
Proof. exact (cmp_via_laws encode_GrantKey). Qed.

Definition encode_GrantRight (r : GrantRight) : N :=
  match r with SpendAllowance => 0 | UpdateOracle => 1 | RightGovernanceAdmin => 2 | SubmitTransaction => 3 end.
Definition decode_GrantRight (n : N) : option GrantRight :=
  [SpendAllowance; UpdateOracle; RightGovernanceAdmin; SubmitTransaction] !! N.to_nat n.
Lemma decode_encode_GrantRight r : decode_GrantRight (encode_GrantRight r) = Some r.
Proof. by destruct r. Qed.
#[export] Instance GrantRight_countable : Countable GrantRight :=
  inj_countable encode_GrantRight decode_GrantRight decode_encode_GrantRight.

Record Grant := {
  g_issuer : Principal;
  g_subject : Principal;
  g_rights : gset GrantRight;
  g_limit : option Amount;
  g_spent : Amount;
  g_active : bool;
  g_revoked : bool;
}.
Definition grant_allowance (owner spender : Principal) (amount : Amount) : Grant :=
  {| g_issuer := owner; g_subject := spender; g_rights := {[SpendAllowance]};
     g_limit := Some amount; g_spent := 0; g_active := true; g_revoked := false |}.
Definition grant_oracle_updater (subject : Principal) : Grant :=
  {| g_issuer := subject; g_subject := subject; g_rights := {[UpdateOracle]};
     g_limit := None; g_spent := 0; g_active := true; g_revoked := false |}.
Definition grant_governance_admin (subject : Principal) : Grant :=
  {| g_issuer := subject; g_subject := subject; g_rights := {[RightGovernanceAdmin]};
     g_limit := None; g_spent := 0; g_active := true; g_revoked := false |}.
Definition grant_account_signer (account : Principal) : Grant :=
  {| g_issuer := account; g_subject := account; g_rights := {[SubmitTransaction]};
     g_limit := None; g_spent := 0; g_active := true; g_revoked := false |}.
Definition remaining (g : Grant) : Amount :=
  match g_limit g with
  | Some limit => saturating_sub limit (g_spent g)
  | None => u128_max
  end.

(** ** The aspect-module IR (crates/detta-aspects) *)
Inductive Expr :=
| Atom (atom : string)
| ExprList (items : list Expr).
(** Induction on expressions, with the subexpressions of a list. *)
Fixpoint Expr_nested_ind (P : Expr → Prop) (Hatom : ∀ a, P (Atom a))
    (Hlist : ∀ items, Forall P items → P (ExprList items)) (e : Expr) : P e :=
  match e with
  | Atom a => Hatom a
  | ExprList items =>
      Hlist items ((fix go l : Forall P l :=
        match l with
        | [] => Forall_nil_2 P
        | x :: l => Forall_cons_2 P x l (Expr_nested_ind P Hatom Hlist x) (go l)
        end) items)
  end.

Record AspectDef := {
  ad_aspect : string; ad_is_abstract : bool; ad_extends : gset string;
  ad_conflicts : gset string; ad_provides : gset string; ad_requires : gset string;
}.
Record BundleDef := {
  bd_bundle : string; bd_includes : gset string; bd_extends : gset string;
  bd_constraints : gmap string Expr;
}.
Record ProjectionDef := { pd_bundle : string; pd_projection : string; pd_expr : Expr }.
Record ActionDef := {
  act_aspect : string; act_action : string; act_declared : bool; act_body : option Expr;
}.
Record StateSchema := { ss_aspect : string; ss_state : string; ss_type_expr : Expr }.
Record RegistrySchema := { rs_aspect : string; rs_registry : string; rs_type_expr : Expr }.
Record InvariantDef := { inv_aspect : string; inv_invariant : string; inv_expr : Expr }.
Record MethodAbiDef := {
  abi_bundle : string; abi_projection : string; abi_args : Expr; abi_return_type : Expr;
}.
Inductive ContractCallTarget := TargetAny | TargetExact (contract : string).
Record ContractCallPattern := { ccp_target : ContractCallTarget; ccp_method : string }.
Record ContractStateReadPattern := { crp_target : ContractCallTarget; crp_state : string }.
Inductive AuthorityKind :=
| AuthTxSender | AuthMsgSender | AuthRoleGrant | AuthAllowance | AuthPermitCertificate
| AuthOracleUpdaterGrant | AuthBridgeCertificate | AuthGovernanceAdminGrant
| AuthCustom (name : string).
Inductive EffectKind :=
| FxReadState | FxWriteState | FxReadRegistry | FxWriteRegistry | FxConsumeRegistryGrant
| FxEmitEvent | FxCallContract | FxDeployContract | FxScheduleUpgrade | FxExecuteUpgrade
| FxCrossShardOutboxAppend | FxUsePermitCertificate | FxUseBridgeCertificate | FxAbort.

#[export] Instance ContractCallTarget_eq_dec : EqDecision ContractCallTarget.
Proof. solve_decision. Defined.
#[export] Instance ContractCallPattern_eq_dec : EqDecision ContractCallPattern.
Proof. solve_decision. Defined.
#[export] Instance ContractStateReadPattern_eq_dec : EqDecision ContractStateReadPattern.
Proof. solve_decision. Defined.
#[export] Instance EffectKind_eq_dec : EqDecision EffectKind.
Proof. solve_decision. Defined.

Definition encode_EffectKind (e : EffectKind) : N :=
  match e with
  | FxReadState => 0 | FxWriteState => 1 | FxReadRegistry => 2 | FxWriteRegistry => 3
  | FxConsumeRegistryGrant => 4 | FxEmitEvent => 5 | FxCallContract => 6
  | FxDeployContract => 7 | FxScheduleUpgrade => 8 | FxExecuteUpgrade => 9
  | FxCrossShardOutboxAppend => 10 | FxUsePermitCertificate => 11
  | FxUseBridgeCertificate => 12 | FxAbort => 13
  end.
Definition decode_EffectKind (n : N) : option EffectKind :=
  [FxReadState; FxWriteState; FxReadRegistry; FxWriteRegistry; FxConsumeRegistryGrant;
   FxEmitEvent; FxCallContract; FxDeployContract; FxScheduleUpgrade; FxExecuteUpgrade;
   FxCrossShardOutboxAppend; FxUsePermitCertificate; FxUseBridgeCertificate; FxAbort]
  !! N.to_nat n.
Lemma decode_encode_EffectKind e : decode_EffectKind (encode_EffectKind e) = Some e.
Proof. by destruct e. Qed.
#[export] Instance EffectKind_countable : Countable EffectKind :=
  inj_countable encode_EffectKind decode_EffectKind decode_encode_EffectKind.

Definition encode_target (t : ContractCallTarget) : option string :=
  match t with TargetAny => None | TargetExact c => Some c end.
Definition decode_target (o : option string) : ContractCallTarget :=
  match o with None => TargetAny | Some c => TargetExact c end.
#[export] Instance ContractCallTarget_countable : Countable ContractCallTarget.
Proof. refine (inj_countable' encode_target decode_target _). by intros []. Defined.
#[export] Instance ContractCallPattern_countable : Countable ContractCallPattern.
Proof.
  refine (inj_countable' (λ p, (ccp_target p, ccp_method p))
    (λ x, {| ccp_target := x.1; ccp_method := x.2 |}) _). by intros [].
Defined.
#[export] Instance ContractStateReadPattern_countable : Countable ContractStateReadPattern.
Proof.
  refine (inj_countable' (λ p, (crp_target p, crp_state p))
    (λ x, {| crp_target := x.1; crp_state := x.2 |}) _). by intros [].
Defined.

Record MethodPolicyIr := {
  mpi_bundle : string;
  mpi_projection : string;
  mpi_authority : AuthorityKind;
  mpi_effects : gset EffectKind;
  mpi_invariants : gset string;
  mpi_call_allowlist : gset ContractCallPattern;
  mpi_read_allowlist : gset ContractStateReadPattern;
}.
Record AspectModuleIr := {
  ir_taxonomy_version : string;
  ir_source_root : string;
  ir_types : gmap string Expr;
  ir_aspects : gmap string AspectDef;
  ir_bundles : gmap string BundleDef;
  ir_projections : gmap string ProjectionDef;
  ir_actions : gmap string ActionDef;
  ir_storage_schema : gmap string StateSchema;
  ir_registry_schema : gmap string RegistrySchema;
  ir_invariants : gmap string InvariantDef;
  ir_abi : gmap string MethodAbiDef;
  ir_policies : gmap string MethodPolicyIr;
}.
Record AspectArtifactRoots := {
  ar_ir_root : string; ar_abi_root : string; ar_policy_root : string;
  ar_storage_schema_root : string; ar_registry_schema_root : string; ar_invariant_root : string;
}.
Record AspectModuleRecord := {
  mod_module_id : string;
  mod_module_hash : string;
  mod_taxonomy_version : string;
  mod_source_root : string;
  mod_canonical_source : option string;
  mod_ir_root : string;
  mod_ir : option AspectModuleIr;
  mod_abi_root : string;
  mod_policy_root : string;
  mod_storage_schema_root : string;
  mod_registry_schema_root : string;
  mod_invariant_root : string;
}.
Record AspectModuleRoots := {
  amr_source_root : string; amr_ir_root : string; amr_abi_root : string;
  amr_policy_root : string; amr_storage_schema_root : string;
  amr_registry_schema_root : string; amr_invariant_root : string;
}.

(** ** Contracts and policies *)
Inductive ContractKind :=
| Token
| AmmPool (asset_a asset_b : AssetId) (swap_fee_bps : N)
| Oracle (asset : AssetId) (max_age : N)
| Bridge (source_chain : ChainId)
| Governance (governed_contract : ContractId) (timelock_delay : N)
| LendingVault (collateral_asset debt_asset : AssetId) (oracle_contract : ContractId)
    (ltv_bps max_oracle_age interest_bps_per_block liquidation_threshold_bps : N)
| Staking (asset : AssetId) (unbonding_delay : N) (reward_per_block : Amount)
    (unstake_penalty_bps : N)
| Router (token_contract : ContractId)
| Factory
| AccountRegistry
| AspectModule (module_hash bundle_id abi_root policy_root invariant_root : string).

Inductive ContractInvariant :=
| TokenSupplyMatchesBalances | AmmPoolAssetsDistinct | AmmLpSupplyMatchesBalances
| OracleUpdatesRequireLiveGrant | OracleFreshnessCheckedByConsumers
| BridgeInboundMessagesConsumedOnce | BridgeOutboundMessageIdsUnique
| GovernanceChangesRequireAdminGrant | GovernanceUpgradesRespectTimelock
| LendingBorrowWithinCollateralLimit | StakingTotalMatchesBalances
| StakingPendingUnbondingMatchesTotal | RouterDoesNotInheritCallerWriteScope
| FactoryDeploymentsDeclarePolicies | AccountSignerKeysCanonical
| AspectLocalInvariant (module_hash aspect invariant : string).

Inductive PolicyAuthority :=
| TxSender | LiveAllowanceGrant | PermitCertificate | OracleUpdaterGrant
| BridgeCertificate | GovernanceAdminGrant.
Inductive PolicyEffect :=
| StorageWrite | RegistryWrite | EventEmit | ModuleRegister | ContractPause
| UpgradeSchedule | ContractCodeUpgrade | PolicyUpdateSchedule | MethodPolicyUpdate
| CrossContractCall | CrossShardOutboxAppend | ContractDeploy.
Inductive ReentrancyMode := NonReentrant.

#[export] Instance ContractInvariant_eq_dec : EqDecision ContractInvariant.
Proof. solve_decision. Defined.
#[export] Instance PolicyAuthority_eq_dec : EqDecision PolicyAuthority.
Proof. solve_decision. Defined.
#[export] Instance PolicyEffect_eq_dec : EqDecision PolicyEffect.
Proof. solve_decision. Defined.

Definition encode_ContractInvariant (i : ContractInvariant) : N * list string :=
  match i with
  | TokenSupplyMatchesBalances => (0, []) | AmmPoolAssetsDistinct => (1, [])
  | AmmLpSupplyMatchesBalances => (2, []) | OracleUpdatesRequireLiveGrant => (3, [])
  | OracleFreshnessCheckedByConsumers => (4, []) | BridgeInboundMessagesConsumedOnce => (5, [])
  | BridgeOutboundMessageIdsUnique => (6, []) | GovernanceChangesRequireAdminGrant => (7, [])
  | GovernanceUpgradesRespectTimelock => (8, []) | LendingBorrowWithinCollateralLimit => (9, [])
  | StakingTotalMatchesBalances => (10, []) | StakingPendingUnbondingMatchesTotal => (11, [])
  | RouterDoesNotInheritCallerWriteScope => (12, []) | FactoryDeploymentsDeclarePolicies => (13, [])
  | AccountSignerKeysCanonical => (14, []) | AspectLocalInvariant m a i => (15, [m; a; i])
  end.
Definition decode_ContractInvariant (x : N * list string) : option ContractInvariant :=
  match x with
  | (15, [m; a; i]) => Some (AspectLocalInvariant m a i)
  | (n, []) =>
      [TokenSupplyMatchesBalances; AmmPoolAssetsDistinct; AmmLpSupplyMatchesBalances;
       OracleUpdatesRequireLiveGrant; OracleFreshnessCheckedByConsumers;
       BridgeInboundMessagesConsumedOnce; BridgeOutboundMessageIdsUnique;
       GovernanceChangesRequireAdminGrant; GovernanceUpgradesRespectTimelock;
       LendingBorrowWithinCollateralLimit; StakingTotalMatchesBalances;
       StakingPendingUnbondingMatchesTotal; RouterDoesNotInheritCallerWriteScope;
       FactoryDeploymentsDeclarePolicies; AccountSignerKeysCanonical] !! N.to_nat n
  | _ => None
  end.
Lemma decode_encode_ContractInvariant i : decode_ContractInvariant (encode_ContractInvariant i) = Some i.
Proof. by destruct i. Qed.
#[export] Instance ContractInvariant_countable : Countable ContractInvariant :=
  inj_countable encode_ContractInvariant decode_ContractInvariant decode_encode_ContractInvariant.
#[export] Instance cmp_ContractInvariant : Cmp ContractInvariant :=
  λ x y, cmp (encode_ContractInvariant x) (encode_ContractInvariant y).

Definition all_PolicyEffect : list PolicyEffect :=
  [StorageWrite; RegistryWrite; EventEmit; ModuleRegister; ContractPause; UpgradeSchedule;
   ContractCodeUpgrade; PolicyUpdateSchedule; MethodPolicyUpdate; CrossContractCall;
   CrossShardOutboxAppend; ContractDeploy].
Definition encode_PolicyEffect (e : PolicyEffect) : N :=
  match e with
  | StorageWrite => 0 | RegistryWrite => 1 | EventEmit => 2 | ModuleRegister => 3
  | ContractPause => 4 | UpgradeSchedule => 5 | ContractCodeUpgrade => 6
  | PolicyUpdateSchedule => 7 | MethodPolicyUpdate => 8 | CrossContractCall => 9
  | CrossShardOutboxAppend => 10 | ContractDeploy => 11
  end.
Definition decode_PolicyEffect (n : N) : option PolicyEffect := all_PolicyEffect !! N.to_nat n.
Lemma decode_encode_PolicyEffect e : decode_PolicyEffect (encode_PolicyEffect e) = Some e.
Proof. by destruct e. Qed.
#[export] Instance PolicyEffect_countable : Countable PolicyEffect :=
  inj_countable encode_PolicyEffect decode_PolicyEffect decode_encode_PolicyEffect.

Record MethodPolicy := {
  mp_authority : PolicyAuthority;
  mp_reentrancy : ReentrancyMode;
  mp_effects : gset PolicyEffect;
  mp_invariants : gset ContractInvariant;
}.
Record ContractRecord := {
  cr_contract_id : ContractId;
  cr_code_hash : string;
  cr_kind : ContractKind;
  cr_exported_methods : gset Method;
  cr_method_policies : gmap Method MethodPolicy;
  cr_declared_invariants : gset ContractInvariant;
}.
Definition method_policy (r : ContractRecord) (m : Method) : option MethodPolicy :=
  cr_method_policies r !! m.

Record PolicyKey := { pk_contract : ContractId; pk_method : Method }.
Record InvariantFailure := { if_contract : ContractId; if_invariant : ContractInvariant }.
Record ScheduledUpgrade := {
  su_upgrade_id : string; su_governance_contract : ContractId; su_target_contract : ContractId;
  su_new_code_hash : string; su_execute_after_height : N; su_executed : bool;
}.
Record ScheduledPolicyUpdate := {
  spu_update_id : string; spu_governance_contract : ContractId; spu_target_contract : ContractId;
  spu_method : Method; spu_effect : PolicyEffect; spu_execute_after_height : N;
  spu_executed : bool;
}.
Record CrossShardMessage := {
  csm_source_chain : ChainId; csm_source_contract : ContractId; csm_source_height : N;
  csm_destination_chain : ChainId; csm_destination_contract : ContractId;
  csm_message_id : string; csm_recipient : Principal; csm_asset : AssetId; csm_amount : Amount;
}.
Record AmmParameters := { amm_swap_fee_bps : N }.
Record LendingRiskParameters := {
  lr_ltv_bps : N; lr_max_oracle_age : N; lr_interest_bps_per_block : N;
  lr_liquidation_threshold_bps : N;
}.
Record StakingParameters := {
  sp_unbonding_delay : N; sp_reward_per_block : Amount; sp_unstake_penalty_bps : N;
}.
Record LendingConfig := {
  lc_collateral_asset : AssetId; lc_debt_asset : AssetId; lc_oracle_contract : ContractId;
  lc_ltv_bps : N; lc_max_oracle_age : N; lc_interest_bps_per_block : N;
  lc_liquidation_threshold_bps : N;
}.
Inductive AssetLedger := NativeToken (contract : ContractId) | AspectToken (contract : ContractId).

(** ** Transactions, events and receipts *)
Record Transaction := {
  tx_chain_id : ChainId;
  tx_tx_hash : TxHash;
  tx_sender : Principal;
  tx_nonce : Nonce;
  tx_valid_until_height : option N;
  tx_target : ContractId;
  tx_method : Method;
  tx_args : list Argument;
  tx_signature_ok : bool;
  tx_budget : N;
}.

Inductive EventPayload :=
| EvTransfer (from to : Principal) (asset : AssetId) (amount : Amount)
| EvApproval (owner spender : Principal) (asset : AssetId) (amount : Amount)
| EvLiquidityAdded (provider : Principal) (asset_a : AssetId) (amount_a : Amount)
    (asset_b : AssetId) (amount_b minted_lp : Amount)
| EvSwap (trader : Principal) (input_asset output_asset : AssetId)
    (amount_in fee_amount amount_out : Amount)
| EvPriceUpdated (updater : Principal) (asset : AssetId) (price : Amount) (timestamp : N)
| EvBridgeMessageRedeemed (message_id : string) (recipient : Principal) (asset : AssetId)
    (amount : Amount)
| EvCrossShardMessageQueued (message_id : string) (destination_chain : ChainId)
    (destination_contract : ContractId) (recipient : Principal) (asset : AssetId) (amount : Amount)
| EvContractPaused (contract : ContractId) (admin : Principal)
| EvContractUnpaused (contract : ContractId) (admin : Principal)
| EvUpgradeScheduled (upgrade_id : string) (contract : ContractId) (new_code_hash : string)
    (execute_after_height : N) (admin : Principal)
| EvUpgradeExecuted (upgrade_id : string) (contract : ContractId)
    (old_code_hash new_code_hash : string) (admin : Principal)
| EvPolicyUpdateScheduled (update_id : string) (contract : ContractId) (method : Method)
    (effect : PolicyEffect) (execute_after_height : N) (admin : Principal)
| EvPolicyUpdateExecuted (update_id : string) (contract : ContractId) (method : Method)
    (effect : PolicyEffect) (old_policy_root new_policy_root : string) (admin : Principal)
| EvCollateralDeposited (borrower : Principal) (asset : AssetId) (amount : Amount)
| EvBorrowed (borrower : Principal) (asset : AssetId) (amount : Amount)
| EvLiquidated (borrower liquidator : Principal) (debt_asset : AssetId) (repaid_debt : Amount)
    (collateral_asset : AssetId) (seized_collateral remaining_bad_debt : Amount)
| EvStaked (staker : Principal) (asset : AssetId) (amount : Amount)
| EvUnstaked (staker : Principal) (asset : AssetId) (amount : Amount)
| EvUnstakeRequested (staker : Principal) (asset : AssetId) (amount : Amount) (ready_height : N)
| EvUnbondingCompleted (staker : Principal) (asset : AssetId) (amount : Amount)
| EvStakingRewardsClaimed (staker : Principal) (asset : AssetId) (amount : Amount)
| EvContractDeployed (contract : ContractId) (kind code_hash : string)
| EvAspectModuleSubmitted (module_id module_hash taxonomy_version : string)
| EvAspectEvent (module_hash event : string)
| EvAccountKeyRegistered (account : Principal) (public_key_hex : string)
| EvAccountKeyRevoked (account : Principal) (public_key_hex : string)
| EvStakingPenaltyApplied (staker : Principal) (asset : AssetId)
    (requested_amount penalty_amount released_amount : Amount).
Record Event := {
  ev_contract : ContractId; ev_tx_hash : TxHash; ev_index : N; ev_payload : EventPayload;
}.

Inductive TxStatus := Committed | Reverted | Rejected.
Inductive ExecutionError :=
| ChainMismatch | InvalidSignature | NonceReplay | TransactionExpired | ContractNotFound
| MethodNotExported | InvalidArguments | PolicyMissing | RegistryGrantMissing
| RegistryGrantInactive | RegistryGrantRevoked | RegistryRightMissing | AllowanceExceeded
| InsufficientBalance | InsufficientLiquidity | SlippageExceeded | InvalidPoolAsset
| UnauthorizedOracleUpdater | StaleOraclePrice | InvalidBridgeMessage | BridgeMessageReplay
| OutboundMessageReplay | UnauthorizedGovernance | ContractPaused | UpgradeAlreadyScheduled
| UpgradeNotFound | UpgradeAlreadyExecuted | TimelockNotReady | MigrationInvariantViolation
| PolicyUpdateAlreadyScheduled | PolicyUpdateNotFound | PolicyUpdateAlreadyExecuted
| OutOfGas | InsufficientCollateral | InsufficientStake | ArithmeticOverflow
| WriteScopeViolation | ContractIsolationViolation | ReentrancyViolation | InvariantViolation
| InvalidCertificate | CertificateReplay | ForbiddenPrimitive | UnauthorizedContractCall
| UnauthorizedContractStateRead.
Inductive ReturnValue := RetUnit | RetUInt (v : Amount).

#[export] Instance TxStatus_eq_dec : EqDecision TxStatus.
Proof. solve_decision. Defined.
#[export] Instance ExecutionError_eq_dec : EqDecision ExecutionError.
Proof. solve_decision. Defined.
#[export] Instance ReturnValue_eq_dec : EqDecision ReturnValue.
Proof. solve_decision. Defined.

Record Receipt := {
  rc_tx_hash : TxHash;
  rc_status : TxStatus;
  rc_error : option ExecutionError;
  rc_return_value : option ReturnValue;
  rc_resource_units_used : N;
  rc_storage_root_after : string;
  rc_registry_root_after : string;
  rc_policy_root_after : string;
  rc_event_root_after : string;
  rc_nonce_root_after : string;
  rc_global_state_root_after : string;
}.
#[export] Instance Receipt_eq_dec : EqDecision Receipt.
Proof. solve_decision. Defined.

(** ** Blocks *)
Record BlockHeader := {
  hdr_chain_id : ChainId;
  hdr_height : N;
  hdr_previous_block_hash : string;
  hdr_tx_root : string;
  hdr_receipt_root : string;
  hdr_global_state_root : string;
  hdr_storage_root : string;
  hdr_registry_root : string;
  hdr_policy_root : string;
  hdr_event_root : string;
  hdr_nonce_root : string;
  hdr_outbox_root : string;
  hdr_timestamp : N;
  hdr_proposer : string;
  hdr_consensus_certificate : string;
}.
Record Block := {
  blk_header : BlockHeader; blk_transactions : list Transaction; blk_receipts : list Receipt;
}.

(** ** Bridge messages *)
Record OutboxMessageProof := { omp_message : CrossShardMessage; omp_proof : MerkleProof }.
Record CrossShardFinalityProof := {
  cfp_source_chain : ChainId;
  cfp_source_height : N;
  cfp_finalized_block_hash : string;
  cfp_outbox_root : string;
  cfp_quorum : nat;
  cfp_signers : list Principal;
  cfp_message_proof : OutboxMessageProof;
}.
Record BridgeValidatorSet := {
  bvs_source_chain : ChainId; bvs_validators : gset Principal; bvs_quorum : nat;
}.
#[export] Instance BridgeValidatorSet_eq_dec : EqDecision BridgeValidatorSet.
Proof. solve_decision. Defined.
Record ExpectedBridgeMessage := {
  exp_destination_chain : ChainId; exp_destination_contract : ContractId;
  exp_source_chain : ChainId; exp_message_id : string; exp_recipient : Principal;
  exp_asset : AssetId; exp_amount : Amount;
}.

(** ** The replicated state *)
Record DeTTaState := {
  chain_id : ChainId;
  height : N;
  finalized_block_hash : string;
  contracts : gmap ContractId ContractRecord;
  aspect_modules : gmap string AspectModuleRecord;
  storage : gmap StateKey StateValue;
  registry : gmap GrantKey Grant;
  used_nonces : gset (Principal * Nonce);
  used_certificate_nonces : gset string;
  paused_contracts : gset ContractId;
  scheduled_upgrades : gmap string ScheduledUpgrade;
  scheduled_policy_updates : gmap string ScheduledPolicyUpdate;
  trusted_bridge_validator_sets : gmap ChainId BridgeValidatorSet;
  outbound_message_ids : gset string;
  cross_shard_outbox : list CrossShardMessage;
  events : list Event;
}.

(** Field updates, [self.field = value]. *)
Definition set_height v (s : DeTTaState) : DeTTaState :=
  {| chain_id := chain_id s; height := v; finalized_block_hash := finalized_block_hash s;
     contracts := contracts s; aspect_modules := aspect_modules s; storage := storage s;
     registry := registry s; used_nonces := used_nonces s; used_certificate_nonces :=
     used_certificate_nonces s; paused_contracts := paused_contracts s; scheduled_upgrades :=
     scheduled_upgrades s; scheduled_policy_updates := scheduled_policy_updates s;
     trusted_bridge_validator_sets := trusted_bridge_validator_sets s; outbound_message_ids
     := outbound_message_ids s; cross_shard_outbox := cross_shard_outbox s; events := events
     s |}.
Definition set_finalized_block_hash v (s : DeTTaState) : DeTTaState :=
  {| chain_id := chain_id s; height := height s; finalized_block_hash := v; contracts :=
     contracts s; aspect_modules := aspect_modules s; storage := storage s; registry :=
     registry s; used_nonces := used_nonces s; used_certificate_nonces :=
     used_certificate_nonces s; paused_contracts := paused_contracts s; scheduled_upgrades :=
     scheduled_upgrades s; scheduled_policy_updates := scheduled_policy_updates s;
     trusted_bridge_validator_sets := trusted_bridge_validator_sets s; outbound_message_ids
     := outbound_message_ids s; cross_shard_outbox := cross_shard_outbox s; events := events
     s |}.
Definition set_contracts v (s : DeTTaState) : DeTTaState :=
  {| chain_id := chain_id s; height := height s; finalized_block_hash := finalized_block_hash
     s; contracts := v; aspect_modules := aspect_modules s; storage := storage s; registry :=
     registry s; used_nonces := used_nonces s; used_certificate_nonces :=
     used_certificate_nonces s; paused_contracts := paused_contracts s; scheduled_upgrades :=
     scheduled_upgrades s; scheduled_policy_updates := scheduled_policy_updates s;
     trusted_bridge_validator_sets := trusted_bridge_validator_sets s; outbound_message_ids
     := outbound_message_ids s; cross_shard_outbox := cross_shard_outbox s; events := events
     s |}.
Definition set_aspect_modules v (s : DeTTaState) : DeTTaState :=
  {| chain_id := chain_id s; height := height s; finalized_block_hash := finalized_block_hash
     s; contracts := contracts s; aspect_modules := v; storage := storage s; registry :=
     registry s; used_nonces := used_nonces s; used_certificate_nonces :=
     used_certificate_nonces s; paused_contracts := paused_contracts s; scheduled_upgrades :=
     scheduled_upgrades s; scheduled_policy_updates := scheduled_policy_updates s;
     trusted_bridge_validator_sets := trusted_bridge_validator_sets s; outbound_message_ids
     := outbound_message_ids s; cross_shard_outbox := cross_shard_outbox s; events := events
     s |}.
Definition set_storage v (s : DeTTaState) : DeTTaState :=
  {| chain_id := chain_id s; height := height s; finalized_block_hash := finalized_block_hash
     s; contracts := contracts s; aspect_modules := aspect_modules s; storage := v; registry
     := registry s; used_nonces := used_nonces s; used_certificate_nonces :=
     used_certificate_nonces s; paused_contracts := paused_contracts s; scheduled_upgrades :=
     scheduled_upgrades s; scheduled_policy_updates := scheduled_policy_updates s;
     trusted_bridge_validator_sets := trusted_bridge_validator_sets s; outbound_message_ids
     := outbound_message_ids s; cross_shard_outbox := cross_shard_outbox s; events := events
     s |}.
Definition set_registry v (s : DeTTaState) : DeTTaState :=
  {| chain_id := chain_id s; height := height s; finalized_block_hash := finalized_block_hash
     s; contracts := contracts s; aspect_modules := aspect_modules s; storage := storage s;
     registry := v; used_nonces := used_nonces s; used_certificate_nonces :=
     used_certificate_nonces s; paused_contracts := paused_contracts s; scheduled_upgrades :=
     scheduled_upgrades s; scheduled_policy_updates := scheduled_policy_updates s;
     trusted_bridge_validator_sets := trusted_bridge_validator_sets s; outbound_message_ids
     := outbound_message_ids s; cross_shard_outbox := cross_shard_outbox s; events := events
     s |}.
Definition set_used_nonces v (s : DeTTaState) : DeTTaState :=
  {| chain_id := chain_id s; height := height s; finalized_block_hash := finalized_block_hash
     s; contracts := contracts s; aspect_modules := aspect_modules s; storage := storage s;
     registry := registry s; used_nonces := v; used_certificate_nonces :=
     used_certificate_nonces s; paused_contracts := paused_contracts s; scheduled_upgrades :=
     scheduled_upgrades s; scheduled_policy_updates := scheduled_policy_updates s;
     trusted_bridge_validator_sets := trusted_bridge_validator_sets s; outbound_message_ids
     := outbound_message_ids s; cross_shard_outbox := cross_shard_outbox s; events := events
     s |}.
Definition set_used_certificate_nonces v (s : DeTTaState) : DeTTaState :=
  {| chain_id := chain_id s; height := height s; finalized_block_hash := finalized_block_hash
     s; contracts := contracts s; aspect_modules := aspect_modules s; storage := storage s;
     registry := registry s; used_nonces := used_nonces s; used_certificate_nonces := v;
     paused_contracts := paused_contracts s; scheduled_upgrades := scheduled_upgrades s;
     scheduled_policy_updates := scheduled_policy_updates s; trusted_bridge_validator_sets :=
     trusted_bridge_validator_sets s; outbound_message_ids := outbound_message_ids s;
     cross_shard_outbox := cross_shard_outbox s; events := events s |}.
Definition set_paused_contracts v (s : DeTTaState) : DeTTaState :=
  {| chain_id := chain_id s; height := height s; finalized_block_hash := finalized_block_hash
     s; contracts := contracts s; aspect_modules := aspect_modules s; storage := storage s;
     registry := registry s; used_nonces := used_nonces s; used_certificate_nonces :=
     used_certificate_nonces s; paused_contracts := v; scheduled_upgrades :=
     scheduled_upgrades s; scheduled_policy_updates := scheduled_policy_updates s;
     trusted_bridge_validator_sets := trusted_bridge_validator_sets s; outbound_message_ids
     := outbound_message_ids s; cross_shard_outbox := cross_shard_outbox s; events := events
     s |}.
Definition set_scheduled_upgrades v (s : DeTTaState) : DeTTaState :=
  {| chain_id := chain_id s; height := height s; finalized_block_hash := finalized_block_hash
     s; contracts := contracts s; aspect_modules := aspect_modules s; storage := storage s;
     registry := registry s; used_nonces := used_nonces s; used_certificate_nonces :=
     used_certificate_nonces s; paused_contracts := paused_contracts s; scheduled_upgrades :=
     v; scheduled_policy_updates := scheduled_policy_updates s; trusted_bridge_validator_sets
     := trusted_bridge_validator_sets s; outbound_message_ids := outbound_message_ids s;
     cross_shard_outbox := cross_shard_outbox s; events := events s |}.
Definition set_scheduled_policy_updates v (s : DeTTaState) : DeTTaState :=
  {| chain_id := chain_id s; height := height s; finalized_block_hash := finalized_block_hash
     s; contracts := contracts s; aspect_modules := aspect_modules s; storage := storage s;
     registry := registry s; used_nonces := used_nonces s; used_certificate_nonces :=
     used_certificate_nonces s; paused_contracts := paused_contracts s; scheduled_upgrades :=
     scheduled_upgrades s; scheduled_policy_updates := v; trusted_bridge_validator_sets :=
     trusted_bridge_validator_sets s; outbound_message_ids := outbound_message_ids s;
     cross_shard_outbox := cross_shard_outbox s; events := events s |}.
Definition set_trusted_bridge_validator_sets v (s : DeTTaState) : DeTTaState :=
  {| chain_id := chain_id s; height := height s; finalized_block_hash := finalized_block_hash
     s; contracts := contracts s; aspect_modules := aspect_modules s; storage := storage s;
     registry := registry s; used_nonces := used_nonces s; used_certificate_nonces :=
     used_certificate_nonces s; paused_contracts := paused_contracts s; scheduled_upgrades :=
     scheduled_upgrades s; scheduled_policy_updates := scheduled_policy_updates s;
     trusted_bridge_validator_sets := v; outbound_message_ids := outbound_message_ids s;
     cross_shard_outbox := cross_shard_outbox s; events := events s |}.
Definition set_outbound_message_ids v (s : DeTTaState) : DeTTaState :=
  {| chain_id := chain_id s; height := height s; finalized_block_hash := finalized_block_hash
     s; contracts := contracts s; aspect_modules := aspect_modules s; storage := storage s;
     registry := registry s; used_nonces := used_nonces s; used_certificate_nonces :=
     used_certificate_nonces s; paused_contracts := paused_contracts s; scheduled_upgrades :=
     scheduled_upgrades s; scheduled_policy_updates := scheduled_policy_updates s;
     trusted_bridge_validator_sets := trusted_bridge_validator_sets s; outbound_message_ids
     := v; cross_shard_outbox := cross_shard_outbox s; events := events s |}.
Definition set_cross_shard_outbox v (s : DeTTaState) : DeTTaState :=
  {| chain_id := chain_id s; height := height s; finalized_block_hash := finalized_block_hash
     s; contracts := contracts s; aspect_modules := aspect_modules s; storage := storage s;
     registry := registry s; used_nonces := used_nonces s; used_certificate_nonces :=
     used_certificate_nonces s; paused_contracts := paused_contracts s; scheduled_upgrades :=
     scheduled_upgrades s; scheduled_policy_updates := scheduled_policy_updates s;
     trusted_bridge_validator_sets := trusted_bridge_validator_sets s; outbound_message_ids
     := outbound_message_ids s; cross_shard_outbox := v; events := events s |}.
Definition set_events v (s : DeTTaState) : DeTTaState :=
  {| chain_id := chain_id s; height := height s; finalized_block_hash := finalized_block_hash
     s; contracts := contracts s; aspect_modules := aspect_modules s; storage := storage s;
     registry := registry s; used_nonces := used_nonces s; used_certificate_nonces :=
     used_certificate_nonces s; paused_contracts := paused_contracts s; scheduled_upgrades :=
     scheduled_upgrades s; scheduled_policy_updates := scheduled_policy_updates s;
     trusted_bridge_validator_sets := trusted_bridge_validator_sets s; outbound_message_ids
     := outbound_message_ids s; cross_shard_outbox := cross_shard_outbox s; events := v |}.
