(* ===== verification/State.v ===== *)
(** * State: commitments, reads, guarded writes and invariant checks of [DeTTaState]

    Models the parts of [impl DeTTaState] that do not dispatch calls: the
    roots, the storage and registry proofs, the snapshot, the read accessors,
    [state_set], [emit], the receipts and the invariant checks. *)
From S2P Require Import Prelude Effects Merkle Types.

(** ** The host: third-party code

    [SerdeJson] is [serde_json] at the types the runtime hashes or measures. *)
Definition GlobalTuple : Type :=
  ChainId * N * gmap ContractId ContractRecord * string * string * string * string *
  gset (Principal * Nonce) * gset string * gset ContractId * gmap string ScheduledUpgrade *
  gmap string ScheduledPolicyUpdate * gmap ChainId BridgeValidatorSet * gset string *
  string * string.

Class SerdeJson := {
  json_transaction :: Serialize Transaction;
  json_receipt :: Serialize Receipt;
  json_event :: Serialize Event;
  json_message :: Serialize CrossShardMessage;
  json_storage_entry :: Serialize (StateKey * StateValue);
  json_registry_entry :: Serialize (GrantKey * Grant);
  json_policy_entry :: Serialize (PolicyKey * MethodPolicy);
  json_module_entry :: Serialize (string * AspectModuleRecord);
  json_header :: Serialize BlockHeader;
  json_nonces :: Serialize (gset (Principal * Nonce) * gset string);
  json_global :: Serialize GlobalTuple;
  json_ir :: Serialize AspectModuleIr;
  json_abi :: Serialize (gmap string MethodAbiDef);
  json_policies :: Serialize (gmap string MethodPolicyIr);
  json_storage_schema :: Serialize (gmap string StateSchema);
  json_registry_schema :: Serialize (gmap string RegistrySchema);
  json_invariants :: Serialize (gmap string InvariantDef);
  json_str2 :: Serialize (string * string);
  json_str3 :: Serialize (string * string * string);
  json_str3_u64 :: Serialize (string * string * string * N);
  json_str4_u64 :: Serialize (string * string * string * string * N);
  json_str5_u64x4 :: Serialize (string * string * string * string * string * N * N * N * N);
  json_str3_u64x3 :: Serialize (string * string * string * N * N * N);
  json_str9 :: Serialize (string * string * string * string * string * string * string * string * string);
}.

Class Host := {
  host_sha256 :: Sha256;
  host_serde_json :: SerdeJson;
  (** [serde_json::from_str::<CrossShardFinalityProof>] *)
  finality_proof_from_str : string → option CrossShardFinalityProof;
}.

(** ** State keys *)
Definition balance_key (contract : ContractId) (owner : Principal) (asset : AssetId) : StateKey :=
  Balance contract owner asset.
Definition reserve_key (contract : ContractId) (asset : AssetId) : StateKey := Reserve contract asset.
Definition amm_fee_collected_key (contract : ContractId) (asset : AssetId) : StateKey :=
  AmmFeeCollected contract asset.
Definition lp_supply_key (contract : ContractId) : StateKey := LpSupply contract.
Definition lp_balance_key (contract : ContractId) (owner : Principal) : StateKey :=
  LpBalance contract owner.
Definition oracle_price_key (contract : ContractId) (asset : AssetId) : StateKey :=
  OraclePrice contract asset.
Definition oracle_timestamp_key (contract : ContractId) (asset : AssetId) : StateKey :=
  OracleTimestamp contract asset.
Definition bridge_message_consumed_key (contract : ContractId) (message_id : string) : StateKey :=
  BridgeMessageConsumed contract message_id.
Definition collateral_key (contract : ContractId) (borrower : Principal) (asset : AssetId) : StateKey :=
  Collateral contract borrower asset.
Definition debt_key (contract : ContractId) (borrower : Principal) (asset : AssetId) : StateKey :=
  Debt contract borrower asset.
Definition debt_last_accrual_height_key (contract : ContractId) (borrower : Principal)
    (asset : AssetId) : StateKey := DebtLastAccrualHeight contract borrower asset.
Definition bad_debt_key (contract : ContractId) (asset : AssetId) : StateKey := BadDebt contract asset.
Definition stake_balance_key (contract : ContractId) (staker : Principal) (asset : AssetId) : StateKey :=
  StakeBalance contract staker asset.
Definition total_staked_key (contract : ContractId) (asset : AssetId) : StateKey :=
  TotalStaked contract asset.
Definition pending_unbond_key (contract : ContractId) (staker : Principal) (asset : AssetId) : StateKey :=
  PendingUnbond contract staker asset.
Definition total_pending_unbond_key (contract : ContractId) (asset : AssetId) : StateKey :=
  TotalPendingUnbond contract asset.
Definition staking_penalty_collected_key (contract : ContractId) (asset : AssetId) : StateKey :=
  StakingPenaltyCollected contract asset.
Definition unbond_ready_height_key (contract : ContractId) (staker : Principal) (asset : AssetId)
    : StateKey := UnbondReadyHeight contract staker asset.
Definition staking_reward_balance_key (contract : ContractId) (staker : Principal) (asset : AssetId)
    : StateKey := StakingRewardBalance contract staker asset.
Definition staking_last_reward_height_key (contract : ContractId) (staker : Principal)
    (asset : AssetId) : StateKey := StakingLastRewardHeight contract staker asset.

(** ** Reads *)
Definition uint_at (s : DeTTaState) (key : StateKey) : Amount :=
  default 0 (as_uint <$> storage s !! key).

Definition balance (s : DeTTaState) (contract : ContractId) (owner : Principal) (asset : AssetId) : Amount :=
  uint_at s (Balance contract owner asset).
Definition total_supply (s : DeTTaState) (contract : ContractId) (asset : AssetId) : Amount :=
  uint_at s (TotalSupply contract asset).
Definition reserve (s : DeTTaState) (contract : ContractId) (asset : AssetId) : Amount :=
  uint_at s (Reserve contract asset).
Definition amm_fee_collected (s : DeTTaState) (contract : ContractId) (asset : AssetId) : Amount :=
  uint_at s (AmmFeeCollected contract asset).
Definition lp_supply (s : DeTTaState) (contract : ContractId) : Amount :=
  uint_at s (LpSupply contract).
Definition lp_balance (s : DeTTaState) (contract : ContractId) (owner : Principal) : Amount :=
  uint_at s (LpBalance contract owner).
Definition oracle_price (s : DeTTaState) (contract : ContractId) (asset : AssetId) : Amount :=
  uint_at s (OraclePrice contract asset).
(** [u64::try_from(value).ok().unwrap_or_default()] *)
Definition oracle_timestamp (s : DeTTaState) (contract : ContractId) (asset : AssetId) : N :=
  let value := uint_at s (OracleTimestamp contract asset) in
  if value <=? u64_max then value else 0.
Definition collateral (s : DeTTaState) (contract : ContractId) (borrower : Principal) (asset : AssetId)
    : Amount := uint_at s (Collateral contract borrower asset).
Definition debt (s : DeTTaState) (contract : ContractId) (borrower : Principal) (asset : AssetId)
    : Amount := uint_at s (Debt contract borrower asset).
Definition bad_debt (s : DeTTaState) (contract : ContractId) (asset : AssetId) : Amount :=
  uint_at s (BadDebt contract asset).
Definition stake_balance (s : DeTTaState) (contract : ContractId) (staker : Principal) (asset : AssetId)
    : Amount := uint_at s (StakeBalance contract staker asset).
Definition total_staked (s : DeTTaState) (contract : ContractId) (asset : AssetId) : Amount :=
  uint_at s (TotalStaked contract asset).
Definition pending_unbond (s : DeTTaState) (contract : ContractId) (staker : Principal) (asset : AssetId)
    : Amount := uint_at s (PendingUnbond contract staker asset).
Definition total_pending_unbond (s : DeTTaState) (contract : ContractId) (asset : AssetId) : Amount :=
  uint_at s (TotalPendingUnbond contract asset).
Definition staking_penalty_collected (s : DeTTaState) (contract : ContractId) (asset : AssetId) : Amount :=
  uint_at s (StakingPenaltyCollected contract asset).
Definition staking_reward_balance (s : DeTTaState) (contract : ContractId) (staker : Principal)
    (asset : AssetId) : Amount := uint_at s (StakingRewardBalance contract staker asset).
Definition allowance_remaining (s : DeTTaState) (contract : ContractId) (owner spender : Principal)
    (asset : AssetId) : option Amount :=
  remaining <$> registry s !! Allowance contract owner spender asset.

(** ** Keys of account signers *)
Definition is_hex_digit_lower (c : ascii) : bool :=
  let n := N_of_ascii c in
  ((48 <=? n) && (n <=? 57)) || ((97 <=? n) && (n <=? 102)).
Definition is_canonical_public_key_hex (value : string) : bool :=
  (String.length value =? 64)%nat &&
  forallb is_hex_digit_lower (String.list_ascii_of_string value).

Definition has_active_account_key (s : DeTTaState) (account public_key_hex : string) : bool :=
  is_canonical_public_key_hex public_key_hex &&
  match registry s !! AccountSigner account public_key_hex with
  | Some grant =>
      bool_decide (g_subject grant = account) && g_active grant && negb (g_revoked grant)
      && bool_decide (SubmitTransaction ∈ g_rights grant)
  | None => false
  end.

(** ** Invariant checks *)

(** [storage.iter().filter_map(f).try_fold(0, checked_add)] *)
Definition storage_sum (s : DeTTaState) (f : StateKey → bool) : option Amount :=
  try_sum (omap (λ '(k, v), if f k then Some (as_uint v) else None) (entries (storage s))).

Definition token_invariants_hold (s : DeTTaState) (contract : ContractId) (asset : AssetId) : bool :=
  bool_decide (storage_sum s (λ k, match k with
    | Balance c _ a => bool_decide (c = contract) && bool_decide (a = asset)
    | _ => false end) = Some (total_supply s contract asset)).
Definition amm_invariants_hold (s : DeTTaState) (contract : ContractId) : bool :=
  bool_decide (storage_sum s (λ k, match k with
    | LpBalance c _ => bool_decide (c = contract)
    | _ => false end) = Some (lp_supply s contract)).
Definition staking_invariants_hold (s : DeTTaState) (contract : ContractId) (asset : AssetId) : bool :=
  bool_decide (storage_sum s (λ k, match k with
    | StakeBalance c _ a => bool_decide (c = contract) && bool_decide (a = asset)
    | _ => false end) = Some (total_staked s contract asset)).
Definition staking_pending_unbonding_invariants_hold (s : DeTTaState) (contract : ContractId)
    (asset : AssetId) : bool :=
  bool_decide (storage_sum s (λ k, match k with
    | PendingUnbond c _ a => bool_decide (c = contract) && bool_decide (a = asset)
    | _ => false end) = Some (total_pending_unbond s contract asset)).

Definition has_active_oracle_updater (s : DeTTaState) (contract : ContractId) : bool :=
  existsb (λ '(key, grant), match key with
    | OracleUpdater c _ => bool_decide (c = contract)
    | _ => false end && g_active grant && negb (g_revoked grant)
    && bool_decide (UpdateOracle ∈ g_rights grant)) (entries (registry s)).
Definition has_active_governance_admin (s : DeTTaState) (contract : ContractId) : bool :=
  existsb (λ '(key, grant), match key with
    | GovernanceAdmin c _ => bool_decide (c = contract)
    | _ => false end && g_active grant && negb (g_revoked grant)
    && bool_decide (RightGovernanceAdmin ∈ g_rights grant)) (entries (registry s)).
Definition account_signer_grant_canonical (key : GrantKey) (grant : Grant) : bool :=
  match key with
  | AccountSigner account public_key_hex =>
      negb (bool_decide (account = "")) && is_canonical_public_key_hex public_key_hex
      && bool_decide (g_issuer grant = account) && bool_decide (g_subject grant = account)
      && bool_decide (g_limit grant = None) && (g_spent grant =? 0)
      && bool_decide (SubmitTransaction ∈ g_rights grant)
      && negb (g_active grant && g_revoked grant)
  | _ => true
  end.
Definition account_signer_keys_canonical (s : DeTTaState) : bool :=
  forallb (λ '(key, grant), account_signer_grant_canonical key grant) (entries (registry s)).

(** [let mut seen; iter().all(|m| seen.insert(m.message_id))] *)
Fixpoint all_fresh (seen : gset string) (ids : list string) : bool :=
  match ids with
  | [] => true
  | id :: ids => if decide (id ∈ seen) then false else all_fresh ({[id]} ∪ seen) ids
  end.
Definition outbound_messages_are_unique (s : DeTTaState) : bool :=
  all_fresh ∅ (csm_message_id <$> cross_shard_outbox s).

Definition lending_invariants_hold (s : DeTTaState) (record : ContractRecord) : bool :=
  match cr_kind record with
  | LendingVault collateral_asset debt_asset oracle_contract ltv_bps _ _ _ =>
      forallb (λ '(key, value),
        match key with
        | Debt contract borrower asset =>
            if bool_decide (contract ≠ cr_contract_id record) || bool_decide (asset ≠ debt_asset)
            then true else
            let debt := as_uint value in
            if debt =? 0 then true else
            let price := oracle_price s oracle_contract collateral_asset in
            if price =? 0 then false else
            let collateral := collateral s contract borrower collateral_asset in
            match checked_mul_u128 collateral price with
            | None => false
            | Some collateral_value =>
                match checked_mul_u128 collateral_value ltv_bps with
                | None => false
                | Some max_debt => negb (max_debt / 10000 <? debt)
                end
            end
        | _ => true
        end) (entries (storage s))
  | _ => false
  end.

Definition token_total_supply_assets (s : DeTTaState) (contract : ContractId) : gset AssetId :=
  list_to_set (omap (λ '(k, _), match k with
    | TotalSupply c asset => if bool_decide (c = contract) then Some asset else None
    | _ => None end) (entries (storage s))).

Definition nonempty (s : string) : bool := negb (bool_decide (s = "")).

Definition declared_invariant_holds (s : DeTTaState) (record : ContractRecord)
    (invariant : ContractInvariant) : bool :=
  match invariant with
  | TokenSupplyMatchesBalances =>
      forallb (λ asset, token_invariants_hold s (cr_contract_id record) asset)
        (set_iter (token_total_supply_assets s (cr_contract_id record)))
  | AmmPoolAssetsDistinct =>
      match cr_kind record with
      | AmmPool asset_a asset_b _ => bool_decide (asset_a ≠ asset_b)
      | _ => false
      end
  | AmmLpSupplyMatchesBalances => amm_invariants_hold s (cr_contract_id record)
  | OracleUpdatesRequireLiveGrant => has_active_oracle_updater s (cr_contract_id record)
  | OracleFreshnessCheckedByConsumers => true
  | BridgeInboundMessagesConsumedOnce => true
  | BridgeOutboundMessageIdsUnique => outbound_messages_are_unique s
  | GovernanceChangesRequireAdminGrant => has_active_governance_admin s (cr_contract_id record)
  | GovernanceUpgradesRespectTimelock =>
      match cr_kind record with
      | Governance _ timelock_delay => 0 <? timelock_delay
      | _ => false
      end
  | LendingBorrowWithinCollateralLimit => lending_invariants_hold s record
  | StakingTotalMatchesBalances =>
      match cr_kind record with
      | Staking asset _ _ _ => staking_invariants_hold s (cr_contract_id record) asset
      | _ => false
      end
  | StakingPendingUnbondingMatchesTotal =>
      match cr_kind record with
      | Staking asset _ _ _ =>
          staking_pending_unbonding_invariants_hold s (cr_contract_id record) asset
      | _ => false
      end
  | RouterDoesNotInheritCallerWriteScope => true
  | FactoryDeploymentsDeclarePolicies =>
      forallb (λ record, match cr_kind record with
        | AspectModule _ _ abi_root policy_root invariant_root =>
            nonempty abi_root && nonempty policy_root && nonempty invariant_root
        | _ =>
            negb (bool_decide (cr_exported_methods record = ∅))
            && negb (bool_decide (cr_declared_invariants record = ∅))
            && forallb (λ m, bool_decide (is_Some (cr_method_policies record !! m)))
                 (set_iter (cr_exported_methods record))
        end) (values (contracts s))
  | AccountSignerKeysCanonical => account_signer_keys_canonical s
  | AspectLocalInvariant _ _ _ => false
  end.
Definition check_declared_invariants (s : DeTTaState) : list InvariantFailure :=
  concat ((λ record,
    omap (λ invariant,
      if declared_invariant_holds s record invariant then None
      else Some {| if_contract := cr_contract_id record; if_invariant := invariant |})
      (set_iter (cr_declared_invariants record))) <$> values (contracts s)).

(** ** Roots *)
Section roots.
Context `{Host}.
Implicit Types s : DeTTaState.

Definition storage_entries s : list (StateKey * StateValue) := entries (storage s).
Definition registry_entries s : list (GrantKey * Grant) := entries (registry s).
Definition aspect_module_entries s : list (string * AspectModuleRecord) := entries (aspect_modules s).
Definition policy_entries s : list (PolicyKey * MethodPolicy) :=
  concat ((λ '(contract, record),
    (λ '(method, policy), ({| pk_contract := contract; pk_method := method |}, policy))
      <$> entries (cr_method_policies record)) <$> entries (contracts s)).

Definition storage_root s : string := merkle_root (storage_entries s).
Definition registry_root s : string := merkle_root (registry_entries s).
Definition policy_root s : string := merkle_root (policy_entries s).
Definition event_root s : string := merkle_root (events s).
Definition outbox_root s : string := merkle_root (cross_shard_outbox s).
Definition aspect_module_root s : string := merkle_root (aspect_module_entries s).
Definition nonce_root s : string := root_of (used_nonces s, used_certificate_nonces s).
Definition global_state_root s : string :=
  root_of ((chain_id s, height s, contracts s, aspect_module_root s, storage_root s,
    registry_root s, policy_root s, used_nonces s, used_certificate_nonces s,
    paused_contracts s, scheduled_upgrades s, scheduled_policy_updates s,
    trusted_bridge_validator_sets s, outbound_message_ids s, outbox_root s, event_root s)
    : GlobalTuple).

(** ** Receipts *)
Definition receipt s (tx_hash : TxHash) (status : TxStatus) (error : option ExecutionError)
    (return_value : option ReturnValue) (resource_units_used : N) : Receipt :=
  {| rc_tx_hash := tx_hash; rc_status := status; rc_error := error;
     rc_return_value := return_value; rc_resource_units_used := resource_units_used;
     rc_storage_root_after := storage_root s; rc_registry_root_after := registry_root s;
     rc_policy_root_after := policy_root s; rc_event_root_after := event_root s;
     rc_nonce_root_after := nonce_root s; rc_global_state_root_after := global_state_root s |}.
Definition committed_receipt s (tx_hash : TxHash) (return_value : ReturnValue) (units : N) : Receipt :=
  receipt s tx_hash Committed None (Some return_value) units.
Definition reverted_receipt s (tx_hash : TxHash) (error : ExecutionError) (units : N) : Receipt :=
  receipt s tx_hash Reverted (Some error) None units.
Definition rejected_receipt s (tx_hash : TxHash) (error : ExecutionError) : Receipt :=
  receipt s tx_hash Rejected (Some error) None 0.
End roots.

(** ** Guarded writes and events *)
Record AuthorizedFrame := {
  fr_contract : ContractId; fr_msg_sender : Principal; fr_write_scope : gset StateKey;
}.
Definition write_scope_contains (write_scope : gset StateKey) (key : StateKey) : bool :=
  if decide (key ∈ write_scope) then true else
  match key with
  | AspectState contract aspect state (_ :: _) =>
      bool_decide (AspectState contract aspect state [] ∈ write_scope)
  | _ => false
  end.
Definition emit_event (contract : ContractId) (tx_hash : TxHash) (payload : EventPayload)
    (s : DeTTaState) : DeTTaState :=
  set_events (events s ++ [{| ev_contract := contract; ev_tx_hash := tx_hash;
    ev_index := N.of_nat (length (events s)); ev_payload := payload |}]) s.
