(* ===== verification/StateEntries.v ===== *)
(** * StateEntries: maps in snapshots

    The modules [method_policy_map_entries], [storage_map_entries] and
    [registry_map_entries] of crates/detta-core/src/lib.rs, by which serde
    writes a map whose keys are not strings as the vector of its entries and
    reads it back.  The text of a vector is a parameter. *)
From S2P Require Import Prelude Effects Merkle Types State.

(** serde on a vector of entries. *)
Class VecJson (T : Type) := { vec_to_json : list T → option (list byte); vec_from_json : list byte → option (list T) }.
Class VecInverse (T : Type) `{VecJson T} : Prop :=
  vec_inverse (l : list T) bytes : vec_to_json l = Some bytes → vec_from_json bytes = Some l.
Section entries.
Context `{Countable K, Cmp K} {V : Type} `{!VecJson (K * V)}.
(** [collect] into a map: a later entry replaces an earlier one. *)
Definition collect_map (l : list (K * V)) : gmap K V := foldl (λ m e, <[e.1 := e.2]> m) ∅ l.
Definition serialize_entries (m : gmap K V) : option (list byte) := vec_to_json (entries m).
Definition deserialize_entries (bytes : list byte) : option (gmap K V) := collect_map <$> vec_from_json bytes.

Lemma collect_app l k v : collect_map (l ++ [(k, v)]) = <[k := v]> (collect_map l).
Proof. unfold collect_map. by rewrite foldl_app. Qed.
(** The last entry of a key is the one kept. *)
Lemma collect_lookup l k : collect_map l !! k = snd <$> last (filter (λ e, e.1 = k) l).
Proof.
  induction l as [|[k' v] l IH] using rev_ind; [done|]. rewrite collect_app, filter_app.
  destruct (decide (k' = k)) as [->|Hne].
  - rewrite lookup_insert_eq, filter_cons_True by done. by rewrite filter_nil, last_snoc.
  - rewrite lookup_insert_ne, filter_cons_False by done. by rewrite filter_nil, app_nil_r.
Qed.
Lemma collect_entries (m : gmap K V) : collect_map (entries m) = m.
Proof.
  apply map_eq. intros k. rewrite collect_lookup.
  destruct (m !! k) as [v|] eqn:Hm.
  - assert (∀ e, e ∈ filter (λ e, e.1 = k) (entries m) → e = (k, v)) as Hall.
    { intros [k' v'] [Hk Hin]%list_elem_of_filter. simpl in Hk. subst. apply elem_of_entries in Hin. congruence. }
    assert ((k, v) ∈ filter (λ e, e.1 = k) (entries m)) as Hin.
    { apply list_elem_of_filter. split; [done|]. by apply elem_of_entries. }
    destruct (last _) as [e|] eqn:Hl.
    + by rewrite (Hall e (last_Some_elem_of _ _ Hl)).
    + apply last_None in Hl. rewrite Hl in Hin. by apply elem_of_nil in Hin.
  - destruct (last _) as [[k' v]|] eqn:Hl; [|done].
    apply last_Some_elem_of, list_elem_of_filter in Hl as [Hk Hin]. simpl in Hk. subst.
    apply elem_of_entries in Hin. congruence.
Qed.
(** A map in a snapshot is read back. *)
Theorem entries_roundtrip `{!VecInverse (K * V)} (m : gmap K V) bytes :
  serialize_entries m = Some bytes → deserialize_entries bytes = Some m.
Proof. unfold serialize_entries, deserialize_entries. intros ->%vec_inverse. cbn. by rewrite collect_entries. Qed.
End entries.

(** ** The maps of a state and a contract *)
Section maps.
Context `{!VecJson (Method * MethodPolicy), !VecJson (StateKey * StateValue), !VecJson (GrantKey * Grant)}.
Definition method_policy_map_serialize (map : gmap Method MethodPolicy) : option (list byte) := serialize_entries map.
Definition method_policy_map_deserialize (bytes : list byte) : option (gmap Method MethodPolicy) :=
  deserialize_entries bytes.
Definition storage_map_serialize (map : gmap StateKey StateValue) : option (list byte) := serialize_entries map.
Definition storage_map_deserialize (bytes : list byte) : option (gmap StateKey StateValue) := deserialize_entries bytes.
Definition registry_map_serialize (map : gmap GrantKey Grant) : option (list byte) := serialize_entries map.
Definition registry_map_deserialize (bytes : list byte) : option (gmap GrantKey Grant) := deserialize_entries bytes.
Context `{!VecInverse (Method * MethodPolicy), !VecInverse (StateKey * StateValue), !VecInverse (GrantKey * Grant)}.
Corollary state_maps_roundtrip policies storage registry :
  (∀ bytes, method_policy_map_serialize policies = Some bytes → method_policy_map_deserialize bytes = Some policies) ∧
  (∀ bytes, storage_map_serialize storage = Some bytes → storage_map_deserialize bytes = Some storage) ∧
  (∀ bytes, registry_map_serialize registry = Some bytes → registry_map_deserialize bytes = Some registry).
Proof. split_and!; intros bytes; apply entries_roundtrip. Qed.
End maps.
