(* ===== verification/Proofs.v ===== *)
(** * Proofs: inclusion and non-inclusion proofs of the state

    [storage_proof], [registry_proof], [aspect_module_proof], [event_proof],
    [outbox_message_proof] and the non-inclusion proofs of
    crates/detta-core/src/lib.rs.  Storage, registry and modules have the
    same code over different maps; it is written once over any ordered map
    and instantiated. *)
From S2P Require Import Prelude Effects Merkle Types State.

Record EntryProof (K V : Type) := { ep_key : K; ep_value : V; ep_proof : MerkleProof }.
Arguments ep_key {K V}. Arguments ep_value {K V}. Arguments ep_proof {K V}.
Record NonInclusionProof (K V : Type) := {
  nip_key : K; nip_root : string; nip_leaf_count : nat;
  nip_predecessor : option (EntryProof K V); nip_successor : option (EntryProof K V);
}.
Arguments nip_key {K V}. Arguments nip_root {K V}. Arguments nip_leaf_count {K V}.
Arguments nip_predecessor {K V}. Arguments nip_successor {K V}.

Section entries.
Context `{Sha256, Countable K, Cmp K} {V : Type} `{!Serialize (K * V)}.
Implicit Types m : gmap K V.

Definition entry_proof m (key : K) : option (EntryProof K V) :=
  '(index, (_, value)) ← list_find (λ e, e.1 = key) (entries m);
  proof ← merkle_proof (entries m) index;
  Some {| ep_key := key; ep_value := value; ep_proof := proof |}.
Definition entry_proof_verify (p : EntryProof K V) : bool :=
  verify (ep_proof p) (ep_key p, ep_value p).
(** [binary_search_by] on keys that do not contain [key]: the insertion point. *)
Definition insertion_index (key : K) (l : list (K * V)) : nat :=
  length (filter (λ e, cmp_lt e.1 key) l).
Definition non_inclusion_proof m (key : K) : option (NonInclusionProof K V) :=
  if decide (is_Some (m !! key)) then None else
  let entries := entries m in
  let index := insertion_index key entries in
  Some {| nip_key := key; nip_root := merkle_root entries; nip_leaf_count := length entries;
          nip_predecessor :=
            match index with O => None | S i => e ← entries !! i; entry_proof m e.1 end;
          nip_successor := e ← entries !! index; entry_proof m e.1 |}.
Definition neighbour (root : string) (p : EntryProof K V) : K * MerkleProof * bool :=
  (ep_key p, ep_proof p, entry_proof_verify p && bool_decide (mp_root (ep_proof p) = root)).
Definition non_inclusion_verify (p : NonInclusionProof K V) : bool :=
  verify_non_inclusion (hex_lower empty_root_bytes) (nip_key p) (nip_root p) (nip_leaf_count p)
    (neighbour (nip_root p) <$> nip_predecessor p) (neighbour (nip_root p) <$> nip_successor p).

(** ** Inclusion *)
Lemma entry_proof_at m key value :
  m !! key = Some value →
  ∃ index p, entries m !! index = Some (key, value) ∧ entry_proof m key = Some p ∧
    ep_key p = key ∧ ep_value p = value ∧ entry_proof_verify p = true ∧
    mp_root (ep_proof p) = merkle_root (entries m) ∧ mp_index (ep_proof p) = index ∧
    mp_leaf_count (ep_proof p) = length (entries m).
Proof.
  intros Hm. pose proof (proj2 (elem_of_entries m key value) Hm) as Hin.
  destruct (list_find_elem_of (λ e, e.1 = key) (entries m) (key, value) Hin eq_refl) as [[index [k v]] Hf].
  pose proof Hf as Hf'. apply list_find_Some in Hf' as (Hidx & Hk & _). simpl in Hk. subst k.
  assert (v = value) as ->.
  { pose proof (list_elem_of_lookup_2 _ _ _ Hidx) as Hv. apply elem_of_entries in Hv. congruence. }
  destruct (merkle_proof_at _ _ _ Hidx) as (p & Hp & Hroot & Hi & Hc & Hv).
  exists index, {| ep_key := key; ep_value := value; ep_proof := p |}. split_and!; try done.
  unfold entry_proof. rewrite Hf. simpl. by rewrite Hp.
Qed.
Lemma entry_proof_None m key : m !! key = None → entry_proof m key = None.
Proof.
  intros Hm. unfold entry_proof. destruct (list_find _ _) as [[index [k v]]|] eqn:Hf; [|done].
  apply list_find_Some in Hf as (Hidx & Hk & _). simpl in Hk. subst k.
  apply list_elem_of_lookup_2, elem_of_entries in Hidx. congruence.
Qed.

(** ** Non-inclusion *)
Context `{!CmpLaws K}.
Lemma insertion_index_lt (key : K) (l : list (K * V)) j e :
  StronglySorted cmp_lt l.*1 → l !! j = Some e → cmp_lt e.1 key ↔ (j < insertion_index key l)%nat.
Proof.
  unfold insertion_index. revert j. induction l as [|x l IH]; intros j Hs He; [done|].
  simpl in Hs. apply StronglySorted_inv in Hs as [Hs Hall]. rewrite filter_cons.
  case_decide as Hx.
  - destruct j as [|j]; simpl in *; [simplify_eq; split; [lia|done]|]. rewrite (IH j) by done. lia.
  - assert (filter (λ e, cmp_lt e.1 key) l = []) as Hnil.
    { destruct (filter (λ e, cmp_lt e.1 key) l) as [|y k] eqn:Hf; [done|]. exfalso. apply Hx.
      assert (y ∈ filter (λ e, cmp_lt e.1 key) l) as Hin by (rewrite Hf; apply list_elem_of_here).
      apply list_elem_of_filter in Hin as [Hlt Hy].
      rewrite Forall_fmap, Forall_forall in Hall. specialize (Hall y Hy). simpl in Hall.
      unfold cmp_lt in *. by eapply cmp_lt_trans. }
    rewrite Hnil. simpl. split; [|lia]. intros He'. exfalso. apply Hx.
    destruct j as [|j]; simpl in He; [by simplify_eq|].
    rewrite Forall_fmap, Forall_forall in Hall. specialize (Hall e (list_elem_of_lookup_2 _ _ _ He)).
    simpl in Hall. unfold cmp_lt in *. by eapply cmp_lt_trans.
Qed.
Lemma neighbour_at m j k v :
  entries m !! j = Some (k, v) →
  ∃ p, entry_proof m k = Some p ∧ ep_key p = k ∧
    entry_proof_verify p && bool_decide (mp_root (ep_proof p) = merkle_root (entries m)) = true ∧
    mp_index (ep_proof p) = j ∧ mp_leaf_count (ep_proof p) = length (entries m).
Proof.
  intros Hj. pose proof (list_elem_of_lookup_2 _ _ _ Hj) as Hin. apply elem_of_entries in Hin.
  destruct (entry_proof_at m k v Hin) as (j' & p & Hj' & Hp & Hk & Hv & Hver & Hroot & Hi & Hc).
  assert (j' = j) as ->.
  { eapply (NoDup_lookup (keys m) j' j k); [apply NoDup_keys|..]; unfold keys; rewrite list_lookup_fmap.
    - by rewrite Hj'.
    - by rewrite Hj. }
  exists p. split_and!; try done. rewrite Hver, Hroot. by apply bool_decide_eq_true.
Qed.
Lemma non_inclusion_complete m key :
  m !! key = None → ∃ p, non_inclusion_proof m key = Some p ∧ nip_key p = key ∧
    nip_root p = merkle_root (entries m) ∧ non_inclusion_verify p = true.
Proof.
  intros Hm. unfold non_inclusion_proof. rewrite decide_False by (rewrite Hm; by intros []).
  eexists. split; [done|]. split_and!; [done..|]. unfold non_inclusion_verify, verify_non_inclusion.
  cbn [nip_key nip_root nip_leaf_count nip_predecessor nip_successor].
  pose proof (keys_strictly_sorted m) as Hsort. unfold keys in Hsort.
  set (i := insertion_index key (entries m)).
  assert (i ≤ length (entries m))%nat as Hi by apply length_filter.
  assert (∀ j k v, entries m !! j = Some (k, v) → (j < i)%nat → cmp_lt k key) as Hlt.
  { intros j k v Hj Hji. by apply (insertion_index_lt key _ _ _ Hsort Hj). }
  assert (∀ j k v, entries m !! j = Some (k, v) → (i ≤ j)%nat → cmp_lt key k) as Hgt.
  { intros j k v Hj Hji. unfold cmp_lt. apply cmp_gt_lt. destruct (cmp k key) eqn:Hc; [| |done].
    - apply cmp_eq_iff in Hc as ->. apply list_elem_of_lookup_2, elem_of_entries in Hj. congruence.
    - pose proof (proj1 (insertion_index_lt key _ _ _ Hsort Hj) Hc) as Hlt'. fold i in Hlt'. lia. }
  destruct (Nat.eqb_spec (length (entries m)) 0) as [Hnil|Hlen].
  { assert (i = 0%nat) as -> by lia. apply nil_length_inv in Hnil. rewrite Hnil. simpl.
    by apply bool_decide_eq_true. }
  assert (∀ j, (j < length (entries m))%nat → ∃ k v p, entries m !! j = Some (k, v) ∧
    entry_proof m k = Some p ∧ ep_key p = k ∧
    entry_proof_verify p && bool_decide (mp_root (ep_proof p) = merkle_root (entries m)) = true ∧
    mp_index (ep_proof p) = j ∧ mp_leaf_count (ep_proof p) = length (entries m)) as Hat.
  { intros j Hj. destruct (lookup_lt_is_Some_2 _ _ Hj) as [[k v] Hkv].
    destruct (neighbour_at m j k v Hkv) as (p & ?). by exists k, v, p. }
  destruct i as [|j] eqn:Hij.
  - destruct (Hat 0%nat ltac:(lia)) as (k & v & p & Hk & Hp & Hpk & Hn & Hpi & Hpc).
    pose proof (Hgt _ _ _ Hk ltac:(lia)). rewrite Hk. simpl. rewrite Hp. simpl. rewrite Hn, Hpk, Hpi, Hpc.
    by rewrite bool_decide_eq_true_2, !Nat.eqb_refl.
  - destruct (Hat j ltac:(lia)) as (k & v & p & Hk & Hp & Hpk & Hn & Hpi & Hpc). rewrite Hk. simpl. rewrite Hp. simpl.
    rewrite ?Hpk. pose proof (Hlt _ _ _ Hk ltac:(lia)).
    destruct (decide (S j < length (entries m))%nat) as [Hlast|Hlast].
    + destruct (Hat (S j) Hlast) as (k' & v' & p' & Hk' & Hp' & Hpk' & Hn' & Hpi' & Hpc').
      pose proof (Hgt _ _ _ Hk' ltac:(lia)). rewrite Hk'. simpl. rewrite Hp'. simpl. rewrite Hn, Hn', ?Hpk, Hpk', Hpi, Hpi', Hpc, Hpc'.
      rewrite !bool_decide_eq_true_2, Nat.add_1_r, !Nat.eqb_refl by done. done.
    + rewrite (proj2 (lookup_ge_None _ _)) by lia. simpl. rewrite Hn, ?Hpk, Hpi, Hpc, bool_decide_eq_true_2 by done.
      rewrite Nat.eqb_refl, (proj2 (Nat.eqb_eq _ _)) by lia. done.
Qed.
End entries.

(** ** The proofs of a state *)
Section state_proofs.
Context `{Host}.
Implicit Types s : DeTTaState.

Definition storage_proof s (key : StateKey) : option (EntryProof StateKey StateValue) :=
  entry_proof (storage s) key.
Definition storage_non_inclusion_proof s (key : StateKey)
    : option (NonInclusionProof StateKey StateValue) :=
  non_inclusion_proof (storage s) key.
Definition registry_proof s (key : GrantKey) : option (EntryProof GrantKey Grant) :=
  entry_proof (registry s) key.
Definition registry_non_inclusion_proof s (key : GrantKey) : option (NonInclusionProof GrantKey Grant) :=
  non_inclusion_proof (registry s) key.
Definition aspect_module_proof s (module_hash : string)
    : option (EntryProof string AspectModuleRecord) :=
  entry_proof (aspect_modules s) module_hash.
Definition event_proof s (index : nat) : option (Event * MerkleProof) :=
  event ← events s !! index; proof ← merkle_proof (events s) index; Some (event, proof).
Definition outbox_message_proof s (index : nat) : option OutboxMessageProof :=
  message ← cross_shard_outbox s !! index; proof ← merkle_proof (cross_shard_outbox s) index;
  Some {| omp_message := message; omp_proof := proof |}.

(** Every storage key is provable one way: a present key has an inclusion
    proof that verifies, carries the stored value and is rooted in the storage
    root; an absent key has a non-inclusion proof that verifies against it. *)
Theorem storage_provable s key :
  match storage s !! key with
  | Some value => ∃ p, storage_proof s key = Some p ∧ ep_value p = value ∧
      entry_proof_verify p = true ∧ mp_root (ep_proof p) = storage_root s ∧
      storage_non_inclusion_proof s key = None
  | None => storage_proof s key = None ∧
      ∃ p, storage_non_inclusion_proof s key = Some p ∧ nip_key p = key ∧
        nip_root p = storage_root s ∧ non_inclusion_verify p = true
  end.
Proof.
  destruct (storage s !! key) as [value|] eqn:Hk.
  - destruct (entry_proof_at _ _ _ Hk) as (index & p & _ & Hp & _ & Hv & Hver & Hroot & _).
    exists p. split_and!; try done. unfold storage_non_inclusion_proof, non_inclusion_proof.
    by rewrite decide_True by (rewrite Hk; eauto).
  - split; [by apply entry_proof_None|]. by apply non_inclusion_complete.
Qed.

(** The neighbour proof with its position rewritten. *)
Definition relocate {K V} (p : EntryProof K V) (index leaf_count : nat) : EntryProof K V :=
  {| ep_key := ep_key p; ep_value := ep_value p;
     ep_proof := {| mp_root := mp_root (ep_proof p); mp_leaf_hash := mp_leaf_hash (ep_proof p);
       mp_index := index; mp_leaf_count := leaf_count; mp_path := mp_path (ep_proof p) |} |}.

(** Non-inclusion proofs do not bind the position they claim: from the
    genuine inclusion proof of any stored key one obtains, by rewriting its
    index, an accepted non-inclusion proof of every smaller key under the
    same root, including keys that are stored. *)
Theorem non_inclusion_forgeable s present value key :
  storage s !! present = Some value → cmp_lt key present →
  ∃ p, storage_proof s present = Some p ∧
    non_inclusion_verify {| nip_key := key; nip_root := storage_root s; nip_leaf_count := 1;
      nip_predecessor := None; nip_successor := Some (relocate p 0 1) |} = true.
Proof.
  intros Hp Hlt. destruct (entry_proof_at _ _ _ Hp) as (index & p & _ & Hpr & Hk & Hv & Hver & Hroot & _).
  exists p. split; [done|]. unfold non_inclusion_verify, verify_non_inclusion. simpl.
  assert (entry_proof_verify (relocate p 0 1) = true) as -> by exact Hver.
  rewrite Hk, Hroot. by rewrite !bool_decide_eq_true_2.
Qed.
End state_proofs.
