(* ===== verification/Policies.v ===== *)
(** * Policies: contract records with their method policies and invariants

    The constructors of [ContractRecord] (crates/detta-core/src/lib.rs,
    [impl ContractRecord] and [method_policy]), the resource schedule of
    methods and transactions, and the textual names of methods and effects
    used by governance. *)
From S2P Require Import Prelude Effects Merkle Types.

(** The free function [method_policy]. *)
Definition mk_method_policy (authority : PolicyAuthority) (effects : list PolicyEffect)
    (invariants : list ContractInvariant) : MethodPolicy :=
  {| mp_authority := authority; mp_reentrancy := NonReentrant;
     mp_effects := list_to_set effects; mp_invariants := list_to_set invariants |}.

Definition with_policy_manifest (contract_id : ContractId) (code_hash : string) (kind : ContractKind)
    (method_policies : gmap Method MethodPolicy) (declared_invariants : gset ContractInvariant)
    : ContractRecord :=
  {| cr_contract_id := contract_id; cr_code_hash := code_hash; cr_kind := kind;
     cr_exported_methods := dom method_policies; cr_method_policies := method_policies;
     cr_declared_invariants := declared_invariants |}.

Definition record_token (contract_id : ContractId) (code_hash : string) : ContractRecord :=
  let invariant := TokenSupplyMatchesBalances in
  with_policy_manifest contract_id code_hash Token
    (list_to_map [
      (Transfer, mk_method_policy TxSender [StorageWrite; EventEmit] [invariant]);
      (Approve, mk_method_policy TxSender [RegistryWrite; EventEmit] []);
      (TransferFrom, mk_method_policy LiveAllowanceGrant
         [StorageWrite; RegistryWrite; EventEmit] [invariant]);
      (Permit, mk_method_policy PermitCertificate [RegistryWrite; EventEmit] [])])
    {[invariant]}.

Definition record_amm_pool (contract_id : ContractId) (code_hash : string)
    (asset_a asset_b : AssetId) (parameters : AmmParameters) : ContractRecord :=
  let lp_invariant := AmmLpSupplyMatchesBalances in
  with_policy_manifest contract_id code_hash (AmmPool asset_a asset_b (amm_swap_fee_bps parameters))
    (list_to_map [
      (AddLiquidity, mk_method_policy TxSender [StorageWrite; EventEmit] [lp_invariant]);
      (Swap, mk_method_policy TxSender [StorageWrite; EventEmit] [lp_invariant])])
    {[AmmPoolAssetsDistinct; lp_invariant]}.

Definition record_oracle (contract_id : ContractId) (code_hash : string) (asset : AssetId)
    (max_age : N) : ContractRecord :=
  with_policy_manifest contract_id code_hash (Oracle asset max_age)
    (list_to_map [
      (SubmitPrice, mk_method_policy OracleUpdaterGrant [StorageWrite; EventEmit]
         [OracleUpdatesRequireLiveGrant])])
    {[OracleUpdatesRequireLiveGrant; OracleFreshnessCheckedByConsumers]}.

Definition record_bridge (contract_id : ContractId) (code_hash : string) (source_chain : ChainId)
    : ContractRecord :=
  with_policy_manifest contract_id code_hash (Bridge source_chain)
    (list_to_map [
      (QueueBridgeMessage, mk_method_policy TxSender [CrossShardOutboxAppend; EventEmit]
         [BridgeOutboundMessageIdsUnique]);
      (RedeemBridgeMessage, mk_method_policy BridgeCertificate [StorageWrite; EventEmit]
         [BridgeInboundMessagesConsumedOnce])])
    {[BridgeInboundMessagesConsumedOnce; BridgeOutboundMessageIdsUnique]}.

Definition record_governance (contract_id : ContractId) (code_hash : string)
    (governed_contract : ContractId) (timelock_delay : N) : ContractRecord :=
  let admin := GovernanceChangesRequireAdminGrant in
  let timelock := GovernanceUpgradesRespectTimelock in
  with_policy_manifest contract_id code_hash (Governance governed_contract timelock_delay)
    (list_to_map [
      (PauseContract, mk_method_policy GovernanceAdminGrant [ContractPause; EventEmit] [admin]);
      (UnpauseContract, mk_method_policy GovernanceAdminGrant [ContractPause; EventEmit] [admin]);
      (ScheduleUpgrade, mk_method_policy GovernanceAdminGrant [UpgradeSchedule; EventEmit]
         [admin; timelock]);
      (ExecuteUpgrade, mk_method_policy GovernanceAdminGrant [ContractCodeUpgrade; EventEmit]
         [admin; timelock]);
      (SchedulePolicyUpdate, mk_method_policy GovernanceAdminGrant
         [PolicyUpdateSchedule; EventEmit] [admin; timelock]);
      (ExecutePolicyUpdate, mk_method_policy GovernanceAdminGrant
         [MethodPolicyUpdate; EventEmit] [admin; timelock])])
    {[admin; timelock]}.

Definition record_lending_vault (contract_id : ContractId) (code_hash : string)
    (collateral_asset debt_asset : AssetId) (oracle_contract : ContractId)
    (risk : LendingRiskParameters) : ContractRecord :=
  let invariant := LendingBorrowWithinCollateralLimit in
  with_policy_manifest contract_id code_hash
    (LendingVault collateral_asset debt_asset oracle_contract (lr_ltv_bps risk)
       (lr_max_oracle_age risk) (lr_interest_bps_per_block risk) (lr_liquidation_threshold_bps risk))
    (list_to_map [
      (DepositCollateral, mk_method_policy TxSender [StorageWrite; EventEmit] []);
      (Borrow, mk_method_policy TxSender [StorageWrite; EventEmit] [invariant]);
      (Liquidate, mk_method_policy TxSender [StorageWrite; EventEmit] [invariant])])
    {[invariant]}.

Definition record_staking (contract_id : ContractId) (code_hash : string) (asset : AssetId)
    (parameters : StakingParameters) : ContractRecord :=
  let active_invariant := StakingTotalMatchesBalances in
  let pending_invariant := StakingPendingUnbondingMatchesTotal in
  with_policy_manifest contract_id code_hash
    (Staking asset (sp_unbonding_delay parameters) (sp_reward_per_block parameters)
       (sp_unstake_penalty_bps parameters))
    (list_to_map [
      (Stake, mk_method_policy TxSender [StorageWrite; EventEmit] [active_invariant]);
      (Unstake, mk_method_policy TxSender [StorageWrite; EventEmit] [active_invariant]);
      (RequestUnstake, mk_method_policy TxSender [StorageWrite; EventEmit]
         [active_invariant; pending_invariant]);
      (CompleteUnstake, mk_method_policy TxSender [StorageWrite; EventEmit] [pending_invariant]);
      (ClaimStakingRewards, mk_method_policy TxSender [StorageWrite; EventEmit] [])])
    {[active_invariant; pending_invariant]}.

Definition record_router (contract_id : ContractId) (code_hash : string)
    (token_contract : ContractId) : ContractRecord :=
  with_policy_manifest contract_id code_hash (Router token_contract)
    (list_to_map [
      (RouteTransferFrom, mk_method_policy TxSender [CrossContractCall]
         [RouterDoesNotInheritCallerWriteScope])])
    {[RouterDoesNotInheritCallerWriteScope]}.

Definition record_factory (contract_id : ContractId) (code_hash : string) : ContractRecord :=
  let invariant := FactoryDeploymentsDeclarePolicies in
  with_policy_manifest contract_id code_hash Factory
    (list_to_map [
      (DeployToken, mk_method_policy TxSender [ContractDeploy; StorageWrite; EventEmit] [invariant]);
      (DeployAmmPool, mk_method_policy TxSender [ContractDeploy; StorageWrite; EventEmit] [invariant]);
      (SubmitAspectModule, mk_method_policy TxSender [ModuleRegister; EventEmit] [invariant]);
      (DeployAspectContract, mk_method_policy TxSender [ContractDeploy; EventEmit] [invariant])])
    {[invariant]}.

Definition record_account_registry (contract_id : ContractId) (code_hash : string) : ContractRecord :=
  let invariant := AccountSignerKeysCanonical in
  with_policy_manifest contract_id code_hash AccountRegistry
    (list_to_map [
      (RegisterAccountKey, mk_method_policy TxSender [RegistryWrite; EventEmit] [invariant]);
      (RevokeAccountKey, mk_method_policy TxSender [RegistryWrite; EventEmit] [invariant])])
    {[invariant]}.

(** ** Resource schedule *)
Definition DEFAULT_BLOCK_RESOURCE_LIMIT : N := 10000000.

Definition method_resource_units (method : Method) : N :=
  match method with
  | Transfer => 20
  | Approve => 18
  | TransferFrom => 32
  | Permit => 50
  | AddLiquidity => 42
  | Swap => 45
  | SubmitPrice => 28
  | QueueBridgeMessage => 34
  | RedeemBridgeMessage => 48
  | PauseContract | UnpauseContract => 20
  | ScheduleUpgrade | SchedulePolicyUpdate => 30
  | ExecuteUpgrade | ExecutePolicyUpdate => 40
  | DepositCollateral | Stake | Unstake => 22
  | RequestUnstake | CompleteUnstake | ClaimStakingRewards => 26
  | Borrow => 38
  | Liquidate => 46
  | RouteTransferFrom => 55
  | DeployToken | DeployAmmPool => 60
  | SubmitAspectModule => 80
  | DeployAspectContract => 64
  | RegisterAccountKey | RevokeAccountKey => 24
  | Other _ => 10
  end.
Definition transaction_resource_units (tx : Transaction) : N :=
  let arg_units := saturating_mul_u64 (N.of_nat (length (tx_args tx))) 2 in
  saturating_add_u64 (saturating_add_u64 10 arg_units) (method_resource_units (tx_method tx)).
Definition block_resource_units (transactions : list Transaction) : N :=
  foldl saturating_add_u64 0 (transaction_resource_units <$> transactions).

(** ** Names used by governance and by aspect calls *)
Definition parse_policy_method (value : string) : outcome ExecutionError Method :=
  if bool_decide (value = "transfer") then Ok Transfer
  else if bool_decide (value = "approve") then Ok Approve
  else if bool_decide (value = "transferFrom") then Ok TransferFrom
  else if bool_decide (value = "permit") then Ok Permit
  else if bool_decide (value = "addLiquidity") then Ok AddLiquidity
  else if bool_decide (value = "swap") then Ok Swap
  else if bool_decide (value = "submitPrice") then Ok SubmitPrice
  else if bool_decide (value = "queueBridgeMessage") then Ok QueueBridgeMessage
  else if bool_decide (value = "redeemBridgeMessage") then Ok RedeemBridgeMessage
  else if bool_decide (value = "pauseContract") then Ok PauseContract
  else if bool_decide (value = "unpauseContract") then Ok UnpauseContract
  else if bool_decide (value = "scheduleUpgrade") then Ok ScheduleUpgrade
  else if bool_decide (value = "executeUpgrade") then Ok ExecuteUpgrade
  else if bool_decide (value = "schedulePolicyUpdate") then Ok SchedulePolicyUpdate
  else if bool_decide (value = "executePolicyUpdate") then Ok ExecutePolicyUpdate
  else if bool_decide (value = "depositCollateral") then Ok DepositCollateral
  else if bool_decide (value = "borrow") then Ok Borrow
  else if bool_decide (value = "liquidate") then Ok Liquidate
  else if bool_decide (value = "stake") then Ok Stake
  else if bool_decide (value = "unstake") then Ok Unstake
  else if bool_decide (value = "requestUnstake") then Ok RequestUnstake
  else if bool_decide (value = "completeUnstake") then Ok CompleteUnstake
  else if bool_decide (value = "claimStakingRewards") then Ok ClaimStakingRewards
  else if bool_decide (value = "routeTransferFrom") then Ok RouteTransferFrom
  else if bool_decide (value = "deployToken") then Ok DeployToken
  else if bool_decide (value = "deployAmmPool") then Ok DeployAmmPool
  else if bool_decide (value = "submitAspectModule") then Ok SubmitAspectModule
  else if bool_decide (value = "deployAspectContract") then Ok DeployAspectContract
  else if bool_decide (value = "registerAccountKey") then Ok RegisterAccountKey
  else if bool_decide (value = "revokeAccountKey") then Ok RevokeAccountKey
  else Err InvalidArguments.

Definition parse_policy_effect (value : string) : outcome ExecutionError PolicyEffect :=
  if bool_decide (value = "storageWrite") then Ok StorageWrite
  else if bool_decide (value = "registryWrite") then Ok RegistryWrite
  else if bool_decide (value = "eventEmit") then Ok EventEmit
  else if bool_decide (value = "moduleRegister") then Ok ModuleRegister
  else if bool_decide (value = "contractPause") then Ok ContractPause
  else if bool_decide (value = "upgradeSchedule") then Ok UpgradeSchedule
  else if bool_decide (value = "contractCodeUpgrade") then Ok ContractCodeUpgrade
  else if bool_decide (value = "policyUpdateSchedule") then Ok PolicyUpdateSchedule
  else if bool_decide (value = "methodPolicyUpdate") then Ok MethodPolicyUpdate
  else if bool_decide (value = "crossContractCall") then Ok CrossContractCall
  else if bool_decide (value = "crossShardOutboxAppend") then Ok CrossShardOutboxAppend
  else if bool_decide (value = "contractDeploy") then Ok ContractDeploy
  else Err InvalidArguments.

(** ** Properties *)
Lemma dom_with_policy_manifest c h k p i :
  cr_exported_methods (with_policy_manifest c h k p i) =
  dom (cr_method_policies (with_policy_manifest c h k p i)).
Proof. done. Qed.

(** Every method costs at most 80 units beyond the base and argument units. *)
Lemma method_resource_units_bounds m : 10 ≤ method_resource_units m ≤ 80.
Proof. destruct m; simpl; lia. Qed.
Lemma transaction_resource_units_pos tx : 20 ≤ transaction_resource_units tx ≤ u64_max.
Proof.
  unfold transaction_resource_units, saturating_add, saturating_mul.
  pose proof (method_resource_units_bounds (tx_method tx)).
  assert (1000 ≤ u64_max) by (unfold u64_max; lia). lia.
Qed.

Lemma block_units_acc l a :
  a ≤ u64_max →
  foldl saturating_add_u64 a l = N.min u64_max (a + sumN l).
Proof.
  revert a. induction l as [|x l IH]; intros a Ha; simpl; [lia|].
  rewrite IH by (unfold saturating_add; lia). unfold saturating_add. lia.
Qed.
(** The saturating fold is the saturated sum. *)
Lemma block_resource_units_sum txs :
  block_resource_units txs = N.min u64_max (sumN (transaction_resource_units <$> txs)).
Proof. unfold block_resource_units. by rewrite block_units_acc by (unfold u64_max; lia). Qed.
