(* ===== verification/AspectRuntime.v ===== *)
(** * AspectRuntime: the action evaluator of aspect modules

    Models crates/detta-aspect-runtime/src/lib.rs.  The evaluator is a
    function of the module alone: it reads a snapshot of the state and emits
    a trace of host operations that the executor applies afterwards.  The
    diagnostic strings inside its errors are not modelled.  Recursion is on
    the remaining call depth ([max_stack_depth - stack_depth]) and, within
    one body, on the expression, so the evaluator is total by construction. *)
From S2P Require Import Prelude Effects Merkle Types.

Inductive AspectValue :=
| VUnit
| VBool (b : bool)
| VAmount (n : N)
| VAtom (s : string).
#[export] Instance AspectValue_eq_dec : EqDecision AspectValue.
Proof. solve_decision. Defined.

Abbreviation AspectStateReads := (gmap (string * list string) AspectValue).
Abbreviation ContractAspectStateReads := (gmap (string * string * list string) AspectValue).

Inductive AspectHostOp :=
| OpStateGet (state : string) (key : list string)
| OpContractStateGet (contract state : string) (key : list string)
| OpStateSet (state : string) (key : list string) (value : AspectValue)
| OpRegistryGet (registry : string)
| OpRegistrySet (registry : string) (value : AspectValue)
| OpRegistryConsume (registry : string) (value : AspectValue)
| OpEmit (event : string)
| OpCallContract (contract method : string) (args : list AspectValue)
| OpPermitVerify (owner spender asset : string) (amount : N) (certificate : string)
| OpBridgeVerify (source_chain message_id recipient asset : string) (amount : N)
    (certificate : string)
| OpCrossShardOutboxAppend (destination_chain destination_contract message_id recipient asset : string)
    (amount : N).

Record AspectExecutionContext := {
  ctx_tx_sender : string; ctx_msg_sender : string; ctx_current_contract : string;
  ctx_block_height : N; ctx_block_timestamp : N;
}.
Inductive AspectEvalError :=
| UnknownProjection | UnknownAction | MissingActionBody | InvalidActionBody | InvalidExpression
| UnknownVariable | StepBudgetExceeded | EvalArithmeticOverflow | DivisionByZero | RequireFailed
| TypeMismatch | StackDepthExceeded.

Record AspectEvalState := {
  es_steps_used : N;
  es_trace : list AspectHostOp;
  es_bindings : gmap string AspectValue;
  es_context : AspectExecutionContext;
  es_state_reads : AspectStateReads;
  es_contract_state_reads : ContractAspectStateReads;
}.
Record AspectExecutionReport := {
  rep_trace : list AspectHostOp; rep_return_value : AspectValue; rep_steps_used : N;
}.
Abbreviation EM := (SE AspectEvalState AspectEvalError).

Definition set_steps (n : N) (s : AspectEvalState) : AspectEvalState :=
  {| es_steps_used := n; es_trace := es_trace s; es_bindings := es_bindings s;
     es_context := es_context s; es_state_reads := es_state_reads s;
     es_contract_state_reads := es_contract_state_reads s |}.
Definition set_bindings (b : gmap string AspectValue) (s : AspectEvalState) : AspectEvalState :=
  {| es_steps_used := es_steps_used s; es_trace := es_trace s; es_bindings := b;
     es_context := es_context s; es_state_reads := es_state_reads s;
     es_contract_state_reads := es_contract_state_reads s |}.
Definition push_op (op : AspectHostOp) (s : AspectEvalState) : AspectEvalState :=
  {| es_steps_used := es_steps_used s; es_trace := es_trace s ++ [op]; es_bindings := es_bindings s;
     es_context := es_context s; es_state_reads := es_state_reads s;
     es_contract_state_reads := es_contract_state_reads s |}.
Definition charge (max_steps : N) : EM () := λ s,
  if max_steps <=? es_steps_used s then (Err StepBudgetExceeded, s)
  else (Ok (), set_steps (es_steps_used s + 1) s).

(** ** Values *)
Definition into_amount (v : AspectValue) : outcome AspectEvalError N :=
  match v with VAmount n => Ok n | _ => Err TypeMismatch end.
Definition into_bool (v : AspectValue) : outcome AspectEvalError bool :=
  match v with VBool b => Ok b | _ => Err TypeMismatch end.
Definition aspect_atom_value (v : AspectValue) : outcome AspectEvalError string :=
  match v with VAtom s => Ok s | _ => Err TypeMismatch end.
Definition aspect_key_part (v : AspectValue) : outcome AspectEvalError string :=
  match v with
  | VAtom s => Ok s
  | VAmount n => Ok (pretty n)
  | VBool b => Ok (if b then "true" else "false")
  | VUnit => Err TypeMismatch
  end.
Definition aspect_value_source (v : AspectValue) : string :=
  match v with
  | VUnit => "Unit" | VBool true => "True" | VBool false => "False"
  | VAmount n => pretty n | VAtom s => s
  end.
(** [str::parse::<u128>()]: an optional plus sign, then decimal digits. *)
Definition digit (c : ascii) : option N :=
  let n := N_of_ascii c in if (48 <=? n) && (n <=? 57) then Some (n - 48) else None.
Fixpoint parse_digits (acc : N) (s : string) : option N :=
  match s with
  | EmptyString => Some acc
  | String c s =>
      d ← digit c; n ← checked_mul_u128 acc 10; n ← checked_add_u128 n d; parse_digits n s
  end.
Definition parse_u128 (s : string) : option N :=
  match s with
  | EmptyString => None
  | String "+" EmptyString => None
  | String "+" s => parse_digits 0 s
  | s => parse_digits 0 s
  end.
Definition strip_dollar (s : string) : option string :=
  match s with String "$" rest => Some rest | _ => None end.

Definition qualified (namespace name : string) : string := namespace +:+ "::" +:+ name.

(** ** Bodies *)
Fixpoint dollar_params (params : list Expr) : outcome AspectEvalError (list string) :=
  match params with
  | [] => Ok []
  | Atom p :: ps =>
      let* name := ok_or (strip_dollar p) InvalidActionBody in
      let* names := dollar_params ps in Ok (name :: names)
  | ExprList _ :: _ => Err InvalidActionBody
  end.
Definition action_body_parts (action : string) (body : Expr)
    : outcome AspectEvalError (list string * Expr) :=
  match body with
  | ExprList [Atom eq; ExprList (Atom head :: params); rhs] =>
      if bool_decide (eq = "=") && bool_decide (head = action) then
        let* names := dollar_params params in Ok (names, rhs)
      else Err InvalidActionBody
  | _ => Err InvalidActionBody
  end.
Definition projection_body_parts (expr : Expr) : outcome AspectEvalError (list string * Expr) :=
  match expr with
  | ExprList [Atom eq; ExprList signature; rhs] =>
      if bool_decide (eq = "=") then
        let* names := dollar_params (tail signature) in Ok (names, rhs)
      else Err InvalidActionBody
  | _ => Err InvalidActionBody
  end.
(** [for (param, value) in params.zip(args) { bindings.insert(param, value); }] *)
Definition bind_all (params : list string) (args : list AspectValue) (b : gmap string AspectValue)
    : gmap string AspectValue :=
  foldl (λ b '(p, v), <[p := v]> b) b (zip params args).

Definition eval_atom (atom : string) : EM AspectValue := λ s,
  match strip_dollar atom with
  | Some variable => (ok_or (es_bindings s !! variable) UnknownVariable, s)
  | None =>
      let c := es_context s in
      (if bool_decide (atom = "True") then Ok (VBool true)
       else if bool_decide (atom = "False") then Ok (VBool false)
       else if bool_decide (atom = "tx.sender") then Ok (VAtom (ctx_tx_sender c))
       else if bool_decide (atom = "msg.sender") then Ok (VAtom (ctx_msg_sender c))
       else if bool_decide (atom = "current-contract") then Ok (VAtom (ctx_current_contract c))
       else if bool_decide (atom = "block-height") then Ok (VAmount (ctx_block_height c))
       else if bool_decide (atom = "block-timestamp") then Ok (VAmount (ctx_block_timestamp c))
       else match parse_u128 atom with
            | Some value => Ok (VAmount value)
            | None => Ok (VAtom atom)
            end, s)
  end.

(** ** Special forms, over the evaluator [ev] of subexpressions *)
Section forms.
Context (ev : Expr → EM AspectValue).

Definition ev_amount (e : Expr) : EM N := let! v := ev e in lift (into_amount v).
Definition ev_bool (e : Expr) : EM bool := let! v := ev e in lift (into_bool v).
Definition ev_string (e : Expr) : EM string := let! v := ev e in lift (aspect_atom_value v).
Fixpoint ev_all (es : list Expr) : EM (list AspectValue) :=
  match es with
  | [] => ret []
  | e :: es => let! v := ev e in let! vs := ev_all es in ret (v :: vs)
  end.
Fixpoint eval_key_parts (es : list Expr) : EM (list string) :=
  match es with
  | [] => ret []
  | e :: es =>
      let! v := ev e in
      let? k := aspect_key_part v in
      let! ks := eval_key_parts es in
      ret (k :: ks)
  end.
Fixpoint ev_last (es : list Expr) (result : AspectValue) : EM AspectValue :=
  match es with
  | [] => ret result
  | e :: es => let! v := ev e in ev_last es v
  end.
(** [items[2..len-1]] evaluated as keys, then the last item as the value. *)
Fixpoint ev_keys_value (es : list Expr) : EM (list string * AspectValue) :=
  match es with
  | [] => throw InvalidExpression
  | [e] => let! v := ev e in ret ([], v)
  | e :: es =>
      let! v := ev e in
      let? k := aspect_key_part v in
      let! '(ks, v) := ev_keys_value es in
      ret (k :: ks, v)
  end.
Fixpoint ev_event_items (es : list Expr) : EM (list string) :=
  match es with
  | [] => ret []
  | e :: es =>
      let! v := (match e with Atom a => eval_atom a | ExprList _ => ev e end) in
      let! vs := ev_event_items es in
      ret (aspect_value_source v :: vs)
  end.

Definition eval_checked_binary_amount (args : list Expr) (operation : N → N → option N)
    : EM AspectValue :=
  match args with
  | [a; b] =>
      let! left := ev_amount a in
      let! right := ev_amount b in
      let? v := ok_or (operation left right) EvalArithmeticOverflow in
      ret (VAmount v)
  | _ => throw InvalidExpression
  end.
Definition eval_div (args : list Expr) : EM AspectValue :=
  match args with
  | [a; b] =>
      let! left := ev_amount a in
      let! right := ev_amount b in
      do? ensure (negb (right =? 0)) DivisionByZero in
      ret (VAmount (left / right))
  | _ => throw InvalidExpression
  end.
Definition eval_require (args : list Expr) : EM AspectValue :=
  match args with
  | [a; _] => let! c := ev_bool a in do? ensure c RequireFailed in ret VUnit
  | _ => throw InvalidExpression
  end.
Definition eval_if (args : list Expr) : EM AspectValue :=
  match args with
  | [c; a; b] => let! c := ev_bool c in if c then ev a else ev b
  | _ => throw InvalidExpression
  end.
Definition eval_begin (args : list Expr) : EM AspectValue :=
  match args with [] => throw InvalidExpression | _ => ev_last args VUnit end.
Definition eval_and (args : list Expr) : EM AspectValue :=
  match args with
  | [a; b] =>
      let! left := ev_bool a in
      if negb left then ret (VBool false) else let! right := ev_bool b in ret (VBool right)
  | _ => throw InvalidExpression
  end.
Definition eval_or (args : list Expr) : EM AspectValue :=
  match args with
  | [a; b] =>
      let! left := ev_bool a in
      if left then ret (VBool true) else let! right := ev_bool b in ret (VBool right)
  | _ => throw InvalidExpression
  end.
Definition eval_not (args : list Expr) : EM AspectValue :=
  match args with
  | [a] => let! b := ev_bool a in ret (VBool (negb b))
  | _ => throw InvalidExpression
  end.
Definition eval_eq (args : list Expr) : EM AspectValue :=
  match args with
  | [a; b] => let! l := ev a in let! r := ev b in ret (VBool (bool_decide (l = r)))
  | _ => throw InvalidExpression
  end.
Definition eval_cmp (args : list Expr) (operation : N → N → bool) : EM AspectValue :=
  match args with
  | [a; b] => let! l := ev_amount a in let! r := ev_amount b in ret (VBool (operation l r))
  | _ => throw InvalidExpression
  end.
Definition eval_state_get (args : list Expr) : EM AspectValue :=
  match args with
  | Atom state_name :: keys =>
      let! key := eval_key_parts keys in
      do! modify (push_op (OpStateGet state_name key)) in
      gets (λ s, default (VAmount 0) (es_state_reads s !! (state_name, key)))
  | _ => throw InvalidExpression
  end.
Definition eval_contract_state_get (args : list Expr) : EM AspectValue :=
  match args with
  | c :: state :: keys =>
      let! contract := ev_string c in
      match state with
      | Atom state_name =>
          let! key := eval_key_parts keys in
          do! modify (push_op (OpContractStateGet contract state_name key)) in
          gets (λ s, default (VAmount 0) (es_contract_state_reads s !! (contract, state_name, key)))
      | ExprList _ => throw InvalidExpression
      end
  | _ => throw InvalidExpression
  end.
Definition eval_state_set (args : list Expr) : EM AspectValue :=
  match args with
  | Atom state_name :: ((_ :: _) as rest) =>
      let! '(key, value) := ev_keys_value rest in
      do! modify (push_op (OpStateSet state_name key value)) in
      ret VUnit
  | _ => throw InvalidExpression
  end.
Definition eval_registry_get (args : list Expr) : EM AspectValue :=
  match args with
  | Atom registry :: _ => do! modify (push_op (OpRegistryGet registry)) in ret VUnit
  | _ => throw InvalidExpression
  end.
Definition eval_registry_write (mk : string → AspectValue → AspectHostOp) (args : list Expr)
    : EM AspectValue :=
  match args with
  | [Atom registry; e] =>
      let! value := ev e in do! modify (push_op (mk registry value)) in ret VUnit
  | _ => throw InvalidExpression
  end.
Definition eval_emit (args : list Expr) : EM AspectValue :=
  match args with
  | [e] =>
      let! event := (match e with
        | Atom a => let! v := eval_atom a in ret (aspect_value_source v)
        | ExprList items =>
            let! parts := ev_event_items items in
            ret ("(" +:+ String.concat " " parts +:+ ")")
        end) in
      do! modify (push_op (OpEmit event)) in
      ret VUnit
  | _ => throw InvalidExpression
  end.
Definition eval_call_contract (args : list Expr) : EM AspectValue :=
  match args with
  | c :: m :: rest =>
      let! contract := ev_string c in
      match m with
      | Atom method =>
          let! vs := ev_all rest in
          do! modify (push_op (OpCallContract contract method vs)) in
          ret VUnit
      | ExprList _ => throw InvalidExpression
      end
  | _ => throw InvalidExpression
  end.
Definition eval_permit_verify (args : list Expr) : EM AspectValue :=
  match args with
  | [o; s; a; n; c] =>
      let! owner := ev_string o in
      let! spender := ev_string s in
      let! asset := ev_string a in
      let! amount := ev_amount n in
      let! certificate := ev_string c in
      do! modify (push_op (OpPermitVerify owner spender asset amount certificate)) in
      ret VUnit
  | _ => throw InvalidExpression
  end.
Definition eval_bridge_verify (args : list Expr) : EM AspectValue :=
  match args with
  | [sc; m; r; a; n; c] =>
      let! source_chain := ev_string sc in
      let! message_id := ev_string m in
      let! recipient := ev_string r in
      let! asset := ev_string a in
      let! amount := ev_amount n in
      let! certificate := ev_string c in
      do! modify (push_op (OpBridgeVerify source_chain message_id recipient asset amount certificate)) in
      ret VUnit
  | _ => throw InvalidExpression
  end.
Definition eval_cross_shard_outbox_append (args : list Expr) : EM AspectValue :=
  match args with
  | [dc; dk; m; r; a; n] =>
      let! destination_chain := ev_string dc in
      let! destination_contract := ev_string dk in
      let! message_id := ev_string m in
      let! recipient := ev_string r in
      let! asset := ev_string a in
      let! amount := ev_amount n in
      do! modify (push_op (OpCrossShardOutboxAppend destination_chain destination_contract
            message_id recipient asset amount)) in
      ret VUnit
  | _ => throw InvalidExpression
  end.
End forms.

(** ** The evaluator *)
Section evaluator.
Context (module : AspectModuleIr) (max_steps : N).
Definition max_stack_depth : nat := 64.

(** [eval_action_call]: the one action of that name, its arguments, its body
    run by [run] one level deeper. *)
Definition eval_action_call (ev : Expr → EM AspectValue)
    (named_action : string → string → list AspectValue → EM AspectValue)
    (action_name : string) (args : list Expr) : EM AspectValue :=
  match filter (λ a, act_action a = action_name) (values (ir_actions module)) with
  | [a] => let! vs := ev_all ev args in named_action (act_aspect a) (act_action a) vs
  | _ => throw InvalidExpression
  end.

(** The dispatch on the head of a form. *)
Definition eval_form (ev : Expr → EM AspectValue)
    (named_action : string → string → list AspectValue → EM AspectValue)
    (head : string) (args : list Expr) : EM AspectValue :=
  if bool_decide (head = "safe-add") then eval_checked_binary_amount ev args checked_add_u128
  else if bool_decide (head = "safe-sub") then eval_checked_binary_amount ev args checked_sub
  else if bool_decide (head = "safe-mul") then eval_checked_binary_amount ev args checked_mul_u128
  else if bool_decide (head = "safe-div") then eval_div ev args
  else if bool_decide (head = "require") then eval_require ev args
  else if bool_decide (head = "if") then eval_if ev args
  else if bool_decide (head = "begin") then eval_begin ev args
  else if bool_decide (head = "and") then eval_and ev args
  else if bool_decide (head = "or") then eval_or ev args
  else if bool_decide (head = "not") then eval_not ev args
  else if bool_decide (head = "=") then eval_eq ev args
  else if bool_decide (head = "<") then eval_cmp ev args N.ltb
  else if bool_decide (head = "<=") then eval_cmp ev args N.leb
  else if bool_decide (head = ">") then eval_cmp ev args (λ l r, N.ltb r l)
  else if bool_decide (head = ">=") then eval_cmp ev args (λ l r, N.leb r l)
  else if bool_decide (head = "state-get") then eval_state_get ev args
  else if bool_decide (head = "contract-state-get") then eval_contract_state_get ev args
  else if bool_decide (head = "state-set!") then eval_state_set ev args
  else if bool_decide (head = "registry-get") then eval_registry_get args
  else if bool_decide (head = "registry-set!") then eval_registry_write ev OpRegistrySet args
  else if bool_decide (head = "registry-consume!") then eval_registry_write ev OpRegistryConsume args
  else if bool_decide (head = "emit!") then eval_emit ev args
  else if bool_decide (head = "call-contract!") then eval_call_contract ev args
  else if bool_decide (head = "permit-verify!") then eval_permit_verify ev args
  else if bool_decide (head = "bridge-verify!") then eval_bridge_verify ev args
  else if bool_decide (head = "cross-shard-outbox-append!") then
    eval_cross_shard_outbox_append ev args
  else eval_action_call ev named_action head args.

(** One body, with calls to named actions given. *)
Fixpoint eval_body (named_action : string → string → list AspectValue → EM AspectValue)
    (expr : Expr) {struct expr} : EM AspectValue :=
  match expr with
  | Atom atom => eval_atom atom
  | ExprList items =>
      do! charge max_steps in
      match items with
      | Atom head :: args => eval_form (eval_body named_action) named_action head args
      | _ => throw InvalidExpression
      end
  end.

(** [execute_named_action] with [depth] levels left. *)
Fixpoint execute_named_action (depth : nat) (aspect action : string) (args : list AspectValue)
    : EM AspectValue :=
  match depth with
  | O => throw StackDepthExceeded
  | S depth =>
      let? action_def := ok_or (ir_actions module !! qualified aspect action) UnknownAction in
      let? body := ok_or (act_body action_def) MissingActionBody in
      let? '(params, rhs) := action_body_parts action body in
      do? ensure (length params =? length args)%nat InvalidActionBody in
      let! previous_bindings := gets es_bindings in
      do! modify (λ s, set_bindings (bind_all params args (es_bindings s)) s) in
      finally (eval_body (execute_named_action depth) rhs) (set_bindings previous_bindings)
  end.
Definition eval_expr (expr : Expr) : EM AspectValue :=
  eval_body (execute_named_action max_stack_depth) expr.

Definition run_report (expr : Expr) (bindings : gmap string AspectValue)
    (context : AspectExecutionContext) (state_reads : AspectStateReads)
    (contract_state_reads : ContractAspectStateReads)
    : outcome AspectEvalError AspectExecutionReport :=
  match eval_expr expr {| es_steps_used := 0; es_trace := []; es_bindings := bindings;
          es_context := context; es_state_reads := state_reads;
          es_contract_state_reads := contract_state_reads |} with
  | (Ok v, s) => Ok {| rep_trace := es_trace s; rep_return_value := v;
                       rep_steps_used := es_steps_used s |}
  | (Err e, _) => Err e
  | (Panic, _) => Panic
  | (OutOfFuel, _) => OutOfFuel
  end.
Definition execute_projection_with_contract_state (bundle projection : string)
    (args : list AspectValue) (context : AspectExecutionContext) (state_reads : AspectStateReads)
    (contract_state_reads : ContractAspectStateReads)
    : outcome AspectEvalError AspectExecutionReport :=
  let* projection_def := ok_or (ir_projections module !! qualified bundle projection)
                           UnknownProjection in
  let* parts := projection_body_parts (pd_expr projection_def) in
  do* ensure (length parts.1 =? length args)%nat InvalidActionBody in
  run_report parts.2 (bind_all parts.1 args ∅) context state_reads contract_state_reads.
Definition evaluate_invariant_expr_with_contract_state (expr : Expr)
    (context : AspectExecutionContext) (state_reads : AspectStateReads)
    (contract_state_reads : ContractAspectStateReads)
    : outcome AspectEvalError AspectExecutionReport :=
  run_report expr ∅ context state_reads contract_state_reads.
End evaluator.

(** ** What an evaluation may do

    Whatever its outcome, evaluation leaves the bindings, the context and the
    snapshots alone, only appends to the trace, and spends at most
    [max_steps] steps; it neither panics nor diverges. *)
Definition eval_rel (max_steps : N) (s s' : AspectEvalState) : Prop :=
  es_bindings s' = es_bindings s ∧ es_context s' = es_context s ∧
  es_state_reads s' = es_state_reads s ∧
  es_contract_state_reads s' = es_contract_state_reads s ∧
  es_trace s `prefix_of` es_trace s' ∧
  es_steps_used s ≤ es_steps_used s' ∧
  (es_steps_used s ≤ max_steps → es_steps_used s' ≤ max_steps).
Definition always {S : Type} : S → Prop := λ _, True.
#[export] Instance eval_rel_frame max_steps : Frame (eval_rel max_steps) always.
Proof.
  split; [|done]. split.
  - intros s. by split_and!.
  - intros s1 s2 s3 (?&?&?&?&?&?&?) (?&?&?&?&?&?&?). split_and!; try congruence; [by etrans|lia|auto].
Qed.

(** The host operations a form can append to the trace.  A contract named by
    a plain atom is that atom. *)
Definition names_contract (target : Expr) (contract : string) : Prop :=
  ∀ atom, target = Atom atom → strip_dollar atom = None →
  atom ∉ ["tx.sender"; "msg.sender"; "current-contract"] → contract = atom.
Definition form_op (head : string) (args : list Expr) (op : AspectHostOp) : Prop :=
  match op with
  | OpStateGet state _ => head = "state-get" ∧ ∃ rest, args = Atom state :: rest
  | OpContractStateGet contract state _ => head = "contract-state-get" ∧
      ∃ target rest, args = target :: Atom state :: rest ∧ names_contract target contract
  | OpStateSet state _ _ => head = "state-set!" ∧ ∃ rest, args = Atom state :: rest
  | OpRegistryGet registry => head = "registry-get" ∧ ∃ rest, args = Atom registry :: rest
  | OpRegistrySet registry _ => head = "registry-set!" ∧ ∃ rest, args = Atom registry :: rest
  | OpRegistryConsume registry _ => head = "registry-consume!" ∧ ∃ rest, args = Atom registry :: rest
  | OpEmit _ => head = "emit!"
  | OpCallContract contract method _ => head = "call-contract!" ∧
      ∃ target rest, args = target :: Atom method :: rest ∧ names_contract target contract
  | OpPermitVerify _ _ _ _ _ => head = "permit-verify!"
  | OpBridgeVerify _ _ _ _ _ _ => head = "bridge-verify!"
  | OpCrossShardOutboxAppend _ _ _ _ _ _ => head = "cross-shard-outbox-append!"
  end.

Lemma total_into_amount v : total (into_amount v). Proof. by destruct v. Qed.
Lemma total_into_bool v : total (into_bool v). Proof. by destruct v. Qed.
Lemma total_aspect_atom_value v : total (aspect_atom_value v). Proof. by destruct v. Qed.
Lemma total_aspect_key_part v : total (aspect_key_part v). Proof. by destruct v. Qed.
Lemma total_dollar_params ps : total (dollar_params ps).
Proof. induction ps as [|[p|] ps IH]; simpl; auto with total. Qed.
Lemma total_action_body_parts a b : total (action_body_parts a b).
Proof.
  destruct b as [|[|[eq|] [|[|[|[head|] params]] [|rhs []]]]]; try by split.
  simpl. destruct (_ && _); [|by split]. apply total_bind; [apply total_dollar_params|auto with total].
Qed.
Lemma total_projection_body_parts b : total (projection_body_parts b).
Proof.
  destruct b as [|[|[eq|] [|[|sig] [|rhs []]]]]; try by split.
  simpl. case_bool_decide; [|by split]. apply total_bind; [apply total_dollar_params|auto with total].
Qed.
#[export] Hint Resolve total_into_amount total_into_bool total_aspect_atom_value total_aspect_key_part
  total_action_body_parts total_projection_body_parts : total.

(** ** Rules for the evaluator

    Any relation [R] between the states of an evaluation that charging,
    pushing an [allowed] operation and leaving a scope keep is kept by
    evaluating an expression all of whose forms push allowed operations:
    [good] expressions, [callable] actions. *)
Section eval_runs.
Context (module : AspectModuleIr) (max_steps : N).
Context (R : relation AspectEvalState) `{!Frame R always} (allowed : AspectHostOp → Prop).
Abbreviation safe := (runs R always).
Hypothesis safe_charge : safe (charge max_steps).
Hypothesis safe_push : ∀ op, allowed op → safe (modify (E:=AspectEvalError) (push_op op)).
Hypothesis safe_scope : ∀ s b s', R (set_bindings b s) s' → R s (set_bindings (es_bindings s) s').

Lemma safe_atom a : safe (eval_atom a).
Proof.
  intros s. unfold eval_atom. destruct (strip_dollar a) as [v|].
  - by destruct (es_bindings s !! v).
  - repeat case_bool_decide; try done. by destruct (parse_u128 a).
Qed.
Hint Resolve safe_charge safe_push safe_atom : runs.

Section forms.
Context (ev : Expr → EM AspectValue) (ev_atom : ∀ a, ev (Atom a) = eval_atom a).
Abbreviation safe_all := (Forall (λ e, safe (ev e))).

Lemma safe_amount e : safe (ev e) → safe (ev_amount ev e).
Proof. intros. unfold ev_amount. runs_tac. Qed.
Lemma safe_bool e : safe (ev e) → safe (ev_bool ev e).
Proof. intros. unfold ev_bool. runs_tac. Qed.
Lemma safe_string e : safe (ev e) → safe (ev_string ev e).
Proof. intros. unfold ev_string. runs_tac. Qed.
Lemma safe_ev_all es : safe_all es → safe (ev_all ev es).
Proof. induction 1; simpl; runs_tac. Qed.
Lemma safe_key_parts es : safe_all es → safe (eval_key_parts ev es).
Proof. induction 1; simpl; runs_tac. Qed.
Lemma safe_ev_last es v : safe_all es → safe (ev_last ev es v).
Proof. intros Hes. revert v. induction Hes; simpl; intros v; runs_tac. Qed.
Lemma safe_keys_value es : safe_all es → safe (ev_keys_value ev es).
Proof. induction 1 as [|e es He Hes IH]; simpl; [runs_tac|]. destruct es; runs_tac. Qed.
Lemma safe_event_items es : safe_all es → safe (ev_event_items ev es).
Proof. induction 1 as [|e es He Hes IH]; simpl; runs_tac. Qed.
Hint Resolve safe_amount safe_bool safe_string safe_ev_all safe_key_parts safe_ev_last
  safe_keys_value safe_event_items : runs.

(** The contract a call or a read names, followed by what is done with it. *)
Lemma safe_target {A} e (k : string → EM A) :
  safe (ev e) → (∀ c, names_contract e c → safe (k c)) → safe (let! c := ev_string ev e in k c).
Proof.
  intros He Hk s. destruct (safe_string e He s) as (HR & Hp & Hf). unfold bind.
  destruct (ev_string ev e s) as [[c|x| |] s'] eqn:Hev; simpl in *; [|done|done|by destruct Hf].
  destruct (Hk c) with (s := s') as (HR' & Hp' & Hf').
  { intros a -> Hd Ha. revert Hev. unfold ev_string, bind. rewrite ev_atom. unfold eval_atom, lift.
    rewrite !not_elem_of_cons in Ha. destruct Ha as (? & ? & ? & _).
    rewrite Hd. repeat case_bool_decide; simpl; try (intros; discriminate); try done.
    destruct (parse_u128 a); simpl; by intros [= <-]. }
  split_and!; [by etrans|done|]. intros. by apply Hf'.
Qed.

(** Every special form and every action call is safe when its parts are. *)
Lemma safe_form named head args :
  (∀ op, form_op head args op → allowed op) →
  (∀ a vs, filter (λ a, act_action a = head) (values (ir_actions module)) = [a] →
     safe (named (act_aspect a) (act_action a) vs)) →
  safe_all args → (∀ items, ExprList items ∈ args → safe_all items) →
  safe (eval_form module ev named head args).
Proof.
  intros Hop Hn Hargs Hsub.
  assert (Hpush : ∀ op, form_op head args op → safe (modify (E:=AspectEvalError) (push_op op)))
    by auto.
  unfold eval_form.
  repeat (case_bool_decide; [clear Hn Hop; subst head|]).
  all: try (unfold eval_checked_binary_amount, eval_div, eval_require, eval_if, eval_begin,
    eval_and, eval_or, eval_not, eval_eq, eval_cmp, eval_state_get, eval_contract_state_get,
    eval_state_set, eval_registry_get, eval_registry_write, eval_emit, eval_call_contract,
    eval_permit_verify, eval_bridge_verify, eval_cross_shard_outbox_append;
    repeat match goal with
    | |- safe (match ?l with [] => _ | _ :: _ => _ end) => destruct l
    | H : Forall _ (_ :: _) |- _ => apply Forall_cons in H as [? ?]
    | |- safe (bind (ev_string ev _) (λ c, match ?e with Atom _ => _ | ExprList _ => _ end)) =>
        apply safe_target; [done|intros; destruct e]
    end; runs_tac).
  all: repeat match goal with H : Forall _ (_ :: _) |- _ => apply Forall_cons in H as [? ?] end;
    try (by apply Hpush; simpl; eauto 6); try done.
  - apply safe_event_items, Hsub. set_solver.
  - unfold eval_action_call. runs_tac.
Qed.
End forms.

Context (good : Expr → Prop) (callable : string → string → Prop).
Hypothesis good_items : ∀ items e, good (ExprList items) → e ∈ items → good e.
Hypothesis good_ops : ∀ head args op,
  good (ExprList (Atom head :: args)) → form_op head args op → allowed op.
Hypothesis good_calls : ∀ head args a, good (ExprList (Atom head :: args)) →
  filter (λ a, act_action a = head) (values (ir_actions module)) = [a] →
  callable (act_aspect a) (act_action a).
Hypothesis callable_body : ∀ aspect action a body params rhs, callable aspect action →
  ir_actions module !! qualified aspect action = Some a → act_body a = Some body →
  action_body_parts action body = Ok (params, rhs) → good rhs.

Lemma safe_body named e :
  (∀ a b vs, callable a b → safe (named a b vs)) → good e → safe (eval_body module max_steps named e).
Proof.
  intros Hn. set (P e := good e → safe (eval_body module max_steps named e)).
  enough (P e ∧ ∀ items, e = ExprList items → Forall P items) by (by destruct H).
  induction e as [a|items IH] using Expr_nested_ind.
  - split; [intros _; apply safe_atom|done].
  - split; [|intros ? [= <-]; eapply Forall_impl; [exact IH|]; by intros ? [? _]].
    intros Hg. simpl. refine (runs_bind _ _ _ _ _ _); [apply safe_charge|]. intros _.
    destruct items as [|[head|] args]; [runs_tac| |runs_tac].
    rewrite Forall_forall in IH. apply safe_form; [done|eauto| | |].
    + intros a vs Ha. apply Hn. eauto.
    + apply Forall_forall. intros x Hx. apply IH; [set_solver|]. eapply good_items; [done|set_solver].
    + intros items Hin. apply Forall_forall. intros x Hx.
      destruct (IH (ExprList items)) as [_ H2]; [set_solver|]. specialize (H2 _ eq_refl).
      rewrite Forall_forall in H2. apply H2; [done|].
      eapply good_items; [|done]. eapply good_items; [done|set_solver].
Qed.
Lemma safe_named_action depth aspect action args :
  callable aspect action → safe (execute_named_action module max_steps depth aspect action args).
Proof.
  revert aspect action args. induction depth as [|depth IH]; intros aspect action args Hc; simpl; [runs_tac|].
  do 5 runs_step. intros s. unfold bind, gets, modify, finally. simpl.
  simplify_ok.
  match goal with |- context [eval_body _ _ ?n ?e ?s'] =>
    destruct (safe_body n e) with (s := s') as (HR & Hp & Hf); [auto|eauto|];
    destruct (eval_body module max_steps n e s') as [o s''] end.
  simpl in *. split_and!; [|done|done]. by eapply safe_scope.
Qed.
Lemma safe_eval_expr e : good e → safe (eval_expr module max_steps e).
Proof. apply safe_body. intros. by apply safe_named_action. Qed.
End eval_runs.

Section safety.
Context (module : AspectModuleIr) (max_steps : N).

Lemma charge_bounded : runs (eval_rel max_steps) always (charge max_steps).
Proof.
  intros s. unfold charge. destruct (N.leb_spec max_steps (es_steps_used s)); [done|].
  split; [|done]. unfold eval_rel. simpl. split_and!; done || lia.
Qed.
Lemma named_action_bounded depth aspect action args :
  runs (eval_rel max_steps) always (execute_named_action module max_steps depth aspect action args).
Proof.
  eapply (safe_named_action _ _ _ always) with (good := always) (callable := λ _ _, True);
    try done; [apply charge_bounded|..].
  - intros op _ s. split; [|done]. unfold eval_rel; simpl. split_and!; try done. by apply prefix_app_r.
  - intros s b s' (?&?&?&?&?&?&?). unfold eval_rel in *. simpl in *. by split_and!.
Qed.
Lemma eval_expr_bounded e : runs (eval_rel max_steps) always (eval_expr module max_steps e).
Proof.
  eapply (safe_eval_expr _ _ _ always) with (good := always) (callable := λ _ _, True);
    try done; [apply charge_bounded|..].
  - intros op _ s. split; [|done]. unfold eval_rel; simpl. split_and!; try done. by apply prefix_app_r.
  - intros s b s' (?&?&?&?&?&?&?). unfold eval_rel in *. simpl in *. by split_and!.
Qed.

(** Evaluation always returns a report or an error, within the step
    budget: no panic, no divergence, whatever the module and the expression. *)
Theorem evaluation_bounded expr bindings context reads contract_reads :
  match run_report module max_steps expr bindings context reads contract_reads with
  | Ok report => rep_steps_used report ≤ max_steps
  | Err _ => True
  | _ => False
  end.
Proof.
  unfold run_report.
  match goal with |- context [eval_expr _ _ _ ?s] =>
    destruct (eval_expr_bounded expr s) as ((_&_&_&_&_&_&Hs) & Hp & Hf); destruct (eval_expr _ _ _ s) as [o s'] end.
  simpl in *. destruct o; simpl; try done; [apply Hs; lia|by apply Hf].
Qed.
End safety.

Lemma total_run_report m n e b c r cr : total (run_report m n e b c r cr).
Proof.
  unfold run_report.
  match goal with |- context [eval_expr _ _ _ ?s] =>
    destruct (eval_expr_bounded m n e s) as (_ & Hp & Hf); destruct (eval_expr m n e s) as [o s'] end.
  simpl in *. split; destruct o; try done. by destruct Hf.
Qed.
#[export] Hint Resolve total_run_report : total.

(** Reads within one method see the snapshot taken before it: after
    evaluating any expression, including ones that set [name], [state-get]
    still returns the value stored before the method started.  (The
    specification asks that a contract read its own staged writes.) *)
Theorem state_get_ignores_staged_writes module max_steps ev expr name s :
  (eval_state_get ev [Atom name] (eval_expr module max_steps expr s).2).1
  = Ok (default (VAmount 0) (es_state_reads s !! (name, []))).
Proof.
  destruct (eval_expr_bounded module max_steps expr s) as ((_ & _ & Hr & _) & _).
  unfold eval_state_get, bind, ret, modify, gets; simpl. by rewrite Hr.
Qed.

(** The body of [transferBalance] in models/aspects/stdlib/minimal-transfer-token.metta. *)
Definition transfer_balance_body : Expr :=
  let get who := ExprList [Atom "state-get"; Atom "balanceOf"; Atom who] in
  ExprList [Atom "begin";
    ExprList [Atom "require"; ExprList [Atom ">="; get "$from"; Atom "$amount"];
              Atom "INSUFFICIENT_BALANCE"];
    ExprList [Atom "state-set!"; Atom "balanceOf"; Atom "$from";
              ExprList [Atom "safe-sub"; get "$from"; Atom "$amount"]];
    ExprList [Atom "state-set!"; Atom "balanceOf"; Atom "$to";
              ExprList [Atom "safe-add"; get "$to"; Atom "$amount"]];
    ExprList [Atom "emit!"; ExprList [Atom "Transfer"; Atom "$from"; Atom "$to"; Atom "$amount"]];
    Atom "True"].
(** The last value a trace writes to a cell. *)
Definition last_write (state : string) (key : list string) (trace : list AspectHostOp)
    : option AspectValue :=
  foldl (λ acc op, match op with
    | OpStateSet st k v => if bool_decide (st = state) && bool_decide (k = key) then Some v else acc
    | _ => acc end) None trace.
Definition sample_context : AspectExecutionContext :=
  {| ctx_tx_sender := "alice"; ctx_msg_sender := "alice"; ctx_current_contract := "token";
     ctx_block_height := 1; ctx_block_timestamp := 0 |}.

(** The standard library's [transferBalance] mints on a self-transfer: an
    account holding 10 that sends 4 to itself ends with 14, because the
    credit reads the balance from before the debit. *)
Theorem stdlib_self_transfer_mints module :
  match run_report module 100 transfer_balance_body
    (list_to_map [("from", VAtom "alice"); ("to", VAtom "alice"); ("amount", VAmount 4)])
    sample_context (list_to_map [(("balanceOf", ["alice"]), VAmount 10)]) ∅ with
  | Ok report => last_write "balanceOf" ["alice"] (rep_trace report) = Some (VAmount 14)
      ∧ rep_return_value report = VBool true
  | _ => False
  end.
Proof. vm_compute. by split. Qed.
