(* ===== verification/AspectEntry.v ===== *)
(** * AspectEntry: the evaluator's other entry points

    [execute_action], and the forms of [execute_projection] and
    [evaluate_invariant_expr] without snapshots, of
    crates/detta-aspect-runtime/src/lib.rs.  [AspectRuntime] has the evaluator
    and the forms the core calls. *)
From S2P Require Import Prelude Effects Merkle Types AspectRuntime.

(** [AspectExecutionContext::default] *)
Definition default_context : AspectExecutionContext :=
  {| ctx_tx_sender := ""; ctx_msg_sender := ""; ctx_current_contract := ""; ctx_block_height := 0;
     ctx_block_timestamp := 0 |}.
Section entry.
Context (module : AspectModuleIr) (max_steps : N).
Definition fresh_state (context : AspectExecutionContext) : AspectEvalState :=
  {| es_steps_used := 0; es_trace := []; es_bindings := ∅; es_context := context; es_state_reads := ∅;
     es_contract_state_reads := ∅ |}.
Definition execute_action (aspect action : string) (args : list AspectValue)
    : outcome AspectEvalError AspectExecutionReport :=
  match execute_named_action module max_steps max_stack_depth aspect action args (fresh_state default_context) with
  | (Ok v, s) => Ok {| rep_trace := es_trace s; rep_return_value := v; rep_steps_used := es_steps_used s |}
  | (Err e, _) => Err e
  | (Panic, _) => Panic
  | (OutOfFuel, _) => OutOfFuel
  end.
Definition execute_projection_with_state (bundle projection : string) (args : list AspectValue)
    (context : AspectExecutionContext) (state_reads : AspectStateReads)
    : outcome AspectEvalError AspectExecutionReport :=
  execute_projection_with_contract_state module max_steps bundle projection args context state_reads ∅.
Definition execute_projection (bundle projection : string) (args : list AspectValue)
    (context : AspectExecutionContext) : outcome AspectEvalError AspectExecutionReport :=
  execute_projection_with_state bundle projection args context ∅.
Definition evaluate_invariant_expr_with_state (expr : Expr) (context : AspectExecutionContext)
    (state_reads : AspectStateReads) : outcome AspectEvalError AspectExecutionReport :=
  evaluate_invariant_expr_with_contract_state module max_steps expr context state_reads ∅.
Definition evaluate_invariant_expr (expr : Expr) (context : AspectExecutionContext)
    : outcome AspectEvalError AspectExecutionReport :=
  evaluate_invariant_expr_with_state expr context ∅.

(** An action run by itself ends within the step budget, with a report or an
    error. *)
Theorem execute_action_bounded aspect action args :
  match execute_action aspect action args with
  | Ok report => rep_steps_used report ≤ max_steps
  | Err _ => True
  | _ => False
  end.
Proof.
  unfold execute_action. destruct (named_action_bounded module max_steps max_stack_depth aspect action args (fresh_state default_context))
    as ((_&_&_&_&_&_&Hs) & Hp & Hf).
  destruct (execute_named_action _ _ _ _ _ _ _) as [o s']. simpl in *.
  destruct o; simpl; try done; [apply Hs; lia|by apply Hf].
Qed.
End entry.
