(* ===== verification/Decimal.v ===== *)
(** * Decimal: numbers in text

    [u128]'s [Display] and [FromStr]: the printed form of a number is read
    back as the number.  Used by the storage's file names and by the script
    language. *)
From S2P Require Import Prelude Effects Merkle Types AspectRuntime.

Lemma digit_pretty n : n < 10 → digit (pretty_N_char n) = Some n.
Proof.
  intros Hn. assert (n = 0 ∨ n = 1 ∨ n = 2 ∨ n = 3 ∨ n = 4 ∨ n = 5 ∨ n = 6 ∨ n = 7 ∨ n = 8 ∨ n = 9) as Hc by lia.
  repeat destruct Hc as [->|Hc]; [done..|]. by subst.
Qed.
(** Reading [s] after [acc] appends its digits to those of [acc]. *)
Lemma parse_digits_go n s acc :
  acc = 0 → 0 < n → n ≤ u128_max → parse_digits acc (pretty_N_go n s) = parse_digits n s.
Proof.
  intros -> Hn Hm. revert s Hn Hm. induction (N.lt_wf_0 n) as [n _ IH]; intros s Hn Hm.
  rewrite pretty_N_go_step by done.
  assert (Hd : n mod 10 < 10) by (apply N.mod_lt; lia).
  pose proof (N.div_mod n 10 ltac:(lia)) as Hdm.
  assert (Hp : ∀ m, m = n / 10 →
    parse_digits m (String (pretty_N_char (n mod 10)) s) = parse_digits n s).
  { intros m ->. cbn [parse_digits]. rewrite digit_pretty by done. cbn [mbind option_bind].
    generalize dependent (n / 10). generalize dependent (n mod 10). intros r Hr q Hq.
    unfold checked_mul_u128, checked_mul. rewrite (proj2 (N.leb_le (q * 10) u128_max)) by lia.
    cbn [mbind option_bind]. unfold checked_add_u128, checked_add.
    rewrite (proj2 (N.leb_le _ _)) by lia. cbn [mbind option_bind]. f_equal. lia. }
  destruct (decide (n / 10 = 0)) as [H0|H0].
  - rewrite H0, pretty_N_go_0. by apply Hp.
  - rewrite IH; [by apply Hp|by apply N.div_lt|by apply N.neq_0_lt_0|].
    etrans; [|exact Hm]. by apply N.Div0.div_le_upper_bound; lia.
Qed.
Lemma pretty_head (n : N) : ∃ c s, pretty n = String c s ∧ c ≠ "+"%char.
Proof.
  unfold pretty, pretty_N. case_decide; [by exists "0"%char, ""|].
  assert (Hg : ∀ s, ∃ c s', pretty_N_go n s = String c s' ∧ c ≠ "+"%char); [|apply Hg].
  assert (0 < n) as Hn by lia. clear H. revert Hn. induction (N.lt_wf_0 n) as [n _ IH]; intros Hn s.
  rewrite pretty_N_go_step by done. destruct (decide (n / 10 = 0)) as [->|H0].
  - rewrite pretty_N_go_0. eexists _, _. split; [done|].
    assert (Hd : n mod 10 < 10) by (apply N.mod_lt; lia). intros He.
    pose proof (digit_pretty _ Hd) as Hx. by rewrite He in Hx.
  - apply IH; [by apply N.div_lt|by apply N.neq_0_lt_0].
Qed.
Lemma parse_pretty (n : N) : n ≤ u128_max → parse_u128 (pretty n) = Some n.
Proof.
  intros Hn. destruct (pretty_head n) as (c & s & Hp & Hc).
  assert (parse_u128 (pretty n) = parse_digits 0 (pretty n)) as ->.
  { rewrite Hp. unfold parse_u128. destruct c as [[] [] [] [] [] [] [] []]; done. }
  unfold pretty, pretty_N. case_decide; [subst; done|]. by rewrite parse_digits_go by (done || lia).
Qed.
Definition parse_u64 (s : string) : option N := n ← parse_u128 s; if n <=? u64_max then Some n else None.
Lemma parse_u64_pretty (n : N) : n ≤ u64_max → parse_u64 (pretty n) = Some n.
Proof.
  intros Hn. unfold parse_u64. rewrite parse_pretty by (unfold u64_max, u128_max in *; lia). simpl.
  by rewrite (proj2 (N.leb_le _ _) Hn).
Qed.
