(* ===== verification/AspectSource.v ===== *)
(** * AspectSource: the source language of aspect modules

    The reader of crates/detta-aspects/src/lib.rs: [tokenize], the
    s-expression parser, [declaration_from_expr] with the rejection of
    forbidden forms, and the canonical printer whose text is hashed into a
    module's source root.  A [&str] is its UTF-8 bytes; the tokenizer looks at
    whole characters only to recognise white space, and the bytes of the
    multi-byte white-space characters cannot occur inside another character,
    so the byte-level reader accepts what the source accepts. *)
From S2P Require Import Prelude Effects Merkle Types.

Inductive AspectError :=
| UnexpectedEof
| UnexpectedToken (expected found : string)
| EmptyList
| UnknownDeclaration (head : string)
| InvalidArity (form : string) (expected actual : nat)
| ExpectedAtom (context found : string)
| ForbiddenForm (head : string)
| MalformedPolicyExtension (text : string)
| StringLiteralUnsupported.
Inductive SToken := LParen | RParen | TAtom (atom : string).
Inductive AspectDeclaration :=
| DeclType (symbol : string) (type_expr : Expr)
| DeclAspect (aspect : string)
| DeclAbstractAspect (aspect : string)
| DeclBundle (bundle : string)
| DeclLayerOf (aspect layer : string)
| DeclExtends (aspect parent : string)
| DeclConflicts (aspect other : string)
| DeclOwns (aspect state : string) (type_expr : Expr)
| DeclRegistryOwns (aspect registry : string) (type_expr : Expr)
| DeclProvides (aspect facet : string)
| DeclRequires (aspect facet : string)
| DeclAction (aspect action : string)
| DeclDerived (aspect action : string) (expr : Expr)
| DeclLocalInvariant (aspect invariant : string) (expr : Expr)
| DeclBundleIncludes (bundle aspect : string)
| DeclBundleExtends (bundle parent : string)
| DeclBundleConstraint (bundle constraint : string) (expr : Expr)
| DeclProjection (bundle projection : string) (expr : Expr)
| DeclMethodAbi (bundle projection : string) (args return_type : Expr)
| DeclMethodPolicy (bundle projection : string) (authority effects invariants : Expr)
    (calls reads : option Expr)
| DeclCrossConstraint (constraint : string) (expr : Expr).
Record AspectPackageAst := { ast_declarations : list AspectDeclaration }.

Definition FORBIDDEN_FORMS : list string :=
  ["add-atom"; "remove-atom"; "get-atoms"; "match"; "import!"; "py-call"; "callPredicate";
   "assertzPredicate"; "assertaPredicate"; "retractPredicate"; "translatePredicate";
   "add-translator-rule!"; "remove-translator-rule!"; "filesystem-access"; "process-execution";
   "network-access"; "wall-clock-access"; "randomness"].

(** ** Tokens

    [char::is_whitespace] on the UTF-8 bytes: the length in bytes of the
    white-space character a string starts with, zero if there is none. *)
Definition ascii_whitespace (n : N) : bool := ((9 <=? n) && (n <=? 13)) || (n =? 32).
Definition whitespace_2 (n m : N) : bool := (n =? 0xC2) && ((m =? 0x85) || (m =? 0xA0)).
Definition whitespace_3 (n m k : N) : bool :=
  ((n =? 0xE1) && (m =? 0x9A) && (k =? 0x80))
  || ((n =? 0xE2) && (m =? 0x80)
      && (((0x80 <=? k) && (k <=? 0x8A)) || (k =? 0xA8) || (k =? 0xA9) || (k =? 0xAF)))
  || ((n =? 0xE2) && (m =? 0x81) && (k =? 0x9F))
  || ((n =? 0xE3) && (m =? 0x80) && (k =? 0x80)).
Definition whitespace_len (s : string) : nat :=
  match s with
  | String n rest =>
      if ascii_whitespace (N_of_ascii n) then 1%nat else
      match rest with
      | String m rest =>
          if whitespace_2 (N_of_ascii n) (N_of_ascii m) then 2%nat else
          match rest with
          | String k _ =>
              if whitespace_3 (N_of_ascii n) (N_of_ascii m) (N_of_ascii k) then 3%nat else 0%nat
          | EmptyString => 0%nat
          end
      | EmptyString => 0%nat
      end
  | EmptyString => 0%nat
  end.

(** Where the reader is: between tokens, in a comment, or inside an atom. *)
Inductive lex_mode := LexStart | LexComment | LexAtom (atom : string).
Definition flush (mode : lex_mode) : list SToken :=
  match mode with LexAtom atom => [TAtom atom] | _ => [] end.
Definition push (mode : lex_mode) (c : ascii) : lex_mode :=
  LexAtom (match mode with LexAtom atom => atom +:+ String c "" | _ => String c "" end).
Definition quote_char : ascii := "034"%char.
Definition newline_char : ascii := "010"%char.
(** [skip] counts the remaining bytes of a multi-byte white space. *)
Fixpoint tokenize_from (mode : lex_mode) (skip : nat) (source : string)
    : outcome AspectError (list SToken) :=
  match source with
  | EmptyString => Ok (flush mode)
  | String c rest =>
      match skip, mode with
      | S skip, _ => tokenize_from mode skip rest
      | O, LexComment =>
          tokenize_from (if decide (c = newline_char) then LexStart else LexComment) 0 rest
      | O, _ =>
          if decide (c = "("%char) then
            let* ts := tokenize_from LexStart 0 rest in Ok (flush mode ++ LParen :: ts)
          else if decide (c = ")"%char) then
            let* ts := tokenize_from LexStart 0 rest in Ok (flush mode ++ RParen :: ts)
          else if decide (c = ";"%char) then
            let* ts := tokenize_from LexComment 0 rest in Ok (flush mode ++ ts)
          else if decide (c = quote_char) then Err StringLiteralUnsupported
          else match whitespace_len source with
               | S k => let* ts := tokenize_from LexStart k rest in Ok (flush mode ++ ts)
               | O => tokenize_from (push mode c) 0 rest
               end
      end
  end.
Definition tokenize (source : string) : outcome AspectError (list SToken) :=
  tokenize_from LexStart 0 source.

(** ** Expressions

    [parse_expr] and its loop over the items of a list; the parser's position
    is the list of tokens left.  Each call consumes a token or ends, so twice
    the number of tokens bounds the recursion. *)
Fixpoint parse_expr (fuel : nat) (tokens : list SToken) : outcome AspectError (Expr * list SToken) :=
  match fuel with
  | O => OutOfFuel
  | S fuel =>
      match tokens with
      | TAtom atom :: tokens => Ok (Atom atom, tokens)
      | LParen :: tokens => parse_items fuel [] tokens
      | RParen :: _ => Err (UnexpectedToken "expression" ")")
      | [] => Err UnexpectedEof
      end
  end
with parse_items (fuel : nat) (items : list Expr) (tokens : list SToken)
    : outcome AspectError (Expr * list SToken) :=
  match fuel with
  | O => OutOfFuel
  | S fuel =>
      match tokens with
      | RParen :: tokens => Ok (ExprList items, tokens)
      | [] => Err UnexpectedEof
      | _ => let* item := parse_expr fuel tokens in parse_items fuel (items ++ [item.1]) item.2
      end
  end.
Definition parse_fuel (tokens : list SToken) : nat := 2 * length tokens + 2.

Fixpoint canonical_expr (expr : Expr) : string :=
  match expr with
  | Atom atom => atom
  | ExprList items => "(" +:+ String.concat " " (map canonical_expr items) +:+ ")"
  end.
Fixpoint reject_forbidden_forms (expr : Expr) : outcome AspectError () :=
  match expr with
  | Atom _ => Ok ()
  | ExprList items =>
      do* match items with
          | Atom head :: _ => ensure (negb (bool_decide (head ∈ FORBIDDEN_FORMS))) (ForbiddenForm head)
          | _ => Ok ()
          end in
      (fix go items := match items with
       | [] => Ok ()
       | item :: items => do* reject_forbidden_forms item in go items
       end) items
  end.

(** ** Declarations *)
Definition atom_at (items : list Expr) (index : nat) (context : string)
    : outcome AspectError string :=
  match items !! index with
  | Some (Atom atom) => Ok atom
  | Some expr => Err (ExpectedAtom context (canonical_expr expr))
  | None => Err UnexpectedEof
  end.
Definition expect_arity (form : string) (items : list Expr) (expected : nat)
    : outcome AspectError () :=
  ensure (length items =? expected)%nat (InvalidArity form (expected - 1) (length items - 1)).
(** [items[index]] *)
Definition item_at (items : list Expr) (index : nat) : outcome AspectError Expr :=
  match items !! index with Some expr => Ok expr | None => Panic end.

(** The shapes shared by the declarations: one name, two names, two names and
    an expression. *)
Definition name_form (mk : string → AspectDeclaration) (context : string) (head : string)
    (items : list Expr) : outcome AspectError AspectDeclaration :=
  do* expect_arity head items 2 in
  let* a := atom_at items 1 context in Ok (mk a).
Definition pair_form (mk : string → string → AspectDeclaration) (context1 context2 : string)
    (head : string) (items : list Expr) : outcome AspectError AspectDeclaration :=
  do* expect_arity head items 3 in
  let* a := atom_at items 1 context1 in
  let* b := atom_at items 2 context2 in Ok (mk a b).
Definition expr_form (mk : string → string → Expr → AspectDeclaration) (context1 context2 : string)
    (head : string) (items : list Expr) : outcome AspectError AspectDeclaration :=
  do* expect_arity head items 4 in
  let* a := atom_at items 1 context1 in
  let* b := atom_at items 2 context2 in
  let* e := item_at items 3 in Ok (mk a b e).
(** The [(calls ...)] and [(reads ...)] extensions of a method policy. *)
Fixpoint policy_extensions (calls reads : option Expr) (extensions : list Expr)
    : outcome AspectError (option Expr * option Expr) :=
  match extensions with
  | [] => Ok (calls, reads)
  | (ExprList (Atom head :: _)) as extension :: extensions =>
      if bool_decide (head = "calls") && bool_decide (calls = None)
      then policy_extensions (Some extension) reads extensions
      else if bool_decide (head = "reads") && bool_decide (reads = None)
      then policy_extensions calls (Some extension) extensions
      else Err (MalformedPolicyExtension (canonical_expr extension))
  | extension :: _ => Err (MalformedPolicyExtension (canonical_expr extension))
  end.
Definition method_policy_form (head : string) (items : list Expr)
    : outcome AspectError AspectDeclaration :=
  do* ensure ((6 <=? length items)%nat && (length items <=? 8)%nat)
        (InvalidArity head 5 (length items - 1)) in
  let* ext := policy_extensions None None (drop 6 items) in
  let* bundle := atom_at items 1 "bundle id" in
  let* projection := atom_at items 2 "projection id" in
  let* authority := item_at items 3 in
  let* effects := item_at items 4 in
  let* invariants := item_at items 5 in
  Ok (DeclMethodPolicy bundle projection authority effects invariants ext.1 ext.2).
Definition declaration_of_head (head : string) (items : list Expr)
    : outcome AspectError AspectDeclaration :=
  if bool_decide (head = ":") then
    do* expect_arity head items 3 in
    let* symbol := atom_at items 1 "type symbol" in
    let* type_expr := item_at items 2 in Ok (DeclType symbol type_expr)
  else if bool_decide (head = "aspect") then name_form DeclAspect "aspect id" head items
  else if bool_decide (head = "abstract-aspect") then
    name_form DeclAbstractAspect "aspect id" head items
  else if bool_decide (head = "bundle") then name_form DeclBundle "bundle id" head items
  else if bool_decide (head = "layer-of") then
    pair_form DeclLayerOf "aspect id" "layer id" head items
  else if bool_decide (head = "extends") then
    pair_form DeclExtends "aspect id" "parent aspect id" head items
  else if bool_decide (head = "conflicts") then
    pair_form DeclConflicts "aspect id" "conflicting aspect id" head items
  else if bool_decide (head = "owns") then
    expr_form DeclOwns "aspect id" "state id" head items
  else if bool_decide (head = "registry-owns") then
    expr_form DeclRegistryOwns "aspect id" "registry id" head items
  else if bool_decide (head = "provides") then
    pair_form DeclProvides "aspect id" "facet id" head items
  else if bool_decide (head = "requires") then
    pair_form DeclRequires "aspect id" "facet id" head items
  else if bool_decide (head = "action") then
    pair_form DeclAction "aspect id" "action id" head items
  else if bool_decide (head = "derived") then
    expr_form DeclDerived "aspect id" "action id" head items
  else if bool_decide (head = "local-invariant") then
    expr_form DeclLocalInvariant "aspect id" "invariant id" head items
  else if bool_decide (head = "bundle-includes") then
    pair_form DeclBundleIncludes "bundle id" "aspect id" head items
  else if bool_decide (head = "bundle-extends") then
    pair_form DeclBundleExtends "bundle id" "parent bundle id" head items
  else if bool_decide (head = "bundle-constraint") then
    expr_form DeclBundleConstraint "bundle id" "constraint id" head items
  else if bool_decide (head = "projection") then
    expr_form DeclProjection "bundle id" "projection id" head items
  else if bool_decide (head = "method-abi") then
    do* expect_arity head items 5 in
    let* bundle := atom_at items 1 "bundle id" in
    let* projection := atom_at items 2 "projection id" in
    let* args := item_at items 3 in
    let* return_type := item_at items 4 in
    Ok (DeclMethodAbi bundle projection args return_type)
  else if bool_decide (head = "method-policy") then method_policy_form head items
  else if bool_decide (head = "cross-constraint") then
    do* expect_arity head items 3 in
    let* constraint := atom_at items 1 "constraint id" in
    let* expr := item_at items 2 in Ok (DeclCrossConstraint constraint expr)
  else Err (UnknownDeclaration head).
Definition declaration_from_expr (expr : Expr) : outcome AspectError AspectDeclaration :=
  do* reject_forbidden_forms expr in
  match expr with
  | ExprList [] => Err EmptyList
  | ExprList items =>
      let* head := atom_at items 0 "declaration head" in declaration_of_head head items
  | Atom atom => Err (UnknownDeclaration atom)
  end.

(** The loop of [parse_aspect_package]: one declaration per expression. *)
Fixpoint parse_declarations (fuel : nat) (tokens : list SToken)
    : outcome AspectError (list AspectDeclaration) :=
  match tokens, fuel with
  | [], _ => Ok []
  | _, O => OutOfFuel
  | _, S fuel =>
      let* parsed := parse_expr (parse_fuel tokens) tokens in
      let* declaration := declaration_from_expr parsed.1 in
      let* declarations := parse_declarations fuel parsed.2 in
      Ok (declaration :: declarations)
  end.
Definition parse_aspect_package (source : string) : outcome AspectError AspectPackageAst :=
  let* tokens := tokenize source in
  let* declarations := parse_declarations (length tokens) tokens in
  Ok {| ast_declarations := declarations |}.

(** ** The canonical text

    [format!] with blanks between the parts. *)
Definition form (parts : list string) : string := "(" +:+ String.concat " " parts +:+ ")".
Definition canonical_declaration (declaration : AspectDeclaration) : string :=
  match declaration with
  | DeclType symbol type_expr => form [":"; symbol; canonical_expr type_expr]
  | DeclAspect aspect => form ["aspect"; aspect]
  | DeclAbstractAspect aspect => form ["abstract-aspect"; aspect]
  | DeclBundle bundle => form ["bundle"; bundle]
  | DeclLayerOf aspect layer => form ["layer-of"; aspect; layer]
  | DeclExtends aspect parent => form ["extends"; aspect; parent]
  | DeclConflicts aspect other => form ["conflicts"; aspect; other]
  | DeclOwns aspect state type_expr => form ["owns"; aspect; state; canonical_expr type_expr]
  | DeclRegistryOwns aspect registry type_expr =>
      form ["registry-owns"; aspect; registry; canonical_expr type_expr]
  | DeclProvides aspect facet => form ["provides"; aspect; facet]
  | DeclRequires aspect facet => form ["requires"; aspect; facet]
  | DeclAction aspect action => form ["action"; aspect; action]
  | DeclDerived aspect action expr => form ["derived"; aspect; action; canonical_expr expr]
  | DeclLocalInvariant aspect invariant expr =>
      form ["local-invariant"; aspect; invariant; canonical_expr expr]
  | DeclBundleIncludes bundle aspect => form ["bundle-includes"; bundle; aspect]
  | DeclBundleExtends bundle parent => form ["bundle-extends"; bundle; parent]
  | DeclBundleConstraint bundle constraint expr =>
      form ["bundle-constraint"; bundle; constraint; canonical_expr expr]
  | DeclProjection bundle projection expr =>
      form ["projection"; bundle; projection; canonical_expr expr]
  | DeclMethodAbi bundle projection args return_type =>
      form ["method-abi"; bundle; projection; canonical_expr args; canonical_expr return_type]
  | DeclMethodPolicy bundle projection authority effects invariants calls reads =>
      let base := ["method-policy"; bundle; projection; canonical_expr authority;
                   canonical_expr effects; canonical_expr invariants] in
      match calls, reads with
      | Some calls, Some reads => form (base ++ [canonical_expr calls; canonical_expr reads])
      | Some calls, None => form (base ++ [canonical_expr calls])
      | None, Some reads => form (base ++ [canonical_expr reads])
      | None, None => form base
      end
  | DeclCrossConstraint constraint expr => form ["cross-constraint"; constraint; canonical_expr expr]
  end.
Definition newline : string := String newline_char "".
Definition canonical_aspect_source (ast : AspectPackageAst) : string :=
  String.concat newline (canonical_declaration <$> ast_declarations ast).
Definition parse_and_canonicalize (source : string)
    : outcome AspectError (AspectPackageAst * string) :=
  let* ast := parse_aspect_package source in Ok (ast, canonical_aspect_source ast).

Section roots.
Context `{Sha256}.
Definition sha256_hex (bytes : list byte) : string := hex_lower (sha256 bytes).
Definition canonical_source_root (ast : AspectPackageAst) : string :=
  sha256_hex (bytes_of_string (canonical_aspect_source ast)).
Definition parse_and_source_root (source : string) : outcome AspectError string :=
  let* ast := parse_aspect_package source in Ok (canonical_source_root ast).
End roots.

Example reads_declarations :
  parse_aspect_package " ; a comment
(aspect A) (derived A f (= (f $x) ( safe-add $x 1)))"
  = Ok {| ast_declarations := [DeclAspect "A"; DeclDerived "A" "f"
      (ExprList [Atom "="; ExprList [Atom "f"; Atom "$x"];
                 ExprList [Atom "safe-add"; Atom "$x"; Atom "1"]])] |}.
Proof. reflexivity. Qed.

(** ** Reading always ends *)
Lemma total_tokenize_from mode skip s : total (tokenize_from mode skip s).
Proof.
  revert mode skip. induction s as [|c s IH]; intros mode [|skip]; simpl; auto with total.
  destruct mode; auto with total; repeat case_decide; auto with total;
    destruct (whitespace_len _); auto with total.
Qed.
Lemma parse_shrinks fuel :
  (∀ tokens e ts, parse_expr fuel tokens = Ok (e, ts) → (length ts < length tokens)%nat) ∧
  (∀ items tokens e ts, parse_items fuel items tokens = Ok (e, ts) → (length ts < length tokens)%nat).
Proof.
  induction fuel as [|fuel [IHe IHi]]; [done|]. split.
  - intros [|[] tokens] e ts; simpl; try done; [|by intros [= _ <-]; lia].
    intros ?%IHi. lia.
  - intros items [|t tokens] e ts; [done|].
    assert ((let* item := parse_expr fuel (t :: tokens) in parse_items fuel (items ++ [item.1]) item.2)
      = Ok (e, ts) → (length ts < S (length tokens))%nat) as Hgo.
    { intros ([e' ts'] & ?%IHe & ?%IHi)%outcome_bind_Ok. simpl in *. lia. }
    destruct t; [exact Hgo| |exact Hgo]. simpl. intros [= _ <-]. lia.
Qed.
Lemma total_parse fuel :
  (∀ tokens, (2 * length tokens < fuel)%nat → total (parse_expr fuel tokens)) ∧
  (∀ items tokens, (2 * length tokens + 1 < fuel)%nat → total (parse_items fuel items tokens)).
Proof.
  induction fuel as [|fuel [IHe IHi]]; [split; lia|]. split.
  - intros [|[] tokens] Hf; simpl in *; auto with total. apply IHi. lia.
  - intros items [|t tokens] Hf; [by split|].
    assert (total (let* item := parse_expr fuel (t :: tokens) in
      parse_items fuel (items ++ [item.1]) item.2)) as Hgo.
    { apply total_bind; [apply IHe; lia|]. intros [e ts] He. apply IHi.
      apply parse_shrinks in He. simpl in *. lia. }
    destruct t; [exact Hgo|by split|exact Hgo].
Qed.
Lemma total_atom_at items i c : total (atom_at items i c).
Proof. unfold atom_at. destruct (items !! i) as [[]|]; auto with total. Qed.
Lemma total_item_at items i : (i < length items)%nat → total (item_at items i).
Proof. intros [e He]%lookup_lt_is_Some_2. unfold item_at. rewrite He. auto with total. Qed.
Lemma total_forbidden e : total (reject_forbidden_forms e).
Proof.
  induction e as [a|items IH] using Expr_nested_ind; simpl; [by split|].
  apply total_bind; [destruct items as [|[] ?]; auto with total|]. intros _ _.
  induction IH as [|x l Hx Hl IH]; [by split|]. apply total_bind; auto.
Qed.
Lemma total_extensions c r l : total (policy_extensions c r l).
Proof.
  revert c r. induction l as [|[|[|[] ?]] l IH]; intros c r; simpl; auto with total.
Qed.
Lemma total_declaration e : total (declaration_from_expr e).
Proof.
  unfold declaration_from_expr. apply total_bind; [apply total_forbidden|]. intros _ _.
  destruct e as [a|[|x l]]; auto with total. apply total_bind; [apply total_atom_at|].
  intros head _. unfold declaration_of_head, name_form, pair_form, expr_form, method_policy_form.
  repeat case_bool_decide; [..|by split].
  all: repeat match goal with
    | |- total (outcome_bind _ _) => apply total_bind; [|intros ? ?]
    | |- total (atom_at _ _ _) => apply total_atom_at
    | |- total (policy_extensions _ _ _) => apply total_extensions
    | |- total (item_at _ _) => apply total_item_at; unfold expect_arity in *; simplify_ok;
        rewrite ?Nat.eqb_eq, ?Nat.leb_le in *; lia
    | |- total _ => solve [unfold expect_arity; auto with total]
    end.
Qed.
Lemma total_declarations fuel tokens :
  (length tokens ≤ fuel)%nat → total (parse_declarations fuel tokens).
Proof.
  revert tokens. induction fuel as [|fuel IH]; intros [|t tokens] Hf;
    [by split|simpl in Hf; lia|by split|]. cbn [parse_declarations].
  apply total_bind; [apply (proj1 (total_parse _)); unfold parse_fuel; lia|]. intros [e ts] He.
  apply parse_shrinks in He. apply total_bind; [apply total_declaration|]. intros d _.
  apply total_bind; [apply IH; simpl in *; lia|auto with total].
Qed.
Lemma total_parse_aspect_package source : total (parse_aspect_package source).
Proof.
  unfold parse_aspect_package. apply total_bind; [apply total_tokenize_from|]. intros tokens _.
  apply total_bind; [by apply total_declarations|auto with total].
Qed.
#[export] Hint Resolve total_parse_aspect_package : total.

(** ** The canonical text reads back

    The text of an expression as tokens, and the atoms it holds. *)
Fixpoint expr_tokens (expr : Expr) : list SToken :=
  match expr with
  | Atom atom => [TAtom atom]
  | ExprList items => LParen :: flat_map expr_tokens items ++ [RParen]
  end.
Fixpoint expr_atoms (expr : Expr) : list string :=
  match expr with Atom atom => [atom] | ExprList items => flat_map expr_atoms items end.

Definition special (c : ascii) : bool :=
  bool_decide (c ∈ ["("%char; ")"%char; ";"%char; quote_char]).
(** Every character of [a], read with [k] behind it, belongs to an atom. *)
Fixpoint plain_before (a k : string) : Prop :=
  match a with
  | EmptyString => True
  | String c a' => special c = false ∧ whitespace_len (a +:+ k) = 0%nat ∧ plain_before a' k
  end.
Definition atom_ok (a : string) : Prop := a ≠ "" ∧ plain_before a "".
Definition token_ok (t : SToken) : Prop := match t with TAtom a => atom_ok a | _ => True end.
Definition expr_ok (e : Expr) : Prop := Forall atom_ok (expr_atoms e).
Definition delimited (k : string) : Prop :=
  match k with String c _ => c = " "%char ∨ c = ")"%char | EmptyString => False end.

Lemma string_app_assoc (a b c : string) : (a +:+ b) +:+ c = a +:+ (b +:+ c).
Proof.
  induction a as [|x a IH]; [done|]. change (String x ((a +:+ b) +:+ c) = String x (a +:+ (b +:+ c))).
  by rewrite IH.
Qed.
Lemma string_app_nil (a : string) : a +:+ "" = a.
Proof. induction a as [|x a IH]; [done|]. change (String x (a +:+ "") = String x a). by rewrite IH. Qed.
Lemma string_codes_app a b : string_codes (a +:+ b) = string_codes a ++ string_codes b.
Proof.
  induction a as [|x a IH]; [done|].
  change (N_of_ascii x :: string_codes (a +:+ b) = N_of_ascii x :: string_codes a ++ string_codes b).
  by rewrite IH.
Qed.

(** White space is recognised by the bytes it consists of. *)
Definition whitespace_codes (l : list N) : nat :=
  match l with
  | n :: rest =>
      if ascii_whitespace n then 1%nat else
      match rest with
      | m :: rest =>
          if whitespace_2 n m then 2%nat else
          match rest with k :: _ => if whitespace_3 n m k then 3%nat else 0%nat | [] => 0%nat end
      | [] => 0%nat
      end
  | [] => 0%nat
  end.
Lemma whitespace_len_codes s : whitespace_len s = whitespace_codes (string_codes s).
Proof. by destruct s as [|? [|? []]]. Qed.
Lemma whitespace_mono a k : whitespace_len (a +:+ k) = 0%nat → whitespace_len a = 0%nat.
Proof.
  rewrite !whitespace_len_codes, string_codes_app. unfold whitespace_codes.
  destruct (string_codes a) as [|n [|m [|x l]]]; simpl; [done|..]; repeat case_match; try done.
Qed.
Lemma whitespace_delimited a k :
  a ≠ "" → delimited k → whitespace_len a = 0%nat → whitespace_len (a +:+ k) = 0%nat.
Proof.
  intros Ha Hk. rewrite !whitespace_len_codes, string_codes_app. unfold whitespace_codes.
  destruct a as [|c a]; [done|]. destruct k as [|d k]; [done|].
  assert (∃ x, string_codes (String d k) = x :: string_codes k ∧ x < 0x80) as (x & -> & Hx).
  { exists (N_of_ascii d). split; [done|]. destruct Hk as [-> | ->]; vm_compute; done. }
  change (string_codes (String c a)) with (N_of_ascii c :: string_codes a).
  assert (∀ n, whitespace_2 n x = false) as H2.
  { intros n. unfold whitespace_2. destruct (n =? _); [|done].
    destruct (N.eqb_spec x 0x85), (N.eqb_spec x 0xA0); done || lia. }
  assert (∀ n m, whitespace_3 n m x = false) as H3.
  { intros n m. unfold whitespace_3.
    destruct (N.eqb_spec x 0x80), (N.leb_spec 0x80 x), (N.eqb_spec x 0xA8), (N.eqb_spec x 0xA9),
      (N.eqb_spec x 0xAF), (N.eqb_spec x 0x9F); lia. }
  assert (∀ n m, whitespace_3 n x m = false) as H3'.
  { intros n m. unfold whitespace_3.
    destruct (N.eqb_spec x 0x80), (N.eqb_spec x 0x9A), (N.eqb_spec x 0x81); lia. }
  destruct (string_codes a) as [|m [|y l]]; simpl;
    destruct (ascii_whitespace _); try done; rewrite ?H2, ?H3.
  - destruct (string_codes k); by rewrite ?H3'.
  - by destruct (whitespace_2 _ _).
Qed.
Lemma plain_snoc a c k :
  plain_before a (String c k) → special c = false → whitespace_len (String c k) = 0%nat →
  plain_before (a +:+ String c "") k.
Proof.
  induction a as [|x a IH]; cbn; [done|]. intros (Hs & Hw & Ha) Hc Hk. split_and!; [done| |auto].
  change (String x (a +:+ String c "") +:+ k) with (String x ((a +:+ String c "") +:+ k)).
  by rewrite string_app_assoc.
Qed.
Lemma plain_mono a k : plain_before a k → plain_before a "".
Proof.
  induction a as [|x a IH]; cbn; [done|]. intros (Hs & Hw & Ha). split_and!; [done| |auto].
  rewrite string_app_nil. eapply (whitespace_mono (String x a)). exact Hw.
Qed.
Lemma plain_delimited a k : delimited k → plain_before a "" → plain_before a k.
Proof.
  intros Hk. induction a as [|x a IH]; cbn; [done|]. intros (Hs & Hw & Ha). split_and!; [done| |auto].
  rewrite string_app_nil in Hw. by apply (whitespace_delimited (String x a)).
Qed.

Lemma lex_space mode c k :
  mode ≠ LexComment → c = " "%char ∨ c = newline_char →
  tokenize_from mode 0 (String c k) = (let* ts := tokenize_from LexStart 0 k in Ok (flush mode ++ ts)).
Proof.
  intros Hm Hc. cbn [tokenize_from].
  assert (whitespace_len (String c k) = 1%nat) as -> by (by destruct Hc as [-> | ->]).
  rewrite !decide_False by (by destruct Hc as [-> | ->]). by destruct mode.
Qed.
Lemma lex_open k :
  tokenize_from LexStart 0 (String "(" k) = (let* ts := tokenize_from LexStart 0 k in Ok (LParen :: ts)).
Proof. done. Qed.
Lemma lex_close mode k :
  mode ≠ LexComment →
  tokenize_from mode 0 (String ")" k) = (let* ts := tokenize_from LexStart 0 k in Ok (flush mode ++ RParen :: ts)).
Proof. by destruct mode. Qed.

(** Reading the text of an atom, up to the delimiter behind it. *)
Lemma lex_atom_chars acc a k :
  plain_before a k →
  tokenize_from (LexAtom acc) 0 (a +:+ k) = tokenize_from (LexAtom (acc +:+ a)) 0 k.
Proof.
  revert acc. induction a as [|c a IH]; intros acc; cbn [plain_before].
  - intros _. by rewrite string_app_nil.
  - intros (Hs & Hw & Ha). change (String c a +:+ k) with (String c (a +:+ k)) in *.
    cbn [tokenize_from]. rewrite Hw. unfold special in Hs.
    apply bool_decide_eq_false in Hs. rewrite !decide_False by set_solver.
    unfold push. rewrite IH by done. by rewrite string_app_assoc.
Qed.
Lemma lex_atom a k :
  atom_ok a → delimited k →
  tokenize_from LexStart 0 (a +:+ k) = (let* ts := tokenize_from LexStart 0 k in Ok (TAtom a :: ts)).
Proof.
  intros [Hne Ha] Hk. apply (plain_delimited a k Hk) in Ha.
  assert (tokenize_from LexStart 0 (a +:+ k) = tokenize_from (LexAtom a) 0 k) as ->.
  { destruct a as [|c a]; [done|]. cbn [plain_before] in Ha. destruct Ha as (Hs & Hw & Ha).
    change (String c a +:+ k) with (String c (a +:+ k)) in *.
    cbn [tokenize_from]. rewrite Hw. unfold special in Hs.
    apply bool_decide_eq_false in Hs. rewrite !decide_False by set_solver.
    unfold push. by rewrite lex_atom_chars. }
  destruct k as [|d k]; [done|]. destruct Hk as [-> | ->].
  - rewrite !lex_space by auto. by destruct (tokenize_from _ _ k).
  - rewrite !lex_close by done. by destruct (tokenize_from _ _ k).
Qed.
Definition reads_as (text : string) (ts : list SToken) (k : string) : Prop :=
  tokenize_from LexStart 0 (text +:+ k)
  = (let* rest := tokenize_from LexStart 0 k in Ok (ts ++ rest)).
Lemma lex_items items k :
  Forall (λ e, ∀ k, delimited k → reads_as (canonical_expr e) (expr_tokens e) k) items →
  reads_as (String.concat " " (map canonical_expr items)) (flat_map expr_tokens items) (")" +:+ k).
Proof.
  unfold reads_as. induction 1 as [|e items He Hitems IH].
  - cbn [map String.concat flat_map]. change ("" +:+ (")" +:+ k)) with (")" +:+ k). by destruct (tokenize_from _ _ _).
  - destruct items as [|e' items].
    + cbn [map String.concat flat_map]. rewrite app_nil_r. apply He. by right.
    + cbn [map String.concat] in *. rewrite !string_app_assoc. rewrite He by (by left).
      change (" " +:+ ?x) with (String " " x). rewrite lex_space by auto.
      rewrite IH. cbn [flat_map flush]. destruct (tokenize_from _ _ (")" +:+ k)); cbn; [|done..].
      by rewrite !app_assoc.
Qed.
Lemma lex_expr e : expr_ok e →
  ∀ k, delimited k ∨ (∃ items, e = ExprList items) → reads_as (canonical_expr e) (expr_tokens e) k.
Proof.
  induction e as [a|items IH] using Expr_nested_ind; intros Hok k Hk.
  - destruct Hk as [Hk|[? ?]]; [|done]. apply lex_atom; [|done].
    unfold expr_ok in Hok. by apply Forall_cons in Hok as [? _].
  - unfold reads_as. cbn [canonical_expr]. rewrite !string_app_assoc.
    change ("(" +:+ ?x) with (String "(" x). rewrite lex_open. rewrite (lex_items items k).
    + change (")" +:+ k) with (String ")" k). rewrite lex_close by done. cbn [expr_tokens flush]. destruct (tokenize_from _ _ k); cbn; [|done..].
      by rewrite <- app_assoc.
    + rewrite Forall_forall in *. intros e He k' Hk'. apply IH; [done| |by left].
      unfold expr_ok in *. rewrite Forall_forall in *. intros a Ha. apply Hok. cbn [expr_atoms].
      apply list_elem_of_In, in_flat_map. exists e. by rewrite <- !list_elem_of_In.
Qed.

(** Parsing the tokens of an expression gives it back. *)
Lemma expr_tokens_first e : ∃ t ts, expr_tokens e = t :: ts ∧ t ≠ RParen.
Proof. destruct e; cbn; eauto. Qed.
Lemma parse_tokens e :
  ∀ fuel rest, (2 * length (expr_tokens e) ≤ fuel)%nat →
  parse_expr fuel (expr_tokens e ++ rest) = Ok (e, rest).
Proof.
  induction e as [a|items IH] using Expr_nested_ind; intros [|fuel] rest Hf; cbn in Hf; try lia; [done|].
  cbn [expr_tokens parse_expr app]. rewrite <- app_assoc. change ([RParen] ++ rest) with (RParen :: rest).
  assert (∀ acc fuel, (2 * length (flat_map expr_tokens items) < fuel)%nat →
    parse_items fuel acc (flat_map expr_tokens items ++ RParen :: rest)
    = Ok (ExprList (acc ++ items), rest)) as Hi; [|by rewrite Hi by (rewrite length_app in Hf; lia)].
  clear Hf fuel. induction IH as [|e items He Hitems IH]; intros acc [|fuel] Hf; try lia.
  - cbn. by rewrite app_nil_r.
  - cbn [flat_map] in *. rewrite length_app in Hf. rewrite <- app_assoc.
    destruct (expr_tokens_first e) as (t & ts & Ht & Hnr).
    assert (parse_items (S fuel) acc (expr_tokens e ++ flat_map expr_tokens items ++ RParen :: rest)
      = (let* item := parse_expr fuel (expr_tokens e ++ flat_map expr_tokens items ++ RParen :: rest) in
         parse_items fuel (acc ++ [item.1]) item.2)) as ->.
    { rewrite Ht. cbn [app parse_items]. by destruct t. }
    rewrite He by lia. cbn. rewrite Ht in Hf. cbn in Hf. rewrite IH by lia. by rewrite <- app_assoc.
Qed.

(** What the reader produces is well formed. *)
Lemma tokenize_active mode c s :
  mode ≠ LexComment →
  tokenize_from mode 0 (String c s) =
    if decide (c = "("%char) then
      let* ts := tokenize_from LexStart 0 s in Ok (flush mode ++ LParen :: ts)
    else if decide (c = ")"%char) then
      let* ts := tokenize_from LexStart 0 s in Ok (flush mode ++ RParen :: ts)
    else if decide (c = ";"%char) then
      let* ts := tokenize_from LexComment 0 s in Ok (flush mode ++ ts)
    else if decide (c = quote_char) then Err StringLiteralUnsupported
    else match whitespace_len (String c s) with
         | S k => let* ts := tokenize_from LexStart k s in Ok (flush mode ++ ts)
         | O => tokenize_from (push mode c) 0 s
         end.
Proof. by destruct mode. Qed.
(** What [mode] has read so far, with [s] still to come. *)
Definition mode_ok (mode : lex_mode) (skip : nat) (s : string) : Prop :=
  match mode with LexAtom a => a ≠ "" ∧ plain_before a s ∧ skip = 0%nat | _ => True end.
Lemma flush_ok mode skip s : mode_ok mode skip s → Forall token_ok (flush mode).
Proof.
  destruct mode as [| |a]; cbn; [constructor..|]. intros (? & Hp & _). repeat constructor; [done|].
  by eapply plain_mono.
Qed.
Lemma push_ok mode c s :
  mode_ok mode 0 (String c s) → special c = false → whitespace_len (String c s) = 0%nat →
  mode_ok (push mode c) 0 s.
Proof.
  intros Hm Hc Hw. unfold push, mode_ok. destruct mode as [| |a]; [by split_and!; cbn..|].
  destruct Hm as (Hne & Hp & _). split_and!; [by destruct a|by apply plain_snoc|done].
Qed.
Lemma tokens_ok mode skip s ts :
  mode_ok mode skip s → tokenize_from mode skip s = Ok ts → Forall token_ok ts.
Proof.
  revert mode skip ts. induction s as [|c s IH]; intros mode skip ts Hm.
  { cbn. intros [= <-]. by eapply flush_ok. }
  assert (Forall token_ok (flush mode)) as Hfl by (by eapply flush_ok).
  assert (∀ m k pre o, mode_ok m k s → Forall token_ok pre → o = tokenize_from m k s →
    (let* ts := o in Ok (flush mode ++ pre ++ ts)) = Ok ts → Forall token_ok ts) as Hgo.
  { intros m k pre o Hmm Hpre -> (ts' & Hts & [= <-])%outcome_bind_Ok.
    rewrite !Forall_app. split_and!; [done..|]. by eapply IH. }
  destruct skip as [|skip].
  2: { cbn [tokenize_from]. destruct mode as [| |a]; [apply IH; done..|]. destruct Hm as (_ & _ & ?). done. }
  destruct mode as [| |a]; [rewrite tokenize_active by done| |rewrite tokenize_active by done];
    [|cbn [tokenize_from]; apply IH; by case_decide|].
  all: case_decide; [intros Hts; exact (Hgo LexStart 0%nat [LParen] _ I (Forall_cons_2 token_ok LParen [] I (Forall_nil_2 _)) eq_refl Hts)|].
  all: case_decide; [intros Hts; exact (Hgo LexStart 0%nat [RParen] _ I (Forall_cons_2 token_ok RParen [] I (Forall_nil_2 _)) eq_refl Hts)|].
  all: case_decide; [intros Hts; exact (Hgo LexComment 0%nat [] _ I (Forall_nil_2 _) eq_refl Hts)|].
  all: case_decide; [done|].
  all: destruct (whitespace_len _) as [|k] eqn:Hw;
    [|intros Hts; exact (Hgo LexStart k [] _ I (Forall_nil_2 _) eq_refl Hts)].
  all: apply IH, push_ok; [done| |done].
  all: unfold special; apply bool_decide_eq_false; set_solver.
Qed.
Lemma parse_ok fuel :
  (∀ tokens e ts, parse_expr fuel tokens = Ok (e, ts) → Forall token_ok tokens →
     expr_ok e ∧ Forall token_ok ts) ∧
  (∀ items tokens e ts, parse_items fuel items tokens = Ok (e, ts) → Forall token_ok tokens →
     Forall expr_ok items → expr_ok e ∧ Forall token_ok ts).
Proof.
  assert (∀ items, Forall expr_ok items → expr_ok (ExprList items)) as Hlist.
  { intros items Hi. unfold expr_ok. cbn. by apply Forall_flat_map. }
  induction fuel as [|fuel [IHe IHi]]; [done|]. split.
  - intros [|[] tokens] e ts; cbn; try done.
    + intros Hp [_ Hts]%Forall_cons. by eapply IHi.
    + intros [= <- <-] [Ha Hts]%Forall_cons. split; [|done].
      constructor; [exact Ha|constructor].
  - intros items [|t tokens] e ts; [done|]. intros Hp Hts Hi.
    assert ((let* item := parse_expr fuel (t :: tokens) in parse_items fuel (items ++ [item.1]) item.2)
      = Ok (e, ts) → expr_ok e ∧ Forall token_ok ts) as Hgo.
    { intros ([e' ts'] & He & Hr)%outcome_bind_Ok. destruct (IHe _ _ _ He Hts) as [He' Hts'].
      eapply IHi; [exact Hr|done|]. apply Forall_app. split; [done|]. constructor; [done|constructor]. }
    destruct t; cbn [parse_items] in Hp; auto. injection Hp as <- <-.
    apply Forall_cons in Hts as [_ Hts]. auto.
Qed.

(** The expression a declaration prints as. *)
Definition decl_expr (d : AspectDeclaration) : Expr :=
  let names head l := ExprList (Atom head :: (Atom <$> l)) in
  let with_expr head a b e := ExprList [Atom head; Atom a; Atom b; e] in
  match d with
  | DeclType s t => ExprList [Atom ":"; Atom s; t]
  | DeclAspect a => names "aspect" [a]
  | DeclAbstractAspect a => names "abstract-aspect" [a]
  | DeclBundle b => names "bundle" [b]
  | DeclLayerOf a l => names "layer-of" [a; l]
  | DeclExtends a p => names "extends" [a; p]
  | DeclConflicts a o => names "conflicts" [a; o]
  | DeclOwns a s t => with_expr "owns" a s t
  | DeclRegistryOwns a r t => with_expr "registry-owns" a r t
  | DeclProvides a f => names "provides" [a; f]
  | DeclRequires a f => names "requires" [a; f]
  | DeclAction a x => names "action" [a; x]
  | DeclDerived a x e => with_expr "derived" a x e
  | DeclLocalInvariant a i e => with_expr "local-invariant" a i e
  | DeclBundleIncludes b a => names "bundle-includes" [b; a]
  | DeclBundleExtends b p => names "bundle-extends" [b; p]
  | DeclBundleConstraint b c e => with_expr "bundle-constraint" b c e
  | DeclProjection b p e => with_expr "projection" b p e
  | DeclMethodAbi b p a r => ExprList [Atom "method-abi"; Atom b; Atom p; a; r]
  | DeclMethodPolicy b p a e i calls reads =>
      ExprList ([Atom "method-policy"; Atom b; Atom p; a; e; i]
                ++ option_list calls ++ option_list reads)
  | DeclCrossConstraint c e => ExprList [Atom "cross-constraint"; Atom c; e]
  end.
Lemma canonical_decl_expr d : canonical_declaration d = canonical_expr (decl_expr d).
Proof. destruct d as [| | | | | | | | | | | | | | | | | | |? ? ? ? ? [] []|]; reflexivity. Qed.

(** A declaration is read back from the expression it prints as, which holds
    the same atoms as the one it came from. *)
Ltac invert_form :=
  repeat match goal with
  | H : outcome_bind _ _ = Ok _ |- _ => apply outcome_bind_Ok in H as (? & ? & ?)
  | H : expect_arity _ _ _ = Ok _ |- _ => unfold expect_arity in H; apply ensure_Ok in H;
      apply Nat.eqb_eq in H
  | H : length (_ :: _) = S _ |- _ => injection H as H
  | H : length ?l = S _ |- _ => is_var l; destruct l as [|? l]; [discriminate H|]
  | H : length ?l = 0%nat |- _ => is_var l; destruct l; [|discriminate H]
  | H : atom_at _ _ _ = Ok _ |- _ => progress (cbn in H)
  | H : match ?x with Atom _ => _ | ExprList _ => _ end = Ok _ |- _ => destruct x; [|discriminate H]
  | H : item_at _ _ = Ok _ |- _ => progress (cbn in H)
  | H : Ok _ = Ok _ |- _ => injection H as <-
  end.
Lemma declaration_of_head_expr head items d :
  head ≠ "method-policy" → declaration_of_head head (Atom head :: items) = Ok d →
  decl_expr d = ExprList (Atom head :: items).
Proof.
  intros Hne. unfold declaration_of_head, name_form, pair_form, expr_form.
  repeat (case_bool_decide; [subst head; intros; invert_form; try reflexivity|]); done.
Qed.
Lemma extensions_spec ext calls reads :
  policy_extensions None None ext = Ok (calls, reads) →
  ext ≡ₚ option_list calls ++ option_list reads ∧
  policy_extensions None None (option_list calls ++ option_list reads) = Ok (calls, reads).
Proof.
  assert (∀ l c r, policy_extensions (Some c) (Some r) l = Ok (calls, reads) →
    l = [] ∧ calls = Some c ∧ reads = Some r) as Hfull.
  { intros [|[|[|[h|] ?]] ?] c r; simpl; try done; [naive_solver|].
    by rewrite !andb_false_r. }
  destruct ext as [|[|[|[h|] l]] ext]; simpl; try done; [by intros [= <- <-]|].
  destruct (bool_decide_reflect (h = "calls")) as [->|Hc]; simpl.
  { destruct ext as [|[|[|[h|] l']] ext]; simpl; try done; [by intros [= <- <-]|].
    rewrite andb_false_r. destruct (bool_decide_reflect (h = "reads")) as [->|Hr]; simpl; [|done].
    by intros (-> & -> & ->)%Hfull. }
  destruct (bool_decide_reflect (h = "reads")) as [->|Hr]; simpl; [|done].
  destruct ext as [|[|[|[h|] l']] ext]; simpl; try done; [by intros [= <- <-]|].
  destruct (bool_decide_reflect (h = "calls")) as [->|Hc']; simpl; [|by rewrite andb_false_r].
  intros (-> & -> & ->)%Hfull. split; [apply Permutation_swap|done].
Qed.
Lemma method_policy_expr items d :
  method_policy_form "method-policy" (Atom "method-policy" :: items) = Ok d →
  method_policy_form "method-policy" (match decl_expr d with ExprList l => l | _ => [] end) = Ok d ∧
  ∃ items', decl_expr d = ExprList (Atom "method-policy" :: items') ∧ items' ≡ₚ items.
Proof.
  unfold method_policy_form. intros ([] & Hlen & H)%outcome_bind_Ok. apply ensure_Ok in Hlen.
  apply andb_true_iff in Hlen as [Hge Hle]. apply Nat.leb_le in Hge, Hle. simpl in Hge, Hle.
  apply outcome_bind_Ok in H as ([calls reads] & Hext & H).
  destruct items as [|b [|p [|a [|e [|i ext]]]]]; simpl in Hge; try lia.
  invert_form. simpl in *. rewrite drop_0 in Hext. destruct (extensions_spec _ _ _ Hext) as [Hp Hagain].
  split; [|eexists; split; [done|]; by rewrite Hp].
  apply Permutation_length in Hp. rewrite Hp in Hle. rewrite drop_0, Hagain. simpl.
  rewrite (proj2 (Nat.leb_le _ _)) by lia. done.
Qed.

(** The heads of the lists of an expression. *)
Fixpoint form_heads (e : Expr) : list string :=
  match e with
  | Atom _ => []
  | ExprList items =>
      match items with Atom head :: _ => [head] | _ => [] end ++ flat_map form_heads items
  end.
Definition allowed (e : Expr) : Prop := Forall (λ h, h ∉ FORBIDDEN_FORMS) (form_heads e).
Lemma reject_Ok e u : reject_forbidden_forms e = Ok u ↔ allowed e.
Proof.
  destruct u. unfold allowed. induction e as [a|items IH] using Expr_nested_ind; cbn [form_heads].
  { split; [constructor|done]. }
  cbn [reject_forbidden_forms]. rewrite outcome_bind_Ok, Forall_app.
  assert ((fix go items := match items with
     | [] => Ok () | item :: items => do* reject_forbidden_forms item in go items end) items = Ok ()
    ↔ Forall (λ h, h ∉ FORBIDDEN_FORMS) (flat_map form_heads items)) as Hgo.
  { induction IH as [|e l He Hl IHl]; [by split; [constructor|]|]. cbn [flat_map].
    rewrite Forall_app, <- He, <- IHl, outcome_bind_Ok. split; [intros ([] & ? & ?)|intros [? ?]]; eauto. }
  rewrite <- Hgo. destruct items as [|[h|] l].
  - split; [intros ([] & _ & ?); by split|intros [_ ?]; by exists ()].
  - split.
    + intros ([] & Hh & ?). apply ensure_Ok, negb_true_iff, bool_decide_eq_false in Hh.
      split; [by repeat constructor|done].
    + intros [Hh ?]. apply Forall_cons in Hh as [Hh _]. exists (). split; [|done].
      apply ensure_Ok, negb_true_iff, bool_decide_eq_false. done.
  - split; [intros ([] & _ & ?); by split|intros [_ ?]; by exists ()].
Qed.
Lemma declaration_inv e d :
  declaration_from_expr e = Ok d →
  allowed e ∧ ∃ head items, e = ExprList (Atom head :: items) ∧
    declaration_of_head head (Atom head :: items) = Ok d.
Proof.
  unfold declaration_from_expr. intros (u & Hf%reject_Ok & H)%outcome_bind_Ok. split; [done|].
  destruct e as [|[|x l]]; [done..|]. apply outcome_bind_Ok in H as (head & Hh & H).
  destruct x as [x|]; [|done]. injection Hh as <-. eauto.
Qed.
Lemma declaration_reprint e d :
  declaration_from_expr e = Ok d →
  declaration_from_expr (decl_expr d) = Ok d ∧ allowed (decl_expr d) ∧
  (expr_ok e → expr_ok (decl_expr d)) ∧ ∃ items, decl_expr d = ExprList items.
Proof.
  intros Hd. pose proof Hd as (Hal & head & items & -> & H)%declaration_inv.
  destruct (decide (head = "method-policy")) as [->|Hne].
  2: { rewrite (declaration_of_head_expr _ _ _ Hne H). eauto. }
  change (method_policy_form "method-policy" (Atom "method-policy" :: items) = Ok d) in H.
  destruct (method_policy_expr _ _ H) as (H' & items' & Heq & Hp). rewrite Heq in *.
  assert (allowed (ExprList (Atom "method-policy" :: items'))) as Hal'.
  { unfold allowed in *. cbn [form_heads flat_map app] in *. by rewrite Hp. }
  split_and!; [|done| |eauto].
  - unfold declaration_from_expr. by rewrite (proj2 (reject_Ok _ ()) Hal').
  - unfold expr_ok. cbn [expr_atoms flat_map app]. by rewrite Hp.
Qed.

(** Reading the canonical text of a list of declarations. *)
Lemma lex_source ds :
  Forall (λ d, expr_ok (decl_expr d) ∧ ∃ items, decl_expr d = ExprList items) ds →
  tokenize (String.concat newline (canonical_declaration <$> ds))
  = Ok (flat_map (λ d, expr_tokens (decl_expr d)) ds).
Proof.
  unfold tokenize. induction 1 as [|d ds [Hok Hl] Hds IH]; [done|]. cbn [fmap list_fmap flat_map].
  rewrite canonical_decl_expr. destruct ds as [|d' ds].
  - cbn [fmap list_fmap String.concat flat_map].
    rewrite <- (string_app_nil (canonical_expr _)). rewrite lex_expr by auto. cbn. by rewrite !app_nil_r.
  - cbn [fmap list_fmap String.concat] in *. rewrite lex_expr by auto.
    change (newline +:+ ?x) with (String newline_char x). rewrite lex_space by auto. rewrite IH. done.
Qed.
Lemma parse_source ds fuel :
  Forall (λ d, declaration_from_expr (decl_expr d) = Ok d) ds → (length ds ≤ fuel)%nat →
  parse_declarations fuel (flat_map (λ d, expr_tokens (decl_expr d)) ds) = Ok ds.
Proof.
  intros Hds. revert fuel. induction Hds as [|d ds Hd Hds IH]; intros fuel Hf; [by destruct fuel|].
  destruct fuel as [|fuel]; [simpl in Hf; lia|]. cbn [flat_map].
  destruct (expr_tokens_first (decl_expr d)) as (t & ts & Ht & _).
  assert (∀ rest, parse_declarations (S fuel) (expr_tokens (decl_expr d) ++ rest) =
    (let* parsed := parse_expr (parse_fuel (expr_tokens (decl_expr d) ++ rest))
       (expr_tokens (decl_expr d) ++ rest) in
     let* declaration := declaration_from_expr parsed.1 in
     let* declarations := parse_declarations fuel parsed.2 in
     Ok (declaration :: declarations))) as -> by (intros rest; by rewrite Ht).
  rewrite parse_tokens by (unfold parse_fuel; rewrite length_app; lia).
  cbn [outcome_bind fst snd]. rewrite Hd. cbn [outcome_bind].
  rewrite IH by (simpl in Hf; lia). done.
Qed.
Lemma parsed_declarations fuel tokens ds :
  parse_declarations fuel tokens = Ok ds → Forall token_ok tokens →
  Forall (λ d, declaration_from_expr (decl_expr d) = Ok d ∧ allowed (decl_expr d) ∧
    expr_ok (decl_expr d) ∧ ∃ items, decl_expr d = ExprList items) ds.
Proof.
  revert tokens ds. induction fuel as [|fuel IH]; intros [|t tokens] ds; [by intros [= <-]|done|by intros [= <-]|].
  cbn [parse_declarations]. intros ([e ts] & He & H)%outcome_bind_Ok Hok.
  apply outcome_bind_Ok in H as (d & Hd & H). apply outcome_bind_Ok in H as (ds' & Hds & [= <-]).
  destruct (proj1 (parse_ok _) _ _ _ He Hok) as [Heok Hts].
  destruct (declaration_reprint _ _ Hd) as (?&?&?&?). constructor; [auto|]. by eapply IH.
Qed.
Lemma parse_package_inv source ast :
  parse_aspect_package source = Ok ast →
  Forall (λ d, declaration_from_expr (decl_expr d) = Ok d ∧ allowed (decl_expr d) ∧
    expr_ok (decl_expr d) ∧ ∃ items, decl_expr d = ExprList items) (ast_declarations ast).
Proof.
  intros (tokens & Ht & H)%outcome_bind_Ok. apply outcome_bind_Ok in H as (ds & Hds & [= <-]).
  eapply parsed_declarations; [exact Hds|]. by eapply (tokens_ok LexStart).
Qed.
Lemma flat_map_length {A B} (f : A → list B) l :
  (∀ x, f x ≠ []) → (length l ≤ length (flat_map f l))%nat.
Proof.
  intros Hf. induction l as [|x l IH]; [done|]. simpl. rewrite length_app. specialize (Hf x).
  destruct (f x); [done|]. simpl. lia.
Qed.

(** C21. The canonical text of a package that was read is read back as the
    same package: white space, comments and the order of the policy
    extensions do not survive, everything else does, so the source root
    determines the declarations up to hash collisions. *)
Theorem canonical_source_roundtrip source ast :
  parse_aspect_package source = Ok ast →
  parse_aspect_package (canonical_aspect_source ast) = Ok ast.
Proof.
  intros Hall%parse_package_inv. destruct ast as [ds]. simpl in Hall.
  unfold parse_aspect_package, canonical_aspect_source. simpl. rewrite lex_source.
  2: { eapply Forall_impl; [exact Hall|]. by intros d (?&?&?&?). }
  cbn [outcome_bind]. rewrite parse_source; [done| |].
  - eapply Forall_impl; [exact Hall|]. by intros d (?&?&?&?).
  - apply flat_map_length. intros d. destruct (expr_tokens_first (decl_expr d)) as (?&?&->&_). done.
Qed.
Lemma canonical_source_roundtrip_witness :
  parse_aspect_package "(aspect A) ; note
    (method-policy b p TxSender (effects) (invariants) (reads) (calls))"
  = parse_aspect_package "(aspect A)
(method-policy b p TxSender (effects) (invariants) (calls) (reads))".
Proof.
  assert (parse_aspect_package "(aspect A) ; note
    (method-policy b p TxSender (effects) (invariants) (reads) (calls))" = Ok {| ast_declarations :=
    [DeclAspect "A"; DeclMethodPolicy "b" "p" (Atom "TxSender") (ExprList [Atom "effects"])
      (ExprList [Atom "invariants"]) (Some (ExprList [Atom "calls"])) (Some (ExprList [Atom "reads"]))] |})
    as H by reflexivity.
  rewrite H. symmetry. exact (canonical_source_roundtrip _ _ H).
Defined.

(** No forbidden form survives the reader: in every declaration of a
    package that was read, at any depth, no list starts with one of the
    forbidden operators. *)
Theorem parsed_forms_allowed source ast d head :
  parse_aspect_package source = Ok ast → d ∈ ast_declarations ast →
  head ∈ form_heads (decl_expr d) → head ∉ FORBIDDEN_FORMS.
Proof.
  intros Hall%parse_package_inv Hd. rewrite Forall_forall in Hall.
  destruct (Hall d Hd) as (_ & Hal & _). unfold allowed in Hal. rewrite Forall_forall in Hal. auto.
Qed.
Lemma parsed_forms_allowed_witness : "safe-add" ∉ FORBIDDEN_FORMS.
Proof.
  refine (parsed_forms_allowed "(derived A f (= (f $x) (safe-add $x 1)))" _
    (DeclDerived "A" "f" (ExprList [Atom "="; ExprList [Atom "f"; Atom "$x"];
       ExprList [Atom "safe-add"; Atom "$x"; Atom "1"]])) "safe-add" eq_refl _ _).
  - apply list_elem_of_here.
  - apply (bool_decide_unpack _). vm_compute. exact I.
Defined.
