(* ===== verification/AspectClosure.v ===== *)
(** * AspectClosure: the aspects of a bundle

    The traversal that collects the aspects of a bundle over its parents and
    their [extends] relation.  The verifier (crates/detta-aspects) and the
    executor (crates/detta-core) each have a copy that differs in the errors
    for an unknown name only, which are parameters here.  A name being visited
    is not visited again, so the number of names bounds the recursion. *)
From S2P Require Import Prelude Effects Merkle Types.

(** [for x in l { acc = f(acc, x)?; }] *)
Fixpoint fold_outcome {E A B} (f : A → B → outcome E A) (l : list B) (acc : A) : outcome E A :=
  match l with
  | [] => Ok acc
  | x :: l => let* acc := f acc x in fold_outcome f l acc
  end.
Lemma total_fold_outcome {E A B} (f : A → B → outcome E A) l a :
  (∀ a x, total (f a x)) → total (fold_outcome f l a).
Proof. intros Hf. revert a. induction l; simpl; intros; auto with total. Qed.

Lemma fold_outcome_inv {E A B} (P : A → Prop) (f : A → B → outcome E A) l a a' :
  (∀ a x a', x ∈ l → P a → f a x = Ok a' → P a') → P a → fold_outcome f l a = Ok a' → P a'.
Proof.
  revert a. induction l as [|x l IH]; intros a Hf Ha; simpl; [by intros [= <-]|].
  intros (a1 & H1 & H2)%outcome_bind_Ok. eapply IH; [|eapply Hf; [apply list_elem_of_here|done..]|done].
  intros. eapply Hf; [by apply list_elem_of_further|done..].
Qed.

Lemma fold_outcome_app {E A B} (f : A → B → outcome E A) l l' a :
  fold_outcome f (l ++ l') a = let* a := fold_outcome f l a in fold_outcome f l' a.
Proof. revert a. induction l as [|x l IH]; intros a; simpl; [done|]. destruct (f a x); simpl; auto. Qed.

(** [for x in l { f(x)?; }] *)
Fixpoint each {E A} (f : A → outcome E ()) (l : list A) : outcome E () :=
  match l with
  | [] => Ok ()
  | x :: l => do* f x in each f l
  end.
Lemma each_Ok {E A} (f : A → outcome E ()) l u : each f l = Ok u ↔ ∀ x, x ∈ l → f x = Ok ().
Proof.
  destruct u. induction l as [|x l IH]; simpl; [set_solver|].
  rewrite outcome_bind_Ok. setoid_rewrite IH. setoid_rewrite elem_of_cons. split.
  - intros ([] & ? & ?). naive_solver.
  - intros Hl. exists (). naive_solver.
Qed.
Lemma each_Err {E A} (f : A → outcome E ()) l e : each f l = Err e → ∃ x, x ∈ l ∧ f x = Err e.
Proof.
  induction l as [|x l IH]; simpl; [done|]. destruct (f x) as [[]| | |] eqn:Hx; simpl; try done.
  - intros (y & Hin & Hy)%IH. exists y. by split; [right|].
  - intros [= ->]. exists x. split; [left|done].
Qed.
Lemma total_each {E A} (f : A → outcome E ()) l : (∀ x, total (f x)) → total (each f l).
Proof. intros Hf. induction l; simpl; auto with total. Qed.

(** [str::split_once] *)
Fixpoint split_once_colons (s : string) : option (string * string) :=
  match s with
  | String ":" (String ":" rest) => Some (EmptyString, rest)
  | String c rest => '(l, r) ← split_once_colons rest; Some (String c l, r)
  | EmptyString => None
  end.
Fixpoint split_once_dot (s : string) : option (string * string) :=
  match s with
  | String "." rest => Some (EmptyString, rest)
  | String c rest => '(l, r) ← split_once_dot rest; Some (String c l, r)
  | EmptyString => None
  end.

(** Visiting a new name leaves fewer names to visit. *)
Lemma size_visit (X : gset string) (vis : gset string) x n :
  (size (X ∖ vis) < S n)%nat → x ∈ X → x ∉ vis → (size (X ∖ ({[x]} ∪ vis)) < n)%nat.
Proof.
  intros Hs Hx Hv. assert (size (X ∖ vis) = S (size (X ∖ ({[x]} ∪ vis)))); [|lia].
  replace (X ∖ vis) with ({[x]} ∪ (X ∖ ({[x]} ∪ vis))).
  - by rewrite size_union, size_singleton by set_solver.
  - apply set_eq. intros y. destruct (decide (y = x)); set_solver.
Qed.

(** [(visiting, closure)], the two sets threaded by the traversals. *)
Abbreviation visit := (gset string * gset string)%type.
Section closure.
Context {E : Type} (unknown_aspect unknown_bundle : string → E).

Fixpoint collect_aspect_with_parents (fuel : nat) (ir : AspectModuleIr) (aspect_id : string) (v : visit)
    : outcome E visit :=
  match fuel with
  | O => OutOfFuel
  | S fuel =>
      if decide (aspect_id ∈ v.1) then Ok v else
      let* aspect := ok_or (ir_aspects ir !! aspect_id) (unknown_aspect aspect_id) in
      let* v := fold_outcome (λ v parent, collect_aspect_with_parents fuel ir parent v)
                  (set_iter (ad_extends aspect)) ({[aspect_id]} ∪ v.1, v.2) in
      Ok (v.1 ∖ {[aspect_id]}, {[aspect_id]} ∪ v.2)
  end.
Definition aspect_fuel (ir : AspectModuleIr) : nat := S (size (ir_aspects ir)).
Fixpoint collect_bundle_aspects (fuel : nat) (ir : AspectModuleIr) (bundle_id : string) (v : visit)
    : outcome E visit :=
  match fuel with
  | O => OutOfFuel
  | S fuel =>
      if decide (bundle_id ∈ v.1) then Ok v else
      let* bundle := ok_or (ir_bundles ir !! bundle_id) (unknown_bundle bundle_id) in
      let* v := fold_outcome (λ v parent, collect_bundle_aspects fuel ir parent v)
                  (set_iter (bd_extends bundle)) ({[bundle_id]} ∪ v.1, v.2) in
      let* a := fold_outcome (λ a aspect, collect_aspect_with_parents (aspect_fuel ir) ir aspect a)
                  (set_iter (bd_includes bundle)) (∅, v.2) in
      Ok (v.1 ∖ {[bundle_id]}, a.2)
  end.
Definition bundle_closure (ir : AspectModuleIr) (bundle_id : string) : outcome E (gset string) :=
  let* v := collect_bundle_aspects (S (size (ir_bundles ir))) ir bundle_id (∅, ∅) in Ok v.2.

(** A traversal ends, and a successful one leaves the visited set as it was. *)
Definition restores {K} `{Countable K} (vis : gset K) (o : outcome E (gset K * gset K)) : Prop :=
  total o ∧ ∀ v, o = Ok v → v.1 = vis.

Lemma fold_restores (f : visit → string → outcome E visit) vis l v :
  (∀ v x, v.1 = vis → restores vis (f v x)) → v.1 = vis → restores vis (fold_outcome f l v).
Proof.
  intros Hf. revert v. induction l as [|x l IH]; simpl; intros v Hv.
  - split; [by split|]. by intros ? [= <-].
  - destruct (Hf v x Hv) as [Ht Hok]. destruct (f v x) as [v'|e| |] eqn:He; simpl.
    + apply IH. by apply Hok.
    + by split; [split|].
    + by destruct Ht.
    + by destruct Ht.
Qed.

Lemma collect_aspect_restores fuel ir id v :
  (size (dom (ir_aspects ir) ∖ v.1) < fuel)%nat →
  restores v.1 (collect_aspect_with_parents fuel ir id v).
Proof.
  revert id v. induction fuel as [|fuel IH]; intros id v Hs; [lia|]. simpl.
  case_decide as Hin; [split; [by split|by intros ? [= <-]]|].
  destruct (ir_aspects ir !! id) as [a|] eqn:Ha; simpl; [|by split; [split|]].
  apply size_visit with (x := id) in Hs; [|by apply elem_of_dom_2 in Ha|done].
  destruct (fold_restores (λ v parent, collect_aspect_with_parents fuel ir parent v) ({[id]} ∪ v.1)
    (set_iter (ad_extends a)) ({[id]} ∪ v.1, v.2)) as [Ht Hok]; [|done|].
  { intros v' x Hv'. rewrite <- Hv'. apply IH. by rewrite Hv'. }
  destruct (fold_outcome _ _ _) as [v'| | |]; simpl; [|by split; [split|]|by destruct Ht..].
  split; [by split|]. intros ? [= <-]. simpl. rewrite (Hok v' eq_refl). set_solver.
Qed.
Lemma collect_bundle_restores fuel ir id v :
  (size (dom (ir_bundles ir) ∖ v.1) < fuel)%nat → restores v.1 (collect_bundle_aspects fuel ir id v).
Proof.
  revert id v. induction fuel as [|fuel IH]; intros id v Hs; [lia|]. simpl.
  case_decide as Hin; [split; [by split|by intros ? [= <-]]|].
  destruct (ir_bundles ir !! id) as [b|] eqn:Hb; simpl; [|by split; [split|]].
  apply size_visit with (x := id) in Hs; [|by apply elem_of_dom_2 in Hb|done].
  destruct (fold_restores (λ v parent, collect_bundle_aspects fuel ir parent v) ({[id]} ∪ v.1)
    (set_iter (bd_extends b)) ({[id]} ∪ v.1, v.2)) as [Ht Hok]; [|done|].
  { intros v' x Hv'. rewrite <- Hv'. apply IH. by rewrite Hv'. }
  destruct (fold_outcome _ _ _) as [v'| | |]; simpl; [|by split; [split|]|by destruct Ht..].
  destruct (fold_restores (λ a aspect, collect_aspect_with_parents (aspect_fuel ir) ir aspect a) ∅
    (set_iter (bd_includes b)) (∅, v'.2)) as [Ht' _]; [|done|].
  { intros a x Ha. rewrite <- Ha. apply collect_aspect_restores. unfold aspect_fuel.
    rewrite Ha, difference_empty_L, size_dom. lia. }
  destruct (fold_outcome _ (set_iter (bd_includes b)) _) as [a| | |]; simpl;
    [|by split; [split|]|by destruct Ht'..].
  split; [by split|]. intros ? [= <-]. simpl. rewrite (Hok v' eq_refl). set_solver.
Qed.
Lemma total_bundle_closure ir b : total (bundle_closure ir b).
Proof.
  unfold bundle_closure. apply total_bind; [|auto with total].
  apply (collect_bundle_restores _ ir b (∅, ∅)). simpl. rewrite difference_empty_L, size_dom. lia.
Qed.
End closure.
