(* ===== verification/AspectLower.v ===== *)
(** * AspectLower: from declarations to the module IR

    [lower_to_ir] of crates/detta-aspects/src/lib.rs and the readers of the
    parts of a method policy.  The debug text inside [AspectVerifyError::Parse]
    is the parse error itself here. *)
From S2P Require Import Prelude Effects Merkle Types AspectRuntime AspectSource AspectClosure.

Inductive AspectVerifyError :=
| VfParse (error : AspectError)
| VfDuplicateType (name : string)
| VfDuplicateAspect (name : string)
| VfDuplicateBundle (name : string)
| VfDuplicateProjection (name : string)
| VfDuplicateState (name : string)
| VfDuplicateRegistry (name : string)
| VfDuplicateAction (name : string)
| VfDuplicateInvariant (name : string)
| VfDuplicateAbi (name : string)
| VfDuplicatePolicy (name : string)
| VfUnknownAspectReference (context aspect : string)
| VfUnknownBundleReference (context bundle : string)
| VfUnknownTypeReference (context type_name : string)
| VfMissingActionDeclaration (aspect action : string)
| VfMissingDerivedBody (aspect action : string)
| VfDuplicateStateOwnership (state first_aspect second_aspect : string)
| VfDuplicateRegistryOwnership (registry first_aspect second_aspect : string)
| VfMissingRequiredFacet (bundle aspect facet : string)
| VfConflictingAspects (bundle aspect other : string)
| VfProjectionTargetUnsupported (bundle projection : string)
| VfMissingProjectionAbi (bundle projection : string)
| VfMissingProjectionPolicy (bundle projection : string)
| VfUnsupportedAuthority (text : string)
| VfUnsupportedEffect (text : string)
| VfMalformedEffectList (text : string)
| VfMalformedInvariantList (text : string)
| VfMalformedCallAllowlist (text : string)
| VfMalformedReadAllowlist (text : string)
| VfMissingCallAllowlist (bundle projection : string)
| VfMissingReadAllowlist (bundle projection : string)
| VfUnauthorizedContractCall (bundle projection target method : string)
| VfUnauthorizedContractStateRead (bundle projection target state : string)
| VfUndeclaredEffect (bundle projection : string) (effect : EffectKind)
| VfStateWriteOutOfScope (bundle projection state : string)
| VfRegistryAccessOutOfScope (bundle projection registry : string)
| VfReentrantActionCycle (action : string).
Abbreviation verified := (outcome AspectVerifyError).

Definition TAXONOMY_VERSION_NORMALIZED_BALANCE_FIRST : string := "NormalizedBalanceFirst.v1".

(** ** Method policies *)
Definition parse_authority (expr : Expr) : verified AuthorityKind :=
  match expr with
  | ExprList _ => Err (VfUnsupportedAuthority (canonical_expr expr))
  | Atom authority =>
      if bool_decide (authority = "TxSender") then Ok AuthTxSender
      else if bool_decide (authority = "MsgSender") then Ok AuthMsgSender
      else if bool_decide (authority = "RoleGrant") then Ok AuthRoleGrant
      else if bool_decide (authority = "Allowance") then Ok AuthAllowance
      else if bool_decide (authority = "PermitCertificate") then Ok AuthPermitCertificate
      else if bool_decide (authority = "OracleUpdaterGrant") then Ok AuthOracleUpdaterGrant
      else if bool_decide (authority = "BridgeCertificate") then Ok AuthBridgeCertificate
      else if bool_decide (authority = "GovernanceAdminGrant") then Ok AuthGovernanceAdminGrant
      else if String.prefix "Custom" authority then Ok (AuthCustom authority)
      else Err (VfUnsupportedAuthority authority)
  end.
Definition parse_effect_kind (effect : string) : verified EffectKind :=
  if bool_decide (effect = "ReadState") then Ok FxReadState
  else if bool_decide (effect = "WriteState") then Ok FxWriteState
  else if bool_decide (effect = "ReadRegistry") then Ok FxReadRegistry
  else if bool_decide (effect = "WriteRegistry") then Ok FxWriteRegistry
  else if bool_decide (effect = "ConsumeRegistryGrant") then Ok FxConsumeRegistryGrant
  else if bool_decide (effect = "EmitEvent") then Ok FxEmitEvent
  else if bool_decide (effect = "CallContract") then Ok FxCallContract
  else if bool_decide (effect = "DeployContract") then Ok FxDeployContract
  else if bool_decide (effect = "ScheduleUpgrade") then Ok FxScheduleUpgrade
  else if bool_decide (effect = "ExecuteUpgrade") then Ok FxExecuteUpgrade
  else if bool_decide (effect = "CrossShardOutboxAppend") then Ok FxCrossShardOutboxAppend
  else if bool_decide (effect = "UsePermitCertificate") then Ok FxUsePermitCertificate
  else if bool_decide (effect = "UseBridgeCertificate") then Ok FxUseBridgeCertificate
  else if bool_decide (effect = "Abort") then Ok FxAbort
  else Err (VfUnsupportedEffect effect).
(** The items of a list that starts with [head], each read by [item]. *)
Definition tagged_items {A} (head : string) (malformed : string → AspectVerifyError)
    (item : Expr → verified A) (expr : Expr) : verified (list A) :=
  match expr with
  | ExprList (Atom h :: items) =>
      if bool_decide (h = head) then mapR item items else Err (malformed (canonical_expr expr))
  | _ => Err (malformed (canonical_expr expr))
  end.
Definition parse_effects (expr : Expr) : verified (gset EffectKind) :=
  let* effects := tagged_items "effects" VfMalformedEffectList (λ item,
    match item with
    | Atom effect => parse_effect_kind effect
    | ExprList _ => Err (VfMalformedEffectList (canonical_expr expr))
    end) expr in
  Ok (list_to_set effects).
Definition parse_invariants (expr : Expr) : verified (gset string) :=
  let* invariants := tagged_items "invariants" VfMalformedInvariantList (λ item,
    match item with
    | Atom invariant => Ok invariant
    | ExprList _ => Err (VfMalformedInvariantList (canonical_expr expr))
    end) expr in
  Ok (list_to_set invariants).
(** [(keyword target name)] with a non-empty target, ["*"] for any, and a
    non-empty name. *)
Definition allowlist_item (keyword : string) (error : AspectVerifyError) (item : Expr)
    : verified (ContractCallTarget * string) :=
  match item with
  | ExprList [Atom head; Atom target; Atom name] =>
      do* ensure (negb (bool_decide (head ≠ keyword) || bool_decide (name = ""))) error in
      if bool_decide (target = "*") then Ok (TargetAny, name)
      else if bool_decide (target = "") then Err error
      else Ok (TargetExact target, name)
  | _ => Err error
  end.
Definition parse_call_allowlist (expr : option Expr) : verified (gset ContractCallPattern) :=
  match expr with
  | None => Ok ∅
  | Some expr =>
      let* calls := tagged_items "calls" VfMalformedCallAllowlist
        (allowlist_item "call" (VfMalformedCallAllowlist (canonical_expr expr))) expr in
      Ok (list_to_set ((λ p, {| ccp_target := p.1; ccp_method := p.2 |}) <$> calls))
  end.
Definition parse_read_allowlist (expr : option Expr) : verified (gset ContractStateReadPattern) :=
  match expr with
  | None => Ok ∅
  | Some expr =>
      let* reads := tagged_items "reads" VfMalformedReadAllowlist
        (allowlist_item "read" (VfMalformedReadAllowlist (canonical_expr expr))) expr in
      Ok (list_to_set ((λ p, {| crp_target := p.1; crp_state := p.2 |}) <$> reads))
  end.

(** ** Lowering *)
Definition insert_unique {V} (map : gmap string V) (key : string) (value : V)
    (error : AspectVerifyError) : verified (gmap string V) :=
  match map !! key with Some _ => Err error | None => Ok (<[key := value]> map) end.
Definition insert_aspect (aspects : gmap string AspectDef) (aspect : string) (is_abstract : bool)
    : verified (gmap string AspectDef) :=
  insert_unique aspects aspect
    {| ad_aspect := aspect; ad_is_abstract := is_abstract; ad_extends := ∅; ad_conflicts := ∅;
       ad_provides := ∅; ad_requires := ∅ |} (VfDuplicateAspect aspect).
(** [let def = aspect_def_mut(..)?; update(def)] *)
Definition aspect_def_mut (aspects : gmap string AspectDef) (aspect : string)
    (update : AspectDef → AspectDef) : verified (gmap string AspectDef) :=
  let* def := ok_or (aspects !! aspect) (VfUnknownAspectReference "aspect declaration" aspect) in
  Ok (<[aspect := update def]> aspects).
Definition bundle_def_mut (bundles : gmap string BundleDef) (bundle : string)
    (update : BundleDef → verified BundleDef) : verified (gmap string BundleDef) :=
  let* def := ok_or (bundles !! bundle) (VfUnknownBundleReference "bundle declaration" bundle) in
  let* def := update def in
  Ok (<[bundle := def]> bundles).

Definition with_aspects f (ir : AspectModuleIr) : verified AspectModuleIr :=
  let* aspects := f (ir_aspects ir) in
  Ok {| ir_taxonomy_version := ir_taxonomy_version ir; ir_source_root := ir_source_root ir;
        ir_types := ir_types ir; ir_aspects := aspects; ir_bundles := ir_bundles ir;
        ir_projections := ir_projections ir; ir_actions := ir_actions ir;
        ir_storage_schema := ir_storage_schema ir; ir_registry_schema := ir_registry_schema ir;
        ir_invariants := ir_invariants ir; ir_abi := ir_abi ir; ir_policies := ir_policies ir |}.
Definition with_types f (ir : AspectModuleIr) : verified AspectModuleIr :=
  let* types := f (ir_types ir) in
  Ok {| ir_taxonomy_version := ir_taxonomy_version ir; ir_source_root := ir_source_root ir;
        ir_types := types; ir_aspects := ir_aspects ir; ir_bundles := ir_bundles ir;
        ir_projections := ir_projections ir; ir_actions := ir_actions ir;
        ir_storage_schema := ir_storage_schema ir; ir_registry_schema := ir_registry_schema ir;
        ir_invariants := ir_invariants ir; ir_abi := ir_abi ir; ir_policies := ir_policies ir |}.
Definition with_bundles f (ir : AspectModuleIr) : verified AspectModuleIr :=
  let* bundles := f (ir_bundles ir) in
  Ok {| ir_taxonomy_version := ir_taxonomy_version ir; ir_source_root := ir_source_root ir;
        ir_types := ir_types ir; ir_aspects := ir_aspects ir; ir_bundles := bundles;
        ir_projections := ir_projections ir; ir_actions := ir_actions ir;
        ir_storage_schema := ir_storage_schema ir; ir_registry_schema := ir_registry_schema ir;
        ir_invariants := ir_invariants ir; ir_abi := ir_abi ir; ir_policies := ir_policies ir |}.
Definition with_projections f (ir : AspectModuleIr) : verified AspectModuleIr :=
  let* projections := f (ir_projections ir) in
  Ok {| ir_taxonomy_version := ir_taxonomy_version ir; ir_source_root := ir_source_root ir;
        ir_types := ir_types ir; ir_aspects := ir_aspects ir; ir_bundles := ir_bundles ir;
        ir_projections := projections; ir_actions := ir_actions ir;
        ir_storage_schema := ir_storage_schema ir; ir_registry_schema := ir_registry_schema ir;
        ir_invariants := ir_invariants ir; ir_abi := ir_abi ir; ir_policies := ir_policies ir |}.
Definition with_actions f (ir : AspectModuleIr) : verified AspectModuleIr :=
  let* actions := f (ir_actions ir) in
  Ok {| ir_taxonomy_version := ir_taxonomy_version ir; ir_source_root := ir_source_root ir;
        ir_types := ir_types ir; ir_aspects := ir_aspects ir; ir_bundles := ir_bundles ir;
        ir_projections := ir_projections ir; ir_actions := actions;
        ir_storage_schema := ir_storage_schema ir; ir_registry_schema := ir_registry_schema ir;
        ir_invariants := ir_invariants ir; ir_abi := ir_abi ir; ir_policies := ir_policies ir |}.
Definition with_storage_schema f (ir : AspectModuleIr) : verified AspectModuleIr :=
  let* schema := f (ir_storage_schema ir) in
  Ok {| ir_taxonomy_version := ir_taxonomy_version ir; ir_source_root := ir_source_root ir;
        ir_types := ir_types ir; ir_aspects := ir_aspects ir; ir_bundles := ir_bundles ir;
        ir_projections := ir_projections ir; ir_actions := ir_actions ir;
        ir_storage_schema := schema; ir_registry_schema := ir_registry_schema ir;
        ir_invariants := ir_invariants ir; ir_abi := ir_abi ir; ir_policies := ir_policies ir |}.
Definition with_registry_schema f (ir : AspectModuleIr) : verified AspectModuleIr :=
  let* schema := f (ir_registry_schema ir) in
  Ok {| ir_taxonomy_version := ir_taxonomy_version ir; ir_source_root := ir_source_root ir;
        ir_types := ir_types ir; ir_aspects := ir_aspects ir; ir_bundles := ir_bundles ir;
        ir_projections := ir_projections ir; ir_actions := ir_actions ir;
        ir_storage_schema := ir_storage_schema ir; ir_registry_schema := schema;
        ir_invariants := ir_invariants ir; ir_abi := ir_abi ir; ir_policies := ir_policies ir |}.
Definition with_invariants f (ir : AspectModuleIr) : verified AspectModuleIr :=
  let* invariants := f (ir_invariants ir) in
  Ok {| ir_taxonomy_version := ir_taxonomy_version ir; ir_source_root := ir_source_root ir;
        ir_types := ir_types ir; ir_aspects := ir_aspects ir; ir_bundles := ir_bundles ir;
        ir_projections := ir_projections ir; ir_actions := ir_actions ir;
        ir_storage_schema := ir_storage_schema ir; ir_registry_schema := ir_registry_schema ir;
        ir_invariants := invariants; ir_abi := ir_abi ir; ir_policies := ir_policies ir |}.
Definition with_abi f (ir : AspectModuleIr) : verified AspectModuleIr :=
  let* abi := f (ir_abi ir) in
  Ok {| ir_taxonomy_version := ir_taxonomy_version ir; ir_source_root := ir_source_root ir;
        ir_types := ir_types ir; ir_aspects := ir_aspects ir; ir_bundles := ir_bundles ir;
        ir_projections := ir_projections ir; ir_actions := ir_actions ir;
        ir_storage_schema := ir_storage_schema ir; ir_registry_schema := ir_registry_schema ir;
        ir_invariants := ir_invariants ir; ir_abi := abi; ir_policies := ir_policies ir |}.
Definition with_policies f (ir : AspectModuleIr) : verified AspectModuleIr :=
  let* policies := f (ir_policies ir) in
  Ok {| ir_taxonomy_version := ir_taxonomy_version ir; ir_source_root := ir_source_root ir;
        ir_types := ir_types ir; ir_aspects := ir_aspects ir; ir_bundles := ir_bundles ir;
        ir_projections := ir_projections ir; ir_actions := ir_actions ir;
        ir_storage_schema := ir_storage_schema ir; ir_registry_schema := ir_registry_schema ir;
        ir_invariants := ir_invariants ir; ir_abi := ir_abi ir; ir_policies := policies |}.

Definition add_extends p (d : AspectDef) : AspectDef :=
  {| ad_aspect := ad_aspect d; ad_is_abstract := ad_is_abstract d;
     ad_extends := {[p]} ∪ ad_extends d; ad_conflicts := ad_conflicts d;
     ad_provides := ad_provides d; ad_requires := ad_requires d |}.
Definition add_conflicts p (d : AspectDef) : AspectDef :=
  {| ad_aspect := ad_aspect d; ad_is_abstract := ad_is_abstract d; ad_extends := ad_extends d;
     ad_conflicts := {[p]} ∪ ad_conflicts d; ad_provides := ad_provides d;
     ad_requires := ad_requires d |}.
Definition add_provides p (d : AspectDef) : AspectDef :=
  {| ad_aspect := ad_aspect d; ad_is_abstract := ad_is_abstract d; ad_extends := ad_extends d;
     ad_conflicts := ad_conflicts d; ad_provides := {[p]} ∪ ad_provides d;
     ad_requires := ad_requires d |}.
Definition add_requires p (d : AspectDef) : AspectDef :=
  {| ad_aspect := ad_aspect d; ad_is_abstract := ad_is_abstract d; ad_extends := ad_extends d;
     ad_conflicts := ad_conflicts d; ad_provides := ad_provides d;
     ad_requires := {[p]} ∪ ad_requires d |}.
Definition declare_action (aspect action : string) (actions : gmap string ActionDef)
    : verified (gmap string ActionDef) :=
  let key := qualified aspect action in
  match actions !! key with
  | Some existing =>
      if act_declared existing then Err (VfDuplicateAction key) else
      Ok (<[key := {| act_aspect := act_aspect existing; act_action := act_action existing;
                      act_declared := true; act_body := act_body existing |}]> actions)
  | None =>
      Ok (<[key := {| act_aspect := aspect; act_action := action; act_declared := true;
                      act_body := None |}]> actions)
  end.
Definition derive_action (aspect action : string) (expr : Expr) (actions : gmap string ActionDef)
    : verified (gmap string ActionDef) :=
  let key := qualified aspect action in
  match actions !! key with
  | Some existing =>
      match act_body existing with
      | Some _ => Err (VfDuplicateAction key)
      | None =>
          Ok (<[key := {| act_aspect := act_aspect existing; act_action := act_action existing;
                          act_declared := act_declared existing; act_body := Some expr |}]> actions)
      end
  | None =>
      Ok (<[key := {| act_aspect := aspect; act_action := action; act_declared := false;
                      act_body := Some expr |}]> actions)
  end.
Definition add_constraint (bundle constraint : string) (expr : Expr) (d : BundleDef)
    : verified BundleDef :=
  match bd_constraints d !! constraint with
  | Some _ => Err (VfDuplicateInvariant (qualified bundle constraint))
  | None => Ok {| bd_bundle := bd_bundle d; bd_includes := bd_includes d; bd_extends := bd_extends d;
                  bd_constraints := <[constraint := expr]> (bd_constraints d) |}
  end.
(** One iteration of the loop of [lower_to_ir]. *)
Definition lower_declaration (ir : AspectModuleIr) (d : AspectDeclaration) : verified AspectModuleIr :=
  match d with
  | DeclType symbol type_expr =>
      with_types (λ m, insert_unique m symbol type_expr (VfDuplicateType symbol)) ir
  | DeclAspect aspect => with_aspects (λ m, insert_aspect m aspect false) ir
  | DeclAbstractAspect aspect => with_aspects (λ m, insert_aspect m aspect true) ir
  | DeclBundle bundle =>
      with_bundles (λ m, insert_unique m bundle
        {| bd_bundle := bundle; bd_includes := ∅; bd_extends := ∅; bd_constraints := ∅ |}
        (VfDuplicateBundle bundle)) ir
  | DeclLayerOf _ _ => Ok ir
  | DeclExtends aspect parent => with_aspects (λ m, aspect_def_mut m aspect (add_extends parent)) ir
  | DeclConflicts aspect other => with_aspects (λ m, aspect_def_mut m aspect (add_conflicts other)) ir
  | DeclOwns aspect state type_expr =>
      with_storage_schema (λ m, insert_unique m (qualified aspect state)
        {| ss_aspect := aspect; ss_state := state; ss_type_expr := type_expr |}
        (VfDuplicateState state)) ir
  | DeclRegistryOwns aspect registry type_expr =>
      with_registry_schema (λ m, insert_unique m (qualified aspect registry)
        {| rs_aspect := aspect; rs_registry := registry; rs_type_expr := type_expr |}
        (VfDuplicateRegistry registry)) ir
  | DeclProvides aspect facet => with_aspects (λ m, aspect_def_mut m aspect (add_provides facet)) ir
  | DeclRequires aspect facet => with_aspects (λ m, aspect_def_mut m aspect (add_requires facet)) ir
  | DeclAction aspect action => with_actions (declare_action aspect action) ir
  | DeclDerived aspect action expr => with_actions (derive_action aspect action expr) ir
  | DeclLocalInvariant aspect invariant expr =>
      with_invariants (λ m, insert_unique m (qualified aspect invariant)
        {| inv_aspect := aspect; inv_invariant := invariant; inv_expr := expr |}
        (VfDuplicateInvariant (qualified aspect invariant))) ir
  | DeclBundleIncludes bundle aspect =>
      with_bundles (λ m, bundle_def_mut m bundle (λ d,
        Ok {| bd_bundle := bd_bundle d; bd_includes := {[aspect]} ∪ bd_includes d;
              bd_extends := bd_extends d; bd_constraints := bd_constraints d |})) ir
  | DeclBundleExtends bundle parent =>
      with_bundles (λ m, bundle_def_mut m bundle (λ d,
        Ok {| bd_bundle := bd_bundle d; bd_includes := bd_includes d;
              bd_extends := {[parent]} ∪ bd_extends d; bd_constraints := bd_constraints d |})) ir
  | DeclBundleConstraint bundle constraint expr =>
      with_bundles (λ m, bundle_def_mut m bundle (add_constraint bundle constraint expr)) ir
  | DeclProjection bundle projection expr =>
      let key := qualified bundle projection in
      with_projections (λ m, insert_unique m key
        {| pd_bundle := bundle; pd_projection := projection; pd_expr := expr |}
        (VfDuplicateProjection key)) ir
  | DeclMethodAbi bundle projection args return_type =>
      let key := qualified bundle projection in
      with_abi (λ m, insert_unique m key
        {| abi_bundle := bundle; abi_projection := projection; abi_args := args;
           abi_return_type := return_type |} (VfDuplicateAbi key)) ir
  | DeclMethodPolicy bundle projection authority effects invariants calls reads =>
      let key := qualified bundle projection in
      with_policies (λ m,
        let* authority := parse_authority authority in
        let* effects := parse_effects effects in
        let* invariants := parse_invariants invariants in
        let* call_allowlist := parse_call_allowlist calls in
        let* read_allowlist := parse_read_allowlist reads in
        insert_unique m key
          {| mpi_bundle := bundle; mpi_projection := projection; mpi_authority := authority;
             mpi_effects := effects; mpi_invariants := invariants;
             mpi_call_allowlist := call_allowlist; mpi_read_allowlist := read_allowlist |}
          (VfDuplicatePolicy key)) ir
  | DeclCrossConstraint _ _ => Ok ir
  end.
Definition empty_ir (source_root : string) : AspectModuleIr :=
  {| ir_taxonomy_version := TAXONOMY_VERSION_NORMALIZED_BALANCE_FIRST;
     ir_source_root := source_root; ir_types := ∅; ir_aspects := ∅; ir_bundles := ∅;
     ir_projections := ∅; ir_actions := ∅; ir_storage_schema := ∅; ir_registry_schema := ∅;
     ir_invariants := ∅; ir_abi := ∅; ir_policies := ∅ |}.
Definition lower_to_ir `{Sha256} (ast : AspectPackageAst) : verified AspectModuleIr :=
  fold_outcome lower_declaration (ast_declarations ast) (empty_ir (canonical_source_root ast)).

(** ** Lowering ends and keeps names and keys together *)
Lemma total_tagged_items {A} h mal (item : Expr → verified A) e :
  (∀ x, total (item x)) → total (tagged_items h mal item e).
Proof. intros Hi. destruct e as [|[|[] ?]]; simpl; auto with total. Qed.
Lemma total_allowlist_item k e x : total (allowlist_item k e x).
Proof.
  destruct x as [|[|[] [|[] [|[] []]]]]; simpl; auto with total.
Qed.
Lemma total_parse_policy_parts a e i c r :
  total (parse_authority a) ∧ total (parse_effects e) ∧ total (parse_invariants i) ∧
  total (parse_call_allowlist c) ∧ total (parse_read_allowlist r).
Proof.
  split_and!.
  - destruct a; simpl; [|by split]. repeat case_bool_decide; try by split. destruct (String.prefix _ _); by split.
  - apply total_bind; [|auto with total]. apply total_tagged_items. intros []; simpl; [|by split].
    unfold parse_effect_kind. repeat case_bool_decide; by split.
  - apply total_bind; [|auto with total]. apply total_tagged_items. intros []; by split.
  - destruct c; [|by split]. apply total_bind; [|auto with total].
    apply total_tagged_items, total_allowlist_item.
  - destruct r; [|by split]. apply total_bind; [|auto with total].
    apply total_tagged_items, total_allowlist_item.
Qed.
Lemma total_insert_unique {V} (m : gmap string V) k v e : total (insert_unique m k v e).
Proof. unfold insert_unique. destruct (m !! k); auto with total. Qed.
Lemma total_lower_declaration ir d : total (lower_declaration ir d).
Proof.
  destruct d as [| | | | | | | | | | | | | | | | | | |? ? a e i c r|]; simpl; try by split.
  all: unfold with_types, with_aspects, with_bundles, with_projections, with_actions, with_storage_schema,
    with_registry_schema, with_invariants, with_abi, with_policies; apply total_bind; [|auto with total].
  all: unfold insert_aspect, aspect_def_mut, bundle_def_mut, declare_action, derive_action, add_constraint;
    auto using total_insert_unique with total.
  destruct (total_parse_policy_parts a e i c r) as (?&?&?&?&?).
  repeat (apply total_bind; [done|intros]). apply total_insert_unique.
Qed.
Lemma total_lower_to_ir `{Sha256} ast : total (lower_to_ir ast).
Proof. apply total_fold_outcome. intros. apply total_lower_declaration. Qed.
#[export] Hint Resolve total_lower_to_ir : total.

(** Every entry of the IR is filed under the name it carries. *)
Record well_keyed (ir : AspectModuleIr) : Prop := {
  wk_aspects k d : ir_aspects ir !! k = Some d → ad_aspect d = k;
  wk_bundles k d : ir_bundles ir !! k = Some d → bd_bundle d = k;
  wk_projections k d : ir_projections ir !! k = Some d → k = qualified (pd_bundle d) (pd_projection d);
  wk_actions k d : ir_actions ir !! k = Some d → k = qualified (act_aspect d) (act_action d);
  wk_storage k d : ir_storage_schema ir !! k = Some d → k = qualified (ss_aspect d) (ss_state d);
  wk_registry k d : ir_registry_schema ir !! k = Some d → k = qualified (rs_aspect d) (rs_registry d);
  wk_invariants k d : ir_invariants ir !! k = Some d → k = qualified (inv_aspect d) (inv_invariant d);
  wk_abi k d : ir_abi ir !! k = Some d → k = qualified (abi_bundle d) (abi_projection d);
  wk_policies k d : ir_policies ir !! k = Some d → k = qualified (mpi_bundle d) (mpi_projection d);
}.
Lemma insert_unique_Ok {V} (m m' : gmap string V) k v e :
  insert_unique m k v e = Ok m' → m !! k = None ∧ m' = <[k := v]> m.
Proof. unfold insert_unique. destruct (m !! k) eqn:Hk; [done|]. by intros [= <-]. Qed.
Lemma lower_keeps_keys ir d ir' : well_keyed ir → lower_declaration ir d = Ok ir' → well_keyed ir'.
Proof.
  intros [] H. destruct d; simpl in H;
    unfold with_types, with_aspects, with_bundles, with_projections, with_actions, with_storage_schema,
      with_registry_schema, with_invariants, with_abi, with_policies, insert_aspect, aspect_def_mut,
      bundle_def_mut, add_constraint, declare_action, derive_action in H;
    repeat match goal with
    | H : outcome_bind _ _ = Ok _ |- _ => apply outcome_bind_Ok in H as (? & ? & ?)
    | H : insert_unique _ _ _ _ = Ok _ |- _ => apply insert_unique_Ok in H as [? ->]
    | H : ok_or _ _ = Ok _ |- _ => apply ok_or_Ok in H
    | H : match ?x with _ => _ end = Ok _ |- _ => destruct x eqn:?; [|try discriminate H]
    | H : Err _ = Ok _ |- _ => discriminate H
    | H : Ok _ = Ok _ |- _ => injection H as <-
    end; split; simpl; try done;
    intros ? ? [[<- <-]|[? ?]]%lookup_insert_Some; simpl; eauto.
Qed.

(** So looking an action, projection, policy or schema up by its qualified
    name finds the entry of that name or nothing. *)
Lemma lower_well_keyed `{Sha256} ast ir : lower_to_ir ast = Ok ir → well_keyed ir.
Proof.
  apply fold_outcome_inv; [intros ? ? ? _; apply lower_keeps_keys|].
  by split; simpl; intros k d; rewrite lookup_empty.
Qed.
