(* ===== verification/AspectVerify.v ===== *)
(** * AspectVerify: the verifier of aspect modules

    [verify_module] of crates/detta-aspects/src/lib.rs: references, types,
    ownership, the action call graph, closures, facets, conflicts,
    projections, the inference of effects and their comparison with the
    declared policies, and the artifact roots. *)
From S2P Require Import Prelude Effects Merkle Types State AspectRuntime AspectSource.
From S2P Require Import AspectClosure AspectLower.

(** ** References and types *)
Definition known_aspect (ir : AspectModuleIr) (context aspect : string) : verified () :=
  ensure (bool_decide (is_Some (ir_aspects ir !! aspect))) (VfUnknownAspectReference context aspect).
Definition known_bundle (ir : AspectModuleIr) (context bundle : string) : verified () :=
  ensure (bool_decide (is_Some (ir_bundles ir !! bundle))) (VfUnknownBundleReference context bundle).
Definition verify_references (ir : AspectModuleIr) : verified () :=
  do* each (λ aspect,
    do* each (known_aspect ir (ad_aspect aspect +:+ " extends")) (set_iter (ad_extends aspect)) in
    each (known_aspect ir (ad_aspect aspect +:+ " conflicts")) (set_iter (ad_conflicts aspect)))
    (values (ir_aspects ir)) in
  do* each (λ schema, known_aspect ir (ss_state schema +:+ " owns") (ss_aspect schema))
    (values (ir_storage_schema ir)) in
  do* each (λ schema, known_aspect ir (rs_registry schema +:+ " registry-owns") (rs_aspect schema))
    (values (ir_registry_schema ir)) in
  do* each (λ action, known_aspect ir (act_action action +:+ " action") (act_aspect action))
    (values (ir_actions ir)) in
  do* each (λ inv, known_aspect ir (inv_invariant inv +:+ " invariant") (inv_aspect inv))
    (values (ir_invariants ir)) in
  do* each (λ bundle,
    do* each (known_aspect ir (bd_bundle bundle +:+ " includes")) (set_iter (bd_includes bundle)) in
    each (known_bundle ir (bd_bundle bundle +:+ " extends")) (set_iter (bd_extends bundle)))
    (values (ir_bundles ir)) in
  do* each (λ p, known_bundle ir (pd_projection p +:+ " projection") (pd_bundle p))
    (values (ir_projections ir)) in
  do* each (λ abi,
    ensure (bool_decide (is_Some (ir_projections ir !! qualified (abi_bundle abi) (abi_projection abi))))
      (VfMissingProjectionAbi (abi_bundle abi) (abi_projection abi))) (values (ir_abi ir)) in
  each (λ policy,
    ensure (bool_decide (is_Some (ir_projections ir !!
        qualified (mpi_bundle policy) (mpi_projection policy))))
      (VfMissingProjectionPolicy (mpi_bundle policy) (mpi_projection policy))) (values (ir_policies ir)).

Definition builtin_types : gset string :=
  {["->"; "Type"; "Bool"; "UInt8"; "UInt64"; "Amount"; "Address"; "Asset"; "Contract"; "Method";
    "Role"; "Bytes"; "String"; "Time"; "Height"; "Event"]}.
Fixpoint verify_type_expr (known_types : gset string) (context : string) (expr : Expr) : verified () :=
  match expr with
  | Atom atom => ensure (bool_decide (atom ∈ known_types)) (VfUnknownTypeReference context atom)
  | ExprList items =>
      (fix go items := match items with
       | [] => Ok ()
       | item :: items => do* verify_type_expr known_types context item in go items
       end) items
  end.
Definition verify_abi_args (known_types : gset string) (abi : MethodAbiDef) : verified () :=
  let at_ prefix := prefix +:+ " " +:+ abi_bundle abi +:+ "::" +:+ abi_projection abi in
  match abi_args abi with
  | Atom atom => Err (VfUnknownTypeReference (at_ "abi args") atom)
  | ExprList [] => Ok ()
  | ExprList (head :: items) =>
      do* ensure (match head with Atom h => bool_decide (h = "args") | ExprList _ => false end)
            (VfUnknownTypeReference (at_ "abi args") (canonical_expr head)) in
      each (λ arg,
        match arg with
        | ExprList [Atom _; type_expr] => verify_type_expr known_types (at_ "abi arg") type_expr
        | ExprList [name; _] => Err (VfUnknownTypeReference (at_ "abi arg name") (canonical_expr name))
        | _ => Err (VfUnknownTypeReference (at_ "abi args") (canonical_expr arg))
        end) items
  end.
Definition verify_type_expressions (ir : AspectModuleIr) : verified () :=
  let known_types := builtin_types ∪ dom (ir_types ir) in
  do* each (λ e, verify_type_expr known_types ("type declaration " +:+ e.1) e.2)
    (entries (ir_types ir)) in
  do* each (λ schema, verify_type_expr known_types
      ("state " +:+ ss_aspect schema +:+ "::" +:+ ss_state schema) (ss_type_expr schema))
    (values (ir_storage_schema ir)) in
  do* each (λ schema, verify_type_expr known_types
      ("registry " +:+ rs_aspect schema +:+ "::" +:+ rs_registry schema) (rs_type_expr schema))
    (values (ir_registry_schema ir)) in
  each (λ abi,
    do* verify_abi_args known_types abi in
    verify_type_expr known_types
      ("return type " +:+ abi_bundle abi +:+ "::" +:+ abi_projection abi) (abi_return_type abi))
    (values (ir_abi ir)).

(** ** Actions and ownership *)
Definition verify_action_declarations (ir : AspectModuleIr) : verified () :=
  each (λ action, ensure (act_declared action)
    (VfMissingActionDeclaration (act_aspect action) (act_action action))) (values (ir_actions ir)).
(** [owners.insert(name, aspect)] must not replace an owner. *)
Fixpoint single_owner (error : string → string → string → AspectVerifyError)
    (owners : gmap string string) (claims : list (string * string)) : verified () :=
  match claims with
  | [] => Ok ()
  | (name, aspect) :: claims =>
      match owners !! name with
      | Some first_aspect => Err (error name first_aspect aspect)
      | None => single_owner error (<[name := aspect]> owners) claims
      end
  end.
Definition verify_state_ownership (ir : AspectModuleIr) : verified () :=
  single_owner VfDuplicateStateOwnership ∅
    ((λ s, (ss_state s, ss_aspect s)) <$> values (ir_storage_schema ir)).
Definition verify_registry_ownership (ir : AspectModuleIr) : verified () :=
  single_owner VfDuplicateRegistryOwnership ∅
    ((λ s, (rs_registry s, rs_aspect s)) <$> values (ir_registry_schema ir)).

(** ** The action call graph *)
Definition action_key (action : ActionDef) : string := qualified (act_aspect action) (act_action action).
Definition action_names (ir : AspectModuleIr) : gmap string (gset string) :=
  foldl (λ names action,
    <[act_action action := {[action_key action]} ∪ default ∅ (names !! act_action action)]> names)
    ∅ (values (ir_actions ir)).
Fixpoint collect_action_calls (names : gmap string (gset string)) (expr : Expr) : gset string :=
  match expr with
  | Atom _ => ∅
  | ExprList items =>
      let all := (fix go items := match items with
        | [] => ∅
        | item :: items => collect_action_calls names item ∪ go items
        end) in
      match items with
      | Atom head :: args =>
          match bool_decide (head = "="), args with
          | true, [_; body] => collect_action_calls names body
          | _, _ => default ∅ (names !! head) ∪ all args
          end
      | _ :: args => all args
      | [] => ∅
      end
  end.
Definition action_graph (ir : AspectModuleIr) : gmap string (gset string) :=
  list_to_map (reverse ((λ action, (action_key action,
    match act_body action with
    | Some body => collect_action_calls (action_names ir) body
    | None => ∅
    end)) <$> values (ir_actions ir))).
(** [(visiting, visited)] threaded through the search. *)
Fixpoint detect_action_cycle (fuel : nat) (graph : gmap string (gset string)) (action : string)
    (v : visit) : verified visit :=
  match fuel with
  | O => OutOfFuel
  | S fuel =>
      if decide (action ∈ v.2) then Ok v
      else if decide (action ∈ v.1) then Err (VfReentrantActionCycle action)
      else
        let* v := fold_outcome (λ v callee, detect_action_cycle fuel graph callee v)
                    (set_iter (default ∅ (graph !! action))) ({[action]} ∪ v.1, v.2) in
        Ok (v.1 ∖ {[action]}, {[action]} ∪ v.2)
  end.
Definition graph_fuel (graph : gmap string (gset string)) : nat := S (size graph).
Definition verify_action_call_graph (ir : AspectModuleIr) : verified () :=
  let graph := action_graph ir in
  each (λ action, let* _ := detect_action_cycle (graph_fuel graph) graph action (∅, ∅) in Ok ())
    (keys graph).

(** ** Closures, facets, conflicts, projections *)
Definition bundle_aspect_closures (ir : AspectModuleIr) : verified (gmap string (gset string)) :=
  fold_outcome (λ closures bundle,
    let* closure := bundle_closure (VfUnknownAspectReference "aspect closure")
                      (VfUnknownBundleReference "bundle closure") ir bundle in
    Ok (<[bundle := closure]> closures)) (keys (ir_bundles ir)) ∅.
Definition verify_required_facets (ir : AspectModuleIr) (closures : gmap string (gset string))
    : verified () :=
  each (λ '(bundle, closure),
    let provided := ⋃ ((λ aspect, match ir_aspects ir !! aspect with
      | Some def => ad_provides def | None => ∅ end) <$> set_iter closure) in
    each (λ aspect,
      match ir_aspects ir !! aspect with
      | None => Ok ()
      | Some def =>
          each (λ facet, ensure (bool_decide (facet ∈ provided))
            (VfMissingRequiredFacet bundle aspect facet)) (set_iter (ad_requires def))
      end) (set_iter closure)) (entries closures).
Definition verify_conflicts (ir : AspectModuleIr) (closures : gmap string (gset string))
    : verified () :=
  each (λ '(bundle, closure),
    each (λ aspect,
      match ir_aspects ir !! aspect with
      | None => Ok ()
      | Some def =>
          each (λ other, ensure (negb (bool_decide (other ∈ closure)))
            (VfConflictingAspects bundle aspect other)) (set_iter (ad_conflicts def))
      end) (set_iter closure)) (entries closures).
Definition projection_target_action (expr : Expr) : option string :=
  match expr with
  | ExprList [Atom head; _; ExprList (Atom action :: _)] =>
      if bool_decide (head = "=") then Some action else None
  | _ => None
  end.
Definition action_for_projection_target (ir : AspectModuleIr) (closures : gmap string (gset string))
    (bundle target : string) : option ActionDef :=
  closure ← closures !! bundle;
  snd <$> list_find (λ action, act_action action = target ∧ act_aspect action ∈ closure)
    (values (ir_actions ir)).
Definition verify_projections (ir : AspectModuleIr) (closures : gmap string (gset string))
    : verified () :=
  each (λ p,
    let* target := ok_or (projection_target_action (pd_expr p))
                     (VfProjectionTargetUnsupported (pd_bundle p) (pd_projection p)) in
    let* closure := ok_or (closures !! pd_bundle p)
                      (VfUnknownBundleReference (pd_projection p +:+ " projection") (pd_bundle p)) in
    ensure (existsb (λ action, bool_decide (act_action action = target)
                               && bool_decide (act_aspect action ∈ closure)) (values (ir_actions ir)))
      (VfProjectionTargetUnsupported (pd_bundle p) (pd_projection p))) (values (ir_projections ir)).
Definition verify_projection_abi_and_policy (ir : AspectModuleIr) : verified () :=
  each (λ p,
    let key := qualified (pd_bundle p) (pd_projection p) in
    do* ensure (bool_decide (is_Some (ir_abi ir !! key)))
          (VfMissingProjectionAbi (pd_bundle p) (pd_projection p)) in
    ensure (bool_decide (is_Some (ir_policies ir !! key)))
      (VfMissingProjectionPolicy (pd_bundle p) (pd_projection p))) (values (ir_projections ir)).

(** ** Inferred effects *)
Inductive ContractCallSiteTarget := SiteExact (target : string) | SiteDynamic (target : string).
Record ContractCallSite := { ccs_target : ContractCallSiteTarget; ccs_method : string }.
Record ContractStateReadSite := { crs_target : ContractCallSiteTarget; crs_state : string }.
#[export] Instance SiteTarget_eq_dec : EqDecision ContractCallSiteTarget.
Proof. solve_decision. Defined.
#[export] Instance CallSite_eq_dec : EqDecision ContractCallSite.
Proof. solve_decision. Defined.
#[export] Instance ReadSite_eq_dec : EqDecision ContractStateReadSite.
Proof. solve_decision. Defined.
(** The derived orders: variant first, then the strings. *)
Definition site_code (t : ContractCallSiteTarget) : N * string :=
  match t with SiteExact s => (0, s) | SiteDynamic s => (1, s) end.
Definition site_decode (x : N * string) : ContractCallSiteTarget :=
  if x.1 =? 0 then SiteExact x.2 else SiteDynamic x.2.
#[export] Instance SiteTarget_countable : Countable ContractCallSiteTarget.
Proof. refine (inj_countable' site_code site_decode _). by intros []. Defined.
#[export] Instance CallSite_countable : Countable ContractCallSite.
Proof.
  refine (inj_countable' (λ c, (ccs_target c, ccs_method c))
    (λ x, {| ccs_target := x.1; ccs_method := x.2 |}) _). by intros [].
Defined.
#[export] Instance ReadSite_countable : Countable ContractStateReadSite.
Proof.
  refine (inj_countable' (λ c, (crs_target c, crs_state c))
    (λ x, {| crs_target := x.1; crs_state := x.2 |}) _). by intros [].
Defined.
#[export] Instance cmp_EffectKind : Cmp EffectKind :=
  λ x y, cmp (encode_EffectKind x) (encode_EffectKind y).
#[export] Instance cmp_CallSite : Cmp ContractCallSite :=
  λ x y, cmp (site_code (ccs_target x), ccs_method x) (site_code (ccs_target y), ccs_method y).
#[export] Instance cmp_ReadSite : Cmp ContractStateReadSite :=
  λ x y, cmp (site_code (crs_target x), crs_state x) (site_code (crs_target y), crs_state y).

Definition site_source (t : ContractCallSiteTarget) : string :=
  match t with SiteExact target | SiteDynamic target => target end.
Record InferredActionEffects := {
  inf_effects : gset EffectKind;
  inf_writes : gset string;
  inf_registry_accesses : gset string;
  inf_contract_calls : gset ContractCallSite;
  inf_contract_state_reads : gset ContractStateReadSite;
}.
Definition no_effects : InferredActionEffects :=
  {| inf_effects := ∅; inf_writes := ∅; inf_registry_accesses := ∅; inf_contract_calls := ∅;
     inf_contract_state_reads := ∅ |}.
Definition merge_effects (i j : InferredActionEffects) : InferredActionEffects :=
  {| inf_effects := inf_effects i ∪ inf_effects j; inf_writes := inf_writes i ∪ inf_writes j;
     inf_registry_accesses := inf_registry_accesses i ∪ inf_registry_accesses j;
     inf_contract_calls := inf_contract_calls i ∪ inf_contract_calls j;
     inf_contract_state_reads := inf_contract_state_reads i ∪ inf_contract_state_reads j |}.

Definition inferred_contract_site_target (target : Expr) : ContractCallSiteTarget :=
  match target with
  | Atom atom =>
      if bool_decide (is_Some (strip_dollar atom)) then SiteDynamic atom
      else if bool_decide (atom = "current-contract") then SiteDynamic atom
      else SiteExact atom
  | ExprList _ => SiteDynamic (canonical_expr target)
  end.
(** [args] are the items behind the head. *)
Definition inferred_contract_call_site (args : list Expr) : option ContractCallSite :=
  match args with
  | target :: Atom method :: _ =>
      Some {| ccs_target := inferred_contract_site_target target; ccs_method := method |}
  | _ => None
  end.
Definition inferred_contract_state_read_site (args : list Expr) : option ContractStateReadSite :=
  match args with
  | target :: Atom state :: _ =>
      Some {| crs_target := inferred_contract_site_target target; crs_state := state |}
  | _ => None
  end.
Definition first_atom (args : list Expr) : gset string :=
  match args with Atom atom :: _ => {[atom]} | _ => ∅ end.
Definition effect (e : EffectKind) : InferredActionEffects :=
  {| inf_effects := {[e]}; inf_writes := ∅; inf_registry_accesses := ∅; inf_contract_calls := ∅;
     inf_contract_state_reads := ∅ |}.
Definition registry_effect (e : EffectKind) (args : list Expr) : InferredActionEffects :=
  {| inf_effects := {[e]}; inf_writes := ∅; inf_registry_accesses := first_atom args;
     inf_contract_calls := ∅; inf_contract_state_reads := ∅ |}.
(** The [match head] of [infer_expr_effects]: what a host operation records,
    [None] for every other head. *)
Definition operation_effects (head : string) (args : list Expr) : option InferredActionEffects :=
  if bool_decide (head = "state-get") then Some (effect FxReadState)
  else if bool_decide (head = "contract-state-get") then
    Some {| inf_effects := {[FxReadState]}; inf_writes := ∅; inf_registry_accesses := ∅;
            inf_contract_calls := ∅;
            inf_contract_state_reads :=
              match inferred_contract_state_read_site args with Some r => {[r]} | None => ∅ end |}
  else if bool_decide (head = "state-set!") then
    Some {| inf_effects := {[FxWriteState]}; inf_writes := first_atom args;
            inf_registry_accesses := ∅; inf_contract_calls := ∅; inf_contract_state_reads := ∅ |}
  else if bool_decide (head = "registry-get") then Some (registry_effect FxReadRegistry args)
  else if bool_decide (head = "registry-set!") then Some (registry_effect FxWriteRegistry args)
  else if bool_decide (head = "registry-consume!") then
    Some (registry_effect FxConsumeRegistryGrant args)
  else if bool_decide (head = "emit!") then Some (effect FxEmitEvent)
  else if bool_decide (head = "call-contract!") then
    Some {| inf_effects := {[FxCallContract]}; inf_writes := ∅; inf_registry_accesses := ∅;
            inf_contract_calls :=
              match inferred_contract_call_site args with Some c => {[c]} | None => ∅ end;
            inf_contract_state_reads := ∅ |}
  else if bool_decide (head = "deploy-contract!") then Some (effect FxDeployContract)
  else if bool_decide (head = "schedule-upgrade!") then Some (effect FxScheduleUpgrade)
  else if bool_decide (head = "execute-upgrade!") then Some (effect FxExecuteUpgrade)
  else if bool_decide (head = "cross-shard-outbox-append!") then
    Some (effect FxCrossShardOutboxAppend)
  else if bool_decide (head = "permit-verify!") then Some (effect FxUsePermitCertificate)
  else if bool_decide (head = "bridge-verify!") then Some (effect FxUseBridgeCertificate)
  else if bool_decide (head = "abort") then Some (effect FxAbort)
  else None.
Definition is_action_definition_expr (names : gmap string (gset string)) (items : list Expr) : bool :=
  match items with
  | _ :: ExprList (Atom name :: _) :: _ => bool_decide (is_Some (names !! name))
  | _ => false
  end.

(** [(visited, inferred)] threaded through the inference. *)
Abbreviation infer_state := (gset string * InferredActionEffects)%type.
Section infer.
Context (names : gmap string (gset string)).
Context (infer_action : string → infer_state → verified infer_state).

Fixpoint infer_expr_effects (expr : Expr) (st : infer_state) : verified infer_state :=
  match expr with
  | Atom _ => Ok st
  | ExprList items =>
      let all := (fix go items st := match items with
        | [] => Ok st
        | item :: items => let* st := infer_expr_effects item st in go items st
        end) in
      match items with
      | Atom head :: args =>
          match bool_decide (head = "=") && is_action_definition_expr names items, args with
          | true, [_; body] => infer_expr_effects body st
          | _, _ =>
              let* st :=
                match operation_effects head args with
                | Some inferred => Ok (st.1, merge_effects inferred st.2)
                | None => fold_outcome (λ st key, infer_action key st)
                            (set_iter (default ∅ (names !! head))) st
                end in
              all args st
          end
      | _ => all items st
      end
  end.
End infer.
Fixpoint infer_action_effects (fuel : nat) (ir : AspectModuleIr) (names : gmap string (gset string))
    (key : string) (st : infer_state) : verified infer_state :=
  match fuel with
  | O => OutOfFuel
  | S fuel =>
      if decide (key ∈ st.1) then Ok st else
      let st := ({[key]} ∪ st.1, st.2) in
      match ir_actions ir !! key with
      | Some {| act_body := Some body |} =>
          infer_expr_effects names (infer_action_effects fuel ir names) body st
      | _ => Ok st
      end
  end.
Definition infer_fuel (ir : AspectModuleIr) : nat := S (size (ir_actions ir)).

(** ** Policies against inferred effects *)
Definition call_target_allows (allowed : ContractCallTarget) (site : ContractCallSiteTarget) : bool :=
  match allowed, site with
  | TargetAny, _ => true
  | TargetExact allowed, SiteExact target => bool_decide (allowed = target)
  | TargetExact _, SiteDynamic _ => false
  end.
Definition contract_call_allowed (call : ContractCallSite) (allowlist : gset ContractCallPattern) : bool :=
  existsb (λ allowed, bool_decide (ccp_method allowed = ccs_method call)
                      && call_target_allows (ccp_target allowed) (ccs_target call)) (elements allowlist).
Definition contract_state_read_allowed (read : ContractStateReadSite)
    (allowlist : gset ContractStateReadPattern) : bool :=
  existsb (λ allowed, bool_decide (crp_state allowed = crs_state read)
                      && call_target_allows (crp_target allowed) (crs_target read)) (elements allowlist).
Definition invariant_in_closure (closure : gset string) (found : option InvariantDef)
    : option InvariantDef :=
  invariant ← found; if decide (inv_aspect invariant ∈ closure) then Some invariant else None.
Definition invariant_for_policy_ref (ir : AspectModuleIr) (closures : gmap string (gset string))
    (bundle invariant_ref : string) : option InvariantDef :=
  closure ← closures !! bundle;
  match invariant_in_closure closure (ir_invariants ir !! invariant_ref) with
  | Some invariant => Some invariant
  | None =>
      match invariant_in_closure closure
              ('(aspect, invariant) ← split_once_colons invariant_ref;
               ir_invariants ir !! qualified aspect invariant) with
      | Some invariant => Some invariant
      | None =>
          match filter (λ i, inv_invariant i = invariant_ref ∧ inv_aspect i ∈ closure)
                  (values (ir_invariants ir)) with
          | [invariant] => Some invariant
          | _ => None
          end
      end
  end.
Definition state_owned_by_bundle (ir : AspectModuleIr) (closures : gmap string (gset string))
    (bundle state : string) : bool :=
  match closures !! bundle with
  | None => false
  | Some closure => existsb (λ s, bool_decide (ss_state s = state)
      && bool_decide (ss_aspect s ∈ closure)) (values (ir_storage_schema ir))
  end.
Definition registry_owned_by_bundle (ir : AspectModuleIr) (closures : gmap string (gset string))
    (bundle registry : string) : bool :=
  match closures !! bundle with
  | None => false
  | Some closure => existsb (λ s, bool_decide (rs_registry s = registry)
      && bool_decide (rs_aspect s ∈ closure)) (values (ir_registry_schema ir))
  end.

(** The effects of the action a projection runs, and the reads of the
    invariants its policy names. *)
Definition infer_projection_effects (ir : AspectModuleIr) (closures : gmap string (gset string))
    (p : ProjectionDef) (policy : MethodPolicyIr) (action : ActionDef)
    : verified InferredActionEffects :=
  let names := action_names ir in
  let infer_action := infer_action_effects (infer_fuel ir) ir names in
  let* st := infer_action (action_key action) (∅, no_effects) in
  fold_outcome (λ inferred invariant_ref,
    match invariant_for_policy_ref ir closures (pd_bundle p) invariant_ref with
    | None => Ok inferred
    | Some invariant =>
        let* inv := infer_expr_effects names infer_action (inv_expr invariant) (∅, no_effects) in
        Ok {| inf_effects := inf_effects inferred; inf_writes := inf_writes inferred;
              inf_registry_accesses := inf_registry_accesses inferred;
              inf_contract_calls := inf_contract_calls inferred;
              inf_contract_state_reads :=
                inf_contract_state_reads inferred ∪ inf_contract_state_reads inv.2 |}
    end) (set_iter (mpi_invariants policy)) st.2.
Definition check_inferred (ir : AspectModuleIr) (closures : gmap string (gset string))
    (p : ProjectionDef) (policy : MethodPolicyIr) (inferred : InferredActionEffects) : verified () :=
  let bundle := pd_bundle p in
  let projection := pd_projection p in
  do* each (λ effect, ensure (bool_decide (effect ∈ mpi_effects policy))
        (VfUndeclaredEffect bundle projection effect)) (set_iter (inf_effects inferred)) in
  do* ensure (negb (bool_decide (FxCallContract ∈ inf_effects inferred)
                    && bool_decide (mpi_call_allowlist policy = ∅)))
        (VfMissingCallAllowlist bundle projection) in
  do* each (λ call, ensure (contract_call_allowed call (mpi_call_allowlist policy))
        (VfUnauthorizedContractCall bundle projection (site_source (ccs_target call)) (ccs_method call)))
        (set_iter (inf_contract_calls inferred)) in
  do* ensure (negb (negb (bool_decide (inf_contract_state_reads inferred = ∅))
                    && bool_decide (mpi_read_allowlist policy = ∅)))
        (VfMissingReadAllowlist bundle projection) in
  do* each (λ read, ensure (contract_state_read_allowed read (mpi_read_allowlist policy))
        (VfUnauthorizedContractStateRead bundle projection (site_source (crs_target read))
           (crs_state read))) (set_iter (inf_contract_state_reads inferred)) in
  do* each (λ state, ensure (state_owned_by_bundle ir closures bundle state)
        (VfStateWriteOutOfScope bundle projection state)) (set_iter (inf_writes inferred)) in
  each (λ registry, ensure (registry_owned_by_bundle ir closures bundle registry)
    (VfRegistryAccessOutOfScope bundle projection registry)) (set_iter (inf_registry_accesses inferred)).
Definition verify_projection_effects (ir : AspectModuleIr) (closures : gmap string (gset string))
    (p : ProjectionDef) : verified () :=
  let* policy := ok_or (ir_policies ir !! qualified (pd_bundle p) (pd_projection p))
                   (VfMissingProjectionPolicy (pd_bundle p) (pd_projection p)) in
  let* target := ok_or (projection_target_action (pd_expr p))
                   (VfProjectionTargetUnsupported (pd_bundle p) (pd_projection p)) in
  let* action := ok_or (action_for_projection_target ir closures (pd_bundle p) target)
                   (VfProjectionTargetUnsupported (pd_bundle p) (pd_projection p)) in
  let* inferred := infer_projection_effects ir closures p policy action in
  check_inferred ir closures p policy inferred.
Definition verify_effects_and_write_scopes (ir : AspectModuleIr)
    (closures : gmap string (gset string)) : verified () :=
  each (verify_projection_effects ir closures) (values (ir_projections ir)).

(** ** The verifier *)
Record VerifiedAspectModule := {
  vm_ir : AspectModuleIr;
  vm_bundle_aspect_closures : gmap string (gset string);
  vm_roots : AspectArtifactRoots;
}.
Definition ASPECT_SOURCE_SCHEMA : string := "detta.aspect-source.v1".
Definition ASPECT_SOURCE_SCHEMA_VERSION : N := 1.
Definition ASPECT_LANGUAGE : string := "detta-aspect-metta.v1".
Record AspectModuleArtifact := {
  art_schema : string; art_schema_version : N; art_module_id : string; art_taxonomy_version : string;
  art_accepted_language : string; art_verifier_version : string; art_source_root : string;
  art_canonical_source : string; art_ir_root : string; art_abi_root : string;
  art_policy_root : string; art_storage_schema_root : string; art_registry_schema_root : string;
  art_invariant_root : string;
}.
Section verify.
Context `{Host}.

Definition sha256_json `{Serialize T} (value : T) : string := sha256_hex (canonical_bytes value).
Definition artifact_roots (ir : AspectModuleIr) : AspectArtifactRoots :=
  {| ar_ir_root := sha256_json ir; ar_abi_root := sha256_json (ir_abi ir);
     ar_policy_root := sha256_json (ir_policies ir);
     ar_storage_schema_root := sha256_json (ir_storage_schema ir);
     ar_registry_schema_root := sha256_json (ir_registry_schema ir);
     ar_invariant_root := sha256_json (ir_invariants ir) |}.
Definition verify_module (ir : AspectModuleIr) : verified VerifiedAspectModule :=
  do* verify_references ir in
  do* verify_type_expressions ir in
  do* verify_action_declarations ir in
  do* verify_state_ownership ir in
  do* verify_registry_ownership ir in
  do* verify_action_call_graph ir in
  let* closures := bundle_aspect_closures ir in
  do* verify_required_facets ir closures in
  do* verify_conflicts ir closures in
  do* verify_projections ir closures in
  do* verify_projection_abi_and_policy ir in
  do* verify_effects_and_write_scopes ir closures in
  Ok {| vm_ir := ir; vm_bundle_aspect_closures := closures; vm_roots := artifact_roots ir |}.
Definition module_artifact (module_id canonical_source : string) (module : VerifiedAspectModule)
    : AspectModuleArtifact :=
  let ir := vm_ir module in
  let roots := vm_roots module in
  {| art_schema := ASPECT_SOURCE_SCHEMA; art_schema_version := ASPECT_SOURCE_SCHEMA_VERSION;
     art_module_id := module_id; art_taxonomy_version := ir_taxonomy_version ir;
     art_accepted_language := ASPECT_LANGUAGE; art_verifier_version := "detta-aspects-0";
     art_source_root := ir_source_root ir; art_canonical_source := canonical_source;
     art_ir_root := ar_ir_root roots; art_abi_root := ar_abi_root roots;
     art_policy_root := ar_policy_root roots; art_storage_schema_root := ar_storage_schema_root roots;
     art_registry_schema_root := ar_registry_schema_root roots;
     art_invariant_root := ar_invariant_root roots |}.
Definition parse_verify_module (source : string)
    : verified (string * AspectModuleIr * VerifiedAspectModule) :=
  let* ast := match parse_aspect_package source with
              | Ok ast => Ok ast | Err error => Err (VfParse error)
              | Panic => Panic | OutOfFuel => OutOfFuel
              end in
  let canonical := canonical_aspect_source ast in
  let* ir := lower_to_ir ast in
  let* verified := verify_module ir in
  Ok (canonical, ir, verified).
End verify.

(** ** Verification ends *)
Lemma total_verify_type_expr ts c e : total (verify_type_expr ts c e).
Proof.
  induction e as [a|items IH] using Expr_nested_ind; simpl; [auto with total|].
  induction IH; auto with total.
Qed.
Lemma total_abi_args ts abi : total (verify_abi_args ts abi).
Proof.
  unfold verify_abi_args. destruct (abi_args abi) as [|[|h items]]; auto with total.
  apply total_bind; [auto with total|]. intros _ _. apply total_each.
  intros [|[|[] [|? []]]]; auto using total_verify_type_expr with total.
Qed.
Lemma total_references ir : total (verify_references ir).
Proof.
  unfold verify_references, known_aspect, known_bundle.
  repeat first [apply total_bind; [|intros _ _] | apply total_each; intros ? | by auto with total].
Qed.
Lemma total_type_expressions ir : total (verify_type_expressions ir).
Proof.
  unfold verify_type_expressions.
  repeat first [apply total_bind; [|intros _ _] | apply total_each; intros ?
               | by auto using total_verify_type_expr, total_abi_args].
Qed.
Lemma total_single_owner err owners claims : total (single_owner err owners claims).
Proof.
  revert owners. induction claims as [|[n a] l IH]; intros owners; simpl; [by split|].
  destruct (owners !! n); [by split|apply IH].
Qed.

(** The search for cycles ends: a name being visited is not entered again. *)
Lemma cycle_restores fuel graph action v :
  (size (dom graph ∖ v.1) < fuel)%nat → restores v.1 (detect_action_cycle fuel graph action v).
Proof.
  revert action v. induction fuel as [|fuel IH]; intros action v Hs; [lia|]. simpl.
  case_decide as Hv; [split; [by split|by intros ? [= <-]]|].
  case_decide as Hin; [split; [by split|done]|].
  destruct (graph !! action) as [callees|] eqn:Hg; simpl.
  - apply size_visit with (x := action) in Hs; [|by apply elem_of_dom_2 in Hg|done].
    destruct (fold_restores (λ v callee, detect_action_cycle fuel graph callee v) ({[action]} ∪ v.1)
      (set_iter callees) ({[action]} ∪ v.1, v.2)) as [Ht Hok]; [|done|].
    { intros v' x Hv'. rewrite <- Hv'. apply IH. by rewrite Hv'. }
    destruct (fold_outcome _ _ _) as [v'| | |]; simpl; [|by split; [split|]|by destruct Ht..].
    split; [by split|]. intros ? [= <-]. simpl. rewrite (Hok v' eq_refl). set_solver.
  - split; [by split|]. intros ? [= <-]. simpl. set_solver.
Qed.
Lemma total_action_call_graph ir : total (verify_action_call_graph ir).
Proof.
  unfold verify_action_call_graph. apply total_each. intros action.
  apply total_bind; [|auto with total].
  apply (cycle_restores _ _ action (∅, ∅)). unfold graph_fuel. simpl. rewrite difference_empty_L, size_dom. lia.
Qed.

(** ** The inference as a fold

    What the inference of an expression does, in order: recording the effects
    of an operation and visiting the actions of a call. *)
Inductive infer_item := Records (inferred : InferredActionEffects) | Visits (key : string).
Definition infer_do (infer_action : string → infer_state → verified infer_state)
    (st : infer_state) (item : infer_item) : verified infer_state :=
  match item with
  | Records inferred => Ok (st.1, merge_effects inferred st.2)
  | Visits key => infer_action key st
  end.
Fixpoint expr_items (names : gmap string (gset string)) (expr : Expr) : list infer_item :=
  match expr with
  | Atom _ => []
  | ExprList items =>
      let all := (fix go items := match items with
        | [] => []
        | item :: items => expr_items names item ++ go items
        end) in
      match items with
      | Atom head :: args =>
          match bool_decide (head = "=") && is_action_definition_expr names items, args with
          | true, [_; body] => expr_items names body
          | _, _ =>
              match operation_effects head args with
              | Some inferred => [Records inferred]
              | None => Visits <$> set_iter (default ∅ (names !! head))
              end ++ all args
          end
      | _ => all items
      end
  end.
Lemma infer_expr_fold names infer_action e st :
  infer_expr_effects names infer_action e st = fold_outcome (infer_do infer_action) (expr_items names e) st.
Proof.
  revert st. induction e as [a|items IH] using Expr_nested_ind; intros st; [done|].
  assert (Hall : ∀ st, (fix go items st := match items with
        | [] => Ok st
        | item :: items => let* st := infer_expr_effects names infer_action item st in go items st
        end) items st = fold_outcome (infer_do infer_action) ((fix go items := match items with
        | [] => []
        | item :: items => expr_items names item ++ go items
        end) items) st).
  { clear -IH. induction IH as [|x l Hx _ IHl]; intros st; [done|].
    rewrite fold_outcome_app, <- Hx. destruct (infer_expr_effects _ _ x st); simpl; auto. }
  destruct items as [|[head|l] args]; [done| |exact (Hall st)]. specialize (Hall) as Hargs. simpl in Hargs.
  inversion IH as [|?? _ Hl]; subst. cbn [infer_expr_effects expr_items].
  assert (Hd : ∀ o items, o = fold_outcome (infer_do infer_action) items st →
    (let* st := o in (fix go items st := match items with
        | [] => Ok st
        | item :: items => let* st := infer_expr_effects names infer_action item st in go items st
        end) args st) = fold_outcome (infer_do infer_action) (items ++ (fix go items := match items with
        | [] => []
        | item :: items => expr_items names item ++ go items
        end) args) st).
  { intros o its ->. rewrite fold_outcome_app. destruct (fold_outcome _ its st); simpl; auto. }
  assert (Hop : match operation_effects head args with
     | Some inferred => Ok (st.1, merge_effects inferred st.2)
     | None => fold_outcome (λ st key, infer_action key st) (set_iter (default ∅ (names !! head))) st
     end = fold_outcome (infer_do infer_action) (match operation_effects head args with
              | Some inferred => [Records inferred]
              | None => Visits <$> set_iter (default ∅ (names !! head))
              end) st).
  { destruct (operation_effects head args); [done|]. generalize (set_iter (default ∅ (names !! head))).
    clear. intros l. revert st. induction l; intros st; simpl; [done|].
    destruct (infer_action _ st); simpl; auto. }
  destruct (_ && _); [|by apply Hd]. destruct args as [|a1 [|body [|]]]; try by apply Hd.
  inversion Hl as [|?? _ Hb]; subst. inversion Hb; auto.
Qed.

(** The inference ends: the visited actions only grow. *)
Definition grows (st : infer_state) (o : verified infer_state) : Prop :=
  total o ∧ ∀ st', o = Ok st' → st.1 ⊆ st'.1.
Lemma grows_fold infer_action (P : gset string → Prop) l st :
  (∀ X Y, P X → X ⊆ Y → P Y) → (∀ key st, P st.1 → grows st (infer_action key st)) →
  P st.1 → grows st (fold_outcome (infer_do infer_action) l st).
Proof.
  intros Hmono Hi. revert st. induction l as [|x l IH]; intros st HP; simpl.
  { split; [by split|]. by intros ? [= <-]. }
  assert (Hx : grows st (infer_do infer_action st x)).
  { destruct x; simpl; [|by apply Hi]. split; [by split|]. by intros ? [= <-]. }
  destruct Hx as [Ht Hok]. destruct (infer_do _ st x) as [st1|e| |]; simpl; [|by split; [split|]|by destruct Ht..].
  specialize (Hok _ eq_refl). destruct (IH st1) as [Ht' Hok']; [by eapply Hmono|].
  split; [done|]. intros st2 H2. etrans; [done|by apply Hok'].
Qed.
Lemma infer_action_grows fuel ir names key st :
  (size (dom (ir_actions ir) ∖ st.1) < fuel)%nat → grows st (infer_action_effects fuel ir names key st).
Proof.
  revert key st. induction fuel as [|fuel IH]; intros key st Hs; [lia|]. simpl.
  case_decide as Hin; [split; [by split|by intros ? [= <-]]|].
  destruct (ir_actions ir !! key) as [[asp act decl [body|]]|] eqn:Ha; simpl;
    try by (split; [by split|intros ? [= <-]; simpl; set_solver]).
  apply size_visit with (x := key) in Hs; [|by apply elem_of_dom_2 in Ha|done].
  rewrite infer_expr_fold.
  edestruct (grows_fold (infer_action_effects fuel ir names)
    (λ X, (size (dom (ir_actions ir) ∖ X) < fuel)%nat) (expr_items names body) ({[key]} ∪ st.1, st.2))
    as [Ht Hok]; [|done|done|].
  { intros X Y HX HXY. eapply Nat.le_lt_trans; [|done]. apply subseteq_size. set_solver. }
  split; [done|]. intros st' Hst. apply Hok in Hst. set_solver.
Qed.
Lemma total_infer_items ir names l :
  total (fold_outcome (infer_do (infer_action_effects (infer_fuel ir) ir names)) l (∅, no_effects)).
Proof.
  eapply (grows_fold _ (λ X, (size (dom (ir_actions ir) ∖ X) < infer_fuel ir)%nat)).
  - intros X Y HX HXY. eapply Nat.le_lt_trans; [|done]. apply subseteq_size. set_solver.
  - intros key st. apply infer_action_grows.
  - unfold infer_fuel. simpl. rewrite difference_empty_L, size_dom. lia.
Qed.
Lemma total_infer_projection ir closures p policy action :
  total (infer_projection_effects ir closures p policy action).
Proof.
  unfold infer_projection_effects. cbv zeta. apply total_bind.
  { apply (infer_action_grows _ ir _ _ (∅, no_effects)). unfold infer_fuel. simpl.
    rewrite difference_empty_L, size_dom. lia. }
  intros st _. apply total_fold_outcome. intros i r.
  destruct (invariant_for_policy_ref _ _ _ _) as [inv|]; [|auto with total].
  apply total_bind; [|auto with total]. rewrite infer_expr_fold. apply total_infer_items.
Qed.
Ltac total_loops :=
  intros;
  first [ solve [auto using total_bundle_closure, total_infer_projection with total]
        | first [apply total_each | apply total_bind | apply total_fold_outcome
                | match goal with |- total (match ?x with _ => _ end) => destruct x end];
          [total_loops..] ].
Lemma total_verify_module `{Host} ir : total (verify_module ir).
Proof.
  unfold verify_module.
  apply total_bind; [apply total_references|intros _ _].
  apply total_bind; [apply total_type_expressions|intros _ _].
  apply total_bind; [unfold verify_action_declarations; total_loops|intros _ _].
  apply total_bind; [apply total_single_owner|intros _ _].
  apply total_bind; [apply total_single_owner|intros _ _].
  apply total_bind; [apply total_action_call_graph|intros _ _].
  apply total_bind; [unfold bundle_aspect_closures; total_loops|intros closures _].
  apply total_bind; [unfold verify_required_facets; total_loops|intros _ _].
  apply total_bind; [unfold verify_conflicts; total_loops|intros _ _].
  apply total_bind; [unfold verify_projections; total_loops|intros _ _].
  apply total_bind; [unfold verify_projection_abi_and_policy; cbv zeta; total_loops|intros _ _].
  apply total_bind; [|auto with total].
  unfold verify_effects_and_write_scopes, verify_projection_effects, check_inferred. cbv zeta. total_loops.
Qed.
Lemma total_parse_verify_module `{Host} source : total (parse_verify_module source).
Proof.
  unfold parse_verify_module. apply total_bind.
  { destruct (total_parse_aspect_package source). by destruct (parse_aspect_package source). }
  intros ast _. cbv zeta. apply total_bind; [apply total_lower_to_ir|]. intros ir _.
  apply total_bind; [apply total_verify_module|auto with total].
Qed.
#[export] Hint Resolve total_verify_module total_parse_verify_module : total.

(** C36. Parsing, lowering and verifying any source ends with a verified module
    or an error: no input panics and no cycle among aspects, bundles or
    actions keeps the verifier running. *)
Theorem verification_terminates `{Host} source :
  (∃ result, parse_verify_module source = Ok result) ∨ (∃ error, parse_verify_module source = Err error).
Proof. destruct (total_parse_verify_module source). destruct (parse_verify_module source); eauto; done. Qed.
