(* ===== verification/AspectWellFormed.v ===== *)
(** * AspectWellFormed: what verification establishes of a module

    The structural checks of [verify_module] against their meaning: the
    search of [detect_action_cycle] finds a cycle of the calls between actions
    exactly when there is one, the traversal behind a bundle's closure
    collects exactly the aspects reachable from it, and an accepted module
    satisfies every condition the checks are for. *)
From S2P Require Import Prelude Effects Merkle Types State AspectRuntime AspectSource.
From S2P Require Import AspectClosure AspectLower AspectVerify.

(** ** The action call graph *)
Section graph.
Context (graph : gmap string (gset string)).
Definition calls (a b : string) : Prop := ∃ callees, graph !! a = Some callees ∧ b ∈ callees.
Lemma calls_lookup a b : calls a b ↔ b ∈ default ∅ (graph !! a).
Proof.
  unfold calls. destruct (graph !! a) as [X|]; simpl; [|set_solver].
  split; [by intros (? & [= ->] & ?)|eauto].
Qed.

(** A successful search leaves the path as it was. *)
Lemma fold_path (f : visit → string → verified visit) l u w :
  (∀ u x u', f u x = Ok u' → u'.1 = u.1) → fold_outcome f l u = Ok w → w.1 = u.1.
Proof.
  intros Hf. apply (fold_outcome_inv (λ w, w.1 = u.1)); [|done]. intros u1 x u2 _ <- H. by apply Hf in H.
Qed.
Lemma search_path fuel action v v' : detect_action_cycle fuel graph action v = Ok v' → v'.1 = v.1.
Proof.
  revert action v v'. induction fuel as [|fuel IH]; intros action v v'; simpl; [done|].
  case_decide; [by intros [= <-]|]. case_decide; [done|].
  intros (w & Hw & [= <-])%outcome_bind_Ok. apply fold_path in Hw; [|by eauto]. simpl in *. set_solver.
Qed.

(** The visited set of a successful search: closed under calls, off the path
    and free of cycles. *)
Record searched (v : visit) : Prop := {
  sr_closed a b : a ∈ v.2 → calls a b → b ∈ v.2;
  sr_off_path : v.1 ## v.2;
  sr_acyclic a : a ∈ v.2 → ¬ tc calls a a;
}.
Lemma searched_reach v a b : searched v → a ∈ v.2 → tc calls a b → b ∈ v.2.
Proof. intros Hs Ha Ht. induction Ht; eauto using sr_closed. Qed.
Lemma search_sound fuel action v v' :
  searched v → detect_action_cycle fuel graph action v = Ok v' →
  searched v' ∧ v'.1 = v.1 ∧ v.2 ⊆ v'.2 ∧ action ∈ v'.2.
Proof.
  revert action v v'. induction fuel as [|fuel IH]; intros action v v' Hs; simpl; [done|].
  case_decide as Hd; [by intros [= <-]|]. case_decide as Hp; [done|].
  intros (w & Hw & [= <-])%outcome_bind_Ok. simpl.
  assert (Hf : ∀ l u, searched u → u.1 = {[action]} ∪ v.1 → fold_outcome
      (λ v callee, detect_action_cycle fuel graph callee v) l u = Ok w →
    searched w ∧ w.1 = {[action]} ∪ v.1 ∧ u.2 ⊆ w.2 ∧ ∀ x, x ∈ l → x ∈ w.2).
  { induction l as [|x l IHl]; intros u Hu Hu1; simpl; [intros [= <-]; set_solver|].
    intros (u' & H1 & H2)%outcome_bind_Ok. destruct (IH _ _ _ Hu H1) as (Hu' & E1 & E2 & E3).
    destruct (IHl u') as (? & ? & ? & ?); [done|congruence|done|]. split_and!; try done; [by etrans|].
    intros y [->|]%elem_of_cons; set_solver. }
  destruct (Hf _ _ (Build_searched ({[action]} ∪ v.1, v.2) (sr_closed _ Hs) ltac:(simpl; pose proof
    (sr_off_path _ Hs); set_solver) (sr_acyclic _ Hs)) eq_refl Hw) as (Hsw & Hw1 & Hw2 & Hcal).
  simpl in *. pose proof (sr_off_path _ Hsw) as Hoff. rewrite Hw1 in *.
  assert (Hcl : ∀ b, calls action b → b ∈ w.2).
  { intros b Hb%calls_lookup. by apply Hcal, elem_of_set_iter. }
  assert (Hna : action ∉ w.2) by set_solver.
  split_and!; [|set_solver..]. split; simpl.
  - intros a b [->%elem_of_singleton|Ha]%elem_of_union Hab; [set_solver|].
    apply elem_of_union_r. by eapply sr_closed.
  - set_solver.
  - intros a [->%elem_of_singleton|Ha]%elem_of_union; [|by apply (sr_acyclic _ Hsw)].
    intros Ht. apply Hna.
    inversion Ht as [? ? Hc|? b ? Hc Hr]; subst; [by apply Hcl|].
    eapply searched_reach; [done|by apply Hcl|done].
Qed.
(** Every action on the path calls, through others, the one being searched;
    so a failed search names an action on a cycle. *)
Lemma search_error fuel action v error :
  (∀ x, x ∈ v.1 → tc calls x action) → detect_action_cycle fuel graph action v = Err error →
  ∃ a, error = VfReentrantActionCycle a ∧ tc calls a a.
Proof.
  revert action v. induction fuel as [|fuel IH]; intros action v Hpath; simpl; [done|].
  case_decide; [done|]. case_decide as Hp; [intros [= <-]; eauto|].
  assert (Hf : ∀ l u, (∀ x, x ∈ l → calls action x) → u.1 = {[action]} ∪ v.1 →
    fold_outcome (λ v callee, detect_action_cycle fuel graph callee v) l u = Err error →
    ∃ a, error = VfReentrantActionCycle a ∧ tc calls a a).
  { induction l as [|x l IHl]; intros u Hl Hu; simpl; [done|].
    destruct (detect_action_cycle fuel graph x u) as [u'|e| |] eqn:Hx; simpl; try done.
    - apply IHl; [set_solver|]. by apply search_path in Hx as ->.
    - intros [= ->]. eapply IH; [|exact Hx]. rewrite Hu.
      intros y [->%elem_of_singleton|Hy]%elem_of_union; [by apply tc_once, Hl, list_elem_of_here|].
      eapply tc_r; [by apply Hpath|apply Hl, list_elem_of_here]. }
  specialize (Hf (set_iter (default ∅ (graph !! action))) ({[action]} ∪ v.1, v.2)).
  destruct (fold_outcome _ _ _); try done. intros [= ->]. apply Hf; [|done|done].
  intros x Hx%elem_of_set_iter. by apply calls_lookup.
Qed.
End graph.

(** What a body calls: a form calls the action its head names, and whatever
    its arguments call; a head that is itself a form is not looked into.  Every
    equation [(= left body)] is taken for the definition of [left], of which
    only [body] counts. *)
Definition is_equation (head : Expr) (args : list Expr) : Prop := head = Atom "=" ∧ length args = 2%nat.
Inductive calls_name : Expr → string → Prop :=
| calls_head name args : ¬ is_equation (Atom name) args → calls_name (ExprList (Atom name :: args)) name
| calls_argument head args arg name : ¬ is_equation head args → arg ∈ args → calls_name arg name →
    calls_name (ExprList (head :: args)) name
| calls_body left body name : calls_name body name → calls_name (ExprList [Atom "="; left; body]) name.
(** Calls are by the action's bare name: every aspect's action of that name
    may be meant. *)
Definition action_calls (ir : AspectModuleIr) (a b : string) : Prop :=
  ∃ caller callee body, ir_actions ir !! a = Some caller ∧ ir_actions ir !! b = Some callee ∧
    act_body caller = Some body ∧ calls_name body (act_action callee).

(** The calls collected from an expression are those of its names. *)
Lemma calls_name_inv head args name :
  calls_name (ExprList (head :: args)) name →
  (¬ is_equation head args ∧ (head = Atom name ∨ ∃ arg, arg ∈ args ∧ calls_name arg name)) ∨
  ∃ left body, head = Atom "=" ∧ args = [left; body] ∧ calls_name body name.
Proof. inversion 1; subst; [left|left|right]; eauto 10. Qed.
Lemma collect_calls_spec names e key :
  key ∈ collect_action_calls names e ↔ ∃ name, calls_name e name ∧ key ∈ default ∅ (names !! name).
Proof.
  induction e as [a|items IH] using Expr_nested_ind.
  { simpl. split; [set_solver|]. intros (? & Hc & _). inversion Hc. }
  destruct items as [|head args]; [simpl; split; [set_solver|]; intros (? & Hc & _); inversion Hc|].
  apply Forall_cons in IH as [_ IH].
  set (all := fix go items := match items with
    | [] => ∅ | item :: items => collect_action_calls names item ∪ go items end).
  assert (Hall : key ∈ all args ↔ ∃ arg name, arg ∈ args ∧ calls_name arg name ∧ key ∈ default ∅ (names !! name)).
  { induction IH as [|x l Hx _ IHl]; simpl; [set_solver|]. rewrite elem_of_union, Hx, IHl. set_solver. }
  assert (Hform : ¬ is_equation head args →
    (∃ name, calls_name (ExprList (head :: args)) name ∧ key ∈ default ∅ (names !! name)) ↔
    key ∈ match head with Atom h => default ∅ (names !! h) | ExprList _ => ∅ end ∪ all args).
  { intros Hne. rewrite elem_of_union, Hall. split.
    - intros (name & [(_ & [->|(arg & Hin & Hc)])|(? & ? & -> & -> & _)]%calls_name_inv & Hk);
        [by left|right; eauto|by destruct Hne].
    - intros [Hk|(arg & name & Hin & Hc & Hk)]; [|exists name; split; [by eapply calls_argument|done]].
      destruct head as [h|]; [exists h; split; [by constructor|done]|set_solver]. }
  assert (is_equation head args ∨ ¬ is_equation head args) as [[-> Hlen]|Hne].
  { unfold is_equation. destruct head as [h|]; [|right; by intros [? _]].
    destruct (decide (h = "=" ∧ length args = 2%nat)) as [[-> ?]|Hn]; [by left|right].
    intros [[= ->] ?]. by apply Hn. }
  - destruct args as [|left [|body [|]]]; try done.
    apply Forall_cons in IH as [_ [Hb _]%Forall_cons]. change (collect_action_calls names (ExprList [Atom "="; left; body]))
      with (collect_action_calls names body). rewrite Hb. split.
    + intros (name & Hc & Hk). exists name. split; [by constructor|done].
    + intros (name & Hc & Hk). apply calls_name_inv in Hc as [[Hne _]|(? & ? & _ & [= <- <-] & Hc)]; [by destruct Hne|eauto].
  - specialize (Hform Hne). rewrite Hform.
    destruct head as [h|]; [|simpl; fold all; set_solver]. simpl. fold all.
    case_bool_decide; [|done]. destruct args as [|? [|? [|]]]; try done. subst. by destruct Hne.
Qed.
Lemma action_names_lookup ir name key :
  key ∈ default ∅ (action_names ir !! name) ↔
  ∃ a, a ∈ values (ir_actions ir) ∧ act_action a = name ∧ action_key a = key.
Proof.
  unfold action_names. induction (values (ir_actions ir)) as [|a l IH] using rev_ind; simpl; [set_solver|].
  rewrite foldl_app. simpl. destruct (decide (act_action a = name)) as [<-|Hne].
  - rewrite lookup_insert_eq. simpl. rewrite elem_of_union, elem_of_singleton, IH. set_solver.
  - rewrite lookup_insert_ne by done. rewrite IH. set_solver.
Qed.
(** The graph that is searched is the relation, for a module whose actions
    are filed under their names. *)
Lemma action_graph_calls ir a b : well_keyed ir → calls (action_graph ir) a b ↔ action_calls ir a b.
Proof.
  intros Hwk. assert (Hkey : ∀ k act, ir_actions ir !! k = Some act ↔ act ∈ values (ir_actions ir) ∧ action_key act = k).
  { intros k act. rewrite elem_of_values. split.
    - intros Hk. split; [eauto|]. symmetry. by apply (wk_actions _ Hwk).
    - intros [[k' Hk'] <-]. unfold action_key. by rewrite <- (wk_actions _ Hwk _ _ Hk'). }
  set (calls_of := λ act : ActionDef, match act_body act with
    | Some body => collect_action_calls (action_names ir) body | None => ∅ end).
  assert (Hgraph : ∀ X, action_graph ir !! a = Some X ↔ ∃ act, ir_actions ir !! a = Some act ∧ X = calls_of act).
  { intros X. unfold action_graph. fold calls_of. rewrite <- elem_of_list_to_map.
    - rewrite elem_of_reverse, list_elem_of_fmap. setoid_rewrite Hkey. split.
      + intros (act & [= -> ->] & Hin). by exists act.
      + intros (act & [Hin <-] & ->). by exists act.
    - rewrite fmap_reverse, <- list_fmap_compose, reverse_Permutation.
      replace (_ <$> values (ir_actions ir)) with (keys (ir_actions ir)); [apply NoDup_keys|unfold values; rewrite <- list_fmap_compose;
        apply list_fmap_ext; intros i [k act] Hi; simpl; symmetry; eapply Hkey, elem_of_entries, list_elem_of_lookup; eauto]. }
  unfold calls, action_calls. setoid_rewrite Hgraph. split.
  - intros (? & (act & Ha & ->) & Hb). unfold calls_of in Hb. destruct (act_body act) as [body|] eqn:Hbody; [|set_solver].
    apply collect_calls_spec in Hb as (name & Hc & (callee & Hin & <- & <-)%action_names_lookup).
    exists act, callee, body. split_and!; [done| |done..]. by apply Hkey.
  - intros (act & callee & body & Ha & [Hin <-]%Hkey & Hbody & Hc). exists (calls_of act). split; [eauto|].
    unfold calls_of. rewrite Hbody. apply collect_calls_spec. exists (act_action callee). split; [done|].
    apply action_names_lookup. by exists callee.
Qed.

(** C23. The check of the action call graph is exact: of a module lowered from
    source it passes if and only if no action reaches itself through calls,
    an action calling another when its body contains a form headed by the
    other's name; a check that fails names an action that does reach itself.
    Calls on the left of an equation, and in a head that is itself a form, do
    not count, although the evaluator runs an equation inside a body as a
    comparison of both sides. *)
Theorem call_graph_acyclic `{Sha256} ast ir :
  lower_to_ir ast = Ok ir →
  (verify_action_call_graph ir = Ok () ↔ ∀ action, ¬ tc (action_calls ir) action action) ∧
  (∀ error, verify_action_call_graph ir = Err error →
    ∃ action, error = VfReentrantActionCycle action ∧ tc (action_calls ir) action action).
Proof.
  intros Hwk%lower_well_keyed. set (graph := action_graph ir).
  assert (Htc : ∀ x y, tc (calls graph) x y ↔ tc (action_calls ir) x y).
  { intros x y. split; apply tc_congruence with (f := id); intros; by apply action_graph_calls. }
  assert (Herr : ∀ error, verify_action_call_graph ir = Err error →
    ∃ action, error = VfReentrantActionCycle action ∧ tc (calls graph) action action).
  { intros error. unfold verify_action_call_graph. cbv zeta. fold graph. intros (action & Hin & He)%each_Err.
    destruct (detect_action_cycle _ _ _ _) eqn:Hd; try done. injection He as ->.
    by apply search_error in Hd; [|set_solver]. }
  split; [|intros error He; destruct (Herr error He) as (action & -> & Ht); exists action; by rewrite <- Htc].
  setoid_rewrite <- Htc. split.
  - unfold verify_action_call_graph. cbv zeta. fold graph. intros Hv action Ht.
    assert (is_Some (graph !! action)) as [cs Hcs].
    { inversion Ht as [? ? (? & ? & _)|? ? ? (? & ? & _)]; eauto. }
    rewrite each_Ok in Hv. specialize (Hv action).
    rewrite elem_of_keys in Hv. specialize (Hv (mk_is_Some _ _ Hcs)).
    apply outcome_bind_Ok in Hv as (v & Hv & _).
    apply search_sound in Hv as (Hs & _ & _ & Hin); [by eapply sr_acyclic|].
    split; simpl; set_solver.
  - intros Hac. destruct (total_action_call_graph ir) as [Hp Hf].
    destruct (verify_action_call_graph ir) as [[]|error| |] eqn:Hv; try done.
    destruct (Herr error eq_refl) as (action & _ & Ht). by destruct (Hac action).
Qed.

(** ** The closure of a bundle

    The traversals follow every path that does not meet itself: a name is
    skipped only while it is on the path, and taken off it afterwards. *)
Inductive avoiding (R : relation string) : gset string → string → string → Prop :=
| avoiding_here P x : x ∉ P → avoiding R P x x
| avoiding_step P x y z : x ∉ P → R x y → avoiding R ({[x]} ∪ P) y z → avoiding R P x z.
Section avoiding.
Context (R : relation string).
Lemma avoiding_rtc P x z : avoiding R P x z → rtc R x z.
Proof. induction 1; [done|by eapply rtc_l]. Qed.
(** Cutting loops: a path either never meets [x] or has a shorter one from it. *)
Lemma path_cut (P : gset string) x n y z :
  nsteps (λ a b, R a b ∧ b ∉ P) n y z →
  (y ≠ x ∧ nsteps (λ a b, R a b ∧ b ∉ {[x]} ∪ P) n y z) ∨
  ∃ m, (m ≤ n)%nat ∧ nsteps (λ a b, R a b ∧ b ∉ P) m x z.
Proof.
  induction 1 as [y|n y y1 z [Hy Hni] Hr IH].
  - destruct (decide (y = x)) as [->|]; [right; exists O|left]; eauto using nsteps_O.
  - destruct (decide (y = x)) as [->|Hne]; [right; exists (S n); split; [done|by econstructor]|].
    destruct IH as [[Hne1 Hs]|(m & Hm & Hs)]; [left|right; exists m; split; [lia|done]].
    split; [done|]. econstructor; [|exact Hs]. set_solver.
Qed.
Lemma nsteps_avoiding n (P : gset string) x z : x ∉ P → nsteps (λ a b, R a b ∧ b ∉ P) n x z → avoiding R P x z.
Proof.
  revert P x. induction n as [n IH] using lt_wf_ind. intros P x Hx Hs.
  inversion Hs as [|n' ? y ? [Hxy Hy] Hr]; subst; [by constructor|].
  destruct (path_cut P x n' y z Hr) as [[Hne Hr']|(m & Hm & Hr')]; [|apply (IH m); [lia|done..]].
  eapply avoiding_step; [done..|]. apply (IH n'); [lia|set_solver|done].
Qed.
Lemma rtc_avoiding x z : rtc R x z ↔ avoiding R ∅ x z.
Proof.
  split; [|apply avoiding_rtc]. intros [n Hn]%rtc_nsteps. apply (nsteps_avoiding n); [set_solver|].
  revert Hn. apply (nsteps_congruence (R:=R) id). intros a b Hab. split; [done|set_solver].
Qed.
Lemma avoiding_inv P x z :
  avoiding R P x z ↔ x ∉ P ∧ (z = x ∨ ∃ y, R x y ∧ avoiding R ({[x]} ∪ P) y z).
Proof.
  split; [inversion 1; subst; eauto|].
  intros [Hx [->|(y & Hy & Ha)]]; [by constructor|by eapply avoiding_step].
Qed.
End avoiding.

Definition aspect_extends (ir : AspectModuleIr) (x y : string) : Prop :=
  ∃ a, ir_aspects ir !! x = Some a ∧ y ∈ ad_extends a.
Definition bundle_extends (ir : AspectModuleIr) (b c : string) : Prop :=
  ∃ d, ir_bundles ir !! b = Some d ∧ c ∈ bd_extends d.
(** The aspects of a bundle: those it or a bundle it extends includes, and
    the aspects these extend. *)
Definition bundle_includes (ir : AspectModuleIr) (b x : string) : Prop :=
  ∃ d y, ir_bundles ir !! b = Some d ∧ y ∈ bd_includes d ∧ rtc (aspect_extends ir) y x.
Definition bundle_contains (ir : AspectModuleIr) (b x : string) : Prop :=
  ∃ c, rtc (bundle_extends ir) b c ∧ bundle_includes ir c x.

Section closures.
Context {E : Type} (unknown_aspect unknown_bundle : string → E).
Lemma fold_collects (f : visit → string → outcome E visit) (reach : string → string → Prop) P l u w :
  (∀ u p u', u.1 = P → f u p = Ok u' → u'.1 = P ∧ ∀ x, x ∈ u'.2 ↔ x ∈ u.2 ∨ reach p x) →
  u.1 = P → fold_outcome f l u = Ok w →
  w.1 = P ∧ ∀ x, x ∈ w.2 ↔ x ∈ u.2 ∨ ∃ p, p ∈ l ∧ reach p x.
Proof.
  intros Hf. revert u. induction l as [|p l IH]; intros u Hu; simpl; [intros [= <-]; set_solver|].
  intros (u' & H1 & H2)%outcome_bind_Ok. destruct (Hf _ _ _ Hu H1) as [Hu' Hx].
  destruct (IH u' Hu' H2) as [Hw Hy]. split; [done|]. intros x. rewrite Hy, Hx. set_solver.
Qed.
Lemma collect_aspect_spec ir fuel id v v' :
  collect_aspect_with_parents unknown_aspect fuel ir id v = Ok v' →
  v'.1 = v.1 ∧ ∀ x, x ∈ v'.2 ↔ x ∈ v.2 ∨ avoiding (aspect_extends ir) v.1 id x.
Proof.
  revert id v v'. induction fuel as [|fuel IH]; intros id v v'; simpl; [done|].
  setoid_rewrite avoiding_inv. case_decide as Hin; [intros [= <-]; naive_solver|].
  intros (a & Ha%ok_or_Ok & (w & Hw & [= <-])%outcome_bind_Ok)%outcome_bind_Ok. simpl.
  apply (fold_collects _ (avoiding (aspect_extends ir) ({[id]} ∪ v.1)) ({[id]} ∪ v.1)) in Hw as [Hw1 Hw2];
    [|intros u p u' <- Hu; by apply IH|done].
  split; [set_solver|]. intros x. rewrite elem_of_union, elem_of_singleton, Hw2. simpl.
  setoid_rewrite elem_of_set_iter. unfold aspect_extends at 2. rewrite Ha. naive_solver.
Qed.
Lemma collect_bundle_spec ir fuel id v v' :
  collect_bundle_aspects unknown_aspect unknown_bundle fuel ir id v = Ok v' →
  v'.1 = v.1 ∧ ∀ x, x ∈ v'.2 ↔ x ∈ v.2 ∨ ∃ c, avoiding (bundle_extends ir) v.1 id c ∧ bundle_includes ir c x.
Proof.
  revert id v v'. induction fuel as [|fuel IH]; intros id v v'; cbn [collect_bundle_aspects]; [done|].
  setoid_rewrite avoiding_inv. case_decide as Hin; [intros [= <-]; naive_solver|].
  intros (d & Hd%ok_or_Ok & (w & Hw & (a & Ha & [= <-])%outcome_bind_Ok)%outcome_bind_Ok)%outcome_bind_Ok. simpl.
  apply (fold_collects _ (λ p x, ∃ c, avoiding (bundle_extends ir) ({[id]} ∪ v.1) p c ∧ bundle_includes ir c x)
    ({[id]} ∪ v.1)) in Hw as [Hw1 Hw2]; [|intros u p u' <- Hu; by apply IH|done].
  apply (fold_collects _ (rtc (aspect_extends ir)) ∅) in Ha as [_ Ha2];
    [|intros u p u' Hu Hc; apply collect_aspect_spec in Hc; rewrite Hu in Hc; by setoid_rewrite rtc_avoiding|done].
  split; [set_solver|]. intros x. rewrite Ha2. simpl. rewrite Hw2. simpl. setoid_rewrite elem_of_set_iter.
  split.
  - intros [[Hv|(p & Hp & c & Hc & Hi)]|(y & Hy & Hr)]; [by left| |].
    + right. exists c. split; [|done]. split; [done|]. right. exists p. split; [by exists d|done].
    + right. exists id. split; [by split; [|left]|]. by exists d, y.
  - intros [Hv|(c & [_ [->|(p & (d' & Hd' & Hp) & Hc)]] & Hi)]; [by left; left| |].
    + right. destruct Hi as (d' & y & Hd' & Hy & Hr). simplify_eq. eauto.
    + left. right. simplify_eq. eauto.
Qed.
Lemma bundle_closure_spec ir b closure :
  bundle_closure unknown_aspect unknown_bundle ir b = Ok closure →
  ∀ x, x ∈ closure ↔ bundle_contains ir b x.
Proof.
  unfold bundle_closure. intros (v & Hv & [= <-])%outcome_bind_Ok x.
  apply collect_bundle_spec in Hv as [_ Hv]. rewrite Hv. simpl. unfold bundle_contains.
  setoid_rewrite rtc_avoiding. set_solver.
Qed.
End closures.

(** ** Well-formed modules *)

(** A type expression all of whose names are known types, and the arguments
    of a signature: nothing, or named arguments of such types. *)
Inductive known_type (types : gset string) : Expr → Prop :=
| known_name name : name ∈ types → known_type types (Atom name)
| known_form items : Forall (known_type types) items → known_type types (ExprList items).
Definition known_args (types : gset string) (args : Expr) : Prop :=
  args = ExprList [] ∨ ∃ items, args = ExprList (Atom "args" :: items) ∧
    ∀ item, item ∈ items → ∃ name type, item = ExprList [Atom name; type] ∧ known_type types type.
Definition types_of (ir : AspectModuleIr) : gset string := builtin_types ∪ dom (ir_types ir).

Record well_formed (ir : AspectModuleIr) (closures : gmap string (gset string)) : Prop := {
  (** names resolve *)
  wf_aspect_parents k a x : ir_aspects ir !! k = Some a → x ∈ ad_extends a ∪ ad_conflicts a →
    is_Some (ir_aspects ir !! x);
  wf_bundle_parents k b x : ir_bundles ir !! k = Some b → x ∈ bd_extends b → is_Some (ir_bundles ir !! x);
  wf_bundle_includes k b x : ir_bundles ir !! k = Some b → x ∈ bd_includes b →
    is_Some (ir_aspects ir !! x);
  wf_action_aspect k a : ir_actions ir !! k = Some a → is_Some (ir_aspects ir !! act_aspect a);
  wf_storage_aspect k s : ir_storage_schema ir !! k = Some s → is_Some (ir_aspects ir !! ss_aspect s);
  wf_registry_aspect k s : ir_registry_schema ir !! k = Some s → is_Some (ir_aspects ir !! rs_aspect s);
  wf_invariant_aspect k i : ir_invariants ir !! k = Some i → is_Some (ir_aspects ir !! inv_aspect i);
  wf_projection_bundle k p : ir_projections ir !! k = Some p → is_Some (ir_bundles ir !! pd_bundle p);
  wf_abi_projection k abi : ir_abi ir !! k = Some abi →
    is_Some (ir_projections ir !! qualified (abi_bundle abi) (abi_projection abi));
  wf_policy_projection k policy : ir_policies ir !! k = Some policy →
    is_Some (ir_projections ir !! qualified (mpi_bundle policy) (mpi_projection policy));
  (** types are known *)
  wf_types k t : ir_types ir !! k = Some t → known_type (types_of ir) t;
  wf_storage_type k s : ir_storage_schema ir !! k = Some s → known_type (types_of ir) (ss_type_expr s);
  wf_registry_type k s : ir_registry_schema ir !! k = Some s → known_type (types_of ir) (rs_type_expr s);
  wf_signature k abi : ir_abi ir !! k = Some abi →
    known_args (types_of ir) (abi_args abi) ∧ known_type (types_of ir) (abi_return_type abi);
  (** a declared action for every body, one owner for every state and registry *)
  wf_declared k a : ir_actions ir !! k = Some a → act_declared a = true;
  wf_state_owner k k' s s' : ir_storage_schema ir !! k = Some s → ir_storage_schema ir !! k' = Some s' →
    ss_state s = ss_state s' → k = k';
  wf_registry_owner k k' s s' : ir_registry_schema ir !! k = Some s →
    ir_registry_schema ir !! k' = Some s' → rs_registry s = rs_registry s' → k = k';
  (** the closures are the aspects of the bundles *)
  wf_closure_dom b : is_Some (closures !! b) ↔ is_Some (ir_bundles ir !! b);
  wf_closure b closure x : closures !! b = Some closure → x ∈ closure ↔ bundle_contains ir b x;
  (** facets and conflicts within a bundle *)
  wf_facets b closure x a facet : closures !! b = Some closure → x ∈ closure →
    ir_aspects ir !! x = Some a → facet ∈ ad_requires a →
    ∃ y a', y ∈ closure ∧ ir_aspects ir !! y = Some a' ∧ facet ∈ ad_provides a';
  wf_conflicts b closure x a : closures !! b = Some closure → x ∈ closure →
    ir_aspects ir !! x = Some a → ad_conflicts a ## closure;
  (** every exported method has a signature, a policy and an action of its bundle *)
  wf_method k p : ir_projections ir !! k = Some p →
    is_Some (ir_abi ir !! qualified (pd_bundle p) (pd_projection p)) ∧
    is_Some (ir_policies ir !! qualified (pd_bundle p) (pd_projection p)) ∧
    ∃ closure key a, closures !! pd_bundle p = Some closure ∧ ir_actions ir !! key = Some a ∧
      projection_target_action (pd_expr p) = Some (act_action a) ∧ act_aspect a ∈ closure;
}.
Lemma each_values `{Countable K, Cmp K} {V E} (f : V → outcome E ()) (m : gmap K V) u k v :
  each f (values m) = Ok u → m !! k = Some v → f v = Ok ().
Proof. intros He Hv. rewrite each_Ok in He. apply He, elem_of_values. eauto. Qed.
Lemma each_set `{Countable K, Cmp K} {E} (f : K → outcome E ()) (X : gset K) u x :
  each f (set_iter X) = Ok u → x ∈ X → f x = Ok ().
Proof. intros He Hx. rewrite each_Ok in He. by apply He, elem_of_set_iter. Qed.
Lemma each_entries `{Countable K, Cmp K} {V E} (f : K * V → outcome E ()) (m : gmap K V) u k v :
  each f (entries m) = Ok u → m !! k = Some v → f (k, v) = Ok ().
Proof. intros He Hv. rewrite each_Ok in He. by apply He, elem_of_entries. Qed.
(** Claims that pass [single_owner] have different names. *)
Lemma single_owner_Ok error owners claims u :
  single_owner error owners claims = Ok u →
  NoDup claims.*1 ∧ ∀ n, n ∈ claims.*1 → owners !! n = None.
Proof.
  revert owners. induction claims as [|[n a] l IH]; intros owners; simpl; [by split; [constructor|set_solver]|].
  destruct (owners !! n) eqn:Ho; [done|]. intros [Hnd Hf]%IH. split.
  - constructor; [|done]. intros Hin. specialize (Hf _ Hin). by rewrite lookup_insert_eq in Hf.
  - intros m [->|Hm]%elem_of_cons; [done|]. specialize (Hf _ Hm). by apply lookup_insert_None in Hf as [? _].
Qed.
Lemma NoDup_entries `{Countable K, Cmp K} {V} (m : gmap K V) {B} (f : V → B) k k' v v' :
  NoDup (f <$> values m) → m !! k = Some v → m !! k' = Some v' → f v = f v' → k = k'.
Proof.
  unfold values. rewrite <- list_fmap_compose. intros Hnd Hk Hk' Hf.
  apply elem_of_entries, list_elem_of_lookup in Hk as [i Hi].
  apply elem_of_entries, list_elem_of_lookup in Hk' as [j Hj].
  assert (i = j) as ->; [|by simplify_eq].
  eapply NoDup_lookup; [done| |]; rewrite list_lookup_fmap; [by rewrite Hi|rewrite Hj; simpl; by rewrite Hf].
Qed.
Ltac split_checks H := repeat (apply outcome_bind_Ok in H as ([] & ?Hc & H) || apply outcome_bind_Ok in H as (?closures & ?Hc & H)).
Lemma known_aspect_Ok ir c x u : known_aspect ir c x = Ok u → is_Some (ir_aspects ir !! x).
Proof. unfold known_aspect. by intros ?%ensure_Ok%bool_decide_eq_true. Qed.
Lemma known_bundle_Ok ir c x u : known_bundle ir c x = Ok u → is_Some (ir_bundles ir !! x).
Proof. unfold known_bundle. by intros ?%ensure_Ok%bool_decide_eq_true. Qed.
Lemma references_resolve ir u :
  verify_references ir = Ok u →
  (∀ k a x, ir_aspects ir !! k = Some a → x ∈ ad_extends a ∪ ad_conflicts a → is_Some (ir_aspects ir !! x)) ∧
  (∀ k b x, ir_bundles ir !! k = Some b → x ∈ bd_extends b → is_Some (ir_bundles ir !! x)) ∧
  (∀ k b x, ir_bundles ir !! k = Some b → x ∈ bd_includes b → is_Some (ir_aspects ir !! x)) ∧
  (∀ k a, ir_actions ir !! k = Some a → is_Some (ir_aspects ir !! act_aspect a)) ∧
  (∀ k s, ir_storage_schema ir !! k = Some s → is_Some (ir_aspects ir !! ss_aspect s)) ∧
  (∀ k s, ir_registry_schema ir !! k = Some s → is_Some (ir_aspects ir !! rs_aspect s)) ∧
  (∀ k i, ir_invariants ir !! k = Some i → is_Some (ir_aspects ir !! inv_aspect i)) ∧
  (∀ k p, ir_projections ir !! k = Some p → is_Some (ir_bundles ir !! pd_bundle p)) ∧
  (∀ k abi, ir_abi ir !! k = Some abi →
    is_Some (ir_projections ir !! qualified (abi_bundle abi) (abi_projection abi))) ∧
  (∀ k policy, ir_policies ir !! k = Some policy →
    is_Some (ir_projections ir !! qualified (mpi_bundle policy) (mpi_projection policy))).
Proof.
  unfold verify_references. intros Hv. split_checks Hv. split_and!.
  - intros k a x Hk Hx. pose proof (each_values _ _ _ _ _ Hc Hk) as Ha. cbv beta in Ha.
    apply outcome_bind_Ok in Ha as (? & He & Hd).
    apply elem_of_union in Hx as [Hx|Hx];
      [pose proof (each_set _ _ _ _ He Hx)|pose proof (each_set _ _ _ _ Hd Hx)]; by eapply known_aspect_Ok.
  - intros k b x Hk Hx. pose proof (each_values _ _ _ _ _ Hc4 Hk) as Hb. cbv beta in Hb.
    apply outcome_bind_Ok in Hb as (? & _ & Hd). eapply known_bundle_Ok, (each_set _ _ _ _ Hd Hx).
  - intros k b x Hk Hx. pose proof (each_values _ _ _ _ _ Hc4 Hk) as Hb. cbv beta in Hb.
    apply outcome_bind_Ok in Hb as (? & Hd & _). eapply known_aspect_Ok, (each_set _ _ _ _ Hd Hx).
  - intros k a Hk. eapply known_aspect_Ok, (each_values _ _ _ _ _ Hc2 Hk).
  - intros k a Hk. eapply known_aspect_Ok, (each_values _ _ _ _ _ Hc0 Hk).
  - intros k a Hk. eapply known_aspect_Ok, (each_values _ _ _ _ _ Hc1 Hk).
  - intros k a Hk. eapply known_aspect_Ok, (each_values _ _ _ _ _ Hc3 Hk).
  - intros k a Hk. eapply known_bundle_Ok, (each_values _ _ _ _ _ Hc5 Hk).
  - intros k a Hk. by pose proof (each_values _ _ _ _ _ Hc6 Hk) as ?%ensure_Ok%bool_decide_eq_true.
  - intros k a Hk. by pose proof (each_values _ _ _ _ _ Hv Hk) as ?%ensure_Ok%bool_decide_eq_true.
Qed.
Lemma verify_type_Ok types context e u : verify_type_expr types context e = Ok u → known_type types e.
Proof.
  destruct u. induction e as [a|items IH] using Expr_nested_ind; simpl.
  - intros ?%ensure_Ok%bool_decide_eq_true. by constructor.
  - intros Hv. constructor. induction IH as [|x l Hx _ IHl]; [done|].
    apply outcome_bind_Ok in Hv as ([] & Hv & Hl). constructor; auto.
Qed.
Lemma verify_args_Ok types abi u : verify_abi_args types abi = Ok u → known_args types (abi_args abi).
Proof.
  unfold verify_abi_args, known_args. destruct (abi_args abi) as [|[|head items]]; [done|by left|].
  intros (? & Hh%ensure_Ok & Hi)%outcome_bind_Ok. destruct head as [h|]; [|done].
  apply bool_decide_eq_true in Hh as ->. right. exists items. split; [done|]. intros item Hin.
  rewrite each_Ok in Hi. specialize (Hi item Hin). destruct item as [|[|[name|] [|t [|]]]]; try done.
  apply verify_type_Ok in Hi. eauto.
Qed.
Lemma types_known ir u :
  verify_type_expressions ir = Ok u →
  (∀ k t, ir_types ir !! k = Some t → known_type (types_of ir) t) ∧
  (∀ k s, ir_storage_schema ir !! k = Some s → known_type (types_of ir) (ss_type_expr s)) ∧
  (∀ k s, ir_registry_schema ir !! k = Some s → known_type (types_of ir) (rs_type_expr s)) ∧
  (∀ k abi, ir_abi ir !! k = Some abi →
    known_args (types_of ir) (abi_args abi) ∧ known_type (types_of ir) (abi_return_type abi)).
Proof.
  unfold verify_type_expressions. cbv zeta. intros Hv. split_checks Hv. split_and!.
  - intros k t Hk. eapply verify_type_Ok, (each_entries _ _ _ _ _ Hc Hk).
  - intros k t Hk. eapply verify_type_Ok, (each_values _ _ _ _ _ Hc0 Hk).
  - intros k t Hk. eapply verify_type_Ok, (each_values _ _ _ _ _ Hc1 Hk).
  - intros k abi Hk. pose proof (each_values _ _ _ _ _ Hv Hk) as Ha. cbv beta in Ha.
    apply outcome_bind_Ok in Ha as (? & ?%verify_args_Ok & ?%verify_type_Ok). done.
Qed.
Lemma closures_exact ir closures :
  bundle_aspect_closures ir = Ok closures →
  (∀ b, is_Some (closures !! b) ↔ is_Some (ir_bundles ir !! b)) ∧
  (∀ b closure x, closures !! b = Some closure → x ∈ closure ↔ bundle_contains ir b x).
Proof.
  unfold bundle_aspect_closures. pose proof (elem_of_keys (ir_bundles ir)) as Hkeys.
  set (l := keys (ir_bundles ir)) in *. clearbody l. assert (∀ (m : gmap string (gset string)),
    (∀ b closure x, m !! b = Some closure → x ∈ closure ↔ bundle_contains ir b x) →
    fold_outcome (λ closures bundle,
      let* closure := bundle_closure (VfUnknownAspectReference "aspect closure")
                        (VfUnknownBundleReference "bundle closure") ir bundle in
      Ok (<[bundle := closure]> closures)) l m = Ok closures →
    (∀ b, is_Some (closures !! b) ↔ is_Some (m !! b) ∨ b ∈ l) ∧
    (∀ b closure x, closures !! b = Some closure → x ∈ closure ↔ bundle_contains ir b x)) as Hgen.
  { clear Hkeys. induction l as [|b l IH]; intros m Hm; simpl; [intros [= <-]; split; [set_solver|done]|].
    intros (m' & (closure & Hcl & [= <-])%outcome_bind_Ok & Hf)%outcome_bind_Ok.
    apply IH in Hf as [Hd Hx].
    - split; [|done]. intros b'. rewrite Hd, lookup_insert_is_Some', elem_of_cons. naive_solver.
    - intros b' c x [[<- <-]|[_ Hb]]%lookup_insert_Some; [by eapply bundle_closure_spec|by apply Hm]. }
  intros [Hd Hx]%Hgen; [|by intros ? ? ?; rewrite lookup_empty]. split; [|done].
  intros b. rewrite <- Hkeys, Hd, lookup_empty. split; [intros [[? [=]]|?]; done|by right].
Qed.
Lemma facets_provided ir closures u b closure x a facet :
  verify_required_facets ir closures = Ok u → closures !! b = Some closure → x ∈ closure →
  ir_aspects ir !! x = Some a → facet ∈ ad_requires a →
  ∃ y a', y ∈ closure ∧ ir_aspects ir !! y = Some a' ∧ facet ∈ ad_provides a'.
Proof.
  intros Hv Hb Hx Ha Hf. pose proof (each_entries _ _ _ _ _ Hv Hb) as Hc. cbv beta iota zeta in Hc.
  pose proof (each_set _ _ _ _ Hc Hx) as He. cbv beta in He. rewrite Ha in He.
  pose proof (each_set _ _ _ _ He Hf) as Hp%ensure_Ok%bool_decide_eq_true.
  apply elem_of_union_list in Hp as (Y & (y & -> & Hy)%list_elem_of_fmap & Hin).
  apply elem_of_set_iter in Hy. destruct (ir_aspects ir !! y) as [a'|] eqn:Hy'; [|set_solver].
  by exists y, a'.
Qed.
Lemma conflicts_absent ir closures u b closure x a :
  verify_conflicts ir closures = Ok u → closures !! b = Some closure → x ∈ closure →
  ir_aspects ir !! x = Some a → ad_conflicts a ## closure.
Proof.
  intros Hv Hb Hx Ha y Hy Hin. pose proof (each_entries _ _ _ _ _ Hv Hb) as Hc. cbv beta iota zeta in Hc.
  pose proof (each_set _ _ _ _ Hc Hx) as He. cbv beta in He. rewrite Ha in He.
  pose proof (each_set _ _ _ _ He Hy) as Hp%ensure_Ok%negb_true_iff%bool_decide_eq_false. done.
Qed.
Lemma method_exported ir closures u v k p :
  verify_projections ir closures = Ok u → verify_projection_abi_and_policy ir = Ok v →
  ir_projections ir !! k = Some p →
  is_Some (ir_abi ir !! qualified (pd_bundle p) (pd_projection p)) ∧
  is_Some (ir_policies ir !! qualified (pd_bundle p) (pd_projection p)) ∧
  ∃ closure key a, closures !! pd_bundle p = Some closure ∧ ir_actions ir !! key = Some a ∧
    projection_target_action (pd_expr p) = Some (act_action a) ∧ act_aspect a ∈ closure.
Proof.
  intros Hp Ha Hk. pose proof (each_values _ _ _ _ _ Ha Hk) as H1. cbv beta zeta in H1.
  apply outcome_bind_Ok in H1 as (? & H1%ensure_Ok%bool_decide_eq_true & H2%ensure_Ok%bool_decide_eq_true).
  split_and!; [done..|]. pose proof (each_values _ _ _ _ _ Hp Hk) as H3. cbv beta in H3.
  apply outcome_bind_Ok in H3 as (target & Ht%ok_or_Ok & H3).
  apply outcome_bind_Ok in H3 as (closure & Hc%ok_or_Ok & H3%ensure_Ok).
  apply existsb_exists in H3 as (a & Hin%list_elem_of_In%elem_of_values & Hb).
  destruct Hin as [key Hkey]. apply andb_true_iff in Hb as [<-%bool_decide_eq_true ?%bool_decide_eq_true].
  by exists closure, key, a.
Qed.

(** C22. A verified module is well formed.  Every name resolves: the aspects
    that aspects extend or conflict with, that bundles include and that
    actions, states, registries and invariants belong to, the bundles that
    bundles extend and methods belong to, and the method of every signature
    and policy.  Type expressions mention known types only.  Every body
    belongs to a declared action, every state and registry has one owner.
    The closure of a bundle is exactly the aspects that it or a bundle it
    extends includes and those they extend; it provides the facets its aspects
    require and contains no conflicting aspects; and every exported method has
    a signature, a policy and an action of its own bundle. *)
Theorem verified_well_formed `{Host} ir vm :
  verify_module ir = Ok vm → vm_ir vm = ir ∧ well_formed ir (vm_bundle_aspect_closures vm).
Proof.
  unfold verify_module. intros Hv. split_checks Hv. injection Hv as <-. simpl. split; [done|].
  destruct (references_resolve _ _ Hc) as (? & ? & ? & ? & ? & ? & ? & ? & ? & ?).
  destruct (types_known _ _ Hc0) as (? & ? & ? & ?).
  destruct (closures_exact _ _ Hc5) as [? ?].
  split; eauto using facets_provided, conflicts_absent.
  - intros k a Hk. by pose proof (each_values _ _ _ _ _ Hc1 Hk) as ?%ensure_Ok.
  - intros k k' s s'. apply (NoDup_entries _ ss_state). apply single_owner_Ok in Hc2 as [Hnd _].
    by rewrite <- list_fmap_compose in Hnd.
  - intros k k' s s'. apply (NoDup_entries _ rs_registry). apply single_owner_Ok in Hc3 as [Hnd _].
    by rewrite <- list_fmap_compose in Hnd.
  - intros k p. by eapply method_exported.
Qed.
