(* ===== verification/AspectSound.v ===== *)
(** * AspectSound: verified methods stay within their policies

    The inference of [verify_effects_and_write_scopes] is an abstract
    interpretation of the evaluator of crates/detta-aspect-runtime: this file
    proves it sound for a fragment of modules (no action named like a host
    operation, no equality between an action call and a value inside a body,
    projections that pass atoms), and shows on concrete verified modules that
    outside this fragment it misses effects.  The executor of crates/detta-core
    checks only calls, cross-contract reads and state scopes again when it
    applies a trace, so the declared effects are as good as the inference. *)
From S2P Require Import Prelude Effects Merkle Types State AspectRuntime AspectSource.
From S2P Require Import AspectClosure AspectLower AspectVerify.

(** ** What the inferred effects allow *)
Definition op_effect (op : AspectHostOp) : EffectKind :=
  match op with
  | OpStateGet _ _ | OpContractStateGet _ _ _ => FxReadState
  | OpStateSet _ _ _ => FxWriteState
  | OpRegistryGet _ => FxReadRegistry
  | OpRegistrySet _ _ => FxWriteRegistry
  | OpRegistryConsume _ _ => FxConsumeRegistryGrant
  | OpEmit _ => FxEmitEvent
  | OpCallContract _ _ _ => FxCallContract
  | OpPermitVerify _ _ _ _ _ => FxUsePermitCertificate
  | OpBridgeVerify _ _ _ _ _ _ => FxUseBridgeCertificate
  | OpCrossShardOutboxAppend _ _ _ _ _ _ => FxCrossShardOutboxAppend
  end.
(** An exact site names the contract, up to the two atoms for the sender. *)
Definition site_matches (site : ContractCallSiteTarget) (contract : string) : Prop :=
  match site with
  | SiteExact target => contract = target ∨ target = "tx.sender" ∨ target = "msg.sender"
  | SiteDynamic _ => True
  end.
Definition covered (i : InferredActionEffects) (op : AspectHostOp) : Prop :=
  op_effect op ∈ inf_effects i ∧
  match op with
  | OpStateSet state _ _ => state ∈ inf_writes i
  | OpRegistryGet registry | OpRegistrySet registry _ | OpRegistryConsume registry _ =>
      registry ∈ inf_registry_accesses i
  | OpCallContract contract method _ => ∃ site, site ∈ inf_contract_calls i ∧
      ccs_method site = method ∧ site_matches (ccs_target site) contract
  | OpContractStateGet contract state _ => ∃ site, site ∈ inf_contract_state_reads i ∧
      crs_state site = state ∧ site_matches (crs_target site) contract
  | _ => True
  end.
Record included (j i : InferredActionEffects) : Prop := {
  inc_effects : inf_effects j ⊆ inf_effects i;
  inc_writes : inf_writes j ⊆ inf_writes i;
  inc_registry : inf_registry_accesses j ⊆ inf_registry_accesses i;
  inc_calls : inf_contract_calls j ⊆ inf_contract_calls i;
  inc_reads : inf_contract_state_reads j ⊆ inf_contract_state_reads i;
}.
#[export] Instance included_preorder : PreOrder included.
Proof. split; [by split|]. intros i j k [] []. by split; etrans. Qed.
Lemma included_merge j i : included j (merge_effects j i) ∧ included i (merge_effects j i).
Proof. split; split; simpl; set_solver. Qed.
Lemma covered_included j i op : included j i → covered j op → covered i op.
Proof. intros [] [He Ho]. split; [set_solver|]. destruct op; set_solver. Qed.

Lemma site_names target contract :
  names_contract target contract → site_matches (inferred_contract_site_target target) contract.
Proof.
  intros Hn. destruct target as [a|]; simpl; [|done].
  destruct (strip_dollar a) eqn:Hd; simpl; [done|]. case_bool_decide; simpl; [done|].
  destruct (decide (a = "tx.sender")); [auto|]. destruct (decide (a = "msg.sender")); [auto|].
  left. apply Hn; [done|done|]. rewrite !not_elem_of_cons. repeat split; try done. apply not_elem_of_nil.
Qed.
(** What the verifier records for a form covers what the evaluator pushes. *)
Lemma operation_covers head args op :
  form_op head args op → ∃ j, operation_effects head args = Some j ∧ covered j op.
Proof.
  destruct op; simpl; intros Hf; repeat match goal with
    | H : _ ∧ _ |- _ => destruct H | H : ∃ _, _ |- _ => destruct H end; subst;
    eexists; (split; [reflexivity|]); (split; [set_solver|]); simpl; try set_solver;
    eexists; (split; [by apply elem_of_singleton|]); (split; [done|]); by apply site_names.
Qed.

(** ** The inference is closed

    At the end of the inference everything a visited body records is included
    in the inferred effects and every action it calls is visited. *)
Definition within (st : infer_state) (item : infer_item) : Prop :=
  match item with
  | Records inferred => included inferred st.2
  | Visits key => key ∈ st.1
  end.
Definition below (st st' : infer_state) : Prop := st.1 ⊆ st'.1 ∧ included st.2 st'.2.
#[export] Instance below_preorder : PreOrder below.
Proof. split; [by split|]. intros ??? [] []. split; [set_solver|by etrans]. Qed.
Lemma within_below st st' item : below st st' → within st item → within st' item.
Proof. intros [HX HI] Hw. destruct item; simpl in *; [by etrans|set_solver]. Qed.

Section closed.
Context (ir : AspectModuleIr) (names : gmap string (gset string)).

(** The body filed under [key] is accounted for in [st]. *)
Definition accounted (st : infer_state) (key : string) : Prop :=
  ∀ action body, ir_actions ir !! key = Some action → act_body action = Some body →
  Forall (within st) (expr_items names body).
(** A step of the inference: everything new is accounted for. *)
Definition infers (st st' : infer_state) : Prop :=
  below st st' ∧ ∀ key, key ∈ st'.1 → key ∉ st.1 → accounted st' key.
Lemma infers_trans st1 st2 st3 : infers st1 st2 → infers st2 st3 → infers st1 st3.
Proof.
  intros [B1 N1] [B2 N2]. split; [by etrans|]. intros key Hin Hout.
  destruct (decide (key ∈ st2.1)) as [H2|H2]; [|by apply N2].
  intros a body Ha Hb. eapply Forall_impl; [by eapply N1|]. intros item. by apply within_below.
Qed.
Lemma fold_infers (infer_action : string → infer_state → verified infer_state) l st st' :
  (∀ key st st', infer_action key st = Ok st' → infers st st' ∧ key ∈ st'.1) →
  fold_outcome (infer_do infer_action) l st = Ok st' → infers st st' ∧ Forall (within st') l.
Proof.
  intros Hi. revert st. induction l as [|x l IH]; intros st; simpl.
  { intros [= <-]. split; [|done]. split; [done|set_solver]. }
  intros (st1 & H1 & H2)%outcome_bind_Ok. apply IH in H2 as [Hs Hl].
  assert (infers st st1 ∧ within st1 x) as [Hx Hw].
  { destruct x as [j|key]; simpl in *; [|by apply Hi]. injection H1 as <-. simpl.
    destruct (included_merge j st.2). split; [|done]. split; [by split|set_solver]. }
  split; [by eapply infers_trans|]. constructor; [|done]. eapply within_below; [apply Hs|done].
Qed.
Lemma infer_action_infers fuel key st st' :
  infer_action_effects fuel ir names key st = Ok st' → infers st st' ∧ key ∈ st'.1.
Proof.
  revert key st st'. induction fuel as [|fuel IH]; intros key st st'; simpl; [done|].
  case_decide as Hin; [intros [= <-]; split; [split; [done|set_solver]|done]|].
  destruct (ir_actions ir !! key) as [[asp act decl [body|]]|] eqn:Ha; simpl; rewrite ?infer_expr_fold;
    [intros [[[B1 B2] HN] Hw]%fold_infers; [|done]|intros [= <-]..]; simpl in *.
  - split; [|set_solver]. split; [split; [set_solver|done]|]. intros k Hk Hk'.
    destruct (decide (k = key)) as [->|]; [|apply HN; set_solver].
    intros a b Ha' Hb. rewrite Ha in Ha'. by simplify_eq/=.
  - split; [|set_solver]. split; [split; [set_solver|done]|]. intros k Hk Hk'.
    assert (k = key) as -> by set_solver. intros a b Ha' Hb. rewrite Ha in Ha'. by simplify_eq/=.
  - split; [|set_solver]. split; [split; [set_solver|done]|]. intros k Hk Hk'.
    assert (k = key) as -> by set_solver. intros a b Ha' Hb. by rewrite Ha in Ha'.
Qed.
Lemma inferred_closed fuel key st :
  infer_action_effects fuel ir names key (∅, no_effects) = Ok st →
  key ∈ st.1 ∧ ∀ k, k ∈ st.1 → accounted st k.
Proof. intros [[_ HN] Hk]%infer_action_infers. split; [done|]. intros k Hin. by apply HN. Qed.
End closed.

(** ** The fragment *)
(** No equality with an action call on its left, which the verifier takes for
    a definition and the evaluator does not. *)
Fixpoint plain (names : gmap string (gset string)) (expr : Expr) : bool :=
  match expr with
  | Atom _ => true
  | ExprList items =>
      negb (match items with Atom head :: _ => bool_decide (head = "=") | _ => false end
            && is_action_definition_expr names items) &&
      (fix go items := match items with [] => true | item :: items => plain names item && go items end)
        items
  end.
Definition is_operation (head : string) : bool := bool_decide (is_Some (operation_effects head [])).
Definition plain_action (names : gmap string (gset string)) (action : ActionDef) : bool :=
  negb (is_operation (act_action action)) &&
  match act_body action with
  | Some (ExprList [_; _; rhs]) => plain names rhs
  | _ => true
  end.
Definition plain_projection (p : ProjectionDef) : bool :=
  match pd_expr p with
  | ExprList [_; _; ExprList (_ :: args)] =>
      forallb (λ e, match e with Atom _ => true | ExprList _ => false end) args
  | _ => true
  end.
Definition plain_module (ir : AspectModuleIr) : bool :=
  forallb (plain_action (action_names ir)) (values (ir_actions ir)) &&
  forallb plain_projection (values (ir_projections ir)).

Lemma operation_head head args : is_Some (operation_effects head args) → is_operation head = true.
Proof.
  unfold is_operation, operation_effects. intros Hs. apply bool_decide_eq_true. revert Hs.
  repeat (case_bool_decide; [done|]). by intros [].
Qed.
Lemma plain_list names items :
  plain names (ExprList items) = true →
  (match items with Atom head :: _ => bool_decide (head = "=") | _ => false end
   && is_action_definition_expr names items) = false ∧ ∀ e, e ∈ items → plain names e = true.
Proof.
  cbn [plain]. intros [H1 H2]%andb_true_iff. split; [by apply negb_true_iff|]. clear H1.
  induction items as [|x l IH]; intros e He; [set_solver|].
  apply andb_true_iff in H2 as [? ?]. apply elem_of_cons in He as [->|]; auto.
Qed.
Lemma all_items names items e item :
  e ∈ items → item ∈ expr_items names e →
  item ∈ (fix go items := match items with [] => [] | item :: items => expr_items names item ++ go items end)
    items.
Proof. intros He Hi. induction He as [|x y l ? IH]; apply elem_of_app; auto. Qed.
Lemma plain_head_items names head args :
  plain names (ExprList (Atom head :: args)) = true →
  expr_items names (ExprList (Atom head :: args)) =
    match operation_effects head args with
    | Some inferred => [Records inferred]
    | None => Visits <$> set_iter (default ∅ (names !! head))
    end ++ (fix go items := match items with [] => [] | item :: items => expr_items names item ++ go items end)
      args.
Proof. intros [Hd _]%plain_list. cbn [expr_items]. by rewrite Hd. Qed.
Lemma plain_sub_items names items e :
  plain names (ExprList items) = true → e ∈ items → expr_items names e ⊆ expr_items names (ExprList items).
Proof.
  intros Hp He item Hi. destruct items as [|[head|l] args]; [set_solver| |by apply (all_items names (ExprList l :: args) e)].
  rewrite plain_head_items by done. apply elem_of_app. right.
  apply elem_of_cons in He as [->|He]; [by apply elem_of_nil in Hi|]. by eapply all_items.
Qed.

(** ** Soundness *)
Lemma action_names_spec ir action :
  action ∈ values (ir_actions ir) →
  action_key action ∈ default ∅ (action_names ir !! act_action action).
Proof.
  unfold action_names. generalize (values (ir_actions ir)). intros l.
  enough (∀ names, action ∈ l ∨ action_key action ∈ default ∅ (names !! act_action action) →
    action_key action ∈ default ∅ (foldl (λ names action,
    <[act_action action := {[action_key action]} ∪ default ∅ (names !! act_action action)]> names) names l
      !! act_action action)) by auto.
  induction l as [|x l IH]; intros names Hin; simpl; [set_solver|]. apply IH.
  destruct (decide (act_action x = act_action action)) as [He|Hne].
  - destruct Hin as [[->|]%elem_of_cons|]; [|by left|];
      right; rewrite He || idtac; rewrite lookup_insert_eq; simpl; set_solver.
  - destruct Hin as [[->|]%elem_of_cons|]; [done|by left|]. right. by rewrite lookup_insert_ne.
Qed.

(** The trace is extended by covered operations only. *)
Definition extends (allowed : AspectHostOp → Prop) (s s' : AspectEvalState) : Prop :=
  ∃ ops, es_trace s' = es_trace s ++ ops ∧ Forall allowed ops.
#[export] Instance extends_frame allowed : Frame (extends allowed) always.
Proof.
  split; [|done]. split.
  - intros s. exists []. by rewrite app_nil_r.
  - intros s1 s2 s3 (o1 & H1 & F1) (o2 & H2 & F2). exists (o1 ++ o2).
    rewrite H2, H1, app_assoc. split; [done|]. by apply Forall_app.
Qed.
Section sound.
Context (ir : AspectModuleIr) (max_steps : N) (st : infer_state).
Context (Hplain : plain_module ir = true).
Context (Hclosed : ∀ key, key ∈ st.1 → accounted ir (action_names ir) st key).
Abbreviation names := (action_names ir).

Definition sound_expr (e : Expr) : Prop :=
  plain names e = true ∧ ∀ item, item ∈ expr_items names e → within st item.
Definition sound_call (aspect action : string) : Prop :=
  qualified aspect action ∈ st.1 ∧ ∃ a, a ∈ values (ir_actions ir) ∧ act_action a = action.

Lemma plain_actions a :
  a ∈ values (ir_actions ir) → plain_action names a = true.
Proof.
  intros Ha. pose proof Hplain as [H1 _]%andb_true_iff. rewrite forallb_forall in H1.
  by apply H1, list_elem_of_In.
Qed.
Lemma plain_call head args a :
  a ∈ values (ir_actions ir) → act_action a = head → operation_effects head args = None.
Proof.
  intros Ha <-. apply plain_actions, andb_true_iff in Ha as [Ha%negb_true_iff _].
  apply eq_None_not_Some. intros ?%operation_head. congruence.
Qed.
Lemma sound_body aspect action a body params rhs :
  sound_call aspect action → ir_actions ir !! qualified aspect action = Some a → act_body a = Some body →
  action_body_parts action body = Ok (params, rhs) → sound_expr rhs.
Proof.
  intros [Hk (a' & Ha' & Hn)] Hl Hb Hp. pose proof (Hclosed _ Hk _ _ Hl Hb) as Hw.
  destruct body as [|[|[eq|] [|[|[|[head|] ps]] [|rhs' []]]]]; try done. simpl in Hp.
  destruct (bool_decide (eq = "=") && bool_decide (head = action)) eqn:He; [|done].
  apply andb_true_iff in He as [->%bool_decide_eq_true ->%bool_decide_eq_true].
  apply outcome_bind_Ok in Hp as (? & _ & [= <- ->]).
  assert (a ∈ values (ir_actions ir)) as Hpa%plain_actions by (apply elem_of_values; eauto).
  apply andb_true_iff in Hpa as [_ Hpa]. rewrite Hb in Hpa. split; [done|].
  apply Forall_forall. revert Hw. cbn [expr_items is_action_definition_expr].
  apply action_names_spec in Ha'. rewrite Hn in Ha'.
  destruct (names !! action) eqn:Hna; [done|]. simpl in Ha'. set_solver.
Qed.
(** The right-hand side of a projection: an action applied to atoms. *)
Definition sound_projection (e : Expr) : Prop :=
  ∃ head args, e = ExprList (Atom head :: args) ∧ (∀ x, x ∈ args → ∃ a, x = Atom a) ∧
  (∃ a, a ∈ values (ir_actions ir) ∧ act_action a = head ∧ action_key a ∈ st.1).
Lemma sound_atom a : sound_expr (Atom a).
Proof. split; [done|]. simpl. set_solver. Qed.
Lemma filtered_action head a :
  filter (λ a, act_action a = head) (values (ir_actions ir)) = [a] →
  (∀ a', a' ∈ values (ir_actions ir) ∧ act_action a' = head ↔ a' = a).
Proof.
  intros Hf a'. rewrite <- (list_elem_of_singleton a' a), <- Hf, list_elem_of_filter. tauto.
Qed.
Lemma sound_eval e :
  sound_expr e ∨ sound_projection e → runs (extends (covered st.2)) always (eval_expr ir max_steps e).
Proof.
  eapply (safe_eval_expr _ _ _ (covered st.2)) with (good := λ e, sound_expr e ∨ sound_projection e)
    (callable := sound_call).
  - intros s. unfold charge. destruct (max_steps <=? es_steps_used s); [done|].
    split; [|done]. exists []. by rewrite app_nil_r.
  - intros op Hop s. split; [|done]. exists [op]. by split; [|constructor].
  - done.
  - intros items x [[Hp Hw]|(head & args & [= ->] & Hargs & _)] Hx; left.
    + split; [by eapply plain_list|]. intros item Hi. apply Hw. by eapply plain_sub_items.
    + apply elem_of_cons in Hx as [->|[? ->]%Hargs]; apply sound_atom.
  - intros head args op Hg (j & Hj & Hc)%operation_covers.
    destruct Hg as [[Hp Hw]|(? & ? & [= <- <-] & _ & a & Ha & Hh & _)].
    + eapply covered_included; [|done]. rewrite plain_head_items, Hj in Hw by done.
      apply (Hw (Records j)), elem_of_app. left. by apply list_elem_of_singleton.
    + by rewrite (plain_call head args a) in Hj.
  - intros head args a Hg Hf. pose proof (filtered_action _ _ Hf) as Hu.
    destruct (proj2 (Hu a) eq_refl) as [Ha Hh]. split; [|by exists a].
    destruct Hg as [[Hp Hw]|(? & ? & [= <- <-] & _ & a' & Ha' & Hh' & Hk)].
    + apply (Hw (Visits (action_key a))).
      rewrite plain_head_items, (plain_call head args a) by done.
      apply elem_of_app. left. apply list_elem_of_fmap. eexists; split; [done|].
      apply elem_of_set_iter. rewrite <- Hh. by apply action_names_spec.
    + by rewrite <- (proj1 (Hu a') (conj Ha' Hh')).
  - intros. left. by eapply sound_body.
Qed.
End sound.

(** What the policy of a method and the bundle it belongs to permit. *)
Definition target_permits (target : ContractCallTarget) (contract : string) : Prop :=
  match target with
  | TargetAny => True
  | TargetExact name => contract = name ∨ name = "tx.sender" ∨ name = "msg.sender"
  end.
Definition permitted (ir : AspectModuleIr) (closures : gmap string (gset string)) (bundle : string)
    (policy : MethodPolicyIr) (op : AspectHostOp) : Prop :=
  op_effect op ∈ mpi_effects policy ∧
  match op with
  | OpStateSet state _ _ => state_owned_by_bundle ir closures bundle state = true
  | OpRegistryGet registry | OpRegistrySet registry _ | OpRegistryConsume registry _ =>
      registry_owned_by_bundle ir closures bundle registry = true
  | OpCallContract contract method _ => ∃ allowed, allowed ∈ mpi_call_allowlist policy ∧
      ccp_method allowed = method ∧ target_permits (ccp_target allowed) contract
  | OpContractStateGet contract state _ => ∃ allowed, allowed ∈ mpi_read_allowlist policy ∧
      crp_state allowed = state ∧ target_permits (crp_target allowed) contract
  | _ => True
  end.
Lemma target_allowed target site contract :
  call_target_allows target site = true → site_matches site contract → target_permits target contract.
Proof. destruct target, site; simpl; try done. by intros ->%bool_decide_eq_true. Qed.
Lemma each_ensure `{Countable K, Cmp K} {E} (f : K → bool) (err : K → E) (X : gset K) u :
  each (λ x, ensure (f x) (err x)) (set_iter X) = Ok u → ∀ x, x ∈ X → f x = true.
Proof.
  intros He x Hx. rewrite each_Ok in He. apply elem_of_set_iter, He in Hx. by apply ensure_Ok in Hx.
Qed.
Lemma existsb_elements `{Countable K} (f : K → bool) (X : gset K) :
  existsb f (elements X) = true → ∃ x, x ∈ X ∧ f x = true.
Proof.
  intros (x & Hx & Hf)%existsb_exists. exists x. split; [|done].
  by apply elem_of_elements, list_elem_of_In.
Qed.
Lemma checked_permits ir closures p policy inferred op :
  check_inferred ir closures p policy inferred = Ok () → covered inferred op →
  permitted ir closures (pd_bundle p) policy op.
Proof.
  unfold check_inferred. cbv zeta. intros Hc [He Ho].
  apply outcome_bind_Ok in Hc as (? & Heff & Hc). pose proof (each_ensure _ _ _ _ Heff) as Heff'.
  apply outcome_bind_Ok in Hc as (? & _ & Hc).
  apply outcome_bind_Ok in Hc as (? & Hcalls & Hc). pose proof (each_ensure _ _ _ _ Hcalls) as Hcalls'.
  apply outcome_bind_Ok in Hc as (? & _ & Hc).
  apply outcome_bind_Ok in Hc as (? & Hreads & Hc). pose proof (each_ensure _ _ _ _ Hreads) as Hreads'.
  apply outcome_bind_Ok in Hc as (? & Hwrites & Hregs).
  split; [by eapply bool_decide_eq_true, Heff'|].
  destruct op; try done.
  - destruct Ho as (site & (a & Ha & [Hs Ht]%andb_true_iff)%Hreads'%existsb_elements & Hn & Hm).
    exists a. split_and!; [done|by apply bool_decide_eq_true in Hs; congruence|by eapply target_allowed].
  - exact (each_ensure _ _ _ _ Hwrites _ Ho).
  - exact (each_ensure _ _ _ _ Hregs _ Ho).
  - exact (each_ensure _ _ _ _ Hregs _ Ho).
  - exact (each_ensure _ _ _ _ Hregs _ Ho).
  - destruct Ho as (site & (a & Ha & [Hs Ht]%andb_true_iff)%Hcalls'%existsb_elements & Hn & Hm).
    exists a. split_and!; [done|by apply bool_decide_eq_true in Hs; congruence|by eapply target_allowed].
Qed.

Lemma projection_inferred ir closures p policy action inferred :
  infer_projection_effects ir closures p policy action = Ok inferred →
  ∃ st, infer_action_effects (infer_fuel ir) ir (action_names ir) (action_key action) (∅, no_effects) = Ok st ∧
  included st.2 inferred.
Proof.
  unfold infer_projection_effects. cbv zeta. intros (st & Hst & Hf)%outcome_bind_Ok. exists st.
  split; [done|]. revert Hf. apply fold_outcome_inv; [|done].
  intros i r i' _ Hi. destruct (invariant_for_policy_ref _ _ _ _); [|by intros [= <-]].
  intros (? & _ & [= <-])%outcome_bind_Ok. destruct Hi. split; simpl; set_solver.
Qed.
Lemma verified_projection `{Host} ir vm p :
  verify_module ir = Ok vm → p ∈ values (ir_projections ir) →
  verify_projection_effects ir (vm_bundle_aspect_closures vm) p = Ok ().
Proof.
  unfold verify_module. intros Hv Hp. repeat (apply outcome_bind_Ok in Hv as (? & ?He & Hv)).
  injection Hv as <-. simpl.
  match goal with H : verify_effects_and_write_scopes _ _ = _ |- _ => apply each_Ok with (x := p) in H end;
    done.
Qed.
Lemma projection_action ir closures bundle target action :
  action_for_projection_target ir closures bundle target = Some action →
  action ∈ values (ir_actions ir) ∧ act_action action = target.
Proof.
  unfold action_for_projection_target. intros (cl & _ & Hf)%bind_Some.
  destruct (list_find _ _) as [[i a]|] eqn:Hl; [|done]. injection Hf as <-.
  apply list_find_Some in Hl as (Hi & [? _] & _). split; [by eapply list_elem_of_lookup_2|done].
Qed.
Lemma projection_call ir p target params rhs :
  plain_module ir = true → p ∈ values (ir_projections ir) →
  projection_target_action (pd_expr p) = Some target → projection_body_parts (pd_expr p) = Ok (params, rhs) →
  ∃ args, rhs = ExprList (Atom target :: args) ∧ ∀ x, x ∈ args → ∃ a, x = Atom a.
Proof.
  intros [_ Hm]%andb_true_iff Hp Ht Hb. rewrite forallb_forall in Hm.
  apply list_elem_of_In, Hm in Hp. unfold plain_projection in Hp.
  destruct (pd_expr p) as [|[|[eq|] [|sig [|[|[|[t|] args]] []]]]]; try done. simpl in *.
  destruct (bool_decide (eq = "=")); [|done]. injection Ht as ->. destruct sig as [|sig]; [done|].
  apply outcome_bind_Ok in Hb as (ps & _ & [= _ <-]). exists args. split; [done|].
  intros x Hx. rewrite forallb_forall in Hp. apply list_elem_of_In, Hp in Hx. destruct x; eauto || done.
Qed.

(** C20. The verifier is sound: when it accepts a module of the plain fragment,
    every host operation in the trace of every execution of every exported
    method has its effect declared in the method's policy; state is written
    and registries are accessed only where an aspect of the method's bundle
    owns them; and calls and cross-contract reads match an allowlist entry. *)
Theorem verified_effects_sound `{Host} source canonical ir vm budget bundle projection policy args
    context reads contract_reads report :
  parse_verify_module source = Ok (canonical, ir, vm) → plain_module ir = true →
  ir_policies ir !! qualified bundle projection = Some policy →
  execute_projection_with_contract_state ir budget bundle projection args context reads contract_reads
    = Ok report →
  ∃ p, ir_projections ir !! qualified bundle projection = Some p ∧
  Forall (permitted ir (vm_bundle_aspect_closures vm) (pd_bundle p) policy) (rep_trace report).
Proof.
  intros Hv Hplain Hpol Hrun. unfold parse_verify_module in Hv.
  apply outcome_bind_Ok in Hv as (ast & _ & Hv).
  apply outcome_bind_Ok in Hv as (ir' & Hir%lower_well_keyed & Hv).
  apply outcome_bind_Ok in Hv as (vm' & Hv & [= _ -> ->]).
  unfold execute_projection_with_contract_state in Hrun.
  apply outcome_bind_Ok in Hrun as (p & Hp%ok_or_Ok & Hrun). exists p. split; [done|].
  pose proof (wk_projections _ Hir _ _ Hp) as Hkey.
  assert (p ∈ values (ir_projections ir)) as Hin by (apply elem_of_values; eauto).
  pose proof (verified_projection _ _ _ Hv Hin) as He. unfold verify_projection_effects in He.
  rewrite <- Hkey, Hpol in He. simpl in He.
  apply outcome_bind_Ok in He as (target & Ht%ok_or_Ok & He).
  apply outcome_bind_Ok in He as (action & [Ha Hn]%ok_or_Ok%projection_action & He).
  apply outcome_bind_Ok in He as (inferred & (st & [Hk Hc]%inferred_closed & Hi)%projection_inferred & He).
  apply outcome_bind_Ok in Hrun as ([params rhs] & Hb & Hrun).
  apply outcome_bind_Ok in Hrun as (_ & _ & Hrun). unfold run_report in Hrun. simpl in Hrun.
  destruct (projection_call _ _ _ _ _ Hplain Hin Ht Hb) as (xs & -> & Hxs).
  match type of Hrun with context [eval_expr _ _ ?e ?s0] =>
    destruct (sound_eval ir budget st Hplain Hc e) with (s := s0) as [(ops & Ho & Hops) _];
      [right; exists target, xs; eauto 6|]; destruct (eval_expr ir budget e s0) as [[v| | |] s'] end;
    try done. simplify_eq/=. eapply Forall_impl; [exact Hops|].
  intros op Hop. eapply checked_permits; [exact He|]. by eapply covered_included.
Qed.

(** ** Outside the fragment

    A module around one action [send] that appends an outbox message, and
    four ways for a method with an empty list of effects to run it. *)
Definition holed (declarations : string) : string := "
  (: Bool Type)
  (aspect A)
  (action A send)
  (derived A send (= (send) (begin (cross-shard-outbox-append! east vault m9 carol usd 1) True)))
  (action A skip)
  (derived A skip (= (skip $x) True))
  (bundle B)
  (bundle-includes B A)
  (method-abi B Send (args) Bool)
" +:+ declarations.
(** The call is the left side of an equality, taken for a definition. *)
Definition hole_equality : string := holed "
  (action A ask)
  (derived A ask (= (ask) (= (send) True)))
  (projection B Send (= (API.send) (ask)))
  (method-policy B Send TxSender (effects) (invariants))
".
(** The call is an argument of the projection's action. *)
Definition hole_argument : string := holed "
  (projection B Send (= (API.send) (skip (send))))
  (method-policy B Send TxSender (effects) (invariants))
".
(** The projection's action is named like a host operation, which runs
    instead of it. *)
Definition hole_operation : string := holed "
  (action A cross-shard-outbox-append!)
  (derived A cross-shard-outbox-append! (= (cross-shard-outbox-append! $a) True))
  (projection B Send (= (API.send) (cross-shard-outbox-append! east vault m9 carol usd 1)))
  (method-policy B Send TxSender (effects) (invariants))
".
(** The action is named like an operation the evaluator does not have, so
    its own body runs, while the verifier records the operation. *)
Definition hole_abort : string := holed "
  (action A abort)
  (derived A abort (= (abort) (send)))
  (action A try)
  (derived A try (= (try) (abort)))
  (projection B Send (= (API.send) (try)))
  (method-policy B Send TxSender (effects Abort) (invariants))
".
(** The effects of a run of the verified method that its policy does not
    declare. *)
Definition undeclared_effects `{Host} (source bundle projection : string) : option (list EffectKind) :=
  match parse_verify_module source with
  | Ok (_, ir, _) =>
      policy ← ir_policies ir !! qualified bundle projection;
      match execute_projection_with_contract_state ir 100 bundle projection [] sample_context ∅ ∅ with
      | Ok report => Some (filter (λ e, e ∉ mpi_effects policy) (op_effect <$> rep_trace report))
      | _ => None
      end
  | _ => None
  end.

(** The effect check can be evaded: four modules pass verification with a
    policy that does not list [CrossShardOutboxAppend], and their method
    appends a cross-shard message all the same. *)
Theorem verifier_misses_effects `{Host} source :
  source ∈ [hole_equality; hole_argument; hole_operation; hole_abort] →
  undeclared_effects source "B" "Send" = Some [FxCrossShardOutboxAppend].
Proof.
  intros Hs. repeat (apply elem_of_cons in Hs as [->|Hs]; [vm_compute; reflexivity|]).
  by apply elem_of_nil in Hs.
Qed.
