(* ===== verification/Aspects.v ===== *)
(** * Aspects: module records, method policies and value conversions

    The functions of crates/detta-core/src/lib.rs that turn a verified
    aspect-module IR into a contract record (closures of bundles, policies,
    invariant references) and convert between aspect values and the
    executor's arguments, keys and reads. *)
From S2P Require Import Prelude Effects Merkle Types State Policies AspectRuntime AspectClosure.
From S2P Require Import AspectVerify.

Definition qualified_aspect_symbol (namespace name : string) : string := qualified namespace name.

(** ** Closures *)
Definition aspect_bundle_aspect_closure (ir : AspectModuleIr) (bundle_id : string)
    : outcome ExecutionError (gset string) :=
  bundle_closure (λ _, InvalidArguments) (λ _, InvalidArguments) ir bundle_id.

(** ** Invariants and policies *)
Definition resolve_aspect_invariant (ir : AspectModuleIr) (bundle_id invariant_ref : string)
    : outcome ExecutionError InvariantDef :=
  let* closure := aspect_bundle_aspect_closure ir bundle_id in
  let exact_key :=
    if bool_decide (is_Some (ir_invariants ir !! invariant_ref)) then Some invariant_ref
    else match split_once_colons invariant_ref with
         | Some (aspect, invariant) => Some (qualified_aspect_symbol aspect invariant)
         | None =>
             '(aspect, invariant) ← split_once_dot invariant_ref;
             Some (qualified_aspect_symbol aspect invariant)
         end in
  match exact_key with
  | Some exact_key =>
      let* invariant := ok_or (ir_invariants ir !! exact_key) InvalidArguments in
      if decide (inv_aspect invariant ∈ closure) then Ok invariant else Err InvalidArguments
  | None =>
      match filter (λ i, inv_invariant i = invariant_ref ∧ inv_aspect i ∈ closure)
              (values (ir_invariants ir)) with
      | [invariant] => Ok invariant
      | _ => Err InvalidArguments
      end
  end.
Definition aspect_policy_invariant_refs (module : AspectModuleRecord) (bundle_id : string)
    (policy : MethodPolicyIr) : outcome ExecutionError (gset ContractInvariant) :=
  let* ir := ok_or (mod_ir module) PolicyMissing in
  let* refs := mapR (λ invariant_ref,
    let* invariant := resolve_aspect_invariant ir bundle_id invariant_ref in
    Ok (AspectLocalInvariant (mod_module_hash module) (inv_aspect invariant) (inv_invariant invariant)))
    (set_iter (mpi_invariants policy)) in
  Ok (list_to_set refs).
Definition core_effect (effect : EffectKind) : option PolicyEffect :=
  match effect with
  | FxReadState | FxReadRegistry | FxAbort => None
  | FxWriteState => Some StorageWrite
  | FxWriteRegistry | FxConsumeRegistryGrant => Some RegistryWrite
  | FxEmitEvent => Some EventEmit
  | FxCallContract => Some CrossContractCall
  | FxDeployContract => Some ContractDeploy
  | FxScheduleUpgrade => Some UpgradeSchedule
  | FxExecuteUpgrade => Some ContractCodeUpgrade
  | FxCrossShardOutboxAppend => Some CrossShardOutboxAppend
  | FxUsePermitCertificate => Some RegistryWrite
  | FxUseBridgeCertificate => Some StorageWrite
  end.
Definition core_authority (authority : AuthorityKind) : outcome ExecutionError PolicyAuthority :=
  match authority with
  | AuthTxSender => Ok TxSender
  | AuthPermitCertificate => Ok PermitCertificate
  | AuthBridgeCertificate => Ok BridgeCertificate
  | AuthOracleUpdaterGrant => Ok OracleUpdaterGrant
  | AuthGovernanceAdminGrant => Ok GovernanceAdminGrant
  | _ => Err InvalidArguments
  end.
Definition core_method_policy_from_aspect (module : AspectModuleRecord) (bundle_id : string)
    (policy : MethodPolicyIr) : outcome ExecutionError MethodPolicy :=
  let* authority := core_authority (mpi_authority policy) in
  let* invariants := aspect_policy_invariant_refs module bundle_id policy in
  Ok {| mp_authority := authority; mp_reentrancy := NonReentrant;
        mp_effects := list_to_set (omap core_effect (elements (mpi_effects policy)));
        mp_invariants := invariants |}.
Definition aspect_module_method_policies (module : AspectModuleRecord) (bundle_id : string)
    : outcome ExecutionError (gmap Method MethodPolicy) :=
  match mod_ir module with
  | None => Ok ∅
  | Some ir =>
      do* ensure (bool_decide (is_Some (ir_bundles ir !! bundle_id))) InvalidArguments in
      let* policies := fold_outcome (λ policies projection,
        let* policy := ok_or (ir_policies ir !!
          qualified_aspect_symbol (pd_bundle projection) (pd_projection projection)) InvalidArguments in
        let* core := core_method_policy_from_aspect module bundle_id policy in
        Ok (<[Other (pd_projection projection) := core]> policies))
        (filter (λ p, pd_bundle p = bundle_id) (values (ir_projections ir))) ∅ in
      do* ensure (negb (bool_decide (policies = ∅))) InvalidArguments in
      Ok policies
  end.
Definition aspect_module_contract (contract_id : ContractId) (module : AspectModuleRecord)
    (bundle_id : string) : outcome ExecutionError ContractRecord :=
  let* method_policies := aspect_module_method_policies module bundle_id in
  Ok (with_policy_manifest contract_id (mod_module_hash module)
        (AspectModule (mod_module_hash module) bundle_id (mod_abi_root module)
           (mod_policy_root module) (mod_invariant_root module))
        method_policies ∅).

(** ** Module records *)
Section records.
Context `{Host}.

Definition computed_hash (m : AspectModuleRecord) : string :=
  root_of (mod_module_id m, mod_taxonomy_version m, mod_source_root m, mod_ir_root m,
    mod_abi_root m, mod_policy_root m, mod_storage_schema_root m, mod_registry_schema_root m,
    mod_invariant_root m).
Definition roots_are_complete (m : AspectModuleRecord) : bool :=
  nonempty (mod_module_id m) && nonempty (mod_taxonomy_version m) && nonempty (mod_source_root m)
  && nonempty (mod_ir_root m) && nonempty (mod_abi_root m) && nonempty (mod_policy_root m)
  && nonempty (mod_storage_schema_root m) && nonempty (mod_registry_schema_root m)
  && nonempty (mod_invariant_root m).
Definition module_record (hash : string) (module_id taxonomy_version : string)
    (roots : AspectModuleRoots) (source : option string) (ir : option AspectModuleIr)
    : AspectModuleRecord :=
  {| mod_module_id := module_id; mod_module_hash := hash; mod_taxonomy_version := taxonomy_version;
     mod_source_root := amr_source_root roots; mod_canonical_source := source;
     mod_ir_root := amr_ir_root roots; mod_ir := ir; mod_abi_root := amr_abi_root roots;
     mod_policy_root := amr_policy_root roots;
     mod_storage_schema_root := amr_storage_schema_root roots;
     mod_registry_schema_root := amr_registry_schema_root roots;
     mod_invariant_root := amr_invariant_root roots |}.
Definition module_record_new (module_id taxonomy_version : string) (roots : AspectModuleRoots)
    : AspectModuleRecord :=
  module_record (computed_hash (module_record "" module_id taxonomy_version roots None None))
    module_id taxonomy_version roots None None.
Definition from_verified_source (module_id source : string)
    : outcome ExecutionError AspectModuleRecord :=
  do* ensure (nonempty module_id) InvalidArguments in
  let* parsed := map_err (parse_verify_module source) InvalidArguments in
  let '(canonical_source, ir, verified) := parsed in
  let verified_ir := vm_ir verified in
  let verified_roots := vm_roots verified in
  do* ensure (bool_decide (is_Some (ir_bundles verified_ir !! module_id))) InvalidArguments in
  let roots := {| amr_source_root := ir_source_root verified_ir;
    amr_ir_root := ar_ir_root verified_roots; amr_abi_root := ar_abi_root verified_roots;
    amr_policy_root := ar_policy_root verified_roots;
    amr_storage_schema_root := ar_storage_schema_root verified_roots;
    amr_registry_schema_root := ar_registry_schema_root verified_roots;
    amr_invariant_root := ar_invariant_root verified_roots |} in
  let record := module_record_new module_id (ir_taxonomy_version verified_ir) roots in
  Ok (module_record (mod_module_hash record) module_id (ir_taxonomy_version verified_ir) roots
        (Some canonical_source) (Some ir)).
End records.

(** ** Values, arguments and keys *)
Definition aspect_value_from_argument (arg : Argument) : AspectValue :=
  match arg with
  | ArgPrincipal value | ArgAsset value | ArgText value | ArgCertificate value => VAtom value
  | ArgAmount value => VAmount value
  end.
Definition bool_to_amount (b : bool) : Amount := if b then 1 else 0.
Definition aspect_value_to_return (value : AspectValue) : outcome ExecutionError ReturnValue :=
  match value with
  | VUnit => Ok RetUnit
  | VAmount value => Ok (RetUInt value)
  | VBool value => Ok (RetUInt (bool_to_amount value))
  | VAtom _ => Err InvalidArguments
  end.
Inductive AbiArgKind := KPrincipal | KAsset | KAmount | KText | KCertificate.

Definition target_matches (target : ContractCallTarget) (contract : string) : bool :=
  match target with TargetAny => true | TargetExact t => bool_decide (t = contract) end.
Definition aspect_policy_allows_contract_call (policy : MethodPolicyIr) (contract method : string) : bool :=
  existsb (λ allowed, bool_decide (ccp_method allowed = method)
    && target_matches (ccp_target allowed) contract) (elements (mpi_call_allowlist policy)).
Definition aspect_policy_allows_contract_state_read (policy : MethodPolicyIr)
    (contract state : string) : bool :=
  existsb (λ allowed, bool_decide (crp_state allowed = state)
    && target_matches (crp_target allowed) contract) (elements (mpi_read_allowlist policy)).
Definition host_call_method_for_target (target_record : ContractRecord) (method : string)
    : outcome ExecutionError Method :=
  match cr_kind target_record with
  | AspectModule _ _ _ _ _ => Ok (Other method)
  | _ => parse_policy_method method
  end.
Definition native_method_arg_kinds (method : Method) : option (list AbiArgKind) :=
  match method with
  | Transfer => Some [KPrincipal; KAsset; KAmount]
  | Approve => Some [KPrincipal; KAsset; KAmount]
  | TransferFrom => Some [KPrincipal; KPrincipal; KAsset; KAmount]
  | Permit => Some [KPrincipal; KPrincipal; KAsset; KAmount; KCertificate]
  | AddLiquidity => Some [KAmount; KAmount]
  | Swap => Some [KAsset; KAmount; KAmount]
  | SubmitPrice => Some [KAsset; KAmount; KAmount]
  | QueueBridgeMessage => Some [KText; KText; KText; KPrincipal; KAsset; KAmount]
  | RedeemBridgeMessage => Some [KText; KPrincipal; KAsset; KAmount; KCertificate]
  | PauseContract | UnpauseContract => Some []
  | ScheduleUpgrade => Some [KText; KText]
  | ExecuteUpgrade => Some [KText]
  | SchedulePolicyUpdate => Some [KText; KText; KText]
  | ExecutePolicyUpdate => Some [KText]
  | DepositCollateral => Some [KAsset; KAmount]
  | Borrow => Some [KAsset; KAmount]
  | Liquidate => Some [KPrincipal; KAsset; KAmount]
  | Stake | Unstake | RequestUnstake | CompleteUnstake => Some [KAsset; KAmount]
  | ClaimStakingRewards => Some [KAsset]
  | RouteTransferFrom => Some [KPrincipal; KPrincipal; KAsset; KAmount]
  | DeployToken => Some [KText; KAsset; KPrincipal; KAmount]
  | DeployAmmPool => Some [KText; KAsset; KAsset]
  | RegisterAccountKey | RevokeAccountKey => Some [KText]
  | SubmitAspectModule | DeployAspectContract | Other _ => None
  end.
Definition abi_arg_kind (type_expr : Expr) : outcome ExecutionError AbiArgKind :=
  match type_expr with
  | Atom type_name =>
      if bool_decide (type_name = "Address") || bool_decide (type_name = "Principal") then Ok KPrincipal
      else if bool_decide (type_name = "Asset") then Ok KAsset
      else if bool_decide (type_name = "Amount") then Ok KAmount
      else if bool_decide (type_name = "Text") then Ok KText
      else if bool_decide (type_name = "Bytes") || bool_decide (type_name = "Certificate")
      then Ok KCertificate
      else Err InvalidArguments
  | ExprList _ => Err InvalidArguments
  end.
Definition abi_arg_kinds (abi_args : Expr) : outcome ExecutionError (list AbiArgKind) :=
  match abi_args with
  | ExprList (Atom head :: items) =>
      if bool_decide (head = "args") then
        mapR (λ item, match item with
          | ExprList [_; type_expr] => abi_arg_kind type_expr
          | _ => Err InvalidArguments
          end) items
      else Err InvalidArguments
  | _ => Err InvalidArguments
  end.
Definition expect_aspect_atom (value : AspectValue) : outcome ExecutionError string :=
  match value with
  | VAtom value => if nonempty value then Ok value else Err InvalidArguments
  | _ => Err InvalidArguments
  end.
Definition expect_aspect_amount (value : AspectValue) : outcome ExecutionError Amount :=
  match value with VAmount value => Ok value | _ => Err InvalidArguments end.
Definition aspect_value_to_argument (kind : AbiArgKind) (value : AspectValue)
    : outcome ExecutionError Argument :=
  match kind with
  | KPrincipal => let* v := expect_aspect_atom value in Ok (ArgPrincipal v)
  | KAsset => let* v := expect_aspect_atom value in Ok (ArgAsset v)
  | KAmount => let* v := expect_aspect_amount value in Ok (ArgAmount v)
  | KText => let* v := expect_aspect_atom value in Ok (ArgText v)
  | KCertificate => let* v := expect_aspect_atom value in Ok (ArgCertificate v)
  end.
Definition aspect_values_to_arg_kinds (kinds : list AbiArgKind) (args : list AspectValue)
    : outcome ExecutionError (list Argument) :=
  if negb (length kinds =? length args)%nat then Err InvalidArguments
  else mapR (λ '(kind, value), aspect_value_to_argument kind value) (zip kinds args).
Definition aspect_values_to_abi_args (abi_args : Expr) (args : list AspectValue)
    : outcome ExecutionError (list Argument) :=
  let* kinds := abi_arg_kinds abi_args in aspect_values_to_arg_kinds kinds args.
Definition aspect_values_to_host_call_args (s : DeTTaState) (target_record : ContractRecord)
    (method : Method) (args : list AspectValue) : outcome ExecutionError (list Argument) :=
  match cr_kind target_record with
  | AspectModule module_hash bundle_id _ _ _ =>
      match method with
      | Other projection =>
          let* module := ok_or (aspect_modules s !! module_hash) InvalidArguments in
          let* ir := ok_or (mod_ir module) PolicyMissing in
          let* abi := ok_or (ir_abi ir !! qualified_aspect_symbol bundle_id projection)
                        InvalidArguments in
          aspect_values_to_abi_args (abi_args abi) args
      | _ => Err InvalidArguments
      end
  | _ =>
      let* arg_kinds := ok_or (native_method_arg_kinds method) InvalidArguments in
      aspect_values_to_arg_kinds arg_kinds args
  end.
Definition state_value_from_aspect (value : AspectValue) : outcome ExecutionError StateValue :=
  match value with
  | VAmount value => Ok (UInt value)
  | VBool value => Ok (UInt (bool_to_amount value))
  | VUnit | VAtom _ => Err InvalidArguments
  end.
Definition aspect_value_from_state_value (value : StateValue) : AspectValue := VAmount (as_uint value).

Definition aspect_write_scope (contract : ContractId) (bundle_id : string)
    (module : AspectModuleRecord) : outcome ExecutionError (gset StateKey) :=
  let* ir := ok_or (mod_ir module) PolicyMissing in
  let* closure := aspect_bundle_aspect_closure ir bundle_id in
  Ok (list_to_set ((λ schema, AspectState contract (ss_aspect schema) (ss_state schema) [])
        <$> filter (λ schema, ss_aspect schema ∈ closure) (values (ir_storage_schema ir)))).
Definition aspect_state_key (contract : ContractId) (bundle_id : string)
    (module : AspectModuleRecord) (state : string) (key : list string)
    : outcome ExecutionError StateKey :=
  let* ir := ok_or (mod_ir module) PolicyMissing in
  let* closure := aspect_bundle_aspect_closure ir bundle_id in
  match filter (λ schema, ss_state schema = state ∧ ss_aspect schema ∈ closure)
          (values (ir_storage_schema ir)) with
  | [] => Err WriteScopeViolation
  | [schema] => Ok (AspectState contract (ss_aspect schema) (ss_state schema) key)
  | _ => Err InvalidArguments
  end.
(** [collect()] into a map: a later entry replaces an earlier one. *)
Definition aspect_state_reads (s : DeTTaState) (contract : ContractId) (bundle_id : string)
    (module : AspectModuleRecord) : outcome ExecutionError AspectStateReads :=
  let* ir := ok_or (mod_ir module) PolicyMissing in
  let* closure := aspect_bundle_aspect_closure ir bundle_id in
  Ok (foldl (λ m '(key, value), match key with
    | AspectState stored_contract aspect state key =>
        if bool_decide (stored_contract = contract) && bool_decide (aspect ∈ closure)
        then <[(state, key) := aspect_value_from_state_value value]> m else m
    | _ => m end) ∅ (entries (storage s))).
Definition aspect_contract_state_reads (s : DeTTaState) : ContractAspectStateReads :=
  foldl (λ m '(key, value), match key with
    | AspectState contract _ state key =>
        <[(contract, state, key) := aspect_value_from_state_value value]> m
    | _ => m end) ∅ (entries (storage s)).
Definition aspect_invariant_op_is_allowed (policy : MethodPolicyIr) (op : AspectHostOp) : bool :=
  match op with
  | OpStateGet _ _ | OpRegistryGet _ => true
  | OpContractStateGet contract state _ =>
      aspect_policy_allows_contract_state_read policy contract state
  | _ => false
  end.

Lemma total_closure ir b : total (aspect_bundle_aspect_closure ir b).
Proof.
  apply total_bundle_closure.
Qed.
#[export] Hint Resolve total_closure : total.

(** The closure of a bundle over its parents and their aspects is always
    computed: cyclic [extends] declarations do not make it diverge. *)
Theorem closure_terminates ir bundle_id :
  ∃ o, aspect_bundle_aspect_closure ir bundle_id = o ∧ o ≠ OutOfFuel ∧ o ≠ Panic.
Proof. exists (aspect_bundle_aspect_closure ir bundle_id). destruct (total_closure ir bundle_id). done. Qed.

Lemma total_resolve_invariant ir b i : total (resolve_aspect_invariant ir b i).
Proof.
  unfold resolve_aspect_invariant. apply total_bind; [auto with total|]. intros closure _.
  match goal with |- total (match ?o with _ => _ end) => destruct o end.
  - apply total_bind; [auto with total|]. intros. case_decide; auto with total.
  - destruct (filter _ _) as [|? [|]]; auto with total.
Qed.
Lemma total_policy_from_aspect m b p : total (core_method_policy_from_aspect m b p).
Proof.
  unfold core_method_policy_from_aspect, aspect_policy_invariant_refs, core_authority.
  apply total_bind; [destruct (mpi_authority p); auto with total|]. intros.
  apply total_bind; [|auto with total]. apply total_bind; [auto with total|]. intros.
  apply total_bind; [|auto with total]. apply total_mapR. intros x.
  apply total_bind; [apply total_resolve_invariant|auto with total].
Qed.
Lemma total_aspect_module_contract c m b : total (aspect_module_contract c m b).
Proof.
  unfold aspect_module_contract, aspect_module_method_policies.
  apply total_bind; [|auto with total]. destruct (mod_ir m); [|auto with total].
  apply total_bind; [auto with total|]. intros. apply total_bind; [|auto with total].
  apply total_fold_outcome. intros. apply total_bind; [auto with total|]. intros.
  apply total_bind; [apply total_policy_from_aspect|auto with total].
Qed.
Lemma total_arg_kinds ks vs : total (aspect_values_to_arg_kinds ks vs).
Proof.
  unfold aspect_values_to_arg_kinds. destruct (negb _); [by split|]. apply total_mapR.
  intros [k v]. destruct k, v; simpl; auto with total; unfold nonempty;
    case_bool_decide; simpl; auto with total.
Qed.
Lemma total_abi_arg_kind e : total (abi_arg_kind e).
Proof. destruct e; simpl; repeat case_match; auto with total. Qed.
Lemma total_host_call_args s r m vs : total (aspect_values_to_host_call_args s r m vs).
Proof.
  unfold aspect_values_to_host_call_args, aspect_values_to_abi_args.
  destruct (cr_kind r); try (apply total_bind; [auto with total|intros; apply total_arg_kinds]).
  destruct m; auto with total. do 3 (apply total_bind; [auto with total|intros]).
  apply total_bind; [|intros; apply total_arg_kinds]. unfold abi_arg_kinds.
  destruct (abi_args _) as [|[|[] ?]]; auto with total. case_bool_decide; [|auto with total].
  apply total_mapR. intros [|[|? [|? [|? ?]]]]; auto using total_abi_arg_kind with total.
Qed.
Lemma total_state_value v : total (state_value_from_aspect v). Proof. by destruct v. Qed.
Lemma total_value_to_return v : total (aspect_value_to_return v). Proof. by destruct v. Qed.
Lemma total_write_scope c b m : total (aspect_write_scope c b m).
Proof. unfold aspect_write_scope. auto with total. Qed.
Lemma total_aspect_state_key c b m s k : total (aspect_state_key c b m s k).
Proof.
  unfold aspect_state_key. do 2 (apply total_bind; [auto with total|intros]).
  destruct (filter _ _) as [|? [|]]; auto with total.
Qed.
Lemma total_aspect_state_reads s c b m : total (aspect_state_reads s c b m).
Proof. unfold aspect_state_reads. auto with total. Qed.
#[export] Hint Resolve total_resolve_invariant total_aspect_module_contract total_host_call_args
  total_state_value total_value_to_return total_write_scope total_aspect_state_key
  total_aspect_state_reads : total.
