(* ===== verification/Runtime.v ===== *)
(** * Runtime: the call context, the executor's monad and its primitive steps

    Models [CallContext], [state_set], [emit] and the argument helpers of
    crates/detta-core/src/lib.rs.  [host_step] lists every way a contract
    method may change the replicated state; the method handlers are shown to
    be made of these steps, whatever their outcome, so that a property of all
    executions is proved by cases on [host_step]. *)
From S2P Require Import Prelude Effects Merkle Types State Policies.

(** ** Call context *)
Record CallFrame := {
  cf_tx_sender : Principal; cf_msg_sender : Principal; cf_contract : ContractId;
  cf_method : Method;
}.
(** The stack's head is the last frame pushed. *)
Record CallContext := {
  cc_tx_sender : Principal; cc_stack : list CallFrame;
  cc_active_nonreentrant_contracts : gset ContractId;
}.
Definition call_context_new (tx_sender : Principal) : CallContext :=
  {| cc_tx_sender := tx_sender; cc_stack := []; cc_active_nonreentrant_contracts := ∅ |}.
Definition enter (contract : ContractId) (method : Method) (msg_sender : Principal)
    (c : CallContext) : outcome ExecutionError CallContext :=
  if decide (contract ∈ cc_active_nonreentrant_contracts c) then Err ReentrancyViolation else
  Ok {| cc_tx_sender := cc_tx_sender c;
        cc_stack := {| cf_tx_sender := cc_tx_sender c; cf_msg_sender := msg_sender;
                       cf_contract := contract; cf_method := method |} :: cc_stack c;
        cc_active_nonreentrant_contracts := {[contract]} ∪ cc_active_nonreentrant_contracts c |}.
Definition exit (c : CallContext) : CallContext :=
  match cc_stack c with
  | [] => c
  | frame :: stack =>
      {| cc_tx_sender := cc_tx_sender c; cc_stack := stack;
         cc_active_nonreentrant_contracts :=
           cc_active_nonreentrant_contracts c ∖ {[cf_contract frame]} |}
  end.

Lemma enter_exit c contract method sender c' :
  enter contract method sender c = Ok c' → exit c' = c.
Proof.
  unfold enter. case_decide as Hin; [done|]. intros [= <-]. unfold exit; simpl.
  destruct c as [t st act]; simpl in *. f_equal. set_solver.
Qed.

(** ** The executor's state and monad *)
Record world := { w_state : DeTTaState; w_ctx : CallContext }.
Abbreviation M := (SE world ExecutionError).

Definition read {A} (f : DeTTaState → A) : M A := gets (λ w, f (w_state w)).
Definition update (f : DeTTaState → DeTTaState) : M () :=
  modify (λ w, {| w_state := f (w_state w); w_ctx := w_ctx w |}).
(** A check on the state that may fail. *)
Definition inspect {A} (f : DeTTaState → outcome ExecutionError A) : M A :=
  λ w, (f (w_state w), w).

Definition set_key (k : StateKey) (v : StateValue) (s : DeTTaState) : DeTTaState :=
  set_storage (<[k := v]> (storage s)) s.
Definition insert_grant (k : GrantKey) (g : Grant) (s : DeTTaState) : DeTTaState :=
  set_registry (<[k := g]> (registry s)) s.

Definition state_set (frame : AuthorizedFrame) (key : StateKey) (value : StateValue) : M () :=
  do? ensure (bool_decide (owner_contract key = fr_contract frame)) ContractIsolationViolation in
  do? ensure (write_scope_contains (fr_write_scope frame) key) WriteScopeViolation in
  update (set_key key value).
Definition emit (contract : ContractId) (tx_hash : TxHash) (payload : EventPayload) : M () :=
  update (emit_event contract tx_hash payload).

(** ** Arguments *)
Definition expect_principal (arg : Argument) : outcome ExecutionError Principal :=
  match arg with ArgPrincipal value => Ok value | _ => Err InvalidArguments end.
Definition expect_asset (arg : Argument) : outcome ExecutionError AssetId :=
  match arg with ArgAsset value => Ok value | _ => Err InvalidArguments end.
Definition expect_amount (arg : Argument) : outcome ExecutionError Amount :=
  match arg with ArgAmount value => Ok value | _ => Err InvalidArguments end.
Definition expect_text (arg : Argument) : outcome ExecutionError string :=
  match arg with ArgText value => Ok value | _ => Err InvalidArguments end.
Definition expect_certificate (arg : Argument) : outcome ExecutionError string :=
  match arg with ArgCertificate value => Ok value | _ => Err InvalidArguments end.
(** [expect_args::<N>], one function per array size in use. *)
Definition expect_args1 (args : list Argument) : outcome ExecutionError Argument :=
  match args with [a] => Ok a | _ => Err InvalidArguments end.
Definition expect_args2 (args : list Argument) : outcome ExecutionError (Argument * Argument) :=
  match args with [a; b] => Ok (a, b) | _ => Err InvalidArguments end.
Definition expect_args3 (args : list Argument)
    : outcome ExecutionError (Argument * Argument * Argument) :=
  match args with [a; b; c] => Ok (a, b, c) | _ => Err InvalidArguments end.
Definition expect_args4 (args : list Argument)
    : outcome ExecutionError (Argument * Argument * Argument * Argument) :=
  match args with [a; b; c; d] => Ok (a, b, c, d) | _ => Err InvalidArguments end.
Definition expect_args5 (args : list Argument)
    : outcome ExecutionError (Argument * Argument * Argument * Argument * Argument) :=
  match args with [a; b; c; d; e] => Ok (a, b, c, d, e) | _ => Err InvalidArguments end.
Definition expect_args6 (args : list Argument)
    : outcome ExecutionError (Argument * Argument * Argument * Argument * Argument * Argument) :=
  match args with [a; b; c; d; e; f] => Ok (a, b, c, d, e, f) | _ => Err InvalidArguments end.
(** [u64::try_from(v: u128)] *)
Definition u64_try_from (v : N) : outcome ExecutionError N :=
  if v <=? u64_max then Ok v else Err ArithmeticOverflow.

Lemma total_expect_principal arg : total (expect_principal arg). Proof. by destruct arg. Qed.
Lemma total_expect_asset arg : total (expect_asset arg). Proof. by destruct arg. Qed.
Lemma total_expect_amount arg : total (expect_amount arg). Proof. by destruct arg. Qed.
Lemma total_expect_text arg : total (expect_text arg). Proof. by destruct arg. Qed.
Lemma total_expect_certificate arg : total (expect_certificate arg). Proof. by destruct arg. Qed.
Lemma total_u64_try_from v : total (u64_try_from v).
Proof. unfold u64_try_from. by destruct (v <=? u64_max). Qed.
Lemma u64_try_from_Ok v x : u64_try_from v = Ok x ↔ x = v ∧ v ≤ u64_max.
Proof.
  unfold u64_try_from. destruct (N.leb_spec v u64_max).
  - split; [by intros [= ->]|by intros [-> _]].
  - split; [done|lia].
Qed.
Ltac solve_expect_args := intros args; repeat (destruct args as [|? args]; try done).
Lemma total_expect_args1 : ∀ args, total (expect_args1 args). Proof. solve_expect_args. Qed.
Lemma total_expect_args2 : ∀ args, total (expect_args2 args). Proof. solve_expect_args. Qed.
Lemma total_expect_args3 : ∀ args, total (expect_args3 args). Proof. solve_expect_args. Qed.
Lemma total_expect_args4 : ∀ args, total (expect_args4 args). Proof. solve_expect_args. Qed.
Lemma total_expect_args5 : ∀ args, total (expect_args5 args). Proof. solve_expect_args. Qed.
Lemma total_expect_args6 : ∀ args, total (expect_args6 args). Proof. solve_expect_args. Qed.
#[export] Hint Resolve total_expect_principal total_expect_asset total_expect_amount
  total_expect_text total_expect_certificate total_u64_try_from total_expect_args1
  total_expect_args2 total_expect_args3 total_expect_args4 total_expect_args5
  total_expect_args6 : total.

(** ** Primitive steps of a method *)

(** The storage keys a contract of a kind keeps. *)
Definition kind_key (kind : ContractKind) (k : StateKey) : bool :=
  match kind, k with
  | Token, (Balance _ _ _ | TotalSupply _ _)
  | AmmPool _ _ _, (Reserve _ _ | AmmFeeCollected _ _ | LpSupply _ | LpBalance _ _)
  | Oracle _ _, (OraclePrice _ _ | OracleTimestamp _ _)
  | Bridge _, BridgeMessageConsumed _ _
  | LendingVault _ _ _ _ _ _ _, (Collateral _ _ _ | Debt _ _ _ | DebtLastAccrualHeight _ _ _
      | BadDebt _ _)
  | Staking _ _ _ _, (StakeBalance _ _ _ | TotalStaked _ _ | PendingUnbond _ _ _
      | TotalPendingUnbond _ _ | StakingPenaltyCollected _ _ | UnbondReadyHeight _ _ _
      | StakingRewardBalance _ _ _ | StakingLastRewardHeight _ _ _)
  | AspectModule _ _ _ _ _, AspectState _ _ _ _ => true
  | _, _ => false
  end.
(** A consumed bridge message is never unmarked. *)
Definition write_ok (k : StateKey) (v : StateValue) : bool :=
  match k with BridgeMessageConsumed _ _ => bool_decide (v = UInt 1) | _ => true end.
Definition token_key (k : StateKey) : bool := kind_key Token k.
Definition is_aspect_kind (kind : ContractKind) : bool :=
  match kind with AspectModule _ _ _ _ _ => true | _ => false end.
Definition set_code_hash (h : string) (r : ContractRecord) : ContractRecord :=
  {| cr_contract_id := cr_contract_id r; cr_code_hash := h; cr_kind := cr_kind r;
     cr_exported_methods := cr_exported_methods r; cr_method_policies := cr_method_policies r;
     cr_declared_invariants := cr_declared_invariants r |}.
Definition set_method_policies (ps : gmap Method MethodPolicy) (r : ContractRecord) : ContractRecord :=
  {| cr_contract_id := cr_contract_id r; cr_code_hash := cr_code_hash r; cr_kind := cr_kind r;
     cr_exported_methods := cr_exported_methods r; cr_method_policies := ps;
     cr_declared_invariants := cr_declared_invariants r |}.
Definition mark_upgrade_executed (u : ScheduledUpgrade) : ScheduledUpgrade :=
  {| su_upgrade_id := su_upgrade_id u; su_governance_contract := su_governance_contract u;
     su_target_contract := su_target_contract u; su_new_code_hash := su_new_code_hash u;
     su_execute_after_height := su_execute_after_height u; su_executed := true |}.
Definition mark_policy_update_executed (u : ScheduledPolicyUpdate) : ScheduledPolicyUpdate :=
  {| spu_update_id := spu_update_id u; spu_governance_contract := spu_governance_contract u;
     spu_target_contract := spu_target_contract u; spu_method := spu_method u;
     spu_effect := spu_effect u; spu_execute_after_height := spu_execute_after_height u;
     spu_executed := true |}.
(** [grant.active = false; grant.revoked = true] *)
Definition revoke (g : Grant) : Grant :=
  {| g_issuer := g_issuer g; g_subject := g_subject g; g_rights := g_rights g;
     g_limit := g_limit g; g_spent := g_spent g; g_active := false; g_revoked := true |}.
(** A deployment installs a record and initial storage of the new contract. *)
Definition install (contract : ContractId) (record : ContractRecord)
    (kvs : list (StateKey * StateValue)) (s : DeTTaState) : DeTTaState :=
  foldl (λ s '(k, v), set_key k v s)
    (set_contracts (<[contract := record]> (contracts s)) s) kvs.

(** [host_step target kind]: one change of the state by a method of the
    contract [target], whose record has kind [kind]. *)
Inductive host_step (target : ContractId) (kind : ContractKind) (s : DeTTaState)
    : DeTTaState → Prop :=
| step_write k v :
    owner_contract k = target → kind_key kind k = true → write_ok k v = true →
    host_step target kind s (set_key k v s)
| step_token k v :
    token_key k = true → host_step target kind s (set_key k v s)
| step_emit tx_hash payload :
    host_step target kind s (emit_event target tx_hash payload s)
| step_allowance owner spender asset g :
    kind = Token → g_subject g = spender →
    g_spent g ≤ default u128_max (g_limit g)
      ∨ registry s !! Allowance target owner spender asset = Some g →
    host_step target kind s (insert_grant (Allowance target owner spender asset) g s)
| step_signer account key g :
    kind = AccountRegistry → account_signer_grant_canonical (AccountSigner account key) g = true →
    host_step target kind s (insert_grant (AccountSigner account key) g s)
| step_revoke_signer account key g :
    kind = AccountRegistry → registry s !! AccountSigner account key = Some g →
    host_step target kind s (insert_grant (AccountSigner account key) (revoke g) s)
| step_certificate nonce :
    nonce ∉ used_certificate_nonces s →
    host_step target kind s
      (set_used_certificate_nonces ({[nonce]} ∪ used_certificate_nonces s) s)
| step_outbox m :
    csm_source_contract m = target →
    host_step target kind s
      (set_cross_shard_outbox (cross_shard_outbox s ++ [m])
        (set_outbound_message_ids ({[csm_message_id m]} ∪ outbound_message_ids s) s))
| step_pause governed delay :
    kind = Governance governed delay →
    host_step target kind s (set_paused_contracts ({[governed]} ∪ paused_contracts s) s)
| step_unpause governed delay :
    kind = Governance governed delay →
    host_step target kind s (set_paused_contracts (paused_contracts s ∖ {[governed]}) s)
| step_schedule_upgrade governed delay u :
    kind = Governance governed delay → scheduled_upgrades s !! su_upgrade_id u = None →
    su_governance_contract u = target → su_target_contract u = governed →
    su_execute_after_height u = height s + delay → su_executed u = false →
    host_step target kind s
      (set_scheduled_upgrades (<[su_upgrade_id u := u]> (scheduled_upgrades s)) s)
| step_execute_upgrade id governed delay u r :
    kind = Governance governed delay → scheduled_upgrades s !! id = Some u →
    su_executed u = false → su_governance_contract u = target →
    su_target_contract u = governed → su_execute_after_height u ≤ height s →
    contracts s !! governed = Some r →
    host_step target kind s
      (set_scheduled_upgrades (<[id := mark_upgrade_executed u]> (scheduled_upgrades s))
        (set_contracts (<[governed := set_code_hash (su_new_code_hash u) r]> (contracts s)) s))
| step_schedule_policy governed delay u :
    kind = Governance governed delay → scheduled_policy_updates s !! spu_update_id u = None →
    spu_governance_contract u = target → spu_target_contract u = governed →
    spu_execute_after_height u = height s + delay → spu_executed u = false →
    host_step target kind s
      (set_scheduled_policy_updates
        (<[spu_update_id u := u]> (scheduled_policy_updates s)) s)
| step_execute_policy id governed delay u r p :
    kind = Governance governed delay → scheduled_policy_updates s !! id = Some u →
    spu_executed u = false → spu_governance_contract u = target →
    spu_target_contract u = governed → spu_execute_after_height u ≤ height s →
    contracts s !! governed = Some r → cr_method_policies r !! spu_method u = Some p →
    host_step target kind s
      (set_scheduled_policy_updates
        (<[id := mark_policy_update_executed u]> (scheduled_policy_updates s))
        (set_contracts (<[governed := set_method_policies
          (<[spu_method u := {| mp_authority := mp_authority p; mp_reentrancy := mp_reentrancy p;
               mp_effects := {[spu_effect u]} ∪ mp_effects p;
               mp_invariants := mp_invariants p |}]> (cr_method_policies r)) r]> (contracts s)) s))
| step_deploy contract record kvs :
    kind = Factory → contract ≠ "" → contracts s !! contract = None →
    cr_contract_id record = contract → is_aspect_kind (cr_kind record) = false →
    (∀ k v, (k, v) ∈ kvs → owner_contract k = contract ∧ kind_key (cr_kind record) k = true
       ∧ write_ok k v = true) →
    host_step target kind s (install contract record kvs s)
| step_module hash m :
    kind = Factory → aspect_modules s !! hash = None → mod_module_hash m = hash →
    host_step target kind s (set_aspect_modules (<[hash := m]> (aspect_modules s)) s).

(** The factory's deployment of an aspect contract, with its admin grant. *)
Inductive deploy_step (target : ContractId) (admin : Principal) (s : DeTTaState)
    : DeTTaState → Prop :=
| step_deploy_aspect contract record :
    contract ≠ "" → contracts s !! contract = None → cr_contract_id record = contract →
    is_aspect_kind (cr_kind record) = true →
    deploy_step target admin s
      (insert_grant (GovernanceAdmin contract admin) (grant_governance_admin admin)
        (set_contracts (<[contract := record]> (contracts s)) s)).

(** ** Interfaces between handlers and the dispatcher

    [Closed target kind R F]: the relation [R] contains the primitive steps of
    the contract [target]. *)
Class Closed (target : ContractId) (kind : ContractKind) (R : relation world) (F : world → Prop)
    : Prop := {
  closed_frame :: Frame R F;
  closed_step s s' ctx :
    host_step target kind s s' →
    R {| w_state := s; w_ctx := ctx |} {| w_state := s'; w_ctx := ctx |};
}.

Definition is_aspect (s : DeTTaState) (c : ContractId) : Prop :=
  match contracts s !! c with Some r => is_aspect_kind (cr_kind r) = true | None => False end.
(** A nested call never deploys an aspect contract. *)
Definition nested_ok (tx : Transaction) : Prop := tx_method tx ≠ DeployAspectContract.
Definition runs_at {A} (R : relation world) (F : world → Prop) (m : M A) (w : world) : Prop :=
  R w (m w).2 ∧ (m w).1 ≠ Panic ∧ (F w → (m w).1 ≠ OutOfFuel).

(** What a native handler is promised about [execute_call]: calls to aspect
    contracts and [TransferFrom] calls stay within [R] and return. *)
Class Calls (R : relation world) (F : world → Prop)
    (call : Transaction → Principal → M ReturnValue) : Prop := {
  calls_aspect tx p w :
    nested_ok tx → is_aspect (w_state w) (tx_target tx) → runs_at R F (call tx p) w;
  calls_transfer_from tx p : tx_method tx = TransferFrom → runs R F (call tx p);
}.
(** What an aspect contract is promised: every nested call does. *)
Class CallsAny (R : relation world) (F : world → Prop)
    (call : Transaction → Principal → M ReturnValue) : Prop :=
  calls_any tx p : nested_ok tx → runs R F (call tx p).

Section primitives.
Context {target : ContractId} {kind : ContractKind} {R : relation world} {F : world → Prop}.
Context `{!Closed target kind R F}.

Lemma runs_read {A} (f : DeTTaState → A) : runs R F (read f).
Proof. by intros w. Qed.
Lemma runs_update f : (∀ s, host_step target kind s (f s)) → runs R F (update f).
Proof. intros Hf [s c]. split_and!; [|done..]. by apply closed_step, Hf. Qed.
Lemma runs_inspect {A} (f : DeTTaState → outcome ExecutionError A) :
  (∀ s, total (f s)) → runs R F (inspect f).
Proof. intros Hf w. destruct (Hf (w_state w)). by split. Qed.
Lemma runs_bind_inspect {A B} (f : DeTTaState → outcome ExecutionError A) (k : A → M B) :
  (∀ s, total (f s)) → (∀ s a, f s = Ok a → runs R F (k a)) → runs R F (bind (inspect f) k).
Proof.
  intros Hf Hk w. unfold bind, inspect. destruct (Hf (w_state w)).
  destruct (f (w_state w)) eqn:Ha; [|done..]. by eapply Hk.
Qed.
(** A check of the state followed at once by the change it licenses. *)
Lemma runs_inspect_update {A B} (f : DeTTaState → outcome ExecutionError A) g (k : A → M B) :
  (∀ s, total (f s)) → (∀ s a, f s = Ok a → host_step target kind s (g a s)) →
  (∀ a, runs R F (k a)) →
  runs R F (bind (inspect f) (λ a, bind (update (g a)) (λ _, k a))).
Proof.
  intros Hf Hg Hk [s c]. unfold bind, inspect, update, modify. simpl. destruct (Hf s).
  destruct (f s) as [a|e| |] eqn:Ha; simpl; [|by split_and!|congruence..].
  destruct (Hk a {| w_state := g a s; w_ctx := c |}) as (HR & Hp & Hfu).
  split_and!; [|done|].
  - etrans; [|exact HR]. apply closed_step. by apply Hg.
  - intros HF. apply Hfu. eapply frame_stable; [|exact HF]. apply closed_step. by apply Hg.
Qed.
Lemma runs_emit tx_hash payload : runs R F (emit target tx_hash payload).
Proof. apply runs_update. constructor. Qed.
Lemma runs_state_set_own frame k v :
  fr_contract frame = target → kind_key kind k = true → write_ok k v = true →
  runs R F (state_set frame k v).
Proof.
  intros Hf Hk Hv. unfold state_set. do 2 runs_step. simplify_ok.
  apply runs_update. intros s. by apply step_write; [congruence|..].
Qed.
Lemma runs_state_set_token frame k v : token_key k = true → runs R F (state_set frame k v).
Proof. intros Hk. unfold state_set. do 2 runs_step. apply runs_update. intros s. by apply step_token. Qed.
End primitives.

#[export] Hint Resolve runs_read runs_emit : runs.
#[export] Hint Extern 0 (Closed _ _ _ _) => apply _ : runs.
#[export] Hint Extern 2 (runs _ _ (state_set _ _ _)) =>
  first [apply runs_state_set_own; reflexivity | apply runs_state_set_token; reflexivity] : runs.

(** ** Success of the primitives *)
Section wp_primitives.
Implicit Types w : world.

Lemma wp_read {A} (f : DeTTaState → A) Q w : wp (read f) Q w ↔ Q (f (w_state w)) w.
Proof. done. Qed.
Lemma wp_update f Q w :
  wp (update f) Q w ↔ Q () {| w_state := f (w_state w); w_ctx := w_ctx w |}.
Proof. done. Qed.
Lemma wp_inspect {A} (f : DeTTaState → outcome ExecutionError A) Q w :
  wp (inspect f) Q w ↔ ∀ a, f (w_state w) = Ok a → Q a w.
Proof. unfold wp, inspect. destruct (f (w_state w)); naive_solver. Qed.
Lemma wp_state_set frame k v Q w :
  wp (state_set frame k v) Q w ↔
  (owner_contract k = fr_contract frame → write_scope_contains (fr_write_scope frame) k = true →
   Q () {| w_state := set_key k v (w_state w); w_ctx := w_ctx w |}).
Proof.
  unfold state_set, wp, bind, lift, ensure.
  destruct (bool_decide_reflect (owner_contract k = fr_contract frame)); [|naive_solver].
  destruct (write_scope_contains _ _); naive_solver.
Qed.

(** A write succeeds exactly inside the frame's contract and scope. *)
Lemma state_set_Ok frame k v w u w' :
  state_set frame k v w = (Ok u, w') ↔
  owner_contract k = fr_contract frame ∧ write_scope_contains (fr_write_scope frame) k = true ∧
  w' = {| w_state := set_key k v (w_state w); w_ctx := w_ctx w |}.
Proof.
  unfold state_set, bind, lift, ensure, update, modify.
  destruct (bool_decide_reflect (owner_contract k = fr_contract frame)); [|naive_solver].
  destruct (write_scope_contains _ _), u; naive_solver.
Qed.
End wp_primitives.

(** ** Storage reads after writes *)
Lemma uint_at_set_key s k v k' :
  uint_at (set_key k v s) k' = if decide (k = k') then as_uint v else uint_at s k'.
Proof.
  unfold uint_at, set_key; simpl. case_decide as Heq; subst.
  - by rewrite lookup_insert_eq.
  - by rewrite lookup_insert_ne.
Qed.
Lemma uint_at_emit s c h p k : uint_at (emit_event c h p s) k = uint_at s k.
Proof. done. Qed.
(** Reads a key back through the writes of a symbolic state. *)
Ltac uint_simpl :=
  cbn [w_state as_uint]; rewrite ?uint_at_emit, ?uint_at_set_key;
  repeat first [rewrite decide_True by congruence | rewrite decide_False by congruence];
  cbn [as_uint].

(** Inverts successful runs into the facts and states they went through. *)
Lemma read_Ok {A} (f : DeTTaState → A) w a w' : read f w = (Ok a, w') ↔ a = f (w_state w) ∧ w' = w.
Proof. unfold read, gets. naive_solver. Qed.
Lemma update_Ok f w u w' :
  update f w = (Ok u, w') ↔ w' = {| w_state := f (w_state w); w_ctx := w_ctx w |}.
Proof. unfold update, modify. destruct u. naive_solver. Qed.
Lemma ret_Ok {A} (a b : A) (w w' : world) :
  ret (E:=ExecutionError) a w = (Ok b, w') ↔ b = a ∧ w' = w.
Proof. unfold ret. naive_solver. Qed.
Lemma inspect_Ok {A} (f : DeTTaState → outcome ExecutionError A) w a w' :
  inspect f w = (Ok a, w') ↔ f (w_state w) = Ok a ∧ w' = w.
Proof. unfold inspect. split; [by intros [= -> ->]|by intros [-> ->]]. Qed.
Ltac inv_ok :=
  repeat (cbv beta zeta in *; match goal with
  | H : bind _ _ _ = (Ok _, _) |- _ =>
      let Hm := fresh "Hm" in let Hk := fresh "Hk" in
      apply bind_Ok in H; destruct H as (? & ? & Hm & Hk)
  | H : lift _ _ = (Ok _, _) |- _ =>
      let He := fresh "He" in apply lift_Ok in H; destruct H as [He ->]
  | H : read _ _ = (Ok _, _) |- _ => apply read_Ok in H; destruct H as [-> ->]
  | H : inspect _ _ = (Ok _, _) |- _ =>
      let He := fresh "He" in apply inspect_Ok in H; destruct H as [He ->]
  | H : update _ _ = (Ok _, _) |- _ => apply update_Ok in H; subst
  | H : emit _ _ _ _ = (Ok _, _) |- _ => unfold emit in H
  | H : ret _ _ = (Ok _, _) |- _ =>
      let He := fresh "He" in apply ret_Ok in H; destruct H as [He ->]; simplify_eq
  | H : throw _ _ = (Ok _, _) |- _ => discriminate H
  | H : state_set _ _ _ _ = (Ok _, _) |- _ =>
      let Ho := fresh "Ho" in let Hsc := fresh "Hsc" in
      apply state_set_Ok in H; destruct H as (Ho & Hsc & ->)
  | H : (match ?x with (_, _) => _ end) _ = (Ok _, _) |- _ => destruct x
  end).
