(* ===== verification/Ledger.v ===== *)
(** * Ledger: totals and the entries they sum

    Four totals of the storage are sums of per-account entries: the supply of
    a token over its balances, the LP supply of a pool over its LP balances,
    the stake and the pending unbonding of a staking contract over its
    stakers.  [ledger_ok] states the equality in ordinary arithmetic; the
    invariant checks of the source are shown to decide it, and writes are
    shown to move it by exactly the difference they make. *)
From S2P Require Import Prelude Effects Merkle Types State Policies Runtime.

(** The total an entry counts towards. *)
Definition total_of (k : StateKey) : option StateKey :=
  match k with
  | Balance c _ a => Some (TotalSupply c a)
  | LpBalance c _ => Some (LpSupply c)
  | StakeBalance c _ a => Some (TotalStaked c a)
  | PendingUnbond c _ a => Some (TotalPendingUnbond c a)
  | _ => None
  end.
Definition is_total (t : StateKey) : bool :=
  match t with
  | TotalSupply _ _ | LpSupply _ | TotalStaked _ _ | TotalPendingUnbond _ _ => true
  | _ => false
  end.

Definition sum_if (f : StateKey → bool) (m : gmap StateKey StateValue) : N :=
  sumN (omap (λ '(k, v), if f k then Some (as_uint v) else None) (map_to_list m)).
Definition counts_to (t k : StateKey) : bool := bool_decide (total_of k = Some t).
Definition ledger_sum (s : DeTTaState) (t : StateKey) : N := sum_if (counts_to t) (storage s).
Definition ledger_ok (s : DeTTaState) (t : StateKey) : Prop :=
  ledger_sum s t = uint_at s t ∧ ledger_sum s t ≤ u128_max.
(** Every ledger outside [D] balances. *)
Definition ledgers_ok_except (D : list StateKey) (s : DeTTaState) : Prop :=
  ∀ t, is_total t = true → t ∉ D → ledger_ok s t.
Definition ledgers_ok (s : DeTTaState) : Prop := ledgers_ok_except [] s.

(** ** Sums over a map *)
Definition contribution (f : StateKey → bool) (k : StateKey) (v : option StateValue) : N :=
  if f k then default 0 (as_uint <$> v) else 0.

Lemma sum_if_insert_new f m k v :
  m !! k = None → sum_if f (<[k := v]> m) = contribution f k (Some v) + sum_if f m.
Proof.
  intros Hk. unfold sum_if, contribution. rewrite map_to_list_insert by done. simpl.
  by destruct (f k); simpl.
Qed.
Lemma sum_if_insert f m k v :
  sum_if f (<[k := v]> m) + contribution f k (m !! k)
  = sum_if f m + contribution f k (Some v).
Proof.
  destruct (m !! k) as [v0|] eqn:Hk.
  - rewrite <- (insert_delete_eq m k v).
    rewrite <- (insert_id m k v0) at 2 by done. rewrite <- (insert_delete_eq m k v0).
    rewrite !sum_if_insert_new by apply lookup_delete_eq. lia.
  - rewrite sum_if_insert_new by done. unfold contribution at 2. simpl. destruct (f k); lia.
Qed.
Lemma sum_if_ext f g m : (∀ k, f k = g k) → sum_if f m = sum_if g m.
Proof.
  intros Hfg. unfold sum_if. f_equal. induction (map_to_list m) as [|[k v] l IH]; simpl; [done|].
  rewrite Hfg. destruct (g k); [f_equal|]; exact IH.
Qed.
Lemma storage_sum_Some s f n :
  storage_sum s f = Some n ↔ n = sum_if f (storage s) ∧ sum_if f (storage s) ≤ u128_max.
Proof.
  unfold storage_sum, sum_if. rewrite try_sum_Some.
  assert (Hs : ∀ l1 l2 : list (StateKey * StateValue), l1 ≡ₚ l2 →
    sumN (omap (λ '(k, v), if f k then Some (as_uint v) else None) l1)
    = sumN (omap (λ '(k, v), if f k then Some (as_uint v) else None) l2)).
  { intros l1 l2 Hp. apply sumN_Permutation. by rewrite Hp. }
  by rewrite (Hs _ _ (entries_Permutation (storage s))).
Qed.

(** ** The checks of the source decide [ledger_ok] *)
Lemma storage_sum_ledger s f t :
  (∀ k, f k = counts_to t k) → storage_sum s f = Some (uint_at s t) ↔ ledger_ok s t.
Proof.
  intros Hf. rewrite storage_sum_Some. unfold ledger_ok, ledger_sum.
  rewrite (sum_if_ext f (counts_to t)) by done. intuition.
Qed.
Ltac solve_counts := intros []; unfold counts_to; simpl; repeat case_bool_decide; simpl; naive_solver.

Lemma token_invariants_hold_iff s c a : token_invariants_hold s c a = true ↔ ledger_ok s (TotalSupply c a).
Proof. unfold token_invariants_hold. rewrite bool_decide_eq_true. apply storage_sum_ledger. solve_counts. Qed.
Lemma amm_invariants_hold_iff s c : amm_invariants_hold s c = true ↔ ledger_ok s (LpSupply c).
Proof. unfold amm_invariants_hold. rewrite bool_decide_eq_true. apply storage_sum_ledger. solve_counts. Qed.
Lemma staking_invariants_hold_iff s c a :
  staking_invariants_hold s c a = true ↔ ledger_ok s (TotalStaked c a).
Proof. unfold staking_invariants_hold. rewrite bool_decide_eq_true. apply storage_sum_ledger. solve_counts. Qed.
Lemma pending_invariants_hold_iff s c a :
  staking_pending_unbonding_invariants_hold s c a = true ↔ ledger_ok s (TotalPendingUnbond c a).
Proof.
  unfold staking_pending_unbonding_invariants_hold. rewrite bool_decide_eq_true.
  apply storage_sum_ledger. solve_counts.
Qed.

(** ** Writes *)
Lemma ledger_sum_set_key s t k v :
  ledger_sum (set_key k v s) t + (if counts_to t k then uint_at s k else 0)
  = ledger_sum s t + (if counts_to t k then as_uint v else 0).
Proof. apply (sum_if_insert (counts_to t)). Qed.
(** An entry is at most the total of its ledger. *)
Lemma entry_le_sum s t k : counts_to t k = true → uint_at s k ≤ ledger_sum s t.
Proof.
  intros Hk. unfold uint_at, ledger_sum. destruct (storage s !! k) as [v|] eqn:Hv; simpl; [|lia].
  rewrite <- (insert_id (storage s) k v), <- (insert_delete_eq _ k v) by done.
  rewrite sum_if_insert_new by apply lookup_delete_eq. unfold contribution. rewrite Hk. simpl. lia.
Qed.

(** The ledger a write disturbs, if any. *)
Definition disturbs (k : StateKey) : list StateKey :=
  if is_total k then [k] else match total_of k with Some t => [t] | None => [] end.
Lemma ledger_ok_set_key s k v t : t ∉ disturbs k → is_total t = true → ledger_ok s t → ledger_ok (set_key k v s) t.
Proof.
  intros Hd Ht [Hs Hle].
  assert (counts_to t k = false) as Hc.
  { unfold counts_to, disturbs in *. case_bool_decide as Hk; [|done]. destruct k; set_solver. }
  assert (k ≠ t) by (intros ->; unfold disturbs in Hd; rewrite Ht in Hd; set_solver).
  pose proof (ledger_sum_set_key s t k v) as Heq. rewrite Hc in Heq.
  unfold ledger_ok. rewrite uint_at_set_key, decide_False by done. lia.
Qed.
Lemma ledgers_set_key D s k v :
  ledgers_ok_except D s → ledgers_ok_except (disturbs k ++ D) (set_key k v s).
Proof.
  intros HI t Ht Hni. apply ledger_ok_set_key; [set_solver|done|]. apply HI; set_solver.
Qed.
(** Moving part of an entry to another entry of the same ledger keeps the sum. *)
Lemma ledger_sum_move s t k1 k2 a :
  counts_to t k1 = true → counts_to t k2 = true → k1 ≠ k2 → a ≤ uint_at s k1 →
  ledger_sum (set_key k2 (UInt (uint_at s k2 + a)) (set_key k1 (UInt (uint_at s k1 - a)) s)) t
  = ledger_sum s t.
Proof.
  intros H1 H2 Hne Ha.
  pose proof (ledger_sum_set_key s t k1 (UInt (uint_at s k1 - a))) as E1.
  pose proof (ledger_sum_set_key (set_key k1 (UInt (uint_at s k1 - a)) s) t k2
    (UInt (uint_at s k2 + a))) as E2.
  rewrite uint_at_set_key, decide_False in E2 by done. rewrite H1 in E1. rewrite H2 in E2.
  simpl in *. lia.
Qed.

Lemma ledgers_mono D D' s : (∀ t, t ∈ D → t ∈ D') → ledgers_ok_except D s → ledgers_ok_except D' s.
Proof. intros HD HI t Ht Hni. apply HI; auto. Qed.
Lemma ledgers_checked D t s :
  ledgers_ok_except D s → ledger_ok s t → ledgers_ok_except (filter (λ u, u ≠ t) D) s.
Proof.
  intros HI Hok u Hu Hni. destruct (decide (u = t)) as [->|Hne]; [done|].
  apply HI; [done|]. intros Hin. apply Hni, list_elem_of_filter. done.
Qed.
(** Only the storage matters. *)
Lemma ledgers_storage D s s' : storage s' = storage s → ledgers_ok_except D s → ledgers_ok_except D s'.
Proof.
  intros Heq HI t Ht Hni. specialize (HI t Ht Hni). unfold ledger_ok, ledger_sum, uint_at in *.
  by rewrite Heq.
Qed.

(** ** Deciding that every ledger balances *)
Definition ledger_check (s : DeTTaState) (t : StateKey) : bool :=
  (ledger_sum s t =? uint_at s t) && (ledger_sum s t <=? u128_max).
Definition ledger_totals (s : DeTTaState) : list StateKey :=
  omap (λ '(k, _), if is_total k then Some k else total_of k) (map_to_list (storage s)).
Lemma sum_if_zero f (m : gmap StateKey StateValue) :
  (∀ k, is_Some (m !! k) → f k = false) → sum_if f m = 0.
Proof.
  intros Hf. unfold sum_if.
  assert (omap (λ '(k, v), if f k then Some (as_uint v) else None) (map_to_list m) = []) as ->; [|done].
  assert (∀ x, x ∈ map_to_list m → f x.1 = false) as Hl.
  { intros [k v] Hin. apply Hf. exists v. by apply elem_of_map_to_list. }
  induction (map_to_list m) as [|[k v] l IH]; simpl; [done|].
  pose proof (Hl (k, v) (list_elem_of_here _ _)) as Hk. simpl in Hk. rewrite Hk. apply IH. intros. apply Hl. by apply list_elem_of_further.
Qed.
Lemma ledgers_check s : forallb (ledger_check s) (ledger_totals s) = true → ledgers_ok s.
Proof.
  rewrite elem_of_forallb. intros Hc t Ht _. destruct (decide (t ∈ ledger_totals s)) as [Hin|Hni].
  { apply Hc in Hin. unfold ledger_check in Hin. simplify_ok. done. }
  assert (∀ k, is_Some (storage s !! k) → k ≠ t ∧ counts_to t k = false) as Hk.
  { intros k [v Hv]. rewrite <- elem_of_map_to_list in Hv.
    assert (∀ u, (if is_total k then Some k else total_of k) = Some u → u ≠ t) as Hu.
    { intros u Hu ->. apply Hni. unfold ledger_totals. rewrite list_elem_of_omap. by exists (k, v). }
    split.
    - intros ->. rewrite Ht in Hu. by eapply Hu.
    - unfold counts_to. apply bool_decide_eq_false. intros Hk. eapply Hu; [|done].
      by destruct k. }
  unfold ledger_ok, ledger_sum, uint_at. rewrite sum_if_zero by (intros; by apply Hk).
  destruct (storage s !! t) as [v|] eqn:Hv; simpl; [|done]. by destruct (Hk t (mk_is_Some _ _ Hv)).
Qed.

(** ** Success keeps the ledgers

    [keeps D D' m]: from a state whose ledgers balance outside [D], a success
    of [m] leaves one whose ledgers balance outside [D']. *)
Definition keeps {A} (D D' : list StateKey) (m : M A) : Prop :=
  ∀ w, ledgers_ok_except D (w_state w) → wp m (λ _ w', ledgers_ok_except D' (w_state w')) w.

Section keeps.
Context {A B : Type}.
Implicit Types D : list StateKey.

Lemma keeps_pure (m : M A) D : (∀ w, (m w).2 = w) → keeps D D m.
Proof. intros Hm w HI. unfold wp. specialize (Hm w). destruct (m w) as [[] w']; simpl in *; by subst. Qed.
Lemma keeps_bind (m : M A) (k : A → M B) D1 D2 D3 :
  keeps D1 D2 m → (∀ a, keeps D2 D3 (k a)) → keeps D1 D3 (bind m k).
Proof. intros Hm Hk w HI. rewrite wp_bind. eapply wp_mono; [by apply Hm|]. intros a w' HI'. by apply Hk. Qed.
Lemma keeps_lift_bind (o : outcome ExecutionError A) (k : A → M B) D1 D2 :
  (∀ a, o = Ok a → keeps D1 D2 (k a)) → keeps D1 D2 (bind (lift o) k).
Proof. intros Hk w HI. rewrite wp_bind, wp_lift. intros a Ha. by apply Hk. Qed.
Lemma keeps_update f D : (∀ s, storage (f s) = storage s) → keeps D D (update f).
Proof. intros Hf w HI. rewrite wp_update; simpl. eapply ledgers_storage; [apply Hf|done]. Qed.
Lemma keeps_state_set frame k v D : keeps D (disturbs k ++ D) (state_set frame k v).
Proof. intros w HI. rewrite wp_state_set. intros _ _. by apply ledgers_set_key. Qed.
Lemma keeps_weaken (m : M A) D1 D2 D3 :
  keeps D1 D2 m → (∀ t, t ∈ D2 → t ∈ D3) → keeps D1 D3 m.
Proof. intros Hm HD w HI. eapply wp_mono; [by apply Hm|]. intros. by eapply ledgers_mono. Qed.
(** An invariant check restores its ledger. *)
Lemma keeps_check (f : DeTTaState → bool) (t : StateKey) (k : unit → M B) D D' e :
  (∀ s, f s = true → ledger_ok s t) →
  (∀ u, keeps (filter (λ u, u ≠ t) D) D' (k u)) →
  keeps D D' (let! b := read f in bind (lift (ensure b e)) k).
Proof.
  intros Hf Hk w HI. rewrite wp_bind, wp_read, wp_bind, wp_lift. intros u Hu.
  apply ensure_Ok in Hu. apply Hk. by apply ledgers_checked; [|apply Hf].
Qed.
End keeps.

Lemma keeps_if {A} (b : bool) (m1 m2 : M A) D1 D2 D3 D4 :
  keeps D1 D2 m1 → keeps D1 D3 m2 → (∀ t, t ∈ D2 ++ D3 → t ∈ D4) → keeps D1 D4 (if b then m1 else m2).
Proof.
  intros H1 H2 HD. destruct b; eapply keeps_weaken; try done; intros; apply HD; set_solver.
Qed.

Create HintDb keeps discriminated.
#[export] Hint Constants Opaque : keeps.

(** [keeps] goals: binds are split, checks clean their ledger, writes dirty
    theirs; what is dirty at the end must be allowed by the goal. *)
Ltac keys_simpl :=
  cbv [disturbs is_total total_of balance_key reserve_key amm_fee_collected_key lp_supply_key
       lp_balance_key oracle_price_key oracle_timestamp_key bridge_message_consumed_key
       collateral_key debt_key debt_last_accrual_height_key bad_debt_key stake_balance_key
       total_staked_key pending_unbond_key total_pending_unbond_key
       staking_penalty_collected_key unbond_ready_height_key staking_reward_balance_key
       staking_last_reward_height_key].
Ltac solve_dirty :=
  let t := fresh "t" in intros t; keys_simpl;
  rewrite ?list_elem_of_filter, ?elem_of_app, ?elem_of_cons, ?elem_of_nil;
  repeat setoid_rewrite list_elem_of_filter; repeat setoid_rewrite elem_of_cons;
  first [tauto | set_solver].
Ltac keeps_check_tac :=
  eapply keeps_check;
  [ let s := fresh in let H := fresh in intros s H;
    first [ apply token_invariants_hold_iff in H | apply amm_invariants_hold_iff in H
          | apply staking_invariants_hold_iff in H | apply pending_invariants_hold_iff in H ];
    exact H
  | intros ?].
Ltac keeps_done := eapply keeps_weaken; [apply keeps_pure; reflexivity|solve_dirty].
Ltac keeps_step :=
  cbv beta zeta;
  match goal with
  | |- keeps _ _ (bind (read _) (λ b, bind (lift (ensure b _)) _)) => keeps_check_tac
  | |- keeps _ _ (bind (lift _) _) => apply keeps_lift_bind; intros ? ?
  | |- keeps _ _ (bind (read _) _) => eapply keeps_bind; [apply keeps_pure; reflexivity|intros ?]
  | |- keeps _ _ (bind (inspect _) _) => eapply keeps_bind; [apply keeps_pure; reflexivity|intros ?]
  | |- keeps _ _ (bind (state_set _ _ _) _) => eapply keeps_bind; [apply keeps_state_set|intros ?]
  | |- keeps _ _ (bind (emit _ _ _) _) =>
      eapply keeps_bind; [apply keeps_update; reflexivity|intros ?]
  | |- keeps _ _ (bind (update _) _) =>
      eapply keeps_bind; [apply keeps_update; reflexivity|intros ?]
  | |- keeps _ _ (bind (if _ then _ else _) _) =>
      eapply keeps_bind; [eapply keeps_if; [repeat keeps_step_inner..|intros ? Ht; exact Ht]|intros ?]
  | |- keeps _ _ (bind _ _) => eapply keeps_bind; [solve [eauto with keeps]|intros ?]
  | |- keeps _ _ (ret _) => keeps_done
  | |- keeps _ _ (throw _) => keeps_done
  | |- keeps _ _ (match ?x with _ => _ end) => destruct x eqn:?
  | |- keeps _ _ _ => solve [eauto with keeps]
  end
with keeps_step_inner :=
  cbv beta zeta;
  match goal with
  | |- keeps _ _ (bind (lift _) _) => apply keeps_lift_bind; intros ? ?
  | |- keeps _ _ (bind (read _) _) => eapply keeps_bind; [apply keeps_pure; reflexivity|intros ?]
  | |- keeps _ _ (bind (state_set _ _ _) _) => eapply keeps_bind; [apply keeps_state_set|intros ?]
  | |- keeps _ _ (state_set _ _ _) => apply keeps_state_set
  | |- keeps _ _ (emit _ _ _) => apply keeps_update; reflexivity
  | |- keeps _ _ (ret _) => apply keeps_pure; reflexivity
  | |- keeps _ _ _ => solve [eauto with keeps]
  end.
Ltac keeps_tac := repeat keeps_step.

(** Turns successful checks in the context into [ledger_ok]. *)
Ltac simplify_checks :=
  simplify_ok;
  repeat match goal with
  | H : token_invariants_hold _ _ _ = true |- _ => apply token_invariants_hold_iff in H
  | H : amm_invariants_hold _ _ = true |- _ => apply amm_invariants_hold_iff in H
  | H : staking_invariants_hold _ _ _ = true |- _ => apply staking_invariants_hold_iff in H
  | H : staking_pending_unbonding_invariants_hold _ _ _ = true |- _ =>
      apply pending_invariants_hold_iff in H
  end.
