(* ===== verification/Token.v ===== *)
(** * Token: native token contracts

    The handlers [transfer], [approve], [transfer_from] and [permit], the
    allowance accounting, and the native balance movements used by the other
    contracts ([transfer_native_asset_balance], [mint_native_asset_balance]). *)
From S2P Require Import Prelude Effects Merkle Types State Policies Runtime Ledger.

(** ** Balance movements *)

(** The debit-credit-check sequence shared by [transfer], [transfer_from] and
    [transfer_native_asset_balance]. *)
Definition move_balance (frame : AuthorizedFrame) (contract : ContractId)
    (from to : Principal) (asset : AssetId) (amount : Amount) : M () :=
  let from_key := balance_key contract from asset in
  let to_key := balance_key contract to asset in
  let! from_balance := read (λ s, uint_at s from_key) in
  do? ensure (negb (from_balance <? amount)) InsufficientBalance in
  let! to_balance := read (λ s, uint_at s to_key) in
  let? new_to := ok_or (checked_add_u128 to_balance amount) ArithmeticOverflow in
  let? new_from := sub_or_panic from_balance amount in
  do! state_set frame from_key (UInt new_from) in
  do! state_set frame to_key (UInt new_to) in
  let! holds := read (λ s, token_invariants_hold s contract asset) in
  do? ensure holds InvariantViolation in
  ret ().

Definition transfer_native_asset_balance (token_contract : ContractId) (from to : Principal)
    (asset : AssetId) (amount : Amount) : M () :=
  let frame := {| fr_contract := token_contract; fr_msg_sender := from;
    fr_write_scope := {[balance_key token_contract from asset;
                        balance_key token_contract to asset]} |} in
  move_balance frame token_contract from to asset amount.

Definition mint_native_asset_balance (token_contract : ContractId) (to : Principal)
    (asset : AssetId) (amount : Amount) : M () :=
  let total_key := TotalSupply token_contract asset in
  let to_key := balance_key token_contract to asset in
  let frame := {| fr_contract := token_contract; fr_msg_sender := to;
    fr_write_scope := {[total_key; to_key]} |} in
  let! total_supply := read (λ s, uint_at s total_key) in
  let! to_balance := read (λ s, uint_at s to_key) in
  let? new_total_supply := ok_or (checked_add_u128 total_supply amount) ArithmeticOverflow in
  let? new_to := ok_or (checked_add_u128 to_balance amount) ArithmeticOverflow in
  do! state_set frame total_key (UInt new_total_supply) in
  do! state_set frame to_key (UInt new_to) in
  let! holds := read (λ s, token_invariants_hold s token_contract asset) in
  do? ensure holds InvariantViolation in
  ret ().

(** ** Allowances *)
Definition spend (g : Grant) (spent : Amount) : Grant :=
  {| g_issuer := g_issuer g; g_subject := g_subject g; g_rights := g_rights g;
     g_limit := g_limit g; g_spent := spent; g_active := g_active g; g_revoked := g_revoked g |}.
Definition consume_allowance (contract : ContractId) (owner spender : Principal) (asset : AssetId)
    (amount : Amount) : M () :=
  let key := Allowance contract owner spender asset in
  let! entry := read (λ s, registry s !! key) in
  let? grant := ok_or entry RegistryGrantMissing in
  do? ensure (g_active grant) RegistryGrantInactive in
  do? ensure (negb (g_revoked grant)) RegistryGrantRevoked in
  do? ensure (bool_decide (g_subject grant = spender)) RegistryGrantMissing in
  do? ensure (bool_decide (SpendAllowance ∈ g_rights grant)) RegistryRightMissing in
  do? ensure (negb (remaining grant <? amount)) AllowanceExceeded in
  let? spent := ok_or (checked_add_u128 (g_spent grant) amount) ArithmeticOverflow in
  update (insert_grant key (spend grant spent)).

(** ** Permit certificates

    [str::split(':')] *)
Fixpoint split_on (sep : ascii) (s : string) : list string :=
  match s with
  | EmptyString => [EmptyString]
  | String c s =>
      let parts := split_on sep s in
      if decide (c = sep) then EmptyString :: parts
      else match parts with
           | [] => [String c EmptyString]
           | p :: ps => String c p :: ps
           end
  end.
Definition verify_permit_certificate (certificate : string) (chain_id : ChainId)
    (contract : ContractId) (owner spender : Principal) (asset : AssetId) (amount : Amount)
    : outcome ExecutionError string :=
  match split_on ":"%char certificate with
  | [p0; p1; p2; p3; p4; p5; p6; p7] =>
      if bool_decide ([p0; p1; p2; p3; p4; p5; p6]
           = ["permit"; chain_id; contract; owner; spender; asset; pretty amount])
      then Ok p7 else Err InvalidCertificate
  | _ => Err InvalidCertificate
  end.

(** ** Handlers *)
Definition transfer (tx : Transaction) (msg_sender : Principal) : M ReturnValue :=
  let? '(to, asset, amount) := expect_args3 (tx_args tx) in
  let? to := expect_principal to in
  let? asset := expect_asset asset in
  let? amount := expect_amount amount in
  let from := msg_sender in
  let frame := {| fr_contract := tx_target tx; fr_msg_sender := from;
    fr_write_scope := {[balance_key (tx_target tx) from asset;
                        balance_key (tx_target tx) to asset]} |} in
  do! move_balance frame (tx_target tx) from to asset amount in
  do! emit (tx_target tx) (tx_tx_hash tx) (EvTransfer from to asset amount) in
  ret RetUnit.

Definition approve (tx : Transaction) (msg_sender : Principal) : M ReturnValue :=
  let? '(spender, asset, amount) := expect_args3 (tx_args tx) in
  let? spender := expect_principal spender in
  let? asset := expect_asset asset in
  let? amount := expect_amount amount in
  let owner := msg_sender in
  do! update (insert_grant (Allowance (tx_target tx) owner spender asset)
                (grant_allowance owner spender amount)) in
  do! emit (tx_target tx) (tx_tx_hash tx) (EvApproval owner spender asset amount) in
  ret RetUnit.

Definition transfer_from (tx : Transaction) (msg_sender : Principal) : M ReturnValue :=
  let? '(owner, to, asset, amount) := expect_args4 (tx_args tx) in
  let? owner := expect_principal owner in
  let? to := expect_principal to in
  let? asset := expect_asset asset in
  let? amount := expect_amount amount in
  let spender := msg_sender in
  do! consume_allowance (tx_target tx) owner spender asset amount in
  let frame := {| fr_contract := tx_target tx; fr_msg_sender := spender;
    fr_write_scope := {[balance_key (tx_target tx) owner asset;
                        balance_key (tx_target tx) to asset]} |} in
  do! move_balance frame (tx_target tx) owner to asset amount in
  do! emit (tx_target tx) (tx_tx_hash tx) (EvTransfer owner to asset amount) in
  ret RetUnit.

(** The nonce check and its consumption, in [permit] and in
    [apply_aspect_permit_verify]. *)
Definition use_certificate_nonce (nonce : string) : M () :=
  λ w, if decide (nonce ∈ used_certificate_nonces (w_state w)) then (Err CertificateReplay, w) else
  update (λ s, set_used_certificate_nonces ({[nonce]} ∪ used_certificate_nonces s) s) w.

Definition permit (tx : Transaction) : M ReturnValue :=
  let? '(owner, spender, asset, amount, certificate) := expect_args5 (tx_args tx) in
  let? owner := expect_principal owner in
  let? spender := expect_principal spender in
  let? asset := expect_asset asset in
  let? amount := expect_amount amount in
  let? certificate := expect_certificate certificate in
  let! chain := read chain_id in
  let? nonce := verify_permit_certificate certificate chain (tx_target tx) owner spender asset amount in
  do! use_certificate_nonce nonce in
  do! update (insert_grant (Allowance (tx_target tx) owner spender asset)
                (grant_allowance owner spender amount)) in
  do! emit (tx_target tx) (tx_tx_hash tx) (EvApproval owner spender asset amount) in
  ret RetUnit.

(** ** Behaviour of the handlers under any outcome *)
Lemma total_verify_permit c ch k o s a n : total (verify_permit_certificate c ch k o s a n).
Proof.
  unfold verify_permit_certificate. generalize (split_on ":" c). intros l.
  do 9 (destruct l as [|? l]; try done). by case_bool_decide.
Qed.
#[export] Hint Resolve total_verify_permit : total.

Section token.
Context {target : ContractId} {kind : ContractKind} {R : relation world} {F : world → Prop}.
Context `{!Closed target kind R F}.

Lemma runs_move_balance frame contract from to asset amount :
  runs R F (move_balance frame contract from to asset amount).
Proof. unfold move_balance. runs_tac. Qed.
Lemma runs_transfer_native c from to asset amount :
  runs R F (transfer_native_asset_balance c from to asset amount).
Proof. unfold transfer_native_asset_balance. apply runs_move_balance. Qed.
Lemma runs_mint_native c to asset amount : runs R F (mint_native_asset_balance c to asset amount).
Proof. unfold mint_native_asset_balance. runs_tac. Qed.
Lemma runs_use_certificate_nonce nonce : runs R F (use_certificate_nonce nonce).
Proof.
  intros [s c]. unfold use_certificate_nonce. case_decide; simpl; [done|].
  split_and!; [|done..]. apply closed_step. by constructor.
Qed.
End token.
#[export] Hint Resolve runs_move_balance runs_transfer_native runs_mint_native
  runs_use_certificate_nonce : runs.

Section token_handlers.
Context {target : ContractId} {R : relation world} {F : world → Prop} `{!Closed target Token R F}.

Lemma runs_insert_allowance owner spender asset g :
  g_subject g = spender → g_spent g ≤ default u128_max (g_limit g) →
  runs R F (update (insert_grant (Allowance target owner spender asset) g)).
Proof. intros. apply runs_update. intros s. constructor; auto. Qed.
Lemma runs_consume_allowance owner spender asset amount :
  runs R F (consume_allowance target owner spender asset amount).
Proof.
  intros [s c]. unfold consume_allowance, bind, read, gets, lift; simpl.
  destruct (registry s !! _) as [g|] eqn:Hg; simpl; [|done].
  destruct (g_active g); simpl; [|done]. destruct (g_revoked g); simpl; [done|].
  case_bool_decide as Hsub; simpl; [|done]. case_bool_decide; simpl; [|done].
  destruct (N.ltb_spec (remaining g) amount) as [|Hrem]; simpl; [done|].
  destruct (checked_add u128_max _ _) as [spent|] eqn:Hspent; simpl; [|done]. simplify_ok.
  split_and!; [|done..]. apply closed_step. constructor; [done|done|]; simpl.
  unfold remaining, saturating_sub in Hrem. destruct (decide (amount = 0)) as [->|].
  - right. rewrite Hg. subst spent. rewrite N.add_0_r. by destruct g.
  - left. destruct (g_limit g); simpl in *; lia.
Qed.
End token_handlers.

Section token_methods.
Context (tx : Transaction) {R : relation world} {F : world → Prop}.
Context `{!Closed (tx_target tx) Token R F}.

Lemma runs_transfer p : runs R F (transfer tx p).
Proof. unfold transfer. runs_tac. Qed.
Lemma runs_approve p : runs R F (approve tx p).
Proof. unfold approve. runs_tac. apply runs_insert_allowance; simpl; [done|lia]. Qed.
Lemma runs_transfer_from p : runs R F (transfer_from tx p).
Proof. unfold transfer_from. runs_tac. apply runs_consume_allowance. Qed.
Lemma runs_permit : runs R F (permit tx).
Proof. unfold permit. runs_tac. apply runs_insert_allowance; simpl; [done|lia]. Qed.
End token_methods.

(** ** Successes keep the ledgers *)
Lemma keeps_move_balance D frame contract from to asset amount :
  keeps D D (move_balance frame contract from to asset amount).
Proof. unfold move_balance. keeps_tac. Qed.
Lemma keeps_transfer_native D c from to asset amount :
  keeps D D (transfer_native_asset_balance c from to asset amount).
Proof. unfold transfer_native_asset_balance. apply keeps_move_balance. Qed.
Lemma keeps_mint_native D c to asset amount :
  keeps D D (mint_native_asset_balance c to asset amount).
Proof. unfold mint_native_asset_balance. keeps_tac. Qed.
Lemma keeps_consume_allowance D c o s a n : keeps D D (consume_allowance c o s a n).
Proof. unfold consume_allowance. keeps_tac. by apply keeps_update. Qed.
Lemma keeps_use_certificate_nonce D nonce : keeps D D (use_certificate_nonce nonce).
Proof.
  intros w HI. unfold use_certificate_nonce, wp. case_decide; simpl; [done|].
  by eapply ledgers_storage.
Qed.
#[export] Hint Resolve keeps_move_balance keeps_transfer_native keeps_mint_native
  keeps_consume_allowance keeps_use_certificate_nonce : keeps.

Lemma keeps_transfer D tx p : keeps D D (transfer tx p).
Proof. unfold transfer. keeps_tac. Qed.
Lemma keeps_approve D tx p : keeps D D (approve tx p).
Proof. unfold approve. keeps_tac. Qed.
Lemma keeps_transfer_from D tx p : keeps D D (transfer_from tx p).
Proof. unfold transfer_from. keeps_tac. Qed.
Lemma keeps_permit D tx : keeps D D (permit tx).
Proof. unfold permit. keeps_tac. Qed.

(** ** Functional behaviour *)
Definition moved (c : ContractId) (from to : Principal) (asset : AssetId) (amount : Amount)
    (s : DeTTaState) : DeTTaState :=
  set_key (Balance c to asset) (UInt (balance s c to asset + amount))
    (set_key (Balance c from asset) (UInt (balance s c from asset - amount)) s).

(** A success moved [amount] and left the ledger balanced. *)
Lemma move_balance_Ok frame c from to asset amount w u w' :
  move_balance frame c from to asset amount w = (Ok u, w') →
  amount ≤ balance (w_state w) c from asset ∧
  balance (w_state w) c to asset + amount ≤ u128_max ∧
  w' = {| w_state := moved c from to asset amount (w_state w); w_ctx := w_ctx w |} ∧
  ledger_ok (w_state w') (TotalSupply c asset).
Proof.
  unfold move_balance. intros. inv_ok.
  simplify_checks. unfold balance. subst. done.
Qed.

Lemma moved_balances c from to asset amount s :
  from ≠ to →
  balance (moved c from to asset amount s) c from asset = balance s c from asset - amount ∧
  balance (moved c from to asset amount s) c to asset = balance s c to asset + amount ∧
  ∀ k, k ≠ Balance c from asset → k ≠ Balance c to asset →
    uint_at (moved c from to asset amount s) k = uint_at s k.
Proof.
  intros Hne. unfold moved, balance. split_and!.
  - rewrite !uint_at_set_key, decide_False, decide_True by congruence. done.
  - rewrite uint_at_set_key, decide_True by done. done.
  - intros k Hf Ht. by rewrite !uint_at_set_key, !decide_False by congruence.
Qed.

(** Between distinct accounts the movement keeps a balanced ledger balanced. *)
Lemma moved_ledger_ok c from to asset amount s :
  from ≠ to → amount ≤ balance s c from asset → ledger_ok s (TotalSupply c asset) →
  ledger_ok (moved c from to asset amount s) (TotalSupply c asset).
Proof.
  intros Hne Ha [Hs Hle]. unfold ledger_ok.
  destruct (moved_balances c from to asset amount s Hne) as (_ & _ & Hother).
  rewrite (Hother (TotalSupply c asset)) by done. unfold moved, balance.
  rewrite (ledger_sum_move s (TotalSupply c asset)); [done|..]; try done.
  - unfold counts_to. by rewrite bool_decide_eq_true.
  - unfold counts_to. by rewrite bool_decide_eq_true.
  - congruence.
Qed.
(** No credit overflows while the ledger balances. *)
Lemma credit_in_range c from to asset amount s :
  from ≠ to → amount ≤ balance s c from asset → ledger_ok s (TotalSupply c asset) →
  balance s c to asset + amount ≤ u128_max.
Proof.
  intros Hne Ha Hok. destruct (moved_ledger_ok c from to asset amount s Hne Ha Hok) as [_ Hle].
  destruct (moved_balances c from to asset amount s Hne) as (_ & Hto & _). rewrite <- Hto.
  etrans; [|exact Hle]. apply entry_le_sum. unfold counts_to. by rewrite bool_decide_eq_true.
Qed.

Definition pair_frame (c : ContractId) (sender from to : Principal) (asset : AssetId) : AuthorizedFrame :=
  {| fr_contract := c; fr_msg_sender := sender;
     fr_write_scope := {[balance_key c from asset; balance_key c to asset]} |}.
Lemma pair_scope c from to asset :
  write_scope_contains {[balance_key c from asset; balance_key c to asset]} (balance_key c from asset) = true ∧
  write_scope_contains {[balance_key c from asset; balance_key c to asset]} (balance_key c to asset) = true.
Proof. unfold write_scope_contains. by rewrite !decide_True by set_solver. Qed.

(** The whole behaviour of the movement on a balanced ledger. *)
Lemma move_balance_run c sender from to asset amount w :
  ledger_ok (w_state w) (TotalSupply c asset) →
  from ≠ to →
  move_balance (pair_frame c sender from to asset) c from to asset amount w =
    if balance (w_state w) c from asset <? amount then (Err InsufficientBalance, w)
    else (Ok (), {| w_state := moved c from to asset amount (w_state w); w_ctx := w_ctx w |}).
Proof.
  intros Hok Hne. unfold move_balance, bind, read, gets, lift. cbv beta iota zeta.
  change (uint_at (w_state w) (balance_key c from asset)) with (balance (w_state w) c from asset).
  change (uint_at (w_state w) (balance_key c to asset)) with (balance (w_state w) c to asset).
  destruct (N.ltb_spec (balance (w_state w) c from asset) amount) as [|Hge]; simpl; [done|].
  unfold checked_add. rewrite (proj2 (N.leb_le _ _)) by (by eapply credit_in_range). simpl.
  unfold sub_or_panic. rewrite (proj2 (N.leb_le _ _)) by done. simpl.
  destruct (pair_scope c from to asset) as [S1 S2].
  unfold state_set, bind, lift, ensure, pair_frame; simpl. rewrite S1, !bool_decide_eq_true_2 by done.
  simpl. rewrite S2. simpl.
  rewrite (proj2 (token_invariants_hold_iff _ c asset)) by (by apply moved_ledger_ok). done.
Qed.

(** A movement from an account to itself credits the balance read before the
    debit: the ledger stays balanced only for the amount zero. *)
Lemma moved_self_ledger c p asset amount s :
  ledger_ok s (TotalSupply c asset) → amount ≤ balance s c p asset →
  token_invariants_hold (moved c p p asset amount s) c asset = (amount =? 0).
Proof.
  intros [Hs Hle] Ha. unfold moved, balance in *. set (k := Balance c p asset) in *.
  set (t := TotalSupply c asset) in *. set (b := uint_at s k) in *.
  assert (counts_to t k = true) as Hc by (unfold counts_to; by rewrite bool_decide_eq_true).
  pose proof (ledger_sum_set_key s t k (UInt (b - amount))) as E1.
  pose proof (ledger_sum_set_key (set_key k (UInt (b - amount)) s) t k (UInt (b + amount))) as E2.
  rewrite uint_at_set_key, decide_True, Hc in E2 by done. rewrite Hc in E1. fold b in E1. cbn [as_uint default from_option id] in E1, E2.
  apply eq_bool_prop_intro. rewrite !Is_true_true, N.eqb_eq, token_invariants_hold_iff. unfold ledger_ok. fold t.
  rewrite !uint_at_set_key, !decide_False by done. split; [intros [? ?]|intros ->; split]; lia.
Qed.

Lemma balance_in_range c p asset s :
  ledger_ok s (TotalSupply c asset) → balance s c p asset ≤ u128_max.
Proof.
  intros [_ Hle]. etrans; [|exact Hle]. apply entry_le_sum. unfold counts_to. by rewrite bool_decide_eq_true.
Qed.
(** The movement from an account to itself on a balanced ledger. *)
Lemma move_balance_self_run c sender p asset amount w :
  ledger_ok (w_state w) (TotalSupply c asset) →
  let held := balance (w_state w) c p asset in
  let w' := {| w_state := moved c p p asset amount (w_state w); w_ctx := w_ctx w |} in
  move_balance (pair_frame c sender p p asset) c p p asset amount w =
    if held <? amount then (Err InsufficientBalance, w)
    else if u128_max <? held + amount then (Err ArithmeticOverflow, w)
    else if amount =? 0 then (Ok (), w') else (Err InvariantViolation, w').
Proof.
  intros Hok held w'. unfold move_balance, bind, read, gets, lift. cbv beta iota zeta.
  change (uint_at (w_state w) (balance_key c p asset)) with held.
  destruct (N.ltb_spec held amount) as [|Hge]; simpl; [done|]. unfold checked_add.
  rewrite N.ltb_antisym. destruct (held + amount <=? u128_max); simpl; [|done].
  unfold sub_or_panic. rewrite (proj2 (N.leb_le _ _)) by done. simpl.
  destruct (pair_scope c p p asset) as [S1 _].
  unfold state_set, bind, lift, ensure, pair_frame; simpl. rewrite S1, !bool_decide_eq_true_2 by done.
  simpl. match goal with |- context [token_invariants_hold ?after c asset] =>
    change after with (moved c p p asset amount (w_state w)) end.
  rewrite moved_self_ledger by done. by destruct (amount =? 0).
Qed.

(** C32. Every outcome of [transfer] on balanced ledgers.  Arguments that are
    not a principal, an asset and an amount are refused, and so is an amount
    above the sender's balance, with nothing changed.  To another account the
    transfer then succeeds, moves exactly the amount and appends one event:
    the overflow and invariant errors cannot occur.  To the sender itself it
    is refused with nothing changed when balance plus amount overflows, it
    succeeds for the amount zero, and for every other amount it has written
    both balances when the supply check fails. *)
Theorem transfer_outcome tx p w :
  (∀ asset, ledger_ok (w_state w) (TotalSupply (tx_target tx) asset)) →
  transfer tx p w =
    match tx_args tx with
    | [ArgPrincipal to; ArgAsset asset; ArgAmount amount] =>
        let held := balance (w_state w) (tx_target tx) p asset in
        let after := moved (tx_target tx) p to asset amount (w_state w) in
        let success := (Ok RetUnit,
          {| w_state := emit_event (tx_target tx) (tx_tx_hash tx) (EvTransfer p to asset amount) after;
             w_ctx := w_ctx w |}) in
        if held <? amount then (Err InsufficientBalance, w)
        else if negb (bool_decide (p = to)) || (amount =? 0) then success
        else if u128_max <? held + amount then (Err ArithmeticOverflow, w)
        else (Err InvariantViolation, {| w_state := after; w_ctx := w_ctx w |})
    | _ => (Err InvalidArguments, w)
    end.
Proof.
  intros Hok. unfold transfer, bind at 1 2 3 4 5, lift.
  destruct (tx_args tx) as [|[to| | | |] [|[|asset| | |] [|[| |amount| |] [|? ?]]]]; try reflexivity. simpl.
  change {| fr_contract := _ |} with (pair_frame (tx_target tx) p p to asset).
  case_bool_decide as Hto; simpl; [subst to|].
  - rewrite move_balance_self_run by done. destruct (_ <? amount); [done|].
    destruct (N.eqb_spec amount 0) as [->|]; [|by destruct (u128_max <? _)].
    by rewrite N.add_0_r, (proj2 (N.ltb_ge _ _)) by (by eapply balance_in_range).
  - rewrite move_balance_run by done. by destruct (_ <? amount).
Qed.

(** A transfer to oneself of a positive amount is refused on a balanced
    ledger: the credit overwrites the debit, and the supply check then fails. *)
Theorem self_transfer_refused tx p w asset amount :
  tx_args tx = [ArgPrincipal p; ArgAsset asset; ArgAmount amount] →
  ledger_ok (w_state w) (TotalSupply (tx_target tx) asset) →
  0 < amount →
  ∀ r w', transfer tx p w ≠ (Ok r, w').
Proof.
  intros Hargs Hok Ha r w' Hrun. unfold transfer in Hrun. rewrite Hargs in Hrun. inv_ok. simplify_eq/=.
  match goal with H : move_balance _ _ _ _ _ _ _ = _ |- _ =>
    apply move_balance_Ok in H as (Hge & Hr & -> & Hok') end.
  cbn [w_state] in Hok'. apply token_invariants_hold_iff in Hok'. rewrite moved_self_ledger in Hok' by done.
  apply N.eqb_eq in Hok'. lia.
Qed.

Lemma consume_allowance_Ok c owner spender asset amount w u w' :
  consume_allowance c owner spender asset amount w = (Ok u, w') →
  ∃ g, registry (w_state w) !! Allowance c owner spender asset = Some g ∧
    g_active g = true ∧ g_revoked g = false ∧ g_subject g = spender ∧
    SpendAllowance ∈ g_rights g ∧ amount ≤ remaining g ∧
    w' = {| w_state := insert_grant (Allowance c owner spender asset)
              (spend g (g_spent g + amount)) (w_state w); w_ctx := w_ctx w |}.
Proof.
  unfold consume_allowance. intros. inv_ok. simplify_ok. eexists; split_and!; try eassumption.
  by subst.
Qed.

(** A successful [transfer_from] had a live allowance grant for the
    caller covering the amount; it charges the grant exactly the amount,
    touches no other grant, and moves the amount from the owner. *)
Theorem transfer_from_spends_allowance tx p w r w' owner to asset amount :
  tx_args tx = [ArgPrincipal owner; ArgPrincipal to; ArgAsset asset; ArgAmount amount] →
  transfer_from tx p w = (Ok r, w') →
  ∃ g, registry (w_state w) !! Allowance (tx_target tx) owner p asset = Some g ∧
    g_active g = true ∧ g_revoked g = false ∧ SpendAllowance ∈ g_rights g ∧
    amount ≤ remaining g ∧
    registry (w_state w') =
      <[Allowance (tx_target tx) owner p asset := spend g (g_spent g + amount)]>
        (registry (w_state w)) ∧
    amount ≤ balance (w_state w) (tx_target tx) owner asset ∧
    storage (w_state w') = storage (moved (tx_target tx) owner to asset amount (w_state w)).
Proof.
  intros Hargs Hrun. unfold transfer_from in Hrun. rewrite Hargs in Hrun. inv_ok. simplify_eq/=.
  match goal with H : consume_allowance _ _ _ _ _ _ = _ |- _ =>
    apply consume_allowance_Ok in H as (g & Hg & ? & ? & ? & ? & ? & ->) end.
  match goal with H : move_balance _ _ _ _ _ _ _ = _ |- _ =>
    apply move_balance_Ok in H as (Hge & Hr & -> & _) end.
  exists g. by split_and!.
Qed.

(** ** Permits *)
Lemma permit_nonce_used tx w r w' owner spender asset amount certificate :
  tx_args tx = [ArgPrincipal owner; ArgPrincipal spender; ArgAsset asset; ArgAmount amount;
                ArgCertificate certificate] →
  permit tx w = (Ok r, w') →
  ∃ nonce, verify_permit_certificate certificate (chain_id (w_state w)) (tx_target tx)
      owner spender asset amount = Ok nonce ∧
    nonce ∉ used_certificate_nonces (w_state w) ∧
    nonce ∈ used_certificate_nonces (w_state w') ∧
    registry (w_state w') =
      <[Allowance (tx_target tx) owner spender asset := grant_allowance owner spender amount]>
        (registry (w_state w)).
Proof.
  intros Hargs Hrun. unfold permit in Hrun. rewrite Hargs in Hrun. inv_ok. simplify_eq/=.
  match goal with H : use_certificate_nonce _ _ = _ |- _ =>
    unfold use_certificate_nonce in H; case_decide; [done|] end. inv_ok.
  eexists. split; [eassumption|]. split_and!; simpl; [done|set_solver|done].
Qed.

(** A certificate is redeemable once: after a successful [permit], any
    [permit] whose certificate carries the same nonce fails with
    [CertificateReplay], in every later state that kept the used nonces. *)
Theorem permit_single_use tx w r w' tx2 w2 owner spender asset amount certificate nonce
    owner2 spender2 asset2 amount2 certificate2 :
  tx_args tx = [ArgPrincipal owner; ArgPrincipal spender; ArgAsset asset; ArgAmount amount;
                ArgCertificate certificate] →
  permit tx w = (Ok r, w') →
  verify_permit_certificate certificate (chain_id (w_state w)) (tx_target tx)
    owner spender asset amount = Ok nonce →
  tx_args tx2 = [ArgPrincipal owner2; ArgPrincipal spender2; ArgAsset asset2; ArgAmount amount2;
                 ArgCertificate certificate2] →
  verify_permit_certificate certificate2 (chain_id (w_state w2)) (tx_target tx2)
    owner2 spender2 asset2 amount2 = Ok nonce →
  used_certificate_nonces (w_state w') ⊆ used_certificate_nonces (w_state w2) →
  permit tx2 w2 = (Err CertificateReplay, w2).
Proof.
  intros Hargs Hrun Hv Hargs2 Hv2 Hsub.
  destruct (permit_nonce_used _ _ _ _ _ _ _ _ _ Hargs Hrun) as (n & Hn & _ & Hin & _).
  rewrite Hv in Hn. injection Hn as <-.
  unfold permit, bind at 1 2 3 4 5 6 7 8 9, lift. rewrite Hargs2. simpl. rewrite Hv2.
  unfold use_certificate_nonce. rewrite decide_True by set_solver. done.
Qed.

(** The textual certificate, and its acceptance. *)
Fixpoint join_on (sep : ascii) (parts : list string) : string :=
  match parts with
  | [] => ""
  | [p] => p
  | p :: ps => p +:+ String sep (join_on sep ps)
  end.
Definition free_of (sep : ascii) (s : string) : Prop := sep ∉ String.list_ascii_of_string s.

Lemma split_on_free sep s : free_of sep s → split_on sep s = [s].
Proof.
  unfold free_of. induction s as [|c s IH]; simpl; [done|]. intros Hn.
  rewrite IH by set_solver. rewrite decide_False by set_solver. done.
Qed.
Lemma split_on_app sep p s :
  free_of sep p → split_on sep (p +:+ String sep s) = p :: split_on sep s.
Proof.
  unfold free_of. induction p as [|c p IH]; simpl; intros Hn.
  - by rewrite decide_True.
  - rewrite IH by set_solver. by rewrite decide_False by set_solver.
Qed.
(** Splitting inverts joining, for parts free of the separator. *)
Lemma split_on_join sep parts :
  parts ≠ [] → Forall (free_of sep) parts → split_on sep (join_on sep parts) = parts.
Proof.
  intros Hne Hf. induction Hf as [|p ps Hp Hps IH]; [done|].
  destruct ps as [|q ps]; [by apply split_on_free|].
  change (join_on sep (p :: q :: ps)) with (p +:+ String sep (join_on sep (q :: ps))).
  by rewrite split_on_app, IH.
Qed.
Lemma pretty_N_char_colon x : x < 10 → pretty_N_char x ≠ ":"%char.
Proof.
  intros. assert (x = 0 ∨ x = 1 ∨ x = 2 ∨ x = 3 ∨ x = 4 ∨ x = 5 ∨ x = 6 ∨ x = 7 ∨ x = 8 ∨ x = 9)
    as Hx by lia. repeat destruct Hx as [->|Hx]; try done. by subst.
Qed.
Lemma pretty_N_go_free x s : free_of ":" s → free_of ":" (pretty_N_go x s).
Proof.
  revert s. induction (N.lt_wf_0 x) as [x _ IH]. intros s Hs.
  destruct (decide (0 < x)) as [Hx|Hx].
  - rewrite pretty_N_go_step by done. apply IH; [by apply N.div_lt|].
    unfold free_of in *; simpl. rewrite not_elem_of_cons. split; [|done].
    apply not_eq_sym, pretty_N_char_colon. apply N.mod_lt. lia.
  - assert (x = 0) as -> by lia. by rewrite pretty_N_go_0.
Qed.
Lemma pretty_N_free (x : N) : free_of ":" (pretty x).
Proof.
  unfold pretty, pretty_N. case_decide; [|apply pretty_N_go_free]; unfold free_of; simpl; set_solver.
Qed.

(** The permit certificate carries no signature: from public data alone,
    anyone can write a certificate that grants [spender] an allowance over
    [owner]'s balance, and [permit] accepts it whoever sends the transaction. *)
Theorem permit_certificate_unsigned tx w owner spender asset amount nonce :
  Forall (free_of ":") [chain_id (w_state w); tx_target tx; owner; spender; asset; nonce] →
  nonce ∉ used_certificate_nonces (w_state w) →
  tx_args tx = [ArgPrincipal owner; ArgPrincipal spender; ArgAsset asset; ArgAmount amount;
    ArgCertificate (join_on ":" ["permit"; chain_id (w_state w); tx_target tx; owner; spender;
                                 asset; pretty amount; nonce])] →
  (permit tx w).1 = Ok RetUnit ∧
  registry (w_state (permit tx w).2) !! Allowance (tx_target tx) owner spender asset
  = Some (grant_allowance owner spender amount).
Proof.
  intros Hf Hn Hargs.
  assert (verify_permit_certificate (join_on ":" ["permit"; chain_id (w_state w); tx_target tx;
    owner; spender; asset; pretty amount; nonce]) (chain_id (w_state w)) (tx_target tx) owner
    spender asset amount = Ok nonce) as Hv.
  { unfold verify_permit_certificate. rewrite split_on_join; [by rewrite bool_decide_eq_true_2|done|].
    rewrite !Forall_cons in Hf. destruct Hf as (?&?&?&?&?&?&_).
    repeat constructor; try done; [unfold free_of; simpl; set_solver|apply pretty_N_free]. }
  revert Hargs Hv. generalize (join_on ":" ["permit"; chain_id (w_state w); tx_target tx;
    owner; spender; asset; pretty amount; nonce]). intros certificate Hargs Hv.
  unfold permit, bind, lift. rewrite Hargs. simpl. rewrite Hv.
  unfold use_certificate_nonce. rewrite decide_False by done. simpl.
  split; [done|]. apply lookup_insert_eq.
Qed.
