(* ===== verification/Assets.v ===== *)
(** * Assets: the ledger behind an asset id

    [resolve_asset_ledger] and the transfers the other contracts use.  An
    asset lives in one native token contract or in an aspect contract that
    exports [ERC20-transfer]; the latter is moved by a nested call, the
    parameter [call] standing for [execute_call]. *)
From S2P Require Import Prelude Effects Merkle Types State Policies Runtime Ledger Token.

Definition native_contracts (s : DeTTaState) (asset : AssetId) : gset ContractId :=
  list_to_set (omap (λ key, match key with
    | TotalSupply contract supply_asset =>
        if bool_decide (supply_asset = asset) &&
           match contracts s !! contract with
           | Some record => match cr_kind record with Token => true | _ => false end
           | None => false
           end
        then Some contract else None
    | _ => None end) (keys (storage s))).
Definition ERC20_transfer : Method := Other "ERC20-transfer".
Definition aspect_token (s : DeTTaState) (asset : AssetId) : option ContractId :=
  match contracts s !! asset with
  | Some record =>
      if is_aspect_kind (cr_kind record) && bool_decide (ERC20_transfer ∈ cr_exported_methods record)
      then Some asset else None
  | None => None
  end.
Definition resolve_asset_ledger (s : DeTTaState) (asset : AssetId)
    : outcome ExecutionError AssetLedger :=
  let natives := set_iter (native_contracts s asset) in
  match natives with
  | _ :: _ :: _ => Err InvalidPoolAsset
  | _ =>
      match head natives, aspect_token s asset with
      | Some _, Some _ => Err InvalidPoolAsset
      | Some contract, None => Ok (NativeToken contract)
      | None, Some contract => Ok (AspectToken contract)
      | None, None => Err InvalidPoolAsset
      end
  end.

Section assets.
Context (call : Transaction → Principal → M ReturnValue).

Definition transfer_aspect_asset_balance (tx : Transaction) (aspect_contract : ContractId)
    (from to : Principal) (amount : Amount) : M () :=
  let! entry := read (λ s, contracts s !! aspect_contract) in
  let? contract := ok_or entry ContractNotFound in
  do? ensure (is_aspect_kind (cr_kind contract)) InvalidPoolAsset in
  do? ensure (bool_decide (ERC20_transfer ∈ cr_exported_methods contract)) MethodNotExported in
  let child_tx := {|
    tx_chain_id := tx_chain_id tx;
    tx_tx_hash := tx_tx_hash tx +:+ ":asset-transfer:" +:+ aspect_contract +:+ ":" +:+ from
                  +:+ ":" +:+ to;
    tx_sender := from; tx_nonce := tx_nonce tx;
    tx_valid_until_height := tx_valid_until_height tx; tx_target := aspect_contract;
    tx_method := ERC20_transfer; tx_args := [ArgPrincipal to; ArgAmount amount];
    tx_signature_ok := true; tx_budget := tx_budget tx |} in
  do! call child_tx from in
  ret ().
Definition transfer_asset_balance (tx : Transaction) (ledger : AssetLedger) (from to : Principal)
    (asset : AssetId) (amount : Amount) : M () :=
  match ledger with
  | NativeToken contract => transfer_native_asset_balance contract from to asset amount
  | AspectToken contract => transfer_aspect_asset_balance tx contract from to amount
  end.
End assets.
Definition mint_asset_balance (ledger : AssetLedger) (to : Principal) (asset : AssetId)
    (amount : Amount) : M () :=
  match ledger with
  | NativeToken contract => mint_native_asset_balance contract to asset amount
  | AspectToken _ => throw InvalidPoolAsset
  end.
Definition mint_bridge_asset_balance (ledger : AssetLedger) (to : Principal) (asset : AssetId)
    (amount : Amount) : M () :=
  match ledger with
  | NativeToken contract => mint_native_asset_balance contract to asset amount
  | AspectToken _ => throw InvalidBridgeMessage
  end.

(** ** Behaviour under any outcome *)
Lemma total_resolve s asset : total (resolve_asset_ledger s asset).
Proof.
  unfold resolve_asset_ledger. destruct (set_iter _) as [|c [|]];
    simpl; destruct (aspect_token s asset); auto with total.
Qed.
#[export] Hint Resolve total_resolve : total.

Section runs.
Context {target : ContractId} {kind : ContractKind} {R : relation world} {F : world → Prop}.
Context `{!Closed target kind R F} {call : Transaction → Principal → M ReturnValue}.

Lemma runs_resolve asset : runs R F (inspect (λ s, resolve_asset_ledger s asset)).
Proof. apply runs_inspect. intros. apply total_resolve. Qed.
Lemma runs_transfer_aspect `{!Calls R F call} tx c from to amount :
  runs R F (transfer_aspect_asset_balance call tx c from to amount).
Proof.
  intros w. unfold transfer_aspect_asset_balance, bind, read, gets, lift; simpl.
  destruct (contracts (w_state w) !! c) as [r|] eqn:Hr; simpl; [|done].
  destruct (is_aspect_kind (cr_kind r)) eqn:Ha; simpl; [|done].
  case_bool_decide; simpl; [|done].
  match goal with |- context [call ?tx ?p w] =>
    destruct (calls_aspect tx p w) as (HR & Hp & Hf) end.
  { done. }
  { unfold is_aspect; simpl. by rewrite Hr. }
  destruct (call _ from w) as [[] w']; simpl in *; naive_solver.
Qed.
Lemma runs_transfer_asset `{!Calls R F call} tx ledger from to asset amount :
  runs R F (transfer_asset_balance call tx ledger from to asset amount).
Proof.
  unfold transfer_asset_balance. destruct ledger; [eauto with runs|apply runs_transfer_aspect].
Qed.
Lemma runs_mint_asset ledger to asset amount : runs R F (mint_asset_balance ledger to asset amount).
Proof. unfold mint_asset_balance. runs_tac. Qed.
Lemma runs_mint_bridge_asset ledger to asset amount :
  runs R F (mint_bridge_asset_balance ledger to asset amount).
Proof. unfold mint_bridge_asset_balance. runs_tac. Qed.
End runs.
#[export] Hint Resolve runs_resolve runs_transfer_asset runs_mint_asset runs_mint_bridge_asset : runs.
#[export] Hint Extern 0 (Calls _ _ _) => apply _ : runs.

(** ** Successes keep the ledgers

    What a handler needs of nested calls: a success keeps every ledger that
    balanced before it. *)
Class CallsKeep (call : Transaction → Principal → M ReturnValue) : Prop :=
  calls_keep D tx p : keeps D D (call tx p).
Section keeps.
Context {call : Transaction → Principal → M ReturnValue} `{!CallsKeep call}.

Lemma keeps_call_unit D tx p : keeps D D (do! call tx p in ret ()).
Proof. eapply keeps_bind; [apply calls_keep|]. intros. by apply keeps_pure. Qed.
Lemma keeps_transfer_asset D tx ledger from to asset amount :
  keeps D D (transfer_asset_balance call tx ledger from to asset amount).
Proof.
  unfold transfer_asset_balance, transfer_aspect_asset_balance. destruct ledger; [eauto with keeps|].
  do 4 keeps_step. apply keeps_call_unit.
Qed.
Lemma keeps_mint_asset D ledger to asset amount : keeps D D (mint_asset_balance ledger to asset amount).
Proof. unfold mint_asset_balance. keeps_tac. Qed.
Lemma keeps_mint_bridge_asset D ledger to asset amount :
  keeps D D (mint_bridge_asset_balance ledger to asset amount).
Proof. unfold mint_bridge_asset_balance. keeps_tac. Qed.
End keeps.
#[export] Hint Resolve keeps_transfer_asset keeps_mint_asset keeps_mint_bridge_asset : keeps.
#[export] Hint Extern 0 (CallsKeep _) => apply _ : keeps.
