(* ===== verification/Amm.v ===== *)
(** * Amm: constant-product pools

    [add_liquidity], [swap] and [amount_after_fee]. *)
From S2P Require Import Prelude Effects Merkle Types State Policies Runtime Ledger Token.
From S2P Require Import Assets.

Definition amount_after_fee (amount : Amount) (fee_bps : N) : outcome ExecutionError Amount :=
  if 10000 <? fee_bps then Err InvalidArguments else
  let* kept := sub_or_panic 10000 fee_bps in
  let* value := ok_or (checked_mul_u128 amount kept) ArithmeticOverflow in
  Ok (value / 10000).

Section amm.
Context (call : Transaction → Principal → M ReturnValue).

Definition add_liquidity (tx : Transaction) (msg_sender : Principal) (asset_a asset_b : AssetId)
    : M ReturnValue :=
  let? '(amount_a, amount_b) := expect_args2 (tx_args tx) in
  let? amount_a := expect_amount amount_a in
  let? amount_b := expect_amount amount_b in
  do? ensure (negb ((amount_a =? 0) || (amount_b =? 0))) InvalidArguments in
  let? minted_lp := ok_or (checked_add_u128 amount_a amount_b) ArithmeticOverflow in
  let provider := msg_sender in
  let reserve_a_key := reserve_key (tx_target tx) asset_a in
  let reserve_b_key := reserve_key (tx_target tx) asset_b in
  let lp_supply_key := lp_supply_key (tx_target tx) in
  let lp_balance_key := lp_balance_key (tx_target tx) provider in
  let! asset_a_ledger := inspect (λ s, resolve_asset_ledger s asset_a) in
  let! asset_b_ledger := inspect (λ s, resolve_asset_ledger s asset_b) in
  let frame := {| fr_contract := tx_target tx; fr_msg_sender := provider;
    fr_write_scope := {[reserve_a_key; reserve_b_key; lp_supply_key; lp_balance_key]} |} in
  let! reserve_a := read (λ s, uint_at s reserve_a_key) in
  let! reserve_b := read (λ s, uint_at s reserve_b_key) in
  let! lp_supply := read (λ s, uint_at s lp_supply_key) in
  let! lp_balance := read (λ s, uint_at s lp_balance_key) in
  do! transfer_asset_balance call tx asset_a_ledger provider (tx_target tx) asset_a amount_a in
  do! transfer_asset_balance call tx asset_b_ledger provider (tx_target tx) asset_b amount_b in
  let? v := ok_or (checked_add_u128 reserve_a amount_a) ArithmeticOverflow in
  do! state_set frame reserve_a_key (UInt v) in
  let? v := ok_or (checked_add_u128 reserve_b amount_b) ArithmeticOverflow in
  do! state_set frame reserve_b_key (UInt v) in
  let? v := ok_or (checked_add_u128 lp_supply minted_lp) ArithmeticOverflow in
  do! state_set frame lp_supply_key (UInt v) in
  let? v := ok_or (checked_add_u128 lp_balance minted_lp) ArithmeticOverflow in
  do! state_set frame lp_balance_key (UInt v) in
  let! holds := read (λ s, amm_invariants_hold s (tx_target tx)) in
  do? ensure holds InvariantViolation in
  do! emit (tx_target tx) (tx_tx_hash tx)
        (EvLiquidityAdded provider asset_a amount_a asset_b amount_b minted_lp) in
  ret (RetUInt minted_lp).

Definition swap (tx : Transaction) (msg_sender : Principal) (asset_a asset_b : AssetId)
    (swap_fee_bps : N) : M ReturnValue :=
  let? '(input_asset, amount_in, min_output) := expect_args3 (tx_args tx) in
  let? input_asset := expect_asset input_asset in
  let? amount_in := expect_amount amount_in in
  let? min_output := expect_amount min_output in
  do? ensure (negb (amount_in =? 0)) InvalidArguments in
  let? output_asset :=
    (if bool_decide (input_asset = asset_a) then Ok asset_b
     else if bool_decide (input_asset = asset_b) then Ok asset_a
     else Err InvalidPoolAsset) in
  let input_key := reserve_key (tx_target tx) input_asset in
  let output_key := reserve_key (tx_target tx) output_asset in
  let fee_key := amm_fee_collected_key (tx_target tx) input_asset in
  let! input_ledger := inspect (λ s, resolve_asset_ledger s input_asset) in
  let! output_ledger := inspect (λ s, resolve_asset_ledger s output_asset) in
  let frame := {| fr_contract := tx_target tx; fr_msg_sender := tx_sender tx;
    fr_write_scope := {[input_key; output_key; fee_key]} |} in
  let! reserve_in := read (λ s, uint_at s input_key) in
  let! reserve_out := read (λ s, uint_at s output_key) in
  do? ensure (negb ((reserve_in =? 0) || (reserve_out =? 0))) InsufficientLiquidity in
  let? amount_in_with_fee := amount_after_fee amount_in swap_fee_bps in
  let? fee_amount := sub_or_panic amount_in amount_in_with_fee in
  let? numerator := ok_or (checked_mul_u128 reserve_out amount_in_with_fee) ArithmeticOverflow in
  let? denominator := ok_or (checked_add_u128 reserve_in amount_in_with_fee) ArithmeticOverflow in
  let? amount_out := div_or_panic numerator denominator in
  do? ensure (negb ((amount_out =? 0) || (reserve_out <? amount_out))) InsufficientLiquidity in
  do? ensure (negb (amount_out <? min_output)) SlippageExceeded in
  do! transfer_asset_balance call tx input_ledger msg_sender (tx_target tx) input_asset amount_in in
  do! transfer_asset_balance call tx output_ledger (tx_target tx) msg_sender output_asset amount_out in
  let? v := ok_or (checked_add_u128 reserve_in amount_in) ArithmeticOverflow in
  do! state_set frame input_key (UInt v) in
  do! (if negb (fee_amount =? 0) then
         let! current_fee := read (λ s, uint_at s fee_key) in
         let? v := ok_or (checked_add_u128 current_fee fee_amount) ArithmeticOverflow in
         state_set frame fee_key (UInt v)
       else ret ()) in
  let? v := sub_or_panic reserve_out amount_out in
  do! state_set frame output_key (UInt v) in
  let! holds := read (λ s, amm_invariants_hold s (tx_target tx)) in
  do? ensure holds InvariantViolation in
  do! emit (tx_target tx) (tx_tx_hash tx)
        (EvSwap msg_sender input_asset output_asset amount_in fee_amount amount_out) in
  ret (RetUInt amount_out).
End amm.

(** ** Arithmetic of a swap *)
Lemma amount_after_fee_Ok amount fee x :
  amount_after_fee amount fee = Ok x → fee ≤ 10000 ∧ x = amount * (10000 - fee) / 10000 ∧ x ≤ amount.
Proof.
  unfold amount_after_fee. destruct (N.ltb_spec 10000 fee) as [|Hf]; [done|]. intros H.
  simplify_ok. subst. split_and!; [done|done|].
  apply N.Div0.div_le_upper_bound. nia.
Qed.
Lemma total_amount_after_fee amount fee : total (amount_after_fee amount fee).
Proof.
  unfold amount_after_fee. destruct (N.ltb_spec 10000 fee); [by split|].
  apply total_bind; [by apply total_sub|]. intros. apply total_bind; auto with total.
Qed.
#[export] Hint Resolve total_amount_after_fee : total.
#[export] Hint Extern 2 (total (sub_or_panic _ _)) =>
  match goal with H : amount_after_fee _ _ = Ok _ |- _ =>
    apply amount_after_fee_Ok in H as (? & ? & ?); apply total_sub; done end : total.

(** The output of a swap never empties the pool, and never lowers the product
    of the reserves. *)
Lemma swap_arithmetic reserve_in reserve_out amount_in x out :
  0 < reserve_in → 0 < reserve_out → x ≤ amount_in →
  out = reserve_out * x / (reserve_in + x) →
  out < reserve_out ∧
  reserve_in * reserve_out ≤ (reserve_in + amount_in) * (reserve_out - out).
Proof.
  intros Hi Ho Hx ->. set (out := _ / _).
  assert ((reserve_in + x) * out ≤ reserve_out * x) as Hmul by (apply N.Div0.mul_div_le).
  assert (out < reserve_out) as Hlt.
  { apply (N.mul_lt_mono_pos_l (reserve_in + x)); nia. }
  split; [done|]. assert (∃ rest, reserve_out = out + rest) as [rest Hr] by (exists (reserve_out - out); lia).
  rewrite Hr in *. replace (out + rest - out) with rest by lia.
  trans ((reserve_in + x) * rest); [nia|]. apply N.mul_le_mono_r. lia.
Qed.

(** ** Behaviour under any outcome *)
Section runs.
Context (tx : Transaction) {asset_a asset_b : AssetId} {fee : N}.
Context {R : relation world} {F : world → Prop}.
Context `{!Closed (tx_target tx) (AmmPool asset_a asset_b fee) R F}.
Context {call : Transaction → Principal → M ReturnValue} `{!Calls R F call}.

Lemma runs_add_liquidity p : runs R F (add_liquidity call tx p asset_a asset_b).
Proof. unfold add_liquidity. runs_tac. Qed.
Lemma runs_swap p : runs R F (swap call tx p asset_a asset_b fee).
Proof.
  unfold swap. runs_tac.
Qed.
End runs.

(** ** Successes keep the ledgers *)
Section keeps.
Context {call : Transaction → Principal → M ReturnValue} `{!CallsKeep call}.

Lemma keeps_add_liquidity D tx p a b : keeps D D (add_liquidity call tx p a b).
Proof. unfold add_liquidity. keeps_tac. Qed.
Lemma keeps_swap D tx p a b fee : keeps D D (swap call tx p a b fee).
Proof. unfold swap. keeps_tac. Qed.
End keeps.

(** ** Functional behaviour *)

(** A native asset moves by exactly the amount between two accounts; every
    other entry stays. *)
Lemma native_moves c from to asset amount w u w' :
  transfer_native_asset_balance c from to asset amount w = (Ok u, w') → from ≠ to →
  amount ≤ balance (w_state w) c from asset ∧
  balance (w_state w') c from asset = balance (w_state w) c from asset - amount ∧
  balance (w_state w') c to asset = balance (w_state w) c to asset + amount ∧
  ∀ k, k ≠ Balance c from asset → k ≠ Balance c to asset → uint_at (w_state w') k = uint_at (w_state w) k.
Proof.
  intros (Ha & _ & -> & _)%move_balance_Ok Hne. split; [done|]. by apply moved_balances.
Qed.

(** The assets a swap moves: the input from the trader to the pool, then the
    output from the pool to the trader, each on the ledger it resolves to;
    after them only the pool's two reserves and its collected fees change. *)
Definition swapped_assets (call : Transaction → Principal → M ReturnValue) (tx : Transaction) (trader : Principal)
    (input : AssetId) (amount_in : Amount) (output : AssetId) (amount_out : Amount)
    (input_ledger output_ledger : AssetLedger) (w w' : world) : Prop :=
  resolve_asset_ledger (w_state w) input = Ok input_ledger ∧
  resolve_asset_ledger (w_state w) output = Ok output_ledger ∧
  ∃ paid received,
    transfer_asset_balance call tx input_ledger trader (tx_target tx) input amount_in w = (Ok (), paid) ∧
    transfer_asset_balance call tx output_ledger (tx_target tx) trader output amount_out paid = (Ok (), received) ∧
    ∀ k, k ≠ reserve_key (tx_target tx) input → k ≠ reserve_key (tx_target tx) output →
      k ≠ amm_fee_collected_key (tx_target tx) input →
      storage (w_state w') !! k = storage (w_state received) !! k.

(** On native ledgers that is the exact exchange of balances. *)
Lemma swapped_native call tx trader input amount_in output amount_out ci co w w' :
  swapped_assets call tx trader input amount_in output amount_out (NativeToken ci) (NativeToken co) w w' →
  trader ≠ tx_target tx → input ≠ output →
  amount_in ≤ balance (w_state w) ci trader input ∧
  balance (w_state w') ci trader input = balance (w_state w) ci trader input - amount_in ∧
  balance (w_state w') ci (tx_target tx) input = balance (w_state w) ci (tx_target tx) input + amount_in ∧
  balance (w_state w') co trader output = balance (w_state w) co trader output + amount_out ∧
  balance (w_state w') co (tx_target tx) output = balance (w_state w) co (tx_target tx) output - amount_out.
Proof.
  intros (_ & _ & paid & received & Hpay & Hget & Hrest) Hne Hio.
  apply native_moves in Hpay as (Ha & Hp1 & Hp2 & Hp3); [|done].
  apply native_moves in Hget as (_ & Hg1 & Hg2 & Hg3); [|done]. unfold balance in *.
  assert (∀ c o a, uint_at (w_state w') (Balance c o a) = uint_at (w_state received) (Balance c o a)) as Hb
    by (intros; unfold uint_at; by rewrite Hrest).
  rewrite !Hb. split; [exact Ha|].
  rewrite !Hg3, Hg1, Hg2, Hp1, Hp2, !Hp3 by congruence. done.
Qed.

(** Collecting the fee writes no other entry. *)
Lemma fee_collected_frame frame key fee w u w' :
  (if negb (fee =? 0) then
     let! current_fee := read (λ s, uint_at s key) in
     let? v := ok_or (checked_add_u128 current_fee fee) ArithmeticOverflow in
     state_set frame key (UInt v)
   else ret ()) w = (Ok u, w') →
  ∀ k, k ≠ key → storage (w_state w') !! k = storage (w_state w) !! k.
Proof.
  case_match; intros Hrun k Hk; inv_ok; [|done]. cbn [w_state]. unfold set_key. by apply lookup_insert_ne.
Qed.

(** C33. A successful swap of a pool of two different assets pays at least the
    caller's minimum and less than the output reserve, adds the whole input
    to its reserve, takes exactly the output from the other, and never lowers
    the product of the reserves.  The assets themselves move: the input went
    from the trader to the pool and the output from the pool to the trader;
    when both assets are native tokens and the trader is not the pool, the
    four balances changed by exactly these amounts. *)
Theorem swap_constant_product call tx p asset_a asset_b fee w r w' input amount_in min_output :
  asset_a ≠ asset_b →
  tx_args tx = [ArgAsset input; ArgAmount amount_in; ArgAmount min_output] →
  swap call tx p asset_a asset_b fee w = (Ok r, w') →
  ∃ output amount_out input_ledger output_ledger,
    (input = asset_a ∧ output = asset_b ∨ input = asset_b ∧ output = asset_a) ∧
    r = RetUInt amount_out ∧
    0 < amount_out ∧ min_output ≤ amount_out < reserve (w_state w) (tx_target tx) output ∧
    reserve (w_state w') (tx_target tx) input = reserve (w_state w) (tx_target tx) input + amount_in ∧
    reserve (w_state w') (tx_target tx) output
      = reserve (w_state w) (tx_target tx) output - amount_out ∧
    reserve (w_state w) (tx_target tx) input * reserve (w_state w) (tx_target tx) output
    ≤ reserve (w_state w') (tx_target tx) input * reserve (w_state w') (tx_target tx) output ∧
    swapped_assets call tx p input amount_in output amount_out input_ledger output_ledger w w' ∧
    (∀ ci co, input_ledger = NativeToken ci → output_ledger = NativeToken co → p ≠ tx_target tx →
      amount_in ≤ balance (w_state w) ci p input ∧
      balance (w_state w') ci p input = balance (w_state w) ci p input - amount_in ∧
      balance (w_state w') ci (tx_target tx) input = balance (w_state w) ci (tx_target tx) input + amount_in ∧
      balance (w_state w') co p output = balance (w_state w) co p output + amount_out ∧
      balance (w_state w') co (tx_target tx) output = balance (w_state w) co (tx_target tx) output - amount_out).
Proof.
  intros Hne Hargs Hrun. unfold swap in Hrun. rewrite Hargs in Hrun. inv_ok. simplify_eq/=.
  match goal with
  | H : (if bool_decide (?i = asset_a) then _ else _) = Ok ?o,
    Hx : amount_after_fee ?n _ = Ok ?x, Hd : div_or_panic _ _ = Ok ?out,
    Hf : (if negb _ then _ else _) _ = (Ok _, ?wf),
    Hpay : transfer_asset_balance _ _ ?li _ _ _ ?n w = (Ok ?u1, ?w1),
    Hget : transfer_asset_balance _ _ ?lo _ _ _ ?out ?w1 = (Ok ?u2, ?w2) |- _ =>
      rename i into input, o into output, n into amount_in, x into net, out into amount_out, wf into collected;
      assert ((input = asset_a ∧ output = asset_b ∨ input = asset_b ∧ output = asset_a)
        ∧ input ≠ output) as [Hio Hd'] by (repeat case_bool_decide; naive_solver);
      pose proof (fee_collected_frame _ _ _ _ _ _ Hf) as Hfee; clear Hf H;
      apply amount_after_fee_Ok in Hx as (_ & _ & Hnet); cbn [w_state] in Hfee;
      destruct u1, u2; exists output, amount_out, li, lo
  end.
  assert (Hin : uint_at (w_state collected) (reserve_key (tx_target tx) input)
    = uint_at (w_state w) (reserve_key (tx_target tx) input) + amount_in).
  { transitivity (uint_at (set_key (reserve_key (tx_target tx) input)
      (UInt (uint_at (w_state w) (reserve_key (tx_target tx) input) + amount_in)) (w_state w))
      (reserve_key (tx_target tx) input)); [|by uint_simpl].
    unfold uint_at at 1 2. rewrite Hfee by done. simplify_ok; subst. unfold set_key; simpl. by rewrite !lookup_insert_eq. }
  simplify_checks. subst.
  destruct (swap_arithmetic (uint_at (w_state w) (reserve_key (tx_target tx) input))
    (uint_at (w_state w) (reserve_key (tx_target tx) output)) amount_in net _
    ltac:(lia) ltac:(lia) Hnet eq_refl) as [Hlt Hk].
  match goal with |- context [swapped_assets _ _ _ _ _ _ _ ?li ?lo w ?after] =>
    assert (swapped_assets call tx p input amount_in output
      (uint_at (w_state w) (reserve_key (tx_target tx) output) * net / (uint_at (w_state w) (reserve_key (tx_target tx) input) + net))
      li lo w after) as Hswap end.
  { split_and!; [done..|]. eexists _, _. split_and!; [done..|]. intros k Hi Ho Hf.
    cbn [w_state]. etransitivity; [apply (lookup_insert_ne (storage (w_state collected))); congruence|].
    rewrite Hfee by done. apply (lookup_insert_ne (storage (w_state _))). congruence. }
  split; [done|]. split; [done|]. split_and!; [..|done|intros ci co -> -> Hpt; by apply (swapped_native _ _ _ _ _ _ _ _ _ _ _ Hswap)].
  all: unfold reserve, reserve_key in *; uint_simpl; rewrite ?Hin; try done; lia.
Qed.
