(* ===== verification/Oracle.v ===== *)
(** * Oracle: price feeds

    [submit_price] and [require_oracle_updater]. *)
From S2P Require Import Prelude Effects Merkle Types State Policies Runtime Ledger.

Definition require_oracle_updater (s : DeTTaState) (contract : ContractId) (updater : Principal)
    : outcome ExecutionError () :=
  let* grant := ok_or (registry s !! OracleUpdater contract updater) UnauthorizedOracleUpdater in
  do* ensure (negb (negb (g_active grant) || g_revoked grant
                    || bool_decide (g_subject grant ≠ updater))) UnauthorizedOracleUpdater in
  ensure (bool_decide (UpdateOracle ∈ g_rights grant)) UnauthorizedOracleUpdater.

Definition submit_price (tx : Transaction) (msg_sender : Principal) (oracle_asset : AssetId)
    (max_age : N) : M ReturnValue :=
  let? '(asset, price, timestamp) := expect_args3 (tx_args tx) in
  let? asset := expect_asset asset in
  let? price := expect_amount price in
  let? timestamp := expect_amount timestamp in
  let? timestamp := u64_try_from timestamp in
  do? ensure (bool_decide (asset = oracle_asset)) InvalidPoolAsset in
  do? ensure (negb (price =? 0)) InvariantViolation in
  let! height := read height in
  do? ensure (negb (saturating_add_u64 timestamp max_age <? height)) StaleOraclePrice in
  do! inspect (λ s, require_oracle_updater s (tx_target tx) msg_sender) in
  let price_key := oracle_price_key (tx_target tx) asset in
  let timestamp_key := oracle_timestamp_key (tx_target tx) asset in
  let frame := {| fr_contract := tx_target tx; fr_msg_sender := msg_sender;
    fr_write_scope := {[price_key; timestamp_key]} |} in
  do! state_set frame price_key (UInt price) in
  do! state_set frame timestamp_key (UInt timestamp) in
  do! emit (tx_target tx) (tx_tx_hash tx) (EvPriceUpdated msg_sender asset price timestamp) in
  ret RetUnit.

Lemma total_require_oracle_updater s c p : total (require_oracle_updater s c p).
Proof. unfold require_oracle_updater. auto with total. Qed.
#[export] Hint Resolve total_require_oracle_updater : total.
#[export] Hint Extern 3 (runs _ _ (inspect _)) => apply runs_inspect; solve [auto with total] : runs.

Lemma runs_submit_price (tx : Transaction) {asset max_age R F}
    `{!Closed (tx_target tx) (Oracle asset max_age) R F} p :
  runs R F (submit_price tx p asset max_age).
Proof. unfold submit_price. runs_tac. Qed.
Lemma keeps_submit_price D tx p asset max_age : keeps D D (submit_price tx p asset max_age).
Proof. unfold submit_price. keeps_tac. Qed.

(** The live updater grant a price update needs. *)
Definition live_updater (s : DeTTaState) (contract : ContractId) (updater : Principal) : Prop :=
  ∃ g, registry s !! OracleUpdater contract updater = Some g ∧ g_active g = true ∧
    g_revoked g = false ∧ g_subject g = updater ∧ UpdateOracle ∈ g_rights g.
Lemma require_oracle_updater_Ok s c p u :
  require_oracle_updater s c p = Ok u → live_updater s c p.
Proof.
  unfold require_oracle_updater. intros H. simplify_ok.
  eexists. split_and!; try eassumption.
  match goal with H : ¬ (_ ≠ _) |- _ => apply dec_stable in H; done end.
Qed.

(** A successful price update came from a live updater of this oracle,
    for the oracle's asset, with a positive price whose timestamp is not older
    than the oracle's maximal age; it sets exactly the price and timestamp. *)
Theorem submit_price_authorized tx p w r w' asset max_age a price ts :
  tx_args tx = [ArgAsset a; ArgAmount price; ArgAmount ts] →
  submit_price tx p asset max_age w = (Ok r, w') →
  a = asset ∧ 0 < price ∧ height (w_state w) ≤ ts + max_age ∧
  live_updater (w_state w) (tx_target tx) p ∧
  storage (w_state w') =
    <[OracleTimestamp (tx_target tx) asset := UInt ts]>
      (<[OraclePrice (tx_target tx) asset := UInt price]> (storage (w_state w))).
Proof.
  intros Hargs Hrun. unfold submit_price in Hrun. rewrite Hargs in Hrun. inv_ok. simplify_eq/=.
  match goal with H : require_oracle_updater _ _ _ = Ok _ |- _ => apply require_oracle_updater_Ok in H end.
  match goal with H : u64_try_from _ = Ok _ |- _ => apply u64_try_from_Ok in H as [-> ?] end.
  simplify_ok. subst. unfold saturating_add in *. split_and!; [done|lia|lia|done|done].
Qed.
