(* ===== verification/Bridge.v ===== *)
(** * Bridge: cross-shard messages

    [queue_bridge_message], [redeem_bridge_message], and the finality proofs
    of crates/detta-core/src/lib.rs ([BridgeValidatorSet],
    [CrossShardFinalityProof], [verify_bridge_finality_proof]). *)
From S2P Require Import Prelude Effects Merkle Types State Policies Runtime Ledger Token.
From S2P Require Import Assets.

(** ** Validator sets and finality proofs *)
Fixpoint insert_validators (seen : gset Principal) (validators : list Principal)
    : outcome ExecutionError (gset Principal) :=
  match validators with
  | [] => Ok seen
  | v :: vs =>
      if bool_decide (v = "") || bool_decide (v ∈ seen) then Err InvalidArguments
      else insert_validators ({[v]} ∪ seen) vs
  end.
Definition bridge_validator_set_new (source_chain : ChainId) (validators : list Principal)
    (quorum : nat) : outcome ExecutionError BridgeValidatorSet :=
  let* unique_validators := insert_validators ∅ validators in
  do* ensure (negb (bool_decide (source_chain = "") || bool_decide (unique_validators = ∅)
      || (quorum =? 0)%nat || (size unique_validators <? quorum)%nat)) InvalidArguments in
  Ok {| bvs_source_chain := source_chain; bvs_validators := unique_validators; bvs_quorum := quorum |}.

(** The loop over the signers: every one a validator, none twice. *)
Fixpoint collect_signers (validators seen : gset Principal) (signers : list Principal)
    : option (gset Principal) :=
  match signers with
  | [] => Some seen
  | s :: ss =>
      if bool_decide (s ∉ validators) || bool_decide (s ∈ seen) then None
      else collect_signers validators ({[s]} ∪ seen) ss
  end.
Definition verifies_finality (self : BridgeValidatorSet) (proof : CrossShardFinalityProof) : bool :=
  if bool_decide (bvs_source_chain self = "") || bool_decide (bvs_validators self = ∅)
     || (bvs_quorum self =? 0)%nat || (size (bvs_validators self) <? bvs_quorum self)%nat
  then false
  else if bool_decide (cfp_source_chain proof ≠ bvs_source_chain self)
     || negb (cfp_quorum proof =? bvs_quorum self)%nat then false
  else match collect_signers (bvs_validators self) ∅ (cfp_signers proof) with
       | None => false
       | Some unique_signers => (bvs_quorum self <=? size unique_signers)%nat
       end.

Section proofs.
Context `{Host}.

Definition verify_outbox_message (self : OutboxMessageProof) : bool :=
  verify (omp_proof self) (omp_message self).
Definition verify_message (self : CrossShardFinalityProof) (expected : ExpectedBridgeMessage) : bool :=
  if (cfp_quorum self =? 0)%nat || (length (cfp_signers self) <? cfp_quorum self)%nat then false
  else if negb (size (list_to_set (cfp_signers self) : gset Principal)
                =? length (cfp_signers self))%nat then false
  else if bool_decide (cfp_finalized_block_hash self = "") then false
  else if negb (verify_outbox_message (cfp_message_proof self))
       || bool_decide (mp_root (omp_proof (cfp_message_proof self)) ≠ cfp_outbox_root self) then false
  else
    let message := omp_message (cfp_message_proof self) in
    bool_decide (cfp_source_chain self = exp_source_chain expected)
    && bool_decide (csm_source_chain message = cfp_source_chain self)
    && (csm_source_height message =? cfp_source_height self)
    && bool_decide (csm_destination_chain message = exp_destination_chain expected)
    && bool_decide (csm_destination_contract message = exp_destination_contract expected)
    && bool_decide (csm_message_id message = exp_message_id expected)
    && bool_decide (csm_recipient message = exp_recipient expected)
    && bool_decide (csm_asset message = exp_asset expected)
    && (csm_amount message =? exp_amount expected).
Definition verify_message_with_validator_set (self : CrossShardFinalityProof)
    (expected : ExpectedBridgeMessage) (validator_set : BridgeValidatorSet) : bool :=
  verify_message self expected && verifies_finality validator_set self.
Definition verify_bridge_finality_proof (certificate : string) (expected : ExpectedBridgeMessage)
    (validator_set : BridgeValidatorSet) : outcome ExecutionError () :=
  let* proof := ok_or (finality_proof_from_str certificate) InvalidBridgeMessage in
  ensure (verify_message_with_validator_set proof expected validator_set) InvalidBridgeMessage.
End proofs.

(** ** Handlers *)
(** [contains] and the later [insert] and [push] of an outbound message. *)
Definition append_outbox (m : CrossShardMessage) (s : DeTTaState) : DeTTaState :=
  set_cross_shard_outbox (cross_shard_outbox s ++ [m])
    (set_outbound_message_ids ({[csm_message_id m]} ∪ outbound_message_ids s) s).

Section handlers.
Context `{Host} (call : Transaction → Principal → M ReturnValue).

Definition queue_bridge_message (tx : Transaction) (msg_sender : Principal) : M ReturnValue :=
  let? '(destination_chain, destination_contract, message_id, recipient, asset, amount) :=
    expect_args6 (tx_args tx) in
  let? destination_chain := expect_text destination_chain in
  let? destination_contract := expect_text destination_contract in
  let? message_id := expect_text message_id in
  let? recipient := expect_principal recipient in
  let? asset := expect_asset asset in
  let? amount := expect_amount amount in
  do? ensure (negb (amount =? 0)) InvalidArguments in
  let! ids := read outbound_message_ids in
  do? ensure (negb (bool_decide (message_id ∈ ids))) OutboundMessageReplay in
  let! asset_ledger := inspect (λ s, resolve_asset_ledger s asset) in
  let! chain := read chain_id in
  let! h := read height in
  let message := {| csm_source_chain := chain;
    csm_source_contract := tx_target tx; csm_source_height := h;
    csm_destination_chain := destination_chain; csm_destination_contract := destination_contract;
    csm_message_id := message_id; csm_recipient := recipient; csm_asset := asset;
    csm_amount := amount |} in
  do! transfer_asset_balance call tx asset_ledger msg_sender (tx_target tx) asset amount in
  do! update (append_outbox message) in
  do! emit (tx_target tx) (tx_tx_hash tx) (EvCrossShardMessageQueued message_id destination_chain
        destination_contract recipient asset amount) in
  ret RetUnit.

Definition redeem_bridge_message (tx : Transaction) (msg_sender : Principal)
    (source_chain : ChainId) : M ReturnValue :=
  let? '(message_id, recipient, asset, amount, certificate) := expect_args5 (tx_args tx) in
  let? message_id := expect_text message_id in
  let? recipient := expect_principal recipient in
  let? asset := expect_asset asset in
  let? amount := expect_amount amount in
  let? certificate := expect_certificate certificate in
  do? ensure (negb (amount =? 0)) InvalidArguments in
  let! chain := read chain_id in
  let expected := {| exp_destination_chain := chain; exp_destination_contract := tx_target tx;
    exp_source_chain := source_chain; exp_message_id := message_id; exp_recipient := recipient;
    exp_asset := asset; exp_amount := amount |} in
  let! entry := read (λ s, trusted_bridge_validator_sets s !! source_chain) in
  let? validator_set := ok_or entry InvalidBridgeMessage in
  do? verify_bridge_finality_proof certificate expected validator_set in
  let consumed_key := bridge_message_consumed_key (tx_target tx) message_id in
  let! consumed := read (λ s, uint_at s consumed_key) in
  do? ensure (consumed =? 0) BridgeMessageReplay in
  let! asset_ledger := inspect (λ s, resolve_asset_ledger s asset) in
  let frame := {| fr_contract := tx_target tx; fr_msg_sender := msg_sender;
    fr_write_scope := {[consumed_key]} |} in
  do! mint_bridge_asset_balance asset_ledger recipient asset amount in
  do! state_set frame consumed_key (UInt 1) in
  do! emit (tx_target tx) (tx_tx_hash tx) (EvBridgeMessageRedeemed message_id recipient asset amount) in
  ret RetUnit.
End handlers.

(** ** Behaviour under any outcome *)
Lemma total_verify_bridge `{Host} c e v : total (verify_bridge_finality_proof c e v).
Proof. unfold verify_bridge_finality_proof. auto with total. Qed.
#[export] Hint Resolve total_verify_bridge : total.
Lemma runs_append_outbox {target kind R F} `{!Closed target kind R F} m :
  csm_source_contract m = target → runs R F (update (append_outbox m)).
Proof. intros. apply runs_update. intros s. by constructor. Qed.

Section runs.
Context `{Host} (tx : Transaction) {source : ChainId} {R : relation world} {F : world → Prop}.
Context `{!Closed (tx_target tx) (Bridge source) R F}.
Context {call : Transaction → Principal → M ReturnValue} `{!Calls R F call}.

Lemma runs_queue_bridge_message p : runs R F (queue_bridge_message call tx p).
Proof. unfold queue_bridge_message. runs_tac. by apply runs_append_outbox. Qed.
Lemma runs_redeem_bridge_message p : runs R F (redeem_bridge_message tx p source).
Proof. unfold redeem_bridge_message. runs_tac. Qed.
End runs.

(** ** Successes keep the ledgers *)
Lemma keeps_queue_bridge_message {call} `{!CallsKeep call} D tx p :
  keeps D D (queue_bridge_message call tx p).
Proof. unfold queue_bridge_message. keeps_tac. Qed.
Lemma keeps_redeem_bridge_message `{Host} D tx p source :
  keeps D D (redeem_bridge_message tx p source).
Proof. unfold redeem_bridge_message. keeps_tac. Qed.

(** ** Functional behaviour *)
Lemma mint_native_Ok c to asset amount w u w' :
  mint_native_asset_balance c to asset amount w = (Ok u, w') →
  uint_at (w_state w) (TotalSupply c asset) + amount ≤ u128_max ∧
  w' = {| w_state := set_key (Balance c to asset)
              (UInt (balance (w_state w) c to asset + amount))
            (set_key (TotalSupply c asset) (UInt (total_supply (w_state w) c asset + amount))
              (w_state w)); w_ctx := w_ctx w |} ∧
  ledger_ok (w_state w') (TotalSupply c asset).
Proof. unfold mint_native_asset_balance. intros. inv_ok. simplify_checks. by subst. Qed.

(** C35. Redemption is exactly-once and exact: a success found the message
    unconsumed and backed by a finality proof for the trusted validator set,
    marks it consumed, mints exactly the amount to the recipient on the asset's
    native ledger, and nothing else is written. *)
Theorem redeem_mints_exactly `{Host} tx p w r w' source message_id recipient asset amount certificate :
  tx_args tx = [ArgText message_id; ArgPrincipal recipient; ArgAsset asset; ArgAmount amount;
                ArgCertificate certificate] →
  redeem_bridge_message tx p source w = (Ok r, w') →
  ∃ vs c,
    trusted_bridge_validator_sets (w_state w) !! source = Some vs ∧
    verify_bridge_finality_proof certificate {| exp_destination_chain := chain_id (w_state w);
      exp_destination_contract := tx_target tx; exp_source_chain := source;
      exp_message_id := message_id; exp_recipient := recipient; exp_asset := asset;
      exp_amount := amount |} vs = Ok () ∧
    uint_at (w_state w) (BridgeMessageConsumed (tx_target tx) message_id) = 0 ∧
    resolve_asset_ledger (w_state w) asset = Ok (NativeToken c) ∧
    storage (w_state w') =
      <[BridgeMessageConsumed (tx_target tx) message_id := UInt 1]>
        (<[Balance c recipient asset := UInt (balance (w_state w) c recipient asset + amount)]>
          (<[TotalSupply c asset := UInt (total_supply (w_state w) c asset + amount)]>
            (storage (w_state w)))).
Proof.
  intros Hargs Hrun. unfold redeem_bridge_message in Hrun. rewrite Hargs in Hrun. inv_ok.
  simplify_eq/=. simplify_ok.
  match goal with H : verify_bridge_finality_proof _ _ _ = Ok ?u |- _ => destruct u end.
  match goal with H : mint_bridge_asset_balance ?l _ _ _ _ = (Ok _, _) |- _ =>
    destruct l as [c|c]; [|done]; simpl in H; apply mint_native_Ok in H as (_ & -> & _) end.
  eexists _, c. split_and!; done.
Qed.

(** A consumed message is never redeemed again. *)
Theorem redeem_consumed_refused `{Host} tx p w source message_id recipient asset amount certificate :
  tx_args tx = [ArgText message_id; ArgPrincipal recipient; ArgAsset asset; ArgAmount amount;
                ArgCertificate certificate] →
  uint_at (w_state w) (BridgeMessageConsumed (tx_target tx) message_id) ≠ 0 →
  ∃ e, redeem_bridge_message tx p source w = (Err e, w) ∧
    e ∈ [InvalidArguments; InvalidBridgeMessage; BridgeMessageReplay].
Proof.
  intros Hargs Hc. unfold redeem_bridge_message, bind, lift, read, gets. rewrite Hargs. simpl.
  destruct (amount =? 0); simpl; [eexists; split; [done|set_solver]|].
  destruct (trusted_bridge_validator_sets _ !! source) as [vs|]; simpl; [|eexists; split; [done|set_solver]].
  destruct (verify_bridge_finality_proof _ _ _) as [|e| |] eqn:Hv; simpl.
  - apply N.eqb_neq in Hc. unfold bridge_message_consumed_key. rewrite Hc. simpl.
    eexists; split; [done|set_solver].
  - exists e. split; [done|]. unfold verify_bridge_finality_proof in Hv.
    destruct (finality_proof_from_str certificate); simpl in Hv; [|injection Hv as <-; set_solver].
    destruct (verify_message_with_validator_set _ _ _); simpl in Hv; [done|injection Hv as <-; set_solver].
  - by destruct (total_verify_bridge certificate {| exp_destination_chain := chain_id (w_state w);
      exp_destination_contract := tx_target tx; exp_source_chain := source;
      exp_message_id := message_id; exp_recipient := recipient; exp_asset := asset;
      exp_amount := amount |} vs).
  - by destruct (total_verify_bridge certificate {| exp_destination_chain := chain_id (w_state w);
      exp_destination_contract := tx_target tx; exp_source_chain := source;
      exp_message_id := message_id; exp_recipient := recipient; exp_asset := asset;
      exp_amount := amount |} vs).
Qed.

(** ** Quorums *)
Lemma collect_signers_Some validators seen signers u :
  seen ⊆ validators → collect_signers validators seen signers = Some u →
  u = list_to_set signers ∪ seen ∧ u ⊆ validators ∧ size u = (length signers + size seen)%nat ∧
  NoDup signers ∧ (∀ s, s ∈ signers → s ∉ seen).
Proof.
  revert seen. induction signers as [|s ss IH]; simpl; intros seen Hsub Hc.
  - injection Hc as <-. split_and!; [set_solver|done|done|constructor|set_solver].
  - repeat case_bool_decide; simpl in Hc; try done.
    apply IH in Hc as (-> & Hv & Hsz & Hnd & Hseen); [|set_solver]. split_and!.
    + set_solver.
    + done.
    + rewrite Hsz, size_union, size_singleton by set_solver. lia.
    + constructor; [|done]. intros Hin. apply Hseen in Hin. set_solver.
    + set_solver.
Qed.
(** A finality proof a validator set accepts lists a quorum of distinct
    validators of that set, for the set's own source chain. *)
Theorem finality_needs_quorum vs proof :
  verifies_finality vs proof = true →
  NoDup (cfp_signers proof) ∧ (bvs_quorum vs ≤ length (cfp_signers proof))%nat ∧
  (0 < bvs_quorum vs)%nat ∧ (∀ s, s ∈ cfp_signers proof → s ∈ bvs_validators vs) ∧
  cfp_source_chain proof = bvs_source_chain vs.
Proof.
  unfold verifies_finality. intros Hv. repeat case_match; simplify_ok; try done.
  match goal with H : collect_signers _ _ _ = Some _ |- _ =>
    apply collect_signers_Some in H as (-> & Hsub & Hsz & Hnd & _); [|set_solver] end.
  rewrite size_empty in Hsz.
  repeat match goal with
  | H : (_ =? _)%nat = _ |- _ => first [apply Nat.eqb_neq in H|apply Nat.eqb_eq in H] end.
  apply Nat.leb_le in Hv. split_and!; [done|lia|lia| |].
  - intros s Hs. apply Hsub. set_solver.
  - match goal with H : ¬ (_ ≠ _) |- _ => by apply dec_stable in H end.
Qed.

(** ** Finality proofs carry names, not signatures *)
Section forge.
Context `{Host}.

(** A proof for a message of one's own making: a one-leaf outbox tree and the
    public names of the validators. *)
Definition forged_proof (vs : BridgeValidatorSet) (expected : ExpectedBridgeMessage)
    (block_hash : string) (source_contract : ContractId) (h : N) : CrossShardFinalityProof :=
  let message := {| csm_source_chain := exp_source_chain expected;
    csm_source_contract := source_contract; csm_source_height := h;
    csm_destination_chain := exp_destination_chain expected;
    csm_destination_contract := exp_destination_contract expected;
    csm_message_id := exp_message_id expected; csm_recipient := exp_recipient expected;
    csm_asset := exp_asset expected; csm_amount := exp_amount expected |} in
  let leaf := hex_lower (merkle_leaf message) in
  {| cfp_source_chain := exp_source_chain expected; cfp_source_height := h;
     cfp_finalized_block_hash := block_hash; cfp_outbox_root := leaf;
     cfp_quorum := bvs_quorum vs; cfp_signers := elements (bvs_validators vs);
     cfp_message_proof := {| omp_message := message;
       omp_proof := {| mp_root := leaf; mp_leaf_hash := leaf; mp_index := 0; mp_leaf_count := 1;
                       mp_path := [] |} |} |}.

Lemma collect_signers_elements validators seen signers :
  NoDup signers → (∀ s, s ∈ signers → s ∈ validators ∧ s ∉ seen) →
  collect_signers validators seen signers = Some (list_to_set signers ∪ seen).
Proof.
  revert seen. induction signers as [|s ss IH]; simpl; intros seen Hnd Hin.
  - by rewrite union_empty_l_L.
  - apply NoDup_cons in Hnd as [Hni Hnd]. destruct (Hin s ltac:(set_solver)).
    rewrite bool_decide_eq_false_2 by (intros []; done).
    rewrite bool_decide_eq_false_2 by done. simpl. rewrite IH; [f_equal; set_solver|done|].
    intros x Hx. destruct (Hin x); [set_solver|]. split; [done|]. set_solver.
Qed.

(** The finality check is unauthenticated: for any message from the
    trusted source chain, whether or not it was ever queued there, a proof
    built from the validators' public names alone is accepted. *)
Theorem finality_proof_unsigned vs expected block_hash source_contract h :
  block_hash ≠ "" → bvs_source_chain vs ≠ "" →
  (0 < bvs_quorum vs ≤ size (bvs_validators vs))%nat →
  exp_source_chain expected = bvs_source_chain vs →
  verify_message_with_validator_set (forged_proof vs expected block_hash source_contract h)
    expected vs = true.
Proof.
  intros Hb Hsc Hq Hs. unfold verify_message_with_validator_set. apply andb_true_iff. split.
  - unfold verify_message, forged_proof; cbn [cfp_quorum cfp_signers cfp_finalized_block_hash
      cfp_message_proof cfp_outbox_root cfp_source_chain cfp_source_height omp_proof omp_message
      mp_root].
    replace (bvs_quorum vs =? 0)%nat with false by (symmetry; apply Nat.eqb_neq; lia).
    replace (length (elements (bvs_validators vs)) <? bvs_quorum vs)%nat with false
      by (symmetry; apply Nat.ltb_ge; unfold size, set_size in Hq; simpl in Hq; lia).
    rewrite list_to_set_elements_L. unfold size, set_size; simpl.
    rewrite Nat.eqb_refl, !bool_decide_eq_false_2 by congruence. simpl.
    unfold verify_outbox_message, verify; simpl. rewrite decide_True by done.
    rewrite hex_to_bytes_lower. simpl. rewrite !bool_decide_eq_true_2 by done.
    by rewrite !N.eqb_refl.
  - unfold verifies_finality, forged_proof; simpl.
    rewrite !bool_decide_eq_false_2; [|congruence|intros Heq; rewrite Heq, size_empty in Hq; lia|done].
    replace (bvs_quorum vs =? 0)%nat with false by (symmetry; apply Nat.eqb_neq; lia).
    replace (size (bvs_validators vs) <? bvs_quorum vs)%nat with false
      by (symmetry; apply Nat.ltb_ge; lia).
    rewrite Nat.eqb_refl. simpl.
    rewrite collect_signers_elements; [|apply NoDup_elements|set_solver].
    rewrite union_empty_r_L, list_to_set_elements_L. apply Nat.leb_le. lia.
Qed.
End forge.
