(* ===== verification/Governance.v ===== *)
(** * Governance: pausing, upgrades and policy updates behind a timelock

    [require_governance_admin] and the six methods of a governance contract. *)
From S2P Require Import Prelude Effects Merkle Types State Policies Runtime Ledger.

Definition require_governance_admin (s : DeTTaState) (contract : ContractId) (admin : Principal)
    : outcome ExecutionError () :=
  let* grant := ok_or (registry s !! GovernanceAdmin contract admin) UnauthorizedGovernance in
  do* ensure (negb (negb (g_active grant) || g_revoked grant
                    || bool_decide (g_subject grant ≠ admin))) UnauthorizedGovernance in
  ensure (bool_decide (RightGovernanceAdmin ∈ g_rights grant)) UnauthorizedGovernance.

Definition pause_contract (tx : Transaction) (msg_sender : Principal) (governed_contract : ContractId)
    : M ReturnValue :=
  do! inspect (λ s, require_governance_admin s (tx_target tx) msg_sender) in
  do! update (λ s, set_paused_contracts ({[governed_contract]} ∪ paused_contracts s) s) in
  do! emit (tx_target tx) (tx_tx_hash tx) (EvContractPaused governed_contract msg_sender) in
  ret RetUnit.
Definition unpause_contract (tx : Transaction) (msg_sender : Principal) (governed_contract : ContractId)
    : M ReturnValue :=
  do! inspect (λ s, require_governance_admin s (tx_target tx) msg_sender) in
  do! update (λ s, set_paused_contracts (paused_contracts s ∖ {[governed_contract]}) s) in
  do! emit (tx_target tx) (tx_tx_hash tx) (EvContractUnpaused governed_contract msg_sender) in
  ret RetUnit.

(** ** Upgrades *)
Definition schedule_upgrade (tx : Transaction) (msg_sender : Principal)
    (governed_contract : ContractId) (timelock_delay : N) : M ReturnValue :=
  let? '(upgrade_id, new_code_hash) := expect_args2 (tx_args tx) in
  let? upgrade_id := expect_text upgrade_id in
  let? new_code_hash := expect_text new_code_hash in
  do! inspect (λ s, require_governance_admin s (tx_target tx) msg_sender) in
  let! upgrade := inspect (λ s,
    do* ensure (bool_decide (scheduled_upgrades s !! upgrade_id = None)) UpgradeAlreadyScheduled in
    let* execute_after_height :=
      ok_or (checked_add_u64 (height s) timelock_delay) ArithmeticOverflow in
    Ok {| su_upgrade_id := upgrade_id; su_governance_contract := tx_target tx;
          su_target_contract := governed_contract; su_new_code_hash := new_code_hash;
          su_execute_after_height := execute_after_height; su_executed := false |}) in
  do! update (λ s, set_scheduled_upgrades
        (<[su_upgrade_id upgrade := upgrade]> (scheduled_upgrades s)) s) in
  do! emit (tx_target tx) (tx_tx_hash tx) (EvUpgradeScheduled upgrade_id governed_contract
        new_code_hash (su_execute_after_height upgrade) msg_sender) in
  ret RetUnit.

(** The checks of [execute_upgrade], giving the upgrade and its target. *)
Definition ready_upgrade (tx : Transaction) (governed_contract : ContractId) (upgrade_id : string)
    (s : DeTTaState) : outcome ExecutionError (ScheduledUpgrade * ContractRecord) :=
  let* upgrade := ok_or (scheduled_upgrades s !! upgrade_id) UpgradeNotFound in
  do* ensure (negb (su_executed upgrade)) UpgradeAlreadyExecuted in
  do* ensure (negb (bool_decide (su_governance_contract upgrade ≠ tx_target tx)
                    || bool_decide (su_target_contract upgrade ≠ governed_contract)))
        UpgradeNotFound in
  do* ensure (negb (height s <? su_execute_after_height upgrade)) TimelockNotReady in
  let* target := ok_or (contracts s !! governed_contract) ContractNotFound in
  Ok (upgrade, target).

Section handlers.
Context `{Host}.

Definition execute_upgrade (tx : Transaction) (msg_sender : Principal)
    (governed_contract : ContractId) : M ReturnValue :=
  let? upgrade_id := expect_args1 (tx_args tx) in
  let? upgrade_id := expect_text upgrade_id in
  do! inspect (λ s, require_governance_admin s (tx_target tx) msg_sender) in
  let! storage_root_before := read storage_root in
  let! registry_root_before := read registry_root in
  let! ready := inspect (ready_upgrade tx governed_contract upgrade_id) in
  do! update (λ s,
        set_scheduled_upgrades
          (<[upgrade_id := mark_upgrade_executed ready.1]> (scheduled_upgrades s))
          (set_contracts
            (<[governed_contract := set_code_hash (su_new_code_hash ready.1) ready.2]> (contracts s))
            s)) in
  let! storage_root_after := read storage_root in
  let! registry_root_after := read registry_root in
  do? ensure (negb (bool_decide (storage_root_after ≠ storage_root_before)
                    || bool_decide (registry_root_after ≠ registry_root_before)))
        MigrationInvariantViolation in
  do! emit (tx_target tx) (tx_tx_hash tx) (EvUpgradeExecuted upgrade_id governed_contract
        (cr_code_hash ready.2) (su_new_code_hash ready.1) msg_sender) in
  ret RetUnit.

(** ** Policy updates *)
Definition schedule_policy_update (tx : Transaction) (msg_sender : Principal)
    (governed_contract : ContractId) (timelock_delay : N) : M ReturnValue :=
  let? '(update_id, method, effect) := expect_args3 (tx_args tx) in
  let? update_id := expect_text update_id in
  let? method := expect_text method in
  let? method := parse_policy_method method in
  let? effect := expect_text effect in
  let? effect := parse_policy_effect effect in
  do! inspect (λ s, require_governance_admin s (tx_target tx) msg_sender) in
  let! scheduled := inspect (λ s,
    do* ensure (bool_decide (scheduled_policy_updates s !! update_id = None))
          PolicyUpdateAlreadyScheduled in
    let* target := ok_or (contracts s !! governed_contract) ContractNotFound in
    do* ensure (bool_decide (is_Some (method_policy target method))) PolicyMissing in
    let* execute_after_height :=
      ok_or (checked_add_u64 (height s) timelock_delay) ArithmeticOverflow in
    Ok {| spu_update_id := update_id; spu_governance_contract := tx_target tx;
          spu_target_contract := governed_contract; spu_method := method; spu_effect := effect;
          spu_execute_after_height := execute_after_height; spu_executed := false |}) in
  do! update (λ s, set_scheduled_policy_updates
        (<[spu_update_id scheduled := scheduled]> (scheduled_policy_updates s)) s) in
  do! emit (tx_target tx) (tx_tx_hash tx) (EvPolicyUpdateScheduled update_id governed_contract
        method effect (spu_execute_after_height scheduled) msg_sender) in
  ret RetUnit.

(** The checks of [execute_policy_update], giving the update, its target and
    the policy it changes. *)
Definition ready_policy_update (tx : Transaction) (governed_contract : ContractId)
    (update_id : string) (s : DeTTaState)
    : outcome ExecutionError (ScheduledPolicyUpdate * ContractRecord * MethodPolicy) :=
  let* u := ok_or (scheduled_policy_updates s !! update_id) PolicyUpdateNotFound in
  do* ensure (negb (spu_executed u)) PolicyUpdateAlreadyExecuted in
  do* ensure (negb (bool_decide (spu_governance_contract u ≠ tx_target tx)
                    || bool_decide (spu_target_contract u ≠ governed_contract)))
        PolicyUpdateNotFound in
  do* ensure (negb (height s <? spu_execute_after_height u)) TimelockNotReady in
  let* target := ok_or (contracts s !! governed_contract) ContractNotFound in
  let* policy := ok_or (cr_method_policies target !! spu_method u) PolicyMissing in
  Ok (u, target, policy).

Definition execute_policy_update (tx : Transaction) (msg_sender : Principal)
    (governed_contract : ContractId) : M ReturnValue :=
  let? update_id := expect_args1 (tx_args tx) in
  let? update_id := expect_text update_id in
  do! inspect (λ s, require_governance_admin s (tx_target tx) msg_sender) in
  let! storage_root_before := read storage_root in
  let! registry_root_before := read registry_root in
  let! old_policy_root := read policy_root in
  let! ready := inspect (ready_policy_update tx governed_contract update_id) in
  do! update (λ s,
        set_scheduled_policy_updates
          (<[update_id := mark_policy_update_executed ready.1.1]> (scheduled_policy_updates s))
          (set_contracts
            (<[governed_contract := set_method_policies
                (<[spu_method ready.1.1 := {| mp_authority := mp_authority ready.2;
                     mp_reentrancy := mp_reentrancy ready.2;
                     mp_effects := {[spu_effect ready.1.1]} ∪ mp_effects ready.2;
                     mp_invariants := mp_invariants ready.2 |}]>
                  (cr_method_policies ready.1.2)) ready.1.2]> (contracts s)) s)) in
  let! storage_root_after := read storage_root in
  let! registry_root_after := read registry_root in
  do? ensure (negb (bool_decide (storage_root_after ≠ storage_root_before)
                    || bool_decide (registry_root_after ≠ registry_root_before)))
        MigrationInvariantViolation in
  let! new_policy_root := read policy_root in
  do! emit (tx_target tx) (tx_tx_hash tx) (EvPolicyUpdateExecuted update_id governed_contract
        (spu_method ready.1.1) (spu_effect ready.1.1) old_policy_root new_policy_root msg_sender) in
  ret RetUnit.
End handlers.

(** ** Behaviour under any outcome *)
Lemma total_require_governance_admin s c p : total (require_governance_admin s c p).
Proof. unfold require_governance_admin. auto with total. Qed.
Lemma total_parse_policy_method v : total (parse_policy_method v).
Proof. unfold parse_policy_method. repeat (case_bool_decide; [by split|]). by split. Qed.
Lemma total_parse_policy_effect v : total (parse_policy_effect v).
Proof. unfold parse_policy_effect. repeat (case_bool_decide; [by split|]). by split. Qed.
#[export] Hint Resolve total_require_governance_admin total_parse_policy_method
  total_parse_policy_effect : total.
#[export] Hint Extern 3 (runs _ _ (inspect _)) => apply runs_inspect; solve [auto with total] : runs.

Section runs.
Context `{Host} (tx : Transaction) {governed : ContractId} {delay : N}.
Context {R : relation world} {F : world → Prop}.
Context `{!Closed (tx_target tx) (Governance governed delay) R F}.

Lemma runs_pause_contract p : runs R F (pause_contract tx p governed).
Proof. unfold pause_contract. runs_tac. apply runs_update. intros s. by econstructor. Qed.
Lemma runs_unpause_contract p : runs R F (unpause_contract tx p governed).
Proof. unfold unpause_contract. runs_tac. apply runs_update. intros s. by econstructor. Qed.
Lemma runs_schedule_upgrade p : runs R F (schedule_upgrade tx p governed delay).
Proof.
  unfold schedule_upgrade. do 5 runs_step. apply (runs_inspect_update); [auto 10 with total| |].
  - intros s u Hu. simplify_ok. subst. by eapply step_schedule_upgrade.
  - intros. runs_tac.
Qed.
Lemma runs_execute_upgrade p : runs R F (execute_upgrade tx p governed).
Proof.
  unfold execute_upgrade. do 5 runs_step.
  apply (runs_inspect_update (ready_upgrade tx governed _) (λ ready s, _)).
  - intros s. unfold ready_upgrade. auto 10 with total.
  - intros s [u r] Ha. unfold ready_upgrade in Ha. simplify_ok. simplify_eq/=.
    repeat match goal with H : ¬ (_ ≠ _) |- _ => apply dec_stable in H end.
    by eapply step_execute_upgrade.
  - intros. runs_tac.
Qed.
Lemma runs_schedule_policy_update p : runs R F (schedule_policy_update tx p governed delay).
Proof.
  unfold schedule_policy_update. do 9 runs_step. apply (runs_inspect_update); [auto 10 with total| |].
  - intros s u Hu. simplify_ok. subst. by eapply step_schedule_policy.
  - intros. runs_tac.
Qed.
Lemma runs_execute_policy_update p : runs R F (execute_policy_update tx p governed).
Proof.
  unfold execute_policy_update. do 6 runs_step.
  apply (runs_inspect_update (ready_policy_update tx governed _) (λ ready s, _)).
  - intros s. unfold ready_policy_update. auto 10 with total.
  - intros s [[u r] pol] Ha. unfold ready_policy_update in Ha. simplify_ok. simplify_eq/=.
    repeat match goal with H : ¬ (_ ≠ _) |- _ => apply dec_stable in H end.
    by eapply step_execute_policy.
  - intros. runs_tac.
Qed.
End runs.

(** ** Successes keep the ledgers *)
Section keeps.
Context `{Host}.
Implicit Types D : list StateKey.

Lemma keeps_pause_contract D tx p g : keeps D D (pause_contract tx p g).
Proof. unfold pause_contract. keeps_tac. Qed.
Lemma keeps_unpause_contract D tx p g : keeps D D (unpause_contract tx p g).
Proof. unfold unpause_contract. keeps_tac. Qed.
Lemma keeps_schedule_upgrade D tx p g d : keeps D D (schedule_upgrade tx p g d).
Proof. unfold schedule_upgrade. keeps_tac. Qed.
Lemma keeps_execute_upgrade D tx p g : keeps D D (execute_upgrade tx p g).
Proof.
  unfold execute_upgrade. do 9 keeps_step. apply keeps_lift_bind. intros ? ?. keeps_tac.
Qed.
Lemma keeps_schedule_policy_update D tx p g d : keeps D D (schedule_policy_update tx p g d).
Proof. unfold schedule_policy_update. keeps_tac. Qed.
Lemma keeps_execute_policy_update D tx p g : keeps D D (execute_policy_update tx p g).
Proof.
  unfold execute_policy_update. do 10 keeps_step. apply keeps_lift_bind. intros ? ?. keeps_tac.
Qed.
End keeps.

(** ** Functional behaviour *)
Definition live_admin (s : DeTTaState) (contract : ContractId) (admin : Principal) : Prop :=
  ∃ g, registry s !! GovernanceAdmin contract admin = Some g ∧ g_active g = true ∧
    g_revoked g = false ∧ g_subject g = admin ∧ RightGovernanceAdmin ∈ g_rights g.
Lemma require_governance_admin_Ok s c p u : require_governance_admin s c p = Ok u → live_admin s c p.
Proof.
  unfold require_governance_admin. intros H. simplify_ok. eexists. split_and!; try eassumption.
  match goal with H : ¬ (_ ≠ _) |- _ => by apply dec_stable in H end.
Qed.
Lemma require_governance_admin_live s c p : live_admin s c p → require_governance_admin s c p = Ok ().
Proof.
  intros (g & Hg & Ha & Hr & Hs & Hi). unfold require_governance_admin. rewrite Hg. simpl.
  rewrite Ha, Hr, bool_decide_eq_false_2 by (intros []; done). simpl. by rewrite bool_decide_eq_true_2.
Qed.

Definition upgraded (u : ScheduledUpgrade) (id : string) (r : ContractRecord) (s : DeTTaState)
    : DeTTaState :=
  set_scheduled_upgrades (<[id := mark_upgrade_executed u]> (scheduled_upgrades s))
    (set_contracts (<[su_target_contract u := set_code_hash (su_new_code_hash u) r]> (contracts s)) s).

(** An upgrade runs exactly when it is due: for a live admin, the
    scheduled upgrade of this governance contract over its governed contract
    executes if it is pending and its timelock has passed, changing only the
    target's code hash and the upgrade's flag; each missing condition gives
    its own error and no change.  The migration check never fails. *)
Theorem execute_upgrade_outcome `{Host} tx p w governed id u r :
  tx_args tx = [ArgText id] →
  live_admin (w_state w) (tx_target tx) p →
  scheduled_upgrades (w_state w) !! id = Some u →
  su_governance_contract u = tx_target tx → su_target_contract u = governed →
  contracts (w_state w) !! governed = Some r →
  execute_upgrade tx p governed w =
    if su_executed u then (Err UpgradeAlreadyExecuted, w)
    else if height (w_state w) <? su_execute_after_height u then (Err TimelockNotReady, w)
    else (Ok RetUnit, {| w_state := emit_event (tx_target tx) (tx_tx_hash tx)
            (EvUpgradeExecuted id governed (cr_code_hash r) (su_new_code_hash u) p)
            (upgraded u id r (w_state w)); w_ctx := w_ctx w |}).
Proof.
  intros Hargs Hadm Hu Hg Ht Hr. unfold execute_upgrade, bind, lift, read, gets, inspect.
  rewrite Hargs. simpl. rewrite require_governance_admin_live by done. simpl.
  unfold ready_upgrade. rewrite Hu. simpl. destruct (su_executed u); simpl; [done|].
  rewrite !bool_decide_eq_false_2 by (intros []; done). simpl.
  destruct (height (w_state w) <? su_execute_after_height u); simpl; [done|].
  rewrite Hr. simpl.
  rewrite !bool_decide_eq_false_2 by (intros []; done). simpl. unfold upgraded. by rewrite Ht.
Qed.

(** Scheduling sets the timelock: a success was asked by a live admin for
    a fresh id, and the upgrade it records is pending and executable no
    earlier than the current height plus the contract's delay. *)
Theorem schedule_upgrade_sets_timelock tx p w r w' governed delay id code :
  tx_args tx = [ArgText id; ArgText code] →
  schedule_upgrade tx p governed delay w = (Ok r, w') →
  live_admin (w_state w) (tx_target tx) p ∧ scheduled_upgrades (w_state w) !! id = None ∧
  scheduled_upgrades (w_state w') !! id =
    Some {| su_upgrade_id := id; su_governance_contract := tx_target tx;
            su_target_contract := governed; su_new_code_hash := code;
            su_execute_after_height := height (w_state w) + delay; su_executed := false |} ∧
  contracts (w_state w') = contracts (w_state w) ∧ storage (w_state w') = storage (w_state w).
Proof.
  intros Hargs Hrun. unfold schedule_upgrade in Hrun. rewrite Hargs in Hrun. inv_ok. simplify_eq/=.
  match goal with H : require_governance_admin _ _ _ = Ok _ |- _ => apply require_governance_admin_Ok in H end.
  simplify_ok. subst. simpl. split_and!; try done. by rewrite lookup_insert_eq.
Qed.
