(* ===== verification/Lending.v ===== *)
(** * Lending: over-collateralised vaults

    [deposit_collateral], [borrow], [liquidate], the interest accrual and the
    arithmetic of debt limits. *)
From S2P Require Import Prelude Effects Merkle Types State Policies Runtime Ledger Token.
From S2P Require Import Assets.

Definition lending_debt_limit (collateral price : Amount) (bps : N) : outcome ExecutionError Amount :=
  let* value := ok_or (checked_mul_u128 collateral price) ArithmeticOverflow in
  let* value := ok_or (checked_mul_u128 value bps) ArithmeticOverflow in
  Ok (value / 10000).
Definition div_ceil (numerator denominator : Amount) : outcome ExecutionError Amount :=
  if denominator =? 0 then Err ArithmeticOverflow else
  let* d := sub_or_panic denominator 1 in
  let* value := ok_or (checked_add_u128 numerator d) ArithmeticOverflow in
  div_or_panic value denominator.

Definition fresh_lending_collateral_price (s : DeTTaState) (config : LendingConfig)
    : outcome ExecutionError Amount :=
  let timestamp := oracle_timestamp s (lc_oracle_contract config) (lc_collateral_asset config) in
  do* ensure (negb (saturating_add_u64 timestamp (lc_max_oracle_age config) <? height s))
        StaleOraclePrice in
  let price := oracle_price s (lc_oracle_contract config) (lc_collateral_asset config) in
  do* ensure (negb (price =? 0)) StaleOraclePrice in
  Ok price.

Definition accrue_lending_debt (frame : AuthorizedFrame) (contract : ContractId)
    (borrower : Principal) (config : LendingConfig) : M Amount :=
  let debt_key := debt_key contract borrower (lc_debt_asset config) in
  let accrual_key := debt_last_accrual_height_key contract borrower (lc_debt_asset config) in
  let! current_debt := read (λ s, uint_at s debt_key) in
  let! last := read (λ s, uint_at s accrual_key) in
  let? last_height := u64_try_from last in
  let! h := read height in
  let elapsed := saturating_sub h last_height in
  let? value := ok_or (checked_mul_u128 current_debt (lc_interest_bps_per_block config))
                  ArithmeticOverflow in
  let? value := ok_or (checked_mul_u128 value elapsed) ArithmeticOverflow in
  let interest := value / 10000 in
  let? next_debt := ok_or (checked_add_u128 current_debt interest) ArithmeticOverflow in
  do! (if negb (next_debt =? current_debt) then state_set frame debt_key (UInt next_debt)
       else ret ()) in
  do! state_set frame accrual_key (UInt h) in
  ret next_debt.

Section lending.
Context (call : Transaction → Principal → M ReturnValue).

Definition deposit_collateral (tx : Transaction) (collateral_asset : AssetId) : M ReturnValue :=
  let? '(asset, amount) := expect_args2 (tx_args tx) in
  let? asset := expect_asset asset in
  let? amount := expect_amount amount in
  do? ensure (bool_decide (asset = collateral_asset)) InvalidPoolAsset in
  do? ensure (negb (amount =? 0)) InvalidArguments in
  let borrower := tx_sender tx in
  let! collateral_ledger := inspect (λ s, resolve_asset_ledger s asset) in
  let collateral_key := collateral_key (tx_target tx) borrower asset in
  let frame := {| fr_contract := tx_target tx; fr_msg_sender := borrower;
    fr_write_scope := {[collateral_key]} |} in
  let! current := read (λ s, uint_at s collateral_key) in
  do! transfer_asset_balance call tx collateral_ledger borrower (tx_target tx) asset amount in
  let? v := ok_or (checked_add_u128 current amount) ArithmeticOverflow in
  do! state_set frame collateral_key (UInt v) in
  do! emit (tx_target tx) (tx_tx_hash tx) (EvCollateralDeposited borrower asset amount) in
  ret RetUnit.

Definition borrow (tx : Transaction) (msg_sender : Principal) (config : LendingConfig)
    : M ReturnValue :=
  let? '(asset, amount) := expect_args2 (tx_args tx) in
  let? asset := expect_asset asset in
  let? amount := expect_amount amount in
  do? ensure (bool_decide (asset = lc_debt_asset config)) InvalidPoolAsset in
  do? ensure (negb (amount =? 0)) InvalidArguments in
  let borrower := msg_sender in
  let! price := inspect (λ s, fresh_lending_collateral_price s config) in
  let! collateral := read (λ s, collateral s (tx_target tx) borrower (lc_collateral_asset config)) in
  let debt_key := debt_key (tx_target tx) borrower (lc_debt_asset config) in
  let accrual_key := debt_last_accrual_height_key (tx_target tx) borrower (lc_debt_asset config) in
  let frame := {| fr_contract := tx_target tx; fr_msg_sender := borrower;
    fr_write_scope := {[debt_key; accrual_key]} |} in
  let! current_debt := accrue_lending_debt frame (tx_target tx) borrower config in
  let? next_debt := ok_or (checked_add_u128 current_debt amount) ArithmeticOverflow in
  let? max_debt := lending_debt_limit collateral price (lc_ltv_bps config) in
  do? ensure (negb (max_debt <? next_debt)) InsufficientCollateral in
  let! debt_ledger := inspect (λ s, resolve_asset_ledger s (lc_debt_asset config)) in
  do! transfer_asset_balance call tx debt_ledger (tx_target tx) borrower (lc_debt_asset config)
        amount in
  do! state_set frame debt_key (UInt next_debt) in
  do! emit (tx_target tx) (tx_tx_hash tx) (EvBorrowed borrower asset amount) in
  ret RetUnit.

Definition liquidate (tx : Transaction) (msg_sender : Principal) (config : LendingConfig)
    : M ReturnValue :=
  let? '(borrower_arg, asset_arg, repay_arg) := expect_args3 (tx_args tx) in
  let? borrower := expect_principal borrower_arg in
  let? asset := expect_asset asset_arg in
  let? repay_amount := expect_amount repay_arg in
  do? ensure (negb (bool_decide (asset ≠ lc_debt_asset config) || (repay_amount =? 0)))
        InvalidArguments in
  let! price := inspect (λ s, fresh_lending_collateral_price s config) in
  let debt_key := debt_key (tx_target tx) borrower (lc_debt_asset config) in
  let accrual_key := debt_last_accrual_height_key (tx_target tx) borrower (lc_debt_asset config) in
  let collateral_key := collateral_key (tx_target tx) borrower (lc_collateral_asset config) in
  let bad_debt_key := bad_debt_key (tx_target tx) (lc_debt_asset config) in
  let frame := {| fr_contract := tx_target tx; fr_msg_sender := msg_sender;
    fr_write_scope := {[debt_key; accrual_key; collateral_key; bad_debt_key]} |} in
  let! debt := accrue_lending_debt frame (tx_target tx) borrower config in
  do? ensure (negb (debt =? 0)) InsufficientCollateral in
  let! collateral := read (λ s, uint_at s collateral_key) in
  let? liquidation_threshold :=
    lending_debt_limit collateral price (lc_liquidation_threshold_bps config) in
  do? ensure (negb (debt <=? liquidation_threshold)) InsufficientCollateral in
  let repaid_debt := N.min repay_amount debt in
  let? requested_seize := div_ceil repaid_debt price in
  let seized_collateral := N.min requested_seize collateral in
  let? collateral_after := sub_or_panic collateral seized_collateral in
  let? debt_left := sub_or_panic debt repaid_debt in
  let! '(debt_after, remaining_bad_debt) :=
    (if (collateral_after =? 0) && negb (debt_left =? 0) then
       let! current_bad_debt := read (λ s, uint_at s bad_debt_key) in
       let? v := ok_or (checked_add_u128 current_bad_debt debt_left) ArithmeticOverflow in
       do! state_set frame bad_debt_key (UInt v) in
       ret (0, debt_left)
     else
       let? max_debt_after := lending_debt_limit collateral_after price (lc_ltv_bps config) in
       do? ensure (negb (max_debt_after <? debt_left)) InsufficientCollateral in
       ret (debt_left, 0)) in
  let! debt_ledger := inspect (λ s, resolve_asset_ledger s (lc_debt_asset config)) in
  let! collateral_ledger := inspect (λ s, resolve_asset_ledger s (lc_collateral_asset config)) in
  do! transfer_asset_balance call tx debt_ledger msg_sender (tx_target tx) (lc_debt_asset config)
        repaid_debt in
  do! (if negb (seized_collateral =? 0) then
         transfer_asset_balance call tx collateral_ledger (tx_target tx) msg_sender
           (lc_collateral_asset config) seized_collateral
       else ret ()) in
  do! state_set frame debt_key (UInt debt_after) in
  do! state_set frame collateral_key (UInt collateral_after) in
  let! entry := read (λ s, contracts s !! tx_target tx) in
  let? record := ok_or entry ContractNotFound in
  let! healthy := read (λ s, lending_invariants_hold s record) in
  do? (if healthy then Ok () else Err InvariantViolation) in
  do! emit (tx_target tx) (tx_tx_hash tx) (EvLiquidated borrower msg_sender asset repaid_debt
        (lc_collateral_asset config) seized_collateral remaining_bad_debt) in
  ret (RetUInt repaid_debt).
End lending.

(** ** Arithmetic *)
Lemma lending_debt_limit_Ok c p b x : lending_debt_limit c p b = Ok x → x = c * p * b / 10000.
Proof. unfold lending_debt_limit. intros H. simplify_ok. by subst. Qed.
Lemma div_ceil_Ok n d x : div_ceil n d = Ok x → d ≠ 0 ∧ n ≤ x * d ∧ x * d < n + d.
Proof.
  unfold div_ceil. destruct (N.eqb_spec d 0) as [|Hd]; [done|]. intros H. simplify_ok. subst.
  split; [done|]. pose proof (N.div_mod (n + (d - 1)) d Hd) as Hdm.
  pose proof (N.mod_lt (n + (d - 1)) d Hd) as Hlt. revert Hdm Hlt.
  generalize ((n + (d - 1)) / d), ((n + (d - 1)) mod d). nia.
Qed.
Lemma total_lending_debt_limit c p b : total (lending_debt_limit c p b).
Proof. unfold lending_debt_limit. auto with total. Qed.
Lemma total_div_ceil n d : total (div_ceil n d).
Proof.
  unfold div_ceil. destruct (N.eqb_spec d 0); [by split|].
  apply total_bind; [apply total_sub; lia|]. intros. apply total_bind; [auto with total|].
  intros. by apply total_div.
Qed.
Lemma total_fresh_price s config : total (fresh_lending_collateral_price s config).
Proof. unfold fresh_lending_collateral_price. auto with total. Qed.
#[export] Hint Resolve total_lending_debt_limit total_div_ceil total_fresh_price : total.
#[export] Hint Extern 3 (runs _ _ (inspect _)) => apply runs_inspect; solve [auto with total] : runs.

Definition config_kind (c : LendingConfig) : ContractKind :=
  LendingVault (lc_collateral_asset c) (lc_debt_asset c) (lc_oracle_contract c) (lc_ltv_bps c)
    (lc_max_oracle_age c) (lc_interest_bps_per_block c) (lc_liquidation_threshold_bps c).

(** ** Behaviour under any outcome *)
Section runs.
Context (tx : Transaction) {config : LendingConfig} {R : relation world} {F : world → Prop}.
Context `{!Closed (tx_target tx) (config_kind config) R F}.
Context {call : Transaction → Principal → M ReturnValue} `{!Calls R F call}.

Lemma runs_accrue_lending_debt frame borrower :
  fr_contract frame = tx_target tx → runs R F (accrue_lending_debt frame (tx_target tx) borrower config).
Proof. intros Hf. unfold accrue_lending_debt. runs_tac; by apply runs_state_set_own. Qed.
Lemma runs_deposit_collateral asset : runs R F (deposit_collateral call tx asset).
Proof. unfold deposit_collateral. runs_tac. Qed.
Lemma runs_borrow p : runs R F (borrow call tx p config).
Proof. unfold borrow. runs_tac. by apply runs_accrue_lending_debt. Qed.
Lemma runs_liquidate p : runs R F (liquidate call tx p config).
Proof. unfold liquidate. runs_tac. by apply runs_accrue_lending_debt. Qed.
End runs.

(** ** Successes keep the ledgers *)
Lemma keeps_accrue_lending_debt D frame c b config : keeps D D (accrue_lending_debt frame c b config).
Proof. unfold accrue_lending_debt. keeps_tac. Qed.
#[export] Hint Resolve keeps_accrue_lending_debt : keeps.
Section keeps.
Context {call : Transaction → Principal → M ReturnValue} `{!CallsKeep call}.

Lemma keeps_deposit_collateral D tx asset : keeps D D (deposit_collateral call tx asset).
Proof. unfold deposit_collateral. keeps_tac. Qed.
Lemma keeps_borrow D tx p config : keeps D D (borrow call tx p config).
Proof. unfold borrow. keeps_tac. Qed.
Lemma keeps_liquidate D tx p config : keeps D D (liquidate call tx p config).
Proof. unfold liquidate. keeps_tac. Qed.
End keeps.

(** ** Functional behaviour *)
Definition debt_limit (s : DeTTaState) (config : LendingConfig) (vault : ContractId)
    (borrower : Principal) : N :=
  collateral s vault borrower (lc_collateral_asset config)
  * oracle_price s (lc_oracle_contract config) (lc_collateral_asset config)
  * lc_ltv_bps config / 10000.
Definition accrued_debt (s : DeTTaState) (config : LendingConfig) (vault : ContractId)
    (borrower : Principal) : N :=
  let d := debt s vault borrower (lc_debt_asset config) in
  d + d * lc_interest_bps_per_block config
      * (height s - uint_at s (DebtLastAccrualHeight vault borrower (lc_debt_asset config))) / 10000.

(** Accrual writes the debt with interest and the height, and nothing else. *)
Lemma accrue_Ok frame vault borrower config w d w' :
  accrue_lending_debt frame vault borrower config w = (Ok d, w') →
  d = accrued_debt (w_state w) config vault borrower ∧
  debt (w_state w') vault borrower (lc_debt_asset config) = d ∧
  (∀ k, k ≠ Debt vault borrower (lc_debt_asset config) →
    k ≠ DebtLastAccrualHeight vault borrower (lc_debt_asset config) →
    uint_at (w_state w') k = uint_at (w_state w) k) ∧
  contracts (w_state w') = contracts (w_state w).
Proof.
  unfold accrue_lending_debt. intros Hrun. inv_ok.
  match goal with H : u64_try_from _ = Ok _ |- _ => apply u64_try_from_Ok in H as [-> ?] end.
  simplify_ok. subst.
  unfold accrued_debt, debt, debt_last_accrual_height_key, debt_key, saturating_sub in *.
  split; [done|].
  match goal with H : (if negb ?b then _ else _) _ = (Ok _, _) |- _ =>
    destruct b eqn:Hb; simpl in H; inv_ok; simplify_ok end.
  - split_and!; [by uint_simpl|intros; by uint_simpl|done].
  - split_and!; [by uint_simpl|intros; by uint_simpl|done].
Qed.

(** C34. A successful borrow was priced by a fresh, positive oracle price, adds
    exactly the amount to the debt with interest accrued, and leaves the
    borrower within the loan-to-value limit at that price. *)
Theorem borrow_within_limit call tx p w r w' config asset amount :
  tx_args tx = [ArgAsset asset; ArgAmount amount] →
  borrow call tx p config w = (Ok r, w') →
  asset = lc_debt_asset config ∧ 0 < amount ∧
  0 < oracle_price (w_state w) (lc_oracle_contract config) (lc_collateral_asset config) ∧
  height (w_state w) ≤ oracle_timestamp (w_state w) (lc_oracle_contract config)
    (lc_collateral_asset config) + lc_max_oracle_age config ∧
  debt (w_state w') (tx_target tx) p (lc_debt_asset config)
    = accrued_debt (w_state w) config (tx_target tx) p + amount ∧
  debt (w_state w') (tx_target tx) p (lc_debt_asset config)
    ≤ debt_limit (w_state w) config (tx_target tx) p.
Proof.
  intros Hargs Hrun. unfold borrow in Hrun. rewrite Hargs in Hrun. inv_ok. simplify_eq/=.
  match goal with H : accrue_lending_debt _ _ _ _ _ = (Ok ?d, _) |- _ =>
    apply accrue_Ok in H as (-> & _) end.
  match goal with H : fresh_lending_collateral_price _ _ = Ok _ |- _ =>
    unfold fresh_lending_collateral_price in H end.
  match goal with H : lending_debt_limit _ _ _ = Ok _ |- _ => apply lending_debt_limit_Ok in H end.
  simplify_ok. subst. unfold saturating_add in *. unfold debt, debt_limit, debt_key in *.
  uint_simpl. split_and!; [done|lia|lia|lia|done|lia].
Qed.


(** The vault's invariant check bounds every borrower. *)
Lemma lending_invariants_hold_limit s record config b :
  lending_invariants_hold s record = true → cr_kind record = config_kind config →
  debt s (cr_contract_id record) b (lc_debt_asset config)
  ≤ debt_limit s config (cr_contract_id record) b.
Proof.
  unfold lending_invariants_hold. intros Hi Hk. rewrite Hk in Hi. unfold config_kind in Hi.
  rewrite elem_of_forallb in Hi. unfold debt, uint_at.
  destruct (storage s !! _) as [v|] eqn:Hv; simpl; [|lia].
  specialize (Hi _ (proj2 (elem_of_entries _ _ _) Hv)). simpl in Hi.
  rewrite !bool_decide_eq_false_2 in Hi by (intros []; done). simpl in Hi.
  destruct (N.eqb_spec (as_uint v) 0) as [->|]; [lia|]. unfold debt_limit.
  repeat case_match; simplify_ok; subst; try done; try lia.
Qed.

(** A successful liquidation hit a position whose debt, with interest,
    exceeded the liquidation threshold; the caller repays at most the debt and
    receives at most the collateral; debt is written off only when no
    collateral is left; and afterwards every position of the vault is within
    the loan-to-value limit. *)
Theorem liquidate_restores_limits call tx p w r w' config record borrower asset repay :
  tx_args tx = [ArgPrincipal borrower; ArgAsset asset; ArgAmount repay] →
  contracts (w_state w') !! tx_target tx = Some record →
  cr_kind record = config_kind config → cr_contract_id record = tx_target tx →
  liquidate call tx p config w = (Ok r, w') →
  let d := accrued_debt (w_state w) config (tx_target tx) borrower in
  let c := collateral (w_state w) (tx_target tx) borrower (lc_collateral_asset config) in
  let d' := debt (w_state w') (tx_target tx) borrower (lc_debt_asset config) in
  let c' := collateral (w_state w') (tx_target tx) borrower (lc_collateral_asset config) in
  c * oracle_price (w_state w) (lc_oracle_contract config) (lc_collateral_asset config)
    * lc_liquidation_threshold_bps config / 10000 < d ∧
  r = RetUInt (N.min repay d) ∧ c' ≤ c ∧ d' + N.min repay d ≤ d ∧
  (d' + N.min repay d < d → c' = 0) ∧
  ∀ b, debt (w_state w') (tx_target tx) b (lc_debt_asset config)
       ≤ debt_limit (w_state w') config (tx_target tx) b.
Proof.
  intros Hargs Hrec Hk Hid Hrun. cbv zeta. unfold liquidate in Hrun. rewrite Hargs in Hrun. inv_ok.
  simplify_eq/=.
  match goal with H : accrue_lending_debt _ _ _ _ _ = (Ok ?d, _) |- _ =>
    apply accrue_Ok in H as (Hd & _ & Hframe & _) end.
  match goal with H : fresh_lending_collateral_price _ _ = Ok _ |- _ =>
    unfold fresh_lending_collateral_price in H end.
  match goal with
  | H : (if (?ca =? 0) && negb (?dl =? 0) then _ else _) _ = (Ok (?n, ?bad), _) |- _ =>
      assert (n = dl ∨ n = 0 ∧ ca = 0) as Hn;
      [destruct ((ca =? 0) && negb (dl =? 0)) eqn:Hb; inv_ok; simplify_eq; [simplify_ok; by right|by left]|clear H]
  end.
  match goal with H : lending_debt_limit _ _ _ = Ok _ |- _ => apply lending_debt_limit_Ok in H end.
  match goal with H : (if lending_invariants_hold ?s ?rec then _ else _) = Ok _ |- _ =>
    destruct (lending_invariants_hold s rec) eqn:Hinv; [clear H|done] end.
  simplify_ok. subst. unfold collateral_key, debt_key in *.
  rewrite Hframe in * by done.
  match goal with H : contracts _ !! _ = Some ?r |- _ =>
    assert (r = record) as -> by (simpl in *; congruence) end.
  split_and!; try (unfold collateral, debt; uint_simpl; first [done|lia]).
  intros b. pose proof (lending_invariants_hold_limit _ _ config b Hinv Hk) as Hb.
  rewrite Hid in Hb. exact Hb.
Qed.

(** ** One unhealthy position blocks the liquidation of the others *)
Section blocked.
Context {call : Transaction → Principal → M ReturnValue} {X : Type} (obs : DeTTaState → X).
Context (tx : Transaction) (config : LendingConfig) (borrower : Principal).
(** An observation that nested calls, token balances and the target's own
    position leave alone. *)
Hypothesis call_keeps : ∀ tx p w r w', call tx p w = (Ok r, w') → obs (w_state w') = obs (w_state w).
Hypothesis token_keeps : ∀ k v s, token_key k = true → obs (set_key k v s) = obs s.
Hypothesis target_keeps : ∀ k v s,
  k ∈ [Debt (tx_target tx) borrower (lc_debt_asset config);
       DebtLastAccrualHeight (tx_target tx) borrower (lc_debt_asset config);
       Collateral (tx_target tx) borrower (lc_collateral_asset config);
       BadDebt (tx_target tx) (lc_debt_asset config)] → obs (set_key k v s) = obs s.
Hypothesis emit_keeps : ∀ c h e s, obs (emit_event c h e s) = obs s.

Lemma transfer_asset_keeps ledger from to asset amount w u w' :
  transfer_asset_balance call tx ledger from to asset amount w = (Ok u, w') →
  obs (w_state w') = obs (w_state w).
Proof.
  destruct ledger as [c|c]; simpl.
  - unfold transfer_native_asset_balance. intros (_ & _ & -> & _)%move_balance_Ok. unfold moved.
    simpl. by rewrite !token_keeps.
  - unfold transfer_aspect_asset_balance. intros. inv_ok. by eapply call_keeps.
Qed.
Lemma accrue_keeps frame w d w' :
  accrue_lending_debt frame (tx_target tx) borrower config w = (Ok d, w') →
  obs (w_state w') = obs (w_state w).
Proof.
  unfold accrue_lending_debt. intros. inv_ok.
  match goal with H : (if negb ?b then _ else _) _ = (Ok _, _) |- _ =>
    destruct b; simpl in H; inv_ok; simpl end; rewrite ?target_keeps by set_solver; done.
Qed.
Lemma liquidate_keeps p w r w' asset repay :
  tx_args tx = [ArgPrincipal borrower; ArgAsset asset; ArgAmount repay] →
  liquidate call tx p config w = (Ok r, w') → obs (w_state w') = obs (w_state w).
Proof.
  intros Hargs Hrun. unfold liquidate in Hrun. rewrite Hargs in Hrun. inv_ok.
  match goal with H : expect_args3 _ = Ok _ |- _ => simpl in H; injection H as <- <- <- end.
  match goal with H : expect_principal _ = Ok _ |- _ => simpl in H; injection H as <- end.
  match goal with H : accrue_lending_debt _ _ _ _ _ = (Ok ?d, ?wa) |- _ => apply accrue_keeps in H end.
  match goal with H : (if (_ =? 0) && _ then _ else _) ?wa = (Ok (?n, ?bad), ?wb) |- _ =>
    assert (obs (w_state wb) = obs (w_state wa)) as Hb;
    [destruct (_ && _) in H; inv_ok; simplify_eq; simpl; rewrite ?target_keeps by set_solver; done|clear H] end.
  match goal with H : (if negb _ then _ else _) ?wa = (Ok _, ?wb) |- _ =>
    assert (obs (w_state wb) = obs (w_state wa)) as Hc;
    [destruct (negb _) in H; [by eapply transfer_asset_keeps|by inv_ok]|clear H] end.
  repeat match goal with H : transfer_asset_balance _ _ _ _ _ _ _ _ = (Ok _, _) |- _ =>
    apply transfer_asset_keeps in H end.
  unfold collateral_key, debt_key. simpl. rewrite emit_keeps, !target_keeps by set_solver. congruence.
Qed.
End blocked.

Lemma liquidate_checks call tx p config w r w' :
  liquidate call tx p config w = (Ok r, w') →
  ∃ record, contracts (w_state w') !! tx_target tx = Some record ∧
    lending_invariants_hold (w_state w') record = true.
Proof.
  intros Hrun. unfold liquidate in Hrun. inv_ok.
  match goal with H : (if lending_invariants_hold ?s ?rec then _ else _) = Ok _ |- _ =>
    destruct (lending_invariants_hold s rec) eqn:Hinv; [clear H|done] end.
  simplify_ok. by eexists.
Qed.

(** While some other borrower's debt exceeds the loan-to-value limit, no
    liquidation of the vault succeeds, however unhealthy its own target: the
    final check covers every position, including ones interest has moved
    between the limit and the (higher) liquidation threshold, which cannot be
    liquidated themselves. *)
Theorem liquidation_blocked_by_other call tx p config w record borrower other asset repay :
  tx_args tx = [ArgPrincipal borrower; ArgAsset asset; ArgAmount repay] →
  other ≠ borrower →
  (∀ tx p w r w', call tx p w = (Ok r, w') →
    contracts (w_state w') = contracts (w_state w) ∧
    ∀ k, token_key k = false → uint_at (w_state w') k = uint_at (w_state w) k) →
  contracts (w_state w) !! tx_target tx = Some record →
  cr_kind record = config_kind config → cr_contract_id record = tx_target tx →
  debt_limit (w_state w) config (tx_target tx) other
  < debt (w_state w) (tx_target tx) other (lc_debt_asset config) →
  ∀ r w', liquidate call tx p config w ≠ (Ok r, w').
Proof.
  intros Hargs Hne Hcall Hrec Hk Hid Hdebt r w' Hrun.
  destruct (liquidate_checks _ _ _ _ _ _ _ Hrun) as (record' & Hrec' & Hinv).
  pose proof (liquidate_keeps contracts tx config borrower
    (λ tx p w r w' H, proj1 (Hcall tx p w r w' H)) (λ k v s _, eq_refl) (λ k v s _, eq_refl)
    (λ c h e s, eq_refl) p w r w' asset repay Hargs Hrun) as Hc.
  rewrite Hc, Hrec in Hrec'. injection Hrec' as <-.
  assert (∀ k, k ∈ [Debt (tx_target tx) other (lc_debt_asset config);
      Collateral (tx_target tx) other (lc_collateral_asset config);
      OraclePrice (lc_oracle_contract config) (lc_collateral_asset config)] →
    uint_at (w_state w') k = uint_at (w_state w) k) as Hobs.
  { intros k Hin. assert (token_key k = false) as Htk.
    { rewrite !elem_of_cons in Hin. by destruct Hin as [->|[->|[->|?%not_elem_of_nil]]]. }
    apply (liquidate_keeps (λ s, uint_at s k) tx config borrower
      (λ tx p w r w' H, proj2 (Hcall tx p w r w' H) k Htk)) with (p := p) (r := r) (asset := asset)
      (repay := repay); try done.
    - intros k' v s Hk'. rewrite uint_at_set_key, decide_False; [done|]. intros ->. congruence.
    - intros k' v s Hk'. rewrite uint_at_set_key, decide_False; [done|]. intros ->. set_solver. }
  pose proof (lending_invariants_hold_limit _ _ config other Hinv Hk) as Hle.
  rewrite Hid in Hle. unfold debt_limit, debt, collateral, oracle_price in *.
  rewrite !Hobs in Hle by set_solver. lia.
Qed.
