(* ===== verification/Staking.v ===== *)
(** * Staking: stakes, unbonding and rewards

    [stake], [unstake], [request_unstake], [complete_unstake],
    [claim_staking_rewards], [accrue_staking_rewards] and
    [apply_staking_penalty]. *)
From S2P Require Import Prelude Effects Merkle Types State Policies Runtime Ledger Token.
From S2P Require Import Assets.

Definition apply_staking_penalty (amount : Amount) (penalty_bps : N)
    : outcome ExecutionError (Amount * Amount) :=
  if 10000 <? penalty_bps then Err InvalidArguments else
  let* value := ok_or (checked_mul_u128 amount penalty_bps) ArithmeticOverflow in
  let penalty := value / 10000 in
  let* released := sub_or_panic amount penalty in
  Ok (released, penalty).

Definition accrue_staking_rewards (frame : AuthorizedFrame) (contract : ContractId)
    (staker : Principal) (asset : AssetId) (reward_per_block : Amount) : M Amount :=
  let last_reward_key := staking_last_reward_height_key contract staker asset in
  let reward_key := staking_reward_balance_key contract staker asset in
  let! last := read (λ s, uint_at s last_reward_key) in
  let? last_height := u64_try_from last in
  let! h := read height in
  let elapsed := saturating_sub h last_height in
  let! active_stake := read (λ s, stake_balance s contract staker asset) in
  let? value := ok_or (checked_mul_u128 active_stake reward_per_block) ArithmeticOverflow in
  let? accrued := ok_or (checked_mul_u128 value elapsed) ArithmeticOverflow in
  do! (if negb (accrued =? 0) then
         let! current_reward := read (λ s, uint_at s reward_key) in
         let? v := ok_or (checked_add_u128 current_reward accrued) ArithmeticOverflow in
         state_set frame reward_key (UInt v)
       else ret ()) in
  do! state_set frame last_reward_key (UInt h) in
  ret accrued.

Section staking.
Context (call : Transaction → Principal → M ReturnValue).

Definition stake (tx : Transaction) (msg_sender : Principal) (staking_asset : AssetId)
    (reward_per_block : Amount) : M ReturnValue :=
  let? '(asset, amount) := expect_args2 (tx_args tx) in
  let? asset := expect_asset asset in
  let? amount := expect_amount amount in
  do? ensure (bool_decide (asset = staking_asset)) InvalidPoolAsset in
  do? ensure (negb (amount =? 0)) InvalidArguments in
  let staker := msg_sender in
  let stake_key := stake_balance_key (tx_target tx) staker asset in
  let total_key := total_staked_key (tx_target tx) asset in
  let reward_key := staking_reward_balance_key (tx_target tx) staker asset in
  let last_reward_key := staking_last_reward_height_key (tx_target tx) staker asset in
  let frame := {| fr_contract := tx_target tx; fr_msg_sender := staker;
    fr_write_scope := {[stake_key; total_key; reward_key; last_reward_key]} |} in
  do! accrue_staking_rewards frame (tx_target tx) staker asset reward_per_block in
  let! current_stake := read (λ s, uint_at s stake_key) in
  let! total_staked := read (λ s, uint_at s total_key) in
  let! staking_ledger := inspect (λ s, resolve_asset_ledger s asset) in
  do! transfer_asset_balance call tx staking_ledger staker (tx_target tx) asset amount in
  let? v := ok_or (checked_add_u128 current_stake amount) ArithmeticOverflow in
  do! state_set frame stake_key (UInt v) in
  let? v := ok_or (checked_add_u128 total_staked amount) ArithmeticOverflow in
  do! state_set frame total_key (UInt v) in
  let! holds := read (λ s, staking_invariants_hold s (tx_target tx) asset) in
  do? ensure holds InvariantViolation in
  let! holds := read (λ s, staking_pending_unbonding_invariants_hold s (tx_target tx) asset) in
  do? ensure holds InvariantViolation in
  do! emit (tx_target tx) (tx_tx_hash tx) (EvStaked staker asset amount) in
  ret RetUnit.

Definition unstake (tx : Transaction) (msg_sender : Principal) (staking_asset : AssetId)
    (parameters : StakingParameters) : M ReturnValue :=
  do? ensure (negb (0 <? sp_unbonding_delay parameters)) TimelockNotReady in
  let? '(asset, amount) := expect_args2 (tx_args tx) in
  let? asset := expect_asset asset in
  let? amount := expect_amount amount in
  do? ensure (bool_decide (asset = staking_asset)) InvalidPoolAsset in
  do? ensure (negb (amount =? 0)) InvalidArguments in
  let staker := msg_sender in
  let stake_key := stake_balance_key (tx_target tx) staker asset in
  let total_key := total_staked_key (tx_target tx) asset in
  let penalty_key := staking_penalty_collected_key (tx_target tx) asset in
  let reward_key := staking_reward_balance_key (tx_target tx) staker asset in
  let last_reward_key := staking_last_reward_height_key (tx_target tx) staker asset in
  let frame := {| fr_contract := tx_target tx; fr_msg_sender := staker;
    fr_write_scope := {[stake_key; total_key; penalty_key; reward_key; last_reward_key]} |} in
  do! accrue_staking_rewards frame (tx_target tx) staker asset (sp_reward_per_block parameters) in
  let! current_stake := read (λ s, uint_at s stake_key) in
  do? ensure (negb (current_stake <? amount)) InsufficientStake in
  let! total_staked := read (λ s, uint_at s total_key) in
  do? ensure (negb (total_staked <? amount)) InvariantViolation in
  let? '(released_amount, penalty_amount) :=
    apply_staking_penalty amount (sp_unstake_penalty_bps parameters) in
  let! staking_ledger := inspect (λ s, resolve_asset_ledger s asset) in
  let? v := sub_or_panic current_stake amount in
  do! state_set frame stake_key (UInt v) in
  let? v := sub_or_panic total_staked amount in
  do! state_set frame total_key (UInt v) in
  do! (if negb (penalty_amount =? 0) then
         let! current_penalty := read (λ s, uint_at s penalty_key) in
         let? v := ok_or (checked_add_u128 current_penalty penalty_amount) ArithmeticOverflow in
         state_set frame penalty_key (UInt v)
       else ret ()) in
  do! (if negb (released_amount =? 0) then
         transfer_asset_balance call tx staking_ledger (tx_target tx) staker asset released_amount
       else ret ()) in
  let! holds := read (λ s, staking_invariants_hold s (tx_target tx) asset) in
  do? ensure holds InvariantViolation in
  let! holds := read (λ s, staking_pending_unbonding_invariants_hold s (tx_target tx) asset) in
  do? ensure holds InvariantViolation in
  do! (if negb (penalty_amount =? 0) then
         emit (tx_target tx) (tx_tx_hash tx)
           (EvStakingPenaltyApplied staker asset amount penalty_amount released_amount)
       else ret ()) in
  do! emit (tx_target tx) (tx_tx_hash tx) (EvUnstaked staker asset released_amount) in
  ret RetUnit.

Definition request_unstake (tx : Transaction) (msg_sender : Principal) (staking_asset : AssetId)
    (reward_per_block : Amount) (unbonding_delay unstake_penalty_bps : N) : M ReturnValue :=
  let? '(asset, amount) := expect_args2 (tx_args tx) in
  let? asset := expect_asset asset in
  let? amount := expect_amount amount in
  do? ensure (bool_decide (asset = staking_asset)) InvalidPoolAsset in
  do? ensure (negb (amount =? 0)) InvalidArguments in
  let staker := msg_sender in
  let stake_key := stake_balance_key (tx_target tx) staker asset in
  let total_key := total_staked_key (tx_target tx) asset in
  let pending_key := pending_unbond_key (tx_target tx) staker asset in
  let total_pending_key := total_pending_unbond_key (tx_target tx) asset in
  let penalty_key := staking_penalty_collected_key (tx_target tx) asset in
  let ready_key := unbond_ready_height_key (tx_target tx) staker asset in
  let reward_key := staking_reward_balance_key (tx_target tx) staker asset in
  let last_reward_key := staking_last_reward_height_key (tx_target tx) staker asset in
  let frame := {| fr_contract := tx_target tx; fr_msg_sender := staker;
    fr_write_scope := {[stake_key; total_key; pending_key; total_pending_key; penalty_key;
                        ready_key; reward_key; last_reward_key]} |} in
  do! accrue_staking_rewards frame (tx_target tx) staker asset reward_per_block in
  let! current_stake := read (λ s, uint_at s stake_key) in
  do? ensure (negb (current_stake <? amount)) InsufficientStake in
  let! total_staked := read (λ s, uint_at s total_key) in
  do? ensure (negb (total_staked <? amount)) InvariantViolation in
  let! current_pending := read (λ s, uint_at s pending_key) in
  let! total_pending := read (λ s, uint_at s total_pending_key) in
  let! h := read height in
  let? ready_height := ok_or (checked_add_u64 h unbonding_delay) ArithmeticOverflow in
  let? '(released_amount, penalty_amount) := apply_staking_penalty amount unstake_penalty_bps in
  let? v := sub_or_panic current_stake amount in
  do! state_set frame stake_key (UInt v) in
  let? v := sub_or_panic total_staked amount in
  do! state_set frame total_key (UInt v) in
  let? v := ok_or (checked_add_u128 current_pending released_amount) ArithmeticOverflow in
  do! state_set frame pending_key (UInt v) in
  let? v := ok_or (checked_add_u128 total_pending released_amount) ArithmeticOverflow in
  do! state_set frame total_pending_key (UInt v) in
  do! (if negb (penalty_amount =? 0) then
         let! current_penalty := read (λ s, uint_at s penalty_key) in
         let? v := ok_or (checked_add_u128 current_penalty penalty_amount) ArithmeticOverflow in
         state_set frame penalty_key (UInt v)
       else ret ()) in
  do! state_set frame ready_key (UInt ready_height) in
  let! holds := read (λ s, staking_invariants_hold s (tx_target tx) asset) in
  do? ensure holds InvariantViolation in
  let! holds := read (λ s, staking_pending_unbonding_invariants_hold s (tx_target tx) asset) in
  do? ensure holds InvariantViolation in
  do! (if negb (penalty_amount =? 0) then
         emit (tx_target tx) (tx_tx_hash tx)
           (EvStakingPenaltyApplied staker asset amount penalty_amount released_amount)
       else ret ()) in
  do! emit (tx_target tx) (tx_tx_hash tx)
        (EvUnstakeRequested staker asset released_amount ready_height) in
  ret RetUnit.

Definition complete_unstake (tx : Transaction) (msg_sender : Principal) (staking_asset : AssetId)
    : M ReturnValue :=
  let? '(asset, amount) := expect_args2 (tx_args tx) in
  let? asset := expect_asset asset in
  let? amount := expect_amount amount in
  do? ensure (bool_decide (asset = staking_asset)) InvalidPoolAsset in
  do? ensure (negb (amount =? 0)) InvalidArguments in
  let staker := msg_sender in
  let pending_key := pending_unbond_key (tx_target tx) staker asset in
  let total_pending_key := total_pending_unbond_key (tx_target tx) asset in
  let ready_key := unbond_ready_height_key (tx_target tx) staker asset in
  let! ready := read (λ s, uint_at s ready_key) in
  let? ready_height := u64_try_from ready in
  let! h := read height in
  do? ensure (negb (h <? ready_height)) TimelockNotReady in
  let! pending := read (λ s, uint_at s pending_key) in
  do? ensure (negb (pending <? amount)) InsufficientStake in
  let! total_pending := read (λ s, uint_at s total_pending_key) in
  do? ensure (negb (total_pending <? amount)) InvariantViolation in
  let frame := {| fr_contract := tx_target tx; fr_msg_sender := staker;
    fr_write_scope := {[pending_key; total_pending_key]} |} in
  let? v := sub_or_panic pending amount in
  do! state_set frame pending_key (UInt v) in
  let? v := sub_or_panic total_pending amount in
  do! state_set frame total_pending_key (UInt v) in
  let! staking_ledger := inspect (λ s, resolve_asset_ledger s asset) in
  do! transfer_asset_balance call tx staking_ledger (tx_target tx) staker asset amount in
  let! holds := read (λ s, staking_pending_unbonding_invariants_hold s (tx_target tx) asset) in
  do? ensure holds InvariantViolation in
  do! emit (tx_target tx) (tx_tx_hash tx) (EvUnbondingCompleted staker asset amount) in
  ret RetUnit.
End staking.

Definition claim_staking_rewards (tx : Transaction) (msg_sender : Principal)
    (staking_asset : AssetId) (reward_per_block : Amount) : M ReturnValue :=
  let? asset := expect_args1 (tx_args tx) in
  let? asset := expect_asset asset in
  do? ensure (bool_decide (asset = staking_asset)) InvalidPoolAsset in
  let staker := msg_sender in
  let reward_key := staking_reward_balance_key (tx_target tx) staker asset in
  let last_reward_key := staking_last_reward_height_key (tx_target tx) staker asset in
  let frame := {| fr_contract := tx_target tx; fr_msg_sender := staker;
    fr_write_scope := {[reward_key; last_reward_key]} |} in
  do! accrue_staking_rewards frame (tx_target tx) staker asset reward_per_block in
  let! claimed := read (λ s, uint_at s reward_key) in
  do! state_set frame reward_key (UInt 0) in
  do! (if negb (claimed =? 0) then
         let! reward_ledger := inspect (λ s, resolve_asset_ledger s asset) in
         mint_asset_balance reward_ledger staker asset claimed
       else ret ()) in
  do! emit (tx_target tx) (tx_tx_hash tx) (EvStakingRewardsClaimed staker asset claimed) in
  ret (RetUInt claimed).

(** ** Arithmetic *)
Lemma apply_staking_penalty_Ok amount bps released penalty :
  apply_staking_penalty amount bps = Ok (released, penalty) →
  bps ≤ 10000 ∧ penalty = amount * bps / 10000 ∧ released + penalty = amount.
Proof.
  unfold apply_staking_penalty. destruct (N.ltb_spec 10000 bps); [done|]. intros H'.
  simplify_ok. simplify_eq. split_and!; [done|done|lia].
Qed.
Lemma total_apply_staking_penalty amount bps : total (apply_staking_penalty amount bps).
Proof.
  unfold apply_staking_penalty. destruct (N.ltb_spec 10000 bps) as [|Hb]; [by split|].
  apply total_bind; [auto with total|]. intros v Hv. simplify_ok. subst.
  apply total_bind; [|auto with total]. apply total_sub.
  apply N.Div0.div_le_upper_bound. nia.
Qed.
#[export] Hint Resolve total_apply_staking_penalty : total.

(** ** Behaviour under any outcome *)
Section runs.
Context (tx : Transaction) {asset : AssetId} {delay reward penalty : N}.
Context {R : relation world} {F : world → Prop}.
Context `{!Closed (tx_target tx) (Staking asset delay reward penalty) R F}.
Context {call : Transaction → Principal → M ReturnValue} `{!Calls R F call}.

Lemma runs_accrue_staking_rewards frame staker a :
  fr_contract frame = tx_target tx →
  runs R F (accrue_staking_rewards frame (tx_target tx) staker a reward).
Proof. intros Hf. unfold accrue_staking_rewards. runs_tac; by apply runs_state_set_own. Qed.
Lemma runs_stake p : runs R F (stake call tx p asset reward).
Proof. unfold stake. runs_tac. by apply runs_accrue_staking_rewards. Qed.
Lemma runs_unstake p :
  runs R F (unstake call tx p asset {| sp_unbonding_delay := delay; sp_reward_per_block := reward;
    sp_unstake_penalty_bps := penalty |}).
Proof. unfold unstake. runs_tac. by apply runs_accrue_staking_rewards. Qed.
Lemma runs_request_unstake p : runs R F (request_unstake tx p asset reward delay penalty).
Proof. unfold request_unstake. runs_tac. by apply runs_accrue_staking_rewards. Qed.
Lemma runs_complete_unstake p : runs R F (complete_unstake call tx p asset).
Proof. unfold complete_unstake. runs_tac. Qed.
Lemma runs_claim_staking_rewards p : runs R F (claim_staking_rewards tx p asset reward).
Proof. unfold claim_staking_rewards. runs_tac. by apply runs_accrue_staking_rewards. Qed.
End runs.

(** ** Successes keep the ledgers *)
Lemma keeps_accrue_staking_rewards D frame c s a r : keeps D D (accrue_staking_rewards frame c s a r).
Proof. unfold accrue_staking_rewards. keeps_tac. Qed.
#[export] Hint Resolve keeps_accrue_staking_rewards : keeps.
Section keeps.
Context {call : Transaction → Principal → M ReturnValue} `{!CallsKeep call}.

Lemma keeps_stake D tx p a r : keeps D D (stake call tx p a r).
Proof. unfold stake. keeps_tac. Qed.
Lemma keeps_unstake D tx p a params : keeps D D (unstake call tx p a params).
Proof. unfold unstake. keeps_tac. Qed.
Lemma keeps_request_unstake D tx p a r d b : keeps D D (request_unstake tx p a r d b).
Proof. unfold request_unstake. keeps_tac. Qed.
Lemma keeps_complete_unstake D tx p a : keeps D D (complete_unstake call tx p a).
Proof. unfold complete_unstake. keeps_tac. Qed.
Lemma keeps_claim_staking_rewards D tx p a r : keeps D D (claim_staking_rewards tx p a r).
Proof. unfold claim_staking_rewards. keeps_tac. Qed.
End keeps.

(** ** Functional behaviour *)
Definition accrued_rewards (s : DeTTaState) (c : ContractId) (staker : Principal) (asset : AssetId)
    (reward_per_block : Amount) : N :=
  stake_balance s c staker asset * reward_per_block
  * (height s - uint_at s (StakingLastRewardHeight c staker asset)).

(** Accrual credits the rewards since the last accrual and moves the mark. *)
Lemma accrue_rewards_Ok frame c staker asset rpb w a w' :
  accrue_staking_rewards frame c staker asset rpb w = (Ok a, w') →
  a = accrued_rewards (w_state w) c staker asset rpb ∧
  staking_reward_balance (w_state w') c staker asset
    = staking_reward_balance (w_state w) c staker asset + a ∧
  uint_at (w_state w') (StakingLastRewardHeight c staker asset) = height (w_state w) ∧
  height (w_state w') = height (w_state w) ∧
  (∀ k, k ≠ StakingRewardBalance c staker asset → k ≠ StakingLastRewardHeight c staker asset →
    storage (w_state w') !! k = storage (w_state w) !! k) ∧
  contracts (w_state w') = contracts (w_state w).
Proof.
  unfold accrue_staking_rewards. intros Hrun. inv_ok.
  match goal with H : u64_try_from _ = Ok _ |- _ => apply u64_try_from_Ok in H as [-> ?] end.
  simplify_ok. subst.
  unfold accrued_rewards, staking_reward_balance, staking_last_reward_height_key,
    staking_reward_balance_key, saturating_sub in *.
  split; [done|].
  match goal with H : (if negb (?n =? 0) then _ else _) _ = (Ok _, _) |- _ =>
    destruct (N.eqb_spec n 0) as [Hz|Hz]; simpl in H; inv_ok; simplify_ok; subst end;
    split_and!; try done; try (uint_simpl; first [done|lia]).
  - intros k ? ?. simpl. by rewrite lookup_insert_ne.
  - intros k ? ?. simpl. by rewrite !lookup_insert_ne.
Qed.

(** A successful [request_unstake] takes exactly the amount from the stake
    and from the total, splits it into penalty and released part, adds the
    released part to the pending balance and its total, and locks the pending
    balance until the current height plus the unbonding delay. *)
Theorem request_unstake_moves tx p w r w' asset rpb delay bps a amount :
  tx_args tx = [ArgAsset a; ArgAmount amount] →
  request_unstake tx p asset rpb delay bps w = (Ok r, w') →
  ∃ released penalty,
    a = asset ∧ released + penalty = amount ∧ penalty = amount * bps / 10000 ∧
    amount ≤ stake_balance (w_state w) (tx_target tx) p asset ∧
    stake_balance (w_state w') (tx_target tx) p asset
      = stake_balance (w_state w) (tx_target tx) p asset - amount ∧
    total_staked (w_state w') (tx_target tx) asset
      = total_staked (w_state w) (tx_target tx) asset - amount ∧
    pending_unbond (w_state w') (tx_target tx) p asset
      = pending_unbond (w_state w) (tx_target tx) p asset + released ∧
    total_pending_unbond (w_state w') (tx_target tx) asset
      = total_pending_unbond (w_state w) (tx_target tx) asset + released ∧
    uint_at (w_state w') (UnbondReadyHeight (tx_target tx) p asset) = height (w_state w) + delay.
Proof.
  intros Hargs Hrun. unfold request_unstake in Hrun. rewrite Hargs in Hrun. inv_ok. simplify_eq/=.
  match goal with H : accrue_staking_rewards _ _ _ ?a _ ?w0 = (Ok _, ?wa) |- _ =>
    rename a into asset';
    apply accrue_rewards_Ok in H as (_ & _ & _ & Hh & Hf & _);
    assert (∀ k, k ≠ StakingRewardBalance (tx_target tx) p asset' →
      k ≠ StakingLastRewardHeight (tx_target tx) p asset' →
      uint_at (w_state wa) k = uint_at (w_state w0) k) as Hu
      by (intros; unfold uint_at; by rewrite Hf) end.
  match goal with H : apply_staking_penalty _ _ = Ok _ |- _ =>
    apply apply_staking_penalty_Ok in H as (_ & Hpen & Hsum) end.
  simplify_checks. subst.
  unfold stake_balance_key, total_staked_key, pending_unbond_key, total_pending_unbond_key,
    staking_penalty_collected_key, unbond_ready_height_key in *.
  eexists _, _. unfold stake_balance, total_staked, pending_unbond, total_pending_unbond.
  split; [done|]. split; [exact Hsum|]. split; [done|].
  repeat match goal with H : (if negb ?b then _ else _) _ = (Ok _, _) |- _ =>
    destruct b; simpl in H; inv_ok end;
  uint_simpl; rewrite !Hu in * by done; rewrite ?Hh; split_and!; done || lia.
Qed.

(** Unbonding completes only when the lock has passed and only up to the
    pending amount. *)
Theorem complete_unstake_after_lock call tx p w r w' asset a amount :
  tx_args tx = [ArgAsset a; ArgAmount amount] →
  complete_unstake call tx p asset w = (Ok r, w') →
  a = asset ∧ 0 < amount ∧
  uint_at (w_state w) (UnbondReadyHeight (tx_target tx) p asset) ≤ height (w_state w) ∧
  amount ≤ pending_unbond (w_state w) (tx_target tx) p asset ∧
  ledger_ok (w_state w') (TotalPendingUnbond (tx_target tx) asset).
Proof.
  intros Hargs Hrun. unfold complete_unstake in Hrun. rewrite Hargs in Hrun. inv_ok. simplify_eq/=.
  match goal with H : u64_try_from _ = Ok _ |- _ => apply u64_try_from_Ok in H as [-> ?] end.
  simplify_checks. subst. unfold pending_unbond, pending_unbond_key, unbond_ready_height_key in *.
  split_and!; first [done|lia].
Qed.

(** Claiming pays exactly what accrued: the stored rewards plus stake times
    rate times the blocks since the last accrual; the balance is then zero and
    a second claim at the same height pays nothing more. *)
Theorem claim_pays_accrued tx p w r w' asset rpb a :
  tx_args tx = [ArgAsset a] →
  claim_staking_rewards tx p asset rpb w = (Ok r, w') →
  r = RetUInt (staking_reward_balance (w_state w) (tx_target tx) p asset
        + accrued_rewards (w_state w) (tx_target tx) p asset rpb) ∧
  staking_reward_balance (w_state w') (tx_target tx) p asset = 0 ∧
  accrued_rewards (w_state w') (tx_target tx) p asset rpb = 0.
Proof.
  intros Hargs Hrun. unfold claim_staking_rewards in Hrun. rewrite Hargs in Hrun. inv_ok.
  simplify_eq/=.
  match goal with H : accrue_staking_rewards _ _ _ ?a _ ?w0 = (Ok _, ?wa) |- _ =>
    apply accrue_rewards_Ok in H as (-> & Hr & Hl & Hh & Hf & _) end.
  simplify_ok. subst. unfold staking_reward_balance, accrued_rewards, staking_reward_balance_key in *.
  match goal with H : (if negb (?n =? 0) then _ else _) _ = (Ok _, _) |- _ =>
    destruct (negb (n =? 0)) in H; inv_ok end.
  - match goal with H : mint_asset_balance ?l _ _ _ _ = (Ok _, _) |- _ =>
      destruct l; simpl in H; [|done];
      unfold mint_native_asset_balance in H; inv_ok; simplify_ok; subst end.
    unfold stake_balance. uint_simpl. simpl. uint_simpl. rewrite Hr, Hl, Hh. split_and!; [done|done|lia].
  - unfold stake_balance. uint_simpl. simpl. rewrite Hr, Hl, Hh. split_and!; [done|done|lia].
Qed.
