(* ===== verification/Factory.v ===== *)
(** * Factory: deployment of contracts and modules, account keys, the router

    The deployment functions of [impl DeTTaState], used by genesis and by the
    factory's methods; [register_aspect_module]; the account registry's
    methods; and the router's forwarding call (crates/detta-core/src/lib.rs).
    A deployment checks everything before its first write, so it is one
    [install] of the record and the initial storage. *)
From S2P Require Import Prelude Effects Merkle Types State Policies AspectRuntime AspectVerify.
From S2P Require Import Aspects.
From S2P Require Import Runtime Ledger Token Assets Bridge.

Definition state_new (chain : ChainId) : DeTTaState :=
  {| chain_id := chain; height := 0; finalized_block_hash := "genesis"; contracts := ∅;
     aspect_modules := ∅; storage := ∅; registry := ∅; used_nonces := ∅;
     used_certificate_nonces := ∅; paused_contracts := ∅; scheduled_upgrades := ∅;
     scheduled_policy_updates := ∅; trusted_bridge_validator_sets := ∅;
     outbound_message_ids := ∅; cross_shard_outbox := []; events := [] |}.

(** ** Checks *)
Definition validate_new_contract_id (s : DeTTaState) (contract : ContractId)
    : outcome ExecutionError () :=
  ensure (nonempty contract && bool_decide (contracts s !! contract = None)) InvalidArguments.
Definition validate_nonempty_asset (asset : AssetId) : outcome ExecutionError () :=
  ensure (nonempty asset) InvalidArguments.
Definition validate_nonempty_principal (principal : Principal) : outcome ExecutionError () :=
  ensure (nonempty principal) InvalidArguments.
(** The loop over the initial balances. *)
Fixpoint collect_balances (seen_owners : gset Principal) (total : Amount)
    (balances : list (Principal * Amount)) : outcome ExecutionError Amount :=
  match balances with
  | [] => Ok total
  | (owner, amount) :: balances =>
      do* validate_nonempty_principal owner in
      do* ensure (bool_decide (owner ∉ seen_owners)) InvalidArguments in
      let* total := ok_or (checked_add_u128 total amount) ArithmeticOverflow in
      collect_balances ({[owner]} ∪ seen_owners) total balances
  end.
Definition supply_elsewhere (s : DeTTaState) (contract : ContractId) (asset : AssetId) : bool :=
  existsb (λ key, match key with
    | TotalSupply existing_contract existing_asset =>
        bool_decide (existing_contract ≠ contract) && bool_decide (existing_asset = asset)
    | _ => false end) (keys (storage s)).

Section deploy.
Context `{Host}.

(** ** Deployments *)
Definition deploy_token (contract : ContractId) (asset : AssetId)
    (balances : list (Principal * Amount)) : M () :=
  let code_hash := root_of ("detta-token-v1", contract) in
  let! total := inspect (λ s,
    do* validate_new_contract_id s contract in
    do* validate_nonempty_asset asset in
    let* total := collect_balances ∅ 0 balances in
    do* ensure (negb (supply_elsewhere s contract asset)) InvalidArguments in
    Ok total) in
  do! update (install contract (record_token contract code_hash)
    (((λ '(owner, amount), (Balance contract owner asset, UInt amount)) <$> balances)
     ++ [(TotalSupply contract asset, UInt total)])) in
  let! ok := read (λ s, token_invariants_hold s contract asset) in
  do? ensure ok InvariantViolation in
  ret ().
Definition deploy_amm_pool_with_parameters (contract : ContractId) (asset_a asset_b : AssetId)
    (parameters : AmmParameters) : M () :=
  do! inspect (λ s,
    do* validate_new_contract_id s contract in
    do* validate_nonempty_asset asset_a in
    do* validate_nonempty_asset asset_b in
    do* ensure (bool_decide (asset_a ≠ asset_b)) InvalidPoolAsset in
    do* ensure (amm_swap_fee_bps parameters <=? 10000) InvalidArguments in
    do* resolve_asset_ledger s asset_a in
    do* resolve_asset_ledger s asset_b in
    Ok ()) in
  let code_hash :=
    root_of ("detta-amm-v2", contract, asset_a, asset_b, amm_swap_fee_bps parameters) in
  do! update (install contract (record_amm_pool contract code_hash asset_a asset_b parameters)
    [(Reserve contract asset_a, UInt 0); (Reserve contract asset_b, UInt 0);
     (AmmFeeCollected contract asset_a, UInt 0); (AmmFeeCollected contract asset_b, UInt 0);
     (LpSupply contract, UInt 0)]) in
  let! ok := read (λ s, amm_invariants_hold s contract) in
  do? ensure ok InvariantViolation in
  ret ().
Definition deploy_amm_pool (contract : ContractId) (asset_a asset_b : AssetId) : M () :=
  deploy_amm_pool_with_parameters contract asset_a asset_b {| amm_swap_fee_bps := 30 |}.
Definition deploy_oracle (contract : ContractId) (asset : AssetId) (updater : Principal)
    (max_age : N) : M () :=
  do! inspect (λ s, validate_new_contract_id s contract) in
  do? validate_nonempty_asset asset in
  do? validate_nonempty_principal updater in
  let code_hash := root_of ("detta-oracle-v1", contract, asset, max_age) in
  do! update (install contract (record_oracle contract code_hash asset max_age)
    [(OraclePrice contract asset, UInt 0); (OracleTimestamp contract asset, UInt 0)]) in
  update (insert_grant (OracleUpdater contract updater) (grant_oracle_updater updater)).
Definition insert_bridge_contract (contract : ContractId) (source_chain : ChainId) : M () :=
  let code_hash := root_of ("detta-bridge-v1", contract, source_chain) in
  update (install contract (record_bridge contract code_hash source_chain) []).
Definition deploy_bridge (contract : ContractId) (source_chain : ChainId) : M () :=
  do! inspect (λ s, validate_new_contract_id s contract) in
  do? ensure (nonempty source_chain) InvalidArguments in
  insert_bridge_contract contract source_chain.
Definition set_trusted_bridge_validator_set (validator_set : BridgeValidatorSet) : M () :=
  let? validator_set := bridge_validator_set_new (bvs_source_chain validator_set)
    (set_iter (bvs_validators validator_set)) (bvs_quorum validator_set) in
  let! existing := read (λ s,
    trusted_bridge_validator_sets s !! bvs_source_chain validator_set) in
  if bool_decide (existing = Some validator_set) then ret () else
  update (λ s, set_trusted_bridge_validator_sets
    (<[bvs_source_chain validator_set := validator_set]> (trusted_bridge_validator_sets s)) s).
Definition deploy_bridge_with_validator_set (contract : ContractId) (source_chain : ChainId)
    (validators : list Principal) (quorum : nat) : M () :=
  do! inspect (λ s, validate_new_contract_id s contract) in
  do? ensure (nonempty source_chain) InvalidArguments in
  let? validator_set := bridge_validator_set_new source_chain validators quorum in
  do! set_trusted_bridge_validator_set validator_set in
  insert_bridge_contract contract source_chain.
Definition deploy_governance_with_timelock (contract governed_contract : ContractId)
    (admin : Principal) (timelock_delay : N) : M () :=
  do! inspect (λ s, validate_new_contract_id s contract) in
  do? ensure (nonempty governed_contract) InvalidArguments in
  do? validate_nonempty_principal admin in
  let code_hash := root_of ("detta-governance-v1", contract, governed_contract, timelock_delay) in
  do! update (install contract
    (record_governance contract code_hash governed_contract timelock_delay) []) in
  update (insert_grant (GovernanceAdmin contract admin) (grant_governance_admin admin)).
Definition deploy_governance (contract governed_contract : ContractId) (admin : Principal) : M () :=
  deploy_governance_with_timelock contract governed_contract admin 1.
Definition deploy_lending_vault_with_risk (contract : ContractId)
    (collateral_asset debt_asset : AssetId) (oracle_contract : ContractId)
    (risk : LendingRiskParameters) : M () :=
  do! inspect (λ s, validate_new_contract_id s contract) in
  do? validate_nonempty_asset collateral_asset in
  do? validate_nonempty_asset debt_asset in
  do? ensure (nonempty oracle_contract && bool_decide (collateral_asset ≠ debt_asset))
    InvalidArguments in
  do? ensure ((lr_ltv_bps risk <=? 10000) && (lr_liquidation_threshold_bps risk <=? 10000)
    && (lr_ltv_bps risk <=? lr_liquidation_threshold_bps risk)) InvalidArguments in
  let code_hash := root_of ("detta-lending-vault-v1", contract, collateral_asset, debt_asset,
    oracle_contract, lr_ltv_bps risk, lr_max_oracle_age risk, lr_interest_bps_per_block risk,
    lr_liquidation_threshold_bps risk) in
  update (install contract
    (record_lending_vault contract code_hash collateral_asset debt_asset oracle_contract risk) []).
Definition deploy_lending_vault (contract : ContractId) (collateral_asset debt_asset : AssetId)
    (oracle_contract : ContractId) (ltv_bps max_oracle_age : N) : M () :=
  deploy_lending_vault_with_risk contract collateral_asset debt_asset oracle_contract
    {| lr_ltv_bps := ltv_bps; lr_max_oracle_age := max_oracle_age;
       lr_interest_bps_per_block := 0; lr_liquidation_threshold_bps := ltv_bps |}.
Definition deploy_staking_with_parameters (contract : ContractId) (asset : AssetId)
    (parameters : StakingParameters) : M () :=
  do? ensure (sp_unstake_penalty_bps parameters <=? 10000) InvalidArguments in
  do! inspect (λ s, validate_new_contract_id s contract) in
  do? validate_nonempty_asset asset in
  let code_hash := root_of ("detta-staking-v2", contract, asset, sp_unbonding_delay parameters,
    sp_reward_per_block parameters, sp_unstake_penalty_bps parameters) in
  update (install contract (record_staking contract code_hash asset parameters)
    [(TotalStaked contract asset, UInt 0); (TotalPendingUnbond contract asset, UInt 0);
     (StakingPenaltyCollected contract asset, UInt 0)]).
Definition deploy_staking (contract : ContractId) (asset : AssetId) : M () :=
  deploy_staking_with_parameters contract asset
    {| sp_unbonding_delay := 0; sp_reward_per_block := 0; sp_unstake_penalty_bps := 0 |}.
Definition deploy_staking_with_rewards (contract : ContractId) (asset : AssetId)
    (unbonding_delay : N) (reward_per_block : Amount) : M () :=
  deploy_staking_with_parameters contract asset
    {| sp_unbonding_delay := unbonding_delay; sp_reward_per_block := reward_per_block;
       sp_unstake_penalty_bps := 0 |}.
Definition deploy_router (contract token_contract : ContractId) : M () :=
  do! inspect (λ s, validate_new_contract_id s contract) in
  do? ensure (nonempty token_contract) InvalidArguments in
  let code_hash := root_of ("detta-router-v1", contract, token_contract) in
  update (install contract (record_router contract code_hash token_contract) []).
Definition deploy_factory (contract : ContractId) : M () :=
  do! inspect (λ s, validate_new_contract_id s contract) in
  let code_hash := root_of ("detta-factory-v1", contract) in
  update (install contract (record_factory contract code_hash) []).
Definition deploy_account_registry (contract : ContractId) : M () :=
  do! inspect (λ s, validate_new_contract_id s contract) in
  let code_hash := root_of ("detta-account-registry-v1", contract) in
  update (install contract (record_account_registry contract code_hash) []).

Definition module_matches_ir (module : AspectModuleRecord) (ir : AspectModuleIr)
    (roots : AspectArtifactRoots) : bool :=
  bool_decide (mod_source_root module = ir_source_root ir)
  && bool_decide (mod_ir_root module = ar_ir_root roots)
  && bool_decide (mod_abi_root module = ar_abi_root roots)
  && bool_decide (mod_policy_root module = ar_policy_root roots)
  && bool_decide (mod_storage_schema_root module = ar_storage_schema_root roots)
  && bool_decide (mod_registry_schema_root module = ar_registry_schema_root roots)
  && bool_decide (mod_invariant_root module = ar_invariant_root roots).
Definition register_aspect_module (module : AspectModuleRecord) : M string :=
  do? ensure (roots_are_complete module) InvalidArguments in
  do? ensure (bool_decide (mod_module_hash module = computed_hash module)) InvalidArguments in
  do? match mod_ir module with
      | Some ir =>
          let* verified := map_err (verify_module ir) InvalidArguments in
          ensure (module_matches_ir module ir (vm_roots verified)) InvalidArguments
      | None => Ok ()
      end in
  do! inspect (λ s,
    ensure (bool_decide (aspect_modules s !! mod_module_hash module = None)) InvalidArguments) in
  do! update (λ s, set_aspect_modules (<[mod_module_hash module := module]> (aspect_modules s)) s) in
  ret (mod_module_hash module).
Definition aspect_contract_record (s : DeTTaState) (contract : ContractId)
    (module_hash bundle_id : string) : outcome ExecutionError ContractRecord :=
  do* validate_new_contract_id s contract in
  do* ensure (nonempty module_hash && nonempty bundle_id) InvalidArguments in
  let* module := ok_or (aspect_modules s !! module_hash) InvalidArguments in
  aspect_module_contract contract module bundle_id.
Definition deploy_aspect_contract (contract : ContractId) (module_hash bundle_id : string) : M () :=
  let! record := inspect (λ s, aspect_contract_record s contract module_hash bundle_id) in
  update (λ s, set_contracts (<[contract := record]> (contracts s)) s).

(** ** The factory's methods *)
Definition emit_deployed (tx : Transaction) (contract : ContractId) (kind : string) : M () :=
  let! entry := read (λ s, contracts s !! contract) in
  let? record := ok_or entry ContractNotFound in
  emit (tx_target tx) (tx_tx_hash tx) (EvContractDeployed contract kind (cr_code_hash record)).
Definition deploy_token_from_factory (tx : Transaction) : M ReturnValue :=
  let? '(contract, asset, owner, supply) := expect_args4 (tx_args tx) in
  let? contract := expect_text contract in
  let? asset := expect_asset asset in
  let? owner := expect_principal owner in
  let? supply := expect_amount supply in
  do? ensure (nonempty contract && nonempty asset && nonempty owner) InvalidArguments in
  do! inspect (λ s, ensure (bool_decide (contracts s !! contract = None)) InvalidArguments) in
  do! deploy_token contract asset [(owner, supply)] in
  do! emit_deployed tx contract "token" in
  ret RetUnit.
Definition deploy_amm_pool_from_factory (tx : Transaction) : M ReturnValue :=
  let? '(contract, asset_a, asset_b) := expect_args3 (tx_args tx) in
  let? contract := expect_text contract in
  let? asset_a := expect_asset asset_a in
  let? asset_b := expect_asset asset_b in
  do? ensure (nonempty contract && nonempty asset_a && nonempty asset_b) InvalidArguments in
  do! inspect (λ s, ensure (bool_decide (contracts s !! contract = None)) InvalidArguments) in
  do! deploy_amm_pool contract asset_a asset_b in
  do! emit_deployed tx contract "amm_pool" in
  ret RetUnit.
Definition submitted_module (args : list Argument) : outcome ExecutionError AspectModuleRecord :=
  match args with
  | [module_id; source] =>
      let* module_id := expect_text module_id in
      let* source := expect_text source in
      from_verified_source module_id source
  | [module_id; taxonomy_version; source_root; ir_root; abi_root; policy_root;
     storage_schema_root; registry_schema_root; invariant_root] =>
      let* module_id := expect_text module_id in
      let* taxonomy_version := expect_text taxonomy_version in
      let* source_root := expect_text source_root in
      let* ir_root := expect_text ir_root in
      let* abi_root := expect_text abi_root in
      let* policy_root := expect_text policy_root in
      let* storage_schema_root := expect_text storage_schema_root in
      let* registry_schema_root := expect_text registry_schema_root in
      let* invariant_root := expect_text invariant_root in
      Ok (module_record_new module_id taxonomy_version
        {| amr_source_root := source_root; amr_ir_root := ir_root; amr_abi_root := abi_root;
           amr_policy_root := policy_root; amr_storage_schema_root := storage_schema_root;
           amr_registry_schema_root := registry_schema_root;
           amr_invariant_root := invariant_root |})
  | _ => Err InvalidArguments
  end.
Definition submit_aspect_module_from_factory (tx : Transaction) : M ReturnValue :=
  let? module := submitted_module (tx_args tx) in
  let! module_hash := register_aspect_module module in
  do! emit (tx_target tx) (tx_tx_hash tx)
    (EvAspectModuleSubmitted (mod_module_id module) module_hash (mod_taxonomy_version module)) in
  ret RetUnit.

(** The part of [deploy_aspect_contract_from_factory] before the initializer. *)
Definition deploy_aspect_for_sender (tx : Transaction) (contract : ContractId)
    (module_hash bundle_id : string) : M () :=
  do! deploy_aspect_contract contract module_hash bundle_id in
  do! update (insert_grant (GovernanceAdmin contract (tx_sender tx))
    (grant_governance_admin (tx_sender tx))) in
  emit_deployed tx contract "aspect_module".
Definition init_tx (tx : Transaction) (contract : ContractId) (initializer : string)
    (args : list Argument) : Transaction :=
  {| tx_chain_id := tx_chain_id tx; tx_tx_hash := tx_tx_hash tx +:+ ":init";
     tx_sender := tx_sender tx; tx_nonce := tx_nonce tx;
     tx_valid_until_height := tx_valid_until_height tx; tx_target := contract;
     tx_method := Other initializer; tx_args := args; tx_signature_ok := true;
     tx_budget := tx_budget tx |}.
Definition deploy_aspect_contract_from_factory
    (call : Transaction → Principal → M ReturnValue) (tx : Transaction) : M ReturnValue :=
  match tx_args tx with
  | contract :: module_hash :: bundle_id :: rest =>
      let? contract := expect_text contract in
      let? module_hash := expect_text module_hash in
      let? bundle_id := expect_text bundle_id in
      do! deploy_aspect_for_sender tx contract module_hash bundle_id in
      match rest with
      | [] => ret RetUnit
      | initializer :: args =>
          let? initializer := expect_text initializer in
          do! call (init_tx tx contract initializer args) (tx_sender tx) in
          ret RetUnit
      end
  | _ => throw InvalidArguments
  end.
End deploy.

(** ** Router *)
Definition route_transfer_from (call : Transaction → Principal → M ReturnValue) (tx : Transaction)
    (token_contract : ContractId) : M ReturnValue :=
  let? '(owner, to, asset, amount) := expect_args4 (tx_args tx) in
  call {| tx_chain_id := tx_chain_id tx; tx_tx_hash := tx_tx_hash tx; tx_sender := tx_sender tx;
          tx_nonce := tx_nonce tx; tx_valid_until_height := tx_valid_until_height tx;
          tx_target := token_contract; tx_method := TransferFrom;
          tx_args := [owner; to; asset; amount]; tx_signature_ok := true;
          tx_budget := tx_budget tx |} (tx_target tx).

(** ** Account keys *)
Definition register_account_key (account : Principal) (public_key_hex : string) : M () :=
  do? ensure (nonempty account && is_canonical_public_key_hex public_key_hex) InvalidArguments in
  update (insert_grant (AccountSigner account public_key_hex) (grant_account_signer account)).
Definition register_account_key_from_contract (tx : Transaction) (msg_sender : Principal)
    : M ReturnValue :=
  let? public_key_hex := expect_args1 (tx_args tx) in
  let? public_key_hex := expect_text public_key_hex in
  do! register_account_key msg_sender public_key_hex in
  let! ok := read account_signer_keys_canonical in
  do? ensure ok InvariantViolation in
  do! emit (tx_target tx) (tx_tx_hash tx) (EvAccountKeyRegistered msg_sender public_key_hex) in
  ret RetUnit.
Definition revocable_grant (s : DeTTaState) (account : Principal) (public_key_hex : string)
    : outcome ExecutionError Grant :=
  let* grant := ok_or (registry s !! AccountSigner account public_key_hex) RegistryGrantMissing in
  do* ensure (bool_decide (g_subject grant = account)
              && bool_decide (SubmitTransaction ∈ g_rights grant)) RegistryGrantMissing in
  Ok grant.
Definition revoke_account_key_from_contract (tx : Transaction) (msg_sender : Principal)
    : M ReturnValue :=
  let? public_key_hex := expect_args1 (tx_args tx) in
  let? public_key_hex := expect_text public_key_hex in
  do? ensure (is_canonical_public_key_hex public_key_hex) InvalidArguments in
  let! grant := inspect (λ s, revocable_grant s msg_sender public_key_hex) in
  do! update (insert_grant (AccountSigner msg_sender public_key_hex) (revoke grant)) in
  let! ok := read account_signer_keys_canonical in
  do? ensure ok InvariantViolation in
  do! emit (tx_target tx) (tx_tx_hash tx) (EvAccountKeyRevoked msg_sender public_key_hex) in
  ret RetUnit.

(** ** Behaviour under any outcome *)
Lemma total_validate_new s c : total (validate_new_contract_id s c).
Proof. unfold validate_new_contract_id. auto with total. Qed.
Lemma total_validate_asset a : total (validate_nonempty_asset a).
Proof. unfold validate_nonempty_asset. auto with total. Qed.
Lemma total_collect_balances seen t l : total (collect_balances seen t l).
Proof.
  revert seen t. induction l as [|[o a] l IH]; intros seen t; simpl; [by split|].
  unfold validate_nonempty_principal. auto with total.
Qed.
Lemma total_aspect_contract_record s c h b : total (aspect_contract_record s c h b).
Proof. unfold aspect_contract_record. auto using total_validate_new with total. Qed.
Lemma total_revocable s a k : total (revocable_grant s a k).
Proof. unfold revocable_grant. auto with total. Qed.
Lemma total_from_verified `{Host} m s : total (from_verified_source m s).
Proof.
  unfold from_verified_source. do 2 (apply total_bind; [auto with total|intros]).
  repeat case_match. auto with total.
Qed.
#[export] Hint Resolve total_validate_new total_validate_asset total_collect_balances
  total_revocable total_from_verified : total.
Lemma total_submitted_module `{Host} args : total (submitted_module args).
Proof. do 10 (destruct args as [|? args]; simpl; auto 12 with total). Qed.
#[export] Hint Resolve total_submitted_module : total.

Lemma validate_new_Ok s c u :
  validate_new_contract_id s c = Ok u ↔ c ≠ "" ∧ contracts s !! c = None.
Proof.
  unfold validate_new_contract_id, nonempty. rewrite ensure_Ok, andb_true_iff, negb_true_iff,
    bool_decide_eq_false, bool_decide_eq_true. done.
Qed.

Section runs.
Context `{Host} (tx : Transaction) {R : relation world} {F : world → Prop}.

Section factory.
Context `{!Closed (tx_target tx) Factory R F}.

Lemma runs_deploy_token c asset balances : runs R F (deploy_token c asset balances).
Proof.
  unfold deploy_token. cbv zeta. apply runs_inspect_update; [auto 8 with total| |intros; runs_tac].
  intros s total Hok. simplify_ok.
  match goal with H : validate_new_contract_id _ _ = _ |- _ => apply validate_new_Ok in H as [??] end.
  apply step_deploy; [done..|]. intros k v. rewrite elem_of_app, list_elem_of_fmap, list_elem_of_singleton.
  intros [([o a] & [= -> ->] & _)|[= -> ->]]; done.
Qed.
Lemma runs_deploy_amm_pool c a b : runs R F (deploy_amm_pool c a b).
Proof.
  unfold deploy_amm_pool, deploy_amm_pool_with_parameters. cbv zeta.
  apply runs_inspect_update; [auto 12 with total| |intros; runs_tac]. intros s u Hok. simplify_ok.
  match goal with H : validate_new_contract_id _ _ = _ |- _ => apply validate_new_Ok in H as [??] end.
  apply step_deploy; [done..|]. intros k v. rewrite !elem_of_cons, elem_of_nil. naive_solver.
Qed.
Lemma runs_emit_deployed c k : runs R F (emit_deployed tx c k).
Proof. unfold emit_deployed. runs_tac. Qed.
Lemma runs_absent c : runs R F
  (inspect (λ s, ensure (bool_decide (contracts s !! c = None)) InvalidArguments)).
Proof. apply runs_inspect. auto with total. Qed.
Lemma runs_register_aspect_module m : runs R F (register_aspect_module m).
Proof.
  unfold register_aspect_module. do 2 (runs_step; cbv beta). simplify_ok.
  refine (runs_bind_lift _ _ _ _ _ _); [destruct (mod_ir m); auto with total|]. intros [] _.
  apply (runs_inspect_update
    (λ s, ensure (bool_decide (aspect_modules s !! mod_module_hash m = None)) InvalidArguments)
    (λ _ s, set_aspect_modules (<[mod_module_hash m := m]> (aspect_modules s)) s));
    [auto with total| |intros; runs_tac].
  intros s [] Hok. simplify_ok. by apply step_module.
Qed.
#[local] Hint Resolve runs_deploy_token runs_deploy_amm_pool runs_emit_deployed runs_absent
  runs_register_aspect_module : runs.
Lemma runs_deploy_token_from_factory : runs R F (deploy_token_from_factory tx).
Proof. unfold deploy_token_from_factory. runs_tac. Qed.
Lemma runs_deploy_amm_pool_from_factory : runs R F (deploy_amm_pool_from_factory tx).
Proof. unfold deploy_amm_pool_from_factory. runs_tac. Qed.
Lemma runs_submit_aspect_module : runs R F (submit_aspect_module_from_factory tx).
Proof. unfold submit_aspect_module_from_factory. runs_tac. Qed.
End factory.

Lemma runs_route_transfer_from {call token}
    `{!Closed (tx_target tx) (Router token) R F, !Calls R F call} :
  runs R F (route_transfer_from call tx token).
Proof. unfold route_transfer_from. runs_step. destruct a as [[[o t] a] n]. by apply calls_transfer_from. Qed.

Section accounts.
Context `{!Closed (tx_target tx) AccountRegistry R F}.

Lemma runs_register_account_key p k : runs R F (register_account_key p k).
Proof.
  unfold register_account_key, nonempty. runs_step. simplify_ok. apply runs_update. intros s.
  apply step_signer; [done|]. simpl.
  rewrite (bool_decide_eq_false_2 (p = "")), !bool_decide_eq_true_2 by done.
  by match goal with Hk : is_canonical_public_key_hex k = true |- _ => rewrite Hk end.
Qed.
#[local] Hint Resolve runs_register_account_key : runs.
Lemma runs_register_account_key_from_contract p : runs R F (register_account_key_from_contract tx p).
Proof. unfold register_account_key_from_contract. runs_tac. Qed.
Lemma runs_revoke_account_key_from_contract p : runs R F (revoke_account_key_from_contract tx p).
Proof.
  unfold revoke_account_key_from_contract. do 3 (runs_step; cbv beta).
  apply runs_inspect_update; [auto with total| |intros; runs_tac].
  intros s g Hok. unfold revocable_grant in Hok. simplify_ok. subst. by apply step_revoke_signer.
Qed.
End accounts.
End runs.

(** The deployment of an aspect contract: a deployment step and an event, or
    an error that changes nothing. *)
Lemma deploy_aspect_for_sender_run `{Host} tx c module_hash bundle_id w :
  deploy_aspect_for_sender tx c module_hash bundle_id w =
  match aspect_contract_record (w_state w) c module_hash bundle_id with
  | Ok record => (Ok (), {| w_state :=
      emit_event (tx_target tx) (tx_tx_hash tx)
        (EvContractDeployed c "aspect_module" (cr_code_hash record))
        (insert_grant (GovernanceAdmin c (tx_sender tx)) (grant_governance_admin (tx_sender tx))
          (set_contracts (<[c := record]> (contracts (w_state w))) (w_state w)));
      w_ctx := w_ctx w |})
  | Err e => (Err e, w) | Panic => (Panic, w) | OutOfFuel => (OutOfFuel, w)
  end.
Proof.
  unfold deploy_aspect_for_sender, deploy_aspect_contract, emit_deployed, bind, inspect.
  destruct (aspect_contract_record _ _ _ _); [|done..].
  unfold update, modify, read, gets, lift, emit; simpl. by rewrite lookup_insert_eq.
Qed.
Lemma aspect_contract_record_Ok s c module_hash bundle_id record :
  aspect_contract_record s c module_hash bundle_id = Ok record →
  c ≠ "" ∧ contracts s !! c = None ∧ cr_contract_id record = c ∧
  is_aspect_kind (cr_kind record) = true.
Proof.
  unfold aspect_contract_record, aspect_module_contract. intros. simplify_ok. subst.
  match goal with H : validate_new_contract_id _ _ = _ |- _ => apply validate_new_Ok in H as [??] end.
  done.
Qed.

(** ** Successes keep the ledgers *)
Lemma ledgers_install_one t0 c r kvs D s :
  (∀ k v, (k, v) ∈ kvs → ∀ t, t ∈ disturbs k → t = t0) →
  ledgers_ok_except D s → ledgers_ok_except (t0 :: D) (install c r kvs s).
Proof.
  intros Hk HI. unfold install.
  assert (ledgers_ok_except (t0 :: D) (set_contracts (<[c := r]> (contracts s)) s)) as HI'.
  { eapply ledgers_mono; [|by eapply ledgers_storage]. set_solver. }
  revert HI'. generalize (set_contracts (<[c := r]> (contracts s)) s). clear HI s.
  induction kvs as [|[k v] kvs IH]; simpl; intros s HI; [done|].
  apply IH; [intros; eapply Hk; [by apply list_elem_of_further|done]|].
  eapply ledgers_mono; [|by apply ledgers_set_key]. intros t. rewrite elem_of_app.
  intros [Ht|Ht]; [|done]. rewrite (Hk k v (list_elem_of_here _ _) t Ht). apply list_elem_of_here.
Qed.
Lemma keeps_install_one t0 c r kvs D :
  (∀ k v, (k, v) ∈ kvs → ∀ t, t ∈ disturbs k → t = t0) →
  keeps D (t0 :: D) (update (install c r kvs)).
Proof. intros Hk w HI. rewrite wp_update; simpl. by apply ledgers_install_one. Qed.

Section keeps.
Context `{Host} {call : Transaction → Principal → M ReturnValue} `{!CallsKeep call}.

Lemma keeps_deploy_token D c a l : keeps D D (deploy_token c a l).
Proof.
  unfold deploy_token. keeps_step. eapply keeps_bind; [apply (keeps_install_one (TotalSupply c a))|].
  - intros k v. rewrite elem_of_app, list_elem_of_fmap, list_elem_of_singleton.
    intros [([o n] & [= -> ->] & _)|[= -> ->]] t; set_solver.
  - intros u. keeps_tac.
Qed.
Lemma keeps_deploy_amm_pool D c a b : keeps D D (deploy_amm_pool c a b).
Proof.
  unfold deploy_amm_pool, deploy_amm_pool_with_parameters. keeps_step.
  eapply keeps_bind; [apply (keeps_install_one (LpSupply c))|].
  - intros k v. rewrite !elem_of_cons, elem_of_nil. intros Hk t. destruct_or!; simplify_eq; set_solver.
  - intros u. keeps_tac.
Qed.
Lemma keeps_emit_deployed D tx c k : keeps D D (emit_deployed tx c k).
Proof. unfold emit_deployed. do 2 keeps_step. by apply keeps_update. Qed.
Lemma keeps_register_aspect_module D m : keeps D D (register_aspect_module m).
Proof. unfold register_aspect_module. keeps_tac. Qed.
Lemma keeps_deploy_aspect_for_sender D tx c h b : keeps D D (deploy_aspect_for_sender tx c h b).
Proof.
  intros w HI. unfold wp. rewrite deploy_aspect_for_sender_run.
  by destruct (aspect_contract_record _ _ _ _).
Qed.
Lemma keeps_register_account_key D p k : keeps D D (register_account_key p k).
Proof. unfold register_account_key. keeps_step. by apply keeps_update. Qed.
#[local] Hint Resolve calls_keep keeps_deploy_token keeps_deploy_amm_pool keeps_emit_deployed
  keeps_register_aspect_module keeps_deploy_aspect_for_sender keeps_register_account_key : keeps.
Lemma keeps_deploy_token_from_factory D tx : keeps D D (deploy_token_from_factory tx).
Proof. unfold deploy_token_from_factory. keeps_tac. Qed.
Lemma keeps_deploy_amm_pool_from_factory D tx : keeps D D (deploy_amm_pool_from_factory tx).
Proof. unfold deploy_amm_pool_from_factory. keeps_tac. Qed.
Lemma keeps_submit_aspect_module D tx : keeps D D (submit_aspect_module_from_factory tx).
Proof. unfold submit_aspect_module_from_factory. keeps_tac. Qed.
Lemma keeps_deploy_aspect_contract_from_factory D tx :
  keeps D D (deploy_aspect_contract_from_factory call tx).
Proof.
  unfold deploy_aspect_contract_from_factory. keeps_tac.
Qed.
Lemma keeps_route_transfer_from D tx token : keeps D D (route_transfer_from call tx token).
Proof. unfold route_transfer_from. keeps_tac. Qed.
Lemma keeps_register_account_key_from_contract D tx p :
  keeps D D (register_account_key_from_contract tx p).
Proof. unfold register_account_key_from_contract. keeps_tac. Qed.
Lemma keeps_revoke_account_key_from_contract D tx p :
  keeps D D (revoke_account_key_from_contract tx p).
Proof. unfold revoke_account_key_from_contract. keeps_tac. Qed.
End keeps.
