(* ===== verification/AspectHost.v ===== *)
(** * AspectHost: applying the trace of an aspect method

    [execute_aspect_module_method] of crates/detta-core/src/lib.rs and its
    helpers: the evaluator's trace is applied to the state one host operation
    at a time, then the policy's invariants are evaluated on the result.  The
    parameter [call] stands for [execute_call]. *)
From S2P Require Import Prelude Effects Merkle Types State Policies AspectRuntime Aspects.
From S2P Require Import AspectClosure Runtime Ledger Token Assets Bridge.

Record AspectHostContext := {
  hc_module : AspectModuleRecord; hc_bundle_id : string; hc_policy : MethodPolicyIr;
  hc_frame : AuthorizedFrame;
}.

Section host.
Context `{Host} (call : Transaction → Principal → M ReturnValue).

Definition apply_aspect_call_contract (tx : Transaction) (hc : AspectHostContext)
    (contract : ContractId) (method : string) (args : list AspectValue) : M () :=
  do? ensure (nonempty contract) InvalidArguments in
  do? ensure (aspect_policy_allows_contract_call (hc_policy hc) contract method)
    UnauthorizedContractCall in
  let! entry := read (λ s, contracts s !! contract) in
  let? target_record := ok_or entry ContractNotFound in
  let? method := host_call_method_for_target target_record method in
  let! args := inspect (λ s, aspect_values_to_host_call_args s target_record method args) in
  do! call {| tx_chain_id := tx_chain_id tx; tx_tx_hash := tx_tx_hash tx;
    tx_sender := tx_sender tx; tx_nonce := tx_nonce tx;
    tx_valid_until_height := tx_valid_until_height tx; tx_target := contract;
    tx_method := method; tx_args := args; tx_signature_ok := tx_signature_ok tx;
    tx_budget := tx_budget tx |} (fr_contract (hc_frame hc)) in
  ret ().
Definition apply_aspect_cross_shard_outbox_append (tx : Transaction)
    (destination_chain destination_contract message_id recipient asset : string)
    (amount : Amount) : M () :=
  do? ensure (nonempty destination_chain && nonempty destination_contract && nonempty message_id
    && nonempty recipient && nonempty asset && negb (amount =? 0)) InvalidArguments in
  let! ids := read outbound_message_ids in
  do? ensure (negb (bool_decide (message_id ∈ ids))) OutboundMessageReplay in
  let! chain := read chain_id in
  let! h := read height in
  do! update (append_outbox {| csm_source_chain := chain; csm_source_contract := tx_target tx;
    csm_source_height := h; csm_destination_chain := destination_chain;
    csm_destination_contract := destination_contract; csm_message_id := message_id;
    csm_recipient := recipient; csm_asset := asset; csm_amount := amount |}) in
  emit (tx_target tx) (tx_tx_hash tx) (EvCrossShardMessageQueued message_id destination_chain
    destination_contract recipient asset amount).
Definition apply_aspect_permit_verify (tx : Transaction) (owner spender : Principal)
    (asset : AssetId) (amount : Amount) (certificate : string) : M () :=
  let! chain := read chain_id in
  let? nonce := verify_permit_certificate certificate chain (tx_target tx) owner spender asset amount in
  use_certificate_nonce nonce.
Definition apply_aspect_bridge_verify (tx : Transaction) (source_chain message_id : string)
    (recipient : Principal) (asset : AssetId) (amount : Amount) (certificate : string) : M () :=
  let! chain := read chain_id in
  let expected := {| exp_destination_chain := chain; exp_destination_contract := tx_target tx;
    exp_source_chain := source_chain; exp_message_id := message_id; exp_recipient := recipient;
    exp_asset := asset; exp_amount := amount |} in
  let! entry := read (λ s, trusted_bridge_validator_sets s !! source_chain) in
  let? validator_set := ok_or entry InvalidBridgeMessage in
  lift (verify_bridge_finality_proof certificate expected validator_set).

Definition apply_aspect_host_op (tx : Transaction) (hc : AspectHostContext) (op : AspectHostOp) : M () :=
  match op with
  | OpStateGet _ _ => ret ()
  | OpContractStateGet contract state _ =>
      lift (ensure (aspect_policy_allows_contract_state_read (hc_policy hc) contract state)
        UnauthorizedContractStateRead)
  | OpStateSet state key value =>
      let? key := aspect_state_key (tx_target tx) (hc_bundle_id hc) (hc_module hc) state key in
      let? value := state_value_from_aspect value in
      state_set (hc_frame hc) key value
  | OpEmit event =>
      emit (tx_target tx) (tx_tx_hash tx) (EvAspectEvent (mod_module_hash (hc_module hc)) event)
  | OpRegistryGet _ | OpRegistrySet _ _ | OpRegistryConsume _ _ => throw InvalidArguments
  | OpCallContract contract method args => apply_aspect_call_contract tx hc contract method args
  | OpPermitVerify owner spender asset amount certificate =>
      apply_aspect_permit_verify tx owner spender asset amount certificate
  | OpBridgeVerify source_chain message_id recipient asset amount certificate =>
      apply_aspect_bridge_verify tx source_chain message_id recipient asset amount certificate
  | OpCrossShardOutboxAppend destination_chain destination_contract message_id recipient asset amount =>
      apply_aspect_cross_shard_outbox_append tx destination_chain destination_contract message_id
        recipient asset amount
  end.

Definition check_aspect_method_invariants (module : AspectModuleRecord)
    (bundle_id projection : string) (budget : N) (context : AspectExecutionContext)
    (s : DeTTaState) : outcome ExecutionError () :=
  let* ir := ok_or (mod_ir module) PolicyMissing in
  let policy_key := qualified_aspect_symbol bundle_id projection in
  let* policy := ok_or (ir_policies ir !! policy_key) PolicyMissing in
  let* state_reads := aspect_state_reads s (ctx_current_contract context) bundle_id module in
  let contract_state_reads := aspect_contract_state_reads s in
  fold_outcome (λ _ invariant_ref,
    let* invariant := resolve_aspect_invariant ir bundle_id invariant_ref in
    let* report := map_err (evaluate_invariant_expr_with_contract_state ir budget
      (inv_expr invariant) context state_reads contract_state_reads) InvariantViolation in
    ensure (bool_decide (rep_return_value report = VBool true)
            && forallb (aspect_invariant_op_is_allowed policy) (rep_trace report))
      InvariantViolation) (set_iter (mpi_invariants policy)) ().

Definition execute_aspect_module_method (tx : Transaction) (msg_sender : Principal)
    (module_hash bundle_id : string) : M ReturnValue :=
  match tx_method tx with
  | Other projection =>
      let! entry := read (λ s, aspect_modules s !! module_hash) in
      let? module := ok_or entry InvalidArguments in
      let? ir := ok_or (mod_ir module) PolicyMissing in
      let policy_key := qualified_aspect_symbol bundle_id projection in
      let? aspect_policy := ok_or (ir_policies ir !! policy_key) PolicyMissing in
      let! h := read height in
      let context := {| ctx_tx_sender := tx_sender tx; ctx_msg_sender := msg_sender;
        ctx_current_contract := tx_target tx; ctx_block_height := h; ctx_block_timestamp := 0 |} in
      let! state_reads := inspect (λ s, aspect_state_reads s (tx_target tx) bundle_id module) in
      let! contract_state_reads := read aspect_contract_state_reads in
      let? report := map_err (execute_projection_with_contract_state ir (tx_budget tx) bundle_id
        projection (aspect_value_from_argument <$> tx_args tx) context state_reads
        contract_state_reads) InvalidArguments in
      let? write_scope := aspect_write_scope (tx_target tx) bundle_id module in
      let frame := {| fr_contract := tx_target tx; fr_msg_sender := msg_sender;
        fr_write_scope := write_scope |} in
      let host_context := {| hc_module := module; hc_bundle_id := bundle_id;
        hc_policy := aspect_policy; hc_frame := frame |} in
      do! forM (apply_aspect_host_op tx host_context) (rep_trace report) in
      do! inspect (check_aspect_method_invariants module bundle_id projection (tx_budget tx)
        context) in
      lift (aspect_value_to_return (rep_return_value report))
  | _ => throw MethodNotExported
  end.
End host.

(** ** Behaviour under any outcome *)
Lemma total_execute_projection m n b p args c r cr :
  total (execute_projection_with_contract_state m n b p args c r cr).
Proof. unfold execute_projection_with_contract_state. auto 8 with total. Qed.
Lemma total_check_invariants module b p n c s :
  total (check_aspect_method_invariants module b p n c s).
Proof.
  unfold check_aspect_method_invariants. do 3 (apply total_bind; [auto with total|intros]).
  apply total_fold_outcome. intros. apply total_bind; [auto with total|]. intros.
  apply total_bind; [|auto with total]. apply total_map_err. apply total_run_report.
Qed.
Lemma total_host_call_method r m : total (host_call_method_for_target r m).
Proof.
  unfold host_call_method_for_target.
  assert (total (parse_policy_method m)); [|by destruct (cr_kind r); auto with total].
  unfold parse_policy_method. repeat case_match; auto with total.
Qed.
#[export] Hint Resolve total_execute_projection total_check_invariants total_host_call_method : total.

(** The arguments of a nested call exist only for methods that may be nested. *)
Lemma host_call_args_nested s r name method values args :
  host_call_method_for_target r name = Ok method →
  aspect_values_to_host_call_args s r method values = Ok args →
  method ≠ DeployAspectContract.
Proof.
  unfold aspect_values_to_host_call_args. intros _ Hargs ->. by destruct (cr_kind r).
Qed.
Lemma aspect_state_key_Ok c b module name key k :
  aspect_state_key c b module name key = Ok k → ∃ a n l, k = AspectState c a n l.
Proof.
  unfold aspect_state_key. intros. simplify_ok.
  match goal with H : match ?l with _ => _ end = _ |- _ => destruct l as [|? [|]]; [done| |done] end.
  simplify_eq. eauto.
Qed.

Section runs.
Context `{Host} (tx : Transaction) {R : relation world} {F : world → Prop}.
Context {mh bundle ar pr ir : string} `{!Closed (tx_target tx) (AspectModule mh bundle ar pr ir) R F}.
Context {call : Transaction → Principal → M ReturnValue} `{!CallsAny R F call}.

Lemma runs_apply_aspect_call_contract hc c m args :
  runs R F (apply_aspect_call_contract call tx hc c m args).
Proof.
  unfold apply_aspect_call_contract. do 5 (runs_step; cbv beta).
  apply runs_bind_inspect; [auto with total|]. intros s vs Hvs. runs_step; [|runs_tac].
  apply calls_any. unfold nested_ok; simpl. by eapply host_call_args_nested.
Qed.
Lemma runs_apply_aspect_host_op hc op :
  fr_contract (hc_frame hc) = tx_target tx → runs R F (apply_aspect_host_op call tx hc op).
Proof.
  intros Hfr. destruct op; simpl; try solve [runs_tac].
  - runs_step. runs_step.
    match goal with H : aspect_state_key _ _ _ _ _ = _ |- _ =>
      apply aspect_state_key_Ok in H as (?&?&?&->) end.
    by apply runs_state_set_own.
  - apply runs_apply_aspect_call_contract.
  - unfold apply_aspect_permit_verify. runs_tac.
  - unfold apply_aspect_bridge_verify. runs_tac.
  - unfold apply_aspect_cross_shard_outbox_append. runs_tac. by apply runs_append_outbox.
Qed.
Lemma runs_execute_aspect_module_method p h b :
  runs R F (execute_aspect_module_method call tx p h b).
Proof.
  unfold execute_aspect_module_method. destruct (tx_method tx); try solve [runs_tac].
  do 5 (cbv beta zeta; runs_step). cbv beta zeta.
  runs_step; [apply runs_inspect; auto with total|].
  do 3 (cbv beta zeta; runs_step). cbv beta zeta. runs_step.
  - apply runs_forM; [apply _|]. intros. by apply runs_apply_aspect_host_op.
  - runs_step; [apply runs_inspect; auto with total|runs_tac].
Qed.
End runs.

(** ** Successes keep the ledgers *)
Section keeps.
Context `{Host} {call : Transaction → Principal → M ReturnValue} `{!CallsKeep call}.

Lemma keeps_apply_aspect_call_contract D tx hc c m args :
  keeps D D (apply_aspect_call_contract call tx hc c m args).
Proof. unfold apply_aspect_call_contract. do 6 keeps_step. apply keeps_call_unit. Qed.
Lemma keeps_apply_aspect_host_op D tx hc op : keeps D D (apply_aspect_host_op call tx hc op).
Proof.
  destruct op; simpl; try solve [keeps_tac].
  - by apply keeps_pure.
  - keeps_step. keeps_step.
    match goal with H : aspect_state_key _ _ _ _ _ = _ |- _ =>
      apply aspect_state_key_Ok in H as (?&?&?&->) end. exact (keeps_state_set _ (AspectState _ _ _ _) _ D).
  - by apply keeps_update.
  - apply keeps_apply_aspect_call_contract.
  - unfold apply_aspect_permit_verify. keeps_tac.
  - unfold apply_aspect_bridge_verify. do 3 keeps_step. by apply keeps_pure.
  - unfold apply_aspect_cross_shard_outbox_append. do 6 keeps_step. by apply keeps_update.
Qed.
Lemma keeps_forM {A} (f : A → M ()) l D : (∀ x, keeps D D (f x)) → keeps D D (forM f l).
Proof. intros Hf w HI. by apply (wp_forM f (λ w, ledgers_ok_except D (w_state w))); [intros; apply Hf|]. Qed.
Lemma keeps_execute_aspect_module_method D tx p h b :
  keeps D D (execute_aspect_module_method call tx p h b).
Proof.
  unfold execute_aspect_module_method. destruct (tx_method tx); try solve [keeps_tac].
  do 9 keeps_step.
  eapply keeps_bind; [apply keeps_forM; intros; apply keeps_apply_aspect_host_op|intros _].
  keeps_step. by apply keeps_pure.
Qed.
End keeps.
