(* ===== verification/Steps.v ===== *)
(** * Steps: what every execution keeps

    [contract_step A] is one primitive change of the state by some deployed
    contract outside the set [A]; an execution is a sequence of such steps
    ([Exec] proves it).  The facts below hold of one step by cases on
    [host_step], and of any sequence because they compose. *)
From S2P Require Import Prelude Effects Merkle Types State Policies Runtime.

Definition kind_of (s : DeTTaState) (c : ContractId) : option ContractKind :=
  cr_kind <$> contracts s !! c.
Definition code_hash_of (s : DeTTaState) (c : ContractId) : option string :=
  cr_code_hash <$> contracts s !! c.
Definition aspect_contracts (s : DeTTaState) : gset ContractId :=
  dom (filter (λ '(_, r), is_aspect_kind (cr_kind r) = true) (contracts s)).

(** [deploys] tells whether aspect contracts may be deployed. *)
Inductive contract_step (deploys : bool) (A : gset ContractId) (s s' : DeTTaState) : Prop :=
| step_host target kind :
    target ∉ A → kind_of s target = Some kind → host_step target kind s s' →
    contract_step deploys A s s'
| step_new_aspect target admin :
    deploys = true → target ∉ A → kind_of s target = Some Factory → deploy_step target admin s s' →
    contract_step deploys A s s'.
Definition steps_to (deploys : bool) (A : gset ContractId) : relation DeTTaState :=
  rtc (contract_step deploys A).

Lemma contract_step_mono (d d' : bool) A A' s s' :
  (d = true → d' = true) → A' ⊆ A → contract_step d A s s' → contract_step d' A' s s'.
Proof. intros Hd HA []; [eapply step_host|eapply step_new_aspect]; eauto. Qed.
Lemma steps_to_mono (d d' : bool) A A' s s' :
  (d = true → d' = true) → A' ⊆ A → steps_to d A s s' → steps_to d' A' s s'.
Proof. intros Hd HA. apply rtc_subrel. intros ??. by apply contract_step_mono. Qed.
(** A reflexive and transitive relation that contains the steps contains the
    executions. *)
Lemma steps_to_ind_rel (P : relation DeTTaState) d A s s' :
  PreOrder P → (∀ s s', contract_step d A s s' → P s s') → steps_to d A s s' → P s s'.
Proof. intros ? HP. induction 1 as [|s s1 s' H1 _ IH]; [done|]. etrans; [by apply HP|done]. Qed.

(** ** Deployments *)
Lemma install_spec c r kvs s :
  install c r kvs s = set_storage (foldl (λ m '(k, v), <[k := v]> m) (storage s) kvs)
    (set_contracts (<[c := r]> (contracts s)) s).
Proof.
  unfold install.
  assert (∀ s, foldl (λ s '(k, v), set_key k v s) s kvs
    = set_storage (foldl (λ m '(k, v), <[k := v]> m) (storage s) kvs) s) as ->; [|done].
  induction kvs as [|[k v] kvs IH]; intros s0; simpl; [by destruct s0|]. by rewrite IH.
Qed.
Lemma foldl_insert_other (kvs : list (StateKey * StateValue)) (m : gmap StateKey StateValue) k :
  (∀ v, (k, v) ∉ kvs) → foldl (λ m '(k, v), <[k := v]> m) m kvs !! k = m !! k.
Proof.
  revert m. induction kvs as [|[k' v'] kvs IH]; intros m Hk; simpl; [done|].
  rewrite IH; [|intros v Hv; eapply Hk; by apply list_elem_of_further].
  rewrite lookup_insert_ne; [done|]. intros ->. eapply Hk, list_elem_of_here.
Qed.

(** ** Kinds *)
Lemma host_step_kinds target kind s s' c :
  host_step target kind s s' →
  kind_of s' c = kind_of s c ∨
  (kind_of s c = None ∧ ∃ k, kind_of s' c = Some k ∧ is_aspect_kind k = false).
Proof.
  unfold kind_of. destruct 1 as [| | | | | | | | | | |id g dl u r ? ? ? ? ? ? Hr| |id g dl u r p ? ? ? ? ? ? Hr Hp
    |c' r kvs ? ? Hn ? Hna ?|]; try by left; simpl.
  - left; simpl. destruct (decide (c = g)) as [->|]; [by rewrite lookup_insert_eq, Hr|].
    by rewrite lookup_insert_ne.
  - left; simpl. destruct (decide (c = g)) as [->|]; [by rewrite lookup_insert_eq, Hr|].
    by rewrite lookup_insert_ne.
  - rewrite install_spec; simpl. destruct (decide (c = c')) as [->|].
    + right. rewrite lookup_insert_eq, Hn. eauto.
    + left. by rewrite lookup_insert_ne.
Qed.
Lemma deploy_step_kinds target admin s s' :
  deploy_step target admin s s' →
  ∃ c r, contracts s' = <[c := r]> (contracts s) ∧ contracts s !! c = None ∧
    is_aspect_kind (cr_kind r) = true.
Proof. destruct 1 as [c r ? ? ? ?]. by exists c, r. Qed.
Lemma contract_step_kind d A s s' c k :
  contract_step d A s s' → kind_of s c = Some k → kind_of s' c = Some k.
Proof.
  intros [t kd ? ? Hs|t ad ? ? ? Hs] Hk.
  - destruct (host_step_kinds _ _ _ _ c Hs) as [->|[? _]]; congruence.
  - destruct (deploy_step_kinds _ _ _ _ Hs) as (c' & r & Hc & Hn & _). unfold kind_of in *.
    rewrite Hc, lookup_insert_ne; [done|]. intros ->. by rewrite Hn in Hk.
Qed.

Lemma elem_of_aspect_contracts s c : c ∈ aspect_contracts s ↔ is_aspect s c.
Proof.
  unfold aspect_contracts, is_aspect. rewrite elem_of_dom. unfold is_Some.
  setoid_rewrite map_lookup_filter_Some. destruct (contracts s !! c); naive_solver.
Qed.
Lemma is_aspect_kind_of s c : is_aspect s c ↔ ∃ k, kind_of s c = Some k ∧ is_aspect_kind k = true.
Proof. unfold is_aspect, kind_of. destruct (contracts s !! c); naive_solver. Qed.
(** No aspect contract appears without a deployment step. *)
Lemma steps_aspect_contracts A s s' : steps_to false A s s' → aspect_contracts s' = aspect_contracts s.
Proof.
  assert (PreOrder (λ s s', aspect_contracts s' = aspect_contracts s)).
  { split; [done|]. intros ? ? ? ? ?. congruence. }
  apply (steps_to_ind_rel (λ s s', aspect_contracts s' = aspect_contracts s)); [done|]. clear. intros s s' [t k _ _ Hs|]; [|done]. apply set_eq. intros c.
  rewrite !elem_of_aspect_contracts, !is_aspect_kind_of.
  destruct (host_step_kinds _ _ _ _ c Hs) as [->|(Hn & k' & Hk' & Ha)]; [done|].
  rewrite Hn, Hk'. split; [|by intros (? & ? & _)]. intros (? & [= <-] & Ha'). congruence.
Qed.

(** ** What no execution undoes *)
Record preserved (s s' : DeTTaState) : Prop := {
  pres_chain : chain_id s' = chain_id s;
  pres_height : height s' = height s;
  pres_finalized : finalized_block_hash s' = finalized_block_hash s;
  pres_nonces : used_nonces s' = used_nonces s;
  pres_trusted : trusted_bridge_validator_sets s' = trusted_bridge_validator_sets s;
  pres_certificates : used_certificate_nonces s ⊆ used_certificate_nonces s';
  pres_outbound : outbound_message_ids s ⊆ outbound_message_ids s';
  pres_outbox : cross_shard_outbox s `prefix_of` cross_shard_outbox s';
  pres_events : events s `prefix_of` events s';
  pres_modules : aspect_modules s ⊆ aspect_modules s';
  pres_kinds c k : kind_of s c = Some k → kind_of s' c = Some k;
  pres_consumed c m :
    storage s !! BridgeMessageConsumed c m = Some (UInt 1) →
    storage s' !! BridgeMessageConsumed c m = Some (UInt 1);
  pres_upgrades id u :
    scheduled_upgrades s !! id = Some u →
    ∃ u', scheduled_upgrades s' !! id = Some u' ∧ (u' = u ∨ u' = mark_upgrade_executed u);
}.
#[export] Instance preserved_preorder : PreOrder preserved.
Proof.
  split.
  - intros s. split; try done; naive_solver.
  - intros s1 s2 s3 [] []. split; try congruence; try (by etrans); auto.
    intros id u Hu. destruct (pres_upgrades0 id u Hu) as (u' & Hu' & Hor).
    destruct (pres_upgrades1 id u' Hu') as (u'' & Hu'' & Hor'). exists u''. split; [done|].
    destruct Hor as [->| ->], Hor' as [->| ->]; auto.
Qed.

(** The storage entries a step may change. *)
Lemma host_step_storage target kind s s' k :
  host_step target kind s s' →
  storage s' !! k = storage s !! k ∨
  (∃ v, storage s' !! k = Some v ∧ write_ok k v = true ∧
    (owner_contract k = target ∧ kind_key kind k = true ∨ token_key k = true)) ∨
  kind_of s (owner_contract k) = None.
Proof.
  destruct 1 as [k' v Ho Hk Hv|k' v Hk| | | | | | | | | | | | |c r kvs ? ? Hn ? ? Hkv|]; try by left.
  - simpl. destruct (decide (k = k')) as [->|]; [|left; by rewrite lookup_insert_ne].
    right; left. rewrite lookup_insert_eq. naive_solver.
  - simpl. destruct (decide (k = k')) as [->|]; [|left; by rewrite lookup_insert_ne].
    right; left. rewrite lookup_insert_eq. exists v. split_and!; [done| |by right].
    by destruct k'.
  - rewrite install_spec; simpl. destruct (decide (owner_contract k = c)) as [->|Hne].
    + right; right. unfold kind_of. by rewrite Hn.
    + left. apply foldl_insert_other. intros v Hv. destruct (Hkv k v Hv). congruence.
Qed.
(** A consumed mark survives, also in a deployment. *)
Lemma foldl_insert_consumed (kvs : list (StateKey * StateValue)) (m : gmap StateKey StateValue) c id :
  (∀ k v, (k, v) ∈ kvs → write_ok k v = true) →
  m !! BridgeMessageConsumed c id = Some (UInt 1) →
  foldl (λ m '(k, v), <[k := v]> m) m kvs !! BridgeMessageConsumed c id = Some (UInt 1).
Proof.
  revert m. induction kvs as [|[k v] kvs IH]; intros m Hk Hm; simpl; [done|]. apply IH.
  - intros. eapply Hk. by apply list_elem_of_further.
  - destruct (decide (k = BridgeMessageConsumed c id)) as [->|]; [|by rewrite lookup_insert_ne].
    rewrite lookup_insert_eq. specialize (Hk _ v (list_elem_of_here _ _)). simpl in Hk.
    apply bool_decide_eq_true in Hk. by subst.
Qed.
Lemma host_step_consumed target kind s s' c m :
  host_step target kind s s' → storage s !! BridgeMessageConsumed c m = Some (UInt 1) →
  storage s' !! BridgeMessageConsumed c m = Some (UInt 1).
Proof.
  intros Hs Hm. destruct Hs as [k' v Ho Hk Hv|k' v Hk| | | | | | | | | | | | |c' r kvs ? ? Hn ? ? Hkv|]; try done.
  - simpl. destruct (decide (k' = BridgeMessageConsumed c m)) as [->|]; [|by rewrite lookup_insert_ne].
    rewrite lookup_insert_eq. simpl in Hv. apply bool_decide_eq_true in Hv. by subst.
  - simpl. rewrite lookup_insert_ne; [done|]. by intros ->.
  - rewrite install_spec; simpl. apply foldl_insert_consumed; [|done]. intros k v Hv.
    by destruct (Hkv k v Hv) as (_ & _ & ?).
Qed.
Lemma host_step_upgrades target kind s s' id u :
  host_step target kind s s' → scheduled_upgrades s !! id = Some u →
  ∃ u', scheduled_upgrades s' !! id = Some u' ∧ (u' = u ∨ u' = mark_upgrade_executed u).
Proof.
  intros Hs Hu. destruct Hs as [| | | | | | | | | |g dl u' ? Hn|id' g dl u' r ? Hu'| | |c r kvs|];
    try (by exists u; auto); simpl.
  - rewrite lookup_insert_ne by congruence. eauto.
  - destruct (decide (id = id')) as [->|]; [rewrite lookup_insert_eq|rewrite lookup_insert_ne by done; eauto].
    eexists; split; [done|]. right. congruence.
  - exists u. rewrite install_spec; simpl. auto.
Qed.

Lemma contract_step_preserved d A s s' : contract_step d A s s' → preserved s s'.
Proof.
  intros Hs.
  assert (∀ c k, kind_of s c = Some k → kind_of s' c = Some k) as Hkinds.
  { intros c k. by apply (contract_step_kind d A). }
  destruct Hs as [t k Ht Hk Hs|t ad Hd Ht Hk Hs].
  2: { revert Hkinds. destruct Hs. intros Hkinds. split; try exact Hkinds; simpl; try done; eauto. }
  assert (∀ c m, storage s !! BridgeMessageConsumed c m = Some (UInt 1) →
    storage s' !! BridgeMessageConsumed c m = Some (UInt 1)) as Hcons.
  { intros c m. by eapply host_step_consumed. }
  assert (∀ id u, scheduled_upgrades s !! id = Some u → ∃ u', scheduled_upgrades s' !! id = Some u' ∧
    (u' = u ∨ u' = mark_upgrade_executed u)) as Hup.
  { intros id u. by eapply host_step_upgrades. }
  split; try done; clear Hkinds Hcons Hup;
    destruct Hs; try rewrite install_spec; simpl; try done; try set_solver;
    try (by apply prefix_app_r).
  by apply insert_subseteq.
Qed.
Lemma steps_preserved d A s s' : steps_to d A s s' → preserved s s'.
Proof. apply steps_to_ind_rel; [apply _|]. intros ??. apply contract_step_preserved. Qed.

(** ** Isolation

    Entries of a deployed contract in [A] do not change, token balances
    apart: those also move with the assets of other contracts. *)
Lemma steps_isolated d A s s' k kd :
  steps_to d A s s' → owner_contract k ∈ A → kind_of s (owner_contract k) = Some kd →
  token_key k = false → storage s' !! k = storage s !! k.
Proof.
  intros Hs Hin Hk Htok. revert Hk. induction Hs as [|s s1 s' H1 _ IH]; [done|]. intros Hk.
  rewrite IH by (by eapply contract_step_kind). clear IH.
  destruct H1 as [t kd' Ht Hkt Hs|t ad Hd Ht Hkt [c r]]; [|done].
  destruct (host_step_storage _ _ _ _ k Hs) as [?|[(v & _ & _ & [[<- _]|?])|?]]; congruence.
Qed.

(** ** The registry *)
Definition allowances_within (s : DeTTaState) : Prop :=
  ∀ c owner spender asset g, registry s !! Allowance c owner spender asset = Some g →
    g_spent g ≤ default u128_max (g_limit g).
Definition grant_within (k : GrantKey) (g : Grant) : Prop :=
  match k with Allowance _ _ _ _ => g_spent g ≤ default u128_max (g_limit g) | _ => True end.
#[export] Instance grant_within_dec k g : Decision (grant_within k g).
Proof. unfold grant_within. destruct k; apply _. Defined.
Lemma allowances_within_iff s : allowances_within s ↔ map_Forall grant_within (registry s).
Proof.
  unfold allowances_within. rewrite map_Forall_lookup. split.
  - intros HI [] g Hg; try done. by eapply HI.
  - intros HI c o sp a g Hg. apply (HI _ _ Hg).
Qed.
Definition signers_canonical (s : DeTTaState) : Prop :=
  map_Forall (λ k g, account_signer_grant_canonical k g = true) (registry s).
Lemma signers_canonical_check s : account_signer_keys_canonical s = true ↔ signers_canonical s.
Proof.
  unfold account_signer_keys_canonical, signers_canonical. rewrite elem_of_forallb, map_Forall_lookup.
  split.
  - intros Hf k g Hk. apply elem_of_entries in Hk. apply (Hf _ Hk).
  - intros Hf [k g] Hk. apply elem_of_entries in Hk. by apply Hf.
Qed.
(** A step replaces at most one grant. *)
Lemma contract_step_registry d A s s' (P : GrantKey → Grant → Prop) :
  contract_step d A s s' →
  (∀ c o sp a g, g_subject g = sp → g_spent g ≤ default u128_max (g_limit g) →
     P (Allowance c o sp a) g) →
  (∀ a k g, account_signer_grant_canonical (AccountSigner a k) g = true → P (AccountSigner a k) g) →
  (∀ a k g, P (AccountSigner a k) g → P (AccountSigner a k) (revoke g)) →
  (∀ c admin, P (GovernanceAdmin c admin) (grant_governance_admin admin)) →
  map_Forall P (registry s) → map_Forall P (registry s').
Proof.
  intros Hs Hal Hsg Hrv Hadm HP. destruct Hs as [t k Ht Hk Hs|t ad Hd Ht Hk [c r]].
  - destruct Hs as [| | |o sp a g ? ? [Hle|Hold]| |a key g ? Hg| | | | | | | | |c r kvs|]; try done; simpl.
    + apply map_Forall_insert_2; auto.
    + apply map_Forall_insert_2; [|done]. by apply HP.
    + apply map_Forall_insert_2; auto.
    + apply map_Forall_insert_2; [|done]. apply Hrv. by apply HP.
    + by rewrite install_spec.
  - simpl. by apply map_Forall_insert_2.
Qed.
Lemma steps_invariant (I : DeTTaState → Prop) d A s s' :
  (∀ s s', contract_step d A s s' → I s → I s') → steps_to d A s s' → I s → I s'.
Proof. intros HI. induction 1; eauto. Qed.
Lemma steps_allowances d A s s' : steps_to d A s s' → allowances_within s → allowances_within s'.
Proof.
  apply steps_invariant. clear. intros s s' Hs. rewrite !allowances_within_iff.
  apply (contract_step_registry _ _ _ _ _ Hs); by intros.
Qed.
Lemma steps_signers d A s s' : steps_to d A s s' → signers_canonical s → signers_canonical s'.
Proof.
  apply steps_invariant. clear. intros s s' Hs HI.
  eapply contract_step_registry; [done|done|done| |done|done].
  intros a k g. simpl. rewrite !andb_true_iff. naive_solver.
Qed.

(** ** Upgrades

    The code of a deployed contract changes only by executing an upgrade that
    its governance contract scheduled and whose delay has passed. *)
Definition upgraded_by (s s' : DeTTaState) (c : ContractId) (id : string) : Prop :=
  ∃ u delay, scheduled_upgrades s' !! id = Some u ∧ su_executed u = true ∧
    su_target_contract u = c ∧ code_hash_of s' c = Some (su_new_code_hash u) ∧
    su_execute_after_height u ≤ height s' ∧
    kind_of s' (su_governance_contract u) = Some (Governance c delay) ∧
    ∀ u0, scheduled_upgrades s !! id = Some u0 → su_executed u0 = false.
Lemma contract_step_code_hash d A s s' c :
  contract_step d A s s' → is_Some (contracts s !! c) → code_hash_of s' c ≠ code_hash_of s c →
  ∃ id, upgraded_by s s' c id.
Proof.
  unfold code_hash_of. intros [t k Ht Hk Hs|t ad Hd Ht Hk [c' r ? Hn ? ?]] [r0 Hc] Hne.
  - destruct Hs as [| | | | | | | | | | |id g dl u r Hkg Hu Hex Hgov Htg Hle Hr| |id g dl u r p Hkg Hu Hex Hgov Htg Hle Hr Hp
      |c' r kvs ? ? Hn ? ? ?|]; simpl in *; try done.
    + destruct (decide (g = c)) as [->|]; [|by rewrite lookup_insert_ne in Hne].
      exists id, (mark_upgrade_executed u), dl. simpl. rewrite !lookup_insert_eq.
      split_and!; try done.
      * unfold code_hash_of; simpl. by rewrite lookup_insert_eq.
      * unfold kind_of in *; simpl. rewrite Hgov. destruct (decide (t = c)) as [->|].
        -- rewrite lookup_insert_eq; simpl. rewrite Hr in Hk. simpl in Hk. congruence.
        -- rewrite lookup_insert_ne by done. congruence.
      * intros. congruence.
    + destruct (decide (g = c)) as [->|]; [|by rewrite lookup_insert_ne in Hne].
      rewrite lookup_insert_eq, Hr in Hne. done.
    + rewrite install_spec in Hne; simpl in Hne. rewrite lookup_insert_ne in Hne; [done|]. congruence.
  - simpl in Hne. rewrite lookup_insert_ne in Hne; [done|]. congruence.
Qed.
(** An upgrade executed earlier stays recorded while the code stays. *)
Lemma upgraded_by_step d A s s1 s' c id :
  upgraded_by s s1 c id → contract_step d A s1 s' → code_hash_of s' c = code_hash_of s1 c →
  upgraded_by s s' c id.
Proof.
  intros (u & delay & Hu & Hex & Htg & Hch & Hle & Hk & Hold) Hs Heq.
  destruct (contract_step_preserved _ _ _ _ Hs) as [? Hh ? ? ? ? ? ? ? ? Hkinds ? Hups].
  destruct (Hups id u Hu) as (u' & Hu' & Hor). exists u', delay.
  destruct Hor as [->| ->]; simpl; split_and!; try done; try congruence; eauto; lia.
Qed.
Lemma steps_code_hash d A s s' c :
  steps_to d A s s' → is_Some (contracts s !! c) → code_hash_of s' c ≠ code_hash_of s c →
  ∃ id, upgraded_by s s' c id.
Proof.
  intros Hs [r Hc]. assert (kind_of s c = Some (cr_kind r)) as Hk by (unfold kind_of; by rewrite Hc).
  revert s' Hs. apply (rtc_ind_r (λ s', code_hash_of s' c ≠ code_hash_of s c → ∃ id, upgraded_by s s' c id));
    [done|]. intros s1 s' Hs1 H1 IH Hne.
  destruct (decide (code_hash_of s' c = code_hash_of s1 c)) as [Heq|Hne1].
  - destruct IH as [id Hid]; [congruence|]. exists id. by eapply upgraded_by_step.
  - pose proof (steps_preserved _ _ _ _ Hs1) as [? ? ? ? ? ? ? ? ? ? Hkinds ? Hups].
    apply Hkinds in Hk. unfold kind_of in Hk. apply fmap_Some in Hk as (r1 & Hr1 & _).
    destruct (contract_step_code_hash _ _ _ _ _ H1 (mk_is_Some _ _ Hr1) Hne1) as (id & Hid).
    exists id. destruct Hid as (u & dl & ? & ? & ? & ? & ? & ? & Hold). exists u, dl. split_and!; try done.
    intros u0 Hu0. destruct (Hups id u0 Hu0) as (u1 & Hu1 & [->| ->]); [by apply Hold|].
    by apply Hold in Hu1.
Qed.
