(* ===== verification/Exec.v ===== *)
(** * Exec: dispatch of calls and application of transactions

    [execute_call], [enforce_method_authority] and [apply_transaction] of
    crates/detta-core/src/lib.rs.  [execute_call] is recursive through the
    handlers; the model gives the recursion fuel, and [execute_call_runs]
    below shows how much is enough: a contract is entered at most once per
    path, and a native contract only calls aspect contracts or a token's
    [TransferFrom], so the depth is bounded by twice the number of aspect
    contracts that are not active. *)
From S2P Require Import Prelude Effects Merkle Types State Policies AspectRuntime Aspects.
From S2P Require Import Runtime Ledger Token Assets Amm Oracle Bridge Governance Lending.
From S2P Require Import Staking Factory AspectHost Steps.

Section exec.
Context `{Host}.

Definition enforce_method_authority (tx : Transaction) (msg_sender : Principal)
    (policy : MethodPolicy) (s : DeTTaState) : outcome ExecutionError () :=
  match mp_authority policy with
  | TxSender | LiveAllowanceGrant | PermitCertificate | BridgeCertificate => Ok ()
  | OracleUpdaterGrant => require_oracle_updater s (tx_target tx) msg_sender
  | GovernanceAdminGrant => require_governance_admin s (tx_target tx) msg_sender
  end.

(** The match on [contract.kind] and [tx.method]. *)
Definition dispatch (call : Transaction → Principal → M ReturnValue) (kind : ContractKind)
    (tx : Transaction) (msg_sender : Principal) : M ReturnValue :=
  match kind with
  | Token =>
      match tx_method tx with
      | Transfer => transfer tx msg_sender
      | Approve => approve tx msg_sender
      | TransferFrom => transfer_from tx msg_sender
      | Permit => permit tx
      | _ => throw PolicyMissing
      end
  | AmmPool asset_a asset_b swap_fee_bps =>
      match tx_method tx with
      | AddLiquidity => add_liquidity call tx msg_sender asset_a asset_b
      | Swap => swap call tx msg_sender asset_a asset_b swap_fee_bps
      | _ => throw PolicyMissing
      end
  | Oracle asset max_age =>
      match tx_method tx with
      | SubmitPrice => submit_price tx msg_sender asset max_age
      | _ => throw PolicyMissing
      end
  | Bridge source_chain =>
      match tx_method tx with
      | QueueBridgeMessage => queue_bridge_message call tx msg_sender
      | RedeemBridgeMessage => redeem_bridge_message tx msg_sender source_chain
      | _ => throw PolicyMissing
      end
  | Governance governed_contract timelock_delay =>
      match tx_method tx with
      | PauseContract => pause_contract tx msg_sender governed_contract
      | UnpauseContract => unpause_contract tx msg_sender governed_contract
      | ScheduleUpgrade => schedule_upgrade tx msg_sender governed_contract timelock_delay
      | ExecuteUpgrade => execute_upgrade tx msg_sender governed_contract
      | SchedulePolicyUpdate => schedule_policy_update tx msg_sender governed_contract timelock_delay
      | ExecutePolicyUpdate => execute_policy_update tx msg_sender governed_contract
      | _ => throw PolicyMissing
      end
  | LendingVault collateral_asset debt_asset oracle_contract ltv_bps max_oracle_age
      interest_bps_per_block liquidation_threshold_bps =>
      let config := {| lc_collateral_asset := collateral_asset; lc_debt_asset := debt_asset;
        lc_oracle_contract := oracle_contract; lc_ltv_bps := ltv_bps;
        lc_max_oracle_age := max_oracle_age; lc_interest_bps_per_block := interest_bps_per_block;
        lc_liquidation_threshold_bps := liquidation_threshold_bps |} in
      match tx_method tx with
      | DepositCollateral => deposit_collateral call tx collateral_asset
      | Borrow => borrow call tx msg_sender config
      | Liquidate => liquidate call tx msg_sender config
      | _ => throw PolicyMissing
      end
  | Staking asset unbonding_delay reward_per_block unstake_penalty_bps =>
      match tx_method tx with
      | Stake => stake call tx msg_sender asset reward_per_block
      | Unstake => unstake call tx msg_sender asset
          {| sp_unbonding_delay := unbonding_delay; sp_reward_per_block := reward_per_block;
             sp_unstake_penalty_bps := unstake_penalty_bps |}
      | RequestUnstake => request_unstake tx msg_sender asset reward_per_block unbonding_delay
          unstake_penalty_bps
      | CompleteUnstake => complete_unstake call tx msg_sender asset
      | ClaimStakingRewards => claim_staking_rewards tx msg_sender asset reward_per_block
      | _ => throw PolicyMissing
      end
  | Router token_contract =>
      match tx_method tx with
      | RouteTransferFrom => route_transfer_from call tx token_contract
      | _ => throw PolicyMissing
      end
  | Factory =>
      match tx_method tx with
      | DeployToken => deploy_token_from_factory tx
      | DeployAmmPool => deploy_amm_pool_from_factory tx
      | SubmitAspectModule => submit_aspect_module_from_factory tx
      | DeployAspectContract => deploy_aspect_contract_from_factory call tx
      | _ => throw PolicyMissing
      end
  | AccountRegistry =>
      match tx_method tx with
      | RegisterAccountKey => register_account_key_from_contract tx msg_sender
      | RevokeAccountKey => revoke_account_key_from_contract tx msg_sender
      | _ => throw PolicyMissing
      end
  | AspectModule module_hash bundle_id _ _ _ =>
      execute_aspect_module_method call tx msg_sender module_hash bundle_id
  end.

(** The checks before the dispatch. *)
Definition authorize (tx : Transaction) (msg_sender : Principal) (s : DeTTaState)
    : outcome ExecutionError ContractRecord :=
  let* contract := ok_or (contracts s !! tx_target tx) ContractNotFound in
  do* ensure (bool_decide (tx_method tx ∈ cr_exported_methods contract)) MethodNotExported in
  let* policy := ok_or (method_policy contract (tx_method tx)) PolicyMissing in
  do* enforce_method_authority tx msg_sender policy s in
  do* ensure (negb (bool_decide (tx_target tx ∈ paused_contracts s))) ContractPaused in
  Ok contract.
(** The closure of [execute_call]. *)
Definition call_body (call : Transaction → Principal → M ReturnValue) (tx : Transaction)
    (msg_sender : Principal) : M ReturnValue :=
  let! contract := inspect (authorize tx msg_sender) in
  dispatch call (cr_kind contract) tx msg_sender.
(** [call_context.enter(..)?; let result = body(); call_context.exit(); result] *)
Definition in_frame {A} (tx : Transaction) (msg_sender : Principal) (body : M A) : M A := λ w,
  match enter (tx_target tx) (tx_method tx) msg_sender (w_ctx w) with
  | Ok ctx =>
      finally body (λ w, {| w_state := w_state w; w_ctx := exit (w_ctx w) |})
        {| w_state := w_state w; w_ctx := ctx |}
  | Err e => (Err e, w) | Panic => (Panic, w) | OutOfFuel => (OutOfFuel, w)
  end.
Fixpoint execute_call (fuel : nat) (tx : Transaction) (msg_sender : Principal) : M ReturnValue :=
  match fuel with
  | O => out_of_fuel
  | S fuel => in_frame tx msg_sender (call_body (execute_call fuel) tx msg_sender)
  end.

(** ** Fuel *)
(** The aspect contracts a call from [w] may still enter. *)
Definition free_aspects (w : world) : nat :=
  size (aspect_contracts (w_state w) ∖ cc_active_nonreentrant_contracts (w_ctx w)).
Definition call_fuel (s : DeTTaState) : nat := 2 * size (aspect_contracts s) + 4.

(** ** Transactions

    The checkpoint leaves the chain id, the height, the finalized hash, the
    trusted validator sets and the used nonces as execution left them. *)
Definition rollback (checkpoint s : DeTTaState) : DeTTaState :=
  {| chain_id := chain_id s; height := height s; finalized_block_hash := finalized_block_hash s;
     contracts := contracts checkpoint; aspect_modules := aspect_modules checkpoint;
     storage := storage checkpoint; registry := registry checkpoint;
     used_nonces := used_nonces s;
     used_certificate_nonces := used_certificate_nonces checkpoint;
     paused_contracts := paused_contracts checkpoint;
     scheduled_upgrades := scheduled_upgrades checkpoint;
     scheduled_policy_updates := scheduled_policy_updates checkpoint;
     trusted_bridge_validator_sets := trusted_bridge_validator_sets s;
     outbound_message_ids := outbound_message_ids checkpoint;
     cross_shard_outbox := cross_shard_outbox checkpoint; events := events checkpoint |}.
Definition expired (tx : Transaction) (s : DeTTaState) : bool :=
  match tx_valid_until_height tx with
  | Some valid_until_height => valid_until_height <? height s
  | None => false
  end.
Definition apply_transaction (tx : Transaction) : SE DeTTaState Empty_set Receipt := λ s,
  if bool_decide (tx_chain_id tx ≠ chain_id s) then
    (Ok (rejected_receipt s (tx_tx_hash tx) ChainMismatch), s)
  else if negb (tx_signature_ok tx) then
    (Ok (rejected_receipt s (tx_tx_hash tx) InvalidSignature), s)
  else if expired tx s then
    (Ok (rejected_receipt s (tx_tx_hash tx) TransactionExpired), s)
  else if bool_decide ((tx_sender tx, tx_nonce tx) ∈ used_nonces s) then
    (Ok (rejected_receipt s (tx_tx_hash tx) NonceReplay), s)
  else
  let units := transaction_resource_units tx in
  let s := set_used_nonces ({[(tx_sender tx, tx_nonce tx)]} ∪ used_nonces s) s in
  if tx_budget tx <? units then
    (Ok (reverted_receipt s (tx_tx_hash tx) OutOfGas units), s)
  else
  match execute_call (call_fuel s) tx (tx_sender tx)
          {| w_state := s; w_ctx := call_context_new (tx_sender tx) |} with
  | (Ok return_value, w) =>
      (Ok (committed_receipt (w_state w) (tx_tx_hash tx) return_value units), w_state w)
  | (Err error, w) =>
      let s' := rollback s (w_state w) in
      (Ok (reverted_receipt s' (tx_tx_hash tx) error units), s')
  | (Panic, w) => (Panic, w_state w)
  | (OutOfFuel, w) => (OutOfFuel, w_state w)
  end.
End exec.

(** ** Every call is made of contract steps, and returns *)
Abbreviation active w := (cc_active_nonreentrant_contracts (w_ctx w)).

(** A call restores the call context; it changes the state by steps of
    contracts that were not active. *)
Definition call_rel (deploys : bool) (w w' : world) : Prop :=
  w_ctx w' = w_ctx w ∧ steps_to deploys (active w) (w_state w) (w_state w').
(** The body of a call also takes steps of its own contract [t]. *)
Definition body_rel (t : ContractId) (kind : ContractKind) (w w' : world) : Prop :=
  w_ctx w' = w_ctx w ∧
  (kind_of (w_state w) t = Some kind → steps_to false (active w ∖ {[t]}) (w_state w) (w_state w')).
Definition body_fuel (t : ContractId) (kind : ContractKind) (b n : nat) (w : world) : Prop :=
  kind_of (w_state w) t = Some kind ∧ (2 * free_aspects w + b ≤ n)%nat.
Definition call_need (tx : Transaction) (w : world) : nat :=
  match tx_method tx with
  | TransferFrom => 1
  | _ => if decide (tx_target tx ∈ aspect_contracts (w_state w))
         then 2 * free_aspects w + 1 else 2 * free_aspects w + 2
  end.
Definition call_ok (n : nat) (call : Transaction → Principal → M ReturnValue) : Prop :=
  ∀ tx p w, nested_ok tx →
    call_rel false w (call tx p w).2 ∧ (call tx p w).1 ≠ Panic ∧
    ((call_need tx w ≤ n)%nat → (call tx p w).1 ≠ OutOfFuel).

Lemma steps_kind d A s s' t k : steps_to d A s s' → kind_of s t = Some k → kind_of s' t = Some k.
Proof. intros Hs. apply (pres_kinds _ _ (steps_preserved _ _ _ _ Hs)). Qed.
#[export] Instance body_rel_preorder t kind : PreOrder (body_rel t kind).
Proof.
  split.
  - intros w. split; [done|]. intros. apply rtc_refl.
  - intros w1 w2 w3 [Hc1 H1] [Hc2 H2]. split; [congruence|]. intros Hk. specialize (H1 Hk).
    etrans; [exact H1|]. rewrite Hc1 in H2. apply H2. by eapply steps_kind.
Qed.
#[export] Instance body_closed t kind b n : Closed t kind (body_rel t kind) (body_fuel t kind b n).
Proof.
  split; [split; [apply _|]|].
  - intros w w' [Hc Hs] [Hk Hb]. specialize (Hs Hk). split; [by eapply steps_kind|].
    unfold free_aspects in *. by rewrite Hc, (steps_aspect_contracts _ _ _ Hs).
  - intros s s' ctx Hs. split; [done|]. intros Hk. apply rtc_once. eapply step_host; [|done..].
    set_solver.
Qed.
Lemma call_rel_body t kind w w' : call_rel false w w' → body_rel t kind w w'.
Proof. intros [Hc Hs]. split; [done|]. intros _. eapply steps_to_mono; [done| |exact Hs]. set_solver. Qed.

Section calls.
Context {call : Transaction → Principal → M ReturnValue} {n : nat} (Hcall : call_ok n call).
Context (t : ContractId) (kind : ContractKind).

Lemma call_ok_native : Calls (body_rel t kind) (body_fuel t kind 1 n) call.
Proof.
  split.
  - intros tx p w Hn Ha. destruct (Hcall tx p w Hn) as (HR & Hp & Hf).
    split_and!; [by apply call_rel_body|done|]. intros [_ Hb]. apply Hf. unfold call_need.
    rewrite decide_True by (by apply elem_of_aspect_contracts). destruct (tx_method tx); lia.
  - intros tx p Htf w. assert (nested_ok tx) as Hn by (unfold nested_ok; by rewrite Htf).
    destruct (Hcall tx p w Hn) as (HR & Hp & Hf).
    split_and!; [by apply call_rel_body|done|]. intros [_ Hb]. apply Hf. unfold call_need.
    rewrite Htf. lia.
Qed.
Lemma call_ok_any : CallsAny (body_rel t kind) (body_fuel t kind 2 n) call.
Proof.
  intros tx p Hn w. destruct (Hcall tx p w Hn) as (HR & Hp & Hf).
  split_and!; [by apply call_rel_body|done|]. intros [_ Hb]. apply Hf. unfold call_need.
  destruct (tx_method tx); try case_decide; lia.
Qed.
End calls.

Section dispatch.
Context `{Host} (tx : Transaction) (p : Principal) {kind : ContractKind}.
Context {R : relation world} {F : world → Prop} `{!Closed (tx_target tx) kind R F}.
Context {call : Transaction → Principal → M ReturnValue}.

Lemma runs_dispatch_native `{!Calls R F call} :
  is_aspect_kind kind = false → nested_ok tx → runs R F (dispatch call kind tx p).
Proof.
  intros Ha Hn. unfold nested_ok in Hn. destruct kind; [..|done]; simpl;
    destruct (tx_method tx) eqn:Hm; try apply runs_throw; try apply _; try done;
    eauto using runs_transfer, runs_approve, runs_transfer_from, runs_permit, runs_add_liquidity,
      runs_swap, runs_submit_price, runs_queue_bridge_message, runs_redeem_bridge_message,
      runs_pause_contract, runs_unpause_contract, runs_schedule_upgrade, runs_execute_upgrade,
      runs_schedule_policy_update, runs_execute_policy_update, runs_deploy_token_from_factory,
      runs_deploy_amm_pool_from_factory, runs_submit_aspect_module, runs_route_transfer_from,
      runs_register_account_key_from_contract, runs_revoke_account_key_from_contract,
      runs_stake, runs_unstake, runs_request_unstake, runs_complete_unstake,
      runs_claim_staking_rewards.
  - by apply (runs_deposit_collateral tx (config := {| lc_collateral_asset := collateral_asset;
      lc_debt_asset := debt_asset; lc_oracle_contract := oracle_contract; lc_ltv_bps := ltv_bps;
      lc_max_oracle_age := max_oracle_age; lc_interest_bps_per_block := interest_bps_per_block;
      lc_liquidation_threshold_bps := liquidation_threshold_bps |})).
  - by apply runs_borrow.
  - by apply runs_liquidate.
Qed.
Lemma runs_dispatch_aspect `{!CallsAny R F call} :
  is_aspect_kind kind = true → runs R F (dispatch call kind tx p).
Proof. intros Ha. destruct kind; try done. simpl. by eapply runs_execute_aspect_module_method. Qed.
(** [TransferFrom] makes no further call. *)
Lemma runs_dispatch_transfer_from :
  tx_method tx = TransferFrom → runs R F (dispatch call kind tx p).
Proof.
  intros Hm. destruct kind; simpl; unfold execute_aspect_module_method; rewrite Hm;
    try (apply runs_throw; apply _). by apply runs_transfer_from.
Qed.
End dispatch.

Section runs.
Context `{Host}.

Lemma total_authorize tx p s : total (authorize tx p s).
Proof.
  unfold authorize, enforce_method_authority. do 3 (apply total_bind; [auto with total|intros]).
  apply total_bind; [destruct (mp_authority _); auto with total|auto with total].
Qed.
Lemma authorize_Ok tx p s r :
  authorize tx p s = Ok r → contracts s !! tx_target tx = Some r ∧
    tx_method tx ∈ cr_exported_methods r ∧ tx_target tx ∉ paused_contracts s.
Proof. unfold authorize. intros. simplify_ok. by subst. Qed.

(** Entering a contract leaves one aspect contract less to enter, if it is one. *)
Lemma enter_Ok tx p w ctx :
  enter (tx_target tx) (tx_method tx) p (w_ctx w) = Ok ctx →
  tx_target tx ∉ active w ∧ cc_active_nonreentrant_contracts ctx = {[tx_target tx]} ∪ active w ∧
  exit ctx = w_ctx w.
Proof.
  intros He. pose proof (enter_exit _ _ _ _ _ He) as Hx. unfold enter in He.
  case_decide; [done|]. by injection He as <-.
Qed.
Lemma free_enter tx p w ctx :
  enter (tx_target tx) (tx_method tx) p (w_ctx w) = Ok ctx →
  let w1 := {| w_state := w_state w; w_ctx := ctx |} in
  (free_aspects w1 + (if decide (tx_target tx ∈ aspect_contracts (w_state w)) then 1 else 0)
   = free_aspects w)%nat.
Proof.
  intros He. destruct (enter_Ok _ _ _ _ He) as (Hni & Ha & _). unfold free_aspects; simpl.
  rewrite Ha. case_decide as Hin.
  - rewrite <- (size_singleton (C := gset ContractId) (tx_target tx)), <- size_union by set_solver.
    f_equal. apply set_eq. intros x. destruct (decide (x = tx_target tx)); set_solver.
  - rewrite Nat.add_0_r. f_equal. set_solver.
Qed.

(** What a run of the closure gives for the call. *)
Lemma in_frame_ok d tx p (body : M ReturnValue) w (need : Prop) :
  (∀ ctx, enter (tx_target tx) (tx_method tx) p (w_ctx w) = Ok ctx →
    let w1 := {| w_state := w_state w; w_ctx := ctx |} in
    w_ctx (body w1).2 = ctx ∧ steps_to d (active w) (w_state w) (w_state (body w1).2) ∧
    (body w1).1 ≠ Panic ∧ (need → (body w1).1 ≠ OutOfFuel)) →
  call_rel d w (in_frame tx p body w).2 ∧ (in_frame tx p body w).1 ≠ Panic ∧
  (need → (in_frame tx p body w).1 ≠ OutOfFuel).
Proof.
  intros Hb. unfold in_frame.
  assert (total (enter (tx_target tx) (tx_method tx) p (w_ctx w))) as [Hp Hf].
  { unfold enter. by case_decide. }
  destruct (enter _ _ _ _) as [ctx|e| |] eqn:He; [|done..].
  specialize (Hb ctx eq_refl) as (Hc & Hs & Hbp & Hbf). unfold finally.
  destruct (body _) as [o w2]; simpl in *. split_and!; [|done|done]. subst ctx. split; simpl; [|done].
  by destruct (enter_Ok _ _ _ _ He) as (_ & _ & ?).
Qed.

(** A run of the handler, from inside the frame. *)
Lemma dispatch_ok F call tx p w ctx kind (need : Prop) :
  enter (tx_target tx) (tx_method tx) p (w_ctx w) = Ok ctx →
  kind_of (w_state w) (tx_target tx) = Some kind →
  runs (body_rel (tx_target tx) kind) F (dispatch call kind tx p) →
  (need → F {| w_state := w_state w; w_ctx := ctx |}) →
  let o := dispatch call kind tx p {| w_state := w_state w; w_ctx := ctx |} in
  w_ctx o.2 = ctx ∧ steps_to false (active w) (w_state w) (w_state o.2) ∧ o.1 ≠ Panic ∧
  (need → o.1 ≠ OutOfFuel).
Proof.
  intros He Hk Hrun HF. destruct (enter_Ok _ _ _ _ He) as (Hni & Hact & _).
  destruct (Hrun {| w_state := w_state w; w_ctx := ctx |}) as ([Hc Hs] & Hpan & Hfu).
  split_and!; [done| |done|auto].
  eapply steps_to_mono; [done| |by apply Hs]. simpl. rewrite Hact. set_solver.
Qed.
Lemma call_body_ok n call tx p w ctx :
  call_ok n call → nested_ok tx → enter (tx_target tx) (tx_method tx) p (w_ctx w) = Ok ctx →
  let w1 := {| w_state := w_state w; w_ctx := ctx |} in
  w_ctx (call_body call tx p w1).2 = ctx ∧
  steps_to false (active w) (w_state w) (w_state (call_body call tx p w1).2) ∧
  (call_body call tx p w1).1 ≠ Panic ∧
  ((call_need tx w ≤ S n)%nat → (call_body call tx p w1).1 ≠ OutOfFuel).
Proof.
  intros Hcall Hn He. pose proof (free_enter _ _ _ _ He) as Hfree. simpl in Hfree.
  unfold call_body, bind, inspect; simpl. destruct (total_authorize tx p (w_state w)) as [Hp Hf].
  destruct (authorize tx p (w_state w)) as [r|e| |] eqn:Hr; simpl; [|by split_and!|done..].
  apply authorize_Ok in Hr as (Hr & _ & _).
  assert (kind_of (w_state w) (tx_target tx) = Some (cr_kind r)) as Hk by (unfold kind_of; by rewrite Hr).
  set (w1 := {| w_state := w_state w; w_ctx := ctx |}) in *.
  assert (tx_target tx ∈ aspect_contracts (w_state w) ↔ is_aspect_kind (cr_kind r) = true) as Hasp.
  { rewrite elem_of_aspect_contracts. unfold is_aspect. by rewrite Hr. }
  unfold call_need. destruct (decide (tx_method tx = TransferFrom)) as [Hm|Hm].
  { apply (dispatch_ok (body_fuel (tx_target tx) (cr_kind r) 0 (2 * free_aspects w1))); [done..| |].
    - by apply runs_dispatch_transfer_from; [apply _|].
    - intros _. split; [done|]. fold w1. lia. }
  destruct (is_aspect_kind (cr_kind r)) eqn:Ha.
  - apply (dispatch_ok (body_fuel (tx_target tx) (cr_kind r) 2 n)); [done..| |].
    + apply runs_dispatch_aspect; [apply _|by apply call_ok_any|done].
    + rewrite decide_True in Hfree |- * by tauto. intros Hneed. split; [done|]. fold w1.
      destruct (tx_method tx); try done; lia.
  - apply (dispatch_ok (body_fuel (tx_target tx) (cr_kind r) 1 n)); [done..| |].
    + apply runs_dispatch_native; [apply _|by apply call_ok_native|done..].
    + rewrite decide_False in Hfree |- * by (rewrite Hasp; done). intros Hneed. split; [done|]. fold w1.
      destruct (tx_method tx); try done; lia.
Qed.

(** Enough fuel for a nested call: twice the aspect contracts still free. *)
Lemma execute_call_ok n : call_ok n (execute_call n).
Proof.
  induction n as [|n IH]; intros tx p w Hn; simpl.
  - split_and!; [split; [done|apply rtc_refl]|done|]. unfold call_need.
    destruct (tx_method tx); try case_decide; lia.
  - apply in_frame_ok. intros ctx He. by apply call_body_ok.
Qed.

(** ** Top-level calls may also deploy an aspect contract *)
Lemma free_deploy w w' c r :
  w_ctx w' = w_ctx w → contracts (w_state w') = <[c := r]> (contracts (w_state w)) →
  (free_aspects w' ≤ free_aspects w + 1)%nat.
Proof.
  intros Hctx Hc. unfold free_aspects. rewrite Hctx.
  transitivity (size ({[c]} ∪ (aspect_contracts (w_state w) ∖ active w))).
  - apply subseteq_size. intros x. rewrite elem_of_union, !elem_of_difference, elem_of_singleton,
      !elem_of_aspect_contracts. unfold is_aspect. rewrite Hc.
    destruct (decide (x = c)) as [->|]; [by left|]. rewrite lookup_insert_ne by done. by right.
  - rewrite size_union_alt, size_singleton.
    pose proof (subseteq_size (aspect_contracts (w_state w) ∖ active w ∖ {[c]})
      (aspect_contracts (w_state w) ∖ active w) ltac:(set_solver)). lia.
Qed.
Lemma deploy_aspect_steps tx c h b w w' :
  deploy_aspect_for_sender tx c h b w = (Ok (), w') →
  kind_of (w_state w) (tx_target tx) = Some Factory →
  w_ctx w' = w_ctx w ∧
  steps_to true (active w ∖ {[tx_target tx]}) (w_state w) (w_state w') ∧
  is_aspect (w_state w') c ∧ (free_aspects w' ≤ free_aspects w + 1)%nat.
Proof.
  rewrite deploy_aspect_for_sender_run. intros Hrun Hk.
  destruct (aspect_contract_record _ _ _ _) as [r| | |] eqn:Hr; [|done..].
  injection Hrun as <-. apply aspect_contract_record_Ok in Hr as (Hne & Hn & Hid & Ha).
  split_and!; [done| | |by eapply (free_deploy _ _ c r)]; simpl.
  - assert (tx_target tx ∉ active w ∖ {[tx_target tx]}) as Hni by set_solver.
    eapply rtc_l; [by eapply step_new_aspect; [..|by apply (step_deploy_aspect _ (tx_sender tx) _ c r)]|].
    apply rtc_once. eapply step_host; [done| |apply step_emit].
    unfold kind_of in *; simpl. rewrite lookup_insert_ne; [done|]. intros ->. by rewrite Hn in Hk.
  - unfold is_aspect; simpl. by rewrite lookup_insert_eq.
Qed.
Lemma deploy_from_factory_ok n call tx w :
  call_ok n call → kind_of (w_state w) (tx_target tx) = Some Factory →
  let o := deploy_aspect_contract_from_factory call tx w in
  w_ctx o.2 = w_ctx w ∧ steps_to true (active w ∖ {[tx_target tx]}) (w_state w) (w_state o.2) ∧
  o.1 ≠ Panic ∧ ((2 * free_aspects w + 3 ≤ n)%nat → o.1 ≠ OutOfFuel).
Proof.
  intros Hcall Hk. unfold deploy_aspect_contract_from_factory.
  set (post := λ o : outcome ExecutionError ReturnValue * world,
    w_ctx o.2 = w_ctx w ∧ steps_to true (active w ∖ {[tx_target tx]}) (w_state w) (w_state o.2) ∧
    o.1 ≠ Panic ∧ ((2 * free_aspects w + 3 ≤ n)%nat → o.1 ≠ OutOfFuel)).
  assert (∀ o, total o → post (o, w)) as Hstop.
  { intros o [??]. split_and!; [done|apply rtc_refl|done..]. }
  destruct (tx_args tx) as [|c [|h [|b rest]]]; try (by apply Hstop). cbv zeta. fold post.
  unfold bind, lift. destruct c as [| | |c|], h as [| | |h|], b as [| | |b|]; simpl; try (by apply Hstop).
  destruct (deploy_aspect_for_sender tx c h b w) as [o w'] eqn:Hd.
  destruct o as [[]|e| |].
  2-4: rewrite deploy_aspect_for_sender_run in Hd;
    destruct (total_aspect_contract_record (w_state w) c h b);
    destruct (aspect_contract_record _ _ _ _); simplify_eq; by apply Hstop.
  destruct (deploy_aspect_steps _ _ _ _ _ _ Hd Hk) as (Hctx & Hs & Hasp & Hfree).
  destruct rest as [|[| | |init|] args]; try by split_and!.
  destruct (Hcall (init_tx tx c init args) (tx_sender tx) w') as ((Hc2 & Hs2) & Hp2 & Hf2); [done|].
  assert (call_need (init_tx tx c init args) w' = 2 * free_aspects w' + 1)%nat as Hneed.
  { unfold call_need; simpl. by rewrite decide_True by (by apply elem_of_aspect_contracts). }
  rewrite Hneed in Hf2. rewrite Hctx in Hs2. simpl.
  destruct (call _ _ w') as [o w2]; simpl in *.
  assert (post (match o with Ok _ => Ok RetUnit | Err e => Err e | Panic => Panic
    | OutOfFuel => OutOfFuel end, w2)) as Hpost; [|by destruct o].
  split_and!; simpl; [congruence| |by destruct o|].
  - etrans; [exact Hs|]. eapply (steps_to_mono false true (active w)); [done|set_solver|exact Hs2].
  - intros Hle. specialize (Hf2 ltac:(lia)). by destruct o.
Qed.

(** Every call restores the call context, changes the state by contract steps
    only, does not panic and, with [call_fuel], returns. *)
Lemma execute_call_runs n tx p w :
  call_rel true w (execute_call n tx p w).2 ∧ (execute_call n tx p w).1 ≠ Panic ∧
  ((2 * free_aspects w + 4 ≤ n)%nat → (execute_call n tx p w).1 ≠ OutOfFuel).
Proof.
  destruct (decide (tx_method tx = DeployAspectContract)) as [Hm|Hm].
  - destruct n as [|n]; simpl.
    { split_and!; [split; [done|apply rtc_refl]|done|lia]. }
    apply in_frame_ok. intros ctx He. pose proof (free_enter _ _ _ _ He) as Hfree.
    destruct (enter_Ok _ _ _ _ He) as (Hni & Hact & _). simpl in Hfree. cbv zeta.
    unfold call_body, bind, inspect; simpl. destruct (total_authorize tx p (w_state w)) as [Hp Hf].
    destruct (authorize tx p (w_state w)) as [r|e| |] eqn:Hr; simpl;
      [|by split_and!; [|apply rtc_refl|..]|done..].
    apply authorize_Ok in Hr as (Hr & _ & _).
    destruct (cr_kind r) eqn:Hk; simpl; unfold execute_aspect_module_method; rewrite Hm;
      try (by split_and!; [|apply rtc_refl|..]).
    destruct (deploy_from_factory_ok n (execute_call n) tx {| w_state := w_state w; w_ctx := ctx |})
      as (Hc & Hs & Hpan & Hfu); [apply execute_call_ok|unfold kind_of; simpl; by rewrite Hr; simpl; rewrite Hk|].
    split_and!; [done| |done|].
    + eapply steps_to_mono; [done| |exact Hs]. simpl. rewrite Hact. set_solver.
    + intros Hle. apply Hfu. case_decide; lia.
  - destruct (execute_call_ok n tx p w Hm) as ((Hc & Hs) & Hp & Hf). split_and!; [split|done|]; [done| |].
    + by eapply (steps_to_mono false true).
    + intros Hle. apply Hf. unfold call_need. destruct (tx_method tx); try case_decide; lia.
Qed.
End runs.

(** ** Successful calls keep the ledgers *)
Section keeps.
Context `{Host}.

Lemma keeps_dispatch {call} `{!CallsKeep call} D kind tx p : keeps D D (dispatch call kind tx p).
Proof.
  destruct kind; simpl; [destruct (tx_method tx); try (by apply keeps_pure)..|];
    eauto using keeps_transfer, keeps_approve, keeps_transfer_from, keeps_permit,
      keeps_add_liquidity, keeps_swap, keeps_submit_price, keeps_queue_bridge_message,
      keeps_redeem_bridge_message, keeps_pause_contract, keeps_unpause_contract,
      keeps_schedule_upgrade, keeps_execute_upgrade, keeps_schedule_policy_update,
      keeps_execute_policy_update, keeps_deposit_collateral, keeps_borrow, keeps_liquidate,
      keeps_stake, keeps_unstake, keeps_request_unstake, keeps_complete_unstake,
      keeps_claim_staking_rewards, keeps_route_transfer_from, keeps_deploy_token_from_factory,
      keeps_deploy_amm_pool_from_factory, keeps_submit_aspect_module,
      keeps_deploy_aspect_contract_from_factory, keeps_register_account_key_from_contract,
      keeps_revoke_account_key_from_contract, keeps_execute_aspect_module_method.
Qed.
Lemma keeps_in_frame D tx p (body : M ReturnValue) : keeps D D body → keeps D D (in_frame tx p body).
Proof.
  intros Hb w HI. unfold wp, in_frame. destruct (enter _ _ _ _) as [ctx| | |]; [|done..].
  specialize (Hb {| w_state := w_state w; w_ctx := ctx |} HI). unfold wp in Hb. unfold finally.
  by destruct (body _) as [[] w2].
Qed.
#[export] Instance execute_call_keeps n : CallsKeep (execute_call n).
Proof.
  induction n as [|n IH]; intros D tx p; simpl; [by apply keeps_pure|]. apply keeps_in_frame.
  unfold call_body. keeps_step. by apply keeps_dispatch.
Qed.
End keeps.
