(* ===== verification/Transactions.v ===== *)
(** * Transactions: what applying transactions guarantees

    Theorems about [apply_transaction], for one transaction and for any
    sequence: it always returns, it is atomic, no nonce is executed twice,
    the ledgers balance, and what must never be undone is not. *)
From S2P Require Import Prelude Effects Merkle Types State Policies AspectRuntime Aspects.
From S2P Require Import Runtime Ledger Bridge Steps Exec.

Section transactions.
Context `{Host}.
Implicit Types (tx : Transaction) (s : DeTTaState).

Definition nonce_of (tx : Transaction) : Principal * Nonce := (tx_sender tx, tx_nonce tx).
Definition charge_nonce (tx : Transaction) (s : DeTTaState) : DeTTaState :=
  set_used_nonces ({[nonce_of tx]} ∪ used_nonces s) s.

(** The three ways a transaction ends. *)
Inductive applied (tx : Transaction) (s : DeTTaState) : Receipt → DeTTaState → Prop :=
| applied_rejected e : applied tx s (rejected_receipt s (tx_tx_hash tx) e) s
| applied_reverted e units :
    nonce_of tx ∉ used_nonces s →
    applied tx s (reverted_receipt (charge_nonce tx s) (tx_tx_hash tx) e units) (charge_nonce tx s)
| applied_committed v units n w :
    nonce_of tx ∉ used_nonces s → tx_signature_ok tx = true → tx_chain_id tx = chain_id s →
    execute_call n tx (tx_sender tx) {| w_state := charge_nonce tx s;
      w_ctx := call_context_new (tx_sender tx) |} = (Ok v, w) →
    steps_to true ∅ (charge_nonce tx s) (w_state w) →
    applied tx s (committed_receipt (w_state w) (tx_tx_hash tx) v units) (w_state w).

(** Rolling back an execution gives the checkpoint. *)
Lemma rollback_steps s s' : steps_to true ∅ s s' → rollback s s' = s.
Proof.
  intros Hs. destruct (steps_preserved _ _ _ _ Hs) as [Hc Hh Hf Hn Ht].
  unfold rollback. destruct s; simpl in *. by rewrite Hc, Hh, Hf, Hn, Ht.
Qed.
Lemma apply_transaction_applied tx s :
  ∃ r s', apply_transaction tx s = (Ok r, s') ∧ applied tx s r s'.
Proof.
  unfold apply_transaction.
  case_bool_decide as Hc; [eexists _, _; split; [done|apply applied_rejected]|].
  destruct (tx_signature_ok tx) eqn:Hsig; simpl; [|eexists _, _; split; [done|apply applied_rejected]].
  destruct (expired tx s); [eexists _, _; split; [done|apply applied_rejected]|].
  case_bool_decide as Hn; [eexists _, _; split; [done|apply applied_rejected]|].
  fold (nonce_of tx) (charge_nonce tx s).
  destruct (tx_budget tx <? _); [eexists _, _; split; [done|by apply applied_reverted]|].
  set (w := {| w_state := charge_nonce tx s; w_ctx := call_context_new (tx_sender tx) |}).
  destruct (execute_call_runs (call_fuel (charge_nonce tx s)) tx (tx_sender tx) w) as ([_ Hs] & Hp & Hf).
  assert (free_aspects w = size (aspect_contracts (charge_nonce tx s))) as Hfree.
  { unfold free_aspects; simpl. by rewrite difference_empty_L. }
  specialize (Hf ltac:(rewrite Hfree; unfold call_fuel; lia)). simpl in Hs.
  destruct (execute_call _ _ _ w) as [[v|e| |] w'] eqn:He; simpl in *; [| |done..].
  - eexists _, _; split; [done|]. eapply applied_committed; [done|done| |exact He|done].
    by destruct (decide (tx_chain_id tx = chain_id s)).
  - rewrite rollback_steps by done. eexists _, _; split; [done|]. by apply applied_reverted.
Qed.
Lemma apply_transaction_Ok tx s r s' : apply_transaction tx s = (Ok r, s') → applied tx s r s'.
Proof. destruct (apply_transaction_applied tx s) as (? & ? & -> & ?). by intros [= <- <-]. Qed.

(** ** Sequences of transactions *)
Definition apply_transactions : list Transaction → SE DeTTaState Empty_set (list Receipt) :=
  mapM apply_transaction.
Lemma apply_transactions_cons tx txs s :
  ∃ r s1 rs s', apply_transaction tx s = (Ok r, s1) ∧ applied tx s r s1 ∧
    apply_transactions txs s1 = (Ok rs, s') ∧ apply_transactions (tx :: txs) s = (Ok (r :: rs), s').
Proof.
  assert (∀ txs s, ∃ rs s', apply_transactions txs s = (Ok rs, s')) as Hall.
  { clear. intros txs. induction txs as [|tx txs IH]; intros s; [by eexists _, _|].
    destruct (apply_transaction_applied tx s) as (r & s1 & Hr & _). destruct (IH s1) as (rs & s' & Hrs).
    exists (r :: rs), s'. unfold apply_transactions in *; simpl. unfold bind. by rewrite Hr, Hrs. }
  destruct (apply_transaction_applied tx s) as (r & s1 & Hr & Ha). destruct (Hall txs s1) as (rs & s' & Hrs).
  exists r, s1, rs, s'. split_and!; [done..|]. unfold apply_transactions in *; simpl. unfold bind.
  by rewrite Hr, Hrs.
Qed.
(** An invariant of every step is an invariant of sequences. *)
Lemma apply_transactions_inv (I : DeTTaState → Prop) txs s rs s' :
  (∀ tx s r s', applied tx s r s' → I s → I s') →
  apply_transactions txs s = (Ok rs, s') → I s → I s'.
Proof.
  intros HI. revert s rs. induction txs as [|tx txs IH]; intros s rs; [by intros [= <- <-]|].
  destruct (apply_transactions_cons tx txs s) as (r & s1 & rs' & s2 & _ & Ha & Hrs & ->).
  intros [= <- <-] HIs. eapply IH; [exact Hrs|]. by eapply HI.
Qed.
(** A state invariant kept by nonce charging and contract steps. *)
Lemma applied_inv (I : DeTTaState → Prop) tx s r s' :
  (∀ s, I s → I (charge_nonce tx s)) → (∀ s s', steps_to true ∅ s s' → I s → I s') →
  applied tx s r s' → I s → I s'.
Proof. intros Hn Hs []; eauto. Qed.

(** C2. Applying a transaction always returns a receipt: whatever the state,
    the transaction and the contracts it reaches, execution neither panics nor
    fails to terminate (the model's fuel, [call_fuel], is never exhausted). *)
Theorem apply_transaction_returns tx s :
  ∃ r s', apply_transaction tx s = (Ok r, s').
Proof. destruct (apply_transaction_applied tx s) as (r & s' & ? & _). by exists r, s'. Qed.

(** C3. Transactions are atomic: when the receipt is not [Committed], the
    state is unchanged, up to the nonce, which is charged by a [Reverted]
    transaction and not by a [Rejected] one. *)
Theorem transaction_atomic tx s r s' :
  apply_transaction tx s = (Ok r, s') → rc_status r ≠ Committed →
  (rc_status r = Rejected ∧ s' = s) ∨
  (rc_status r = Reverted ∧ s' = set_used_nonces ({[(tx_sender tx, tx_nonce tx)]} ∪ used_nonces s) s).
Proof. intros Hr Hne. destruct (apply_transaction_Ok _ _ _ _ Hr); [by left|by right|done]. Qed.

(** ** Nonces *)
Lemma applied_nonces tx s r s' :
  applied tx s r s' → used_nonces s ⊆ used_nonces s' ∧ (rc_status r ≠ Rejected → nonce_of tx ∈ used_nonces s').
Proof.
  intros [e|e u|v u n w ? ? ? ? Hs]; [set_solver|simpl; set_solver|].
  destruct (steps_preserved _ _ _ _ Hs) as [_ _ _ Hn]. rewrite Hn. simpl. set_solver.
Qed.
Lemma used_nonce_rejected tx s r s' :
  applied tx s r s' → nonce_of tx ∈ used_nonces s → rc_status r = Rejected.
Proof. by intros []. Qed.

(** C4. No replay: in any sequence of transactions from any state, of two
    transactions with the same sender and nonce the later one is rejected,
    unless the earlier one was itself rejected without effect. *)
Theorem no_nonce_replay txs s rs s' i j tx1 tx2 r1 r2 :
  apply_transactions txs s = (Ok rs, s') →
  txs !! i = Some tx1 → txs !! j = Some tx2 → (i < j)%nat →
  tx_sender tx1 = tx_sender tx2 → tx_nonce tx1 = tx_nonce tx2 →
  rs !! i = Some r1 → rs !! j = Some r2 → rc_status r1 ≠ Rejected →
  rc_status r2 = Rejected.
Proof.
  intros Hrun H1 H2 Hij Hs Hn Hr1 Hr2 Hne.
  assert (∀ txs s rs s' j, apply_transactions txs s = (Ok rs, s') → nonce_of tx1 ∈ used_nonces s →
    txs !! j = Some tx2 → rs !! j = Some r2 → rc_status r2 = Rejected) as Hlater.
  { clear -Hs Hn. intros txs. induction txs as [|tx txs IH]; intros s rs s' j; [done|].
    destruct (apply_transactions_cons tx txs s) as (r & s1 & rs' & s2 & _ & Ha & Hrs & ->).
    intros [= <- <-] Hin. destruct j as [|j]; simpl.
    - intros [= ->] [= <-]. eapply used_nonce_rejected; [exact Ha|]. unfold nonce_of in *. by rewrite <- Hs, <- Hn.
    - intros. eapply IH; [done| |done..]. destruct (applied_nonces _ _ _ _ Ha). set_solver. }
  revert s rs i j Hrun H1 H2 Hij Hr1 Hr2. induction txs as [|tx txs IH]; intros s rs i j; [done|].
  destruct (apply_transactions_cons tx txs s) as (r & s1 & rs' & s2 & _ & Ha & Hrs & ->).
  intros [= <- <-] H1 H2 Hij Hr1 Hr2. destruct j as [|j]; [lia|]. destruct i as [|i]; simpl in *.
  - simplify_eq. eapply Hlater; [exact Hrs| |done..]. by apply (applied_nonces _ _ _ _ Ha).
  - eapply IH; [exact Hrs|done|done|lia|done..].
Qed.

(** ** Ledgers *)
Lemma charge_nonce_ledgers tx s : ledgers_ok s → ledgers_ok (charge_nonce tx s).
Proof. by apply ledgers_storage. Qed.

Lemma transactions_ledgers txs s rs s' :
  apply_transactions txs s = (Ok rs, s') → ledgers_ok s → ledgers_ok s'.
Proof.
  apply apply_transactions_inv. clear. intros tx s r s' Ha HI.
  destruct Ha as [e|e u|v u n w ? ? ? He _]; [done|by apply charge_nonce_ledgers|].
  refine (wp_Ok _ _ _ _ _ (execute_call_keeps n [] tx (tx_sender tx) _ _) He).
  by apply charge_nonce_ledgers.
Qed.

(** C1. The ledgers balance after every sequence of transactions if they did
    before: each token's supply is the sum of its balances, each pool's LP
    supply the sum of its LP balances, and each staking contract's stake and
    pending totals the sums over its stakers.  Nested calls, aspect contracts
    and deployments are included, and none of the sums overflows. *)
Theorem transactions_keep_ledgers txs s rs s' :
  apply_transactions txs s = (Ok rs, s') → ledgers_ok s → ledgers_ok s'.
Proof. apply transactions_ledgers. Qed.

(** ** What is never undone *)
Lemma applied_preserved tx s r s' : applied tx s r s' →
  preserved (charge_nonce tx s) s' ∨ s' = s ∨ s' = charge_nonce tx s.
Proof. intros []; [by right; left|by right; right|left]. by eapply steps_preserved. Qed.

(** A bridge message consumed once stays consumed through every sequence
    of transactions, so that a second redemption keeps failing. *)
Theorem consumed_message_stays txs s rs s' bridge message_id :
  apply_transactions txs s = (Ok rs, s') →
  storage s !! bridge_message_consumed_key bridge message_id = Some (UInt 1) →
  storage s' !! bridge_message_consumed_key bridge message_id = Some (UInt 1).
Proof.
  apply (apply_transactions_inv (λ s, storage s !! _ = _)). clear. intros tx s r s' Ha.
  apply (applied_inv (λ s, storage s !! _ = Some (UInt 1)) tx s r); [done| |done].
  intros s1 s2 Hs. apply (pres_consumed _ _ (steps_preserved _ _ _ _ Hs)).
Qed.

(** The log is append-only: events, the cross-shard outbox, the used
    certificate nonces, the outbound message ids and the registered modules
    only grow, and a deployed contract keeps its kind. *)
Theorem transactions_append_only txs s rs s' :
  apply_transactions txs s = (Ok rs, s') →
  events s `prefix_of` events s' ∧ cross_shard_outbox s `prefix_of` cross_shard_outbox s' ∧
  used_certificate_nonces s ⊆ used_certificate_nonces s' ∧
  outbound_message_ids s ⊆ outbound_message_ids s' ∧ aspect_modules s ⊆ aspect_modules s' ∧
  used_nonces s ⊆ used_nonces s' ∧
  ∀ c r, contracts s !! c = Some r → ∃ r', contracts s' !! c = Some r' ∧ cr_kind r' = cr_kind r.
Proof.
  set (I s1 := events s `prefix_of` events s1 ∧ cross_shard_outbox s `prefix_of` cross_shard_outbox s1 ∧
    used_certificate_nonces s ⊆ used_certificate_nonces s1 ∧
    outbound_message_ids s ⊆ outbound_message_ids s1 ∧ aspect_modules s ⊆ aspect_modules s1 ∧
    used_nonces s ⊆ used_nonces s1 ∧ ∀ c k, kind_of s c = Some k → kind_of s1 c = Some k).
  intros Hrun. assert (I s') as (?&?&?&?&?&?&Hk).
  { refine (apply_transactions_inv I _ _ _ _ _ Hrun _); [|by split_and!]. clear Hrun.
    intros tx s1 r s2 Ha. apply (applied_inv I tx s1 r); [| |done].
    - intros s3 (?&?&?&?&?&?&?). split_and!; try done. simpl. set_solver.
    - intros s3 s4 Hs (?&?&?&?&?&?&?). destruct (steps_preserved _ _ _ _ Hs).
      split_and!; try (by etrans); [|by auto]. by rewrite pres_nonces. }
  split_and!; try done. intros c r Hc. specialize (Hk c (cr_kind r)). unfold kind_of in Hk.
  rewrite Hc in Hk. specialize (Hk eq_refl). apply fmap_Some in Hk as (r' & ? & ?). by exists r'.
Qed.

(** Grants stay sound through every sequence of transactions: no
    allowance is spent beyond its limit, and every account-signer grant keeps
    its canonical form (the declared invariant [AccountSignerKeysCanonical]). *)
Theorem transactions_keep_grants txs s rs s' :
  apply_transactions txs s = (Ok rs, s') →
  allowances_within s → account_signer_keys_canonical s = true →
  allowances_within s' ∧ account_signer_keys_canonical s' = true.
Proof.
  intros Hrun Ha Hc. rewrite signers_canonical_check in *.
  refine (apply_transactions_inv (λ s, allowances_within s ∧ signers_canonical s) _ _ _ _ _ Hrun _);
    [|done]. clear. intros tx s r s' Ha. apply (applied_inv (λ s, allowances_within s ∧ signers_canonical s) tx s r); [done| |done].
  intros s1 s2 Hs []. by split; [eapply steps_allowances|eapply steps_signers].
Qed.

(** C6. The code of a deployed contract changes only through its governance:
    a transaction after which the code hash differs executed an upgrade to
    exactly that hash, pending before the transaction or not yet scheduled,
    whose timelock had passed, on behalf of a governance contract that
    governs the changed contract. *)
Theorem transaction_changes_code tx s r s' c record :
  apply_transaction tx s = (Ok r, s') → contracts s !! c = Some record →
  code_hash_of s' c ≠ code_hash_of s c → ∃ id, upgraded_by s s' c id.
Proof.
  intros Hr Hc Hne. destruct (apply_transaction_Ok _ _ _ _ Hr) as [|e u|v u n w _ _ _ _ Hs]; [done|done|].
  by apply (steps_code_hash _ _ _ _ _ Hs).
Qed.

(** C5. Reentrancy: a call, whatever its outcome, restores the call context,
    and it does not change the storage of a contract that is already active
    in it, except token balances and supplies, which move with assets. *)
Theorem call_isolated n tx p w k record :
  owner_contract k ∈ cc_active_nonreentrant_contracts (w_ctx w) →
  contracts (w_state w) !! owner_contract k = Some record → token_key k = false →
  let w' := (execute_call n tx p w).2 in
  w_ctx w' = w_ctx w ∧ storage (w_state w') !! k = storage (w_state w) !! k.
Proof.
  intros Hin Hc Ht. destruct (execute_call_runs n tx p w) as ((Hctx & Hs) & _ & _).
  split; [done|]. eapply steps_isolated; [done|done| |done]. unfold kind_of. by rewrite Hc.
Qed.
End transactions.
