(* ===== verification/Mempool.v ===== *)
(** * Mempool: admission, eviction and ordered selection

    [Mempool] of crates/detta-core/src/lib.rs: admission against the current
    state, eviction of what a block made inadmissible, and the draining order
    (sender, nonce, hash) under a resource limit. *)
From S2P Require Import Prelude Effects Merkle Types State Policies AspectRuntime Aspects.
From S2P Require Import Runtime Exec Transactions.

Inductive MempoolError :=
| MpChainMismatch | MpInvalidSignature
| MpUnauthorizedSigner (sender : Principal) (public_key_hex : string)
| MpTransactionExpired (current_height valid_until_height : N)
| MpDuplicateTransaction | MpNonceAlreadyUsed | MpInsufficientBudget
| MpTransactionTooLarge (max_bytes actual_bytes : nat)
| MpPoolFull (max_pending : nat)
| MpSenderPendingLimitExceeded (sender : Principal) (max_pending_per_sender : nat).

Record MempoolAdmissionPolicy := {
  map_max_pending : nat; map_max_pending_per_sender : nat; map_max_transaction_bytes : nat;
}.
Definition default_admission_policy : MempoolAdmissionPolicy :=
  {| map_max_pending := N.to_nat 10000; map_max_pending_per_sender := N.to_nat 1024;
     map_max_transaction_bytes := N.to_nat (64 * 1024) |}.
Record Mempool := {
  mem_pending : list Transaction;
  mem_tx_hashes : gset TxHash;
  mem_policy : MempoolAdmissionPolicy;
}.
Definition mempool_with_policy (policy : MempoolAdmissionPolicy) : Mempool :=
  {| mem_pending := []; mem_tx_hashes := ∅; mem_policy := policy |}.
Definition mempool_new : Mempool := mempool_with_policy default_admission_policy.
Definition hashes (txs : list Transaction) : gset TxHash := list_to_set (tx_tx_hash <$> txs).
Definition sender_pending (sender : Principal) (txs : list Transaction) : nat :=
  length (filter (λ tx, tx_sender tx = sender) txs).

Section mempool.
Context `{Host}.

Definition submit (state : DeTTaState) (tx : Transaction) : SE Mempool MempoolError () :=
  do? ensure (bool_decide (tx_chain_id tx = chain_id state)) MpChainMismatch in
  do? ensure (tx_signature_ok tx) MpInvalidSignature in
  do? match tx_valid_until_height tx with
      | Some valid_until_height =>
          ensure (negb (valid_until_height <=? height state))
            (MpTransactionExpired (height state) valid_until_height)
      | None => Ok ()
      end in
  let! tx_hashes := gets mem_tx_hashes in
  do? ensure (negb (bool_decide (tx_tx_hash tx ∈ tx_hashes))) MpDuplicateTransaction in
  do? ensure (negb (bool_decide ((tx_sender tx, tx_nonce tx) ∈ used_nonces state)))
    MpNonceAlreadyUsed in
  let! policy := gets mem_policy in
  let actual_bytes := length (canonical_bytes tx) in
  do? ensure (negb (map_max_transaction_bytes policy <? actual_bytes)%nat)
    (MpTransactionTooLarge (map_max_transaction_bytes policy) actual_bytes) in
  do? ensure (negb (tx_budget tx <? transaction_resource_units tx)) MpInsufficientBudget in
  let! pending := gets mem_pending in
  do? ensure (negb (map_max_pending policy <=? length pending)%nat)
    (MpPoolFull (map_max_pending policy)) in
  do? ensure (negb (map_max_pending_per_sender policy <=? sender_pending (tx_sender tx) pending)%nat)
    (MpSenderPendingLimitExceeded (tx_sender tx) (map_max_pending_per_sender policy)) in
  modify (λ m, {| mem_pending := mem_pending m ++ [tx];
                  mem_tx_hashes := {[tx_tx_hash tx]} ∪ mem_tx_hashes m;
                  mem_policy := mem_policy m |}).
Definition from_transactions (state : DeTTaState) (transactions : list Transaction)
    : outcome MempoolError Mempool :=
  match forM (submit state) transactions mempool_new with
  | (Ok _, mempool) => Ok mempool
  | (Err e, _) => Err e | (Panic, _) => Panic | (OutOfFuel, _) => OutOfFuel
  end.
End mempool.

Definition admissible (state : DeTTaState) (tx : Transaction) : bool :=
  bool_decide (tx_chain_id tx = chain_id state) && tx_signature_ok tx
  && negb (bool_decide ((tx_sender tx, tx_nonce tx) ∈ used_nonces state))
  && match tx_valid_until_height tx with
     | Some valid_until_height => height state <? valid_until_height
     | None => true
     end.
Definition retain_admissible (state : DeTTaState) (m : Mempool) : Mempool :=
  let pending := filter (λ tx, admissible state tx = true) (mem_pending m) in
  {| mem_pending := pending; mem_tx_hashes := hashes pending; mem_policy := mem_policy m |}.

(** The sorting key.  The hashes of a pool are distinct, so the order of the
    sorted transactions does not depend on the sorting algorithm. *)
Definition order_key (tx : Transaction) : Principal * (Nonce * TxHash) :=
  (tx_sender tx, (tx_nonce tx, tx_tx_hash tx)).
Definition tx_le (left right : Transaction) : Prop := cmp_le (order_key left) (order_key right).
#[export] Instance tx_le_dec : RelDecision tx_le.
Proof. intros x y. unfold tx_le. apply _. Defined.
Definition drain_ordered (m : Mempool) : list Transaction * Mempool :=
  (merge_sort tx_le (mem_pending m),
   {| mem_pending := []; mem_tx_hashes := ∅; mem_policy := mem_policy m |}).
(** The loop: [used_units], [selected] and [deferred]. *)
Definition select_step (max_resource_units : N)
    (acc : N * list Transaction * list Transaction) (tx : Transaction)
    : N * list Transaction * list Transaction :=
  let '(used_units, selected, deferred) := acc in
  let tx_units := transaction_resource_units tx in
  let next_units := saturating_add_u64 used_units tx_units in
  if next_units <=? max_resource_units then (next_units, selected ++ [tx], deferred)
  else (used_units, selected, deferred ++ [tx]).
Definition drain_ordered_with_resource_limit (max_resource_units : N) (m : Mempool)
    : list Transaction * Mempool :=
  let '(transactions, m) := drain_ordered m in
  let '(_, selected, deferred) := foldl (select_step max_resource_units) (0, [], []) transactions in
  (selected, {| mem_pending := deferred; mem_tx_hashes := hashes deferred; mem_policy := mem_policy m |}).

(** ** The pool's invariant *)
Record mempool_ok (m : Mempool) : Prop := {
  mem_hashes_match : mem_tx_hashes m = hashes (mem_pending m);
  mem_hashes_distinct : NoDup (tx_tx_hash <$> mem_pending m);
  mem_bounded : (length (mem_pending m) ≤ map_max_pending (mem_policy m))%nat;
  mem_sender_bounded sender :
    (sender_pending sender (mem_pending m) ≤ map_max_pending_per_sender (mem_policy m))%nat;
}.
Lemma elem_of_hashes h txs : h ∈ hashes txs ↔ ∃ tx, tx ∈ txs ∧ tx_tx_hash tx = h.
Proof. unfold hashes. rewrite elem_of_list_to_set, list_elem_of_fmap. naive_solver. Qed.
Lemma sender_pending_app sender l1 l2 :
  (sender_pending sender (l1 ++ l2) = sender_pending sender l1 + sender_pending sender l2)%nat.
Proof. unfold sender_pending. by rewrite filter_app, length_app. Qed.
Lemma sender_pending_Permutation sender l1 l2 :
  l1 ≡ₚ l2 → sender_pending sender l1 = sender_pending sender l2.
Proof. intros Hp. unfold sender_pending. by rewrite Hp. Qed.
Lemma mempool_ok_empty policy : mempool_ok (mempool_with_policy policy).
Proof. split; simpl; [done|constructor|lia|unfold sender_pending; simpl; lia]. Qed.
(** A pool with fewer transactions of an admissible one. *)
Lemma mempool_ok_sub m pending rest :
  mempool_ok m → mem_pending m ≡ₚ pending ++ rest →
  mempool_ok {| mem_pending := pending; mem_tx_hashes := hashes pending; mem_policy := mem_policy m |}.
Proof.
  intros [Hh Hd Hb Hs] Hp. split; simpl; [done|..].
  - rewrite Hp, fmap_app in Hd. by apply NoDup_app in Hd as [? _].
  - rewrite Hp, length_app in Hb. lia.
  - intros sender. specialize (Hs sender). rewrite (sender_pending_Permutation _ _ _ Hp) in Hs.
    rewrite sender_pending_app in Hs. lia.
Qed.

(** ** Ordered selection *)
#[export] Instance tx_le_total : Total tx_le.
Proof. intros x y. apply (cmp_le_total (order_key x) (order_key y)). Qed.
#[export] Instance tx_le_trans : Transitive tx_le.
Proof. intros x y z. apply (cmp_le_trans (order_key x) (order_key y) (order_key z)). Qed.
Lemma StronglySorted_remove {A} (R : relation A) l x k :
  StronglySorted R (l ++ x :: k) → StronglySorted R (l ++ k).
Proof.
  induction l as [|y l IH]; simpl; intros Hs; [by apply StronglySorted_inv in Hs as []|].
  apply StronglySorted_inv in Hs as [Hs Hall]. constructor; [by apply IH|].
  rewrite Forall_app, Forall_cons in *. naive_solver.
Qed.
Lemma block_resource_units_snoc txs tx :
  block_resource_units (txs ++ [tx])
  = saturating_add_u64 (block_resource_units txs) (transaction_resource_units tx).
Proof. unfold block_resource_units. by rewrite fmap_app, foldl_app. Qed.
Lemma select_spec max txs used selected deferred :
  used ≤ max → block_resource_units selected = used →
  StronglySorted tx_le (selected ++ txs) → StronglySorted tx_le (deferred ++ txs) →
  let '(used', selected', deferred') := foldl (select_step max) (used, selected, deferred) txs in
  block_resource_units selected' ≤ max ∧ StronglySorted tx_le selected' ∧
  StronglySorted tx_le deferred' ∧ selected' ++ deferred' ≡ₚ selected ++ deferred ++ txs.
Proof.
  revert used selected deferred.
  induction txs as [|tx txs IH]; intros used selected deferred Hu Hsum Hs Hd; cbn [foldl].
  - rewrite !app_nil_r in *. split_and!; [lia|done..].
  - unfold select_step at 2.
    destruct (N.leb_spec (saturating_add_u64 used (transaction_resource_units tx)) max) as [Hle|].
    + specialize (IH _ (selected ++ [tx]) deferred Hle). rewrite <- app_assoc in IH.
      specialize (IH ltac:(rewrite block_resource_units_snoc; congruence) Hs
        ltac:(by eapply StronglySorted_remove)).
      destruct (foldl _ _ _) as [[used' sel'] def']. destruct IH as (?&?&?&->). split_and!; try done; solve_Permutation.
    + specialize (IH used selected (deferred ++ [tx]) Hu Hsum). rewrite <- app_assoc in IH.
      specialize (IH ltac:(by eapply StronglySorted_remove) Hd).
      destruct (foldl _ _ _) as [[used' sel'] def']. destruct IH as (?&?&?&->). split_and!; try done; solve_Permutation.
Qed.
Lemma drain_spec max m :
  let '(selected, m') := drain_ordered_with_resource_limit max m in
  block_resource_units selected ≤ max ∧ StronglySorted tx_le selected ∧
  mem_pending m ≡ₚ selected ++ mem_pending m' ∧
  m' = {| mem_pending := mem_pending m'; mem_tx_hashes := hashes (mem_pending m');
          mem_policy := mem_policy m |}.
Proof.
  unfold drain_ordered_with_resource_limit, drain_ordered.
  pose proof (StronglySorted_merge_sort tx_le (mem_pending m)) as Hs.
  pose proof (select_spec max (merge_sort tx_le (mem_pending m)) 0 [] [] ltac:(lia) eq_refl Hs Hs) as Hsel.
  destruct (foldl _ _ _) as [[used sel] def]. destruct Hsel as (?&?&_&Hp). split_and!; try done; simpl.
  rewrite Hp. simpl. by rewrite merge_sort_Permutation.
Qed.

(** Draining for a block: the selected transactions fit the resource
    limit and come in (sender, nonce, hash) order; together with the deferred
    ones they are exactly the pending ones, none lost and none duplicated;
    and the pool keeps its invariant. *)
Theorem drain_selects max m :
  mempool_ok m →
  let '(selected, m') := drain_ordered_with_resource_limit max m in
  block_resource_units selected ≤ max ∧
  StronglySorted (λ t1 t2, cmp_le (tx_sender t1, (tx_nonce t1, tx_tx_hash t1))
                                  (tx_sender t2, (tx_nonce t2, tx_tx_hash t2))) selected ∧
  mem_pending m ≡ₚ selected ++ mem_pending m' ∧ mempool_ok m'.
Proof.
  intros Hok. pose proof (drain_spec max m) as Hd.
  destruct (drain_ordered_with_resource_limit max m) as [sel m'].
  destruct Hd as (Hu & Hs & Hp & Hm). split_and!; try done. rewrite Hm.
  eapply mempool_ok_sub; [done|]. by rewrite Hp, Permutation_app_comm.
Qed.

(** ** Admission *)
Section admission.
Context `{Host}.

Lemma submit_Ok state tx m u m' :
  submit state tx m = (Ok u, m') →
  tx_chain_id tx = chain_id state ∧ tx_signature_ok tx = true ∧
  match tx_valid_until_height tx with Some v => height state < v | None => True end ∧
  (tx_sender tx, tx_nonce tx) ∉ used_nonces state ∧ transaction_resource_units tx ≤ tx_budget tx ∧
  tx_tx_hash tx ∉ mem_tx_hashes m ∧ (length (mem_pending m) < map_max_pending (mem_policy m))%nat ∧
  (sender_pending (tx_sender tx) (mem_pending m) < map_max_pending_per_sender (mem_policy m))%nat ∧
  m' = {| mem_pending := mem_pending m ++ [tx]; mem_tx_hashes := {[tx_tx_hash tx]} ∪ mem_tx_hashes m;
          mem_policy := mem_policy m |}.
Proof.
  unfold submit. intros Hrun.
  repeat match goal with
  | H : bind (lift _) _ _ = (Ok _, _) |- _ =>
      apply bind_Ok in H as (? & ? & Hl & H); apply lift_Ok in Hl as [? ->]
  | H : bind (gets _) _ _ = (Ok _, _) |- _ =>
      apply bind_Ok in H as (? & ? & Hl & H); unfold gets in Hl; injection Hl as <- <-
  end.
  unfold modify in Hrun. injection Hrun as _ <-. simplify_ok.
  rewrite ?Nat.leb_gt in *. split_and!; try done.
  destruct (tx_valid_until_height tx); [|done]. simplify_ok. done.
Qed.
Lemma submit_keeps_ok state tx m u m' : submit state tx m = (Ok u, m') → mempool_ok m → mempool_ok m'.
Proof.
  intros (_&_&_&_&_&Hni&Hlen&Hsnd&->)%submit_Ok [Hh Hd Hb Hs]. split; simpl.
  - rewrite Hh. apply set_eq. intros h. rewrite elem_of_union, elem_of_singleton, !elem_of_hashes.
    set_solver.
  - rewrite fmap_app. apply NoDup_app. split_and!; [done| |apply NoDup_singleton].
    intros h Hin. rewrite Hh in Hni. simpl. rewrite list_elem_of_singleton. intros ->. apply Hni.
    unfold hashes. by rewrite elem_of_list_to_set.
  - rewrite length_app. simpl. lia.
  - intros sender. rewrite sender_pending_app. unfold sender_pending at 2. simpl.
    rewrite filter_cons, filter_nil. case_decide as Heq; simpl; [subst; lia|].
    specialize (Hs sender). lia.
Qed.
(** A refused transaction leaves the pool as it was. *)
Lemma submit_outcome state tx m :
  (∃ m', submit state tx m = (Ok (), m')) ∨ ∃ e, submit state tx m = (Err e, m).
Proof.
  assert (∀ (b : bool) e (k : SE Mempool MempoolError ()),
    ((∃ m', k m = (Ok (), m')) ∨ ∃ e, k m = (Err e, m)) →
    (∃ m', (do? ensure b e in k) m = (Ok (), m')) ∨ ∃ e', (do? ensure b e in k) m = (Err e', m)) as Hensure.
  { intros [] e k Hk; [exact Hk|right; by exists e]. }
  assert (∀ A (f : Mempool → A) (k : A → SE Mempool MempoolError ()),
    ((∃ m', k (f m) m = (Ok (), m')) ∨ ∃ e, k (f m) m = (Err e, m)) →
    (∃ m', (let! a := gets f in k a) m = (Ok (), m')) ∨ ∃ e', (let! a := gets f in k a) m = (Err e', m)) as Hgets by done.
  unfold submit. do 2 apply Hensure.
  destruct (tx_valid_until_height tx); [apply Hensure|apply (Hensure true MpChainMismatch)];
    apply Hgets; do 2 apply Hensure; apply Hgets; cbv zeta; do 2 apply Hensure; apply Hgets; do 2 apply Hensure;
    left; by eexists.
Qed.
Lemma from_transactions_ok state txs m : from_transactions state txs = Ok m → mempool_ok m.
Proof.
  unfold from_transactions. destruct (forM _ txs _) as [o m'] eqn:Hf. destruct o as [[]| | |]; intros [= <-].
  assert (mempool_ok mempool_new) as Hok by (by apply mempool_ok_empty). revert Hok Hf. generalize mempool_new.
  induction txs as [|tx txs IH]; intros m0 Hok; cbn [forM]; [by intros [= <-]|].
  intros ([] & m1 & Hs & Hf)%bind_Ok. eapply IH; [|exact Hf]. by eapply submit_keeps_ok.
Qed.
End admission.

(** C30. The pool's invariant (its hash set matches its transactions, no hash
    twice, both length bounds) holds of a new pool and of one rebuilt from a
    list of transactions, and every operation keeps it: admission, which
    appends the transaction or refuses it and leaves the pool as it was,
    eviction, draining everything, and draining under a resource limit. The
    two drains hand out, with what they leave, exactly the pending
    transactions. *)
Theorem mempool_invariant `{Host} policy :
  mempool_ok (mempool_with_policy policy) ∧
  (∀ state txs m, from_transactions state txs = Ok m → mempool_ok m) ∧
  ∀ m, mempool_ok m →
    (∀ state tx, let '(o, m') := submit state tx m in
       mempool_ok m' ∧ match o with
                       | Ok _ => mem_pending m' = mem_pending m ++ [tx]
                       | Err _ => m' = m
                       | Panic | OutOfFuel => False
                       end) ∧
    (∀ state, mempool_ok (retain_admissible state m)) ∧
    (let '(all, m') := drain_ordered m in mempool_ok m' ∧ all ++ mem_pending m' ≡ₚ mem_pending m) ∧
    (∀ max, let '(selected, m') := drain_ordered_with_resource_limit max m in
       mempool_ok m' ∧ selected ++ mem_pending m' ≡ₚ mem_pending m).
Proof.
  split; [apply mempool_ok_empty|]. split; [apply from_transactions_ok|]. intros m Hok. split_and!.
  - intros state tx. destruct (submit_outcome state tx m) as [[m' Hs]|[e Hs]]; rewrite Hs; [|done].
    split; [by eapply submit_keeps_ok|]. by apply submit_Ok in Hs as (_&_&_&_&_&_&_&_&->).
  - intros state. eapply (mempool_ok_sub m _ (filter (λ tx, ¬ (admissible state tx = true)) (mem_pending m)));
      [done|]. symmetry. apply filter_app_complement.
  - split; [apply (mempool_ok_sub m [] (mem_pending m)); done|].
    simpl. by rewrite app_nil_r, merge_sort_Permutation.
  - intros max. pose proof (drain_spec max m) as Hd.
    destruct (drain_ordered_with_resource_limit max m) as [sel m']. destruct Hd as (_ & _ & Hp & Hm).
    split; [|done]. rewrite Hm. eapply mempool_ok_sub; [done|]. by rewrite Hp, Permutation_app_comm.
Qed.

(** An admitted transaction is executable: applied in the admission
    state at any height up to its expiry, it is neither rejected nor out of
    its budget; its receipt is what executing its call gives. *)
Theorem admitted_executes `{Host} state tx m m' h r s' :
  submit state tx m = (Ok (), m') →
  match tx_valid_until_height tx with Some v => h ≤ v | None => True end →
  apply_transaction tx (set_height h state) = (Ok r, s') →
  rc_status r ≠ Rejected ∧ rc_resource_units_used r = transaction_resource_units tx ∧
  (rc_status r = Reverted → ∃ w, (∃ e, rc_error r = Some e ∧
     execute_call (call_fuel (charge_nonce tx (set_height h state))) tx (tx_sender tx)
       {| w_state := charge_nonce tx (set_height h state);
          w_ctx := call_context_new (tx_sender tx) |} = (Err e, w))).
Proof.
  intros (Hc&Hsig&Hexp&Hn&Hb&_)%submit_Ok Hh. unfold apply_transaction.
  assert (expired tx (set_height h state) = false) as Hexpired.
  { unfold expired. destruct (tx_valid_until_height tx); [|done]. simpl. by apply N.ltb_ge. }
  rewrite (bool_decide_eq_false_2 (tx_chain_id tx ≠ _)) by (simpl; intros []; done).
  rewrite Hsig, Hexpired, (bool_decide_eq_false_2 (_ ∈ _)) by done. simpl.
  rewrite (proj2 (N.ltb_ge _ _)) by done.
  fold (nonce_of tx). change (set_used_nonces ({[nonce_of tx]} ∪ used_nonces state) (set_height h state))
    with (charge_nonce tx (set_height h state)).
  destruct (execute_call _ _ _ _) as [[v|e| |] w] eqn:He; intros [= <- <-]; simpl.
  - done.
  - split_and!; [done|done|]. intros _. exists w, e. done.
Qed.
