(* ===== verification/Block.v ===== *)
(** * Block: building, validating and storing blocks; snapshots

    [build_block], [apply_block], [snapshot] and [from_snapshot] of
    [DeTTaState], and [ValidatorNode], of crates/detta-core/src/lib.rs. *)
From S2P Require Import Prelude Effects Merkle Types State Policies AspectRuntime Aspects.
From S2P Require Import Runtime Ledger Steps Exec Transactions Mempool.

Inductive BlockError :=
| BlkChainMismatch | BlkPreviousBlockMismatch | BlkTxRootMismatch | BlkReceiptRootMismatch
| BlkReceiptMismatch | BlkStorageRootMismatch | BlkRegistryRootMismatch | BlkPolicyRootMismatch
| BlkEventRootMismatch | BlkNonceRootMismatch | BlkOutboxRootMismatch
| BlkGlobalStateRootMismatch | BlkResourceLimitExceeded (max_units actual_units : N).
Inductive SnapshotError :=
| SnapStorageRootMismatch | SnapRegistryRootMismatch | SnapPolicyRootMismatch
| SnapEventRootMismatch | SnapNonceRootMismatch | SnapOutboxRootMismatch
| SnapGlobalStateRootMismatch.
Record StateSnapshot := {
  snap_state : DeTTaState; snap_storage_root : string; snap_registry_root : string;
  snap_policy_root : string; snap_event_root : string; snap_nonce_root : string;
  snap_outbox_root : string; snap_global_state_root : string;
}.
(** Execution inside a block returns no error: see [apply_transaction_returns]. *)
Definition from_void {E A} (o : outcome Empty_set A) : outcome E A :=
  match o with
  | Ok a => Ok a | Err e => match e with end | Panic => Panic | OutOfFuel => OutOfFuel
  end.

Section block.
Context `{Host}.

(** ** Snapshots *)
Definition snapshot (s : DeTTaState) : StateSnapshot :=
  {| snap_state := s; snap_storage_root := storage_root s; snap_registry_root := registry_root s;
     snap_policy_root := policy_root s; snap_event_root := event_root s;
     snap_nonce_root := nonce_root s; snap_outbox_root := outbox_root s;
     snap_global_state_root := global_state_root s |}.
Definition from_snapshot (snap : StateSnapshot) : outcome SnapshotError DeTTaState :=
  let s := snap_state snap in
  do* ensure (bool_decide (snap_storage_root snap = storage_root s)) SnapStorageRootMismatch in
  do* ensure (bool_decide (snap_registry_root snap = registry_root s)) SnapRegistryRootMismatch in
  do* ensure (bool_decide (snap_policy_root snap = policy_root s)) SnapPolicyRootMismatch in
  do* ensure (bool_decide (snap_event_root snap = event_root s)) SnapEventRootMismatch in
  do* ensure (bool_decide (snap_nonce_root snap = nonce_root s)) SnapNonceRootMismatch in
  do* ensure (bool_decide (snap_outbox_root snap = outbox_root s)) SnapOutboxRootMismatch in
  do* ensure (bool_decide (snap_global_state_root snap = global_state_root s))
    SnapGlobalStateRootMismatch in
  Ok s.

(** ** Blocks *)
Definition block_hash (b : Block) : string := root_of (blk_header b).
Definition receipt_proof (b : Block) (index : nat) : option (Receipt * MerkleProof) :=
  receipt ← blk_receipts b !! index; proof ← merkle_proof (blk_receipts b) index;
  Some (receipt, proof).
Definition build_block (s : DeTTaState) (height : N) (transactions : list Transaction)
    (timestamp : N) (proposer consensus_certificate : string)
    : outcome Empty_set (Block * DeTTaState) :=
  match apply_transactions transactions (set_height height s) with
  | (Ok receipts, working_state) =>
      let header := {| hdr_chain_id := chain_id s; hdr_height := height;
        hdr_previous_block_hash := finalized_block_hash s;
        hdr_tx_root := merkle_root transactions; hdr_receipt_root := merkle_root receipts;
        hdr_global_state_root := global_state_root working_state;
        hdr_storage_root := storage_root working_state;
        hdr_registry_root := registry_root working_state;
        hdr_policy_root := policy_root working_state;
        hdr_event_root := event_root working_state;
        hdr_nonce_root := nonce_root working_state;
        hdr_outbox_root := outbox_root working_state; hdr_timestamp := timestamp;
        hdr_proposer := proposer; hdr_consensus_certificate := consensus_certificate |} in
      let block := {| blk_header := header; blk_transactions := transactions;
        blk_receipts := receipts |} in
      Ok (block, set_finalized_block_hash (block_hash block) working_state)
  | (Err e, _) => Err e | (Panic, _) => Panic | (OutOfFuel, _) => OutOfFuel
  end.
(** The new state, or the check that failed. *)
Definition check_block (block : Block) (s : DeTTaState) : outcome BlockError DeTTaState :=
  let header := blk_header block in
  do* ensure (bool_decide (hdr_chain_id header = chain_id s)) BlkChainMismatch in
  let actual_units := block_resource_units (blk_transactions block) in
  do* ensure (negb (DEFAULT_BLOCK_RESOURCE_LIMIT <? actual_units))
    (BlkResourceLimitExceeded DEFAULT_BLOCK_RESOURCE_LIMIT actual_units) in
  do* ensure (bool_decide (hdr_previous_block_hash header = finalized_block_hash s))
    BlkPreviousBlockMismatch in
  do* ensure (bool_decide (hdr_tx_root header = merkle_root (blk_transactions block)))
    BlkTxRootMismatch in
  let '(result, working_state) :=
    apply_transactions (blk_transactions block) (set_height (hdr_height header) s) in
  let* receipts := from_void result in
  do* ensure (bool_decide (receipts = blk_receipts block)) BlkReceiptMismatch in
  do* ensure (bool_decide (hdr_receipt_root header = merkle_root receipts)) BlkReceiptRootMismatch in
  do* ensure (bool_decide (hdr_storage_root header = storage_root working_state))
    BlkStorageRootMismatch in
  do* ensure (bool_decide (hdr_registry_root header = registry_root working_state))
    BlkRegistryRootMismatch in
  do* ensure (bool_decide (hdr_policy_root header = policy_root working_state))
    BlkPolicyRootMismatch in
  do* ensure (bool_decide (hdr_event_root header = event_root working_state))
    BlkEventRootMismatch in
  do* ensure (bool_decide (hdr_nonce_root header = nonce_root working_state))
    BlkNonceRootMismatch in
  do* ensure (bool_decide (hdr_outbox_root header = outbox_root working_state))
    BlkOutboxRootMismatch in
  do* ensure (bool_decide (hdr_global_state_root header = global_state_root working_state))
    BlkGlobalStateRootMismatch in
  Ok (set_finalized_block_hash (block_hash block) working_state).
Definition apply_block (block : Block) : SE DeTTaState BlockError () := λ s,
  match check_block block s with
  | Ok s' => (Ok (), s')
  | Err e => (Err e, s) | Panic => (Panic, s) | OutOfFuel => (OutOfFuel, s)
  end.

(** ** Validator nodes *)
Record ValidatorNode := {
  vn_validator_id : string;
  vn_state : DeTTaState;
  vn_mempool : Mempool;
  vn_block_resource_limit : N;
  vn_blocks : gmap N Block;
  vn_transactions : gmap TxHash Transaction;
  vn_receipts : gmap TxHash Receipt;
}.
Definition validator_node (validator_id : string) (state : DeTTaState) (mempool : Mempool)
    : ValidatorNode :=
  {| vn_validator_id := validator_id; vn_state := state; vn_mempool := mempool;
     vn_block_resource_limit := DEFAULT_BLOCK_RESOURCE_LIMIT; vn_blocks := ∅;
     vn_transactions := ∅; vn_receipts := ∅ |}.
Definition validator_node_new (validator_id : string) (state : DeTTaState) : ValidatorNode :=
  validator_node validator_id state mempool_new.
Definition with_pending_transactions (validator_id : string) (state : DeTTaState)
    (pending : list Transaction) : outcome MempoolError ValidatorNode :=
  let* mempool := from_transactions state pending in
  Ok (validator_node validator_id state mempool).
Definition get_receipt (node : ValidatorNode) (tx_hash : TxHash) : option Receipt :=
  vn_receipts node !! tx_hash.
Definition highest_block_height (node : ValidatorNode) : N :=
  default 0 (last (keys (vn_blocks node))).
Definition set_mempool (m : Mempool) (node : ValidatorNode) : ValidatorNode :=
  {| vn_validator_id := vn_validator_id node; vn_state := vn_state node; vn_mempool := m;
     vn_block_resource_limit := vn_block_resource_limit node; vn_blocks := vn_blocks node;
     vn_transactions := vn_transactions node; vn_receipts := vn_receipts node |}.
Definition submit_transaction (tx : Transaction) : SE ValidatorNode MempoolError () := λ node,
  let '(result, m) := submit (vn_state node) tx (vn_mempool node) in
  (result, set_mempool m node).
Definition propose_block (node : ValidatorNode) (height : N) (transactions : list Transaction)
    (timestamp : N) : outcome Empty_set Block :=
  let certificate := "sim-cert:" +:+ vn_validator_id node +:+ ":" +:+ pretty height in
  let* built := build_block (vn_state node) height transactions timestamp (vn_validator_id node)
                  certificate in
  Ok built.1.
Definition propose_pending_block (height timestamp : N) : SE ValidatorNode Empty_set Block := λ node,
  let '(transactions, m) :=
    drain_ordered_with_resource_limit (vn_block_resource_limit node) (vn_mempool node) in
  let node := set_mempool m node in
  (propose_block node height transactions timestamp, node).
Definition validate_and_apply (block : Block) : SE ValidatorNode BlockError () := λ node,
  let actual_units := block_resource_units (blk_transactions block) in
  if vn_block_resource_limit node <? actual_units then
    (Err (BlkResourceLimitExceeded (vn_block_resource_limit node) actual_units), node)
  else match apply_block block (vn_state node) with
  | (Ok _, s) =>
      (Ok (), {| vn_validator_id := vn_validator_id node; vn_state := s;
        vn_mempool := retain_admissible s (vn_mempool node);
        vn_block_resource_limit := vn_block_resource_limit node;
        vn_blocks := <[hdr_height (blk_header block) := block]> (vn_blocks node);
        vn_transactions := foldl (λ m tx, <[tx_tx_hash tx := tx]> m) (vn_transactions node)
          (blk_transactions block);
        vn_receipts := foldl (λ m r, <[rc_tx_hash r := r]> m) (vn_receipts node)
          (blk_receipts block) |})
  | (Err e, _) => (Err e, node)
  | (Panic, _) => (Panic, node)
  | (OutOfFuel, _) => (OutOfFuel, node)
  end.
End block.

(** ** Theorems *)
Section theorems.
Context `{Host}.
Implicit Types (s : DeTTaState) (b : Block).

(** Roots do not depend on the finalized hash. *)
Lemma build_block_Ok s h txs t p c :
  ∃ rs ws b, apply_transactions txs (set_height h s) = (Ok rs, ws) ∧
    build_block s h txs t p c = Ok (b, set_finalized_block_hash (block_hash b) ws) ∧
    blk_transactions b = txs ∧ blk_receipts b = rs ∧ hdr_height (blk_header b) = h.
Proof.
  unfold build_block. destruct (apply_transactions txs (set_height h s)) as [o ws] eqn:Hrun.
  assert (∃ rs, o = Ok rs) as [rs ->].
  { destruct txs as [|tx txs]; [injection Hrun as <- <-; eauto|].
    destruct (apply_transactions_cons tx txs (set_height h s)) as (?&?&?&?&_&_&_&Hr).
    rewrite Hr in Hrun. injection Hrun as <- <-. eauto. }
  eexists rs, ws, _. split_and!; done.
Qed.

Lemma build_applies s h txs t p c :
  block_resource_units txs ≤ DEFAULT_BLOCK_RESOURCE_LIMIT →
  ∃ b s', build_block s h txs t p c = Ok (b, s') ∧ apply_block b s = (Ok (), s').
Proof.
  intros Hlim. destruct (build_block_Ok s h txs t p c) as (rs & ws & b & Hrun & Hb & _).
  exists b, (set_finalized_block_hash (block_hash b) ws). split; [done|].
  unfold build_block in Hb. rewrite Hrun in Hb. injection Hb as <-.
  unfold apply_block, check_block. cbn [blk_header blk_transactions blk_receipts hdr_chain_id hdr_height
    hdr_previous_block_hash hdr_tx_root hdr_receipt_root hdr_storage_root hdr_registry_root
    hdr_policy_root hdr_event_root hdr_nonce_root hdr_outbox_root hdr_global_state_root].
  rewrite Hrun, (proj2 (N.ltb_ge _ _)) by done. cbn [from_void outcome_bind negb].
  repeat (rewrite bool_decide_eq_true_2 by done; cbn [ensure outcome_bind]). done.
Qed.

Lemma build_block_shape s h txs t p c b s' :
  build_block s h txs t p c = Ok (b, s') →
  hdr_height (blk_header b) = h ∧ hdr_proposer (blk_header b) = p ∧
  hdr_previous_block_hash (blk_header b) = finalized_block_hash s ∧ blk_transactions b = txs ∧
  ∃ ws, apply_transactions txs (set_height h s) = (Ok (blk_receipts b), ws) ∧
    s' = set_finalized_block_hash (block_hash b) ws.
Proof.
  unfold build_block. destruct (apply_transactions txs (set_height h s)) as [[rs| | |] ws] eqn:Hrun;
    intros [= <- <-]. split_and!; [done..|]. by exists ws.
Qed.

(** [apply_block] looks at neither the height nor the proposer of the header:
    a block built for any height, and in any name, is applied. *)
Theorem built_block_applies s h txs t p c :
  block_resource_units txs ≤ DEFAULT_BLOCK_RESOURCE_LIMIT →
  ∃ b s', build_block s h txs t p c = Ok (b, s') ∧ apply_block b s = (Ok (), s').
Proof. apply build_applies. Qed.

(** The header's nine commitments are those of the transactions, the receipts
    and the state reached. *)
Definition commits_to (header : BlockHeader) (txs : list Transaction) (receipts : list Receipt)
    (s : DeTTaState) : Prop :=
  hdr_tx_root header = merkle_root txs ∧ hdr_receipt_root header = merkle_root receipts ∧
  hdr_storage_root header = storage_root s ∧ hdr_registry_root header = registry_root s ∧
  hdr_policy_root header = policy_root s ∧ hdr_event_root header = event_root s ∧
  hdr_nonce_root header = nonce_root s ∧ hdr_outbox_root header = outbox_root s ∧
  hdr_global_state_root header = global_state_root s.
Lemma apply_block_Ok b s u s' :
  apply_block b s = (Ok u, s') →
  ∃ ws, apply_transactions (blk_transactions b) (set_height (hdr_height (blk_header b)) s)
      = (Ok (blk_receipts b), ws) ∧
    s' = set_finalized_block_hash (block_hash b) ws ∧
    hdr_chain_id (blk_header b) = chain_id s ∧
    hdr_previous_block_hash (blk_header b) = finalized_block_hash s ∧
    block_resource_units (blk_transactions b) ≤ DEFAULT_BLOCK_RESOURCE_LIMIT ∧
    commits_to (blk_header b) (blk_transactions b) (blk_receipts b) ws.
Proof.
  unfold apply_block. destruct (check_block b s) as [s1| | |] eqn:Hc; [|done..].
  intros [= _ <-]. unfold check_block in Hc.
  destruct (apply_transactions _ _) as [o ws] eqn:Hrun. simplify_ok.
  destruct o as [rs|[]| |]; simpl in *; simplify_ok; [|done..]. subst. exists ws. by split_and!.
Qed.

(** C25. An accepted block is of the chain, within the resource limit, links to
    the finalized block and becomes it, and its header commits to what
    executing its transactions gives: the receipts are the ones execution
    returned, and the transaction and receipt roots and the storage,
    registry, policy, event, nonce, outbox and global roots are those of the
    new state, whose height is the header's and which is the executed one but
    for the finalized hash. *)
Theorem accepted_block_commits b s u s' :
  apply_block b s = (Ok u, s') →
  hdr_chain_id (blk_header b) = chain_id s ∧
  block_resource_units (blk_transactions b) ≤ DEFAULT_BLOCK_RESOURCE_LIMIT ∧
  hdr_previous_block_hash (blk_header b) = finalized_block_hash s ∧
  finalized_block_hash s' = block_hash b ∧ height s' = hdr_height (blk_header b) ∧
  commits_to (blk_header b) (blk_transactions b) (blk_receipts b) s' ∧
  ∃ ws, apply_transactions (blk_transactions b) (set_height (hdr_height (blk_header b)) s)
    = (Ok (blk_receipts b), ws) ∧ s' = set_finalized_block_hash (block_hash b) ws.
Proof.
  intros (ws & Hrun & -> & Hc & Hp & Hu & Hroots)%apply_block_Ok.
  split_and!; try done; [|by exists ws]. simpl.
  refine (apply_transactions_inv (λ s, height s = hdr_height (blk_header b)) _ _ _ _ _ Hrun eq_refl).
  intros tx s1 r s2 Ha. apply (applied_inv (λ s, height s = hdr_height (blk_header b)) tx s1 r); [done| |done].
  intros s3 s4 Hs <-. apply (pres_height _ _ (steps_preserved _ _ _ _ Hs)).
Qed.

(** ** Chains *)
Inductive chain : DeTTaState → list Block → DeTTaState → Prop :=
| chain_nil s : chain s [] s
| chain_cons s b s1 bs s' :
    apply_block b s = (Ok (), s1) → chain s1 bs s' → chain s (b :: bs) s'.

(** Along any chain of accepted blocks the ledgers stay balanced, and a
    sender's nonce that was used once stays used, so no later block can execute
    it again. *)
Theorem chain_keeps_ledgers s bs s' :
  chain s bs s' → ledgers_ok s → ledgers_ok s' ∧ used_nonces s ⊆ used_nonces s'.
Proof.
  induction 1 as [s|s b s1 bs s' Hb _ IH]; intros HI; [done|].
  destruct (apply_block_Ok _ _ _ _ Hb) as (ws & Hrun & -> & _).
  assert (ledgers_ok (set_finalized_block_hash (block_hash b) ws) ∧ used_nonces s ⊆ used_nonces ws)
    as [HI' Hn].
  { split.
    - eapply ledgers_storage; [|refine (transactions_ledgers _ _ _ _ Hrun _)]; [done|].
      by eapply ledgers_storage.
    - refine (apply_transactions_inv (λ s2, used_nonces s ⊆ used_nonces s2) _ _ _ _ _ Hrun _); [|done].
      intros tx s2 r s3 Ha. destruct (applied_nonces _ _ _ _ Ha). set_solver. }
  destruct (IH HI') as [? Hn']. split; [done|]. simpl in Hn'. set_solver.
Qed.

(** Snapshots round-trip: a state's snapshot is accepted and gives the
    state back, and an accepted snapshot's roots are those of its state. *)
Theorem snapshot_roundtrip s :
  from_snapshot (snapshot s) = Ok s ∧
  ∀ snap s', from_snapshot snap = Ok s' → snap = snapshot s'.
Proof.
  split.
  - unfold from_snapshot, snapshot; simpl. by rewrite !bool_decide_eq_true_2.
  - intros [] s'. unfold from_snapshot, snapshot; simpl. intros. simplify_ok. by subst.
Qed.

(** ** Nodes *)

(** A proposal reaches agreement: when a node whose resource limit is at
    most the default drains its pool into a block, every node in the same
    state whose limit admits the block accepts it and reaches the state the
    proposer computed; afterwards its pool holds no transaction whose nonce
    the block used. *)
Theorem proposal_accepted proposer h t b proposer' validator :
  propose_pending_block h t proposer = (Ok b, proposer') →
  vn_block_resource_limit proposer ≤ DEFAULT_BLOCK_RESOURCE_LIMIT →
  vn_state validator = vn_state proposer →
  vn_block_resource_limit proposer ≤ vn_block_resource_limit validator →
  ∃ validator', validate_and_apply b validator = (Ok (), validator') ∧
    apply_block b (vn_state proposer) = (Ok (), vn_state validator') ∧
    vn_blocks validator' !! h = Some b ∧
    ∀ tx, tx ∈ mem_pending (vn_mempool validator') →
      (tx_sender tx, tx_nonce tx) ∉ used_nonces (vn_state validator').
Proof.
  unfold propose_pending_block. pose proof (drain_spec (vn_block_resource_limit proposer) (vn_mempool proposer)) as Hd.
  destruct (drain_ordered_with_resource_limit _ _) as [txs m]. destruct Hd as (Hu & _).
  intros Hprop Hdef Hst Hlim. injection Hprop as Hprop <-. unfold propose_block in Hprop. simpl in Hprop.
  destruct (build_block_Ok (vn_state proposer) h txs t (vn_validator_id proposer)
    ("sim-cert:" +:+ vn_validator_id proposer +:+ ":" +:+ pretty h)) as (rs & ws & b' & Hrun & Hb & Htx & Hrs & Hh).
  rewrite Hb in Hprop. injection Hprop as <-.
  destruct (build_applies (vn_state proposer) h txs t (vn_validator_id proposer)
    ("sim-cert:" +:+ vn_validator_id proposer +:+ ":" +:+ pretty h)) as (b & s' & Hb2 & Happ); [lia|].
  rewrite Hb in Hb2. injection Hb2 as <- <-.
  unfold validate_and_apply. rewrite Htx, Hst, (proj2 (N.ltb_ge _ _)) by lia. rewrite Happ.
  eexists. split; [done|]. split_and!; simpl; [done|by rewrite Hh, lookup_insert_eq|].
  intros tx [Hadm _]%list_elem_of_filter. unfold admissible in Hadm. simplify_ok. done.
Qed.

(** A block over the default resource limit is refused by every node,
    whatever limit the node is configured with, and changes nothing: raising
    [block_resource_limit] above the default makes a node propose blocks that
    neither it nor anyone else accepts. *)
Theorem oversized_block_refused b node :
  DEFAULT_BLOCK_RESOURCE_LIMIT < block_resource_units (blk_transactions b) →
  ∃ e, validate_and_apply b node = (Err e, node).
Proof.
  intros Hu. unfold validate_and_apply. destruct (_ <? _); [by eexists|].
  unfold apply_block, check_block. destruct (bool_decide _); simpl; [|by eexists].
  rewrite (proj2 (N.ltb_lt _ _)) by done. by eexists.
Qed.
End theorems.
