(* ===== verification/Consensus.v ===== *)
(** * Consensus: finality certificates, slashing and validator sets

    Models crates/detta-consensus/src/lib.rs. *)
From S2P Require Import Prelude Effects Merkle Types State Policies AspectRuntime Aspects.
From S2P Require Import Runtime Exec Transactions Mempool Block.

Record Vote := { vote_validator_id : string; vote_height : N; vote_block_hash : string }.
Record FinalityCertificate := {
  fc_height : N; fc_block_hash : string; fc_signers : list string;
}.
Record EquivocationEvidence := {
  ee_validator_id : string; ee_height : N; ee_first_block_hash : string;
  ee_second_block_hash : string;
}.
Record SlashingRecord := {
  sr_validator_id : string; sr_slashed_at_height : N; sr_evidence : EquivocationEvidence;
}.
Record ValidatorSetUpdate := {
  vsu_update_id : string; vsu_add_validators : list (string * DeTTaState);
  vsu_remove_validators : list string;
}.
Inductive ConsensusError :=
| UnknownProposer | UnknownValidator (v : string) | SlashedValidator (v : string)
| DuplicateValidator (v : string) | EmptyValidatorSet | ValidatorSetWouldBeEmpty
| ValidatorSetUpdateAlreadyApplied (id : string)
| QuorumNotReached (accepted required : nat)
| FinalityHeightMismatch (expected actual : N)
| FinalityBlockHashMismatch (expected actual : string)
| InvalidBlock (validator : string) (error : BlockError)
| Equivocation (evidence : EquivocationEvidence).
Record ConsensusCluster := {
  cl_validators : gmap string ValidatorNode;
  cl_slashing_records : gmap string SlashingRecord;
  cl_applied_validator_set_updates : gset string;
}.
Abbreviation CM := (SE ConsensusCluster ConsensusError).

(** ** Votes and certificates *)
Definition quorum_for (active_validators : nat) : nat :=
  match active_validators with O => O | _ => active_validators * 2 / 3 + 1 end.
Definition ordered_hash_pair (left right : string) : string * string :=
  if decide (cmp_le left right) then (left, right) else (right, left).
Fixpoint detect_from (seen : gmap (string * N) string) (votes : list Vote)
    : option EquivocationEvidence :=
  match votes with
  | [] => None
  | vote :: votes =>
      let key := (vote_validator_id vote, vote_height vote) in
      match seen !! key with
      | Some previous_hash =>
          if decide (previous_hash = vote_block_hash vote) then detect_from seen votes else
          let pair := ordered_hash_pair previous_hash (vote_block_hash vote) in
          Some {| ee_validator_id := vote_validator_id vote; ee_height := vote_height vote;
                  ee_first_block_hash := pair.1; ee_second_block_hash := pair.2 |}
      | None => detect_from (<[key := vote_block_hash vote]> seen) votes
      end
  end.
Definition detect_equivocation (votes : list Vote) : option EquivocationEvidence :=
  detect_from ∅ votes.
Definition votes_for (height : N) (block_hash : string) (votes : list Vote) : gset string :=
  list_to_set (vote_validator_id <$>
    filter (λ v, vote_height v = height ∧ vote_block_hash v = block_hash) votes).
Definition certificate_from_votes (height : N) (block_hash : string) (votes : list Vote)
    (quorum : nat) : outcome ConsensusError FinalityCertificate :=
  match detect_equivocation votes with
  | Some evidence => Err (Equivocation evidence)
  | None =>
      let signers := votes_for height block_hash votes in
      do* ensure (negb (size signers <? quorum)%nat) (QuorumNotReached (size signers) quorum) in
      Ok {| fc_height := height; fc_block_hash := block_hash; fc_signers := set_iter signers |}
  end.
(** The loop over the signers. *)
Fixpoint active_signers (active_validators unique : gset string) (signers : list string)
    : outcome ConsensusError (gset string) :=
  match signers with
  | [] => Ok unique
  | signer :: signers =>
      if decide (signer ∈ active_validators)
      then active_signers active_validators ({[signer]} ∪ unique) signers
      else Err (UnknownValidator signer)
  end.
(** The free function of the same name. *)
Definition verify_finality_certificate (certificate : FinalityCertificate) (expected_height : N)
    (expected_block_hash : string) (active_validators : gset string) (quorum : nat)
    : outcome ConsensusError () :=
  do* ensure (negb (bool_decide (active_validators = ∅) || (quorum =? 0)%nat)) EmptyValidatorSet in
  do* ensure (fc_height certificate =? expected_height)
    (FinalityHeightMismatch expected_height (fc_height certificate)) in
  do* ensure (bool_decide (fc_block_hash certificate = expected_block_hash))
    (FinalityBlockHashMismatch expected_block_hash (fc_block_hash certificate)) in
  let* unique_signers := active_signers active_validators ∅ (fc_signers certificate) in
  ensure (negb (size unique_signers <? quorum)%nat) (QuorumNotReached (size unique_signers) quorum).

(** ** The cluster *)
Definition is_slashed (c : ConsensusCluster) (v : string) : bool :=
  bool_decide (is_Some (cl_slashing_records c !! v)).
(** [len() - len()]: slashed validators are validators, see [cluster_ok]. *)
Definition active_validator_count (c : ConsensusCluster) : nat :=
  size (cl_validators c) - size (cl_slashing_records c).
Definition quorum (c : ConsensusCluster) : nat := quorum_for (active_validator_count c).
Definition active_set (c : ConsensusCluster) : gset string :=
  dom (cl_validators c) ∖ dom (cl_slashing_records c).
Fixpoint insert_nodes (nodes : gmap string ValidatorNode) (validators : list (string * DeTTaState))
    : outcome ConsensusError (gmap string ValidatorNode) :=
  match validators with
  | [] => Ok nodes
  | (id, state) :: validators =>
      if decide (is_Some (nodes !! id)) then Err (DuplicateValidator id)
      else insert_nodes (<[id := validator_node_new id state]> nodes) validators
  end.
Definition cluster_new (validators : list (string * DeTTaState))
    : outcome ConsensusError ConsensusCluster :=
  match validators with
  | [] => Err EmptyValidatorSet
  | _ =>
      let* nodes := insert_nodes ∅ validators in
      Ok {| cl_validators := nodes; cl_slashing_records := ∅;
            cl_applied_validator_set_updates := ∅ |}
  end.
(** The loop that [verify_finality_certificate] and [require_active_quorum]
    of the cluster share: every signer a validator, none slashed. *)
Fixpoint check_signers (c : ConsensusCluster) (signers : list string) : outcome ConsensusError () :=
  match signers with
  | [] => Ok ()
  | signer :: signers =>
      do* ensure (bool_decide (is_Some (cl_validators c !! signer))) (UnknownValidator signer) in
      do* ensure (negb (is_slashed c signer)) (SlashedValidator signer) in
      check_signers c signers
  end.
Definition cluster_verify_finality_certificate (c : ConsensusCluster)
    (certificate : FinalityCertificate) (expected_height : N) (expected_block_hash : string)
    : outcome ConsensusError () :=
  do* check_signers c (fc_signers certificate) in
  verify_finality_certificate certificate expected_height expected_block_hash (active_set c) (quorum c).
Definition set_slashing (r : gmap string SlashingRecord) (c : ConsensusCluster) : ConsensusCluster :=
  {| cl_validators := cl_validators c; cl_slashing_records := r;
     cl_applied_validator_set_updates := cl_applied_validator_set_updates c |}.
Definition set_validators (v : gmap string ValidatorNode) (c : ConsensusCluster) : ConsensusCluster :=
  {| cl_validators := v; cl_slashing_records := cl_slashing_records c;
     cl_applied_validator_set_updates := cl_applied_validator_set_updates c |}.
Definition record_equivocation (evidence : EquivocationEvidence) : CM SlashingRecord := λ c,
  let id := ee_validator_id evidence in
  match cl_validators c !! id with
  | None => (Err (UnknownValidator id), c)
  | Some _ =>
      match cl_slashing_records c !! id with
      | Some r => (Ok r, c)
      | None =>
          let r := {| sr_validator_id := id; sr_slashed_at_height := ee_height evidence;
                      sr_evidence := evidence |} in
          (Ok r, set_slashing (<[id := r]> (cl_slashing_records c)) c)
      end
  end.
Definition certificate_from_active_votes (height : N) (block_hash : string) (votes : list Vote)
    : CM FinalityCertificate :=
  match detect_equivocation votes with
  | Some evidence => do! record_equivocation evidence in throw (Equivocation evidence)
  | None => λ c,
      let active_votes := filter (λ v, is_slashed c (vote_validator_id v) = false) votes in
      (certificate_from_votes height block_hash active_votes (quorum c), c)
  end.

Section cluster.
Context `{Host}.

Definition cluster_propose_block (c : ConsensusCluster) (proposer_id : string) (height : N)
    (transactions : list Transaction) (timestamp : N) : outcome ConsensusError Block :=
  let* proposer := ok_or (cl_validators c !! proposer_id) UnknownProposer in
  do* ensure (negb (is_slashed c proposer_id)) (SlashedValidator proposer_id) in
  from_void (propose_block proposer height transactions timestamp).
(** One validator's turn: its vote, or the error that ends the loop.  The
    validators before it keep what they applied. *)
Definition validator_vote (block : Block) (id : string) : CM (list Vote) := λ c,
  match cl_validators c !! id with
  | None => (Ok [], c)
  | Some node =>
      if is_slashed c id then (Ok [], c) else
      match validate_and_apply block node with
      | (Ok _, node) =>
          (Ok [{| vote_validator_id := id; vote_height := hdr_height (blk_header block);
                  vote_block_hash := block_hash block |}],
           set_validators (<[id := node]> (cl_validators c)) c)
      | (Err error, node) =>
          (Err (InvalidBlock id error), set_validators (<[id := node]> (cl_validators c)) c)
      | (Panic, _) => (Panic, c)
      | (OutOfFuel, _) => (OutOfFuel, c)
      end
  end.
Definition collect_votes (block : Block) (ids : list string) : CM (list Vote) :=
  let! votes := mapM (validator_vote block) ids in ret (concat votes).
Definition finalize_block (block : Block) : CM FinalityCertificate :=
  let! c := gets id in
  do? ensure (negb (is_slashed c (hdr_proposer (blk_header block))))
    (SlashedValidator (hdr_proposer (blk_header block))) in
  let! votes := collect_votes block (keys (cl_validators c)) in
  certificate_from_active_votes (hdr_height (blk_header block)) (block_hash block) votes.

(** ** Validator-set updates *)
Definition require_active_quorum (c : ConsensusCluster) (signers : list string)
    : outcome ConsensusError () :=
  do* check_signers c signers in
  let accepted := list_to_set signers : gset string in
  ensure (negb (size accepted <? quorum c)%nat) (QuorumNotReached (size accepted) (quorum c)).
Fixpoint check_added (c : ConsensusCluster) (seen : gset string) (ids : list string)
    : outcome ConsensusError () :=
  match ids with
  | [] => Ok ()
  | id :: ids =>
      do* ensure (bool_decide (id ∉ seen) && negb (bool_decide (is_Some (cl_validators c !! id))))
        (DuplicateValidator id) in
      check_added c ({[id]} ∪ seen) ids
  end.
Fixpoint check_removed (c : ConsensusCluster) (seen : gset string) (ids : list string)
    : outcome ConsensusError () :=
  match ids with
  | [] => Ok ()
  | id :: ids =>
      do* ensure (bool_decide (id ∉ seen) && bool_decide (is_Some (cl_validators c !! id)))
        (UnknownValidator id) in
      check_removed c ({[id]} ∪ seen) ids
  end.
Definition validate_validator_set_update (c : ConsensusCluster) (update : ValidatorSetUpdate)
    : outcome ConsensusError () :=
  do* check_added c ∅ (vsu_add_validators update).*1 in
  do* check_removed c ∅ (vsu_remove_validators update) in
  let next_validator_count := (size (cl_validators c) + length (vsu_add_validators update)
    - length (vsu_remove_validators update))%nat in
  ensure (negb (next_validator_count =? 0)%nat) ValidatorSetWouldBeEmpty.
Definition updated_validators (update : ValidatorSetUpdate) (nodes : gmap string ValidatorNode)
    : gmap string ValidatorNode :=
  foldl (λ nodes '(id, state), <[id := validator_node_new id state]> nodes)
    (foldl (λ nodes id, delete id nodes) nodes (vsu_remove_validators update))
    (vsu_add_validators update).
Definition apply_validator_set_update (update : ValidatorSetUpdate)
    (certificate : FinalityCertificate) : CM () := λ c,
  match
    do* ensure (negb (bool_decide (vsu_update_id update ∈ cl_applied_validator_set_updates c)))
      (ValidatorSetUpdateAlreadyApplied (vsu_update_id update)) in
    do* require_active_quorum c (fc_signers certificate) in
    validate_validator_set_update c update
  with
  | Ok _ => (Ok (), {| cl_validators := updated_validators update (cl_validators c);
      cl_slashing_records :=
        foldl (λ r id, delete id r) (cl_slashing_records c) (vsu_remove_validators update);
      cl_applied_validator_set_updates :=
        {[vsu_update_id update]} ∪ cl_applied_validator_set_updates c |})
  | Err e => (Err e, c) | Panic => (Panic, c) | OutOfFuel => (OutOfFuel, c)
  end.
End cluster.

(** ** Certificates *)
Lemma active_signers_Ok V u signers u' :
  active_signers V u signers = Ok u' ↔ list_to_set signers ⊆ V ∧ u' = list_to_set signers ∪ u.
Proof.
  revert u. induction signers as [|x l IH]; intros u; simpl.
  - rewrite union_empty_l_L. split; [by intros [= <-]; set_solver|by intros [_ ->]].
  - case_decide as Hx.
    + rewrite IH. split; intros [Hs ->]; (split; [set_solver|]); set_solver.
    + split; [done|]. intros [Hs _]. set_solver.
Qed.
Lemma verify_finality_Ok cert h hash V q u :
  verify_finality_certificate cert h hash V q = Ok u ↔
  V ≠ ∅ ∧ q ≠ 0%nat ∧ fc_height cert = h ∧ fc_block_hash cert = hash ∧
  list_to_set (fc_signers cert) ⊆ V ∧ (q ≤ size (list_to_set (fc_signers cert) : gset string))%nat.
Proof.
  destruct u. unfold verify_finality_certificate. rewrite !outcome_bind_Ok. split.
  - intros (? & H1 & H2). simplify_ok.
    match goal with H : active_signers _ _ _ = _ |- _ => apply active_signers_Ok in H as [? ->] end.
    rewrite union_empty_r_L in *. rewrite Nat.eqb_neq, Nat.ltb_ge in *. split_and!; done.
  - intros (HV & Hq & <- & <- & Hs & Hle). exists ().
    rewrite bool_decide_eq_false_2, (proj2 (Nat.eqb_neq _ _)) by done. split; [done|].
    rewrite N.eqb_refl; simpl. rewrite bool_decide_eq_true_2 by done. simpl.
    rewrite (proj2 (active_signers_Ok V ∅ _ _)) by (split; [done|by rewrite union_empty_r_L]). simpl.
    by rewrite (proj2 (Nat.ltb_ge _ _)).
Qed.
(** Two quorums of the same set share more than a third of it. *)
Lemma quorum_intersection (V A B : gset string) :
  A ⊆ V → B ⊆ V → V ≠ ∅ →
  (quorum_for (size V) ≤ size A)%nat → (quorum_for (size V) ≤ size B)%nat →
  (size V < 3 * size (A ∩ B))%nat.
Proof.
  intros HA HB HV HqA HqB. assert (size V ≠ 0)%nat as Hn.
  { intros Hz. apply size_empty_inv in Hz. by apply HV, leibniz_equiv. }
  assert (quorum_for (size V) = size V * 2 / 3 + 1)%nat as Hq by (by destruct (size V)).
  pose proof (Nat.div_mod_eq (size V * 2) 3). pose proof (Nat.mod_upper_bound (size V * 2) 3 ltac:(lia)).
  assert (size A + size B ≤ size V + size (A ∩ B))%nat; [|lia].
  pose proof (size_union_alt A B) as Hu. pose proof (subseteq_size (A ∪ B) V ltac:(set_solver)).
  assert (size B = size (B ∩ A) + size (B ∖ A))%nat as HB'.
  { rewrite <- size_union by set_solver. f_equal. apply set_eq. intros x. destruct (decide (x ∈ A)); set_solver. }
  replace (A ∩ B) with (B ∩ A) by set_solver. lia.
Qed.

(** C26. Finality is safe while at most a third of the validators misbehave:
    two certificates accepted for one height by the same active validators
    carry the same block hash, unless more than a third of the validators
    signed both. *)
Theorem finality_safety cert1 cert2 h hash1 hash2 (V faulty : gset string) :
  verify_finality_certificate cert1 h hash1 V (quorum_for (size V)) = Ok () →
  verify_finality_certificate cert2 h hash2 V (quorum_for (size V)) = Ok () →
  (∀ v, v ∈ fc_signers cert1 → v ∈ fc_signers cert2 → hash1 ≠ hash2 → v ∈ faulty) →
  (3 * size faulty ≤ size V)%nat → hash1 = hash2.
Proof.
  intros (HV & _ & _ & _ & HA & HqA)%verify_finality_Ok (_ & _ & _ & _ & HB & HqB)%verify_finality_Ok Hf Hsz.
  destruct (decide (hash1 = hash2)) as [|Hne]; [done|].
  pose proof (quorum_intersection V _ _ HA HB HV HqA HqB).
  assert (size (list_to_set (fc_signers cert1) ∩ list_to_set (fc_signers cert2) : gset string) ≤ size faulty)%nat; [|lia].
  apply subseteq_size. intros v. rewrite elem_of_intersection, !elem_of_list_to_set. naive_solver.
Qed.

(** ** Equivocation *)
Definition conflicting (v1 v2 : Vote) : Prop :=
  vote_validator_id v1 = vote_validator_id v2 ∧ vote_height v1 = vote_height v2 ∧
  vote_block_hash v1 ≠ vote_block_hash v2.
Definition evidence_of (id : string) (h : N) (x y : string) : EquivocationEvidence :=
  let pair := ordered_hash_pair x y in
  {| ee_validator_id := id; ee_height := h; ee_first_block_hash := pair.1; ee_second_block_hash := pair.2 |}.
Lemma detect_from_spec votes seen :
  match detect_from seen votes with
  | None =>
      (∀ v x, v ∈ votes → seen !! (vote_validator_id v, vote_height v) = Some x → x = vote_block_hash v) ∧
      ∀ v1 v2, v1 ∈ votes → v2 ∈ votes → ¬ conflicting v1 v2
  | Some ev => ∃ v x, v ∈ votes ∧ x ≠ vote_block_hash v ∧
      ev = evidence_of (vote_validator_id v) (vote_height v) x (vote_block_hash v) ∧
      (seen !! (vote_validator_id v, vote_height v) = Some x ∨
       ∃ v1, v1 ∈ votes ∧ conflicting v1 v ∧ vote_block_hash v1 = x)
  end.
Proof.
  revert seen. induction votes as [|v votes IH]; intros seen; simpl; [set_solver|].
  destruct (seen !! (vote_validator_id v, vote_height v)) as [x|] eqn:Hs.
  - case_decide as Hx.
    + specialize (IH seen). destruct (detect_from seen votes) as [ev|].
      * destruct IH as (v' & y & Hin & Hne & -> & [Hy|(v1 & H1 & H2 & H3)]); exists v', y; split_and!;
          try done; try (by apply list_elem_of_further); [by left|]. right. exists v1. set_solver.
      * destruct IH as [IH1 IH2]. split.
        -- intros v' y [->|Hin]%elem_of_cons; [congruence|]. by apply IH1.
        -- assert (∀ v', v' ∈ votes → ¬ conflicting v v' ∧ ¬ conflicting v' v) as Hv.
           { intros v' Hin. unfold conflicting.
             split; intros (E1 & E2 & Hne); apply Hne; [|symmetry]; rewrite <- Hx; apply IH1; try done;
               rewrite <- Hs; congruence. }
           intros v1 v2 [->|H1]%elem_of_cons [->|H2]%elem_of_cons; [by intros (_&_&?)| | |by apply IH2];
             by apply Hv.
    + exists v, x. split_and!; [apply list_elem_of_here|done|done|by left].
  - specialize (IH (<[(vote_validator_id v, vote_height v) := vote_block_hash v]> seen)).
    destruct (detect_from _ votes) as [ev|].
    + destruct IH as (v' & y & Hin & Hne & -> & Hor). exists v', y.
      split_and!; [by apply list_elem_of_further|done|done|]. destruct Hor as [Hy|(v1 & H1 & H2 & H3)].
      * apply lookup_insert_Some in Hy as [[Hk <-]|[_ Hy]]; [|by left].
        injection Hk as Hk1 Hk2. right. exists v. split_and!; [apply list_elem_of_here| |done]. done.
      * right. exists v1. set_solver.
    + destruct IH as [IH1 IH2]. split.
      * intros v' y [->|Hin]%elem_of_cons Hy; [congruence|]. apply IH1; [done|].
        rewrite lookup_insert_ne; [done|]. intros Hk. rewrite Hk in Hs. congruence.
      * assert (∀ v', v' ∈ votes → ¬ conflicting v v' ∧ ¬ conflicting v' v) as Hv.
        { intros v' Hin. unfold conflicting.
          split; intros (E1 & E2 & Hne); apply Hne; [|symmetry]; apply IH1; try done;
            rewrite E1, E2 || rewrite <- E1, <- E2; by rewrite lookup_insert_eq. }
        intros v1 v2 [->|H1]%elem_of_cons [->|H2]%elem_of_cons; [by intros (_&_&?)| | |by apply IH2];
          by apply Hv.
Qed.

(** Equivocation detection is exact: it reports nothing precisely when no
    validator voted for two blocks at one height, and what it reports is a
    pair of conflicting votes of one validator, with the hashes in order. *)
Theorem equivocation_detected votes :
  match detect_equivocation votes with
  | None => ∀ v1 v2, v1 ∈ votes → v2 ∈ votes → ¬ conflicting v1 v2
  | Some ev => ∃ v1 v2, v1 ∈ votes ∧ v2 ∈ votes ∧ conflicting v1 v2 ∧
      ev = evidence_of (vote_validator_id v1) (vote_height v1) (vote_block_hash v1) (vote_block_hash v2)
  end.
Proof.
  unfold detect_equivocation. pose proof (detect_from_spec votes ∅) as Hs.
  destruct (detect_from ∅ votes) as [ev|]; [|by destruct Hs].
  destruct Hs as (v & x & Hin & Hne & -> & [?|(v1 & H1 & Hc & <-)]); [done|].
  exists v1, v. destruct Hc as (Hc1 & Hc2 & Hc3). rewrite Hc1, Hc2. by split_and!.
Qed.

(** ** The cluster's invariant *)
Record cluster_ok (c : ConsensusCluster) : Prop := {
  cl_slashed_known : dom (cl_slashing_records c) ⊆ dom (cl_validators c);
  cl_nonempty : cl_validators c ≠ ∅;
}.
Lemma active_count c : cluster_ok c → active_validator_count c = size (active_set c).
Proof.
  intros [Hs _]. unfold active_validator_count, active_set. rewrite size_difference by done.
  by rewrite !size_dom.
Qed.
Lemma is_slashed_false c v : is_slashed c v = false ↔ v ∉ dom (cl_slashing_records c).
Proof. unfold is_slashed. by rewrite bool_decide_eq_false, elem_of_dom. Qed.
Lemma elem_of_active c v : v ∈ active_set c ↔ is_Some (cl_validators c !! v) ∧ is_slashed c v = false.
Proof. unfold active_set. by rewrite elem_of_difference, elem_of_dom, is_slashed_false. Qed.
Lemma check_signers_Ok c signers u :
  check_signers c signers = Ok u ↔ list_to_set signers ⊆ active_set c.
Proof.
  destruct u. induction signers as [|x l IH]; simpl; [set_solver|].
  rewrite union_subseteq, singleton_subseteq_l, elem_of_active, <- IH. split.
  - intros. simplify_ok. done.
  - intros [[Hx Hs] Hl]. rewrite bool_decide_eq_true_2, Hs by done. done.
Qed.

(** What the cluster certifies it accepts: while some validator is
    active, a certificate obtained from votes of its validators passes the
    cluster's own verification, for the height and hash it was made for. *)
Theorem certificate_verifies c h hash votes cert c' :
  cluster_ok c → active_set c ≠ ∅ →
  (∀ v, v ∈ votes → is_Some (cl_validators c !! vote_validator_id v)) →
  certificate_from_active_votes h hash votes c = (Ok cert, c') →
  c' = c ∧ cluster_verify_finality_certificate c cert h hash = Ok () ∧
  ∀ s, s ∈ fc_signers cert → ∃ v, v ∈ votes ∧ vote_validator_id v = s ∧ vote_height v = h ∧
    vote_block_hash v = hash.
Proof.
  intros Hok Hne Hv. unfold certificate_from_active_votes.
  destruct (detect_equivocation votes) as [ev|].
  { intros Hrun. apply bind_Ok in Hrun as (? & ? & _ & Ht). done. }
  intros [= Hrun <-]. unfold certificate_from_votes in Hrun.
  destruct (detect_equivocation _); [done|]. simplify_ok. rewrite Nat.ltb_ge in *. subst cert.
  set (signers := votes_for h hash (filter (λ v, is_slashed c (vote_validator_id v) = false) votes)) in *.
  assert (∀ s, s ∈ signers ↔ ∃ v, v ∈ votes ∧ vote_validator_id v = s ∧ vote_height v = h ∧
    vote_block_hash v = hash ∧ is_slashed c s = false) as Hsig.
  { intros s. unfold signers, votes_for. rewrite elem_of_list_to_set, list_elem_of_fmap.
    setoid_rewrite list_elem_of_filter. setoid_rewrite list_elem_of_filter. naive_solver. }
  assert (list_to_set (set_iter signers) = signers) as Hset.
  { apply set_eq. intros y. by rewrite elem_of_list_to_set, elem_of_set_iter. }
  assert (signers ⊆ active_set c) as Hsub.
  { intros s (v & Hin & <- & _ & _ & Hs)%Hsig. apply elem_of_active. auto. }
  split_and!; [done| |].
  - unfold cluster_verify_finality_certificate. simpl.
    rewrite (proj2 (check_signers_Ok c (set_iter signers) ())) by (by rewrite Hset). simpl.
    apply verify_finality_Ok; simpl. rewrite Hset. split_and!; try done.
    unfold quorum. rewrite active_count by done. intros Hq. apply Hne.
    assert (size (active_set c) = 0%nat) as Hz by (destruct (size (active_set c)); [done|simpl in Hq; lia]).
    by apply leibniz_equiv, size_empty_inv.
  - intros s. simpl. rewrite elem_of_set_iter, Hsig. naive_solver.
Qed.

(** ** Finalizing a block *)
Section finalize.
Context `{Host} (block : Block).

Definition vote_of (id : string) : Vote :=
  {| vote_validator_id := id; vote_height := hdr_height (blk_header block);
     vote_block_hash := block_hash block |}.
Lemma validator_vote_Ok id c y c' :
  validator_vote block id c = (Ok y, c') →
  (id ∉ active_set c ∧ y = [] ∧ c' = c) ∨
  (id ∈ active_set c ∧ ∃ node node', cl_validators c !! id = Some node ∧
     validate_and_apply block node = (Ok (), node') ∧ y = [vote_of id] ∧
     c' = set_validators (<[id := node']> (cl_validators c)) c).
Proof.
  unfold validator_vote. rewrite elem_of_active.
  destruct (cl_validators c !! id) as [node|] eqn:Hn.
  2: { intros [= <- <-]. left. split_and!; [|done..]. by intros [[] _]. }
  destruct (is_slashed c id). { intros [= <- <-]. left. split_and!; [|done..]. by intros [_ ?]. }
  destruct (validate_and_apply block node) as [[[]| | |] node'] eqn:Hva; intros [= <- <-].
  right. split; [by split; [eauto|]|]. by exists node, node'.
Qed.
(** What a pass over distinct validators does: every active one validated and
    applied the block and voted for it; the others are untouched. *)
Record voted (ids : list string) (c c' : ConsensusCluster) (votes : list Vote) : Prop := {
  voted_slashing : cl_slashing_records c' = cl_slashing_records c;
  voted_dom : dom (cl_validators c') = dom (cl_validators c);
  voted_others id : ¬ (id ∈ ids ∧ id ∈ active_set c) → cl_validators c' !! id = cl_validators c !! id;
  voted_active id node :
    id ∈ ids → id ∈ active_set c → cl_validators c !! id = Some node →
    ∃ node', validate_and_apply block node = (Ok (), node') ∧ cl_validators c' !! id = Some node';
  voted_votes v : v ∈ votes ↔ ∃ id, v = vote_of id ∧ id ∈ ids ∧ id ∈ active_set c;
}.
Lemma mapM_votes ids c vs c' :
  NoDup ids → mapM (validator_vote block) ids c = (Ok vs, c') → voted ids c c' (concat vs).
Proof.
  intros Hnd. revert c vs. induction Hnd as [|id ids Hni Hnd IH]; intros c vs; simpl.
  { intros [= <- <-]. split; try done; set_solver. }
  intros (y & c1 & Hv & (ys & c2 & Hm & Hr)%bind_Ok)%bind_Ok. unfold ret in Hr. injection Hr as <- <-.
  apply IH in Hm as [Hsl Hdom Hoth Hact Hvotes]. simpl.
  apply validator_vote_Ok in Hv as [(Hna & -> & ->)|(Ha & node & node' & Hn & Hva & -> & ->)].
  - split; try done.
    + intros id' Hid. apply Hoth. set_solver.
    + intros id' node [->|?]%elem_of_cons; [done|by apply Hact].
    + intros v. simpl. rewrite Hvotes. set_solver.
  - assert (active_set (set_validators (<[id:=node']> (cl_validators c)) c) = active_set c) as Hac.
    { unfold active_set; simpl. rewrite dom_insert_lookup_L; [done|by eauto]. }
    rewrite Hac in *. split; try done.
    + rewrite Hdom; simpl. by rewrite dom_insert_lookup_L by eauto.
    + intros id' Hid. rewrite Hoth by set_solver. simpl. rewrite lookup_insert_ne; [done|]. set_solver.
    + intros id' node1 [->|Hin]%elem_of_cons Ha' Hn'.
      * exists node'. rewrite Hoth by set_solver. simpl. rewrite lookup_insert_eq. naive_solver.
      * apply Hact; [done..|]. simpl. rewrite lookup_insert_ne; [done|]. by intros ->.
    + intros v. simpl. rewrite elem_of_cons, Hvotes. set_solver.
Qed.
Lemma collect_votes_Ok ids c votes c' :
  NoDup ids → collect_votes block ids c = (Ok votes, c') → voted ids c c' votes.
Proof.
  intros Hnd (vs & c1 & Hm & Hr)%bind_Ok. injection Hr as <- <-. by apply mapM_votes.
Qed.

(** A certificate means unanimity: when [finalize_block] returns one,
    every active validator accepted the block and moved to the state it leads
    to, slashed validators did not move, and the signers are exactly the
    active validators. *)
Theorem finalized_by_all c cert c' :
  finalize_block block c = (Ok cert, c') →
  (∀ id node, id ∈ active_set c → cl_validators c !! id = Some node →
     ∃ node', cl_validators c' !! id = Some node' ∧
       apply_block block (vn_state node) = (Ok (), vn_state node')) ∧
  (∀ id, id ∉ active_set c → cl_validators c' !! id = cl_validators c !! id) ∧
  list_to_set (fc_signers cert) = active_set c ∧
  fc_height cert = hdr_height (blk_header block) ∧ fc_block_hash cert = block_hash block.
Proof.
  unfold finalize_block, bind at 1, gets. intros Hrun.
  apply bind_Ok in Hrun as (u & c1 & Hu & Hrun). apply lift_Ok in Hu as [_ ->].
  apply bind_Ok in Hrun as (votes & c2 & Hvotes & Hcert). unfold id in *.
  apply collect_votes_Ok in Hvotes as [Hsl Hdom Hoth Hact Hvs]; [|apply NoDup_keys].
  assert (∀ v, v ∈ active_set c → v ∈ keys (cl_validators c)) as Hkeys.
  { intros v [Hv _]%elem_of_active. by apply elem_of_keys. }
  unfold certificate_from_active_votes in Hcert. destruct (detect_equivocation votes).
  { apply bind_Ok in Hcert as (? & ? & _ & ?). done. }
  injection Hcert as Hcert <-. unfold certificate_from_votes in Hcert.
  destruct (detect_equivocation _); [done|]. simplify_ok. subst cert. simpl. split_and!; [| | |done..].
  - intros v node Ha Hn. destruct (Hact v node) as (node' & Hva & Hn'); [auto|done..|]. exists node'. split; [done|].
    unfold validate_and_apply in Hva. destruct (_ <? _); [done|].
    destruct (apply_block block (vn_state node)) as [[[]| | |] s'] eqn:Hab; [|done..].
    by injection Hva as <-.
  - intros v Hv. apply Hoth. by intros [_ ?].
  - apply set_eq. intros v. rewrite elem_of_list_to_set, elem_of_set_iter. unfold votes_for.
    rewrite elem_of_list_to_set, list_elem_of_fmap. setoid_rewrite list_elem_of_filter.
    setoid_rewrite list_elem_of_filter. setoid_rewrite Hvs. split.
    + intros (w & -> & _ & _ & id' & -> & _ & ?). done.
    + intros Hv. exists (vote_of v). split_and!; try done; [|by exists v; auto]. simpl.
      apply elem_of_active in Hv as [_ Hv]. unfold is_slashed in *. by rewrite Hsl.
Qed.

(** When every active validator accepts the block, the votes are collected
    and make a certificate. *)
Lemma mapM_votes_runs ids c :
  NoDup ids →
  (∀ id node, id ∈ ids → id ∈ active_set c → cl_validators c !! id = Some node →
     ∃ node', validate_and_apply block node = (Ok (), node')) →
  ∃ vs c', mapM (validator_vote block) ids c = (Ok vs, c').
Proof.
  intros Hnd. revert c. induction Hnd as [|id ids Hni Hnd IH]; intros c Hall; [by eexists _, _|].
  assert (∃ y c1, validator_vote block id c = (Ok y, c1)) as (y & c1 & Hv).
  { unfold validator_vote. destruct (cl_validators c !! id) as [node|] eqn:Hn; [|by eexists _, _].
    destruct (is_slashed c id) eqn:Hs; [by eexists _, _|].
    destruct (Hall id node) as [node' ->]; [left|by apply elem_of_active; rewrite Hn|done|]. by eexists _, _. }
  simpl. unfold bind at 1. rewrite Hv.
  assert (∀ id' node, id' ∈ ids → id' ∈ active_set c1 → cl_validators c1 !! id' = Some node →
    ∃ node', validate_and_apply block node = (Ok (), node')) as Hall1.
  { apply validator_vote_Ok in Hv as [(_ & _ & ->)|(_ & node & node' & Hn & _ & _ & ->)].
    - intros id' node Hin. apply Hall. by right.
    - intros id' node1 Hin Ha Hl. cbn [set_validators cl_validators] in Hl.
      rewrite lookup_insert_ne in Hl by congruence. apply (Hall id' node1); [by right| |done].
      unfold active_set in *. cbn [set_validators cl_validators cl_slashing_records] in Ha.
      rewrite dom_insert_lookup_L in Ha by eauto. done. }
  destruct (IH c1 Hall1) as (vs & c' & Hm). unfold bind. rewrite Hm. by eexists _, _.
Qed.
Lemma own_votes_consistent votes :
  (∀ v, v ∈ votes → ∃ id, v = vote_of id) → detect_equivocation votes = None.
Proof.
  intros Hv. unfold detect_equivocation. pose proof (detect_from_spec votes ∅) as Hs.
  destruct (detect_from ∅ votes) as [ev|]; [|done].
  destruct Hs as (v & x & Hin & Hne & _ & [?|(v1 & H1 & Hc & <-)]); [done|].
  destruct (Hv v Hin) as [? ->], (Hv v1 H1) as [? ->]. done.
Qed.
Lemma quorum_for_le n : (quorum_for n ≤ n)%nat.
Proof.
  destruct n as [|n]; [done|]. unfold quorum_for.
  assert (S n * 2 / 3 < S n)%nat; [apply Nat.Div0.div_lt_upper_bound; lia|lia].
Qed.
Lemma votes_for_own votes (V : gset string) :
  (∀ v, v ∈ votes ↔ ∃ id, v = vote_of id ∧ id ∈ V) →
  votes_for (hdr_height (blk_header block)) (block_hash block) votes = V.
Proof.
  intros Hv. apply set_eq. intros x. unfold votes_for. rewrite elem_of_list_to_set, list_elem_of_fmap.
  setoid_rewrite list_elem_of_filter. setoid_rewrite Hv. split.
  - intros (v & -> & _ & id & -> & Hid). done.
  - intros Hx. exists (vote_of x). split_and!; [done..|by exists x].
Qed.
Lemma finalize_runs c :
  cluster_ok c → is_slashed c (hdr_proposer (blk_header block)) = false → active_set c ≠ ∅ →
  (∀ id node, id ∈ active_set c → cl_validators c !! id = Some node →
     ∃ node', validate_and_apply block node = (Ok (), node')) →
  ∃ cert c', finalize_block block c = (Ok cert, c') ∧
    cert = {| fc_height := hdr_height (blk_header block); fc_block_hash := block_hash block;
              fc_signers := set_iter (active_set c) |} ∧
    cluster_verify_finality_certificate c' cert (hdr_height (blk_header block)) (block_hash block) = Ok () ∧
    (∀ id node, id ∈ active_set c → cl_validators c !! id = Some node →
       ∃ node', validate_and_apply block node = (Ok (), node') ∧ cl_validators c' !! id = Some node') ∧
    (∀ id, id ∉ active_set c → cl_validators c' !! id = cl_validators c !! id).
Proof.
  intros Hok Hsl Hne Hall.
  destruct (mapM_votes_runs (keys (cl_validators c)) c (NoDup_keys _)) as (vs & c' & Hm); [by eauto|].
  pose proof (mapM_votes _ _ _ _ (NoDup_keys _) Hm) as [Hs Hd Ho Ha Hv].
  assert (Hkeys : ∀ v, v ∈ active_set c → v ∈ keys (cl_validators c)).
  { intros v [Hv' _]%elem_of_active. by apply elem_of_keys. }
  assert (Hset : active_set c' = active_set c) by (unfold active_set; by rewrite Hs, Hd).
  assert (Hok' : cluster_ok c').
  { destruct Hok as [H1 H2]. split; [by rewrite Hs, Hd|]. intros Hemp.
    rewrite Hemp, dom_empty_L in Hd. symmetry in Hd. by apply dom_empty_iff_L in Hd. }
  assert (Hmine : ∀ v, v ∈ concat vs ↔ ∃ id, v = vote_of id ∧ id ∈ active_set c) by (intros v; rewrite Hv; naive_solver).
  assert (Hcert : certificate_from_active_votes (hdr_height (blk_header block)) (block_hash block) (concat vs) c'
    = (Ok {| fc_height := hdr_height (blk_header block); fc_block_hash := block_hash block;
             fc_signers := set_iter (active_set c) |}, c')).
  { unfold certificate_from_active_votes. rewrite own_votes_consistent by (intros v (id & -> & _)%Hmine; eauto).
    set (active_votes := filter _ _).
    assert (Hact : ∀ v, v ∈ active_votes ↔ ∃ id, v = vote_of id ∧ id ∈ active_set c).
    { intros v. unfold active_votes. rewrite list_elem_of_filter, Hmine. split; [naive_solver|].
      intros (id & -> & Hid). split; [|eauto]. rewrite <- Hset in Hid. by apply elem_of_active in Hid as [_ Hid]. }
    unfold certificate_from_votes. rewrite own_votes_consistent by (intros v (id & -> & _)%Hact; eauto).
    rewrite (votes_for_own _ _ Hact). unfold quorum. rewrite active_count, Hset by done.
    rewrite (proj2 (Nat.ltb_ge _ _)) by apply quorum_for_le. done. }
  eexists _, c'. split; [|split; [reflexivity|]].
  - unfold finalize_block, bind at 1, gets, id. unfold bind at 1, lift. rewrite Hsl. cbn [negb ensure].
    unfold bind at 1, collect_votes, bind. rewrite Hm. unfold ret. exact Hcert.
  - split_and!.
    + eapply certificate_verifies; [done|by rewrite Hset| |exact Hcert].
      intros v (id & -> & Hid)%Hmine. rewrite <- Hset in Hid. by apply elem_of_active in Hid as [? _].
    + eauto.
    + intros id Hid. apply Ho. by intros [_ ?].
Qed.

(** [finalize_block] is not atomic across the cluster: when a validator
    rejects the block, the call fails, but the validators that come before it
    in id order have already applied the block and keep the new state, so the
    cluster's states have diverged. *)
Theorem finalize_partial c v1 v2 node1 node1' node2 e node2' :
  keys (cl_validators c) = [v1; v2] → cl_slashing_records c = ∅ →
  cl_validators c !! v1 = Some node1 → cl_validators c !! v2 = Some node2 →
  validate_and_apply block node1 = (Ok (), node1') →
  validate_and_apply block node2 = (Err e, node2') →
  ∃ c', finalize_block block c = (Err (InvalidBlock v2 e), c') ∧
    cl_validators c' !! v1 = Some node1' ∧ cl_validators c' !! v2 = Some node2'.
Proof.
  intros Hk Hs H1 H2 Ha1 Ha2. unfold finalize_block, bind at 1, gets, id.
  assert (v1 ≠ v2) as Hne.
  { intros ->. pose proof (NoDup_keys (cl_validators c)) as Hnd. rewrite Hk in Hnd.
    apply NoDup_cons in Hnd as [Hni _]. set_solver. }
  assert (∀ v, is_slashed c v = false) as Hsl by (intros v; unfold is_slashed; by rewrite Hs).
  unfold bind, lift, collect_votes. rewrite Hsl, Hk. simpl. unfold bind, validator_vote at 1.
  rewrite H1, Hsl, Ha1. unfold validator_vote; simpl. rewrite lookup_insert_ne, H2 by done.
  unfold is_slashed in *; simpl. rewrite Hsl, Ha2.
  eexists. split; [done|]. simpl. rewrite lookup_insert_eq, lookup_insert_ne, lookup_insert_eq by done. done.
Qed.
End finalize.

(** C24. A block proposed for the next height by an active validator of a
    cluster whose active validators are filed under their ids and are in one
    state, and whose transactions fit their resource limits and the default
    one, is finalized: every active validator executes it, reaches the state the proposer computed and stores the block under
    that height; the certificate names exactly the active validators and
    passes the cluster's own verification; slashed validators do not move. *)
Theorem proposed_block_finalized `{Host} c s proposer txs t :
  cluster_ok c → proposer ∈ active_set c →
  (∀ id node, id ∈ active_set c → cl_validators c !! id = Some node →
     vn_validator_id node = id ∧ vn_state node = s ∧
     block_resource_units txs ≤ vn_block_resource_limit node) →
  block_resource_units txs ≤ DEFAULT_BLOCK_RESOURCE_LIMIT →
  let h := height s + 1 in
  ∃ b s' cert c',
    cluster_propose_block c proposer h txs t = Ok b ∧
    hdr_height (blk_header b) = h ∧ hdr_proposer (blk_header b) = proposer ∧
    hdr_previous_block_hash (blk_header b) = finalized_block_hash s ∧ blk_transactions b = txs ∧
    (∃ ws, apply_transactions txs (set_height h s) = (Ok (blk_receipts b), ws) ∧
       s' = set_finalized_block_hash (block_hash b) ws) ∧
    finalize_block b c = (Ok cert, c') ∧
    cert = {| fc_height := h; fc_block_hash := block_hash b; fc_signers := set_iter (active_set c) |} ∧
    cluster_verify_finality_certificate c' cert h (block_hash b) = Ok () ∧
    (∀ id, id ∈ active_set c → ∃ node', cl_validators c' !! id = Some node' ∧
       vn_state node' = s' ∧ vn_blocks node' !! h = Some b) ∧
    (∀ id, id ∉ active_set c → cl_validators c' !! id = cl_validators c !! id).
Proof.
  intros Hok Hp Hnodes Hlim h. pose proof Hp as [[node Hn] Hs]%elem_of_active.
  destruct (Hnodes proposer node Hp Hn) as (Hid & Hst & _).
  set (certificate := "sim-cert:" +:+ proposer +:+ ":" +:+ pretty h).
  destruct (build_applies s h txs t proposer certificate Hlim) as (b & s' & Hb & Happ).
  pose proof (build_block_shape _ _ _ _ _ _ _ _ Hb) as (Hh & Hpr & Hprev & Htx & ws & Hrun & Hs').
  assert (Hva : ∀ id node, id ∈ active_set c → cl_validators c !! id = Some node →
    ∃ node', validate_and_apply b node = (Ok (), node') ∧ vn_state node' = s' ∧ vn_blocks node' !! h = Some b).
  { intros id node1 Ha Hl. destruct (Hnodes id node1 Ha Hl) as (_ & Hst1 & Hu).
    unfold validate_and_apply. rewrite Htx, Hst1, (proj2 (N.ltb_ge _ _)) by done. rewrite Happ.
    eexists. split_and!; [done..|]. simpl. by rewrite Hh, lookup_insert_eq. }
  destruct (finalize_runs b c) as (cert & c' & Hf & Hcert & Hver & Hact & Hoth); [done|by rewrite Hpr|set_solver| |].
  { intros id node1 Ha Hl. destruct (Hva id node1 Ha Hl) as (node' & ? & _). eauto. }
  rewrite Hh in Hcert, Hver. exists b, s', cert, c'. split_and!; try done.
  - unfold cluster_propose_block. rewrite Hn. cbn [ok_or outcome_bind]. rewrite Hs. cbn [negb ensure outcome_bind].
    unfold propose_block. rewrite Hid, Hst. fold certificate. by rewrite Hb.
  - eauto.
  - intros id Ha. pose proof Ha as [[node1 Hl] _]%elem_of_active.
    destruct (Hact id node1 Ha Hl) as (node' & Hv & Hl'). exists node'. split; [done|].
    destruct (Hva id node1 Ha Hl) as (node2 & Hv2 & ?). rewrite Hv in Hv2. by injection Hv2 as <-.
Qed.

(** ** Validator-set updates *)
Lemma dom_delete_all {A} (m : gmap string A) ids :
  dom (foldl (λ m id, delete id m) m ids) = dom m ∖ list_to_set ids.
Proof.
  revert m. induction ids as [|id ids IH]; intros m; simpl; [set_solver|].
  rewrite IH, dom_delete_L. set_solver.
Qed.
Lemma dom_insert_all `{Host} (m : gmap string ValidatorNode) l :
  dom (foldl (λ nodes '(id, state), <[id := validator_node_new id state]> nodes) m l)
  = list_to_set l.*1 ∪ dom m.
Proof.
  revert m. induction l as [|[id st] l IH]; intros m; simpl; [set_solver|].
  rewrite IH, dom_insert_L. set_solver.
Qed.
Lemma check_removed_Ok c seen ids u :
  check_removed c seen ids = Ok u →
  NoDup ids ∧ list_to_set ids ⊆ dom (cl_validators c) ∖ seen.
Proof.
  revert seen. induction ids as [|id ids IH]; intros seen; simpl; [split; [constructor|set_solver]|].
  intros. simplify_ok.
  match goal with H : check_removed _ _ _ = _ |- _ => apply IH in H as [Hnd Hsub] end. split.
  - constructor; [|done]. intros Hin. assert (id ∈ (list_to_set ids : gset string)) by set_solver. set_solver.
  - apply union_subseteq. split; [|set_solver]. apply singleton_subseteq_l, elem_of_difference.
    split; [by apply elem_of_dom|done].
Qed.
Lemma size_removed (X : gset string) ids :
  NoDup ids → list_to_set ids ⊆ X → size (X ∖ list_to_set ids) = (size X - length ids)%nat.
Proof. intros Hnd Hsub. rewrite size_difference by done. by rewrite size_list_to_set. Qed.
Lemma update_nonempty `{Host} c update :
  validate_validator_set_update c update = Ok () → updated_validators update (cl_validators c) ≠ ∅.
Proof.
  unfold validate_validator_set_update. intros. simplify_ok. rewrite Nat.eqb_neq in *.
  match goal with H : check_removed _ _ _ = _ |- _ => apply check_removed_Ok in H as [Hnd Hsub] end.
  rewrite difference_empty_L in Hsub. intros Hemp. apply (f_equal dom) in Hemp. revert Hemp.
  unfold updated_validators. rewrite dom_insert_all, dom_delete_all, dom_empty_L. intros Hemp.
  destruct (vsu_add_validators update) as [|[id st] l]; [|set_solver]. simpl in *.
  rewrite union_empty_l_L in Hemp. apply (f_equal size) in Hemp.
  rewrite size_removed, size_dom, size_empty in Hemp by done. lia.
Qed.

Lemma record_equivocation_ok c ev : cluster_ok c → cluster_ok (record_equivocation ev c).2.
Proof.
  intros [Hs Hn]. unfold record_equivocation.
  destruct (cl_validators c !! ee_validator_id ev) eqn:Hv; [|by split].
  destruct (cl_slashing_records c !! _); [by split|]. split; simpl; [|done].
  rewrite dom_insert_L. apply elem_of_dom_2 in Hv. set_solver.
Qed.
Lemma certificate_ok c h hash votes :
  cluster_ok c → cluster_ok (certificate_from_active_votes h hash votes c).2.
Proof.
  intros Hok. unfold certificate_from_active_votes.
  destruct (detect_equivocation votes) as [ev|]; [|done]. pose proof (record_equivocation_ok c ev Hok).
  unfold bind. by destruct (record_equivocation ev c) as [[] ?].
Qed.
Lemma insert_nodes_dom `{Host} l m m' : insert_nodes m l = Ok m' → dom m ⊆ dom m'.
Proof.
  revert m. induction l as [|[i s] l IH]; simpl; intros m; [by intros [= <-]|].
  case_decide; [done|]. intros Hm%IH. rewrite dom_insert_L in Hm. set_solver.
Qed.
Lemma cluster_new_ok `{Host} validators c : cluster_new validators = Ok c → cluster_ok c.
Proof.
  destruct validators as [|[id st] l]; simpl; [done|].
  rewrite decide_False by (rewrite lookup_empty; by intros []). intros. simplify_ok. subst.
  split; simpl; [set_solver|]. intros ->.
  match goal with H : insert_nodes _ _ = _ |- _ => apply insert_nodes_dom in H as Hd end.
  rewrite dom_insert_L, dom_empty_L in Hd. set_solver.
Qed.
Lemma finalize_ok `{Host} block c cert c' :
  cluster_ok c → finalize_block block c = (Ok cert, c') → cluster_ok c'.
Proof.
  intros Hok. unfold finalize_block, bind at 1, gets, id. intros Hrun.
  apply bind_Ok in Hrun as (u & c1 & Hu & Hrun). apply lift_Ok in Hu as [_ ->].
  apply bind_Ok in Hrun as (votes & c2 & Hvotes & Hc).
  apply collect_votes_Ok in Hvotes as [Hsl Hdom _ _ _]; [|apply NoDup_keys].
  assert (cluster_ok c2) as Hok2.
  { destruct Hok as [Hs Hn]. split; [by rewrite Hsl, Hdom|]. intros Hemp.
    rewrite Hemp, dom_empty_L in Hdom. symmetry in Hdom. by apply dom_empty_iff_L in Hdom. }
  apply (certificate_ok _ (hdr_height (blk_header block)) (block_hash block) votes) in Hok2.
  by rewrite Hc in Hok2.
Qed.
Lemma update_ok `{Host} c update cert :
  cluster_ok c → cluster_ok (apply_validator_set_update update cert c).2.
Proof.
  intros Hok. unfold apply_validator_set_update.
  match goal with |- context [match ?o with Ok _ => _ | _ => _ end] => destruct o as [[]| | |] eqn:Hval end;
    [|done..].
  simplify_ok. split; simpl; [|by apply update_nonempty]. destruct Hok as [Hs _].
  unfold updated_validators. rewrite dom_insert_all, !dom_delete_all. set_solver.
Qed.

(** Slashed validators are always members of a non-empty validator set
    (so the subtraction in [active_validator_count] does not underflow): this
    holds of a new cluster and is kept by recording equivocations, by making
    certificates, by finalizing blocks and by validator-set updates. *)
Theorem cluster_invariant `{Host} :
  (∀ validators c, cluster_new validators = Ok c → cluster_ok c) ∧
  ∀ c, cluster_ok c →
    (∀ ev, cluster_ok (record_equivocation ev c).2) ∧
    (∀ h hash votes, cluster_ok (certificate_from_active_votes h hash votes c).2) ∧
    (∀ block cert c', finalize_block block c = (Ok cert, c') → cluster_ok c') ∧
    (∀ update cert, cluster_ok (apply_validator_set_update update cert c).2).
Proof.
  split; [apply cluster_new_ok|]. intros c Hok.
  split_and!; eauto using record_equivocation_ok, certificate_ok, finalize_ok, update_ok.
Qed.

(** A certificate is not bound to the update it authorises: the signers of
    any finality certificate the cluster accepts, for any block at any height,
    suffice to apply any well-formed validator-set update not applied before. *)
Theorem certificate_authorises_any_update `{Host} c cert h hash update :
  cluster_verify_finality_certificate c cert h hash = Ok () →
  vsu_update_id update ∉ cl_applied_validator_set_updates c →
  validate_validator_set_update c update = Ok () →
  ∃ c', apply_validator_set_update update cert c = (Ok (), c') ∧
    cl_validators c' = updated_validators update (cl_validators c).
Proof.
  unfold cluster_verify_finality_certificate. intros Hv Hni Hval. simplify_ok.
  match goal with H : verify_finality_certificate _ _ _ _ _ = _ |- _ =>
    apply verify_finality_Ok in H as (_ & _ & _ & _ & Hsub & Hq) end.
  unfold apply_validator_set_update. rewrite bool_decide_eq_false_2 by done. simpl.
  unfold require_active_quorum. rewrite (proj2 (check_signers_Ok c _ ())) by done. simpl.
  rewrite (proj2 (Nat.ltb_ge _ _)) by done. simpl. rewrite Hval. by eexists.
Qed.
