(* ===== verification/Protocol.v ===== *)
(** * Protocol: frames, signed validator messages and snapshot chunks

    crates/detta-protocol/src/lib.rs.  serde_json and Ed25519 are the
    operations of the class [Wire]; what the theorems need of them is stated
    by [WireLaws]. *)
From S2P Require Import Prelude Effects Merkle Types State AspectClosure Block Consensus.

Definition PROTOCOL_MAGIC : list byte := bytes_of_string "DTTA".
Definition CURRENT_PROTOCOL_VERSION : N := 1.
Definition MIN_SUPPORTED_PROTOCOL_VERSION : N := CURRENT_PROTOCOL_VERSION.
Definition HEADER_LEN : nat := 10.
Definition MAX_PAYLOAD_LEN : N := 16 * 1024 * 1024.
Definition VALIDATOR_SIGNATURE_PREFIX : string := "detta.validator.protocol.v1".
Definition u32_max : N := 4294967295.

Inductive ValidatorSignatureDomain :=
| DomainBlockProposal | DomainVote | DomainFinalityCertificate | DomainValidatorSetUpdate
| DomainEquivocationEvidence | DomainValidatorSetMetadataUpdate.
#[export] Instance Domain_eq_dec : EqDecision ValidatorSignatureDomain.
Proof. solve_decision. Defined.
Record ValidatorPublicKey := {
  vpk_validator_id : string; vpk_key_id : string; vpk_public_key_hex : string;
}.
Record ValidatorSetMetadata := {
  vmd_network_id : string; vmd_chain_id : string; vmd_validators : list ValidatorPublicKey;
  vmd_applied_updates : list string;
}.
Record ValidatorSetMetadataUpdate := {
  vsm_update_id : string; vsm_add_validators : list ValidatorPublicKey;
  vsm_remove_validators : list string; vsm_expires_at_height : option N;
}.
Record SnapshotChunkRequest := {
  scr_snapshot_root : string; scr_start_index : N; scr_max_chunks : N;
}.
Record SnapshotChunkManifest := {
  scm_snapshot_root : string; scm_snapshot_hash : string; scm_metadata_roots : gmap string string;
  scm_chunk_size : N; scm_total_bytes : N; scm_chunk_count : N; scm_chunk_hashes : list string;
  scm_chunk_root : string;
}.
Record SnapshotChunk := {
  sc_manifest_hash : string; sc_index : N; sc_bytes : list byte; sc_chunk_hash : string;
}.
Record SnapshotChunkSet := { scs_manifest : SnapshotChunkManifest; scs_chunks : list SnapshotChunk }.
Inductive PeerRole := RoleValidator | RoleFullNode | RoleArchiveNode | RoleLightClient | RoleRelayer.
#[export] Instance PeerRole_eq_dec : EqDecision PeerRole.
Proof. solve_decision. Defined.
Definition role_code (r : PeerRole) : N :=
  match r with
  | RoleValidator => 0 | RoleFullNode => 1 | RoleArchiveNode => 2 | RoleLightClient => 3
  | RoleRelayer => 4
  end.
Definition role_decode (n : N) : PeerRole :=
  match n with
  | 0 => RoleValidator | 1 => RoleFullNode | 2 => RoleArchiveNode | 3 => RoleLightClient
  | _ => RoleRelayer
  end.
#[export] Instance PeerRole_countable : Countable PeerRole.
Proof. refine (inj_countable' role_code role_decode _). by intros []. Defined.
Record PeerHello := {
  hello_peer_id : string; hello_network_id : string; hello_protocol_version : N;
  hello_min_protocol_version : N; hello_roles : gset PeerRole;
}.
Inductive ProtocolMessage :=
| MsgTransaction (tx : Transaction)
| MsgBlock (block : Block)
| MsgVote (vote : Vote)
| MsgFinalityCertificate (certificate : FinalityCertificate)
| MsgValidatorSetUpdate (update : ValidatorSetUpdate)
| MsgEquivocationEvidence (evidence : EquivocationEvidence)
| MsgStateSnapshot (snapshot : StateSnapshot)
| MsgPeerHello (hello : PeerHello)
| MsgSignedValidator (signed : SignedValidatorMessage)
| MsgSnapshotChunkRequest (request : SnapshotChunkRequest)
| MsgSnapshotChunkManifest (manifest : SnapshotChunkManifest)
| MsgSnapshotChunk (chunk : SnapshotChunk)
| MsgValidatorSetMetadataUpdate (update : ValidatorSetMetadataUpdate)
with SignedValidatorMessage :=
| signed_validator_message (signer key_id network_id chain_id : string)
    (domain : ValidatorSignatureDomain) (message : ProtocolMessage) (signature_hex : string).
Inductive ProtocolMessageKind :=
| KindTransaction | KindBlock | KindVote | KindFinalityCertificate | KindValidatorSetUpdate
| KindEquivocationEvidence | KindStateSnapshot | KindPeerHello | KindSignedValidator
| KindSnapshotChunkRequest | KindSnapshotChunkManifest | KindSnapshotChunk
| KindValidatorSetMetadataUpdate.
Definition kind (message : ProtocolMessage) : ProtocolMessageKind :=
  match message with
  | MsgTransaction _ => KindTransaction
  | MsgBlock _ => KindBlock
  | MsgVote _ => KindVote
  | MsgFinalityCertificate _ => KindFinalityCertificate
  | MsgValidatorSetUpdate _ => KindValidatorSetUpdate
  | MsgValidatorSetMetadataUpdate _ => KindValidatorSetMetadataUpdate
  | MsgEquivocationEvidence _ => KindEquivocationEvidence
  | MsgStateSnapshot _ => KindStateSnapshot
  | MsgPeerHello _ => KindPeerHello
  | MsgSignedValidator _ => KindSignedValidator
  | MsgSnapshotChunkRequest _ => KindSnapshotChunkRequest
  | MsgSnapshotChunkManifest _ => KindSnapshotChunkManifest
  | MsgSnapshotChunk _ => KindSnapshotChunk
  end.
Inductive ProtocolError :=
| TruncatedHeader (actual : N)
| BadMagic (actual : list byte)
| UnsupportedVersion (actual : N)
| PayloadTooLarge (actual max : N)
| PayloadLengthOverflow (actual : N)
| LengthMismatch (declared actual : N)
| EncodeFailed
| DecodeFailed.
Inductive SignatureError :=
| UnsupportedMessageKind (kind : ProtocolMessageKind)
| DomainMismatch (expected actual : ValidatorSignatureDomain)
| NetworkMismatch (expected actual : string)
| SigChainMismatch (expected actual : string)
| SignerMismatch (expected actual : string)
| KeyIdMismatch (expected actual : string)
| MessageSignerMismatch (expected actual : string)
| InvalidPublicKey
| InvalidSignatureEncoding
| InvalidSignature
| SigEncodeFailed.
Inductive SnapshotSyncError :=
| InvalidChunkSize
| SyncEncodeFailed
| SyncDecodeFailed
| ManifestChunkCountMismatch (declared actual : N)
| ManifestHashMismatch (expected actual : string)
| ChunkHashMismatch (index : N)
| ChunkRootMismatch (expected actual : string)
| DuplicateChunk (index : N)
| MissingChunk (index : N)
| UnexpectedChunk (index chunk_count : N)
| TotalBytesMismatch (expected actual : N)
| SnapshotHashMismatch (expected actual : string)
| SnapshotRootMismatch (expected actual : string)
| MetadataRootMismatch (key expected : string) (actual : option string)
| InvalidSnapshot (error : SnapshotError).

(** ** Code outside the repository

    [serde_json::to_vec] and [from_slice] at the types of the protocol, and
    the keys and signatures of ed25519-dalek. *)
Class Wire := {
  to_vec_message : ProtocolMessage → option (list byte);
  from_slice_message : list byte → option ProtocolMessage;
  to_vec_snapshot : StateSnapshot → option (list byte);
  from_slice_snapshot : list byte → option StateSnapshot;
  to_vec_manifest : SnapshotChunkManifest → option (list byte);
  to_vec_hashes : list string → option (list byte);
  SigningKey : Type;
  verifying_key : SigningKey → list byte;
  sign : SigningKey → list byte → list byte;
  valid_key : list byte → bool;
  verify_signature : list byte → list byte → list byte → bool;
}.
(** Deserialization inverts serialization; a signature verifies under the key
    of its signer; keys and signatures have their fixed lengths. *)
Class WireLaws `{Wire} : Prop := {
  message_json m bytes : to_vec_message m = Some bytes → from_slice_message bytes = Some m;
  snapshot_json s bytes : to_vec_snapshot s = Some bytes → from_slice_snapshot bytes = Some s;
  verifying_key_length k : length (verifying_key k) = 32%nat;
  verifying_key_valid k : valid_key (verifying_key k) = true;
  signature_length k p : length (sign k p) = 64%nat;
  signature_verifies k p : verify_signature (verifying_key k) p (sign k p) = true;
}.

(** ** Handshake *)
Definition hello_new (peer_id network_id : string) (roles : list PeerRole) : PeerHello :=
  {| hello_peer_id := peer_id; hello_network_id := network_id;
     hello_protocol_version := CURRENT_PROTOCOL_VERSION;
     hello_min_protocol_version := MIN_SUPPORTED_PROTOCOL_VERSION; hello_roles := list_to_set roles |}.
Definition with_protocol_window (peer_id network_id : string) (min_protocol_version protocol_version : N)
    (roles : list PeerRole) : PeerHello :=
  {| hello_peer_id := peer_id; hello_network_id := network_id;
     hello_protocol_version := protocol_version;
     hello_min_protocol_version := min_protocol_version; hello_roles := list_to_set roles |}.
Definition negotiate_protocol_version (local remote : PeerHello) : option N :=
  if (hello_protocol_version local <? hello_min_protocol_version local)
     || (hello_protocol_version remote <? hello_min_protocol_version remote) then None else
  let min_common := N.max (hello_min_protocol_version local) (hello_min_protocol_version remote) in
  let max_common := N.min (hello_protocol_version local) (hello_protocol_version remote) in
  if min_common <=? max_common then Some max_common else None.

(** ** Frames *)
(** [to_be_bytes] and [from_be_bytes] of the unsigned integers, by width. *)
Fixpoint to_be_bytes (width : nat) (n : N) : list byte :=
  match width with
  | O => []
  | S width => to_be_bytes width (n / 256) ++ [byte_of n]
  end.
Definition from_be_bytes (bytes : list byte) : N :=
  foldl (λ n b, n * 256 + Byte.to_N b) 0 bytes.
Definition len_N {A} (l : list A) : N := N.of_nat (length l).
Definition encode_payload (version : N) (payload : list byte) : outcome ProtocolError (list byte) :=
  do* ensure (len_N payload <=? MAX_PAYLOAD_LEN) (PayloadTooLarge (len_N payload) MAX_PAYLOAD_LEN) in
  do* ensure (len_N payload <=? u32_max) (PayloadLengthOverflow (len_N payload)) in
  Ok (PROTOCOL_MAGIC ++ to_be_bytes 2 version ++ to_be_bytes 4 (len_N payload) ++ payload).
Definition decode_payload (bytes : list byte) : outcome ProtocolError (list byte) :=
  do* ensure (HEADER_LEN <=? length bytes)%nat (TruncatedHeader (len_N bytes)) in
  let magic := take 4 bytes in
  do* ensure (bool_decide (magic = PROTOCOL_MAGIC)) (BadMagic magic) in
  let version := from_be_bytes (take 2 (drop 4 bytes)) in
  do* ensure (version =? CURRENT_PROTOCOL_VERSION) (UnsupportedVersion version) in
  let declared := from_be_bytes (take 4 (drop 6 bytes)) in
  do* ensure (declared <=? MAX_PAYLOAD_LEN) (PayloadTooLarge declared MAX_PAYLOAD_LEN) in
  let actual := len_N bytes - N.of_nat HEADER_LEN in
  do* ensure (declared =? actual) (LengthMismatch declared actual) in
  Ok (drop HEADER_LEN bytes).
Section messages.
Context `{Wire, Sha256}.
Definition encode_message (message : ProtocolMessage) : outcome ProtocolError (list byte) :=
  let* payload := ok_or (to_vec_message message) EncodeFailed in
  encode_payload CURRENT_PROTOCOL_VERSION payload.
Definition decode_message (bytes : list byte) : outcome ProtocolError ProtocolMessage :=
  let* payload := decode_payload bytes in
  ok_or (from_slice_message payload) DecodeFailed.
Definition message_hash (message : ProtocolMessage) : outcome ProtocolError string :=
  let* bytes := encode_message message in Ok (hex_lower (sha256 bytes)).
End messages.

(** *** Integers on the wire *)
Lemma byte_of_to_N b : byte_of (Byte.to_N b) = b.
Proof.
  unfold byte_of. rewrite N.mod_small by (pose proof (Byte.to_N_bounded b); lia). by rewrite Byte.of_to_N.
Qed.
Lemma to_N_byte_of n : Byte.to_N (byte_of n) = n mod 256.
Proof.
  unfold byte_of. destruct (Byte.of_N (n mod 256)) as [b|] eqn:Hb; [by apply Byte.to_of_N|].
  apply Byte.of_N_None_iff in Hb. pose proof (N.mod_lt n 256). lia.
Qed.
Lemma length_to_be_bytes k n : length (to_be_bytes k n) = k.
Proof. revert n. induction k as [|k IH]; intros n; simpl; [done|]. rewrite length_app, IH. simpl. lia. Qed.
Lemma from_be_snoc l b : from_be_bytes (l ++ [b]) = from_be_bytes l * 256 + Byte.to_N b.
Proof. unfold from_be_bytes. by rewrite foldl_app. Qed.
Lemma from_to_be_bytes k n : n < 256 ^ N.of_nat k → from_be_bytes (to_be_bytes k n) = n.
Proof.
  revert n. induction k as [|k IH]; intros n Hn; simpl.
  { unfold from_be_bytes. simpl in *. lia. }
  rewrite from_be_snoc, to_N_byte_of, IH.
  - pose proof (N.div_mod n 256). lia.
  - rewrite Nat2N.inj_succ, N.pow_succ_r' in Hn. apply N.Div0.div_lt_upper_bound. lia.
Qed.
Lemma to_from_be_bytes l : to_be_bytes (length l) (from_be_bytes l) = l.
Proof.
  induction l as [|b l IH] using rev_ind; [done|]. rewrite length_app, Nat.add_comm, from_be_snoc. simpl.
  pose proof (Byte.to_N_bounded b). f_equal.
  - rewrite N.div_add_l, N.div_small, N.add_0_r by lia. done.
  - f_equal. unfold byte_of. rewrite N.add_comm, N.Div0.mod_add, N.mod_small by lia. by rewrite Byte.of_to_N.
Qed.
Lemma be_bytes_inv k l : length l = k → to_be_bytes k (from_be_bytes l) = l.
Proof. intros <-. apply to_from_be_bytes. Qed.
(** A buffer of at least a header is its four fields. *)
Lemma frame_fields (bytes : list byte) :
  bytes = take 4 bytes ++ take 2 (drop 4 bytes) ++ take 4 (drop 6 bytes) ++ drop HEADER_LEN bytes.
Proof.
  rewrite <- (take_drop 4 bytes) at 1. f_equal. rewrite <- (take_drop 2 (drop 4 bytes)) at 1. f_equal.
  rewrite drop_drop. rewrite <- (take_drop 4 (drop (4 + 2) bytes)) at 1. f_equal. by rewrite drop_drop.
Qed.

Lemma frame_iff bytes payload :
  decode_payload bytes = Ok payload ↔ encode_payload CURRENT_PROTOCOL_VERSION payload = Ok bytes.
Proof.
  unfold decode_payload, encode_payload, len_N. cbv zeta. split.
  - intros Hd. simplify_ok. apply Nat.leb_le in H. rename H into Hlen. unfold HEADER_LEN in Hlen.
    assert (Hn : N.of_nat (length payload) = N.of_nat (length bytes) - N.of_nat HEADER_LEN).
    { subst payload. rewrite length_drop. unfold HEADER_LEN. lia. }
    rewrite <- H3 in Hn. rewrite Hn.
    apply outcome_bind_Ok. exists (). split; [by apply ensure_Ok, N.leb_le|].
    apply outcome_bind_Ok. exists (). split.
    { apply ensure_Ok, N.leb_le. unfold MAX_PAYLOAD_LEN, u32_max in *. lia. }
    f_equal. rewrite be_bytes_inv by (rewrite length_take, length_drop; lia).
    rewrite <- H1, be_bytes_inv by (rewrite length_take, length_drop; lia).
    rewrite <- H0. subst payload. symmetry. apply frame_fields.
  - intros He. apply outcome_bind_Ok in He as (? & Hmax%ensure_Ok%N.leb_le & He).
    apply outcome_bind_Ok in He as (? & Hu%ensure_Ok%N.leb_le & He).
    assert (bytes = PROTOCOL_MAGIC ++ to_be_bytes 2 CURRENT_PROTOCOL_VERSION ++
      to_be_bytes 4 (N.of_nat (length payload)) ++ payload) as -> by congruence.
    clear He. set (n := N.of_nat (length payload)) in *.
    assert (Hfrom : from_be_bytes (to_be_bytes 4 n) = n).
    { apply from_to_be_bytes. unfold u32_max in *. simpl. lia. }
    pose proof (length_to_be_bytes 4 n) as Hl.
    destruct (to_be_bytes 4 n) as [|b0 [|b1 [|b2 [|b3 []]]]]; try done.
    change (take 4 (drop 6 (PROTOCOL_MAGIC ++ to_be_bytes 2 CURRENT_PROTOCOL_VERSION ++
      [b0; b1; b2; b3] ++ payload))) with [b0; b1; b2; b3].
    rewrite Hfrom. repeat (apply outcome_bind_Ok; exists (); split; [apply ensure_Ok|]).
    + done.
    + done.
    + done.
    + by apply N.leb_le.
    + apply N.eqb_eq. unfold n. rewrite !length_app. simpl length. unfold HEADER_LEN. lia.
    + done.
Qed.
Lemma decode_of_encode payload bytes :
  encode_payload CURRENT_PROTOCOL_VERSION payload = Ok bytes → decode_payload bytes = Ok payload.
Proof. apply frame_iff. Qed.

(** Frames are canonical: decoding accepts exactly the buffers encoding
    produces, and returns the payload that was encoded; in particular a
    frame with a wrong magic, version or length, a truncated one, or one with
    trailing bytes is refused. *)
Theorem frame_decodes_iff_encoded bytes payload :
  decode_payload bytes = Ok payload ↔ encode_payload CURRENT_PROTOCOL_VERSION payload = Ok bytes.
Proof. apply frame_iff. Qed.

(** ** Signed validator messages *)
Definition expected_signature_domain (message : ProtocolMessage)
    : outcome SignatureError ValidatorSignatureDomain :=
  match message with
  | MsgBlock _ => Ok DomainBlockProposal
  | MsgVote _ => Ok DomainVote
  | MsgFinalityCertificate _ => Ok DomainFinalityCertificate
  | MsgValidatorSetUpdate _ => Ok DomainValidatorSetUpdate
  | MsgValidatorSetMetadataUpdate _ => Ok DomainValidatorSetMetadataUpdate
  | MsgEquivocationEvidence _ => Ok DomainEquivocationEvidence
  | other => Err (UnsupportedMessageKind (kind other))
  end.
Definition claimed_message_signer (message : ProtocolMessage) : option string :=
  match message with
  | MsgBlock block => Some (hdr_proposer (blk_header block))
  | MsgVote vote => Some (vote_validator_id vote)
  | _ => None
  end.
Definition signature_domain_name (domain : ValidatorSignatureDomain) : string :=
  match domain with
  | DomainBlockProposal => "block_proposal"
  | DomainVote => "vote"
  | DomainFinalityCertificate => "finality_certificate"
  | DomainValidatorSetUpdate => "validator_set_update"
  | DomainValidatorSetMetadataUpdate => "validator_set_metadata_update"
  | DomainEquivocationEvidence => "equivocation_evidence"
  end.
(** [expect]s the length to fit. *)
Definition push_length_prefixed (out value : list byte) : outcome SignatureError (list byte) :=
  if len_N value <=? u32_max then Ok (out ++ to_be_bytes 4 (len_N value) ++ value) else Panic.
Definition decode_hex_array (width : nat) (value : string) : option (list byte) :=
  if decide (String.length value = width * 2)%nat then hex_pairs value else None.
Record ValidatorSigningKey `{Wire} := {
  vsk_validator_id : string; vsk_key_id : string; vsk_signing_key : SigningKey;
}.
Definition sm_signer (m : SignedValidatorMessage) : string :=
  let 'signed_validator_message signer _ _ _ _ _ _ := m in signer.
Definition sm_key_id (m : SignedValidatorMessage) : string :=
  let 'signed_validator_message _ key_id _ _ _ _ _ := m in key_id.
Definition sm_network_id (m : SignedValidatorMessage) : string :=
  let 'signed_validator_message _ _ network_id _ _ _ _ := m in network_id.
Definition sm_chain_id (m : SignedValidatorMessage) : string :=
  let 'signed_validator_message _ _ _ chain_id _ _ _ := m in chain_id.
Definition sm_domain (m : SignedValidatorMessage) : ValidatorSignatureDomain :=
  let 'signed_validator_message _ _ _ _ domain _ _ := m in domain.
Definition into_message (m : SignedValidatorMessage) : ProtocolMessage :=
  let 'signed_validator_message _ _ _ _ _ message _ := m in message.
Definition sm_signature_hex (m : SignedValidatorMessage) : string :=
  let 'signed_validator_message _ _ _ _ _ _ signature_hex := m in signature_hex.
Section signatures.
Context `{Wire}.
Definition validator_signing_payload (domain : ValidatorSignatureDomain) (network_id chain_id : string)
    (message : ProtocolMessage) : outcome SignatureError (list byte) :=
  let* message_bytes := ok_or (to_vec_message message) SigEncodeFailed in
  let* payload := push_length_prefixed [] (bytes_of_string VALIDATOR_SIGNATURE_PREFIX) in
  let payload := payload ++ to_be_bytes 2 CURRENT_PROTOCOL_VERSION in
  let* payload := push_length_prefixed payload (bytes_of_string (signature_domain_name domain)) in
  let* payload := push_length_prefixed payload (bytes_of_string network_id) in
  let* payload := push_length_prefixed payload (bytes_of_string chain_id) in
  push_length_prefixed payload message_bytes.
Definition public_key (k : ValidatorSigningKey) : ValidatorPublicKey :=
  {| vpk_validator_id := vsk_validator_id k; vpk_key_id := vsk_key_id k;
     vpk_public_key_hex := hex_lower (verifying_key (vsk_signing_key k)) |}.
Definition sign_message (k : ValidatorSigningKey) (network_id chain_id : string)
    (message : ProtocolMessage) : outcome SignatureError SignedValidatorMessage :=
  let* domain := expected_signature_domain message in
  let* payload := validator_signing_payload domain network_id chain_id message in
  let signature := sign (vsk_signing_key k) payload in
  Ok (signed_validator_message (vsk_validator_id k) (vsk_key_id k) network_id chain_id domain message
        (hex_lower signature)).
Definition verify_signed (m : SignedValidatorMessage) (expected_network_id expected_chain_id : string)
    (key : ValidatorPublicKey) : outcome SignatureError () :=
  do* ensure (bool_decide (sm_network_id m = expected_network_id))
        (NetworkMismatch expected_network_id (sm_network_id m)) in
  do* ensure (bool_decide (sm_chain_id m = expected_chain_id))
        (SigChainMismatch expected_chain_id (sm_chain_id m)) in
  do* ensure (bool_decide (sm_signer m = vpk_validator_id key))
        (SignerMismatch (sm_signer m) (vpk_validator_id key)) in
  do* ensure (bool_decide (sm_key_id m = vpk_key_id key))
        (KeyIdMismatch (sm_key_id m) (vpk_key_id key)) in
  let* expected_domain := expected_signature_domain (into_message m) in
  do* ensure (bool_decide (sm_domain m = expected_domain)) (DomainMismatch expected_domain (sm_domain m)) in
  do* match claimed_message_signer (into_message m) with
      | Some claimed_signer => ensure (bool_decide (sm_signer m = claimed_signer))
          (MessageSignerMismatch claimed_signer (sm_signer m))
      | None => Ok ()
      end in
  let* public_key_bytes := ok_or (decode_hex_array 32 (vpk_public_key_hex key)) InvalidPublicKey in
  do* ensure (valid_key public_key_bytes) InvalidPublicKey in
  let* signature_bytes := ok_or (decode_hex_array 64 (sm_signature_hex m)) InvalidSignatureEncoding in
  let* payload := validator_signing_payload (sm_domain m) (sm_network_id m) (sm_chain_id m)
                    (into_message m) in
  ensure (verify_signature public_key_bytes payload signature_bytes) InvalidSignature.
End signatures.

(** A length prefix delimits its value. *)
Definition prefixed (value : list byte) : list byte := to_be_bytes 4 (len_N value) ++ value.
Lemma push_Ok out value o :
  push_length_prefixed out value = Ok o → o = out ++ prefixed value ∧ len_N value ≤ u32_max.
Proof. unfold push_length_prefixed. destruct (N.leb_spec (len_N value) u32_max); [|done]. by intros [= <-]. Qed.
Lemma prefixed_inj a b x y :
  len_N a ≤ u32_max → len_N b ≤ u32_max → prefixed a ++ x = prefixed b ++ y → a = b ∧ x = y.
Proof.
  unfold prefixed. rewrite <- !app_assoc. intros Ha Hb [Hl He]%app_inj_1; [|by rewrite !length_to_be_bytes].
  apply app_inj_1; [|done]. apply (f_equal from_be_bytes) in Hl.
  rewrite !from_to_be_bytes in Hl by (unfold u32_max in *; simpl; lia). unfold len_N in Hl. lia.
Qed.
Lemma bytes_of_string_inj a b : bytes_of_string a = bytes_of_string b → a = b.
Proof.
  intros He. apply (f_equal String.string_of_list_byte) in He.
  by rewrite !String.string_of_list_byte_of_string in He.
Qed.
Lemma domain_name_inj d d' : signature_domain_name d = signature_domain_name d' → d = d'.
Proof. by destruct d, d'. Qed.
Lemma signing_payload_Ok `{Wire} d n c m p :
  validator_signing_payload d n c m = Ok p →
  ∃ bytes, to_vec_message m = Some bytes ∧
  (len_N (bytes_of_string (signature_domain_name d)) ≤ u32_max ∧ len_N (bytes_of_string n) ≤ u32_max ∧
   len_N (bytes_of_string c) ≤ u32_max ∧ len_N bytes ≤ u32_max) ∧
  p = prefixed (bytes_of_string VALIDATOR_SIGNATURE_PREFIX) ++ to_be_bytes 2 CURRENT_PROTOCOL_VERSION ++
      prefixed (bytes_of_string (signature_domain_name d)) ++ prefixed (bytes_of_string n) ++
      prefixed (bytes_of_string c) ++ prefixed bytes ++ [].
Proof.
  unfold validator_signing_payload. intros Hp.
  apply outcome_bind_Ok in Hp as (bytes & Hb%ok_or_Ok & Hp). exists bytes. split; [done|].
  apply outcome_bind_Ok in Hp as (p1 & [-> _]%push_Ok & Hp).
  apply outcome_bind_Ok in Hp as (p2 & [-> ?]%push_Ok & Hp).
  apply outcome_bind_Ok in Hp as (p3 & [-> ?]%push_Ok & Hp).
  apply outcome_bind_Ok in Hp as (p4 & [-> ?]%push_Ok & [-> ?]%push_Ok).
  split; [done|]. by rewrite app_nil_r, <- !app_assoc.
Qed.

(** C29. The bytes a validator signs determine the domain, the network, the
    chain and the message: a signature made for one kind of message, network
    or chain is never a signature of another. *)
Theorem signing_payload_injective `{WireLaws} d n c m d' n' c' m' p :
  validator_signing_payload d n c m = Ok p → validator_signing_payload d' n' c' m' = Ok p →
  d = d' ∧ n = n' ∧ c = c' ∧ m = m'.
Proof.
  intros (b & Hb & (?&?&?&?) & ->)%signing_payload_Ok (b' & Hb' & (?&?&?&?) & Heq)%signing_payload_Ok.
  apply app_inj_1 in Heq as [_ Heq]; [|done]. apply app_inj_1 in Heq as [_ Heq]; [|done].
  apply prefixed_inj in Heq as [Hd%bytes_of_string_inj%domain_name_inj Heq]; [|done..].
  apply prefixed_inj in Heq as [Hn%bytes_of_string_inj Heq]; [|done..].
  apply prefixed_inj in Heq as [Hc%bytes_of_string_inj Heq]; [|done..].
  apply prefixed_inj in Heq as [-> _]; [|done..].
  apply message_json in Hb, Hb'. split_and!; congruence.
Qed.

Lemma decode_hex_lower k bs : length bs = k → decode_hex_array k (hex_lower bs) = Some bs.
Proof.
  intros Hk. unfold decode_hex_array. rewrite hex_lower_length.
  rewrite decide_True by lia. apply hex_pairs_lower.
Qed.
(** What a validator signs verifies under its own public key, for the
    network and chain it was signed for, provided a vote or a block it signs
    names it. *)
Theorem signed_message_verifies `{WireLaws} k network chain message signed :
  sign_message k network chain message = Ok signed →
  (∀ s, claimed_message_signer message = Some s → s = vsk_validator_id k) →
  verify_signed signed network chain (public_key k) = Ok ().
Proof.
  unfold sign_message. cbv zeta. intros Hs Hclaim.
  apply outcome_bind_Ok in Hs as (d & Hd & Hs). apply outcome_bind_Ok in Hs as (p & Hp & [= <-]).
  unfold verify_signed, public_key. cbn [sm_signer sm_key_id sm_network_id sm_chain_id sm_domain into_message
    sm_signature_hex vpk_validator_id vpk_key_id vpk_public_key_hex].
  rewrite Hd, !bool_decide_eq_true_2 by done. cbn [outcome_bind ensure].
  rewrite bool_decide_eq_true_2 by done.
  destruct (claimed_message_signer message) as [s|]; [rewrite bool_decide_eq_true_2 by (by rewrite (Hclaim s))|];
    cbn [outcome_bind ensure ok_or];
    rewrite (decode_hex_lower 32) by apply verifying_key_length; cbn [ok_or outcome_bind];
    rewrite verifying_key_valid; cbn [outcome_bind ensure];
    rewrite (decode_hex_lower 64) by apply signature_length; cbn [ok_or outcome_bind];
    rewrite Hp; cbn [outcome_bind]; by rewrite signature_verifies.
Qed.

(** ** Snapshot chunks *)
(** [<[T]>::chunks] *)
Fixpoint chunks_from {A} (fuel : nat) (size : nat) (l : list A) : list (list A) :=
  match fuel, l with
  | S fuel, _ :: _ => take size l :: chunks_from fuel size (drop size l)
  | _, _ => []
  end.
Definition chunks {A} (size : nat) (l : list A) : list (list A) := chunks_from (length l) size l.
Definition index_chunks (manifest_hash : string) (hash : list byte → string)
    (raw_chunks : list (list byte)) : list SnapshotChunk :=
  imap (λ index bytes, {| sc_manifest_hash := manifest_hash; sc_index := N.of_nat index;
                          sc_bytes := bytes; sc_chunk_hash := hash bytes |}) raw_chunks.
Section snapshot_chunks.
Context `{Host, Wire}.
Definition hash_bytes (bytes : list byte) : string := hex_lower (sha256 bytes).
Definition manifest_hash (m : SnapshotChunkManifest) : outcome SnapshotSyncError string :=
  let* bytes := ok_or (to_vec_manifest m) SyncEncodeFailed in Ok (hash_bytes bytes).
Definition chunk_root (chunk_hashes : list string) : outcome SnapshotSyncError string :=
  let* bytes := ok_or (to_vec_hashes chunk_hashes) SyncEncodeFailed in Ok (hash_bytes bytes).
Definition build_snapshot_chunks_with_metadata_roots (snapshot : StateSnapshot) (max_chunk_bytes : N)
    (metadata_roots : gmap string string) : outcome SnapshotSyncError SnapshotChunkSet :=
  do* ensure (negb (max_chunk_bytes =? 0)) InvalidChunkSize in
  do* ensure (max_chunk_bytes <=? u32_max) InvalidChunkSize in
  let chunk_size := max_chunk_bytes in
  let* snapshot_bytes := ok_or (to_vec_snapshot snapshot) SyncEncodeFailed in
  let raw_chunks := match chunks (N.to_nat max_chunk_bytes) snapshot_bytes with
                    | [] => [[]] | raw_chunks => raw_chunks end in
  let chunk_hashes := hash_bytes <$> raw_chunks in
  let* root := chunk_root chunk_hashes in
  do* ensure (len_N chunk_hashes <=? u32_max) InvalidChunkSize in
  let manifest := {| scm_snapshot_root := snap_global_state_root snapshot;
    scm_snapshot_hash := hash_bytes snapshot_bytes; scm_metadata_roots := metadata_roots;
    scm_chunk_size := chunk_size; scm_total_bytes := len_N snapshot_bytes;
    scm_chunk_count := len_N chunk_hashes; scm_chunk_hashes := chunk_hashes;
    scm_chunk_root := root |} in
  let* hash := manifest_hash manifest in
  Ok {| scs_manifest := manifest; scs_chunks := index_chunks hash hash_bytes raw_chunks |}.
Definition build_snapshot_chunks (snapshot : StateSnapshot) (max_chunk_bytes : N)
    : outcome SnapshotSyncError SnapshotChunkSet :=
  build_snapshot_chunks_with_metadata_roots snapshot max_chunk_bytes ∅.

(** The loop over the received chunks: those by index so far and their bytes. *)
Definition check_chunk (manifest : SnapshotChunkManifest) (hash : string)
    (acc : gmap N SnapshotChunk * N) (chunk : SnapshotChunk)
    : outcome SnapshotSyncError (gmap N SnapshotChunk * N) :=
  let index := sc_index chunk in
  do* ensure (bool_decide (sc_manifest_hash chunk = hash))
        (ManifestHashMismatch hash (sc_manifest_hash chunk)) in
  do* ensure (index <? scm_chunk_count manifest) (UnexpectedChunk index (scm_chunk_count manifest)) in
  do* ensure (bool_decide (acc.1 !! index = None)) (DuplicateChunk index) in
  let actual_hash := hash_bytes (sc_bytes chunk) in
  let* expected_hash := match scm_chunk_hashes manifest !! N.to_nat index with
                        | Some h => Ok h | None => Panic end in
  do* ensure (bool_decide (sc_chunk_hash chunk = actual_hash)
              && bool_decide (sc_chunk_hash chunk = expected_hash)) (ChunkHashMismatch index) in
  let total_bytes := acc.2 + len_N (sc_bytes chunk) in
  do* (if total_bytes <=? u64_max then Ok () else Panic) in
  Ok (<[index := chunk]> acc.1, total_bytes).
Definition collect_chunk (received : gmap N SnapshotChunk) (bytes : list byte) (index : N)
    : outcome SnapshotSyncError (list byte) :=
  let* chunk := ok_or (received !! index) (MissingChunk index) in
  Ok (bytes ++ sc_bytes chunk).
Definition reconstruct_snapshot (set : SnapshotChunkSet) : outcome SnapshotSyncError StateSnapshot :=
  let manifest := scs_manifest set in
  let count := scm_chunk_count manifest in
  do* ensure (bool_decide (N.to_nat count = length (scm_chunk_hashes manifest)))
        (ManifestChunkCountMismatch count (len_N (scm_chunk_hashes manifest) mod (u32_max + 1))) in
  let* expected_chunk_root := chunk_root (scm_chunk_hashes manifest) in
  do* ensure (bool_decide (scm_chunk_root manifest = expected_chunk_root))
        (ChunkRootMismatch expected_chunk_root (scm_chunk_root manifest)) in
  let* hash := manifest_hash manifest in
  let* received := fold_outcome (check_chunk manifest hash) (scs_chunks set) (∅, 0) in
  let* snapshot_bytes := fold_outcome (collect_chunk received.1)
                           (N.of_nat <$> seq 0 (N.to_nat count)) [] in
  do* ensure (received.2 =? scm_total_bytes manifest)
        (TotalBytesMismatch (scm_total_bytes manifest) received.2) in
  let snapshot_hash := hash_bytes snapshot_bytes in
  do* ensure (bool_decide (snapshot_hash = scm_snapshot_hash manifest))
        (SnapshotHashMismatch (scm_snapshot_hash manifest) snapshot_hash) in
  let* snapshot := ok_or (from_slice_snapshot snapshot_bytes) SyncDecodeFailed in
  do* ensure (bool_decide (snap_global_state_root snapshot = scm_snapshot_root manifest))
        (SnapshotRootMismatch (scm_snapshot_root manifest) (snap_global_state_root snapshot)) in
  match from_snapshot snapshot with
  | Ok _ => Ok snapshot
  | Err error => Err (InvalidSnapshot error)
  | Panic => Panic
  | OutOfFuel => OutOfFuel
  end.
Definition verify_chunks (set : SnapshotChunkSet) : outcome SnapshotSyncError () :=
  let* _ := reconstruct_snapshot set in Ok ().
Definition reconstruct_snapshot_with_metadata_roots (set : SnapshotChunkSet)
    (required_metadata_roots : gmap string string) : outcome SnapshotSyncError StateSnapshot :=
  let* snapshot := reconstruct_snapshot set in
  do* each (λ '(key, expected),
        let actual := scm_metadata_roots (scs_manifest set) !! key in
        ensure (bool_decide (actual = Some expected)) (MetadataRootMismatch key expected actual))
        (entries required_metadata_roots) in
  Ok snapshot.
Definition verify_with_metadata_roots (set : SnapshotChunkSet) (required : gmap string string)
    : outcome SnapshotSyncError () :=
  let* _ := reconstruct_snapshot_with_metadata_roots set required in Ok ().
End snapshot_chunks.

(** *** What the loops accept *)
Section chunk_facts.
Context `{Host, Wire}.
Definition valid_chunk (manifest : SnapshotChunkManifest) (hash : string) (c : SnapshotChunk) : Prop :=
  sc_manifest_hash c = hash ∧ sc_index c < scm_chunk_count manifest ∧
  sc_chunk_hash c = hash_bytes (sc_bytes c) ∧
  scm_chunk_hashes manifest !! N.to_nat (sc_index c) = Some (sc_chunk_hash c).
Definition chunk_bytes (l : list SnapshotChunk) : N := foldr (λ c n, len_N (sc_bytes c) + n) 0 l.
Definition by_index (l : list SnapshotChunk) : gmap N SnapshotChunk :=
  list_to_map ((λ c, (sc_index c, c)) <$> l).

Lemma check_chunk_Ok manifest hash acc c acc' :
  check_chunk manifest hash acc c = Ok acc' ↔
  valid_chunk manifest hash c ∧ acc.1 !! sc_index c = None ∧
  acc.2 + len_N (sc_bytes c) ≤ u64_max ∧
  acc' = (<[sc_index c := c]> acc.1, acc.2 + len_N (sc_bytes c)).
Proof.
  unfold check_chunk, valid_chunk. cbv zeta. rewrite !outcome_bind_Ok. split.
  - intros ([] & H1%ensure_Ok%bool_decide_eq_true & Hr).
    apply outcome_bind_Ok in Hr as ([] & H2%ensure_Ok%N.ltb_lt & Hr).
    apply outcome_bind_Ok in Hr as ([] & H3%ensure_Ok%bool_decide_eq_true & Hr).
    apply outcome_bind_Ok in Hr as (e & He & Hr).
    apply outcome_bind_Ok in Hr as ([] & H4%ensure_Ok & Hr).
    apply andb_true_iff in H4 as [H4%bool_decide_eq_true H5%bool_decide_eq_true].
    apply outcome_bind_Ok in Hr as ([] & H6 & [= <-]).
    destruct (scm_chunk_hashes manifest !! _) eqn:Hh; [|done]. injection He as ->.
    destruct (N.leb_spec (acc.2 + len_N (sc_bytes c)) u64_max); [|done].
    split_and!; congruence || done.
  - intros ((H1 & H2 & H3 & H4) & H5 & H6 & ->). exists (). split; [by apply ensure_Ok, bool_decide_eq_true|].
    rewrite (proj2 (N.ltb_lt _ _) H2), bool_decide_eq_true_2, H4 by done. cbn [outcome_bind ensure].
    rewrite <- H3, !bool_decide_eq_true_2 by done. cbn [outcome_bind ensure andb].
    by rewrite (proj2 (N.leb_le _ _) H6).
Qed.
Lemma by_index_cons c l : by_index (c :: l) = <[sc_index c := c]> (by_index l).
Proof. done. Qed.
Lemma by_index_None l i : (by_index l !! i = None) ↔ i ∉ sc_index <$> l.
Proof. unfold by_index. rewrite <- not_elem_of_list_to_map, <- list_fmap_compose. done. Qed.
Lemma check_chunks_Ok manifest hash l m t m' t' :
  t ≤ u64_max →
  fold_outcome (check_chunk manifest hash) l (m, t) = Ok (m', t') ↔
  Forall (valid_chunk manifest hash) l ∧ NoDup (sc_index <$> l) ∧
  (∀ c, c ∈ l → m !! sc_index c = None) ∧ m' = by_index l ∪ m ∧
  t' = t + chunk_bytes l ∧ t' ≤ u64_max.
Proof.
  revert m t. induction l as [|c l IH]; intros m t Ht; cbn [fold_outcome].
  { unfold by_index, chunk_bytes. simpl. rewrite (left_id_L ∅ (∪) m), N.add_0_r. split.
    - intros [= <- <-]. split_and!; try done; [constructor|set_solver].
    - by intros (_ & _ & _ & -> & -> & _). }
  rewrite outcome_bind_Ok. setoid_rewrite check_chunk_Ok. cbn [fst snd]. split.
  - intros (acc & (Hv & Hn & Hb & ->) & Hr). apply IH in Hr as (Hf & Hnd & Hm & -> & -> & Hu); [|done].
    assert (sc_index c ∉ sc_index <$> l).
    { intros (c' & Hi & Hc)%list_elem_of_fmap. specialize (Hm c' Hc). rewrite <- Hi, lookup_insert_eq in Hm. done. }
    split_and!; [by constructor|by constructor| | |unfold chunk_bytes in *; simpl; lia|done].
    + intros c' [->|Hc]%elem_of_cons; [done|]. by specialize (Hm c' Hc) as [? _]%lookup_insert_None.
    + rewrite by_index_cons. rewrite <- insert_union_l.
      rewrite insert_union_r; [done|]. by apply by_index_None.
  - intros (Hf & Hnd & Hm & -> & -> & Hu). apply Forall_cons in Hf as [Hc Hf]. apply NoDup_cons in Hnd as [Hni Hnd].
    unfold chunk_bytes in Hu. simpl in Hu. fold (chunk_bytes l) in Hu.
    eexists. split; [split_and!; [done|apply Hm, list_elem_of_here|lia|done]|].
    apply IH; [lia|]. split_and!; [done|done| | |unfold chunk_bytes; simpl; lia|unfold chunk_bytes in *; simpl; lia].
    + intros c' Hc'. rewrite lookup_insert_ne; [by apply Hm, list_elem_of_further|].
      intros Heq. apply Hni. rewrite Heq. by apply list_elem_of_fmap_2.
    + rewrite by_index_cons, <- insert_union_l, insert_union_r; [done|]. by apply by_index_None.
Qed.
Lemma by_index_Permutation l l' : NoDup (sc_index <$> l) → l ≡ₚ l' → by_index l = by_index l'.
Proof.
  intros Hnd Hp. apply list_to_map_proper; [by rewrite <- list_fmap_compose|by rewrite Hp].
Qed.
Lemma chunk_bytes_Permutation l l' : l ≡ₚ l' → chunk_bytes l = chunk_bytes l'.
Proof. induction 1; unfold chunk_bytes in *; simpl; lia. Qed.
End chunk_facts.

(** *** Splitting *)
Lemma chunks_from_concat {A} fuel size (l : list A) :
  (0 < size)%nat → (length l ≤ fuel)%nat → concat (chunks_from fuel size l) = l.
Proof.
  intros Hs. revert l. induction fuel as [|fuel IH]; intros [|x l] Hl; simpl in *; try done; [lia|].
  destruct size as [|size]; [lia|]. simpl. f_equal. rewrite IH; [apply take_drop|]. rewrite length_drop. lia.
Qed.
Lemma chunks_from_bound {A} fuel size (l : list A) :
  Forall (λ c, length c ≤ size)%nat (chunks_from fuel size l).
Proof.
  revert l. induction fuel as [|fuel IH]; intros [|x l]; simpl; try constructor; [|apply IH].
  apply length_take_le_inv || (rewrite length_take; lia).
Qed.
Section index_chunks.
Context (h : string) (f : list byte → string).
Definition mk_chunk (i : nat) (bytes : list byte) : SnapshotChunk :=
  {| sc_manifest_hash := h; sc_index := N.of_nat i; sc_bytes := bytes; sc_chunk_hash := f bytes |}.
Lemma elem_of_index_chunks raw c :
  c ∈ index_chunks h f raw ↔ ∃ i bytes, raw !! i = Some bytes ∧ c = mk_chunk i bytes.
Proof.
  unfold index_chunks. rewrite elem_of_lookup_imap. split; intros (i & b & H1 & H2); exists i, b; done.
Qed.
Lemma index_chunks_indices raw : sc_index <$> index_chunks h f raw = N.of_nat <$> seq 0 (length raw).
Proof.
  apply list_eq. intros i. unfold index_chunks. rewrite !list_lookup_fmap, list_lookup_imap.
  destruct (raw !! i) eqn:Hi; simpl.
  - rewrite lookup_seq_lt by (by eapply lookup_lt_Some). done.
  - by rewrite lookup_seq_ge by (by apply lookup_ge_None).
Qed.
Lemma index_chunks_NoDup raw : NoDup (sc_index <$> index_chunks h f raw).
Proof. rewrite index_chunks_indices. apply NoDup_fmap_2; [apply _|apply NoDup_seq]. Qed.
Lemma index_chunks_bytes raw : sc_bytes <$> index_chunks h f raw = raw.
Proof.
  apply list_eq. intros i. unfold index_chunks. rewrite list_lookup_fmap, list_lookup_imap.
  by destruct (raw !! i).
Qed.
End index_chunks.
Lemma chunk_bytes_concat l : chunk_bytes l = len_N (concat (sc_bytes <$> l)).
Proof.
  induction l as [|c l IH]; [done|]. unfold chunk_bytes in *. simpl. rewrite IH. unfold len_N.
  rewrite length_app, Nat2N.inj_add. done.
Qed.
Lemma chunk_bytes_bound (l : list SnapshotChunk) (n : N) :
  Forall (λ c, len_N (sc_bytes c) ≤ n) l → chunk_bytes l ≤ n * len_N l.
Proof.
  induction 1 as [|c l Hc _ IH]; [apply N.le_0_l|]. unfold chunk_bytes in *.
  change (len_N (c :: l)) with (N.of_nat (S (length l))). rewrite Nat2N.inj_succ, N.mul_succ_r.
  change (N.of_nat (length l)) with (len_N l). cbn [foldr]. lia.
Qed.
(** Collecting indices [k, k+1, ...] of an indexed list concatenates it. *)
Lemma collect_Ok received l bytes :
  (∀ i c, l !! i = Some c → received !! N.of_nat i = Some c) →
  fold_outcome (collect_chunk received) (N.of_nat <$> seq 0 (length l)) bytes
  = Ok (bytes ++ concat (sc_bytes <$> l)).
Proof.
  enough (Hg : ∀ k, (∀ i c, l !! i = Some c → received !! N.of_nat (k + i) = Some c) →
    fold_outcome (collect_chunk received) (N.of_nat <$> seq k (length l)) bytes
    = Ok (bytes ++ concat (sc_bytes <$> l))) by apply (Hg 0%nat).
  revert bytes. induction l as [|c l IH]; intros bytes k Hr; cbn [fmap list_fmap seq length fold_outcome].
  { by rewrite app_nil_r. }
  pose proof (Hr 0%nat c eq_refl) as H0. rewrite Nat.add_0_r in H0.
  unfold collect_chunk at 1. rewrite H0. cbn [ok_or outcome_bind].
  rewrite IH; [by rewrite <- app_assoc|]. intros i c' Hi. rewrite <- (Hr (S i) c' Hi). f_equal. lia.
Qed.

Section reconstruct.
Context `{Host, Wire}.
(** What a successful reconstruction has checked. *)
Lemma reconstruct_Ok set snapshot :
  reconstruct_snapshot set = Ok snapshot ↔
  let m := scs_manifest set in
  let l := scs_chunks set in
  N.to_nat (scm_chunk_count m) = length (scm_chunk_hashes m) ∧
  chunk_root (scm_chunk_hashes m) = Ok (scm_chunk_root m) ∧
  ∃ hash bytes, manifest_hash m = Ok hash ∧
  Forall (valid_chunk m hash) l ∧ NoDup (sc_index <$> l) ∧
  fold_outcome (collect_chunk (by_index l)) (N.of_nat <$> seq 0 (N.to_nat (scm_chunk_count m))) [] = Ok bytes ∧
  chunk_bytes l = scm_total_bytes m ∧ chunk_bytes l ≤ u64_max ∧
  hash_bytes bytes = scm_snapshot_hash m ∧ from_slice_snapshot bytes = Some snapshot ∧
  snap_global_state_root snapshot = scm_snapshot_root m ∧
  ∃ s, from_snapshot snapshot = Ok s.
Proof.
  cbv zeta. unfold reconstruct_snapshot. cbv zeta. split.
  - intros Hr. apply outcome_bind_Ok in Hr as (? & Hc%ensure_Ok%bool_decide_eq_true & Hr).
    apply outcome_bind_Ok in Hr as (root & Hroot & Hr).
    apply outcome_bind_Ok in Hr as (? & He%ensure_Ok%bool_decide_eq_true & Hr).
    apply outcome_bind_Ok in Hr as (hash & Hh & Hr).
    apply outcome_bind_Ok in Hr as ([rec t] & Hf & Hr).
    apply check_chunks_Ok in Hf as (Hv & Hnd & _ & -> & -> & Hu); [|done].
    rewrite (right_id_L ∅ (∪)) in Hr. cbn [fst snd] in Hr.
    apply outcome_bind_Ok in Hr as (bytes & Hb & Hr).
    apply outcome_bind_Ok in Hr as (? & Ht%ensure_Ok%N.eqb_eq & Hr).
    apply outcome_bind_Ok in Hr as (? & Hs%ensure_Ok%bool_decide_eq_true & Hr).
    apply outcome_bind_Ok in Hr as (snap & Hd%ok_or_Ok & Hr).
    apply outcome_bind_Ok in Hr as (? & Hg%ensure_Ok%bool_decide_eq_true & Hr).
    destruct (from_snapshot snap) as [s| | |] eqn:Hsn; try done. injection Hr as <-.
    split; [done|]. split; [by rewrite He|]. exists hash, bytes. split_and!; eauto; lia.
  - intros (Hc & Hroot & hash & bytes & Hh & Hv & Hnd & Hb & Ht & Hu & Hs & Hd & Hg & s & Hsn).
    rewrite bool_decide_eq_true_2, Hroot by done. cbn [outcome_bind ensure].
    rewrite bool_decide_eq_true_2, Hh by done. cbn [outcome_bind ensure].
    assert (fold_outcome (check_chunk (scs_manifest set) hash) (scs_chunks set) (∅, 0)
      = Ok (by_index (scs_chunks set), chunk_bytes (scs_chunks set))) as ->.
    { apply check_chunks_Ok; [done|]. rewrite (right_id_L ∅ (∪)). split_and!; try done. }
    cbn [outcome_bind fst snd]. rewrite Hb. cbn [outcome_bind].
    rewrite (proj2 (N.eqb_eq _ _) Ht), bool_decide_eq_true_2 by done. cbn [outcome_bind ensure].
    rewrite Hd. cbn [outcome_bind ok_or]. rewrite bool_decide_eq_true_2, Hsn by done. done.
Qed.

(** Chunks may arrive in any order: a set of chunks reconstructs a
    snapshot whatever the order they are presented in. *)
Theorem chunk_order_irrelevant manifest l l' snapshot :
  l ≡ₚ l' →
  reconstruct_snapshot {| scs_manifest := manifest; scs_chunks := l |} = Ok snapshot →
  reconstruct_snapshot {| scs_manifest := manifest; scs_chunks := l' |} = Ok snapshot.
Proof.
  rewrite !reconstruct_Ok. cbv zeta. cbn [scs_manifest scs_chunks].
  intros Hp (Hc & Hroot & hash & bytes & Hh & Hv & Hnd & Hb & Ht & Hu & Hrest).
  split; [done|]. split; [done|]. exists hash, bytes.
  rewrite <- Hp at 1 2. rewrite <- (by_index_Permutation l l'), <- (chunk_bytes_Permutation l l') by done.
  done.
Qed.

(** A manifest fixes the snapshot: any two sets of chunks accepted under
    manifests with one snapshot hash reconstruct the same snapshot, or exhibit
    a SHA-256 collision; and the snapshot is one the state accepts, with the
    root the manifest names. *)
Theorem reconstruction_determined set set' snapshot snapshot' :
  reconstruct_snapshot set = Ok snapshot → reconstruct_snapshot set' = Ok snapshot' →
  scm_snapshot_hash (scs_manifest set) = scm_snapshot_hash (scs_manifest set') →
  (snapshot = snapshot' ∨ sha_collision) ∧
  snap_global_state_root snapshot = scm_snapshot_root (scs_manifest set) ∧
  ∃ s, from_snapshot snapshot = Ok s.
Proof.
  rewrite !reconstruct_Ok. cbv zeta.
  intros (_ & _ & ? & b & _ & _ & _ & _ & _ & _ & Hh & Hd & Hg & Hs)
    (_ & _ & ? & b' & _ & _ & _ & _ & _ & _ & Hh' & Hd' & _ & _) Heq.
  split; [|done]. rewrite <- Hh, <- Hh' in Heq. unfold hash_bytes in Heq.
  apply (f_equal hex_to_bytes) in Heq. rewrite !hex_to_bytes_lower in Heq. injection Heq as Heq.
  apply sha_eq_or_collision in Heq as [->|?]; [|by right]. left. congruence.
Qed.
Lemma build_Ok snapshot n roots set :
  build_snapshot_chunks_with_metadata_roots snapshot n roots = Ok set →
  ∃ bytes raw root hash,
  to_vec_snapshot snapshot = Some bytes ∧ concat raw = bytes ∧ raw ≠ [] ∧
  Forall (λ c, len_N c ≤ u32_max) raw ∧ len_N raw ≤ u32_max ∧
  chunk_root (hash_bytes <$> raw) = Ok root ∧ manifest_hash (scs_manifest set) = Ok hash ∧
  scs_chunks set = index_chunks hash hash_bytes raw ∧
  scs_manifest set = {| scm_snapshot_root := snap_global_state_root snapshot;
    scm_snapshot_hash := hash_bytes bytes; scm_metadata_roots := roots; scm_chunk_size := n;
    scm_total_bytes := len_N bytes; scm_chunk_count := len_N raw;
    scm_chunk_hashes := hash_bytes <$> raw; scm_chunk_root := root |}.
Proof.
  unfold build_snapshot_chunks_with_metadata_roots. cbv zeta. intros Hr.
  apply outcome_bind_Ok in Hr as (? & Hn%ensure_Ok%negb_true_iff%N.eqb_neq & Hr).
  apply outcome_bind_Ok in Hr as (? & Hu%ensure_Ok%N.leb_le & Hr).
  apply outcome_bind_Ok in Hr as (bytes & Hb%ok_or_Ok & Hr). exists bytes.
  set (raw := match chunks (N.to_nat n) bytes with [] => [[]] | r => r end) in *. exists raw.
  apply outcome_bind_Ok in Hr as (root & Hroot & Hr).
  apply outcome_bind_Ok in Hr as (? & Hl%ensure_Ok%N.leb_le & Hr).
  apply outcome_bind_Ok in Hr as (hash & Hh & [= <-]). exists root, hash.
  unfold len_N in *. rewrite length_fmap in *. cbn [scs_manifest scs_chunks].
  pose proof (chunks_from_concat (length bytes) (N.to_nat n) bytes ltac:(lia) ltac:(lia)) as Hcat.
  pose proof (chunks_from_bound (length bytes) (N.to_nat n) bytes) as Hbound.
  fold (chunks (N.to_nat n) bytes) in Hcat, Hbound. split_and!; try done.
  - unfold raw. by destruct (chunks (N.to_nat n) bytes).
  - unfold raw. by destruct (chunks (N.to_nat n) bytes).
  - unfold raw. destruct (chunks (N.to_nat n) bytes) eqn:Hc; [by constructor; [|constructor]|].
    eapply Forall_impl; [exact Hbound|]. simpl. lia.
Qed.

(** A snapshot split into chunks is reconstructed from them, for every
    chunk size and whatever the metadata roots. *)
Theorem chunks_roundtrip `{!WireLaws} snapshot s n roots set :
  from_snapshot snapshot = Ok s →
  build_snapshot_chunks_with_metadata_roots snapshot n roots = Ok set →
  reconstruct_snapshot set = Ok snapshot.
Proof.
  intros Hs (bytes & raw & root & hash & Hb & Hcat & Hne & Hlen & Hcount & Hroot & Hh & Hc & Hm)%build_Ok.
  apply reconstruct_Ok. cbv zeta. rewrite Hc, Hm in *.
  cbn [scm_chunk_count scm_chunk_hashes scm_chunk_root scm_total_bytes scm_snapshot_hash scm_snapshot_root].
  assert (Htot : chunk_bytes (index_chunks hash hash_bytes raw) = len_N bytes).
  { by rewrite chunk_bytes_concat, index_chunks_bytes, Hcat. }
  split_and!; [unfold len_N; rewrite length_fmap; lia|done|]. exists hash, bytes. split_and!; eauto.
  - apply Forall_forall. intros c (i & b & Hi & ->)%elem_of_index_chunks. unfold valid_chunk; simpl.
    split_and!; [done| |done|].
    + unfold len_N. apply lookup_lt_Some in Hi. lia.
    + by rewrite Nat2N.id, list_lookup_fmap, Hi.
  - apply index_chunks_NoDup.
  - unfold len_N. rewrite Nat2N.id.
    replace (length raw) with (length (index_chunks hash hash_bytes raw)) by apply length_imap.
    rewrite collect_Ok; [by rewrite index_chunks_bytes, Hcat|].
    intros i c Hi. unfold by_index. apply elem_of_list_to_map.
    { rewrite <- list_fmap_compose. apply index_chunks_NoDup. }
    apply list_elem_of_fmap. exists c. split; [|by eapply list_elem_of_lookup_2].
    apply list_elem_of_lookup_2 in Hi as Hin. f_equal.
    unfold index_chunks in Hi. rewrite list_lookup_imap in Hi. by destruct (raw !! i); simplify_eq/=.
  - pose proof (chunk_bytes_bound (index_chunks hash hash_bytes raw) u32_max) as Hbd.
    unfold len_N in Hbd, Hcount.
    assert (length (index_chunks hash hash_bytes raw) = length raw) as Hli by apply length_imap.
    rewrite Hli in Hbd.
    etrans; [apply Hbd|unfold u32_max, u64_max in *; nia].
    apply Forall_forall. intros c (i & b & Hi & ->)%elem_of_index_chunks. simpl.
    rewrite Forall_forall in Hlen. apply Hlen. by eapply list_elem_of_lookup_2.
  - by apply snapshot_json.
Qed.
End reconstruct.
