(* ===== verification/Network.v ===== *)
(** * Network: transport, peer connections and reconnection

    crates/detta-network/src/lib.rs.  The in-memory transport keeps a queue of
    encoded frames per peer; a TCP stream is a list of bytes on either side;
    opening a socket is a parameter.  The wording of rejections and I/O errors
    is not modelled. *)
From S2P Require Import Prelude Effects Merkle Types State AspectClosure Block Consensus Protocol.

Abbreviation PeerId := string.
Record Envelope := { env_from : PeerId; env_to : PeerId; env_message : ProtocolMessage }.
Record WireEnvelope := { wire_from : PeerId; wire_to : PeerId; wire_payload : list byte }.
Inductive NetworkError :=
| DuplicatePeer (peer : PeerId)
| UnknownPeer (peer : PeerId)
| NetProtocol (error : ProtocolError)
| NetIo
| PeerRejected
| RetryExhausted (attempts : nat) (last_error : string).
Definition protocol_result {A} (o : outcome ProtocolError A) : outcome NetworkError A :=
  match o with
  | Ok a => Ok a | Err e => Err (NetProtocol e) | Panic => Panic | OutOfFuel => OutOfFuel
  end.

(** ** The in-memory transport *)
Abbreviation InMemoryTransport := (gmap PeerId (list WireEnvelope)).
Abbreviation TM := (SE InMemoryTransport NetworkError).
Section transport.
Context `{Wire}.
Definition add_peer (peer : PeerId) : TM () :=
  let! inboxes := gets (λ t, t) in
  do? ensure (bool_decide (inboxes !! peer = None)) (DuplicatePeer peer) in
  modify (λ t, <[peer := []]> t).
Definition transport_new (peers : list PeerId) : outcome NetworkError InMemoryTransport :=
  match forM add_peer peers ∅ with
  | (Ok _, t) => Ok t
  | (Err e, _) => Err e
  | (Panic, _) => Panic
  | (OutOfFuel, _) => OutOfFuel
  end.
Definition require_peer (peer : PeerId) : TM () :=
  let! inboxes := gets (λ t, t) in
  lift (ensure (bool_decide (is_Some (inboxes !! peer))) (UnknownPeer peer)).
Definition push_wire (to : PeerId) (wire : WireEnvelope) : TM () :=
  modify (λ t, alter (λ inbox, inbox ++ [wire]) to t).
Definition send (from to : PeerId) (message : ProtocolMessage) : TM () :=
  do! require_peer from in
  do! require_peer to in
  let? payload := protocol_result (encode_message message) in
  push_wire to {| wire_from := from; wire_to := to; wire_payload := payload |}.
Definition inject_raw (from to : PeerId) (payload : list byte) : TM () :=
  do! require_peer from in
  do! require_peer to in
  push_wire to {| wire_from := from; wire_to := to; wire_payload := payload |}.
Definition recipients (from : PeerId) (t : InMemoryTransport) : list PeerId :=
  filter (λ peer, peer ≠ from) (keys t).
Definition broadcast (from : PeerId) (message : ProtocolMessage) : TM nat :=
  do! require_peer from in
  let! to_peers := gets (recipients from) in
  do! forM (λ to, send from to message) to_peers in
  ret (length to_peers).
Definition decode_wire (wire : WireEnvelope) : outcome NetworkError Envelope :=
  let* message := protocol_result (decode_message (wire_payload wire)) in
  Ok {| env_from := wire_from wire; env_to := wire_to wire; env_message := message |}.
Definition drain_peer_bounded (peer : PeerId) (max_envelopes : nat) : TM (list Envelope) :=
  let! inboxes := gets (λ t, t) in
  let? inbox := ok_or (inboxes !! peer) (UnknownPeer peer) in
  let take_count := Nat.min max_envelopes (length inbox) in
  let wires := take take_count inbox in
  do! modify (λ t, <[peer := drop take_count inbox]> t) in
  lift (mapR decode_wire wires).
Definition drain_peer (peer : PeerId) : TM (list Envelope) :=
  let! inboxes := gets (λ t, t) in
  let? inbox := ok_or (inboxes !! peer) (UnknownPeer peer) in
  drain_peer_bounded peer (length inbox).
Definition pending_len (peer : PeerId) (t : InMemoryTransport) : outcome NetworkError nat :=
  let* inbox := ok_or (t !! peer) (UnknownPeer peer) in Ok (length inbox).

(** ** Streams *)
Definition write_wire_message (written : list byte) (message : ProtocolMessage)
    : outcome NetworkError (list byte) :=
  let* bytes := protocol_result (encode_message message) in Ok (written ++ bytes).
(** [read_exact]: the bytes and what is left to read. *)
Definition read_exact (count : nat) (input : list byte) : outcome NetworkError (list byte * list byte) :=
  if (count <=? length input)%nat then Ok (take count input, drop count input) else Err NetIo.
Definition read_wire_message (input : list byte) : outcome NetworkError (ProtocolMessage * list byte) :=
  let* header := read_exact HEADER_LEN input in
  let declared := from_be_bytes (take 4 (drop 6 header.1)) in
  do* ensure (declared <=? MAX_PAYLOAD_LEN) (NetProtocol (PayloadTooLarge declared MAX_PAYLOAD_LEN)) in
  let* payload := read_exact (N.to_nat declared) header.2 in
  let* message := protocol_result (decode_message (header.1 ++ payload.1)) in
  Ok (message, payload.2).
(** [TcpProtocolStream::handshake] over what the peer sends: the bytes written
    and the peer's hello, with what is left to read. *)
Definition handshake (local : PeerHello) (input : list byte)
    : outcome NetworkError (list byte * PeerHello * list byte) :=
  let* written := write_wire_message [] (MsgPeerHello local) in
  let* received := read_wire_message input in
  match received.1 with
  | MsgPeerHello remote =>
      do* ensure (bool_decide (hello_network_id remote = hello_network_id local)) PeerRejected in
      do* ensure (bool_decide (is_Some (negotiate_protocol_version local remote))) PeerRejected in
      Ok (written, remote, received.2)
  | _ => Err PeerRejected
  end.
End transport.

(** ** Connections *)
Record PeerConnection := { pc_hello : PeerHello; pc_negotiated_protocol_version : N }.
Record PeerConnectionManager := {
  pcm_local : PeerHello; pcm_peers : gmap PeerId PeerConnection; pcm_max_receive_batch : nat;
}.
Definition manager_new (local : PeerHello) (max_receive_batch : nat) : PeerConnectionManager :=
  {| pcm_local := local; pcm_peers := ∅; pcm_max_receive_batch := max_receive_batch |}.
Definition register_peer (hello : PeerHello) : SE PeerConnectionManager NetworkError () :=
  let! local := gets pcm_local in
  do? ensure (negb (bool_decide (hello_peer_id hello = hello_peer_id local))) PeerRejected in
  do? ensure (bool_decide (hello_network_id hello = hello_network_id local)) PeerRejected in
  let? negotiated := ok_or (negotiate_protocol_version local hello) PeerRejected in
  let! peers := gets pcm_peers in
  do? ensure (bool_decide (peers !! hello_peer_id hello = None)) (DuplicatePeer (hello_peer_id hello)) in
  modify (λ m, {| pcm_local := pcm_local m;
    pcm_peers := <[hello_peer_id hello :=
      {| pc_hello := hello; pc_negotiated_protocol_version := negotiated |}]> (pcm_peers m);
    pcm_max_receive_batch := pcm_max_receive_batch m |}).
Definition receive_bounded `{Wire} (m : PeerConnectionManager) (peer : PeerId) : TM (list Envelope) :=
  drain_peer_bounded peer (pcm_max_receive_batch m).

(** ** Reconnection *)
Record PeerReconnectState := {
  prs_peer_id : PeerId; prs_score : Z; prs_failures : N; prs_next_retry_tick : N;
}.
Record PeerReconnectQueue := {
  prq_base_delay_ticks : N; prq_peers : gmap PeerId PeerReconnectState;
}.
Definition queue_new (base_delay_ticks : N) : PeerReconnectQueue :=
  {| prq_base_delay_ticks := base_delay_ticks; prq_peers := ∅ |}.
Definition fresh_peer (peer_id : PeerId) : PeerReconnectState :=
  {| prs_peer_id := peer_id; prs_score := 0; prs_failures := 0; prs_next_retry_tick := 0 |}.
Definition set_peer (peer_id : PeerId) (peer : PeerReconnectState) (q : PeerReconnectQueue)
    : PeerReconnectQueue :=
  {| prq_base_delay_ticks := prq_base_delay_ticks q;
     prq_peers := <[peer_id := peer]> (prq_peers q) |}.
Definition tracked (peer_id : PeerId) (q : PeerReconnectQueue) : PeerReconnectState :=
  default (fresh_peer peer_id) (prq_peers q !! peer_id).
Definition track_peer (peer_id : PeerId) (q : PeerReconnectQueue) : PeerReconnectQueue :=
  set_peer peer_id (tracked peer_id q) q.
(** [i64] and [u64] arithmetic with overflow checks. *)
Definition i64_or_panic (z : Z) : outcome NetworkError Z :=
  if ((-9223372036854775808 <=? z) && (z <=? 9223372036854775807))%Z then Ok z else Panic.
Definition u64_or_panic (n : N) : outcome NetworkError N := if n <=? u64_max then Ok n else Panic.
Definition record_success (peer_id : PeerId) (q : PeerReconnectQueue)
    : outcome NetworkError PeerReconnectQueue :=
  let q := track_peer peer_id q in
  let peer := tracked peer_id q in
  let* score := i64_or_panic (prs_score peer + 1) in
  Ok (set_peer peer_id {| prs_peer_id := prs_peer_id peer; prs_score := score; prs_failures := 0;
                  prs_next_retry_tick := 0 |} q).
Definition record_failure (peer_id : PeerId) (now_tick : N) (q : PeerReconnectQueue)
    : outcome NetworkError PeerReconnectQueue :=
  let q := track_peer peer_id q in
  let peer := tracked peer_id q in
  let* failures := u64_or_panic (prs_failures peer + 1) in
  let* score := i64_or_panic (prs_score peer - 1) in
  let* next_retry_tick :=
    u64_or_panic (now_tick + saturating_mul u64_max (prq_base_delay_ticks q) failures) in
  Ok (set_peer peer_id {| prs_peer_id := prs_peer_id peer; prs_score := score; prs_failures := failures;
                  prs_next_retry_tick := next_retry_tick |} q).
(** Higher score first, then by name. *)
Definition peer_before (left right : PeerReconnectState) : Prop :=
  (prs_score right < prs_score left)%Z ∨
  (prs_score left = prs_score right ∧ cmp_le (prs_peer_id left) (prs_peer_id right)).
#[export] Instance peer_before_dec l r : Decision (peer_before l r).
Proof. unfold peer_before. apply _. Defined.
Definition ready_peers (now_tick : N) (limit : nat) (q : PeerReconnectQueue) : list PeerId :=
  prs_peer_id <$> take limit (merge_sort peer_before
    (filter (λ peer, prs_next_retry_tick peer ≤ now_tick) (values (prq_peers q)))).

(** ** Connecting with retries

    [connect n addr] is what opening a socket to [addr] in the [n]-th round
    gives: a stream or an error text. *)
Record RetryPolicy := { rp_max_attempts : nat }.
Record RetryMetrics := {
  rm_attempts : nat; rm_successes : nat; rm_failures : nat; rm_exhausted : nat;
  rm_last_error : option string;
}.
Definition no_metrics : RetryMetrics :=
  {| rm_attempts := 0; rm_successes := 0; rm_failures := 0; rm_exhausted := 0; rm_last_error := None |}.
Section retry.
Context {Addr Stream : Type} (connect : nat → Addr → Stream + string).
Definition count_success (m : RetryMetrics) : RetryMetrics :=
  {| rm_attempts := S (rm_attempts m); rm_successes := S (rm_successes m);
     rm_failures := rm_failures m; rm_exhausted := rm_exhausted m; rm_last_error := rm_last_error m |}.
Definition count_failure (error : string) (m : RetryMetrics) : RetryMetrics :=
  {| rm_attempts := S (rm_attempts m); rm_successes := rm_successes m;
     rm_failures := S (rm_failures m); rm_exhausted := rm_exhausted m; rm_last_error := Some error |}.
(** One round over the addresses: a stream, or the last error. *)
Fixpoint try_addrs (attempt : nat) (addrs : list Addr) (last_error : string) (m : RetryMetrics)
    : (Stream + string) * RetryMetrics :=
  match addrs with
  | [] => (inr last_error, m)
  | addr :: addrs =>
      match connect attempt addr with
      | inl stream => (inl stream, count_success m)
      | inr error => try_addrs attempt addrs error (count_failure error m)
      end
  end.
Fixpoint try_rounds (rounds attempt : nat) (addrs : list Addr) (last_error : string) (m : RetryMetrics)
    : (Stream + string) * RetryMetrics :=
  match rounds with
  | O => (inr last_error, m)
  | S rounds =>
      match try_addrs attempt addrs last_error m with
      | (inl stream, m) => (inl stream, m)
      | (inr error, m) => try_rounds rounds (S attempt) addrs error m
      end
  end.
Definition connect_with_retry_report (resolved : list Addr + string) (policy : RetryPolicy)
    : outcome NetworkError Stream * RetryMetrics :=
  match resolved with
  | inr error =>
      (Err NetIo, {| rm_attempts := 0; rm_successes := 0; rm_failures := 1; rm_exhausted := 0;
                     rm_last_error := Some error |})
  | inl addrs =>
      let last_error := match addrs with
                        | [] => "no resolved socket addresses"
                        | _ => "no attempts configured"
                        end in
      match try_rounds (rp_max_attempts policy) 0 addrs last_error no_metrics with
      | (inl stream, m) => (Ok stream, m)
      | (inr error, m) =>
          (Err (RetryExhausted (rp_max_attempts policy) error),
           {| rm_attempts := rm_attempts m; rm_successes := rm_successes m;
              rm_failures := rm_failures m; rm_exhausted := S (rm_exhausted m);
              rm_last_error := rm_last_error m |})
      end
  end.
Definition connect_with_retry (resolved : list Addr + string) (policy : RetryPolicy)
    : outcome NetworkError Stream := (connect_with_retry_report resolved policy).1.
End retry.

(** ** Streams carry messages faithfully *)
Section streams.
Context `{WireLaws}.
Lemma decode_encoded message bytes : encode_message message = Ok bytes → decode_message bytes = Ok message.
Proof.
  unfold encode_message, decode_message. intros (payload & Hp%ok_or_Ok & Hb)%outcome_bind_Ok.
  apply decode_of_encode in Hb. rewrite Hb. simpl. by rewrite (message_json _ _ Hp).
Qed.
(** Reading consumes exactly one frame. *)
Lemma read_encoded message bytes rest :
  encode_message message = Ok bytes → read_wire_message (bytes ++ rest) = Ok (message, rest).
Proof.
  intros He. pose proof (decode_encoded _ _ He) as Hd.
  assert (∃ payload : list byte, length bytes = (HEADER_LEN + length payload)%nat ∧
    from_be_bytes (take 4 (drop 6 bytes)) = len_N payload ∧ len_N payload ≤ MAX_PAYLOAD_LEN)
    as (payload & Hl & Hdec & Hmax).
  { unfold decode_message in Hd. apply outcome_bind_Ok in Hd as (payload & Hp & _). exists payload.
    unfold decode_payload in Hp. cbv zeta in Hp. simplify_ok.
    match goal with Hn : (_ <=? _)%nat = true |- _ => apply Nat.leb_le in Hn end.
    subst payload. unfold len_N in *. rewrite length_drop in *. split; [lia|]. split; lia. }
  unfold read_wire_message, read_exact. rewrite length_app.
  rewrite (proj2 (Nat.leb_le _ _)) by (unfold HEADER_LEN in *; lia). cbn [outcome_bind fst snd].
  assert (Hh : take 4 (drop 6 (take HEADER_LEN (bytes ++ rest))) = take 4 (drop 6 bytes)).
  { rewrite take_app_le by (unfold HEADER_LEN in *; lia).
    do 10 (destruct bytes as [|? bytes]; [unfold HEADER_LEN in Hl; simpl in Hl; lia|]). done. }
  cbv zeta. rewrite Hh, Hdec. rewrite (proj2 (N.leb_le _ _) Hmax). cbn [outcome_bind ensure].
  rewrite length_drop, length_app. unfold len_N. rewrite Nat2N.id.
  rewrite (proj2 (Nat.leb_le _ _)) by lia. cbn [outcome_bind fst snd].
  assert (Happ : take HEADER_LEN (bytes ++ rest) ++ take (length payload) (drop HEADER_LEN (bytes ++ rest)) = bytes).
  { rewrite take_app_le, drop_app_le, take_app_le; rewrite ?length_drop; [|unfold HEADER_LEN in *; lia..].
    rewrite (take_ge (drop _ _)) by (rewrite length_drop; lia). apply take_drop. }
  rewrite Happ, Hd. cbn [protocol_result outcome_bind]. f_equal. f_equal.
  rewrite drop_drop, drop_app_ge by (unfold HEADER_LEN in *; lia).
  replace (HEADER_LEN + length payload - length bytes)%nat with 0%nat by lia. done.
Qed.
Fixpoint read_messages (count : nat) (input : list byte)
    : outcome NetworkError (list ProtocolMessage * list byte) :=
  match count with
  | O => Ok ([], input)
  | S count =>
      let* r := read_wire_message input in
      let* rs := read_messages count r.2 in
      Ok (r.1 :: rs.1, rs.2)
  end.
Lemma writes_app messages written written' :
  fold_outcome write_wire_message messages written = Ok written' →
  ∃ suffix, written' = written ++ suffix ∧
  ∀ rest, read_messages (length messages) (suffix ++ rest) = Ok (messages, rest).
Proof.
  revert written. induction messages as [|m ms IH]; intros written; cbn [fold_outcome].
  { intros [= <-]. exists []. by rewrite app_nil_r. }
  unfold write_wire_message at 1. intros (w & Hw & Hf)%outcome_bind_Ok.
  apply outcome_bind_Ok in Hw as (bytes & Hb & [= <-]).
  assert (encode_message m = Ok bytes) as He by (destruct (encode_message m); simplify_eq/=; done).
  apply IH in Hf as (suffix & -> & Hr). exists (bytes ++ suffix). rewrite <- app_assoc. split; [done|].
  intros rest. cbn [read_messages length]. rewrite <- app_assoc, (read_encoded _ _ _ He). cbn [outcome_bind fst snd].
  by rewrite Hr.
Qed.

(** A stream delivers what was written: messages framed one after another
    are read back one by one, in order, with nothing left over. *)
Theorem stream_roundtrip messages written :
  fold_outcome write_wire_message messages [] = Ok written →
  read_messages (length messages) written = Ok (messages, []).
Proof.
  intros (suffix & -> & Hr)%writes_app. simpl. rewrite <- (app_nil_r suffix). apply Hr.
Qed.
End streams.

(** ** The transport delivers in order

    A run of the transport and what its peers see: a message sent, or
    received by draining an inbox. *)
Inductive net_op :=
| DoSend (from to : PeerId) (message : ProtocolMessage)
| DoBroadcast (from : PeerId) (message : ProtocolMessage)
| DoDrain (peer : PeerId) (max_envelopes : nat).
Inductive net_event := Sent (e : Envelope) | Received (peer : PeerId) (e : Envelope).
Definition envelope (from : PeerId) (message : ProtocolMessage) (to : PeerId) : Envelope :=
  {| env_from := from; env_to := to; env_message := message |}.
Section runs_of_transport.
Context `{Wire}.
Definition run_op (op : net_op) (t : InMemoryTransport) : list net_event * InMemoryTransport :=
  match op with
  | DoSend from to m =>
      match send from to m t with
      | (Ok _, t') => ([Sent (envelope from m to)], t')
      | (_, t') => ([], t')
      end
  | DoBroadcast from m =>
      match broadcast from m t with
      | (Ok _, t') => (Sent ∘ envelope from m <$> recipients from t, t')
      | (_, t') => ([], t')
      end
  | DoDrain peer k =>
      match drain_peer_bounded peer k t with
      | (Ok es, t') => (Received peer <$> es, t')
      | (_, t') => ([], t')
      end
  end.
Fixpoint run_ops (ops : list net_op) (t : InMemoryTransport) : list net_event * InMemoryTransport :=
  match ops with
  | [] => ([], t)
  | op :: ops =>
      let '(es, t) := run_op op t in
      let '(es', t) := run_ops ops t in
      (es ++ es', t)
  end.
End runs_of_transport.
Definition sent_to (p : PeerId) (es : list net_event) : list Envelope :=
  omap (λ e, match e with Sent m => if decide (env_to m = p) then Some m else None | _ => None end) es.
Definition received_by (p : PeerId) (es : list net_event) : list Envelope :=
  omap (λ e, match e with Received q m => if decide (q = p) then Some m else None | _ => None end) es.
Section fifo.
Context `{WireLaws}.
(** The messages waiting for a peer. *)
Definition queued (t : InMemoryTransport) (p : PeerId) (es : list Envelope) : Prop :=
  ∃ wires, t !! p = Some wires ∧ mapR decode_wire wires = Ok es.
(** A step of the transport: what waited and what was sent is what was
    received and what waits. *)
Definition in_order (t t' : InMemoryTransport) (es : list net_event) : Prop :=
  ∀ p before, queued t p before →
  ∃ after, queued t' p after ∧ before ++ sent_to p es = received_by p es ++ after.

Lemma in_order_refl t : in_order t t [].
Proof. intros p before Hq. exists before. by rewrite app_nil_r. Qed.
Lemma in_order_trans t1 t2 t3 es1 es2 :
  in_order t1 t2 es1 → in_order t2 t3 es2 → in_order t1 t3 (es1 ++ es2).
Proof.
  intros H1 H2 p before (mid & Hm & He1)%H1. destruct (H2 p mid Hm) as (after & Ha & He2).
  exists after. split; [done|]. unfold sent_to, received_by in *.
  by rewrite !omap_app, app_assoc, He1, <- !app_assoc, He2.
Qed.
Lemma mapR_app {E A B} (f : A → outcome E B) l l' :
  mapR f (l ++ l') = let* ys := mapR f l in let* ys' := mapR f l' in Ok (ys ++ ys').
Proof.
  induction l as [|x l IH]; simpl; [by destruct (mapR f l')|].
  destruct (f x); simpl; [|done..]. rewrite IH. destruct (mapR f l); simpl; [|done..].
  by destruct (mapR f l').
Qed.
Lemma queued_snoc t to wires es wire e :
  t !! to = Some wires → mapR decode_wire wires = Ok es → decode_wire wire = Ok e →
  queued (alter (λ inbox, inbox ++ [wire]) to t) to (es ++ [e]).
Proof.
  intros Ht Hes He. exists (wires ++ [wire]). split; [by rewrite lookup_alter_eq, Ht|].
  rewrite mapR_app, Hes. simpl. by rewrite He.
Qed.
Lemma send_cases from to m t o t' :
  send from to m t = (o, t') →
  (o ≠ Ok () ∧ t' = t) ∨
  (o = Ok () ∧ ∃ payload, encode_message m = Ok payload ∧ is_Some (t !! from) ∧ is_Some (t !! to) ∧
   t' = alter (λ inbox, inbox ++ [{| wire_from := from; wire_to := to; wire_payload := payload |}]) to t).
Proof.
  unfold send, require_peer, push_wire, bind, gets, lift, modify. case_bool_decide as Hf; simpl; [|intros [= <- <-]; by left].
  case_bool_decide as Hto; simpl; [|intros [= <- <-]; by left].
  destruct (encode_message m) as [payload|e| |] eqn:He; simpl; intros [= <- <-]; [right|by left..].
  split; [done|]. by exists payload.
Qed.
Lemma send_in_order from to m t t' :
  send from to m t = (Ok (), t') → in_order t t' [Sent (envelope from m to)].
Proof.
  intros [[? _]|(_ & payload & He & _ & [wires Hw] & ->)]%send_cases; [done|].
  intros p before (ws & Hp & Hd). unfold sent_to, received_by. simpl.
  destruct (decide (to = p)) as [->|Hne]; simpl.
  - exists (before ++ [envelope from m p]). split; [|done]. apply (queued_snoc _ _ ws); [done|done|].
    unfold decode_wire. simpl. by rewrite (decode_encoded _ _ He).
  - exists before. rewrite app_nil_r. split; [|done]. exists ws. by rewrite lookup_alter_ne.
Qed.
Lemma send_dom from to m t o t' : send from to m t = (o, t') → dom t' = dom t.
Proof. intros [[_ ->]|(_ & ? & _ & _ & _ & ->)]%send_cases; [done|]. apply dom_alter_L. Qed.

Lemma send_unencodable from to m t :
  (∀ payload, encode_message m ≠ Ok payload) → (send from to m t).1 ≠ Ok () ∧ (send from to m t).2 = t.
Proof.
  intros Hm. destruct (send from to m t) as [o t'] eqn:Hs.
  apply send_cases in Hs as [?|(_ & payload & He & _)]; [done|]. by destruct (Hm payload).
Qed.
Lemma send_Ok from to m t payload :
  encode_message m = Ok payload → is_Some (t !! from) → is_Some (t !! to) → (send from to m t).1 = Ok ().
Proof.
  intros He Hf Ht. unfold send, require_peer, push_wire, bind, gets, lift, modify.
  rewrite !bool_decide_eq_true_2 by done. simpl. by rewrite He.
Qed.
(** A broadcast reaches all its recipients or none. *)
Lemma send_each from m l t :
  is_Some (t !! from) → (∀ to, to ∈ l → is_Some (t !! to)) →
  (∃ t', forM (λ to, send from to m) l t = (Ok (), t') ∧ in_order t t' (Sent ∘ envelope from m <$> l)) ∨
  ((forM (λ to, send from to m) l t).1 ≠ Ok () ∧ (forM (λ to, send from to m) l t).2 = t).
Proof.
  intros Hf Hl. assert ((∃ p, encode_message m = Ok p) ∨ ∀ p, encode_message m ≠ Ok p) as [[payload He]|Hm]
    by (destruct (encode_message m); eauto).
  - left. revert t Hf Hl. induction l as [|to l IH]; intros t Hf Hl.
    { exists t. split; [done|apply in_order_refl]. }
    cbn [forM]. pose proof (send_Ok _ to _ t _ He Hf (Hl to (list_elem_of_here _ _))) as Ho.
    destruct (send from to m t) as [o t1] eqn:Hs. simpl in Ho. subst o.
    pose proof (send_dom _ _ _ _ _ _ Hs) as Hdom. destruct (IH t1) as (t' & Hr & Ho).
    { by rewrite <- elem_of_dom, Hdom, elem_of_dom. }
    { intros x Hx. rewrite <- elem_of_dom, Hdom, elem_of_dom. apply Hl. by apply list_elem_of_further. }
    exists t'. unfold bind. rewrite Hs. split; [done|].
    apply (in_order_trans _ t1 _ [_]); [by apply send_in_order|done].
  - destruct l as [|to l]; [left; exists t; split; [done|apply in_order_refl]|right].
    cbn [forM]. unfold bind. destruct (send_unencodable from to m t Hm) as [H1 H2].
    destruct (send from to m t) as [[[]| | |] t1]; simpl in *; done.
Qed.
Lemma broadcast_in_order from m t :
  match broadcast from m t with
  | (Ok _, t') => in_order t t' (Sent ∘ envelope from m <$> recipients from t)
  | (_, t') => t' = t
  end.
Proof.
  unfold broadcast, require_peer, bind, gets, lift, ret. case_bool_decide as Hf; simpl; [|done].
  destruct (send_each from m (recipients from t) t Hf) as [(t' & -> & Ho)|[H1 H2]].
  - intros to [_ Hto]%list_elem_of_filter. by apply elem_of_keys.
  - done.
  - destruct (forM _ _ t) as [[[]| | |] t1]; simpl in *; done.
Qed.
Lemma mapR_take {E A B} (f : A → outcome E B) k l ys :
  mapR f l = Ok ys → mapR f (take k l) = Ok (take k ys) ∧ mapR f (drop k l) = Ok (drop k ys).
Proof.
  revert k ys. induction l as [|x l IH]; intros [|k] ys; simpl; try (by intros [= <-]).
  { intros Hm. rewrite drop_0. by split. }
  intros (y & Hy & Hl)%outcome_bind_Ok. apply outcome_bind_Ok in Hl as (ys' & Hys & [= <-]).
  destruct (IH k _ Hys) as [H1 H2]. rewrite Hy, H1. simpl. by split.
Qed.
Lemma drain_in_order peer k t :
  match drain_peer_bounded peer k t with
  | (Ok es, t') => in_order t t' (Received peer <$> es)
  | (_, t') => (∃ es, queued t peer es) → t' = t
  end.
Proof.
  unfold drain_peer_bounded, bind, gets, lift, modify. destruct (t !! peer) as [wires|] eqn:Hp; simpl; [|done].
  destruct (mapR decode_wire (take _ wires)) as [es| | |] eqn:Hd; simpl.
  2-4: intros (es & ws & Hw & He); rewrite Hp in Hw; injection Hw as <-;
    destruct (mapR_take _ (Nat.min k (length wires)) _ _ He); congruence.
  intros p before (ws & Hw & He).
  assert (Hs : sent_to p (Received peer <$> es) = []) by (clear; unfold sent_to; induction es; simpl; done).
  destruct (decide (peer = p)) as [->|Hne].
  - rewrite Hp in Hw. injection Hw as <-.
    destruct (mapR_take _ (Nat.min k (length wires)) _ _ He) as [H1 H2]. rewrite Hd in H1. injection H1 as ->.
    eexists. split; [eexists; split; [by rewrite lookup_insert_eq|done]|].
    assert (received_by p (Received p <$> take (Nat.min k (length wires)) before)
      = take (Nat.min k (length wires)) before) as ->.
    { unfold received_by. generalize (take (Nat.min k (length wires)) before). clear.
      induction l; simpl; [done|]. rewrite decide_True by done. by f_equal. }
    rewrite Hs, app_nil_r. symmetry. apply take_drop.
  - exists before. split; [exists ws; by rewrite lookup_insert_ne|]. rewrite Hs, app_nil_r.
    assert (received_by p (Received peer <$> es) = []) as ->; [|done].
    unfold received_by. clear -Hne. induction es; simpl; [done|]. by rewrite decide_False.
Qed.
Definition decodable (t : InMemoryTransport) : Prop :=
  ∀ p wires, t !! p = Some wires → ∃ es, mapR decode_wire wires = Ok es.
Lemma in_order_decodable t t' es :
  dom t' ⊆ dom t → decodable t → in_order t t' es → decodable t'.
Proof.
  intros Hdom Hd Ho p wires Hp. assert (is_Some (t !! p)) as [ws Hw].
  { apply elem_of_dom, Hdom, elem_of_dom. eauto. }
  destruct (Hd _ _ Hw) as [es' He]. destruct (Ho p es') as (after & (ws' & Hw' & Ha) & _); [by exists ws|].
  rewrite Hp in Hw'. injection Hw' as <-. eauto.
Qed.
Lemma forM_send_dom from m l t : dom (forM (λ to, send from to m) l t).2 = dom t.
Proof.
  revert t. induction l as [|to l IH]; intros t; [done|]. cbn [forM]. unfold bind.
  destruct (send from to m t) as [o t1] eqn:Hs. apply send_dom in Hs.
  destruct o; simpl; [by rewrite IH|done..].
Qed.
Lemma run_op_in_order op t :
  decodable t → in_order t (run_op op t).2 (run_op op t).1 ∧ dom (run_op op t).2 = dom t.
Proof.
  intros Hd. destruct op as [from to m|from m|peer k]; simpl.
  - destruct (send from to m t) as [[[]|e| |] t'] eqn:Hs; simpl; [split; [by apply send_in_order|by eapply send_dom]|..];
      apply send_cases in Hs as [[_ ->]|[? _]]; try done; split; done || apply in_order_refl.
  - pose proof (broadcast_in_order from m t) as Hb.
    assert (dom (broadcast from m t).2 = dom t) as Hdom.
    { unfold broadcast, require_peer, bind, gets, lift, ret. case_bool_decide; simpl; [|done].
      pose proof (forM_send_dom from m (recipients from t) t).
      by destruct (forM _ _ t) as [[[]| | |] t1]. }
    destruct (broadcast from m t) as [[n|e| |] t']; simpl in *; [done|..]; subst; split; done || apply in_order_refl.
  - pose proof (drain_in_order peer k t) as Hb.
    assert (dom (drain_peer_bounded peer k t).2 = dom t) as Hdom.
    { unfold drain_peer_bounded, bind, gets, lift, modify. destruct (t !! peer) eqn:Hp; simpl; [|done].
      apply dom_insert_lookup_L. eauto. }
    destruct (drain_peer_bounded peer k t) as [[es|e| |] t'] eqn:Hdr; simpl in *; [done|..].
    all: assert (t' = t) as ->; [|split; done || apply in_order_refl].
    all: destruct (t !! peer) as [ws|] eqn:Hp; [destruct (Hd _ _ Hp) as [es He]; apply Hb; by exists es, ws|].
    all: unfold drain_peer_bounded, bind, gets, lift in Hdr; rewrite Hp in Hdr; simpl in Hdr; by simplify_eq.
Qed.
Lemma run_ops_in_order ops t :
  decodable t → in_order t (run_ops ops t).2 (run_ops ops t).1 ∧ dom (run_ops ops t).2 = dom t.
Proof.
  revert t. induction ops as [|op ops IH]; intros t Hd; [split; [apply in_order_refl|done]|]. cbn [run_ops].
  destruct (run_op_in_order op t Hd) as [Ho Hdom]. destruct (run_op op t) as [es t1]. simpl in *.
  destruct (IH t1) as [Ho' Hdom']; [by eapply in_order_decodable; [by rewrite Hdom|..]|].
  destruct (run_ops ops t1) as [es' t2]. simpl in *.
  split; [by eapply in_order_trans|by rewrite Hdom'].
Qed.
Lemma transport_new_empty peers t p wires :
  transport_new peers = Ok t → t !! p = Some wires → wires = [].
Proof.
  unfold transport_new.
  enough (Hg : ∀ t0, (∀ p wires, t0 !! p = Some wires → wires = []) →
    ∀ p wires, (forM add_peer peers t0).2 !! p = Some wires → wires = []).
  { specialize (Hg ∅). destruct (forM add_peer peers ∅) as [[[]| | |] t1]; try done.
    intros [= <-]. apply Hg. intros ? ?. by rewrite lookup_empty. }
  induction peers as [|q l IH]; intros t0 Ht0; cbn [forM]; [done|].
  unfold add_peer at 1, bind, gets, lift, modify. case_bool_decide; simpl; [|done].
  apply IH. intros p' ws [[_ <-]|[_ ?]]%lookup_insert_Some; eauto.
Qed.

(** The transport is a reliable FIFO network: in any run of sends,
    broadcasts and bounded drains from a fresh transport, what was sent to a
    peer is what it has received so far followed by what waits in its inbox,
    message by message and in order. *)
Theorem transport_fifo peers t0 ops p wires :
  transport_new peers = Ok t0 → (run_ops ops t0).2 !! p = Some wires →
  ∃ pending, mapR decode_wire wires = Ok pending ∧
  sent_to p (run_ops ops t0).1 = received_by p (run_ops ops t0).1 ++ pending.
Proof.
  intros Ht Hp. assert (Hd : decodable t0).
  { intros q ws Hq. apply (transport_new_empty _ _ _ _ Ht) in Hq as ->. by exists []. }
  destruct (run_ops_in_order ops t0 Hd) as [Ho Hdom].
  assert (t0 !! p = Some []) as Hp0.
  { destruct (t0 !! p) as [ws|] eqn:Hw; [by rewrite (transport_new_empty _ _ _ _ Ht Hw)|].
    apply not_elem_of_dom in Hw. rewrite <- Hdom in Hw. apply not_elem_of_dom in Hw. congruence. }
  destruct (Ho p []) as (after & (ws & Hw & Ha) & He); [by exists []|].
  rewrite Hp in Hw. injection Hw as <-. by exists after.
Qed.
End fifo.

(** One malformed frame costs the whole batch: a drain that fails to decode
    a frame has already removed every frame it took, the valid ones too. *)
Lemma drain_discards_batch `{Wire} peer k t wires error t' :
  t !! peer = Some wires → drain_peer_bounded peer k t = (Err error, t') →
  t' !! peer = Some (drop (Nat.min k (length wires)) wires).
Proof.
  intros Hp. unfold drain_peer_bounded, bind, gets, lift, modify. rewrite Hp. simpl.
  intros [= _ <-]. by rewrite lookup_insert_eq.
Qed.

(** ** Registered peers *)
Record connections_ok (m : PeerConnectionManager) : Prop := {
  co_named p c : pcm_peers m !! p = Some c → hello_peer_id (pc_hello c) = p;
  co_not_self p c : pcm_peers m !! p = Some c → p ≠ hello_peer_id (pcm_local m);
  co_network p c : pcm_peers m !! p = Some c →
    hello_network_id (pc_hello c) = hello_network_id (pcm_local m);
  co_version p c : pcm_peers m !! p = Some c →
    hello_min_protocol_version (pcm_local m) ≤ pc_negotiated_protocol_version c
      ≤ hello_protocol_version (pcm_local m) ∧
    hello_min_protocol_version (pc_hello c) ≤ pc_negotiated_protocol_version c
      ≤ hello_protocol_version (pc_hello c);
}.
Lemma negotiated_in_both local remote v :
  negotiate_protocol_version local remote = Some v →
  hello_min_protocol_version local ≤ v ≤ hello_protocol_version local ∧
  hello_min_protocol_version remote ≤ v ≤ hello_protocol_version remote ∧
  ∀ w, hello_min_protocol_version local ≤ w ≤ hello_protocol_version local →
    hello_min_protocol_version remote ≤ w ≤ hello_protocol_version remote → w ≤ v.
Proof.
  unfold negotiate_protocol_version. destruct (_ || _); [done|]. cbv zeta.
  destruct (N.leb_spec (N.max (hello_min_protocol_version local) (hello_min_protocol_version remote))
    (N.min (hello_protocol_version local) (hello_protocol_version remote))); [|done].
  intros [= <-]. split_and!; intros; lia.
Qed.
Lemma negotiate_symmetric local remote :
  negotiate_protocol_version local remote = negotiate_protocol_version remote local.
Proof.
  unfold negotiate_protocol_version. rewrite orb_comm. destruct (_ || _); [done|]. cbv zeta.
  by rewrite N.max_comm, N.min_comm.
Qed.

(** Every registered connection is to a different peer of the same
    network, at a version in both windows; registering a peer keeps this, and
    a refused registration changes nothing. *)
Theorem connections_invariant local batch hellos :
  let m := foldl (λ m hello, (register_peer hello m).2) (manager_new local batch) hellos in
  connections_ok m ∧
  ∀ hello, match register_peer hello m with
    | (Ok _, m') => connections_ok m' ∧ is_Some (pcm_peers m' !! hello_peer_id hello)
    | (_, m') => m' = m
    end.
Proof.
  assert (Hstep : ∀ hello m, connections_ok m → match register_peer hello m with
    | (Ok _, m') => connections_ok m' ∧ is_Some (pcm_peers m' !! hello_peer_id hello)
    | (_, m') => m' = m
    end).
  { intros hello m []. unfold register_peer, bind, gets, lift, modify.
    case_bool_decide as Hs; simpl; [done|]. case_bool_decide as Hn; simpl; [|done].
    destruct (negotiate_protocol_version (pcm_local m) hello) as [v|] eqn:Hv; simpl; [|done].
    case_bool_decide as Hd; simpl; [|done]. apply negotiated_in_both in Hv as (? & ? & _).
    split; [|by rewrite lookup_insert_eq].
    split; simpl; intros p c [[<- <-]|[_ ?]]%lookup_insert_Some; simpl; eauto. }
  cbv zeta. split; [|intros hello; apply Hstep].
  all: assert (Hall : ∀ m, connections_ok m →
    connections_ok (foldl (λ m hello, (register_peer hello m).2) m hellos)).
  1, 3: induction hellos as [|h l IH]; intros m Hm; simpl; [done|]; apply IH; specialize (Hstep h m Hm);
    destruct (register_peer h m) as [[| | |] m']; simpl in *; naive_solver.
  all: apply Hall; split; simpl; intros ? ?; by rewrite lookup_empty.
Qed.

(** ** Reconnection *)
#[export] Instance peer_before_total : Total peer_before.
Proof.
  intros l r. unfold peer_before. destruct (Z.lt_trichotomy (prs_score l) (prs_score r)) as [?|[?|?]]; [by auto..| |by auto].
  destruct (base.total cmp_le (prs_peer_id l) (prs_peer_id r)); auto.
Qed.
#[export] Instance peer_before_transitive : Transitive peer_before.
Proof.
  intros a b c [?|[? ?]] [?|[? ?]]; unfold peer_before; [left; lia|left; lia|left; lia|].
  right. split; [lia|]. by etrans.
Qed.

(** [ready_peers] returns the best of the peers whose retry is due: as many
    as the limit allows, in order of score and name, and none that is left
    out comes before one that is returned. *)
Theorem ready_peers_best now_tick limit q :
  let ready := filter (λ peer, prs_next_retry_tick peer ≤ now_tick) (values (prq_peers q)) in
  ∃ chosen rest, ready_peers now_tick limit q = prs_peer_id <$> chosen ∧
  ready ≡ₚ chosen ++ rest ∧ length chosen = Nat.min limit (length ready) ∧
  StronglySorted peer_before chosen ∧
  ∀ x y, x ∈ chosen → y ∈ rest → peer_before x y.
Proof.
  cbv zeta. set (ready := filter _ _). set (sorted := merge_sort peer_before ready).
  exists (take limit sorted), (drop limit sorted).
  assert (Hp : sorted ≡ₚ ready) by apply merge_sort_Permutation.
  assert (Hs : StronglySorted peer_before sorted) by apply (StronglySorted_merge_sort _).
  rewrite <- (take_drop limit sorted) in Hs. apply StronglySorted_app in Hs as (Hxy & Hs & _).
  split_and!; [done| | |done|done].
  - by rewrite take_drop, Hp.
  - by rewrite length_take, Hp.
Qed.

Lemma tracked_set p peer q : tracked p (set_peer p peer q) = peer.
Proof. unfold tracked, set_peer. simpl. by rewrite lookup_insert_eq. Qed.
(** A failure delays the next attempt by the base delay for every failure
    in a row, and a success clears the delay; the only other outcome is an
    overflow of the counters or of the tick, which panics. *)
Theorem retry_backoff peer_id now_tick q :
  let peer := tracked peer_id q in
  (∀ q', record_failure peer_id now_tick q = Ok q' →
     prs_next_retry_tick (tracked peer_id q') =
       now_tick + N.min u64_max (prq_base_delay_ticks q * (prs_failures peer + 1)) ∧
     prs_failures (tracked peer_id q') = prs_failures peer + 1 ∧
     prs_score (tracked peer_id q') = (prs_score peer - 1)%Z) ∧
  (∀ q', record_success peer_id q = Ok q' →
     prs_next_retry_tick (tracked peer_id q') = 0 ∧ prs_failures (tracked peer_id q') = 0 ∧
     prs_score (tracked peer_id q') = (prs_score peer + 1)%Z) ∧
  (u64_max < now_tick + N.min u64_max (prq_base_delay_ticks q * (prs_failures peer + 1)) →
     record_failure peer_id now_tick q = Panic).
Proof.
  assert (Ht : tracked peer_id (track_peer peer_id q) = tracked peer_id q) by apply tracked_set.
  cbv zeta. split_and!.
  - intros q'. unfold record_failure, u64_or_panic, i64_or_panic. cbv zeta. rewrite Ht.
    repeat (case_match; simpl; try discriminate). intros [= <-].
    by rewrite !tracked_set.
  - intros q'. unfold record_success, i64_or_panic. cbv zeta. rewrite Ht.
    case_match; simpl; [|discriminate]. intros [= <-].
    by rewrite !tracked_set.
  - intros Ho. unfold record_failure, u64_or_panic, i64_or_panic. cbv zeta. rewrite Ht.
    repeat (case_match; simpl; try done). exfalso. 
    match goal with Hl : (now_tick + _ <=? _) = true |- _ => apply N.leb_le in Hl; unfold saturating_mul in Hl; simpl in Hl end.
    lia.
Qed.

(** ** Retries *)
Section retry_facts.
Context {Addr Stream : Type} (connect : nat → Addr → Stream + string).
Lemma try_addrs_metrics attempt addrs e m r m' :
  try_addrs connect attempt addrs e m = (r, m') →
  (rm_attempts m' + rm_failures m + rm_successes m = rm_attempts m + rm_failures m' + rm_successes m')%nat ∧
  (rm_attempts m' ≤ rm_attempts m + length addrs)%nat ∧ rm_exhausted m' = rm_exhausted m ∧
  rm_successes m' = (rm_successes m + match r with inl _ => 1 | inr _ => 0 end)%nat.
Proof.
  revert e m. induction addrs as [|a l IH]; intros e m; simpl; [intros [= <- <-]; lia|].
  destruct (connect attempt a); [intros [= <- <-]; simpl; lia|].
  intros H%IH. unfold count_failure in H. simpl in H. lia.
Qed.
Lemma try_rounds_metrics rounds attempt addrs e m r m' :
  try_rounds connect rounds attempt addrs e m = (r, m') →
  (rm_attempts m' + rm_failures m + rm_successes m = rm_attempts m + rm_failures m' + rm_successes m')%nat ∧
  (rm_attempts m' ≤ rm_attempts m + rounds * length addrs)%nat ∧ rm_exhausted m' = rm_exhausted m ∧
  rm_successes m' = (rm_successes m + match r with inl _ => 1 | inr _ => 0 end)%nat.
Proof.
  revert attempt e m. induction rounds as [|n IH]; intros attempt e m; cbn [try_rounds]; [intros [= <- <-]; lia|].
  destruct (try_addrs connect attempt addrs e m) as [[s|e'] m1] eqn:Ht; apply try_addrs_metrics in Ht.
  - intros [= <- <-]. lia.
  - intros H%IH. lia.
Qed.
(** The report adds up: every attempt is counted as a success or a failure,
    attempts are bounded by the policy, and a stream is returned exactly when
    one attempt succeeded. *)
Lemma retry_report_consistent addrs policy :
  let '(result, m) := connect_with_retry_report connect (inl addrs) policy in
  rm_attempts m = (rm_successes m + rm_failures m)%nat ∧
  (rm_attempts m ≤ rp_max_attempts policy * length addrs)%nat ∧
  match result with
  | Ok _ => rm_successes m = 1%nat ∧ rm_exhausted m = 0%nat
  | _ => rm_successes m = 0%nat ∧ rm_exhausted m = 1%nat
  end.
Proof.
  unfold connect_with_retry_report.
  match goal with |- context [try_rounds _ ?n ?a ?l ?e ?m] => destruct (try_rounds connect n a l e m) as [r m'] eqn:Ht end.
  apply try_rounds_metrics in Ht as (H1 & H2 & H3 & H4). simpl in *.
  destruct r; simpl; lia.
Qed.
End retry_facts.
