(* ===== verification/Storage.v ===== *)
(** * Storage: the node's files

    crates/detta-storage/src/lib.rs over a file system that maps paths to
    contents.  Directories are implicit ([create_dir_all] always succeeds),
    the operating system's own failures other than a missing file are not
    modelled, nor is the wording of errors; a crash is: [write_step] and
    [create_step] are the states a write passes through. *)
From S2P Require Import Prelude Effects Merkle Types State AspectRuntime AspectClosure Decimal.
From S2P Require Import Block Consensus Protocol.

Definition MAX_ENCODED_BYTES : N := 64 * 1024 * 1024.
Inductive StorageError := StoreIo | CorruptData | StoreInvalidSnapshot (error : SnapshotError).
Inductive ValidatorSetMetadataAuditOutcome := AuditApplied | AuditPruned | AuditRejected.
Record ValidatorSetMetadataAuditRecord := {
  var_update_id : string; var_outcome : ValidatorSetMetadataAuditOutcome; var_height : N;
  var_signers : list string; var_reason : string;
}.
Record SnapshotImportAuditRecord := {
  sia_snapshot_root : string; sia_manifest_hash : string; sia_required_metadata_roots_root : string;
  sia_required_metadata_roots_count : N; sia_manifest_metadata_roots_count : N;
  sia_chunk_count : N; sia_metadata_roots_verified : bool;
}.
Record SnapshotImportAuditConfig := { sic_max_records : N; sic_max_page_size : N }.
Record ConsensusSigningRecord := {
  csr_validator_id : string; csr_domain : ValidatorSignatureDomain; csr_height : N;
  csr_block_hash : string;
}.
Record StorageBackupManifest := {
  bm_file_count : N; bm_total_bytes : N; bm_snapshot_root : option string;
  bm_highest_block_height : option N; bm_highest_finality_certificate_height : option N;
}.

(** ** Files *)
(** A path below the root: directories, stem and extension. *)
Record Path := { path_dirs : list string; path_stem : string; path_ext : string }.
#[export] Instance Path_eq_dec : EqDecision Path.
Proof. solve_decision. Defined.
#[export] Instance Path_countable : Countable Path.
Proof.
  refine (inj_countable' (λ p, (path_dirs p, path_stem p, path_ext p))
    (λ x, {| path_dirs := x.1.1; path_stem := x.1.2; path_ext := x.2 |}) _). by intros [].
Defined.
Definition with_extension (ext : string) (p : Path) : Path :=
  {| path_dirs := path_dirs p; path_stem := path_stem p; path_ext := ext |}.
Definition bin (dirs : list string) (stem : string) : Path :=
  {| path_dirs := dirs; path_stem := stem; path_ext := "bin" |}.
Abbreviation FileSystem := (gmap Path (list byte)).
Abbreviation FM := (SE FileSystem StorageError).

(** serde_json at one type. *)
Class Json (T : Type) := { to_json : T → option (list byte); from_json : list byte → option T }.
Class JsonInverse (T : Type) `{Json T} : Prop :=
  from_to_json (v : T) bytes : to_json v = Some bytes → from_json bytes = Some v.

Definition file_safe_id (value : string) : string := hex_lower (bytes_of_string value).
Definition snapshot_path : Path := bin [] "latest_snapshot".
Definition snapshot_metadata_roots_path : Path := bin [] "latest_snapshot_metadata_roots".
Definition required_snapshot_metadata_roots_path : Path :=
  bin [] "latest_required_snapshot_metadata_roots".
Definition snapshot_sync_client_metrics_path : Path := bin [] "latest_snapshot_sync_client_metrics".
Definition block_path (height : N) : Path := bin ["blocks"] (pretty height).
Definition certificate_path (height : N) : Path := bin ["certificates"] (pretty height).
Definition slashing_path (validator_id : string) : Path := bin ["slashings"] (file_safe_id validator_id).
Definition validator_set_path : Path := bin [] "validator_set".
Definition pending_validator_set_metadata_authorizations_path : Path :=
  bin [] "pending_validator_set_metadata_authorizations".
Definition validator_set_metadata_audit_path : Path := bin [] "validator_set_metadata_audit".
Definition snapshot_import_audit_path : Path := bin [] "snapshot_import_audit".
Definition snapshot_import_audit_config_path : Path := bin [] "snapshot_import_audit_config".
Definition mempool_path : Path := bin [] "mempool".
Definition validator_signature_domain_path (domain : ValidatorSignatureDomain) : string :=
  match domain with
  | DomainBlockProposal => "block_proposal"
  | DomainVote => "vote"
  | DomainFinalityCertificate => "finality_certificate"
  | DomainValidatorSetUpdate => "validator_set_update"
  | DomainEquivocationEvidence => "equivocation_evidence"
  | DomainValidatorSetMetadataUpdate => "validator_set_metadata_update"
  end.
Definition consensus_signing_record_path (validator_id : string) (domain : ValidatorSignatureDomain)
    (height : N) : Path :=
  bin ["consensus_signing_records"; validator_signature_domain_path domain; file_safe_id validator_id]
    (pretty height).

(** ** Reading and writing values *)
Section values.
Context {T : Type} `{Json T}.
Definition encode_json (value : T) : outcome StorageError (list byte) :=
  let* bytes := ok_or (to_json value) CorruptData in
  do* ensure (len_N bytes <=? MAX_ENCODED_BYTES) CorruptData in
  Ok bytes.
Definition write_json_atomic (path : Path) (value : T) : FM () :=
  let? bytes := encode_json value in
  do! modify (λ fs, <[with_extension "tmp" path := bytes]> fs) in
  modify (λ fs, <[path := bytes]> (delete (with_extension "tmp" path) fs)).
Definition read_json (path : Path) : FM T :=
  let! file := gets (λ fs, fs !! path) in
  let? bytes := ok_or file StoreIo in
  do? ensure (len_N bytes <=? MAX_ENCODED_BYTES) CorruptData in
  lift (ok_or (from_json bytes) CorruptData).
Definition write_json_create_new (path : Path) (value : T) : FM () :=
  let? bytes := encode_json value in
  let! file := gets (λ fs, fs !! path) in
  do? ensure (bool_decide (file = None)) StoreIo in
  modify (λ fs, <[path := bytes]> fs).
Definition exists_path (path : Path) : FM bool := gets (λ fs, bool_decide (is_Some (fs !! path))).
Definition maybe_read_json (path : Path) : FM (option T) :=
  let! there := exists_path path in
  if there then let! v := read_json path in ret (Some v) else ret None.
Definition read_json_or (path : Path) (missing : T) : FM T :=
  let! there := exists_path path in
  if there then read_json path else ret missing.
Definition hash_canonical_json `{Sha256} (value : T) : outcome StorageError string :=
  let* bytes := encode_json value in
  Ok (hex_lower (sha256 (bytes_of_string "detta-storage-root" ++ len_prefix bytes ++ bytes))).
End values.

(** ** The operations of [FileStorage] *)
Definition retain_last {T} (max_records : N) (records : list T) : list T :=
  if max_records <? len_N records then drop (N.to_nat (len_N records - max_records)) records
  else records.
Definition page {T} (offset limit : nat) (records : list T) : list T := take limit (drop offset records).
(** The heights that name files of a directory. *)
Definition file_height (dir : string) (p : Path) : option N :=
  if bool_decide (path_dirs p = [dir]) && bool_decide (path_ext p = "bin") then parse_u64 (path_stem p)
  else None.
Definition heights_in (dir : string) (fs : FileSystem) : list N :=
  merge_sort N.le (omap (λ '(p, _), file_height dir p) (map_to_list fs)).

Section storage.
Context `{Host, !Json StateSnapshot, !Json Block, !Json FinalityCertificate, !Json SlashingRecord}.
Context `{!Json ValidatorSetMetadata, !Json (list SignedValidatorMessage), !Json (gmap string string)}.
Context `{!Json (list ValidatorSetMetadataAuditRecord), !Json (list SnapshotImportAuditRecord)}.
Context `{!Json SnapshotImportAuditConfig, !Json (list Transaction), !Json ConsensusSigningRecord}.

Definition snapshot_valid (snapshot : StateSnapshot) : outcome StorageError () :=
  match from_snapshot snapshot with
  | Ok _ => Ok () | Err e => Err (StoreInvalidSnapshot e) | Panic => Panic | OutOfFuel => OutOfFuel
  end.
Definition commit_snapshot (snapshot : StateSnapshot) : FM () :=
  do? snapshot_valid snapshot in write_json_atomic snapshot_path snapshot.
Definition load_snapshot : FM StateSnapshot :=
  let! snapshot := read_json snapshot_path in
  do? snapshot_valid snapshot in
  ret snapshot.
Definition commit_snapshot_metadata_roots (roots : gmap string string) : FM () :=
  write_json_atomic snapshot_metadata_roots_path roots.
Definition load_snapshot_metadata_roots : FM (gmap string string) :=
  read_json_or snapshot_metadata_roots_path ∅.
Definition commit_required_snapshot_metadata_roots (roots : gmap string string) : FM () :=
  write_json_atomic required_snapshot_metadata_roots_path roots.
Definition load_required_snapshot_metadata_roots : FM (gmap string string) :=
  read_json_or required_snapshot_metadata_roots_path ∅.
Definition required_snapshot_metadata_roots_root : FM string :=
  let! roots := load_required_snapshot_metadata_roots in lift (hash_canonical_json roots).
Definition commit_snapshot_sync_client_metrics {T} `{Json T} (metrics : T) : FM () :=
  write_json_atomic snapshot_sync_client_metrics_path metrics.
Definition load_snapshot_sync_client_metrics {T} `{Json T} : FM (option T) :=
  maybe_read_json snapshot_sync_client_metrics_path.
Definition snapshot_sync_client_metrics_root {T} `{Json T} : FM (option string) :=
  let! metrics := load_snapshot_sync_client_metrics (T:=T) in
  match metrics with
  | Some metrics => let? root := hash_canonical_json metrics in ret (Some root)
  | None => ret None
  end.
Definition commit_block (block : Block) : FM () :=
  write_json_atomic (block_path (hdr_height (blk_header block))) block.
Definition load_block (height : N) : FM Block := read_json (block_path height).
Definition maybe_load_block (height : N) : FM (option Block) := maybe_read_json (block_path height).
Definition load_blocks : FM (list Block) :=
  let! heights := gets (heights_in "blocks") in
  mapM load_block heights.
Definition highest_finality_certificate_height (fs : FileSystem) : option N :=
  foldl (λ highest height, Some (match highest with Some current => N.max current height | None => height end))
    None (heights_in "certificates" fs).
Fixpoint first_some {A B} (f : A → option B) (l : list A) : option B :=
  match l with [] => None | x :: l => match f x with Some y => Some y | None => first_some f l end end.
Definition find_transaction (tx_hash : string) : FM (option Transaction) :=
  let! blocks := load_blocks in
  ret (first_some (λ b, snd <$> list_find (λ tx, tx_tx_hash tx = tx_hash) (blk_transactions b)) blocks).
Definition find_receipt (tx_hash : string) : FM (option Receipt) :=
  let! blocks := load_blocks in
  ret (first_some (λ b, snd <$> list_find (λ r, rc_tx_hash r = tx_hash) (blk_receipts b)) blocks).
Definition commit_finality_certificate (certificate : FinalityCertificate) : FM () :=
  write_json_atomic (certificate_path (fc_height certificate)) certificate.
Definition load_finality_certificate (height : N) : FM FinalityCertificate :=
  read_json (certificate_path height).
Definition maybe_load_finality_certificate (height : N) : FM (option FinalityCertificate) :=
  maybe_read_json (certificate_path height).
Definition commit_slashing_record (record : SlashingRecord) : FM () :=
  write_json_atomic (slashing_path (sr_validator_id record)) record.
Definition load_slashing_record (validator_id : string) : FM SlashingRecord :=
  read_json (slashing_path validator_id).
Definition maybe_load_slashing_record (validator_id : string) : FM (option SlashingRecord) :=
  maybe_read_json (slashing_path validator_id).
Definition load_slashing_records : FM (list SlashingRecord) :=
  let! stems := gets (λ fs, merge_sort cmp_le (omap (λ '(p, _),
    if bool_decide (path_dirs p = ["slashings"]) && bool_decide (path_ext p = "bin")
    then Some (path_stem p) else None) (map_to_list fs))) in
  mapM (λ stem, read_json (bin ["slashings"] stem)) stems.
Definition commit_validator_set_metadata (metadata : ValidatorSetMetadata) : FM () :=
  write_json_atomic validator_set_path metadata.
Definition load_validator_set_metadata : FM ValidatorSetMetadata := read_json validator_set_path.
Definition maybe_load_validator_set_metadata : FM (option ValidatorSetMetadata) :=
  maybe_read_json validator_set_path.
Definition commit_pending_validator_set_metadata_authorizations
    (authorizations : list SignedValidatorMessage) : FM () :=
  write_json_atomic pending_validator_set_metadata_authorizations_path authorizations.
Definition load_pending_validator_set_metadata_authorizations : FM (list SignedValidatorMessage) :=
  read_json_or pending_validator_set_metadata_authorizations_path [].
Definition load_validator_set_metadata_audit_records : FM (list ValidatorSetMetadataAuditRecord) :=
  read_json_or validator_set_metadata_audit_path [].
Definition append_validator_set_metadata_audit_record_with_retention
    (record : ValidatorSetMetadataAuditRecord) (max_records : N) : FM () :=
  let! records := load_validator_set_metadata_audit_records in
  write_json_atomic validator_set_metadata_audit_path (retain_last max_records (records ++ [record])).
Definition append_validator_set_metadata_audit_record (record : ValidatorSetMetadataAuditRecord) : FM () :=
  append_validator_set_metadata_audit_record_with_retention record u64_max.
Definition load_validator_set_metadata_audit_records_page (offset limit : nat)
    : FM (list ValidatorSetMetadataAuditRecord) :=
  let! records := load_validator_set_metadata_audit_records in ret (page offset limit records).
Definition validator_set_metadata_audit_root : FM string :=
  let! records := load_validator_set_metadata_audit_records in lift (hash_canonical_json records).
Definition load_snapshot_import_audit_records : FM (list SnapshotImportAuditRecord) :=
  read_json_or snapshot_import_audit_path [].
Definition append_snapshot_import_audit_record_with_retention
    (record : SnapshotImportAuditRecord) (max_records : N) : FM () :=
  let! records := load_snapshot_import_audit_records in
  write_json_atomic snapshot_import_audit_path (retain_last max_records (records ++ [record])).
Definition append_snapshot_import_audit_record (record : SnapshotImportAuditRecord) : FM () :=
  append_snapshot_import_audit_record_with_retention record u64_max.
Definition load_snapshot_import_audit_records_page (offset limit : nat)
    : FM (list SnapshotImportAuditRecord) :=
  let! records := load_snapshot_import_audit_records in ret (page offset limit records).
Definition snapshot_import_audit_root : FM string :=
  let! records := load_snapshot_import_audit_records in lift (hash_canonical_json records).
Definition commit_snapshot_import_audit_config (config : SnapshotImportAuditConfig) : FM () :=
  write_json_atomic snapshot_import_audit_config_path config.
Definition maybe_load_snapshot_import_audit_config : FM (option SnapshotImportAuditConfig) :=
  maybe_read_json snapshot_import_audit_config_path.
Definition snapshot_import_audit_config_root : FM (option string) :=
  let! config := maybe_load_snapshot_import_audit_config in
  match config with
  | Some config => let? root := hash_canonical_json config in ret (Some root)
  | None => ret None
  end.
Definition commit_mempool (transactions : list Transaction) : FM () :=
  write_json_atomic mempool_path transactions.
Definition load_mempool : FM (list Transaction) := read_json_or mempool_path [].
(** [None] when the record was written, the record there already otherwise.
    [others] is what other processes do to the files between the check and
    the creation. *)
Definition commit_consensus_signing_record_if_absent (others : FileSystem → FileSystem)
    (record : ConsensusSigningRecord) : FM (option ConsensusSigningRecord) :=
  let path := consensus_signing_record_path (csr_validator_id record) (csr_domain record)
                (csr_height record) in
  let! there := exists_path path in
  if there then let! r := read_json path in ret (Some r) else
  do! modify others in
  λ fs, match write_json_create_new path record fs with
        | (Ok _, fs) => (Ok None, fs)
        | (Err StoreIo, fs) =>
            (let! there := exists_path path in
             if there then let! r := read_json path in ret (Some r) else throw StoreIo) fs
        | (Err error, fs) => (Err error, fs)
        | (Panic, fs) => (Panic, fs)
        | (OutOfFuel, fs) => (OutOfFuel, fs)
        end.
Definition maybe_load_consensus_signing_record (validator_id : string)
    (domain : ValidatorSignatureDomain) (height : N) : FM (option ConsensusSigningRecord) :=
  maybe_read_json (consensus_signing_record_path validator_id domain height).

(** ** Backups *)
Definition storage_bytes (fs : FileSystem) : N :=
  map_fold (λ _ bytes total, saturating_add u64_max total (len_N bytes)) 0 fs.
(** [copy_directory_contents]: every file of [source] is copied over those of
    [destination]. *)
Definition copy_directory_contents (source destination : FileSystem) : FileSystem * (N * N) :=
  (source ∪ destination, (N.of_nat (size source), storage_bytes source)).
Definition backup_to (destination : FileSystem) : FM (StorageBackupManifest * FileSystem) :=
  let! there := exists_path snapshot_path in
  let! snapshot_root := (if there then let! s := load_snapshot in ret (Some (snap_global_state_root s))
                         else ret None) in
  let! blocks := load_blocks in
  let! certificate_height := gets highest_finality_certificate_height in
  let! copied := gets (λ fs, copy_directory_contents fs destination) in
  ret ({| bm_file_count := copied.2.1; bm_total_bytes := copied.2.2; bm_snapshot_root := snapshot_root;
          bm_highest_block_height := foldl (λ highest b,
            Some (N.max (default 0 highest) (hdr_height (blk_header b)))) None blocks;
          bm_highest_finality_certificate_height := certificate_height |}, copied.1).
Definition restore_from_backup (backup restore : FileSystem) : FileSystem :=
  (copy_directory_contents backup restore).1.
End storage.

(** ** Values survive *)
Section values_survive.
Context {T : Type} `{JsonInverse T}.
Lemma encode_json_Ok (v : T) bytes :
  encode_json v = Ok bytes → len_N bytes ≤ MAX_ENCODED_BYTES ∧ from_json bytes = Some v.
Proof.
  unfold encode_json. intros Hv. simplify_ok. subst. split; [done|]. by apply from_to_json.
Qed.
Lemma read_bytes path (v : T) fs bytes :
  fs !! path = Some bytes → len_N bytes ≤ MAX_ENCODED_BYTES → from_json bytes = Some v →
  read_json path fs = (Ok v, fs).
Proof.
  intros Hp Hl Hj. unfold read_json, bind, gets, lift. rewrite Hp. cbn [ok_or].
  rewrite (proj2 (N.leb_le _ _) Hl). cbn [ensure]. by rewrite Hj.
Qed.
Lemma write_Ok path (v : T) fs fs' :
  write_json_atomic path v fs = (Ok (), fs') →
  ∃ bytes, encode_json v = Ok bytes ∧ fs' = <[path := bytes]> (delete (with_extension "tmp" path) fs).
Proof.
  unfold write_json_atomic, bind, lift, modify. destruct (encode_json v) as [bytes| | |]; simpl; try done.
  intros [= <-]. exists bytes. split; [done|]. f_equal. apply map_eq. intros p.
  destruct (decide (p = with_extension "tmp" path)) as [->|].
  - by rewrite !lookup_delete_eq.
  - by rewrite !lookup_delete_ne, lookup_insert_ne.
Qed.
Lemma write_read path (v : T) fs fs' :
  write_json_atomic path v fs = (Ok (), fs') →
  read_json path fs' = (Ok v, fs') ∧
  ∀ p, p ≠ path → path_ext p ≠ "tmp" → fs' !! p = fs !! p.
Proof.
  intros (bytes & [Hl Hj]%encode_json_Ok & ->)%write_Ok. split.
  - by eapply read_bytes; [rewrite lookup_insert_eq|..].
  - intros p Hne Hx. rewrite lookup_insert_ne, lookup_delete_ne; [done| |done].
    intros <-. by apply Hx.
Qed.
End values_survive.

(** ** Crashes

    The states an atomic write passes through: the temporary file created,
    then filled piece by piece, then renamed over the target. *)
Inductive write_phase := WriteStart | Writing (written : list byte) | WriteDone.
Inductive write_step (path : Path) (bytes : list byte) : relation (write_phase * FileSystem) :=
| ws_create fs : write_step path bytes (WriteStart, fs) (Writing [], <[with_extension "tmp" path := []]> fs)
| ws_write written piece fs : written ++ piece `prefix_of` bytes →
    write_step path bytes (Writing written, fs)
      (Writing (written ++ piece), <[with_extension "tmp" path := written ++ piece]> fs)
| ws_rename fs : write_step path bytes (Writing bytes, fs)
    (WriteDone, <[path := bytes]> (delete (with_extension "tmp" path) fs)).
(** Nothing but the temporary file has changed, or the write is complete. *)
Definition write_inv (path : Path) (bytes : list byte) (fs : FileSystem)
    (st : write_phase * FileSystem) : Prop :=
  let tmp := with_extension "tmp" path in
  (∀ p, p ≠ path → p ≠ tmp → st.2 !! p = fs !! p) ∧
  match st.1 with
  | WriteDone => st.2 !! path = Some bytes ∧ st.2 !! tmp = None
  | _ => st.2 !! path = fs !! path
  end.
Lemma write_inv_reachable path bytes fs st :
  path_ext path ≠ "tmp" → rtc (write_step path bytes) (WriteStart, fs) st → write_inv path bytes fs st.
Proof.
  intros Hx Hr. assert (Hne : path ≠ with_extension "tmp" path) by (intros He; apply Hx; by rewrite He).
  assert (Hstep : ∀ s s', write_inv path bytes fs s → write_step path bytes s s' → write_inv path bytes fs s').
  { intros s s' [Ho Hc] Hs. destruct Hs; unfold write_inv in *; simpl in *.
    - split; [intros p ??; rewrite lookup_insert_ne by done; auto|by rewrite lookup_insert_ne].
    - split; [intros p ??; rewrite lookup_insert_ne by done; auto|by rewrite lookup_insert_ne].
    - split; [intros p ??; rewrite lookup_insert_ne, lookup_delete_ne by done; auto|].
      rewrite lookup_insert_eq, lookup_insert_ne, lookup_delete_eq by done. done. }
  remember (WriteStart, fs) as s0. assert (Hi : write_inv path bytes fs s0) by (subst; by split).
  clear Heqs0. induction Hr; eauto.
Qed.

(** ** The double-signing guard *)
Section signing.
Context `{JsonInverse ConsensusSigningRecord}.
Definition record_path (r : ConsensusSigningRecord) : Path :=
  consensus_signing_record_path (csr_validator_id r) (csr_domain r) (csr_height r).
(** Attempts to claim a signature, each with what others do meanwhile. *)
Abbreviation attempt := ((FileSystem → FileSystem) * ConsensusSigningRecord)%type.
Fixpoint claim_all (attempts : list attempt) (fs : FileSystem)
    : list (outcome StorageError (option ConsensusSigningRecord)) :=
  match attempts with
  | [] => []
  | (others, r) :: attempts =>
      let '(o, fs) := commit_consensus_signing_record_if_absent others r fs in
      o :: claim_all attempts fs
  end.
(** Other processes neither remove nor change the signing records they find. *)
Definition keeps_files (f : FileSystem → FileSystem) : Prop := ∀ fs, fs ⊆ f fs.

Lemma create_new_Ok path (r : ConsensusSigningRecord) fs fs' :
  write_json_create_new path r fs = (Ok (), fs') →
  fs !! path = None ∧ ∃ bytes, encode_json r = Ok bytes ∧ fs' = <[path := bytes]> fs.
Proof.
  unfold write_json_create_new, bind, lift, gets, modify.
  destruct (encode_json r) as [bytes| | |]; simpl; try done.
  destruct (fs !! path) eqn:Hp; simpl; try done. intros [= <-]. eauto.
Qed.
Lemma claim_Ok others r fs fs' :
  commit_consensus_signing_record_if_absent others r fs = (Ok None, fs') →
  fs !! record_path r = None ∧ others fs !! record_path r = None ∧
  ∃ bytes, encode_json r = Ok bytes ∧ fs' = <[record_path r := bytes]> (others fs).
Proof.
  unfold commit_consensus_signing_record_if_absent, bind at 1, exists_path at 1, gets, record_path.
  case_bool_decide as Hx; simpl.
  { unfold bind, ret. by destruct (read_json _ _) as [[] ?]. }
  unfold bind at 1, modify.
  destruct (write_json_create_new _ _ _) as [[[]|[]| |] fs1] eqn:Hw; try done.
  - intros [= <-]. apply create_new_Ok in Hw as [Hn Hb]. split_and!; [|done|done].
    by apply eq_None_not_Some.
  - unfold bind, exists_path, gets, throw, ret. simpl. case_bool_decide; [|done].
    by destruct (read_json _ _) as [[] ?].
Qed.
(** Where the file is, its content is the answer and nothing changes. *)
Lemma claim_taken others r fs :
  is_Some (fs !! record_path r) →
  commit_consensus_signing_record_if_absent others r fs =
  (match read_json (T:=ConsensusSigningRecord) (record_path r) fs with
   | (Ok r', fs) => (Ok (Some r'), fs)
   | (Err e, fs) => (Err e, fs) | (Panic, fs) => (Panic, fs) | (OutOfFuel, fs) => (OutOfFuel, fs)
   end).
Proof.
  intros Hs. unfold commit_consensus_signing_record_if_absent, bind at 1, exists_path, gets.
  fold (record_path r). by rewrite bool_decide_true.
Qed.
Lemma read_keeps {T} `{Json T} path fs : (read_json (T:=T) path fs).2 = fs.
Proof.
  unfold read_json, bind, gets, lift. destruct (fs !! path) as [l|]; simpl; [|done].
  destruct (len_N l <=? _); simpl; [|done]. by destruct (from_json l).
Qed.
Lemma claim_keeps others r fs :
  keeps_files others → fs ⊆ (commit_consensus_signing_record_if_absent others r fs).2.
Proof.
  intros Hk. destruct (decide (is_Some (fs !! record_path r))) as [Hs|Hs].
  { rewrite claim_taken by done. pose proof (read_keeps (T:=ConsensusSigningRecord) (record_path r) fs) as Hr.
    by destruct (read_json _ _) as [[] ?]; simpl in *; subst. }
  unfold commit_consensus_signing_record_if_absent, bind at 1, exists_path at 1, gets.
  fold (record_path r). rewrite bool_decide_false by done. unfold bind at 1, modify. cbn match.
  destruct (write_json_create_new _ _ _) as [o fs1] eqn:Hw.
  assert (Hs1 : fs ⊆ fs1).
  { unfold write_json_create_new, bind, lift, gets, modify in Hw.
    destruct (encode_json r); simplify_eq/=; [|apply Hk..].
    destruct (others fs !! record_path r) eqn:Hp; simplify_eq/=; [apply Hk|].
    etrans; [apply Hk|]. by apply insert_subseteq. }
  destruct o as [|[]| |]; try done.
  unfold bind, exists_path, gets, ret, throw. case_bool_decide; [|done].
  pose proof (read_keeps (T:=ConsensusSigningRecord) (record_path r) fs1) as Hr.
  by destruct (read_json _ _) as [[] ?]; simpl in *; subst.
Qed.
Lemma claims_taken attempts p fs i others r :
  Forall (keeps_files ∘ fst) attempts → is_Some (fs !! p) →
  attempts !! i = Some (others, r) → record_path r = p →
  claim_all attempts fs !! i ≠ Some (Ok None).
Proof.
  intros Hk. revert i fs. induction Hk as [|[o r0] l Hk Hl IH]; intros [|i] fs Hs Hi Hp; simplify_eq/=;
    destruct (commit_consensus_signing_record_if_absent _ _ fs) as [out fs1] eqn:Hc; simpl.
  - intros [= ->]. apply claim_Ok in Hc as [Hn _]. by destruct Hs; congruence.
  - apply IH; [|done..]. destruct Hs as [b Hb]. exists b. eapply lookup_weaken; [done|].
    pose proof (claim_keeps o r0 fs Hk) as Hx. by rewrite Hc in Hx.
Qed.
(** A recorded signature stands: every later attempt for the validator,
    domain and height, by whichever process, is answered with the record made
    first and changes no file. *)
Theorem signing_claim_stands others r fs fs1 fs2 others' r' :
  commit_consensus_signing_record_if_absent others r fs = (Ok None, fs1) →
  fs2 !! record_path r = fs1 !! record_path r →
  csr_validator_id r' = csr_validator_id r → csr_domain r' = csr_domain r → csr_height r' = csr_height r →
  commit_consensus_signing_record_if_absent others' r' fs2 = (Ok (Some r), fs2).
Proof.
  intros (_ & _ & bytes & [Hl Hj]%encode_json_Ok & ->)%claim_Ok. rewrite lookup_insert_eq.
  intros Hb Hv Hd Hh. assert (Hp : record_path r' = record_path r) by (unfold record_path; congruence).
  rewrite claim_taken by (rewrite Hp; by eexists). by rewrite Hp, (read_bytes _ r _ bytes).
Qed.
(** However the attempts of any number of processes to record a signature
    interleave, two of them that succeed are for different validators,
    signature domains or heights. *)
Theorem no_double_signing attempts fs i j oi oj ri rj :
  Forall (keeps_files ∘ fst) attempts →
  attempts !! i = Some (oi, ri) → attempts !! j = Some (oj, rj) → i ≠ j →
  claim_all attempts fs !! i = Some (Ok None) → claim_all attempts fs !! j = Some (Ok None) →
  (csr_validator_id ri, csr_domain ri, csr_height ri) ≠ (csr_validator_id rj, csr_domain rj, csr_height rj).
Proof.
  assert (Hw : ∀ i j fs oi oj ri rj, (i < j)%nat → Forall (keeps_files ∘ fst) attempts →
    attempts !! i = Some (oi, ri) → attempts !! j = Some (oj, rj) →
    claim_all attempts fs !! i = Some (Ok None) → claim_all attempts fs !! j = Some (Ok None) →
    ∀ p, record_path ri = p → record_path rj = p → False).
  { clear. intros i j fs oi oj ri rj Hij Hk. revert i j fs Hij.
    induction Hk as [|[o r0] l Hk Hl IH]; intros i j fs Hij Hi Hj Hci Hcj p Hpi Hpj; [done|].
    destruct j as [|j]; [lia|]. simpl in Hci, Hcj, Hj.
    destruct (commit_consensus_signing_record_if_absent _ _ fs) as [out fs1] eqn:Hc.
    destruct i as [|i]; simpl in Hi, Hci; [|by apply (IH i j fs1 ltac:(lia) Hi Hj Hci Hcj p)].
    injection Hi as -> ->. injection Hci as ->.
    apply claim_Ok in Hc as (_ & _ & b & _ & ->).
    eapply (claims_taken _ p); [exact Hl| |exact Hj|done|exact Hcj]. rewrite Hpi, lookup_insert_eq. by eexists. }
  intros Hk Hi Hj Hij Hci Hcj He. assert (record_path ri = record_path rj) as Hp.
  { unfold record_path. by injection He as -> -> ->. }
  destruct (decide (i < j)%nat) as [Hl|Hl]; [by apply (Hw i j fs _ _ _ _ Hl Hk Hi Hj Hci Hcj _ eq_refl)|].
  by apply (Hw j i fs _ _ _ _ ltac:(lia) Hk Hj Hi Hcj Hci _ eq_refl).
Qed.
End signing.

(** ** Atomic replacement *)
Section atomic.
Context {T : Type} `{JsonInverse T}.
(** C27. A crash at any point of [write_json_atomic] leaves every file but the
    temporary one either as it was or, for the target alone, holding the
    whole new value; a write that is not interrupted ends in the state the
    function returns, which is also where the write can always get. *)
Theorem crash_leaves_old_or_new path (v : T) bytes fs st :
  path_ext path ≠ "tmp" → encode_json v = Ok bytes →
  rtc (write_step path bytes) (WriteStart, fs) st →
  (∀ p, p ≠ path → p ≠ with_extension "tmp" path → st.2 !! p = fs !! p) ∧
  (st.2 !! path = fs !! path ∨ read_json path st.2 = (Ok v, st.2)) ∧
  (st.1 = WriteDone → write_json_atomic path v fs = (Ok (), st.2)) ∧
  rtc (write_step path bytes) (WriteStart, fs) (WriteDone, (write_json_atomic path v fs).2).
Proof.
  intros Hx Hv Hr. pose proof (encode_json_Ok v bytes Hv) as [Hl Hj].
  assert (Hne : path ≠ with_extension "tmp" path) by (intros He; apply Hx; by rewrite He).
  assert (Hw : write_json_atomic path v fs = (Ok (), <[path := bytes]> (delete (with_extension "tmp" path) fs))).
  { destruct (write_json_atomic path v fs) as [o fs'] eqn:Hw. pose proof Hw as Hw'. revert Hw.
    unfold write_json_atomic, bind, lift, modify. rewrite Hv. intros [= <- _].
    apply write_Ok in Hw' as (b & Hb & ->). congruence. }
  pose proof (write_inv_reachable path bytes fs st Hx Hr) as [Ho Hc]. split; [exact Ho|].
  split_and!.
  - destruct (st.1); [by left..|]. right. by apply (read_bytes _ v _ bytes); [apply Hc|..].
  - intros Hd. rewrite Hd in Hc. rewrite Hw. f_equal. apply map_eq. intros p.
    destruct (decide (p = path)) as [->|Hp]; [by rewrite lookup_insert_eq; symmetry; apply Hc|].
    rewrite lookup_insert_ne by done. destruct (decide (p = with_extension "tmp" path)) as [->|Ht].
    + rewrite lookup_delete_eq. symmetry. apply Hc.
    + rewrite lookup_delete_ne by done. symmetry. by apply Ho.
  - rewrite Hw. simpl. eapply rtc_l; [apply ws_create|].
    eapply rtc_l; [by apply (ws_write _ _ [] bytes)|]. simpl. eapply rtc_l; [apply ws_rename|].
    rewrite !delete_insert_eq. apply rtc_refl.
Qed.
End atomic.

(** ** The block store as a map from heights to blocks *)
Lemma NoDup_omap {A B} (f : A → option B) l :
  NoDup l → (∀ x y z, x ∈ l → y ∈ l → f x = Some z → f y = Some z → x = y) → NoDup (omap f l).
Proof.
  induction 1 as [|x l Hx Hl IH]; intros Hf; [constructor|]. simpl.
  assert (Hn : NoDup (omap f l)) by (apply IH; intros; eapply Hf; eauto using list_elem_of_further).
  destruct (f x) as [z|] eqn:Hz; [|done]. constructor; [|done].
  intros (y & Hy & Hfy)%list_elem_of_omap. apply Hx.
  rewrite (Hf x y z); eauto using list_elem_of_further, list_elem_of_here.
Qed.
Lemma StronglySorted_lt l : StronglySorted N.le l → NoDup l → StronglySorted N.lt l.
Proof.
  induction 1 as [|x l Hl IH Hx]; intros Hn; [constructor|]. inversion Hn as [|?? Hni Hn']; subst.
  constructor; [by apply IH|]. rewrite Forall_forall in *. intros y Hy. specialize (Hx y Hy).
  assert (x ≠ y) by (by intros ->). lia.
Qed.
Section block_store.
Context `{JsonInverse Block}.
(** The files of the blocks directory are those of the blocks of [m]. *)
Record stores (fs : FileSystem) (m : gmap N Block) : Prop := {
  stores_block h b : m !! h = Some b → hdr_height (blk_header b) = h ∧ h ≤ u64_max ∧
    ∃ bytes, fs !! block_path h = Some bytes ∧ encode_json b = Ok bytes;
  stores_only p : path_dirs p = ["blocks"] → path_ext p = "bin" → is_Some (fs !! p) →
    ∃ h, p = block_path h ∧ is_Some (m !! h);
}.
Lemma block_path_inj h h' : block_path h = block_path h' → h = h'.
Proof. intros [= Hp]. by apply (inj pretty) in Hp. Qed.
Lemma stores_empty : stores ∅ ∅.
Proof. by constructor; [|intros p _ _ []]. Qed.
Lemma stores_load fs m h b : stores fs m → m !! h = Some b → load_block h fs = (Ok b, fs).
Proof.
  intros Hs (_ & _ & bytes & Hp & [Hl Hj]%encode_json_Ok)%(stores_block _ _ Hs).
  by apply (read_bytes _ b _ bytes).
Qed.
Lemma stores_missing fs m h : stores fs m → m !! h = None → fs !! block_path h = None.
Proof.
  intros Hs Hm. apply eq_None_not_Some. intros Hp.
  apply (stores_only _ _ Hs) in Hp as (h' & ->%block_path_inj & [b Hb]); [|done..]. congruence.
Qed.
Lemma file_height_block h : h ≤ u64_max → file_height "blocks" (block_path h) = Some h.
Proof. intros Hh. unfold file_height. simpl. by rewrite parse_u64_pretty. Qed.
Lemma stores_heights fs m : stores fs m → heights_in "blocks" fs ≡ₚ elements (dom m).
Proof.
  intros Hs. unfold heights_in. rewrite merge_sort_Permutation.
  assert (Hin : ∀ p bytes h, (p, bytes) ∈ map_to_list fs → file_height "blocks" p = Some h →
    p = block_path h ∧ h ∈ dom m).
  { intros p bytes h Hp%elem_of_map_to_list Hh. unfold file_height in Hh.
    destruct (bool_decide _ && bool_decide _) eqn:Hd; [|done].
    apply andb_true_iff in Hd as [Hd%bool_decide_eq_true Hx%bool_decide_eq_true].
    destruct (stores_only _ _ Hs p Hd Hx) as (h' & -> & [b Hb]); [by eexists|].
    destruct (stores_block _ _ Hs h' b Hb) as (_ & Hle & _). simpl in Hh.
    rewrite parse_u64_pretty in Hh by done. injection Hh as ->. split; [done|]. by apply elem_of_dom. }
  apply NoDup_Permutation; [|apply NoDup_elements|].
  - apply NoDup_omap; [apply NoDup_map_to_list|]. intros [p b] [p' b'] h Hp Hp' Hh Hh'.
    destruct (Hin p b h Hp Hh) as [-> _]. destruct (Hin p' b' h Hp' Hh') as [-> _].
    apply elem_of_map_to_list in Hp, Hp'. congruence.
  - intros h. rewrite list_elem_of_omap, elem_of_elements. split.
    + intros ([p b] & Hp & Hh). by apply (Hin p b h Hp).
    + intros [b Hb]%elem_of_dom. destruct (stores_block _ _ Hs h b Hb) as (_ & Hle & bytes & Hf & _).
      exists (block_path h, bytes). rewrite elem_of_map_to_list. by rewrite file_height_block.
Qed.
(** Loading the blocks at known heights. *)
Lemma stores_mapM fs m hs :
  stores fs m → (∀ h, h ∈ hs → h ∈ dom m) →
  ∃ bs, mapM load_block hs fs = (Ok bs, fs) ∧ Forall2 (λ h b, m !! h = Some b) hs bs.
Proof.
  intros Hs. induction hs as [|h hs IH]; intros Hd; [by exists []|].
  destruct IH as (bs & Hm & Hf); [intros; apply Hd; by right|].
  assert (h ∈ dom m) as [b Hb]%elem_of_dom by (apply Hd; by left).
  exists (b :: bs). split; [|by constructor]. simpl. unfold bind.
  by rewrite (stores_load _ _ _ _ Hs Hb), Hm.
Qed.
Lemma stores_insert fs m b fs' :
  stores fs m → hdr_height (blk_header b) ≤ u64_max → commit_block b fs = (Ok (), fs') →
  stores fs' (<[hdr_height (blk_header b) := b]> m).
Proof.
  intros Hs Hle (bytes & Hb & ->)%write_Ok. set (h := hdr_height (blk_header b)) in *. constructor.
  - intros h' b' [[<- <-]|[Hne Hm]]%lookup_insert_Some.
    + split_and!; [done|done|]. exists bytes. by rewrite lookup_insert_eq.
    + destruct (stores_block _ _ Hs h' b' Hm) as (? & ? & bytes' & ? & ?). split_and!; [done|done|].
      exists bytes'. rewrite lookup_insert_ne by (by intros ?%block_path_inj). by rewrite lookup_delete_ne.
  - intros p Hd Hx [bytes' Hp]. destruct (decide (p = block_path h)) as [->|Hne].
    { exists h. by rewrite lookup_insert_eq. }
    rewrite lookup_insert_ne in Hp by done.
    apply lookup_delete_Some in Hp as [_ Hp].
    destruct (stores_only _ _ Hs p Hd Hx) as (h' & -> & ?); [by eexists|].
    exists h'. split; [done|]. rewrite lookup_insert_ne; [done|congruence].
Qed.
(** C28. The block files implement a map from heights to blocks: committing a
    block is insertion, loading is lookup, and loading all blocks returns
    exactly the blocks of the map by strictly increasing height. *)
Theorem block_store_refines_map fs m b fs' :
  stores fs m → hdr_height (blk_header b) ≤ u64_max → commit_block b fs = (Ok (), fs') →
  let m' := <[hdr_height (blk_header b) := b]> m in
  stores fs' m' ∧
  (∀ h, maybe_load_block h fs' = (Ok (m' !! h), fs')) ∧
  ∃ bs, load_blocks fs' = (Ok bs, fs') ∧
    StronglySorted N.lt (map (hdr_height ∘ blk_header) bs) ∧
    (∀ b', b' ∈ bs ↔ m' !! hdr_height (blk_header b') = Some b').
Proof.
  intros Hs0 Hle Hc m'. assert (Hs : stores fs' m') by by eapply stores_insert.
  clearbody m'. clear Hs0 Hc. split_and!; [done| |].
  { intros h. unfold maybe_load_block, maybe_read_json, bind, exists_path, gets.
    destruct (m' !! h) as [b'|] eqn:Hm.
    - pose proof (stores_load _ _ _ _ Hs Hm) as Hl. unfold load_block in Hl.
      destruct (stores_block _ _ Hs h b' Hm) as (_ & _ & bytes & -> & _).
      rewrite bool_decide_true by by eexists. by rewrite Hl.
    - by rewrite (stores_missing _ _ _ Hs Hm). }
  pose proof (stores_heights _ _ Hs) as Hp.
  destruct (stores_mapM fs' m' (heights_in "blocks" fs') Hs) as (bs & Hm & Hf).
  { intros h. by rewrite Hp, elem_of_elements. }
  exists bs. split; [done|].
  assert (Hh : map (hdr_height ∘ blk_header) bs = heights_in "blocks" fs').
  { clear Hp Hm. induction Hf as [|h b' hs bs' Hb Hf IH]; [done|]. simpl.
    rewrite IH. f_equal. by apply (stores_block _ _ Hs). }
  split.
  - rewrite Hh. apply StronglySorted_lt; [|by rewrite Hp; apply NoDup_elements].
    apply StronglySorted_merge_sort; apply _.
  - intros b'. split.
    + intros [i Hi]%list_elem_of_lookup. destruct (Forall2_lookup_r _ _ _ _ _ Hf Hi) as (h & _ & Hb).
      by destruct (stores_block _ _ Hs h b' Hb) as (-> & _).
    + intros Hb. assert (hdr_height (blk_header b') ∈ heights_in "blocks" fs') as [i Hi]%list_elem_of_lookup.
      { rewrite Hp, elem_of_elements. by apply elem_of_dom. }
      destruct (Forall2_lookup_l _ _ _ _ _ Hf Hi) as (b2 & Hb2 & Hm2). apply list_elem_of_lookup. exists i.
      congruence.
Qed.
End block_store.

(** ** Audit logs *)
Lemma retain_last_drop {T} k (l : list T) : retain_last k l = drop (length l - N.to_nat k) l.
Proof.
  unfold retain_last, len_N. destruct (N.ltb_spec k (N.of_nat (length l))); [f_equal; lia|].
  by replace (length l - N.to_nat k)%nat with 0%nat by lia.
Qed.
Lemma retain_last_app {T} k (l l' : list T) :
  retain_last k (retain_last k l ++ l') = retain_last k (l ++ l').
Proof.
  rewrite !retain_last_drop, !length_app, length_drop. rewrite <-drop_app_le, drop_drop by lia.
  f_equal. lia.
Qed.
Section audit.
Context `{JsonInverse (list ValidatorSetMetadataAuditRecord)}.
Lemma append_loads r k fs old fs' :
  load_validator_set_metadata_audit_records fs = (Ok old, fs) →
  append_validator_set_metadata_audit_record_with_retention r k fs = (Ok (), fs') →
  load_validator_set_metadata_audit_records fs' = (Ok (retain_last k (old ++ [r])), fs').
Proof.
  intros Hl. unfold append_validator_set_metadata_audit_record_with_retention, bind. rewrite Hl.
  intros Hw. pose proof Hw as [Hr _]%write_read. apply write_Ok in Hw as (b & _ & ->).
  unfold load_validator_set_metadata_audit_records, read_json_or, bind, exists_path, gets.
  rewrite bool_decide_true by (by rewrite lookup_insert_eq). exact Hr.
Qed.
(** However many records are appended, the audit log holds the last
    [max_records] of all there were, in order. *)
Theorem audit_log_keeps_last k fs old rs r fs' :
  load_validator_set_metadata_audit_records fs = (Ok old, fs) →
  forM (λ r, append_validator_set_metadata_audit_record_with_retention r k) (rs ++ [r]) fs = (Ok (), fs') →
  load_validator_set_metadata_audit_records fs' = (Ok (retain_last k (old ++ rs ++ [r])), fs').
Proof.
  revert fs old. induction rs as [|r0 rs IH]; intros fs old Hl; simpl; unfold bind, ret.
  - destruct (append_validator_set_metadata_audit_record_with_retention r k fs) as [[[]| | |] fs1] eqn:Ha;
      try done. intros [= <-]. by eapply append_loads.
  - destruct (append_validator_set_metadata_audit_record_with_retention r0 k fs) as [[[]| | |] fs1] eqn:Ha;
      try done. intros Hf. rewrite (IH fs1 _ (append_loads _ _ _ _ _ Hl Ha) Hf).
    do 2 f_equal. by rewrite retain_last_app, <-(assoc_L (++)).
Qed.
End audit.
