(* ===== verification/Verify.v ===== *)
(** * Verify: the checks of detta-verify on states, traces and blocks

    crates/detta-verify/src/lib.rs: the linter of a state, the verifier of a
    kernel trace, replay on several replicas, and the generated corpora.  The
    manifests of a release are in [Release]. *)
From S2P Require Import Prelude Effects Merkle Types State Policies AspectRuntime Runtime.
From S2P Require Import Factory Steps Exec Transactions Block.

Inductive LintError :=
| ContractHasNoExports (contract : string)
| ContractHasNoDeclaredInvariants (contract : string)
| ContractExportMissingPolicy (contract : string) (method : Method)
| ContractPolicyWithoutExport (contract : string) (method : Method)
| GovernanceTargetMissing (governance target : string)
| LendingOracleMissing (vault oracle : string)
| ScheduledUpgradeTargetMissing (upgrade_id target : string)
| ScheduledUpgradeGovernanceMissing (upgrade_id governance : string)
| ScheduledPolicyUpdateTargetMissing (update_id target : string)
| ScheduledPolicyUpdateGovernanceMissing (update_id governance : string)
| ScheduledPolicyUpdateMethodMissing (update_id target : string) (method : Method)
| PausedContractMissing (contract : string).

(** [if cond { errors.push(e) }] *)
Definition report {E} (cond : bool) (e : E) : list E := if cond then [e] else [].
Definition contract_ids (s : DeTTaState) : gset string :=
  list_to_set (cr_contract_id <$> values (contracts s)).
Definition lint_contract (ids : gset string) (c : ContractRecord) : list LintError :=
  let id := cr_contract_id c in
  report (bool_decide (cr_exported_methods c = ∅)) (ContractHasNoExports id) ++
  report (bool_decide (cr_declared_invariants c = ∅)) (ContractHasNoDeclaredInvariants id) ++
  concat ((λ m, report (bool_decide (cr_method_policies c !! m = None)) (ContractExportMissingPolicy id m))
    <$> set_iter (cr_exported_methods c)) ++
  concat ((λ m, report (bool_decide (m ∉ cr_exported_methods c)) (ContractPolicyWithoutExport id m))
    <$> keys (cr_method_policies c)) ++
  match cr_kind c with
  | Governance governed _ => report (bool_decide (governed ∉ ids)) (GovernanceTargetMissing id governed)
  | LendingVault _ _ oracle _ _ _ _ => report (bool_decide (oracle ∉ ids)) (LendingOracleMissing id oracle)
  | _ => []
  end.
Definition lint_upgrade (ids : gset string) (u : ScheduledUpgrade) : list LintError :=
  report (bool_decide (su_target_contract u ∉ ids))
    (ScheduledUpgradeTargetMissing (su_upgrade_id u) (su_target_contract u)) ++
  report (bool_decide (su_governance_contract u ∉ ids))
    (ScheduledUpgradeGovernanceMissing (su_upgrade_id u) (su_governance_contract u)).
Definition lint_policy_update (s : DeTTaState) (ids : gset string) (u : ScheduledPolicyUpdate)
    : list LintError :=
  (if bool_decide (spu_target_contract u ∉ ids)
   then [ScheduledPolicyUpdateTargetMissing (spu_update_id u) (spu_target_contract u)]
   else match contracts s !! spu_target_contract u with
        | Some target => report (bool_decide (method_policy target (spu_method u) = None))
            (ScheduledPolicyUpdateMethodMissing (spu_update_id u) (spu_target_contract u) (spu_method u))
        | None => []
        end) ++
  report (bool_decide (spu_governance_contract u ∉ ids))
    (ScheduledPolicyUpdateGovernanceMissing (spu_update_id u) (spu_governance_contract u)).
Definition lint_state (s : DeTTaState) : list LintError :=
  let ids := contract_ids s in
  concat (lint_contract ids <$> values (contracts s)) ++
  concat (lint_upgrade ids <$> values (scheduled_upgrades s)) ++
  concat (lint_policy_update s ids <$> values (scheduled_policy_updates s)) ++
  concat ((λ paused, report (bool_decide (paused ∉ ids)) (PausedContractMissing paused))
    <$> set_iter (paused_contracts s)).

(** ** Kernel traces *)
Inductive TraceOp :=
| OpStateGet (key : StateKey)
| OpStateSet (key : StateKey)
| OpAbort
| OpCallContract (contract : string) (method : Method).
Inductive TraceError :=
| WriteScopeViolation (key : StateKey)
| ContractIsolationViolation (key : StateKey) (contract : string).
Definition owner_of_key (key : StateKey) : string := owner_contract key.
Definition trace_op_errors (contract : string) (write_scope : gset StateKey) (op : TraceOp)
    : list TraceError :=
  match op with
  | OpStateSet key =>
      report (bool_decide (owner_of_key key ≠ contract)) (ContractIsolationViolation key contract) ++
      report (bool_decide (key ∉ write_scope)) (WriteScopeViolation key)
  | _ => []
  end.
Definition verify_kernel_trace (contract : string) (write_scope : gset StateKey)
    (trace : list TraceOp) : list TraceError :=
  concat (trace_op_errors contract write_scope <$> trace).

(** ** Replay *)
Inductive DifferentialReplayError :=
| NotEnoughReplicas
| ReplicaMismatch (replica : nat) (expected_root actual_root : string)
| ReplayBlockMismatch (replica : nat).
#[export] Instance Transaction_eq_dec : EqDecision Transaction.
Proof. solve_decision. Defined.
#[export] Instance BlockHeader_eq_dec : EqDecision BlockHeader.
Proof. solve_decision. Defined.
#[export] Instance Block_eq_dec : EqDecision Block.
Proof. solve_decision. Defined.
Section replay.
Context `{Host}.
Definition replica_block (initial : DeTTaState) (transactions : list Transaction) (height : N)
    : outcome DifferentialReplayError (Block * DeTTaState) :=
  from_void (build_block initial height transactions 1000 "verifier" "cert").
Fixpoint check_replicas (initial : DeTTaState) (transactions : list Transaction) (height : N)
    (expected_block : Block) (expected_root : string) (replicas : list nat)
    : outcome DifferentialReplayError () :=
  match replicas with
  | [] => Ok ()
  | replica :: replicas =>
      let* built := replica_block initial transactions height in
      let actual_root := global_state_root built.2 in
      do* ensure (bool_decide (actual_root = expected_root))
        (ReplicaMismatch replica expected_root actual_root) in
      do* ensure (bool_decide (built.1 = expected_block)) (ReplayBlockMismatch replica) in
      check_replicas initial transactions height expected_block expected_root replicas
  end.
Definition verify_differential_replay (initial : DeTTaState) (transactions : list Transaction)
    (height : N) (replicas : nat) : outcome DifferentialReplayError Block :=
  do* ensure (2 <=? replicas)%nat NotEnoughReplicas in
  let* expected := replica_block initial transactions height in
  do* check_replicas initial transactions height expected.1 (global_state_root expected.2)
        (seq 1 (replicas - 1)) in
  Ok expected.1.
Definition verify_deterministic_replay (initial : DeTTaState) (transactions : list Transaction)
    (height : N) : outcome ExecutionError Block :=
  map_err (verify_differential_replay initial transactions height 2) InvariantViolation.
End replay.

(** ** Generated corpora *)
Definition lcg_next (value : N) : N :=
  ((value * 6364136223846793005) mod 18446744073709551616 + 1) mod 18446744073709551616.
Definition generated_tx (chain : ChainId) (target tx_hash sender : string) (nonce : N)
    (method : Method) (args : list Argument) : Transaction :=
  {| tx_chain_id := chain; tx_tx_hash := tx_hash; tx_sender := sender; tx_nonce := nonce;
     tx_valid_until_height := None; tx_target := target; tx_method := method; tx_args := args;
     tx_signature_ok := true; tx_budget := 1000000 |}.
Definition corpus_principals : list string := ["Alice"; "Bob"; "Carol"].
Definition principal_at (i : N) : string := default "" (corpus_principals !! N.to_nat i).
(** One transfer of the corpus: the generator's state and the nonces, by sender. *)
Definition transfer_step (chain : ChainId) (target : ContractId) (asset : string) (seed : N)
    (index : nat) (st : N * gmap N N) : Transaction * (N * gmap N N) :=
  let rng := lcg_next st.1 in
  let sender_index := rng mod 3 in
  let rng := lcg_next rng in
  let recipient_index := rng mod 3 in
  let recipient_index := if recipient_index =? sender_index then (recipient_index + 1) mod 3
                         else recipient_index in
  let rng := lcg_next rng in
  let amount := rng mod 17 + 1 in
  let nonce := default 0 (st.2 !! sender_index) + 1 in
  (generated_tx chain target ("fuzz-tx-" +:+ pretty seed +:+ "-" +:+ pretty index)
     (principal_at sender_index) nonce Transfer
     [ArgPrincipal (principal_at recipient_index); ArgAsset asset; ArgAmount amount],
   (rng, <[sender_index := nonce]> st.2)).
Fixpoint transfer_steps (chain : ChainId) (target : ContractId) (asset : string) (seed : N)
    (indices : list nat) (st : N * gmap N N) : list Transaction :=
  match indices with
  | [] => []
  | i :: indices =>
      let step := transfer_step chain target asset seed i st in
      step.1 :: transfer_steps chain target asset seed indices step.2
  end.
Definition deterministic_transfer_corpus (chain : ChainId) (target : ContractId) (asset : string)
    (seed : N) (count : nat) : list Transaction :=
  transfer_steps chain target asset seed (seq 0 count) (seed, ∅).
Section defi_corpus.
Context `{Host}.
Definition defi_deployments : M () :=
  do! deploy_token "TokenA" "USDC"
        [("Alice", 10000); ("Bob", 10000); ("Carol", 10000); ("VaultA", 10000)] in
  do! deploy_token "TokenATOM" "ATOM" [("Alice", 10000); ("Bob", 10000)] in
  do! deploy_amm_pool_with_parameters "PoolA" "USDC" "ATOM" {| amm_swap_fee_bps := 30 |} in
  do! deploy_oracle "OracleA" "ATOM" "Reporter" 100 in
  do! deploy_lending_vault_with_risk "VaultA" "ATOM" "USDC" "OracleA"
        {| lr_ltv_bps := 5000; lr_max_oracle_age := 100; lr_interest_bps_per_block := 100;
           lr_liquidation_threshold_bps := 7500 |} in
  deploy_staking_with_parameters "StakeA" "ATOM"
    {| sp_unbonding_delay := 2; sp_reward_per_block := 1; sp_unstake_penalty_bps := 500 |}.
Definition defi_transactions (chain : ChainId) (seed : N) : list Transaction :=
  let r1 := lcg_next seed in let r2 := lcg_next r1 in let r3 := lcg_next r2 in
  let r4 := lcg_next r3 in let r5 := lcg_next r4 in let r6 := lcg_next r5 in
  let liquidity_usdc := 400 + r1 mod 5 * 25 in
  let liquidity_atom := 200 + r2 mod 5 * 10 in
  let swap_in := 10 + r3 mod 10 in
  let collateral := 100 + r4 mod 20 in
  let borrow := 50 + r5 mod 20 in
  let stake := 80 + r6 mod 20 in
  let request_unstake := stake / 3 in
  let hash := λ what, "defi-fuzz-" +:+ pretty seed +:+ "-" +:+ what in
  [generated_tx chain "OracleA" (hash "price") "Reporter" 1 SubmitPrice
     [ArgAsset "ATOM"; ArgAmount 2; ArgAmount 5];
   generated_tx chain "PoolA" (hash "liquidity") "Alice" 1 AddLiquidity
     [ArgAmount liquidity_usdc; ArgAmount liquidity_atom];
   generated_tx chain "PoolA" (hash "swap") "Bob" 1 Swap
     [ArgAsset "USDC"; ArgAmount swap_in; ArgAmount 1];
   generated_tx chain "VaultA" (hash "deposit") "Alice" 2 DepositCollateral
     [ArgAsset "ATOM"; ArgAmount collateral];
   generated_tx chain "VaultA" (hash "borrow") "Alice" 3 Borrow [ArgAsset "USDC"; ArgAmount borrow];
   generated_tx chain "VaultA" (hash "overborrow") "Alice" 4 Borrow [ArgAsset "USDC"; ArgAmount 200];
   generated_tx chain "StakeA" (hash "stake") "Bob" 2 Stake [ArgAsset "ATOM"; ArgAmount stake];
   generated_tx chain "StakeA" (hash "request-unstake") "Bob" 3 RequestUnstake
     [ArgAsset "ATOM"; ArgAmount request_unstake];
   generated_tx chain "StakeA" (hash "early-complete") "Bob" 4 CompleteUnstake
     [ArgAsset "ATOM"; ArgAmount request_unstake];
   generated_tx chain "PoolA" (hash "bad-swap") "Mallory" 1 Swap
     [ArgAsset "BTC"; ArgAmount 1; ArgAmount 1]].
(** [unwrap] panics where a deployment fails. *)
Definition deterministic_defi_corpus (chain : ChainId) (seed : N)
    : outcome Empty_set (DeTTaState * list Transaction) :=
  match defi_deployments {| w_state := state_new chain; w_ctx := call_context_new "" |} with
  | (Ok _, w) => Ok (w_state w, defi_transactions chain seed)
  | (OutOfFuel, _) => OutOfFuel
  | _ => Panic
  end.
End defi_corpus.

(** ** What the checks mean *)
Lemma report_nil {E} b (e : E) : report b e = [] ↔ b = false.
Proof. by destruct b. Qed.
Lemma concat_nil {A B} (f : A → list B) l : concat (f <$> l) = [] ↔ ∀ x, x ∈ l → f x = [].
Proof.
  induction l as [|x l IH]; simpl; [split; [by intros _ ? ?%not_elem_of_nil|done]|].
  rewrite app_nil, IH. set_solver.
Qed.
(** The verifier of kernel traces reports nothing exactly when every write
    of the trace is to a key of the contract and of the write scope. *)
Theorem kernel_trace_clean_iff contract write_scope trace :
  verify_kernel_trace contract write_scope trace = [] ↔
  ∀ key, OpStateSet key ∈ trace → owner_contract key = contract ∧ key ∈ write_scope.
Proof.
  unfold verify_kernel_trace. rewrite concat_nil. split.
  - intros Hn key Hk. specialize (Hn _ Hk). simpl in Hn. rewrite app_nil, !report_nil in Hn.
    destruct Hn as [Ho%bool_decide_eq_false Hs%bool_decide_eq_false]. unfold owner_of_key in Ho.
    split; [by apply dec_stable|by apply dec_stable].
  - intros Hk [] Hop; simpl; [done| |done..]. rewrite app_nil, !report_nil, !bool_decide_eq_false.
    destruct (Hk _ Hop). unfold owner_of_key. tauto.
Qed.

(** A contract whose exports and policies match, and whose references are to
    deployed contracts. *)
Record contract_clean (ids : gset string) (c : ContractRecord) : Prop := {
  clean_exports : cr_exported_methods c ≠ ∅;
  clean_invariants : cr_declared_invariants c ≠ ∅;
  clean_policies : dom (cr_method_policies c) = cr_exported_methods c;
  clean_governed g d : cr_kind c = Governance g d → g ∈ ids;
  clean_oracle ca da o l m i t : cr_kind c = LendingVault ca da o l m i t → o ∈ ids;
}.
Lemma lint_contract_nil ids c : lint_contract ids c = [] ↔ contract_clean ids c.
Proof.
  unfold lint_contract. cbv zeta.
  rewrite !app_nil, !report_nil, !concat_nil, !bool_decide_eq_false.
  assert (Hp : ((∀ m, m ∈ set_iter (cr_exported_methods c) →
      report (bool_decide (cr_method_policies c !! m = None)) (ContractExportMissingPolicy (cr_contract_id c) m) = []) ∧
    (∀ m, m ∈ keys (cr_method_policies c) →
      report (bool_decide (m ∉ cr_exported_methods c)) (ContractPolicyWithoutExport (cr_contract_id c) m) = []))
    ↔ dom (cr_method_policies c) = cr_exported_methods c).
  { setoid_rewrite report_nil. setoid_rewrite bool_decide_eq_false. setoid_rewrite elem_of_set_iter.
    setoid_rewrite elem_of_keys. rewrite set_eq. setoid_rewrite elem_of_dom. split.
    - intros [H1 H2] m. split; [intros Hm; by apply dec_stable, H2|].
      intros Hm. by apply not_eq_None_Some, H1.
    - intros He. split; intros m Hm; [by apply not_eq_None_Some, He|]. intros Hx. by apply Hx, He. }
  assert (Hk : match cr_kind c with
    | Governance governed _ => report (bool_decide (governed ∉ ids)) (GovernanceTargetMissing (cr_contract_id c) governed)
    | LendingVault _ _ oracle _ _ _ _ => report (bool_decide (oracle ∉ ids)) (LendingOracleMissing (cr_contract_id c) oracle)
    | _ => [] end = [] ↔
    (∀ g d, cr_kind c = Governance g d → g ∈ ids) ∧
    (∀ ca da o l m i t, cr_kind c = LendingVault ca da o l m i t → o ∈ ids)).
  { destruct (cr_kind c); try (by split); rewrite report_nil, bool_decide_eq_false.
    - split; [|intros [Hg _] Hn; by eapply Hn, Hg].
      intros Hn%dec_stable. split; [by intros g' d' [= <- _]|done].
    - split; [|intros [_ Ho] Hn; by eapply Hn, Ho].
      intros Hn%dec_stable. split; [done|]. by intros ca da o l m i t [= _ _ <- _ _ _ _]. }
  rewrite Hk, (and_assoc (∀ m, _)), Hp. split; [by intros (?&?&?&?&?)|by intros []].
Qed.
Lemma lint_upgrade_nil ids u :
  lint_upgrade ids u = [] ↔ su_target_contract u ∈ ids ∧ su_governance_contract u ∈ ids.
Proof.
  unfold lint_upgrade. rewrite app_nil, !report_nil, !bool_decide_eq_false. split; [|tauto].
  intros [?%dec_stable ?%dec_stable]. done.
Qed.
Lemma lint_policy_update_nil s u :
  lint_policy_update s (dom (contracts s)) u = [] ↔
  (∃ r, contracts s !! spu_target_contract u = Some r ∧ is_Some (method_policy r (spu_method u))) ∧
  spu_governance_contract u ∈ dom (contracts s).
Proof.
  unfold lint_policy_update. rewrite app_nil, report_nil, bool_decide_eq_false.
  assert (Hg : (spu_governance_contract u ∈ dom (contracts s)) ↔
    ¬ (spu_governance_contract u ∉ dom (contracts s))) by (split; [tauto|apply dec_stable]).
  rewrite <-Hg. clear Hg.
  apply and_iff_compat_r. case_bool_decide as Hd.
  - split; [done|]. intros (r & Hr & _). by apply not_elem_of_dom in Hd; rewrite Hr in Hd.
  - apply elem_of_dom in Hd as [r Hr]. rewrite Hr, report_nil, bool_decide_eq_false.
    split; [intros Hm%not_eq_None_Some; by exists r|].
    intros (r' & [= <-] & Hm). by apply not_eq_None_Some.
Qed.
Lemma forall_values `{Countable K, Cmp K} {V} (m : gmap K V) (P : V → Prop) :
  (∀ v, v ∈ values m → P v) ↔ ∀ k v, m !! k = Some v → P v.
Proof. setoid_rewrite elem_of_values. naive_solver. Qed.
(** The linter accepts a state exactly when every contract exports
    something, declares an invariant, has a policy for each export and for
    nothing else, and every reference of a contract, a scheduled upgrade, a
    scheduled policy update and the pause list is to a deployed contract. *)
Theorem lint_clean_iff s :
  (∀ id r, contracts s !! id = Some r → cr_contract_id r = id) →
  lint_state s = [] ↔
  (∀ id r, contracts s !! id = Some r → contract_clean (dom (contracts s)) r) ∧
  (∀ id u, scheduled_upgrades s !! id = Some u →
    su_target_contract u ∈ dom (contracts s) ∧ su_governance_contract u ∈ dom (contracts s)) ∧
  (∀ id u, scheduled_policy_updates s !! id = Some u →
    (∃ r, contracts s !! spu_target_contract u = Some r ∧ is_Some (method_policy r (spu_method u))) ∧
    spu_governance_contract u ∈ dom (contracts s)) ∧
  paused_contracts s ⊆ dom (contracts s).
Proof.
  intros Hid. assert (Hids : contract_ids s = dom (contracts s)).
  { apply set_eq. intros c. unfold contract_ids.
    rewrite elem_of_list_to_set, list_elem_of_fmap, elem_of_dom. setoid_rewrite elem_of_values. split.
    - intros (r & -> & id & Hr). rewrite (Hid _ _ Hr). by eexists.
    - intros [r Hr]. exists r. split; [by rewrite (Hid _ _ Hr)|by exists c]. }
  unfold lint_state. cbv zeta. rewrite !app_nil, !concat_nil, Hids, !forall_values.
  setoid_rewrite lint_contract_nil. setoid_rewrite lint_upgrade_nil. setoid_rewrite lint_policy_update_nil.
  do 3 apply and_iff_compat_l. unfold subseteq, set_subseteq_instance.
  setoid_rewrite elem_of_set_iter. setoid_rewrite report_nil. setoid_rewrite bool_decide_eq_false.
  split; intros Hs c Hc; [by apply dec_stable, Hs|]. intros Hn. by apply Hn, Hs.
Qed.

(** Replaying a block on any number of replicas agrees: the verifier of
    differential replay accepts every list of transactions and returns the
    block they build. *)
Theorem replay_agrees `{Host} initial transactions height replicas :
  (2 ≤ replicas)%nat →
  ∃ block state, build_block initial height transactions 1000 "verifier" "cert" = Ok (block, state) ∧
  verify_differential_replay initial transactions height replicas = Ok block.
Proof.
  intros Hr. destruct (build_block_Ok initial height transactions 1000 "verifier" "cert")
    as (rs & ws & block & _ & Hb & _).
  set (state := set_finalized_block_hash (block_hash block) ws) in *. exists block, state. split; [done|].
  unfold verify_differential_replay, replica_block. rewrite (proj2 (Nat.leb_le _ _) Hr), Hb.
  cbn [ensure outcome_bind from_void fst snd].
  assert (Hc : ∀ l, check_replicas initial transactions height block (global_state_root state) l = Ok ()).
  { induction l as [|i l IH]; [done|]. cbn [check_replicas]. unfold replica_block. rewrite Hb.
    cbn [outcome_bind from_void fst snd]. by rewrite !bool_decide_eq_true_2. }
  by rewrite Hc.
Qed.

(** Nonces in the corpus are above those the generator has given out. *)
Definition above (nonces : gmap N N) (tx : Transaction) : Prop :=
  ∃ i, i < 3 ∧ tx_sender tx = principal_at i ∧ default 0 (nonces !! i) < tx_nonce tx.
Lemma principal_at_inj i j : i < 3 → j < 3 → principal_at i = principal_at j → i = j.
Proof.
  intros Hi Hj. assert (i = 0 ∨ i = 1 ∨ i = 2) as [-> |[-> | ->]] by lia;
    assert (j = 0 ∨ j = 1 ∨ j = 2) as [-> |[-> | ->]] by lia; done.
Qed.
Lemma above_insert i n nonces tx :
  default 0 (nonces !! i) ≤ n → above (<[i := n]> nonces) tx → above nonces tx.
Proof.
  intros Hn (j & Hj & Hs & Hd). exists j. split_and!; [done..|].
  destruct (decide (j = i)) as [->|]; [rewrite lookup_insert_eq in Hd|by rewrite lookup_insert_ne in Hd].
  simpl in Hd. lia.
Qed.
Lemma transfer_steps_nonces chain target asset seed indices st :
  let txs := transfer_steps chain target asset seed indices st in
  Forall (above st.2) txs ∧ NoDup ((λ tx, (tx_sender tx, tx_nonce tx)) <$> txs).
Proof.
  cbv zeta. revert st. induction indices as [|i indices IH]; intros [rng nonces];
    [by split; [constructor|constructor]|].
  cbn [transfer_steps]. cbv zeta. destruct (transfer_step _ _ _ _ _ _) as [tx st'] eqn:Hst.
  destruct (IH st') as [Ha Hn]. cbn [fst snd] in *.
  unfold transfer_step in Hst. cbv zeta in Hst. cbn [fst snd] in Hst.
  set (si := lcg_next rng mod 3) in *. assert (Hsi : si < 3) by (apply N.mod_lt; lia).
  injection Hst as Htx <-. cbn [snd] in Ha. split.
  - constructor; [exists si; rewrite <-Htx; cbn; split_and!; [done|done|lia]|].
    eapply Forall_impl; [exact Ha|]. intros t. apply above_insert. lia.
  - rewrite fmap_cons. constructor; [|done].
    intros (t & Heq & Ht)%list_elem_of_fmap.
    rewrite Forall_forall in Ha. destruct (Ha t Ht) as (j & Hj & Hs & Hd).
    injection Heq as Hes Hen. rewrite <-Htx in Hes, Hen. cbn [generated_tx tx_sender tx_nonce] in Hes, Hen.
    rewrite Hs in Hes. apply principal_at_inj in Hes as <-; [|done..].
    rewrite lookup_insert_eq in Hd. simpl in Hd. lia.
Qed.
(** No transaction of the generated transfer corpus repeats the sender
    and nonce of another. *)
Theorem transfer_corpus_nonces chain target asset seed count :
  NoDup ((λ tx, (tx_sender tx, tx_nonce tx)) <$> deterministic_transfer_corpus chain target asset seed count).
Proof. apply transfer_steps_nonces. Qed.
