(* ===== verification/Release.v ===== *)
(** * Release: the manifests of a release

    The validators of crates/detta-verify/src/lib.rs for the standard
    library's artifact and proof obligations, audit findings, and readiness
    for the public testnet and the main net.  Each returns the list of what
    is wrong. *)
From S2P Require Import Prelude Effects Merkle Types State AspectSource AspectLower AspectVerify Verify.

(** ** [str::trim] *)
Fixpoint all_whitespace (skip : nat) (s : string) : bool :=
  match s, skip with
  | EmptyString, _ => true
  | String _ rest, S skip => all_whitespace skip rest
  | String _ rest, O => match whitespace_len s with O => false | S k => all_whitespace k rest end
  end.
Fixpoint trim_start (skip : nat) (s : string) : string :=
  match s, skip with
  | EmptyString, _ => ""
  | String _ rest, S skip => trim_start skip rest
  | String _ rest, O => match whitespace_len s with O => s | S k => trim_start k rest end
  end.
Fixpoint trim_end (s : string) : string :=
  match s with
  | EmptyString => ""
  | String c rest => if all_whitespace 0 s then "" else String c (trim_end rest)
  end.
Definition trim (s : string) : string := trim_end (trim_start 0 s).
Definition blank_text (s : string) : bool := bool_decide (trim s = "").

Definition ASPECT_STDLIB_SOURCE_PATH : string := "models/aspects/stdlib/minimal-transfer-token.metta".
Definition ASPECT_STDLIB_ARTIFACT_PATH : string :=
  "models/aspects/stdlib/minimal-transfer-token.artifact.json".
Definition ASPECT_STDLIB_ARTIFACT_SCHEMA : string := "detta.aspect-stdlib-artifact.v1".
Definition ASPECT_STDLIB_ARTIFACT_SCHEMA_VERSION : N := 1.
Definition ASPECT_STDLIB_PROOF_OBLIGATIONS_SCHEMA : string := "detta.aspect-proof-obligations.v1".
Definition ASPECT_STDLIB_PROOF_OBLIGATIONS_SCHEMA_VERSION : N := 1.
Definition AUDIT_FINDINGS_SCHEMA : string := "detta.audit-findings.v1".
Definition AUDIT_FINDINGS_SCHEMA_VERSION : N := 1.
Definition AUDIT_FINDINGS_PROJECT : string := "DeTTa".
Definition PUBLIC_TESTNET_READINESS_SCHEMA : string := "detta.public-testnet-readiness.v1".
Definition PUBLIC_TESTNET_READINESS_SCHEMA_VERSION : N := 1.
Definition PUBLIC_TESTNET_READINESS_PROJECT : string := "DeTTa".
Definition MIN_PUBLIC_TESTNET_STABILITY_WINDOW_HOURS : N := 168.
Definition REQUIRED_PUBLIC_TESTNET_WORKFLOWS : list string :=
  ["state_sync"; "rpc"; "governance"; "bridge"; "defi"].
Definition MAINNET_CANDIDATE_READINESS_SCHEMA : string := "detta.mainnet-candidate-readiness.v1".
Definition MAINNET_CANDIDATE_READINESS_SCHEMA_VERSION : N := 1.
Definition MAINNET_CANDIDATE_READINESS_PROJECT : string := "DeTTa".
Definition SHA256_HEX_LENGTH : nat := 64.
Definition REQUIRED_AUDIT_CATEGORIES : list string :=
  ["aspect_parser"; "aspect_verifier"; "aspect_evaluator"; "kernel_host_calls"].
Definition REQUIRED_ASPECT_PROOF_OBLIGATION_IDS : list string :=
  ["APO-001"; "APO-002"; "APO-003"; "APO-004"; "APO-005"; "APO-006"; "APO-007"; "APO-008";
   "APO-009"; "APO-010"].
Definition REQUIRED_MAINNET_CANDIDATE_GATES : list string :=
  ["production_acceptance"; "public_testnet"; "external_audit"; "operator_launch_rehearsal";
   "release_reproducibility"; "release_signing"; "finalized_genesis"; "validator_onboarding";
   "governance_bootstrap"; "incident_response_drill"].

(** ** The standard library's artifact *)
Record AspectStdlibArtifactManifest := {
  sam_schema : string; sam_schema_version : N; sam_module_id : string; sam_source_path : string;
  sam_taxonomy_version : string; sam_accepted_language : string; sam_verifier_version : string;
  sam_source_root : string; sam_ir_root : string; sam_abi_root : string; sam_policy_root : string;
  sam_storage_schema_root : string; sam_registry_schema_root : string; sam_invariant_root : string;
  sam_bundle_count : nat; sam_aspect_count : nat; sam_projection_count : nat; sam_abi_count : nat;
  sam_policy_count : nat; sam_storage_schema_count : nat; sam_registry_schema_count : nat;
  sam_invariant_count : nat;
}.
Inductive AspectStdlibArtifactError :=
| ArtifactSchemaMismatch (actual : string)
| ArtifactSchemaVersionMismatch (actual : N)
| EmptyModuleId
| ArtifactSourcePathMismatch (actual : string)
| MissingBundle (module_id : string)
| TaxonomyVersionMismatch (expected actual : string)
| AcceptedLanguageMismatch (actual : string)
| VerifierVersionMismatch (actual : string)
| ArtifactRootMismatch (field expected actual : string)
| CountMismatch (field : string) (expected actual : nat)
| SourceRejected.
Definition push_root_mismatch (field expected actual : string) : list AspectStdlibArtifactError :=
  report (bool_decide (actual ≠ expected)) (ArtifactRootMismatch field expected actual).
Definition push_count_mismatch (field : string) (expected actual : nat) : list AspectStdlibArtifactError :=
  report (bool_decide (actual ≠ expected)) (CountMismatch field expected actual).
Section artifact.
Context `{Host}.
Definition validate_artifact_header (a : AspectStdlibArtifactManifest) : list AspectStdlibArtifactError :=
  report (bool_decide (sam_schema a ≠ ASPECT_STDLIB_ARTIFACT_SCHEMA)) (ArtifactSchemaMismatch (sam_schema a)) ++
  report (bool_decide (sam_schema_version a ≠ ASPECT_STDLIB_ARTIFACT_SCHEMA_VERSION))
    (ArtifactSchemaVersionMismatch (sam_schema_version a)) ++
  report (blank_text (sam_module_id a)) EmptyModuleId ++
  report (bool_decide (sam_source_path a ≠ ASPECT_STDLIB_SOURCE_PATH))
    (ArtifactSourcePathMismatch (sam_source_path a)).
Definition validate_artifact_module (a : AspectStdlibArtifactManifest) (ir : AspectModuleIr)
    (computed : AspectModuleArtifact) : list AspectStdlibArtifactError :=
  report (bool_decide (ir_bundles ir !! sam_module_id a = None)) (MissingBundle (sam_module_id a)) ++
  report (bool_decide (sam_taxonomy_version a ≠ art_taxonomy_version computed))
    (TaxonomyVersionMismatch (art_taxonomy_version computed) (sam_taxonomy_version a)) ++
  report (bool_decide (sam_accepted_language a ≠ art_accepted_language computed))
    (AcceptedLanguageMismatch (sam_accepted_language a)) ++
  report (bool_decide (sam_verifier_version a ≠ art_verifier_version computed))
    (VerifierVersionMismatch (sam_verifier_version a)) ++
  push_root_mismatch "source_root" (art_source_root computed) (sam_source_root a) ++
  push_root_mismatch "ir_root" (art_ir_root computed) (sam_ir_root a) ++
  push_root_mismatch "abi_root" (art_abi_root computed) (sam_abi_root a) ++
  push_root_mismatch "policy_root" (art_policy_root computed) (sam_policy_root a) ++
  push_root_mismatch "storage_schema_root" (art_storage_schema_root computed) (sam_storage_schema_root a) ++
  push_root_mismatch "registry_schema_root" (art_registry_schema_root computed)
    (sam_registry_schema_root a) ++
  push_root_mismatch "invariant_root" (art_invariant_root computed) (sam_invariant_root a) ++
  push_count_mismatch "bundle_count" (size (ir_bundles ir)) (sam_bundle_count a) ++
  push_count_mismatch "aspect_count" (size (ir_aspects ir)) (sam_aspect_count a) ++
  push_count_mismatch "projection_count" (size (ir_projections ir)) (sam_projection_count a) ++
  push_count_mismatch "abi_count" (size (ir_abi ir)) (sam_abi_count a) ++
  push_count_mismatch "policy_count" (size (ir_policies ir)) (sam_policy_count a) ++
  push_count_mismatch "storage_schema_count" (size (ir_storage_schema ir)) (sam_storage_schema_count a) ++
  push_count_mismatch "registry_schema_count" (size (ir_registry_schema ir))
    (sam_registry_schema_count a) ++
  push_count_mismatch "invariant_count" (size (ir_invariants ir)) (sam_invariant_count a).
Definition validate_aspect_stdlib_artifact (source : string) (a : AspectStdlibArtifactManifest)
    : outcome Empty_set (list AspectStdlibArtifactError) :=
  match parse_verify_module source with
  | Ok (canonical_source, ir, verified) =>
      Ok (validate_artifact_header a ++
          validate_artifact_module a ir (module_artifact (sam_module_id a) canonical_source verified))
  | Err _ => Ok (validate_artifact_header a ++ [SourceRejected])
  | Panic => Panic
  | OutOfFuel => OutOfFuel
  end.
End artifact.

(** ** Proof obligations *)
Record AspectProofObligation := {
  apo_id : string; apo_category : string; apo_statement : string; apo_discharged_by : list string;
}.
Record AspectProofObligationManifest := {
  pom_schema : string; pom_schema_version : N; pom_module_id : string; pom_source_path : string;
  pom_artifact_path : string; pom_source_root : string; pom_ir_root : string;
  pom_obligations : list AspectProofObligation;
}.
Inductive AspectProofObligationError :=
| ObligationSchemaMismatch (actual : string)
| ObligationSchemaVersionMismatch (actual : N)
| ModuleIdMismatch (expected actual : string)
| ObligationSourcePathMismatch (actual : string)
| ArtifactPathMismatch (actual : string)
| ObligationRootMismatch (field expected actual : string)
| EmptyObligationId
| DuplicateObligationId (id : string)
| EmptyObligationCategory (id : string)
| EmptyObligationStatement (id : string)
| EmptyObligationDischarge (id : string)
| MissingRequiredObligation (id : string).
(** A loop that collects names: errors and the set of names so far. *)
Definition visit_obligation (st : list AspectProofObligationError * gset string)
    (o : AspectProofObligation) : list AspectProofObligationError * gset string :=
  let id := trim (apo_id o) in
  if bool_decide (id = "") then (st.1 ++ [EmptyObligationId], st.2) else
  (st.1 ++
   report (bool_decide (id ∈ st.2)) (DuplicateObligationId id) ++
   report (blank_text (apo_category o)) (EmptyObligationCategory id) ++
   report (blank_text (apo_statement o)) (EmptyObligationStatement id) ++
   report (existsb blank_text (apo_discharged_by o) || bool_decide (apo_discharged_by o = []))
     (EmptyObligationDischarge id),
   {[id]} ∪ st.2).
Definition validate_aspect_proof_obligations (m : AspectProofObligationManifest)
    (a : AspectStdlibArtifactManifest) : list AspectProofObligationError :=
  let visited := foldl visit_obligation ([], ∅) (pom_obligations m) in
  report (bool_decide (pom_schema m ≠ ASPECT_STDLIB_PROOF_OBLIGATIONS_SCHEMA))
    (ObligationSchemaMismatch (pom_schema m)) ++
  report (bool_decide (pom_schema_version m ≠ ASPECT_STDLIB_PROOF_OBLIGATIONS_SCHEMA_VERSION))
    (ObligationSchemaVersionMismatch (pom_schema_version m)) ++
  report (bool_decide (pom_module_id m ≠ sam_module_id a))
    (ModuleIdMismatch (sam_module_id a) (pom_module_id m)) ++
  report (bool_decide (pom_source_path m ≠ ASPECT_STDLIB_SOURCE_PATH))
    (ObligationSourcePathMismatch (pom_source_path m)) ++
  report (bool_decide (pom_artifact_path m ≠ ASPECT_STDLIB_ARTIFACT_PATH))
    (ArtifactPathMismatch (pom_artifact_path m)) ++
  report (bool_decide (pom_source_root m ≠ sam_source_root a))
    (ObligationRootMismatch "source_root" (sam_source_root a) (pom_source_root m)) ++
  report (bool_decide (pom_ir_root m ≠ sam_ir_root a))
    (ObligationRootMismatch "ir_root" (sam_ir_root a) (pom_ir_root m)) ++
  visited.1 ++
  concat ((λ required, report (bool_decide (required ∉ visited.2)) (MissingRequiredObligation required))
    <$> REQUIRED_ASPECT_PROOF_OBLIGATION_IDS).

(** ** Audit findings *)
Inductive AuditFindingSeverity := SeverityLow | SeverityMedium | SeverityHigh | SeverityCritical.
Inductive AuditFindingStatus := FindingOpen | InRemediation | FindingClosed | AcceptedRisk.
Record AuditFinding := {
  af_id : string; af_title : string; af_severity : AuditFindingSeverity; af_status : AuditFindingStatus;
  af_owner : string; af_reported_in : string; af_closure_evidence : list string;
  af_accepted_risk_rationale : option string;
}.
Record AuditFindingsManifest := {
  afm_schema : string; afm_schema_version : N; afm_project : string; afm_scope : string;
  afm_generated_at : string; afm_categories : list string; afm_findings : list AuditFinding;
}.
Inductive AuditFindingManifestError :=
| AuditSchemaMismatch (actual : string)
| AuditSchemaVersionMismatch (actual : N)
| AuditProjectMismatch (actual : string)
| EmptyScope
| AuditEmptyGeneratedAt
| EmptyCategory
| DuplicateCategory (category : string)
| MissingRequiredCategory (category : string)
| EmptyFindingId
| DuplicateFindingId (id : string)
| EmptyFindingTitle (id : string)
| EmptyFindingOwner (id : string)
| EmptyFindingReport (id : string)
| ClosedFindingMissingEvidence (id : string)
| AcceptedRiskMissingRationale (id : string)
| UnresolvedFinding (id : string) (status : AuditFindingStatus).
(** The loops that collect trimmed, distinct, non-empty names. *)
Definition collect_name {E} (empty : E) (duplicate : string → E) (st : list E * gset string)
    (name : string) : list E * gset string :=
  let name := trim name in
  if bool_decide (name = "") then (st.1 ++ [empty], st.2)
  else (st.1 ++ report (bool_decide (name ∈ st.2)) (duplicate name), {[name]} ∪ st.2).
Definition collect_names {E} (empty : E) (duplicate : string → E) (names : list string)
    : list E * gset string :=
  foldl (collect_name empty duplicate) ([], ∅) names.
Definition finding_status_errors (id : string) (f : AuditFinding) : list AuditFindingManifestError :=
  match af_status f with
  | FindingClosed => report (bool_decide (af_closure_evidence f = [])) (ClosedFindingMissingEvidence id)
  | AcceptedRisk =>
      report (match af_accepted_risk_rationale f with Some r => blank_text r | None => true end)
        (AcceptedRiskMissingRationale id)
  | FindingOpen | InRemediation => [UnresolvedFinding id (af_status f)]
  end.
Definition visit_finding (st : list AuditFindingManifestError * gset string) (f : AuditFinding)
    : list AuditFindingManifestError * gset string :=
  let id := trim (af_id f) in
  if bool_decide (id = "") then (st.1 ++ [EmptyFindingId], st.2) else
  (st.1 ++
   report (bool_decide (id ∈ st.2)) (DuplicateFindingId id) ++
   report (blank_text (af_title f)) (EmptyFindingTitle id) ++
   report (blank_text (af_owner f)) (EmptyFindingOwner id) ++
   report (blank_text (af_reported_in f)) (EmptyFindingReport id) ++
   finding_status_errors id f,
   {[id]} ∪ st.2).
Definition validate_audit_findings_manifest (m : AuditFindingsManifest) : list AuditFindingManifestError :=
  let categories := collect_names EmptyCategory DuplicateCategory (afm_categories m) in
  report (bool_decide (afm_schema m ≠ AUDIT_FINDINGS_SCHEMA)) (AuditSchemaMismatch (afm_schema m)) ++
  report (bool_decide (afm_schema_version m ≠ AUDIT_FINDINGS_SCHEMA_VERSION))
    (AuditSchemaVersionMismatch (afm_schema_version m)) ++
  report (bool_decide (afm_project m ≠ AUDIT_FINDINGS_PROJECT)) (AuditProjectMismatch (afm_project m)) ++
  report (blank_text (afm_scope m)) EmptyScope ++
  report (blank_text (afm_generated_at m)) AuditEmptyGeneratedAt ++
  categories.1 ++
  concat ((λ required, report (bool_decide (required ∉ categories.2)) (MissingRequiredCategory required))
    <$> REQUIRED_AUDIT_CATEGORIES) ++
  (foldl visit_finding ([], ∅) (afm_findings m)).1.

(** ** Readiness for the public testnet *)
Record PublicTestnetReadinessManifest := {
  ptr_schema : string; ptr_schema_version : N; ptr_project : string; ptr_generated_at : string;
  ptr_ready_for_public_testnet : bool; ptr_planned_stability_window_hours : N;
  ptr_release_gate_command : string; ptr_required_workflows : list string;
  ptr_validated_workflows : list string; ptr_evidence : list string; ptr_blockers : list string;
}.
Inductive PublicTestnetReadinessError :=
| TestnetSchemaMismatch (actual : string)
| TestnetSchemaVersionMismatch (actual : N)
| TestnetProjectMismatch (actual : string)
| TestnetEmptyGeneratedAt
| StabilityWindowTooShort (actual minimum : N)
| TestnetEmptyReleaseGateCommand
| EmptyWorkflow
| DuplicateRequiredWorkflow (workflow : string)
| DuplicateValidatedWorkflow (workflow : string)
| MissingRequiredWorkflow (workflow : string)
| TestnetEmptyEvidence
| TestnetDuplicateEvidence (evidence : string)
| TestnetReadyWithBlockers
| ReadyWithUnresolvedHighOrCriticalAuditFinding (id : string) (severity : AuditFindingSeverity)
    (status : AuditFindingStatus).
Definition collect_unique_workflows (workflows : list string) (required_list : bool)
    : list PublicTestnetReadinessError * gset string :=
  collect_names EmptyWorkflow
    (if required_list then DuplicateRequiredWorkflow else DuplicateValidatedWorkflow) workflows.
Definition unresolved (f : AuditFinding) : bool :=
  match af_status f with FindingOpen | InRemediation => true | _ => false end.
Definition audit_finding_blocks_public_testnet (f : AuditFinding) : bool :=
  match af_severity f with SeverityHigh | SeverityCritical => true | _ => false end && unresolved f.
Definition validate_public_testnet_readiness_manifest (m : PublicTestnetReadinessManifest)
    (audit : AuditFindingsManifest) : list PublicTestnetReadinessError :=
  let required := collect_unique_workflows (ptr_required_workflows m) true in
  let validated := collect_unique_workflows (ptr_validated_workflows m) false in
  report (bool_decide (ptr_schema m ≠ PUBLIC_TESTNET_READINESS_SCHEMA))
    (TestnetSchemaMismatch (ptr_schema m)) ++
  report (bool_decide (ptr_schema_version m ≠ PUBLIC_TESTNET_READINESS_SCHEMA_VERSION))
    (TestnetSchemaVersionMismatch (ptr_schema_version m)) ++
  report (bool_decide (ptr_project m ≠ PUBLIC_TESTNET_READINESS_PROJECT))
    (TestnetProjectMismatch (ptr_project m)) ++
  report (blank_text (ptr_generated_at m)) TestnetEmptyGeneratedAt ++
  report (ptr_planned_stability_window_hours m <? MIN_PUBLIC_TESTNET_STABILITY_WINDOW_HOURS)
    (StabilityWindowTooShort (ptr_planned_stability_window_hours m)
       MIN_PUBLIC_TESTNET_STABILITY_WINDOW_HOURS) ++
  report (blank_text (ptr_release_gate_command m)) TestnetEmptyReleaseGateCommand ++
  required.1 ++ validated.1 ++
  concat ((λ w, report (bool_decide (w ∉ required.2) || bool_decide (w ∉ validated.2))
    (MissingRequiredWorkflow w)) <$> REQUIRED_PUBLIC_TESTNET_WORKFLOWS) ++
  (collect_names TestnetEmptyEvidence TestnetDuplicateEvidence (ptr_evidence m)).1 ++
  report (ptr_ready_for_public_testnet m && negb (bool_decide (ptr_blockers m = [])))
    TestnetReadyWithBlockers ++
  (if ptr_ready_for_public_testnet m then
     concat ((λ f, report (audit_finding_blocks_public_testnet f)
       (ReadyWithUnresolvedHighOrCriticalAuditFinding (af_id f) (af_severity f) (af_status f)))
       <$> afm_findings audit)
   else []).

(** ** Readiness for the main net *)
Record SignedReleaseArtifact := {
  sra_path : string; sra_sha256 : string; sra_signature_path : string; sra_signer : string;
}.
Record MainnetCandidateReadinessManifest := {
  mcr_schema : string; mcr_schema_version : N; mcr_project : string; mcr_generated_at : string;
  mcr_ready_for_mainnet : bool; mcr_release_candidate_id : string; mcr_release_gate_command : string;
  mcr_required_gates : list string; mcr_satisfied_gates : list string;
  mcr_signed_artifacts : list SignedReleaseArtifact; mcr_evidence : list string;
  mcr_blockers : list string;
}.
Inductive MainnetCandidateReadinessError :=
| MainnetSchemaMismatch (actual : string)
| MainnetSchemaVersionMismatch (actual : N)
| MainnetProjectMismatch (actual : string)
| MainnetEmptyGeneratedAt
| EmptyReleaseCandidateId
| MainnetEmptyReleaseGateCommand
| EmptyGate
| DuplicateRequiredGate (gate : string)
| DuplicateSatisfiedGate (gate : string)
| MissingRequiredGate (gate : string)
| MissingSatisfiedGate (gate : string)
| MainnetEmptyEvidence
| MainnetDuplicateEvidence (evidence : string)
| ArtifactPathMissing
| ArtifactSha256Invalid (path sha256 : string)
| ArtifactSignaturePathMissing (path : string)
| ArtifactSignerMissing (path : string)
| MainnetReadyWithBlockers
| ReadyBeforePublicTestnet
| ReadyWithAuditManifestErrors
| ReadyWithUnresolvedAuditFinding (id : string) (status : AuditFindingStatus)
| ReadyWithoutSignedArtifacts.
Definition collect_mainnet_gates (gates : list string) (required_list : bool)
    : list MainnetCandidateReadinessError * gset string :=
  collect_names EmptyGate (if required_list then DuplicateRequiredGate else DuplicateSatisfiedGate) gates.
Definition lowercase_hex (n : N) : bool :=
  ((48 <=? n) && (n <=? 57)) || ((97 <=? n) && (n <=? 102)).
Definition is_lowercase_sha256 (value : string) : bool :=
  bool_decide (String.length value = SHA256_HEX_LENGTH) &&
  forallb lowercase_hex (string_codes value).
Definition artifact_errors (a : SignedReleaseArtifact) : list MainnetCandidateReadinessError :=
  report (blank_text (sra_path a)) ArtifactPathMissing ++
  report (negb (is_lowercase_sha256 (sra_sha256 a))) (ArtifactSha256Invalid (sra_path a) (sra_sha256 a)) ++
  report (blank_text (sra_signature_path a)) (ArtifactSignaturePathMissing (sra_path a)) ++
  report (blank_text (sra_signer a)) (ArtifactSignerMissing (sra_path a)).
Definition validate_mainnet_candidate_readiness_manifest (m : MainnetCandidateReadinessManifest)
    (testnet : PublicTestnetReadinessManifest) (audit : AuditFindingsManifest)
    : list MainnetCandidateReadinessError :=
  let ready := mcr_ready_for_mainnet m in
  let required := collect_mainnet_gates (mcr_required_gates m) true in
  let satisfied := collect_mainnet_gates (mcr_satisfied_gates m) false in
  report (bool_decide (mcr_schema m ≠ MAINNET_CANDIDATE_READINESS_SCHEMA))
    (MainnetSchemaMismatch (mcr_schema m)) ++
  report (bool_decide (mcr_schema_version m ≠ MAINNET_CANDIDATE_READINESS_SCHEMA_VERSION))
    (MainnetSchemaVersionMismatch (mcr_schema_version m)) ++
  report (bool_decide (mcr_project m ≠ MAINNET_CANDIDATE_READINESS_PROJECT))
    (MainnetProjectMismatch (mcr_project m)) ++
  report (blank_text (mcr_generated_at m)) MainnetEmptyGeneratedAt ++
  report (blank_text (mcr_release_candidate_id m)) EmptyReleaseCandidateId ++
  report (blank_text (mcr_release_gate_command m)) MainnetEmptyReleaseGateCommand ++
  required.1 ++ satisfied.1 ++
  concat ((λ gate, report (bool_decide (gate ∉ required.2)) (MissingRequiredGate gate) ++
    report (ready && bool_decide (gate ∉ satisfied.2)) (MissingSatisfiedGate gate))
    <$> REQUIRED_MAINNET_CANDIDATE_GATES) ++
  (collect_names MainnetEmptyEvidence MainnetDuplicateEvidence (mcr_evidence m)).1 ++
  concat (artifact_errors <$> mcr_signed_artifacts m) ++
  report (ready && negb (bool_decide (mcr_blockers m = []))) MainnetReadyWithBlockers ++
  report (ready && negb (ptr_ready_for_public_testnet testnet)) ReadyBeforePublicTestnet ++
  report (ready && negb (bool_decide (length (validate_audit_findings_manifest audit) = 0%nat)))
    ReadyWithAuditManifestErrors ++
  (if ready then
     concat ((λ f, report (unresolved f) (ReadyWithUnresolvedAuditFinding (af_id f) (af_status f)))
       <$> afm_findings audit)
   else []) ++
  report (ready && bool_decide (length (mcr_signed_artifacts m) = 0%nat)) ReadyWithoutSignedArtifacts.

(** ** What validation establishes *)
Definition names (l : list string) : gset string := list_to_set (filter (λ n, n ≠ "") (trim <$> l)).
Lemma collect_names_spec {E} (empty : E) duplicate l :
  (collect_names empty duplicate l).2 = names l ∧
  ((collect_names empty duplicate l).1 = [] ↔ Forall (λ n, trim n ≠ "") l ∧ NoDup (trim <$> l)).
Proof.
  unfold collect_names.
  enough (Hg : ∀ l st, let st' := foldl (collect_name empty duplicate) st l in
    st'.2 = names l ∪ st.2 ∧
    (st'.1 = [] ↔ st.1 = [] ∧ Forall (λ n, trim n ≠ "") l ∧ NoDup (trim <$> l) ∧
       Forall (λ n, trim n ∉ st.2) l)).
  { destruct (Hg l ([], ∅)) as [H2 H1]. cbn [fst snd] in H1, H2. rewrite H2, H1. split; [by rewrite (right_id_L ∅ (∪))|].
    rewrite (Forall_forall (λ n, trim n ∉ _)). set_solver. }
  clear l. induction l as [|n l IH]; intros st; cbv zeta; cbn [foldl].
  { split; [unfold names; simpl; by rewrite (left_id_L ∅ (∪))|].
    split; [|tauto]. intros ->. split_and!; constructor. }
  destruct (IH (collect_name empty duplicate st n)) as [H2 H1]. rewrite H2, H1. clear H1 H2 IH.
  unfold collect_name. cbv zeta. unfold names. rewrite !fmap_cons.
  case_bool_decide as Hn; cbn [fst snd].
  - rewrite Hn, filter_cons_False by tauto. split; [done|]. split.
    + intros [Hx _]. by destruct (st.1).
    + intros (_ & Hf & _). by apply Forall_cons in Hf as [? _].
  - rewrite filter_cons_True by done. split.
    { rewrite list_to_set_cons. rewrite !(assoc_L (∪)). f_equal. by rewrite (comm_L (∪)). }
    rewrite app_nil, report_nil, bool_decide_eq_false, !Forall_cons, NoDup_cons.
    assert (Hm : trim n ∉ trim <$> l ↔ Forall (λ m, trim m ≠ trim n) l).
    { rewrite Forall_forall, list_elem_of_fmap. naive_solver. }
    rewrite Hm. clear Hm. rewrite !Forall_forall. setoid_rewrite not_elem_of_union.
    setoid_rewrite not_elem_of_singleton. naive_solver.
Qed.
Lemma ready_report {E} ready b (e : E) : ready = true → report (ready && b) e = [] → b = false.
Proof. intros ->. by rewrite report_nil. Qed.
Lemma findings_clean l st :
  (foldl visit_finding st l).1 = [] → Forall (λ f, unresolved f = false) l.
Proof.
  revert st. induction l as [|f l IH]; intros st; cbn [foldl]; [constructor|]. intros Hn.
  constructor; [|by eapply IH].
  assert (Hp : ∀ l st, (foldl visit_finding st l).1 = [] → st.1 = []).
  { clear. induction l as [|f l IH]; intros st; cbn [foldl]; [done|]. intros Hn%IH. revert Hn.
    unfold visit_finding. cbv zeta. case_bool_decide; cbn [fst]; rewrite app_nil; tauto. }
  apply Hp in Hn. revert Hn. unfold visit_finding. cbv zeta. case_bool_decide; cbn [fst].
  { rewrite app_nil. naive_solver. }
  rewrite !app_nil. intros (_ & _ & _ & _ & _ & Hs). unfold finding_status_errors, unresolved in *.
  by destruct (af_status f).
Qed.
(** A manifest that claims readiness for the main net passes validation
    only if every required gate is satisfied, there are no blockers, the
    public testnet was declared ready, the audit manifest is valid and has no
    unresolved finding, and there is a signed artifact, every artifact with a
    SHA-256 and a signer. *)
Theorem mainnet_ready_sound m testnet audit :
  validate_mainnet_candidate_readiness_manifest m testnet audit = [] → mcr_ready_for_mainnet m = true →
  (∀ gate, gate ∈ REQUIRED_MAINNET_CANDIDATE_GATES → gate ∈ names (mcr_satisfied_gates m)) ∧
  mcr_blockers m = [] ∧ ptr_ready_for_public_testnet testnet = true ∧
  validate_audit_findings_manifest audit = [] ∧ Forall (λ f, unresolved f = false) (afm_findings audit) ∧
  mcr_signed_artifacts m ≠ [] ∧
  Forall (λ a, is_lowercase_sha256 (sra_sha256 a) = true ∧ trim (sra_signer a) ≠ "") (mcr_signed_artifacts m).
Proof.
  unfold validate_mainnet_candidate_readiness_manifest. cbv zeta. rewrite !app_nil, !concat_nil.
  intros (_ & _ & _ & _ & _ & _ & _ & _ & Hg & _ & Ha & Hb & Ht & Hv & _ & Hs) Hr.
  apply (ready_report _ _ _ Hr) in Hb, Ht, Hv, Hs.
  apply negb_false_iff, bool_decide_eq_true in Hb. apply negb_false_iff in Ht.
  apply negb_false_iff, bool_decide_eq_true, nil_length_inv in Hv. apply bool_decide_eq_false in Hs.
  split_and!; try done.
  - intros gate Hgate. specialize (Hg gate Hgate). simpl in Hg. apply app_nil in Hg as [_ Hg].
    apply (ready_report _ _ _ Hr), bool_decide_eq_false, dec_stable in Hg.
    unfold collect_mainnet_gates in Hg. by rewrite (proj1 (collect_names_spec _ _ _)) in Hg.
  - unfold validate_audit_findings_manifest in Hv. cbv zeta in Hv. rewrite !app_nil in Hv.
    eapply findings_clean. apply Hv.
  - intros He. apply Hs. by rewrite He.
  - apply Forall_forall. intros a Hin. specialize (Ha a Hin). unfold artifact_errors in Ha.
    rewrite !app_nil, !report_nil in Ha. destruct Ha as (_ & Hx & _ & Hy).
    apply negb_false_iff in Hx. split; [done|]. by apply bool_decide_eq_false in Hy.
Qed.
