(* ===== verification/Evaluator.v ===== *)
(** * Evaluator: restricted scripts

    crates/detta-evaluator/src/lib.rs: the script language of the restricted
    evaluator, its parser and canonical printer, and its execution to a
    kernel trace; and the gate on primitives of crates/detta-core.  The
    fixtures of the crate are in [Fixtures]. *)
From S2P Require Import Prelude Effects Merkle Types AspectRuntime AspectSource Decimal Verify.

(** ** Primitives *)
Inductive EvaluatorPrimitive :=
| PrimStateGet | PrimStateSet | PrimRegistryGet | PrimRegistrySetGuarded | PrimEmitEvent
| PrimCallContract | PrimAbort | PrimPureArithmetic | PrimPureComparison | PrimPureData
| PrimRawAddAtom | PrimRawRemoveAtom | PrimRawPrivateMatch | PrimPrologAssert | PrimPrologRetract
| PrimPythonCall | PrimFileSystemAccess | PrimProcessExecution | PrimNetworkAccess
| PrimWallClockAccess | PrimRandomness | PrimArbitraryImport.
#[export] Instance EvaluatorPrimitive_eq_dec : EqDecision EvaluatorPrimitive.
Proof. solve_decision. Defined.
Definition allowed_in_contracts (p : EvaluatorPrimitive) : bool :=
  match p with
  | PrimStateGet | PrimStateSet | PrimRegistryGet | PrimRegistrySetGuarded | PrimEmitEvent
  | PrimCallContract | PrimAbort | PrimPureArithmetic | PrimPureComparison | PrimPureData => true
  | _ => false
  end.
Definition validate_primitive (p : EvaluatorPrimitive) : outcome ExecutionError () :=
  ensure (allowed_in_contracts p) ForbiddenPrimitive.
Definition allowed_contract_primitives : list EvaluatorPrimitive :=
  [PrimStateGet; PrimStateSet; PrimRegistryGet; PrimRegistrySetGuarded; PrimEmitEvent;
   PrimCallContract; PrimAbort; PrimPureArithmetic; PrimPureComparison; PrimPureData].
Definition forbidden_contract_primitives : list EvaluatorPrimitive :=
  [PrimRawAddAtom; PrimRawRemoveAtom; PrimRawPrivateMatch; PrimPrologAssert; PrimPrologRetract;
   PrimPythonCall; PrimFileSystemAccess; PrimProcessExecution; PrimNetworkAccess;
   PrimWallClockAccess; PrimRandomness; PrimArbitraryImport].

(** ** Scripts *)
Inductive Instruction :=
| UsePrimitive (p : EvaluatorPrimitive)
| InsStateGet (key : StateKey)
| InsStateSet (key : StateKey) (value : StateValue)
| InsCallContract (contract : string) (method : Method)
| PureAdd (left_ right_ : N)
| InsAbort.
Record ExecutionReport := { er_trace : list TraceOp; er_values : list N; er_steps_used : N }.
Inductive EvaluatorError := EvForbiddenPrimitive | EvStepBudgetExceeded | EvArithmeticOverflow | EvAborted.
Inductive ParseError :=
| ScriptUnexpectedEof
| ScriptUnexpectedToken (expected found : string)
| UnknownInstruction (op : string)
| UnknownMethod (method : string)
| UnknownPrimitive (primitive : string)
| UnknownStateKey (kind : string)
| UnknownStateValue (kind : string)
| InvalidNumber (text : string).
Inductive Token := TokL | TokR | TokAtom (atom : string).

Definition push_atom (atom : string) : list Token := if bool_decide (atom = "") then [] else [TokAtom atom].
(** [skip] counts the remaining bytes of a multi-byte white space. *)
Fixpoint tokenize_script (atom : string) (skip : nat) (source : string) : list Token :=
  match source with
  | EmptyString => push_atom atom
  | String c rest =>
      match skip with
      | S skip => tokenize_script atom skip rest
      | O =>
          if decide (c = "("%char) then push_atom atom ++ TokL :: tokenize_script "" 0 rest
          else if decide (c = ")"%char) then push_atom atom ++ TokR :: tokenize_script "" 0 rest
          else match whitespace_len source with
               | S k => push_atom atom ++ tokenize_script "" k rest
               | O => tokenize_script (atom +:+ String c "") 0 rest
               end
      end
  end.
Definition describe_token (t : Token) : string :=
  match t with TokL => "(" | TokR => ")" | TokAtom atom => atom end.

(** ** The parser: the state is the list of tokens left *)
Abbreviation P := (SE (list Token) ParseError).
Definition expect_lparen : P () := λ ts,
  match ts with
  | TokL :: ts => (Ok (), ts)
  | t :: ts => (Err (ScriptUnexpectedToken "(" (describe_token t)), ts)
  | [] => (Err ScriptUnexpectedEof, [])
  end.
Definition expect_rparen : P () := λ ts,
  match ts with
  | TokR :: ts => (Ok (), ts)
  | t :: ts => (Err (ScriptUnexpectedToken ")" (describe_token t)), ts)
  | [] => (Err ScriptUnexpectedEof, [])
  end.
Definition expect_atom : P string := λ ts,
  match ts with
  | TokAtom atom :: ts => (Ok atom, ts)
  | t :: ts => (Err (ScriptUnexpectedToken "atom" (describe_token t)), ts)
  | [] => (Err ScriptUnexpectedEof, [])
  end.
Fixpoint expect_atoms (count : nat) : P (list string) :=
  match count with
  | O => ret []
  | S count => let! a := expect_atom in let! rest := expect_atoms count in ret (a :: rest)
  end.
(** The variants' names, which serde reads and [Debug] prints. *)
Definition primitive_names : list (string * EvaluatorPrimitive) :=
  [("StateGet", PrimStateGet); ("StateSet", PrimStateSet); ("RegistryGet", PrimRegistryGet);
   ("RegistrySetGuarded", PrimRegistrySetGuarded); ("EmitEvent", PrimEmitEvent);
   ("CallContract", PrimCallContract); ("Abort", PrimAbort); ("PureArithmetic", PrimPureArithmetic);
   ("PureComparison", PrimPureComparison); ("PureData", PrimPureData); ("RawAddAtom", PrimRawAddAtom);
   ("RawRemoveAtom", PrimRawRemoveAtom); ("RawPrivateMatch", PrimRawPrivateMatch);
   ("PrologAssert", PrimPrologAssert); ("PrologRetract", PrimPrologRetract);
   ("PythonCall", PrimPythonCall); ("FileSystemAccess", PrimFileSystemAccess);
   ("ProcessExecution", PrimProcessExecution); ("NetworkAccess", PrimNetworkAccess);
   ("WallClockAccess", PrimWallClockAccess); ("Randomness", PrimRandomness);
   ("ArbitraryImport", PrimArbitraryImport)].
Definition method_names : list (string * Method) :=
  [("Transfer", Transfer); ("Approve", Approve); ("TransferFrom", TransferFrom); ("Permit", Permit);
   ("AddLiquidity", AddLiquidity); ("Swap", Swap); ("SubmitPrice", SubmitPrice);
   ("QueueBridgeMessage", QueueBridgeMessage); ("RedeemBridgeMessage", RedeemBridgeMessage);
   ("PauseContract", PauseContract); ("UnpauseContract", UnpauseContract);
   ("ScheduleUpgrade", ScheduleUpgrade); ("ExecuteUpgrade", ExecuteUpgrade);
   ("SchedulePolicyUpdate", SchedulePolicyUpdate); ("ExecutePolicyUpdate", ExecutePolicyUpdate);
   ("DepositCollateral", DepositCollateral); ("Borrow", Borrow); ("Liquidate", Liquidate);
   ("Stake", Stake); ("Unstake", Unstake); ("RequestUnstake", RequestUnstake);
   ("CompleteUnstake", CompleteUnstake); ("ClaimStakingRewards", ClaimStakingRewards);
   ("RouteTransferFrom", RouteTransferFrom); ("DeployToken", DeployToken);
   ("DeployAmmPool", DeployAmmPool); ("SubmitAspectModule", SubmitAspectModule);
   ("DeployAspectContract", DeployAspectContract); ("RegisterAccountKey", RegisterAccountKey);
   ("RevokeAccountKey", RevokeAccountKey)].
(** The keyword of each kind of storage key, with its number of fields, in the
    order of the enum. *)
Definition key_forms : list (string * nat) :=
  [("balance", 3); ("total-supply", 2); ("reserve", 2); ("amm-fee-collected", 2); ("lp-supply", 1);
   ("lp-balance", 2); ("oracle-price", 2); ("oracle-timestamp", 2); ("bridge-message-consumed", 2);
   ("collateral", 3); ("debt", 3); ("debt-last-accrual-height", 3); ("bad-debt", 2);
   ("stake-balance", 3); ("total-staked", 2); ("pending-unbond", 3); ("total-pending-unbond", 2);
   ("staking-penalty-collected", 2); ("unbond-ready-height", 3); ("staking-reward-balance", 3);
   ("staking-last-reward-height", 3)]%nat.
Definition lookup_name {A} (name : string) (l : list (string * A)) : option A :=
  snd <$> (snd <$> list_find (λ x, x.1 = name) l).
Definition parse_primitive (value : string) : outcome ParseError EvaluatorPrimitive :=
  ok_or (lookup_name value primitive_names) (UnknownPrimitive value).
Definition parse_method (value : string) : outcome ParseError Method :=
  ok_or (lookup_name value method_names) (UnknownMethod value).
Definition parse_amount (value : string) : outcome ParseError N :=
  ok_or (parse_u128 value) (InvalidNumber value).
Definition parse_state_key : P StateKey :=
  do! expect_lparen in
  let! key_kind := expect_atom in
  let? form := ok_or (list_find (λ x, x.1 = key_kind) key_forms) (UnknownStateKey key_kind) in
  let! fields := expect_atoms form.2.2 in
  let? key := ok_or (decode_StateKey (N.of_nat form.1, fields)) (UnknownStateKey key_kind) in
  do! expect_rparen in
  ret key.
Definition parse_state_value : P StateValue :=
  do! expect_lparen in
  let! value_kind := expect_atom in
  do? ensure (bool_decide (value_kind = "uint")) (UnknownStateValue value_kind) in
  let! text := expect_atom in
  let? value := parse_amount text in
  do! expect_rparen in
  ret (UInt value).
Definition instruction_body (op : string) : P Instruction :=
  if bool_decide (op = "use-primitive") then
    let! name := expect_atom in let? p := parse_primitive name in ret (UsePrimitive p)
  else if bool_decide (op = "state-get") then
    let! key := parse_state_key in ret (InsStateGet key)
  else if bool_decide (op = "state-set") then
    let! key := parse_state_key in let! value := parse_state_value in ret (InsStateSet key value)
  else if bool_decide (op = "call-contract") then
    let! contract := expect_atom in
    let! name := expect_atom in
    let? method := parse_method name in
    ret (InsCallContract contract method)
  else if bool_decide (op = "pure-add") then
    let! text := expect_atom in
    let? l := parse_amount text in
    let! text := expect_atom in
    let? r := parse_amount text in
    ret (PureAdd l r)
  else if bool_decide (op = "abort") then ret InsAbort
  else throw (UnknownInstruction op).
Definition parse_instruction : P Instruction :=
  do! expect_lparen in
  let! op := expect_atom in
  let! instruction := instruction_body op in
  do! expect_rparen in
  ret instruction.
Fixpoint parse_instructions (fuel : nat) : P (list Instruction) := λ ts,
  match ts with
  | [] => (Ok [], [])
  | _ :: _ =>
      match fuel with
      | O => (OutOfFuel, ts)
      | S fuel =>
          (let! i := parse_instruction in let! rest := parse_instructions fuel in ret (i :: rest)) ts
      end
  end.
Definition parse_restricted_script (source : string) : outcome ParseError (list Instruction) :=
  let ts := tokenize_script "" 0 source in (parse_instructions (length ts) ts).1.

(** ** The printer *)
Definition form (parts : list string) : string := "(" +:+ String.concat " " parts +:+ ")".
Definition name_of {A} `{EqDecision A} (x : A) (l : list (string * A)) : option string :=
  fst <$> (snd <$> list_find (λ y, y.2 = x) l).
Definition canonical_primitive (p : EvaluatorPrimitive) : string := default "" (name_of p primitive_names).
(** The name of a method outside the enum is printed between quotes; the
    escapes [Debug] puts inside it are left out. *)
Definition canonical_method (m : Method) : string :=
  match m with
  | Other name => "Other(" +:+ String quote_char "" +:+ name +:+ String quote_char "" +:+ ")"
  | _ => default "" (name_of m method_names)
  end.
Definition canonical_state_value (v : StateValue) : string :=
  match v with UInt v => form ["uint"; pretty v] end.
Definition canonical_state_key (k : StateKey) : string :=
  match k with
  | AspectState contract aspect state key =>
      form ["aspect-state"; contract; aspect; state; String.concat "," key]
  | _ =>
      let '(index, fields) := encode_StateKey k in
      form (default "" (fst <$> key_forms !! N.to_nat index) :: fields)
  end.
Definition canonical_instruction (i : Instruction) : string :=
  match i with
  | UsePrimitive p => form ["use-primitive"; canonical_primitive p]
  | InsStateGet key => form ["state-get"; canonical_state_key key]
  | InsStateSet key value => form ["state-set"; canonical_state_key key; canonical_state_value value]
  | InsCallContract contract method => form ["call-contract"; contract; canonical_method method]
  | PureAdd l r => form ["pure-add"; pretty l; pretty r]
  | InsAbort => form ["abort"]
  end.
Definition canonical_script_source (instructions : list Instruction) : string :=
  String.concat newline (canonical_instruction <$> instructions).

(** ** Execution *)
Definition map_execution_error {A} (o : outcome ExecutionError A) : outcome EvaluatorError A :=
  match o with
  | Ok a => Ok a
  | Err ForbiddenPrimitive => Err EvForbiddenPrimitive
  | Err ArithmeticOverflow => Err EvArithmeticOverflow
  | Err _ => Err EvForbiddenPrimitive
  | Panic => Panic
  | OutOfFuel => OutOfFuel
  end.
Definition gate (p : EvaluatorPrimitive) : outcome EvaluatorError () :=
  map_execution_error (validate_primitive p).
Definition execute_instruction (max_steps : N) (i : Instruction) (r : ExecutionReport)
    : outcome EvaluatorError ExecutionReport :=
  let* steps_used := ok_or (checked_add u64_max (er_steps_used r) 1) EvStepBudgetExceeded in
  do* ensure (negb (max_steps <? steps_used)) EvStepBudgetExceeded in
  let push op values := {| er_trace := er_trace r ++ op; er_values := er_values r ++ values;
                           er_steps_used := steps_used |} in
  match i with
  | UsePrimitive p => do* gate p in Ok (push [] [])
  | InsStateGet key => do* gate PrimStateGet in Ok (push [OpStateGet key] [])
  | InsStateSet key _ => do* gate PrimStateSet in Ok (push [OpStateSet key] [])
  | InsCallContract contract method =>
      do* gate PrimCallContract in Ok (push [OpCallContract contract method] [])
  | PureAdd l r =>
      do* gate PrimPureArithmetic in
      let* value := ok_or (checked_add_u128 l r) EvArithmeticOverflow in
      Ok (push [] [value])
  | InsAbort => do* gate PrimAbort in Err EvAborted
  end.
Fixpoint execute_from (max_steps : N) (instructions : list Instruction) (r : ExecutionReport)
    : outcome EvaluatorError ExecutionReport :=
  match instructions with
  | [] => Ok r
  | i :: instructions =>
      let* r := execute_instruction max_steps i r in execute_from max_steps instructions r
  end.
Definition execute (max_steps : N) (instructions : list Instruction) : outcome EvaluatorError ExecutionReport :=
  execute_from max_steps instructions {| er_trace := []; er_values := []; er_steps_used := 0 |}.

(** ** Printing and reading back

    Every character of [a], read with [k] behind it, belongs to an atom. *)
Fixpoint plain (a k : string) : bool :=
  match a with
  | EmptyString => true
  | String c a' =>
      negb (bool_decide (c = "("%char)) && negb (bool_decide (c = ")"%char)) &&
      bool_decide (whitespace_len (a +:+ k) = 0%nat) && plain a' k
  end.
Definition atom_plain (a : string) : Prop := a ≠ "" ∧ plain a "" = true.
Definition tok_ok (t : Token) : Prop := match t with TokAtom a => atom_plain a | _ => True end.
Fixpoint expr_toks (e : Expr) : list Token :=
  match e with Atom a => [TokAtom a] | ExprList items => TokL :: flat_map expr_toks items ++ [TokR] end.
Fixpoint expr_plain (e : Expr) : Prop :=
  match e with Atom a => atom_plain a | ExprList items => foldr (λ e P, expr_plain e ∧ P) True items end.

Lemma plain_cons c a k :
  plain (String c a) k = true ↔
  c ≠ "("%char ∧ c ≠ ")"%char ∧ whitespace_len (String c a +:+ k) = 0%nat ∧ plain a k = true.
Proof.
  cbn [plain]. rewrite !andb_true_iff, !negb_true_iff, !bool_decide_eq_false, bool_decide_eq_true. tauto.
Qed.
Lemma plain_to_delimited a k : delimited k → plain a "" = true → plain a k = true.
Proof.
  intros Hk. induction a as [|c a IH]; [done|]. rewrite !plain_cons. intros (? & ? & Hw & ?).
  split_and!; [done..| |auto]. rewrite string_app_nil in Hw. by apply whitespace_delimited.
Qed.
Lemma plain_to_nil a k : plain a k = true → plain a "" = true.
Proof.
  induction a as [|c a IH]; [done|]. rewrite !plain_cons. intros (? & ? & Hw & ?).
  split_and!; [done..| |auto]. rewrite string_app_nil. by apply whitespace_mono in Hw.
Qed.
Lemma plain_app a c k :
  plain a (String c k) = true → plain (String c "") k = true → plain (a +:+ String c "") k = true.
Proof.
  induction a as [|x a IH]; [done|]. intros (? & ? & Hw & Ha)%plain_cons Hc.
  change (String x a +:+ String c "") with (String x (a +:+ String c "")). apply plain_cons.
  split_and!; [done..| |auto].
  change (String x (a +:+ String c "") +:+ k) with ((String x a +:+ String c "") +:+ k).
  by rewrite string_app_assoc.
Qed.
Lemma push_atom_nonempty a : a ≠ "" → push_atom a = [TokAtom a].
Proof. intros Ha. unfold push_atom. by rewrite bool_decide_false. Qed.
Lemma tokenize_chars acc a k :
  plain a k = true → tokenize_script acc 0 (a +:+ k) = tokenize_script (acc +:+ a) 0 k.
Proof.
  revert acc. induction a as [|c a IH]; intros acc.
  { intros _. change ("" +:+ k) with k. by rewrite string_app_nil. }
  intros (H1 & H2 & Hw & Ha)%plain_cons. change (String c a +:+ k) with (String c (a +:+ k)) in *.
  cbn [tokenize_script]. rewrite Hw, !decide_False by done. rewrite IH by done.
  by rewrite string_app_assoc.
Qed.
Lemma tokenize_space acc c k :
  c = " "%char ∨ c = newline_char →
  tokenize_script acc 0 (String c k) = push_atom acc ++ tokenize_script "" 0 k.
Proof.
  intros Hc. cbn [tokenize_script].
  assert (whitespace_len (String c k) = 1%nat) as -> by (by destruct Hc as [-> | ->]).
  by rewrite !decide_False by (by destruct Hc as [-> | ->]).
Qed.
Lemma tokenize_atom a k :
  atom_plain a → delimited k → tokenize_script "" 0 (a +:+ k) = TokAtom a :: tokenize_script "" 0 k.
Proof.
  intros [Ha Hp] Hk. rewrite tokenize_chars by (by apply plain_to_delimited).
  change ("" +:+ a) with a. destruct k as [|d k]; [done|]. destruct Hk as [-> | ->].
  - rewrite !tokenize_space by auto. by rewrite (push_atom_nonempty a).
  - cbn [tokenize_script]. by rewrite (push_atom_nonempty a).
Qed.
Lemma tokenize_items items k :
  Forall (λ e, ∀ k, delimited k → tokenize_script "" 0 (canonical_expr e +:+ k)
                                  = expr_toks e ++ tokenize_script "" 0 k) items →
  tokenize_script "" 0 (String.concat " " (map canonical_expr items) +:+ (")" +:+ k))
  = flat_map expr_toks items ++ TokR :: tokenize_script "" 0 k.
Proof.
  induction 1 as [|e items He Hitems IH]; [done|]. destruct items as [|e' items].
  - cbn [map String.concat flat_map]. rewrite app_nil_r. rewrite He by (by right). done.
  - cbn [map String.concat] in *. rewrite !string_app_assoc, He by (by left).
    change (" " +:+ ?x) with (String " " x). rewrite tokenize_space by auto. rewrite IH.
    cbn [flat_map]. by rewrite <-!app_assoc.
Qed.
Lemma tokenize_expr e :
  expr_plain e → ∀ k, delimited k ∨ (∃ items, e = ExprList items) →
  tokenize_script "" 0 (canonical_expr e +:+ k) = expr_toks e ++ tokenize_script "" 0 k.
Proof.
  induction e as [a|items IH] using Expr_nested_ind; intros Hok k Hk.
  { destruct Hk as [Hk|[? ?]]; [|done]. by apply tokenize_atom. }
  cbn [canonical_expr expr_toks]. rewrite !string_app_assoc.
  change ("(" +:+ ?x) with (String "(" x). cbn [tokenize_script]. rewrite decide_True by done.
  change (push_atom "" ++ ?l) with l. rewrite tokenize_items; [by rewrite <-app_comm_cons, <-app_assoc|].
  clear Hk. cbn [expr_plain] in Hok. induction IH as [|e items He Hitems IHl]; [constructor|].
  destruct Hok as [Hoe Hoi]. constructor; [|by apply IHl]. intros k' Hk'. apply He; [done|by left].
Qed.
(** What the tokenizer makes of any text. *)
Lemma push_atom_ok a k : (a = "" ∨ plain a k = true) → Forall tok_ok (push_atom a).
Proof.
  unfold push_atom. case_bool_decide; [constructor|]. intros [?|Hp]; [done|].
  repeat constructor; [done|]. by eapply plain_to_nil.
Qed.
Lemma tokens_plain acc skip s :
  (acc = "" ∨ plain acc s = true ∧ skip = 0%nat) → Forall tok_ok (tokenize_script acc skip s).
Proof.
  revert acc skip. induction s as [|c s IH]; intros acc skip Hacc; cbn [tokenize_script].
  { apply (push_atom_ok acc ""). destruct Hacc as [?|[? _]]; auto. }
  destruct skip as [|skip].
  2: { apply IH. destruct Hacc as [?|[_ ?]]; [by left|done]. }
  assert (Hpush : Forall tok_ok (push_atom acc)) by (eapply push_atom_ok; destruct Hacc as [?|[? _]]; eauto).
  destruct (decide _) as [|H1]; [|destruct (decide _) as [|H2]].
  - apply Forall_app. split; [done|]. constructor; [done|]. apply IH. by left.
  - apply Forall_app. split; [done|]. constructor; [done|]. apply IH. by left.
  - destruct (whitespace_len (String c s)) as [|w] eqn:Hw.
    + apply IH. right. split; [|done]. assert (plain (String c "") s = true) as Hc by (by apply plain_cons).
      destruct Hacc as [->|[Ha _]]; [done|]. by apply plain_app.
    + apply Forall_app. split; [done|]. apply IH. by left.
Qed.

Definition key_expr (k : StateKey) : Expr :=
  let '(index, fields) := encode_StateKey k in
  ExprList (Atom <$> default "" (fst <$> key_forms !! N.to_nat index) :: fields).
Definition value_expr (v : StateValue) : Expr :=
  match v with UInt v => ExprList [Atom "uint"; Atom (pretty v)] end.
Definition instruction_expr (i : Instruction) : Expr :=
  match i with
  | UsePrimitive p => ExprList [Atom "use-primitive"; Atom (canonical_primitive p)]
  | InsStateGet key => ExprList [Atom "state-get"; key_expr key]
  | InsStateSet key value => ExprList [Atom "state-set"; key_expr key; value_expr value]
  | InsCallContract contract method =>
      ExprList [Atom "call-contract"; Atom contract; Atom (canonical_method method)]
  | PureAdd l r => ExprList [Atom "pure-add"; Atom (pretty l); Atom (pretty r)]
  | InsAbort => ExprList [Atom "abort"]
  end.
(** The instructions the printer has a notation for that the parser reads. *)
Definition key_ok (k : StateKey) : Prop :=
  match k with AspectState _ _ _ _ => False | _ => True end ∧ Forall atom_plain (encode_StateKey k).2.
Definition value_ok (v : StateValue) : Prop := as_uint v ≤ u128_max.
Definition method_ok (m : Method) : Prop := match m with Other _ => False | _ => True end.
Definition printable (i : Instruction) : Prop :=
  match i with
  | UsePrimitive _ | InsAbort => True
  | InsStateGet key => key_ok key
  | InsStateSet key value => key_ok key ∧ value_ok value
  | InsCallContract contract method => atom_plain contract ∧ method_ok method
  | PureAdd l r => l ≤ u128_max ∧ r ≤ u128_max
  end.

Lemma canonical_key k : key_ok k → canonical_state_key k = canonical_expr (key_expr k).
Proof. intros [Hk _]. by destruct k. Qed.
Lemma canonical_instruction_expr i :
  printable i → canonical_instruction i = canonical_expr (instruction_expr i).
Proof.
  destruct i as [p|k|k v|c m|l r|]; simpl; try done.
  - by intros ->%canonical_key.
  - intros [->%canonical_key _]. by destruct v.
Qed.
Lemma digit_plain c n k : digit c = Some n → plain (String c "") k = true.
Proof.
  intros Hd. apply plain_cons. unfold digit in Hd.
  assert (48 ≤ N_of_ascii c ∧ N_of_ascii c ≤ 57) as [H1 H2].
  { revert Hd. by destruct c as [[] [] [] [] [] [] [] []]; vm_compute. }
  split_and!; [by intros ->|by intros ->| |done].
  change (String c "" +:+ k) with (String c k). unfold whitespace_len.
  assert (∀ x, x = N_of_ascii c → ascii_whitespace x = false ∧
    (∀ m, whitespace_2 x m = false) ∧ (∀ m l, whitespace_3 x m l = false)) as Hx.
  { intros x ->. unfold ascii_whitespace, whitespace_2, whitespace_3.
    destruct (N.leb_spec (N_of_ascii c) 13), (N.eqb_spec (N_of_ascii c) 32), (N.eqb_spec (N_of_ascii c) 0xC2),
      (N.eqb_spec (N_of_ascii c) 0xE1), (N.eqb_spec (N_of_ascii c) 0xE2), (N.eqb_spec (N_of_ascii c) 0xE3);
      try lia. rewrite !andb_false_r. done. }
  destruct (Hx _ eq_refl) as (-> & H2' & H3'). destruct k as [|m [|l k]]; by rewrite ?H2', ?H3'.
Qed.
Lemma parse_digits_plain acc s n : parse_digits acc s = Some n → plain s "" = true.
Proof.
  revert acc. induction s as [|c s IH]; intros acc; [done|]. cbn [parse_digits].
  destruct (digit c) as [d|] eqn:Hd; [|done]. cbn [mbind option_bind].
  destruct (checked_mul_u128 acc 10) as [a|]; [|done]. cbn [mbind option_bind].
  destruct (checked_add_u128 a d) as [b|]; [|done]. cbn [mbind option_bind]. intros Hs%IH.
  pose proof (digit_plain c d s Hd) as (? & ? & Hw & _)%plain_cons. apply plain_cons. by rewrite string_app_nil.
Qed.
Lemma pretty_plain n : n ≤ u128_max → atom_plain (pretty n).
Proof.
  intros Hn. destruct (pretty_head n) as (c & s & Hp & Hc). split; [by rewrite Hp|].
  pose proof (parse_pretty n Hn) as Hr. rewrite Hp in *. apply (parse_digits_plain 0 _ n).
  rewrite <-Hr. unfold parse_u128. destruct c as [[] [] [] [] [] [] [] []]; done.
Qed.
Lemma primitive_plain p : atom_plain (canonical_primitive p).
Proof. split; [by destruct p|]. by destruct p. Qed.
Lemma method_plain m : method_ok m → atom_plain (canonical_method m).
Proof. intros Hm. split; by destruct m. Qed.
Lemma atoms_plain l : Forall atom_plain l → foldr (λ e P, expr_plain e ∧ P) True (Atom <$> l).
Proof. induction 1; by simpl. Qed.
Lemma key_plain k : key_ok k → expr_plain (key_expr k).
Proof.
  intros [Hk Hf]. unfold key_expr. destruct (encode_StateKey k) as [n fields] eqn:He. simpl in Hf.
  cbn [fmap list_fmap expr_plain foldr]. split; [|by apply atoms_plain].
  split; by destruct k; injection He as <- <-.
Qed.
Lemma instruction_plain i : printable i → expr_plain (instruction_expr i).
Proof.
  destruct i as [p|k|k v|c m|l r|]; cbn [printable instruction_expr expr_plain foldr].
  - intros _. split_and!; [done|apply primitive_plain|done].
  - intros Hk. split_and!; [done|by apply key_plain|done].
  - intros [Hk Hv]. split_and!; [done|by apply key_plain| |done]. destruct v. simpl.
    split_and!; [done|by apply pretty_plain|done].
  - intros [Hc Hm]. split_and!; [done|done|by apply method_plain|done].
  - intros [Hl Hr]. split_and!; [done|by apply pretty_plain|by apply pretty_plain|done].
  - done.
Qed.

(** Reading the tokens of an instruction gives it back. *)
Lemma parse_key_toks k rest :
  key_ok k → parse_state_key (expr_toks (key_expr k) ++ rest) = (Ok k, rest).
Proof. intros [Hk _]. destruct k; try done; reflexivity. Qed.
Lemma parse_amount_pretty n : n ≤ u128_max → parse_amount (pretty n) = Ok n.
Proof. intros Hn. unfold parse_amount. by rewrite parse_pretty. Qed.
Lemma parse_value_toks v rest :
  value_ok v → parse_state_value (expr_toks (value_expr v) ++ rest) = (Ok v, rest).
Proof.
  destruct v as [n]. intros Hv. unfold parse_state_value.
  cbn [expr_toks value_expr flat_map app]. unfold bind, expect_lparen, expect_atom, lift.
  cbn [ensure]. rewrite bool_decide_true by done. cbn [ensure]. by rewrite parse_amount_pretty.
Qed.
Lemma parse_instruction_toks i rest :
  printable i → parse_instruction (expr_toks (instruction_expr i) ++ rest) = (Ok i, rest).
Proof.
  unfold parse_instruction, instruction_body.
  destruct i as [p|k|k v|c m|l r|]; intros Hi; cbn [instruction_expr expr_toks flat_map app];
    unfold bind at 1, expect_lparen at 1; unfold bind at 1, expect_atom at 1;
    unfold bind at 1.
  - by destruct p.
  - simpl in Hi. rewrite <-!app_assoc. simpl.
    unfold bind. by rewrite parse_key_toks.
  - destruct Hi as [Hk Hv]. rewrite <-!app_assoc. simpl. unfold bind.
    by rewrite parse_key_toks, parse_value_toks.
  - destruct Hi as [_ Hm]. by destruct m.
  - destruct Hi as [Hl Hr]. simpl. unfold bind, lift, expect_atom.
    by rewrite !parse_amount_pretty.
  - done.
Qed.

(** What the parser returns is printable. *)
Definition parses {A} (m : P A) (Q : A → Prop) : Prop :=
  ∀ ts, Forall tok_ok ts → wp m (λ a ts', Q a ∧ Forall tok_ok ts') ts.
Section parses.
Context {A B : Type}.
Implicit Types (m : P A) (k : A → P B).
Lemma parses_bind m k Q R :
  parses m Q → (∀ a, Q a → parses (k a) R) → parses (bind m k) R.
Proof.
  intros Hm Hk ts Hts. rewrite wp_bind. specialize (Hm ts Hts). unfold wp in *.
  destruct (m ts) as [[a| | |] ts']; [|done..]. destruct Hm as [Ha Hts']. by apply Hk.
Qed.
Lemma parses_ret (a : A) (Q : A → Prop) : Q a → parses (ret a) Q.
Proof. intros Ha ts Hts. by split. Qed.
Lemma parses_lift (o : outcome ParseError A) (Q : A → Prop) : (∀ a, o = Ok a → Q a) → parses (lift o) Q.
Proof. intros Ho ts Hts. unfold wp, lift. destruct o; [|done..]. split; auto. Qed.
End parses.
Lemma parses_lparen : parses expect_lparen (λ _, True).
Proof. intros [|[] ts] Hts; try done. split; [done|]. by apply Forall_cons in Hts as [_ ?]. Qed.
Lemma parses_rparen : parses expect_rparen (λ _, True).
Proof. intros [|[] ts] Hts; try done. split; [done|]. by apply Forall_cons in Hts as [_ ?]. Qed.
Lemma parses_atom : parses expect_atom atom_plain.
Proof. intros [|[] ts] Hts; try done. by apply Forall_cons in Hts as [? ?]. Qed.
Lemma parses_atoms n : parses (expect_atoms n) (Forall atom_plain).
Proof.
  induction n as [|n IH]; [apply parses_ret; constructor|].
  eapply parses_bind; [apply parses_atom|]. intros a Ha. eapply parses_bind; [exact IH|].
  intros l Hl. apply parses_ret. by constructor.
Qed.
Lemma decode_key_inv n fields k : decode_StateKey (n, fields) = Some k → encode_StateKey k = (n, fields).
Proof. unfold decode_StateKey. intros Hk. repeat (case_match; try done); by injection Hk as <-. Qed.
Lemma parses_key : parses parse_state_key key_ok.
Proof.
  eapply parses_bind; [apply parses_lparen|]. intros _ _. eapply parses_bind; [apply parses_atom|].
  intros kind _. eapply parses_bind; [by apply (parses_lift _ (λ form, form.1 < length key_forms)%nat);
    intros [i x] (Hx & _ & _)%ok_or_Ok%list_find_Some; apply lookup_lt_Some in Hx|].
  intros form Hform. eapply parses_bind; [apply parses_atoms|]. intros fields Hf.
  eapply parses_bind; [apply (parses_lift _ key_ok)|].
  - intros k Hk%ok_or_Ok%decode_key_inv. split; [|by rewrite Hk]. destruct k; try done.
    injection Hk as Hk _. simpl in Hform. lia.
  - intros k Hk. eapply parses_bind; [apply parses_rparen|]. intros _ _. by apply parses_ret.
Qed.
Lemma parse_digits_bound acc s n : acc ≤ u128_max → parse_digits acc s = Some n → n ≤ u128_max.
Proof.
  revert acc. induction s as [|c s IH]; intros acc Hacc; cbn [parse_digits]; [by intros [= <-]|].
  destruct (digit c) as [d|]; [|done]. cbn [mbind option_bind].
  destruct (checked_mul_u128 acc 10) as [a|]; [|done]. cbn [mbind option_bind].
  destruct (checked_add_u128 a d) as [b|] eqn:Hb; [|done]. cbn [mbind option_bind]. apply IH.
  unfold checked_add_u128, checked_add in Hb. destruct (N.leb_spec (a + d) u128_max); [|done].
  by injection Hb as <-.
Qed.
Lemma parse_amount_bound s n : parse_amount s = Ok n → n ≤ u128_max.
Proof.
  unfold parse_amount. intros Hn%ok_or_Ok. unfold parse_u128 in Hn.
  repeat case_match; try done; by eapply parse_digits_bound; [|exact Hn].
Qed.
Lemma parses_value : parses parse_state_value value_ok.
Proof.
  eapply parses_bind; [apply parses_lparen|]. intros _ _. eapply parses_bind; [apply parses_atom|].
  intros kind _. eapply parses_bind; [by apply (parses_lift _ (λ _, True))|]. intros _ _.
  eapply parses_bind; [apply parses_atom|]. intros text _.
  eapply parses_bind; [apply parses_lift, parse_amount_bound|]. intros n Hn.
  eapply parses_bind; [apply parses_rparen|]. intros _ _. by apply parses_ret.
Qed.
Lemma parse_method_ok s m : parse_method s = Ok m → method_ok m.
Proof.
  unfold parse_method, lookup_name. intros Hm%ok_or_Ok.
  destruct (list_find _ method_names) as [[i [x m']]|] eqn:Hf; [|done]. injection Hm as ->.
  apply list_find_Some in Hf as (Hi & _ & _). apply list_elem_of_lookup_2 in Hi.
  assert (Hall : Forall (method_ok ∘ snd) method_names) by (repeat constructor).
  rewrite Forall_forall in Hall. by apply Hall in Hi.
Qed.
Lemma parses_body op : parses (instruction_body op) printable.
Proof.
  unfold instruction_body. repeat case_bool_decide.
  - eapply parses_bind; [apply parses_atom|]. intros name _.
    eapply parses_bind; [by apply (parses_lift _ (λ _, True))|]. intros p _. by apply parses_ret.
  - eapply parses_bind; [apply parses_key|]. intros k Hk. by apply parses_ret.
  - eapply parses_bind; [apply parses_key|]. intros k Hk.
    eapply parses_bind; [apply parses_value|]. intros v Hv. by apply parses_ret.
  - eapply parses_bind; [apply parses_atom|]. intros c Hc. eapply parses_bind; [apply parses_atom|].
    intros name _. eapply parses_bind; [apply parses_lift, parse_method_ok|]. intros m Hm. by apply parses_ret.
  - eapply parses_bind; [apply parses_atom|]. intros t1 _.
    eapply parses_bind; [apply parses_lift, parse_amount_bound|]. intros l Hl.
    eapply parses_bind; [apply parses_atom|]. intros t2 _.
    eapply parses_bind; [apply parses_lift, parse_amount_bound|]. intros r Hr. by apply parses_ret.
  - by apply parses_ret.
  - done.
Qed.
Lemma parses_instruction : parses parse_instruction printable.
Proof.
  eapply parses_bind; [apply parses_lparen|]. intros _ _. eapply parses_bind; [apply parses_atom|].
  intros op _. eapply parses_bind; [apply parses_body|]. intros i Hi.
  eapply parses_bind; [apply parses_rparen|]. intros _ _. by apply parses_ret.
Qed.
Lemma parses_instructions fuel : parses (parse_instructions fuel) (Forall printable).
Proof.
  induction fuel as [|fuel IH]; intros [|t ts] Hts; try (by split).
  apply (parses_bind parse_instruction _ printable); [apply parses_instruction| |done].
  intros i Hi. eapply parses_bind; [exact IH|]. intros l Hl. apply parses_ret. by constructor.
Qed.
Lemma tokenize_script_source script :
  Forall printable script →
  tokenize_script "" 0 (canonical_script_source script) = flat_map (expr_toks ∘ instruction_expr) script.
Proof.
  intros His. unfold canonical_script_source.
  assert (Hlist : ∀ i, ∃ items, instruction_expr i = ExprList items) by (intros []; by eexists).
  induction His as [|i script Hi His IH]; [done|]. rewrite fmap_cons. destruct script as [|i' script].
  - cbn [fmap list_fmap String.concat flat_map]. rewrite app_nil_r, canonical_instruction_expr by done.
    rewrite <-(string_app_nil (canonical_expr _)). rewrite tokenize_expr; [apply app_nil_r| |by right].
    by apply instruction_plain.
  - cbn [fmap list_fmap String.concat] in *. rewrite canonical_instruction_expr by done.
    rewrite tokenize_expr; [|by apply instruction_plain|by right].
    change (newline +:+ ?x) with (String newline_char x). rewrite tokenize_space by auto.
    rewrite IH. done.
Qed.
Lemma parse_script_toks script fuel :
  Forall printable script → (length script ≤ fuel)%nat →
  parse_instructions fuel (flat_map (expr_toks ∘ instruction_expr) script) = (Ok script, []).
Proof.
  intros His. revert fuel. induction His as [|i script Hi His IH]; intros fuel Hf; [by destruct fuel|].
  destruct fuel as [|fuel]; simpl in Hf; [lia|].
  assert (∃ t ts, expr_toks (instruction_expr i) = t :: ts) as (t & ts & Ht) by (destruct i; by eexists _, _).
  cbn [flat_map]. change ((expr_toks ∘ instruction_expr) i) with (expr_toks (instruction_expr i)).
  assert (∀ l, parse_instructions (S fuel) (expr_toks (instruction_expr i) ++ l) =
    (let! i := parse_instruction in let! rest := parse_instructions fuel in ret (i :: rest))
      (expr_toks (instruction_expr i) ++ l)) as -> by (intros l; by rewrite Ht).
  unfold bind. rewrite parse_instruction_toks by done. by rewrite IH by lia.
Qed.
(** Printing a parsed script and parsing it again gives the same script:
    the canonical source, which a report is bound to, stands for the
    instructions. *)
Theorem script_source_roundtrip source script :
  parse_restricted_script source = Ok script → parse_restricted_script (canonical_script_source script) = Ok script.
Proof.
  unfold parse_restricted_script. cbv zeta. intros Hp.
  assert (His : Forall printable script).
  { pose proof (parses_instructions (length (tokenize_script "" 0 source)) (tokenize_script "" 0 source)) as Hw.
    unfold wp in Hw. destruct (parse_instructions _ _) as [o ts]. simpl in Hp. subst o.
    apply Hw. apply tokens_plain. by left. }
  rewrite tokenize_script_source by done. rewrite parse_script_toks; [done|done|].
  clear. induction script as [|i script IH]; simpl; [lia|]. rewrite length_app.
  assert (0 < length (expr_toks (instruction_expr i)))%nat by (destruct i; simpl; lia). lia.
Qed.

(** Instructions that cannot come from the parser print to text it rejects. *)
Lemma printer_unreadable :
  parse_restricted_script (canonical_script_source [InsStateGet (AspectState "c" "a" "s" ["k"])])
    = Err (UnknownStateKey "aspect-state") ∧
  parse_restricted_script (canonical_script_source [InsCallContract "c" (Other "Mint")])
    = Err (UnknownMethod "Other").
Proof. split; vm_compute; reflexivity. Qed.

(** ** Execution succeeds exactly on scripts within the rules *)
Definition step_allowed (i : Instruction) : bool :=
  match i with
  | UsePrimitive p => allowed_in_contracts p
  | PureAdd l r => l + r <=? u128_max
  | InsAbort => false
  | _ => true
  end.
Definition step_trace (i : Instruction) : option TraceOp :=
  match i with
  | InsStateGet key => Some (OpStateGet key)
  | InsStateSet key _ => Some (OpStateSet key)
  | InsCallContract contract method => Some (OpCallContract contract method)
  | _ => None
  end.
Definition step_value (i : Instruction) : option N := match i with PureAdd l r => Some (l + r) | _ => None end.
Lemma execute_instruction_Ok max i r r' :
  execute_instruction max i r = Ok r' ↔
  step_allowed i = true ∧ er_steps_used r + 1 ≤ N.min max u64_max ∧
  r' = {| er_trace := er_trace r ++ option_list (step_trace i);
          er_values := er_values r ++ option_list (step_value i); er_steps_used := er_steps_used r + 1 |}.
Proof.
  unfold execute_instruction, checked_add, checked_add_u128, checked_add, gate, validate_primitive.
  destruct (N.leb_spec (er_steps_used r + 1) u64_max); cbn [ok_or outcome_bind]; [|split; [done|lia]].
  destruct (N.ltb_spec max (er_steps_used r + 1)); cbn [negb ensure outcome_bind]; [split; [done|lia]|].
  assert (Hle : er_steps_used r + 1 ≤ N.min max u64_max) by lia.
  destruct i as [p|k|k v|c m|a b|]; cbn [allowed_in_contracts ensure map_execution_error outcome_bind
    step_allowed step_trace step_value option_list]; rewrite ?app_nil_r.
  - destruct (allowed_in_contracts p); cbn; [|split; [done|naive_solver]]. naive_solver.
  - naive_solver.
  - naive_solver.
  - naive_solver.
  - destruct (a + b <=? u128_max); cbn; [|split; [done|naive_solver]]. naive_solver.
  - split; [done|naive_solver].
Qed.
Definition script_report (r : ExecutionReport) (script : list Instruction) : ExecutionReport :=
  {| er_trace := er_trace r ++ omap step_trace script; er_values := er_values r ++ omap step_value script;
     er_steps_used := er_steps_used r + N.of_nat (length script) |}.
Lemma execute_from_Ok max script r r' :
  er_steps_used r ≤ N.min max u64_max →
  execute_from max script r = Ok r' ↔
  Forall (λ i, step_allowed i = true) script ∧
  er_steps_used r + N.of_nat (length script) ≤ N.min max u64_max ∧ r' = script_report r script.
Proof.
  revert r. induction script as [|i script IH]; intros r Hr; cbn [execute_from].
  { unfold script_report. simpl. rewrite !app_nil_r, N.add_0_r. split; [|by intros (_ & _ & ->); destruct r].
    intros [= <-]. split_and!; [constructor|done|by destruct r]. }
  rewrite Forall_cons. assert (Hrep : ∀ r1, r1 = {| er_trace := er_trace r ++ option_list (step_trace i);
    er_values := er_values r ++ option_list (step_value i); er_steps_used := er_steps_used r + 1 |} →
    script_report r1 script = script_report r (i :: script)).
  { intros r1 ->. unfold script_report. cbn [er_trace er_values er_steps_used omap list_omap length].
    f_equal; [destruct (step_trace i); cbn; by rewrite <-?app_assoc, ?app_nil_r
      |destruct (step_value i); cbn; by rewrite <-?app_assoc, ?app_nil_r|lia]. }
  split.
  - intros (r1 & (Ha & Hs & Hr1)%execute_instruction_Ok & Hf)%outcome_bind_Ok.
    assert (er_steps_used r1 = er_steps_used r + 1) as Hst by (by subst).
    apply IH in Hf as (Hall & Hle & ->); [|lia]. rewrite (Hrep r1 Hr1). split_and!; [done..| |done].
    cbn [length]. lia.
  - intros ([Ha Hall] & Hle & ->). cbn [length] in Hle.
    assert (Hs : er_steps_used r + 1 ≤ N.min max u64_max) by lia.
    assert (Hi := proj2 (execute_instruction_Ok max i r _) (conj Ha (conj Hs eq_refl))).
    rewrite Hi. cbn [outcome_bind]. apply IH; [cbn; lia|]. split_and!; [done|cbn; lia|].
    symmetry. by apply Hrep.
Qed.
(** C39. A script runs to a report exactly when it fits the step budget, uses
    only primitives allowed in contracts, does not overflow and does not
    abort; the report is then the script's reads, writes and calls in order,
    its sums, and one step for each instruction. *)
Theorem execute_iff max_steps script report :
  execute max_steps script = Ok report ↔
  Forall (λ i, step_allowed i = true) script ∧ N.of_nat (length script) ≤ N.min max_steps u64_max ∧
  report = {| er_trace := omap step_trace script; er_values := omap step_value script;
              er_steps_used := N.of_nat (length script) |}.
Proof. unfold execute. rewrite execute_from_Ok by (simpl; lia). done. Qed.
