(* ===== verification/Fixtures.v ===== *)
(** * Fixtures: the golden scripts of the restricted evaluator

    The fixtures of crates/detta-evaluator/src/lib.rs: scripts the crate runs
    to produce checked-in expectations, and the inventory of the files that
    hold them.  The files are build inputs, read by [include_bytes!]: their
    contents are the parameter [model_file]. *)
From S2P Require Import Prelude Effects Merkle Types Verify Evaluator.

Definition RESTRICTED_EVALUATOR_PROOF_TRACE_SCHEMA : string := "detta.restricted-evaluator-proof-trace.v1".
Definition RESTRICTED_EVALUATOR_FORBIDDEN_PRIMITIVE_SCHEMA : string :=
  "detta.restricted-evaluator-forbidden-primitive.v1".
Definition RESTRICTED_EVALUATOR_RESOURCE_EXHAUSTION_SCHEMA : string :=
  "detta.restricted-evaluator-resource-exhaustion.v1".
Definition RESTRICTED_EVALUATOR_ARITHMETIC_OVERFLOW_SCHEMA : string :=
  "detta.restricted-evaluator-arithmetic-overflow.v1".
Definition RESTRICTED_EVALUATOR_FIXTURE_INVENTORY_SCHEMA : string :=
  "detta.restricted-evaluator-fixture-inventory.v1".
Definition RESTRICTED_EVALUATOR : string := "detta.restricted-script-evaluator".

Record SymbolicVerifierReport := {
  svr_contract : string; svr_allowed_write_scope : list StateKey; svr_errors : list TraceError;
}.
Record RestrictedEvaluatorProofTraceFixture := {
  ptf_schema : string; ptf_schema_version : N; ptf_evaluator : string; ptf_max_steps : N;
  ptf_script : list Instruction; ptf_report : ExecutionReport; ptf_trace_root : string;
  ptf_symbolic_verifier : SymbolicVerifierReport;
}.
Record ForbiddenPrimitiveCase := {
  fpc_primitive : EvaluatorPrimitive; fpc_script : list Instruction; fpc_expected_error : EvaluatorError;
}.
Record RestrictedEvaluatorForbiddenPrimitiveFixture := {
  fpf_schema : string; fpf_schema_version : N; fpf_evaluator : string; fpf_max_steps : N;
  fpf_allowed_primitives : list EvaluatorPrimitive; fpf_forbidden_cases : list ForbiddenPrimitiveCase;
}.
Record ResourceExhaustionCase := {
  rec_name : string; rec_max_steps : N; rec_script : list Instruction;
  rec_expected_error : EvaluatorError; rec_committed_report : option ExecutionReport;
}.
Record RestrictedEvaluatorResourceExhaustionFixture := {
  ref_schema : string; ref_schema_version : N; ref_evaluator : string;
  ref_cases : list ResourceExhaustionCase;
}.
Record ArithmeticOverflowCase := {
  aoc_name : string; aoc_max_steps : N; aoc_left : string; aoc_right : string;
  aoc_expected_error : EvaluatorError; aoc_committed_report : option ExecutionReport;
}.
Record RestrictedEvaluatorArithmeticOverflowFixture := {
  aof_schema : string; aof_schema_version : N; aof_evaluator : string;
  aof_cases : list ArithmeticOverflowCase;
}.
Record EvaluatorFixtureInventoryEntry := {
  efe_name : string; efe_fixture_schema : string; efe_fixture_path : string; efe_fixture_sha256 : string;
  efe_attestation_path : string; efe_attestation_sha256 : string; efe_trace_root : option string;
  efe_trace_root_attestation_path : option string; efe_trace_root_attestation_sha256 : option string;
}.
Record EvaluatorFixtureInventory := {
  efi_schema : string; efi_schema_version : N; efi_evaluator : string;
  efi_fixtures : list EvaluatorFixtureInventoryEntry;
}.

(** [expect] and [expect_err] *)
Definition expect {E A} (o : outcome E A) : outcome Empty_set A :=
  match o with Ok a => Ok a | OutOfFuel => OutOfFuel | _ => Panic end.
Definition expect_err {E A} (o : outcome E A) : outcome Empty_set E :=
  match o with Err e => Ok e | OutOfFuel => OutOfFuel | _ => Panic end.

(** ** Scripts that must fail *)
Definition restricted_evaluator_forbidden_primitive_fixture
    : outcome Empty_set RestrictedEvaluatorForbiddenPrimitiveFixture :=
  let max_steps := 1 in
  let* forbidden_cases := mapR (λ primitive,
    let script := [UsePrimitive primitive] in
    let* expected_error := expect_err (execute max_steps script) in
    Ok {| fpc_primitive := primitive; fpc_script := script; fpc_expected_error := expected_error |})
    forbidden_contract_primitives in
  Ok {| fpf_schema := RESTRICTED_EVALUATOR_FORBIDDEN_PRIMITIVE_SCHEMA; fpf_schema_version := 1;
        fpf_evaluator := RESTRICTED_EVALUATOR; fpf_max_steps := max_steps;
        fpf_allowed_primitives := allowed_contract_primitives; fpf_forbidden_cases := forbidden_cases |}.
Definition alice_balance : StateKey := Balance "TokenA" "Alice" "USDC".
Definition restricted_evaluator_resource_exhaustion_fixture
    : outcome Empty_set RestrictedEvaluatorResourceExhaustionFixture :=
  let max_steps := 1 in
  let script := [InsStateSet alice_balance (UInt 90); UsePrimitive PrimPureData] in
  let* expected_error := expect_err (execute max_steps script) in
  Ok {| ref_schema := RESTRICTED_EVALUATOR_RESOURCE_EXHAUSTION_SCHEMA; ref_schema_version := 1;
        ref_evaluator := RESTRICTED_EVALUATOR;
        ref_cases := [{| rec_name := "step-budget-exhaustion-discards-emitted-trace";
          rec_max_steps := max_steps; rec_script := script; rec_expected_error := expected_error;
          rec_committed_report := None |}] |}.
Definition restricted_evaluator_arithmetic_overflow_fixture
    : outcome Empty_set RestrictedEvaluatorArithmeticOverflowFixture :=
  let max_steps := 1 in
  let left_ := u128_max in
  let right_ := 1 in
  let* expected_error := expect_err (execute max_steps [PureAdd left_ right_]) in
  Ok {| aof_schema := RESTRICTED_EVALUATOR_ARITHMETIC_OVERFLOW_SCHEMA; aof_schema_version := 1;
        aof_evaluator := RESTRICTED_EVALUATOR;
        aof_cases := [{| aoc_name := "u128-addition-overflow-discards-report"; aoc_max_steps := max_steps;
          aoc_left := pretty left_; aoc_right := pretty right_; aoc_expected_error := expected_error;
          aoc_committed_report := None |}] |}.

Section fixtures.
Context `{Sha256, !Serialize (list TraceOp)} (model_file : string → list byte).

Definition bytes_root (bytes : list byte) : string := hex_lower (sha256 bytes).
Definition trace_root (trace : list TraceOp) : string := bytes_root (canonical_bytes trace).

(** ** The script that must succeed *)
Definition restricted_evaluator_proof_trace_fixture
    : outcome Empty_set RestrictedEvaluatorProofTraceFixture :=
  let max_steps := 10 in
  let script := [InsStateGet alice_balance; InsStateSet alice_balance (UInt 90);
                 InsCallContract "AMM" Swap; PureAdd 40 2] in
  let* report := expect (execute max_steps script) in
  let allowed_write_scope := [alice_balance] in
  let errors := verify_kernel_trace "TokenA" (list_to_set allowed_write_scope) (er_trace report) in
  Ok {| ptf_schema := RESTRICTED_EVALUATOR_PROOF_TRACE_SCHEMA; ptf_schema_version := 1;
        ptf_evaluator := RESTRICTED_EVALUATOR; ptf_max_steps := max_steps;
        ptf_script := script; ptf_report := report; ptf_trace_root := trace_root (er_trace report);
        ptf_symbolic_verifier := {| svr_contract := "TokenA";
          svr_allowed_write_scope := allowed_write_scope; svr_errors := errors |} |}.

(** ** The inventory *)
Definition plain_entry (name schema : string) : EvaluatorFixtureInventoryEntry :=
  let path := "models/detta-restricted-evaluator-" +:+ name in
  {| efe_name := name; efe_fixture_schema := schema; efe_fixture_path := path +:+ ".json";
     efe_fixture_sha256 := bytes_root (model_file (path +:+ ".json"));
     efe_attestation_path := path +:+ ".sha256";
     efe_attestation_sha256 := bytes_root (model_file (path +:+ ".sha256"));
     efe_trace_root := None; efe_trace_root_attestation_path := None;
     efe_trace_root_attestation_sha256 := None |}.
Definition restricted_evaluator_fixture_inventory : outcome Empty_set EvaluatorFixtureInventory :=
  let* proof_trace := restricted_evaluator_proof_trace_fixture in
  let path := "models/detta-restricted-evaluator-proof-trace" in
  Ok {| efi_schema := RESTRICTED_EVALUATOR_FIXTURE_INVENTORY_SCHEMA; efi_schema_version := 1;
        efi_evaluator := RESTRICTED_EVALUATOR;
        efi_fixtures := [
          {| efe_name := "proof-trace"; efe_fixture_schema := RESTRICTED_EVALUATOR_PROOF_TRACE_SCHEMA;
             efe_fixture_path := path +:+ ".json";
             efe_fixture_sha256 := bytes_root (model_file (path +:+ ".json"));
             efe_attestation_path := path +:+ ".sha256";
             efe_attestation_sha256 := bytes_root (model_file (path +:+ ".sha256"));
             efe_trace_root := Some (ptf_trace_root proof_trace);
             efe_trace_root_attestation_path := Some (path +:+ "-root.sha256");
             efe_trace_root_attestation_sha256 :=
               Some (bytes_root (model_file (path +:+ "-root.sha256"))) |};
          plain_entry "forbidden-primitives" RESTRICTED_EVALUATOR_FORBIDDEN_PRIMITIVE_SCHEMA;
          plain_entry "resource-exhaustion" RESTRICTED_EVALUATOR_RESOURCE_EXHAUSTION_SCHEMA;
          plain_entry "arithmetic-overflow" RESTRICTED_EVALUATOR_ARITHMETIC_OVERFLOW_SCHEMA] |}.

(** The golden scripts behave as their fixtures expect, so none of the
    [expect]s fails: the proof-trace script runs and the kernel-trace
    verifier accepts its trace; every primitive that is not allowed in
    contracts is among the forbidden cases, and each of those scripts fails
    with a forbidden primitive; exhaustion and overflow give their errors. *)
Theorem fixtures_hold :
  (∃ f, restricted_evaluator_proof_trace_fixture = Ok f ∧ svr_errors (ptf_symbolic_verifier f) = [] ∧
    er_values (ptf_report f) = [42]) ∧
  (∃ f, restricted_evaluator_forbidden_primitive_fixture = Ok f ∧
    (∀ p, allowed_in_contracts p = false ↔ p ∈ fpc_primitive <$> fpf_forbidden_cases f) ∧
    Forall (λ c, fpc_expected_error c = EvForbiddenPrimitive) (fpf_forbidden_cases f)) ∧
  (∃ f, restricted_evaluator_resource_exhaustion_fixture = Ok f ∧
    Forall (λ c, rec_expected_error c = EvStepBudgetExceeded) (ref_cases f)) ∧
  (∃ f, restricted_evaluator_arithmetic_overflow_fixture = Ok f ∧
    Forall (λ c, aoc_expected_error c = EvArithmeticOverflow) (aof_cases f)) ∧
  (∃ i, restricted_evaluator_fixture_inventory = Ok i).
Proof.
  split_and!.
  - eexists. split; [reflexivity|]. split; vm_compute; reflexivity.
  - eexists. split; [vm_compute; reflexivity|]. split.
    + intros p. cbn [fpf_forbidden_cases fmap list_fmap fpc_primitive]. destruct p; vm_compute; split; intros Hp; try done; set_solver.
    + repeat constructor.
  - eexists. split; [vm_compute; reflexivity|]. repeat constructor.
  - eexists. split; [vm_compute; reflexivity|]. repeat constructor.
  - eexists. reflexivity.
Qed.
End fixtures.
