(* ===== verification/Rehearsal.v ===== *)
(** * Rehearsal: what a scheduled upgrade would do

    [rehearse_scheduled_upgrade] and [UpgradeRehearsalReport] of
    crates/detta-core/src/lib.rs: the upgrade is applied to a copy of the
    state, whose declared invariants and roots are reported. *)
From S2P Require Import Prelude Effects Merkle Types State Runtime Governance.

Record UpgradeRehearsalReport := {
  urr_upgrade_id : string; urr_governance_contract : ContractId; urr_target_contract : ContractId;
  urr_old_code_hash : string; urr_new_code_hash : string; urr_execute_after_height : N;
  urr_ready_at_height : bool; urr_invariant_failures : list InvariantFailure;
  urr_storage_root : string; urr_registry_root : string; urr_policy_root : string;
  urr_global_state_root : string;
}.

(** Overwriting a present key keeps the order of iteration. *)
Lemma entries_overwrite `{Countable K, CmpLaws K} {V} (m : gmap K V) k v w :
  m !! k = Some v →
  entries (<[k := w]> m) = (λ kv, if decide (kv.1 = k) then (k, w) else kv) <$> entries m.
Proof.
  intros Hk. set (f := λ kv : K * V, if decide (kv.1 = k) then (k, w) else kv).
  assert (Hf1 : ∀ kv, (f kv).1 = kv.1) by (intros [k' v']; unfold f; simpl; by case_decide).
  assert (Hin : ∀ k' v', (k', v') ∈ f <$> entries m ↔ <[k := w]> m !! k' = Some v').
  { intros k' v'. rewrite list_elem_of_fmap. split.
    - intros ([k1 v1] & Hf & Hm%elem_of_entries). unfold f in Hf. simpl in Hf. case_decide; simplify_eq.
      + by rewrite lookup_insert_eq.
      + by rewrite lookup_insert_ne.
    - intros Hm. destruct (decide (k = k')) as [<-|Hne].
      + rewrite lookup_insert_eq in Hm. injection Hm as <-. exists (k, v). unfold f. simpl.
        rewrite decide_True by done. split; [done|by apply elem_of_entries].
      + rewrite lookup_insert_ne in Hm by done. exists (k', v'). unfold f. simpl.
        rewrite decide_False by done. split; [done|by apply elem_of_entries]. }
  apply (StronglySorted_unique_strong entry_le).
  - intros [k1 v1] [k2 v2] Hm1%elem_of_entries Hm2%Hin Hle Hge. unfold entry_le in *. simpl in *.
    assert (k1 = k2) as -> by (by apply (anti_symm cmp_le)). congruence.
  - apply entries_sorted.
  - pose proof (entries_sorted m) as Hs. clear -Hs Hf1. induction Hs as [|kv l Hs IH Hall]; simpl; [constructor|].
    constructor; [done|]. apply Forall_fmap. eapply Forall_impl; [exact Hall|].
    intros kv'. unfold entry_le, compose. by rewrite !Hf1.
  - apply NoDup_Permutation.
    + eapply NoDup_fmap_1. apply (NoDup_keys (<[k := w]> m)).
    + eapply (NoDup_fmap_1 fst). rewrite <- list_fmap_compose.
      rewrite (list_fmap_ext _ fst) by (intros; apply Hf1). apply (NoDup_keys m).
    + intros [k' v']. by rewrite elem_of_entries, Hin.
Qed.
Lemma fmap_entries_overwrite `{Countable K, CmpLaws K} {V B} (g : K * V → B) (m : gmap K V) k v w :
  m !! k = Some v → g (k, w) = g (k, v) → g <$> entries (<[k := w]> m) = g <$> entries m.
Proof.
  intros Hk Hg. rewrite (entries_overwrite m k v w Hk), <- list_fmap_compose.
  apply list_fmap_ext. intros i [k' v'] Hi. simpl. case_decide as He; [|done]. simpl in He. subst k'.
  apply list_elem_of_lookup_2, elem_of_entries in Hi. rewrite Hk in Hi. injection Hi as <-. done.
Qed.

Section rehearsal.
Context `{Host}.
Implicit Types s : DeTTaState.
Definition rehearse_scheduled_upgrade s (upgrade_id : string)
    : outcome ExecutionError UpgradeRehearsalReport :=
  let* upgrade := ok_or (scheduled_upgrades s !! upgrade_id) UpgradeNotFound in
  do* ensure (negb (su_executed upgrade)) UpgradeAlreadyExecuted in
  let* governance := ok_or (contracts s !! su_governance_contract upgrade) ContractNotFound in
  do* match cr_kind governance with
      | Governance governed_contract _ =>
          ensure (bool_decide (governed_contract = su_target_contract upgrade)) UpgradeNotFound
      | _ => Err UpgradeNotFound
      end in
  let* target := ok_or (contracts s !! su_target_contract upgrade) ContractNotFound in
  let rehearsed_state := set_contracts
    (<[su_target_contract upgrade := set_code_hash (su_new_code_hash upgrade) target]> (contracts s)) s in
  Ok {| urr_upgrade_id := su_upgrade_id upgrade;
        urr_governance_contract := su_governance_contract upgrade;
        urr_target_contract := su_target_contract upgrade;
        urr_old_code_hash := cr_code_hash target; urr_new_code_hash := su_new_code_hash upgrade;
        urr_execute_after_height := su_execute_after_height upgrade;
        urr_ready_at_height := su_execute_after_height upgrade <=? height s;
        urr_invariant_failures := check_declared_invariants rehearsed_state;
        urr_storage_root := storage_root rehearsed_state;
        urr_registry_root := registry_root rehearsed_state;
        urr_policy_root := policy_root rehearsed_state;
        urr_global_state_root := global_state_root rehearsed_state |}.

(** ** The rehearsal and the execution *)
Definition reported (r : UpgradeRehearsalReport) s : Prop :=
  urr_invariant_failures r = check_declared_invariants s ∧ urr_storage_root r = storage_root s ∧
  urr_registry_root r = registry_root s ∧ urr_policy_root r = policy_root s.
(** A rehearsal predicts the execution: when executing an upgrade
    through its governance contract succeeds, a rehearsal in the state before
    succeeds, says the upgrade is ready, names the code hashes the execution
    exchanges, and its invariant failures and storage, registry and policy
    roots are those of the state after. *)
Theorem rehearsal_predicts tx p w governed delay id gov r w' :
  tx_args tx = [ArgText id] →
  contracts (w_state w) !! tx_target tx = Some gov → cr_kind gov = Governance governed delay →
  execute_upgrade tx p governed w = (Ok r, w') →
  ∃ report, rehearse_scheduled_upgrade (w_state w) id = Ok report ∧
    urr_ready_at_height report = true ∧ reported report (w_state w') ∧
    (cr_code_hash <$> contracts (w_state w) !! governed) = Some (urr_old_code_hash report) ∧
    (cr_code_hash <$> contracts (w_state w') !! governed) = Some (urr_new_code_hash report).
Proof.
  intros Hargs Hgov Hkind Hrun. unfold execute_upgrade in Hrun. rewrite Hargs in Hrun. inv_ok.
  simplify_ok. unfold ready_upgrade in *. simplify_ok. simplify_eq/=.
  repeat match goal with H : ¬ (_ ≠ _) |- _ => apply dec_stable in H end.
  eexists. split.
  { unfold rehearse_scheduled_upgrade.
    repeat match goal with H : ?x = _ |- context [?x] => rewrite H; cbn [ok_or outcome_bind negb ensure] end.
    rewrite bool_decide_eq_true_2 by done. reflexivity. }
  cbn. split_and!; try done.
  - by apply N.leb_le.
  - by rewrite H6.
  - by rewrite lookup_insert_eq.
Qed.

(** A rehearsal reads nothing of the new code: its invariant failures and
    its storage, registry and policy roots are those of the state as it is,
    so that only the global root depends on the upgrade. *)
Theorem rehearsal_sees_current_state s upgrade_id r :
  rehearse_scheduled_upgrade s upgrade_id = Ok r → reported r s.
Proof.
  unfold rehearse_scheduled_upgrade. intros Hr. simplify_ok. subst. unfold reported.
  cbn [urr_invariant_failures urr_storage_root urr_registry_root urr_policy_root].
  match goal with H : contracts s !! su_target_contract ?u = Some ?t |- _ =>
    set (s' := set_contracts _ s);
    assert (Hsame : ∀ {B} (g : string * ContractRecord → B),
      g (su_target_contract u, set_code_hash (su_new_code_hash u) t) = g (su_target_contract u, t) →
      g <$> entries (contracts s') = g <$> entries (contracts s))
      by (intros B g; by apply fmap_entries_overwrite)
  end.
  assert (Hinv : ∀ c i, declared_invariant_holds s' c i = declared_invariant_holds s c i).
  { intros c []; try reflexivity. cbn [declared_invariant_holds]. unfold values.
    assert (Hfb : ∀ (f : ContractRecord → bool) l, forallb f l = forallb (λ b, b) (f <$> l))
      by (intros f l; induction l as [|r l IHl]; [done|]; cbn; by rewrite IHl).
    rewrite !(Hfb _ (entries _).*2), <- !list_fmap_compose. by rewrite Hsame. }
  split_and!; [|done|done|].
  - unfold check_declared_invariants, values. f_equal. rewrite <- !list_fmap_compose, <- Hsame by done.
    apply list_fmap_ext. intros n [k c] _. simpl. apply list_omap_ext, Forall_Forall2_diag, Forall_true.
    intros i. by rewrite Hinv.
  - unfold policy_root, policy_entries. f_equal. f_equal. by apply Hsame.
Qed.
End rehearsal.
