(* ===== verification/Genesis.v ===== *)
(** * Genesis: the demonstration state

    [demo_defi_genesis_state] of crates/detta-node/src/bin/detta-node.rs, and
    the fixture of crates/detta-e2e/src/fixtures.rs, which deploys the same
    contracts without a faucet.  Which deployment failed and with what error
    is the [GenesisError]; its wording is not modelled. *)
From S2P Require Import Prelude Effects Merkle Types State Policies AspectRuntime Runtime Ledger.
From S2P Require Import Token Assets Bridge Factory Steps Exec Transactions Block Proofs Verify.

Inductive GenesisError := failed_to_deploy (what : string) (error : ExecutionError).
Definition named {A} (what : string) (m : M A) : SE world GenesisError A := λ w,
  match m w with
  | (Ok a, w) => (Ok a, w)
  | (Err error, w) => (Err (failed_to_deploy what error), w)
  | (Panic, w) => (Panic, w)
  | (OutOfFuel, w) => (OutOfFuel, w)
  end.
Definition deploying (chain : ChainId) (m : SE world GenesisError ()) : outcome GenesisError DeTTaState :=
  match m {| w_state := state_new chain; w_ctx := call_context_new "" |} with
  | (Ok _, w) => Ok (w_state w)
  | (Err error, _) => Err error
  | (Panic, _) => Panic
  | (OutOfFuel, _) => OutOfFuel
  end.

(** ** The node's preset *)
Module Demo.
Definition DEFAULT_CHAIN_ID : string := "detta-local".
Definition DEFAULT_TOKEN_CONTRACT : string := "TokenA".
Definition DEFAULT_SECONDARY_TOKEN_CONTRACT : string := "TokenB".
Definition DEFAULT_POOL_CONTRACT : string := "PoolAB".
Definition DEFAULT_ORACLE_CONTRACT : string := "OracleA".
Definition DEFAULT_VAULT_CONTRACT : string := "VaultA".
Definition DEFAULT_STAKE_CONTRACT : string := "StakeA".
Definition DEFAULT_GOVERNANCE_CONTRACT : string := "GovA".
Definition DEFAULT_BRIDGE_CONTRACT : string := "BridgeA".
Definition DEFAULT_ROUTER_CONTRACT : string := "RouterA".
Definition DEFAULT_FACTORY_CONTRACT : string := "FactoryA".
Definition DEFAULT_ACCOUNT_REGISTRY_CONTRACT : string := "AccountsA".
Definition DEFAULT_USDC : string := "USDC".
Definition DEFAULT_ATOM : string := "ATOM".
Definition DEFAULT_FAUCET : string := "Faucet".
Definition DEFAULT_ADMIN : string := "Admin".
Definition DEFAULT_REPORTER : string := "Reporter".
Definition demo_defi_genesis_state `{Host} (chain : ChainId) : outcome GenesisError DeTTaState :=
  deploying chain (
    do! named "token" (deploy_token DEFAULT_TOKEN_CONTRACT DEFAULT_USDC
          [("Alice", 200); ("Bob", 50); (DEFAULT_FAUCET, 1000000); (DEFAULT_VAULT_CONTRACT, 1000);
           ("Liquidator", 1000)]) in
    do! named "secondary token" (deploy_token DEFAULT_SECONDARY_TOKEN_CONTRACT DEFAULT_ATOM
          [("Alice", 1000); ("Bob", 1000)]) in
    do! named "AMM pool" (deploy_amm_pool DEFAULT_POOL_CONTRACT DEFAULT_USDC DEFAULT_ATOM) in
    do! named "oracle" (deploy_oracle DEFAULT_ORACLE_CONTRACT DEFAULT_ATOM DEFAULT_REPORTER 20) in
    do! named "lending vault" (deploy_lending_vault DEFAULT_VAULT_CONTRACT DEFAULT_ATOM
          DEFAULT_USDC DEFAULT_ORACLE_CONTRACT 5000 20) in
    do! named "staking" (deploy_staking_with_rewards DEFAULT_STAKE_CONTRACT DEFAULT_ATOM 2 1) in
    do! named "governance" (deploy_governance_with_timelock DEFAULT_GOVERNANCE_CONTRACT
          DEFAULT_TOKEN_CONTRACT DEFAULT_ADMIN 2) in
    do! named "bridge" (deploy_bridge_with_validator_set DEFAULT_BRIDGE_CONTRACT "SourceChain"
          ["source-validator-1"; "source-validator-2"; "source-validator-3"] 2) in
    do! named "router" (deploy_router DEFAULT_ROUTER_CONTRACT DEFAULT_TOKEN_CONTRACT) in
    do! named "factory" (deploy_factory DEFAULT_FACTORY_CONTRACT) in
    named "account registry" (deploy_account_registry DEFAULT_ACCOUNT_REGISTRY_CONTRACT)).
End Demo.


(** ** The fixture of the end-to-end tests *)
Module E2e.
Definition CHAIN_ID : string := "detta-local".
Definition VALIDATOR_ID : string := "validator-e2e-1".
Definition TOKEN_CONTRACT : string := "TokenA".
Definition SECONDARY_TOKEN_CONTRACT : string := "TokenB".
Definition POOL_CONTRACT : string := "PoolAB".
Definition ORACLE_CONTRACT : string := "OracleA".
Definition VAULT_CONTRACT : string := "VaultA".
Definition STAKE_CONTRACT : string := "StakeA".
Definition GOVERNANCE_CONTRACT : string := "GovA".
Definition BRIDGE_CONTRACT : string := "BridgeA".
Definition ROUTER_CONTRACT : string := "RouterA".
Definition FACTORY_CONTRACT : string := "FactoryA".
Definition ACCOUNT_REGISTRY_CONTRACT : string := "AccountsA".
Definition USDC : string := "USDC".
Definition ATOM : string := "ATOM".
Definition REPORTER : string := "Reporter".
Definition ADMIN : string := "Admin".
(** [expect] panics where a deployment fails. *)
Definition expected {E A} (o : outcome E A) : outcome Empty_set A :=
  match o with Ok a => Ok a | OutOfFuel => OutOfFuel | _ => Panic end.
Definition defi_genesis_state `{Host} : outcome Empty_set DeTTaState :=
  expected (deploying CHAIN_ID (
    do! named "token" (deploy_token TOKEN_CONTRACT USDC
          [("Alice", 200); ("Bob", 50); (VAULT_CONTRACT, 1000); ("Liquidator", 1000)]) in
    do! named "secondary token" (deploy_token SECONDARY_TOKEN_CONTRACT ATOM
          [("Alice", 1000); ("Bob", 1000)]) in
    do! named "AMM" (deploy_amm_pool POOL_CONTRACT USDC ATOM) in
    do! named "oracle" (deploy_oracle ORACLE_CONTRACT ATOM REPORTER 20) in
    do! named "lending vault" (deploy_lending_vault VAULT_CONTRACT ATOM USDC ORACLE_CONTRACT 5000 20) in
    do! named "staking" (deploy_staking_with_rewards STAKE_CONTRACT ATOM 2 1) in
    do! named "governance" (deploy_governance_with_timelock GOVERNANCE_CONTRACT TOKEN_CONTRACT ADMIN 2) in
    do! named "bridge" (deploy_bridge_with_validator_set BRIDGE_CONTRACT "SourceChain"
          ["source-validator-1"; "source-validator-2"; "source-validator-3"] 2) in
    do! named "router" (deploy_router ROUTER_CONTRACT TOKEN_CONTRACT) in
    do! named "factory" (deploy_factory FACTORY_CONTRACT) in
    named "account registry" (deploy_account_registry ACCOUNT_REGISTRY_CONTRACT))).
Definition tx_to (target tx_hash sender : string) (nonce : Nonce) (method : Method)
    (args : list Argument) : Transaction :=
  {| tx_chain_id := CHAIN_ID; tx_tx_hash := tx_hash; tx_sender := sender; tx_nonce := nonce;
     tx_valid_until_height := None; tx_target := target; tx_method := method; tx_args := args;
     tx_signature_ok := true; tx_budget := 1000000 |}.
Definition invalid_signature_tx (tx : Transaction) : Transaction :=
  {| tx_chain_id := tx_chain_id tx; tx_tx_hash := tx_tx_hash tx; tx_sender := tx_sender tx;
     tx_nonce := tx_nonce tx; tx_valid_until_height := tx_valid_until_height tx;
     tx_target := tx_target tx; tx_method := tx_method tx; tx_args := tx_args tx;
     tx_signature_ok := false; tx_budget := tx_budget tx |}.
(** A message queued on another chain, and the proof of it a quorum signed. *)
Definition source_queue_tx : Transaction :=
  {| tx_chain_id := "SourceChain"; tx_tx_hash := "e2e-source-bridge-queue-1"; tx_sender := "Alice";
     tx_nonce := 1; tx_valid_until_height := None; tx_target := "BridgeSource";
     tx_method := QueueBridgeMessage;
     tx_args := [ArgText CHAIN_ID; ArgText BRIDGE_CONTRACT; ArgText "msg-1"; ArgPrincipal "Alice";
                 ArgAsset USDC; ArgAmount 100];
     tx_signature_ok := true; tx_budget := 1000000 |}.
Definition bridge_finality_proof `{Host} : outcome Empty_set CrossShardFinalityProof :=
  let* source := expected (deploying "SourceChain" (
    do! named "token" (deploy_token "SourceTokenUSDC" USDC [("Alice", 100)]) in
    named "bridge" (deploy_bridge "BridgeSource" CHAIN_ID))) in
  let* built := build_block source 1 [source_queue_tx] 1000 "source-validator-1" "source-cert-1" in
  let* message_proof := match outbox_message_proof built.2 0 with Some proof => Ok proof | None => Panic end in
  Ok {| cfp_source_chain := "SourceChain"; cfp_source_height := 1;
        cfp_finalized_block_hash := block_hash built.1;
        cfp_outbox_root := hdr_outbox_root (blk_header built.1); cfp_quorum := 2;
        cfp_signers := ["source-validator-1"; "source-validator-2"];
        cfp_message_proof := message_proof |}.
End E2e.

(** ** What the presets give

    Which hash a contract has plays no part in a deployment: evaluation goes
    through with the hashes left as variables. *)
Definition genesis_checks (s : DeTTaState) : bool :=
  forallb (ledger_check s) (ledger_totals s) && bool_decide (length (lint_state s) = 0)%nat
  && bool_decide (length (check_declared_invariants s) = 0)%nat
  && bool_decide (used_nonces s = ∅).
Ltac forget_hashes :=
  cbv beta zeta delta [deploy_token deploy_amm_pool deploy_amm_pool_with_parameters deploy_oracle
    deploy_lending_vault deploy_lending_vault_with_risk deploy_staking_with_rewards
    deploy_staking_with_parameters deploy_governance_with_timelock deploy_bridge_with_validator_set
    deploy_bridge insert_bridge_contract deploy_router deploy_factory deploy_account_registry];
  repeat match goal with |- context [root_of ?x] => generalize (root_of x); intros ? end.
Lemma genesis_checked s :
  genesis_checks s = true →
  ledgers_ok s ∧ lint_state s = [] ∧ check_declared_invariants s = [] ∧ used_nonces s = ∅.
Proof.
  unfold genesis_checks. rewrite !andb_true_iff, !bool_decide_eq_true.
  intros [[[Hl Hi%nil_length_inv] Hd%nil_length_inv] Hn]. split_and!; [by apply ledgers_check|done..].
Qed.

(** A token whose holders may transfer. *)
Definition transfers_enabled (s : DeTTaState) (c : ContractId) : bool :=
  match contracts s !! c with
  | Some r =>
      match cr_kind r with Token => true | _ => false end
      && bool_decide (Transfer ∈ cr_exported_methods r)
      && match method_policy r Transfer with
         | Some policy => match mp_authority policy with TxSender => true | _ => false end
         | None => false
         end
      && bool_decide (c ∉ paused_contracts s)
  | None => false
  end.
Section presets.
Context `{Host}.
Lemma demo_run chain :
  match Demo.demo_defi_genesis_state chain with
  | Ok s => genesis_checks s && transfers_enabled s Demo.DEFAULT_TOKEN_CONTRACT
      && (uint_at s (Balance Demo.DEFAULT_TOKEN_CONTRACT Demo.DEFAULT_FAUCET Demo.DEFAULT_USDC) =? 1000000)
      && (height s =? 0)
  | _ => false
  end = true.
Proof. unfold Demo.demo_defi_genesis_state. forget_hashes. clear. vm_compute. done. Qed.
Lemma fixture_run :
  match E2e.defi_genesis_state with
  | Ok s => genesis_checks s && transfers_enabled s E2e.TOKEN_CONTRACT
  | _ => false
  end = true.
Proof. unfold E2e.defi_genesis_state. forget_hashes. clear. vm_compute. done. Qed.
Lemma demo_chain chain s : Demo.demo_defi_genesis_state chain = Ok s → chain_id s = chain.
Proof.
  assert (match Demo.demo_defi_genesis_state chain with Ok s => chain_id s | _ => chain end = chain) as Hc.
  { unfold Demo.demo_defi_genesis_state. forget_hashes. clear. vm_compute. done. }
  intros Hs. by rewrite Hs in Hc.
Qed.
Lemma demo_genesis chain :
  ∃ s, Demo.demo_defi_genesis_state chain = Ok s ∧ chain_id s = chain ∧ genesis_checks s = true ∧
    transfers_enabled s Demo.DEFAULT_TOKEN_CONTRACT = true ∧
    balance s Demo.DEFAULT_TOKEN_CONTRACT Demo.DEFAULT_FAUCET Demo.DEFAULT_USDC = 1000000 ∧ height s = 0.
Proof.
  pose proof (demo_run chain) as Hr. pose proof (demo_chain chain) as Hc.
  destruct (Demo.demo_defi_genesis_state chain) as [s| | |]; [|done..].
  rewrite !andb_true_iff, !N.eqb_eq in Hr. destruct Hr as [[[? ?] ?] ?]. exists s. split_and!; auto.
Qed.

Lemma apply_transactions_return txs s : ∃ rs s', apply_transactions txs s = (Ok rs, s').
Proof.
  destruct txs as [|tx txs]; [by eexists _, _|].
  destruct (apply_transactions_cons tx txs s) as (? & ? & ? & ? & _ & _ & _ & Hr). eauto.
Qed.

(** The preset is a sound genesis on every chain: it is built, every
    ledger balances, no lint or invariant failure is reported, its snapshot
    is accepted, and whatever transactions follow, the ledgers still
    balance. *)
Theorem demo_genesis_sound chain :
  ∃ s, Demo.demo_defi_genesis_state chain = Ok s ∧ chain_id s = chain ∧ used_nonces s = ∅ ∧
    lint_state s = [] ∧ check_declared_invariants s = [] ∧ from_snapshot (snapshot s) = Ok s ∧
    ledgers_ok s ∧
    ∀ txs, ∃ receipts s', apply_transactions txs s = (Ok receipts, s') ∧ ledgers_ok s'.
Proof.
  destruct (demo_genesis chain) as (s & Hs & Hc & (Hl & Hi & Hd & Hn)%genesis_checked & _).
  exists s. do 5 (split; [done|]). split; [apply snapshot_roundtrip|]. split; [done|].
  intros txs. destruct (apply_transactions_return txs s) as (rs & s' & Hr).
  exists rs, s'. split; [done|]. by eapply transactions_ledgers.
Qed.

(** ** A transfer, from transaction to receipt *)
Definition transferred (tx : Transaction) (to : Principal) (asset : AssetId) (amount : Amount)
    (s : DeTTaState) : DeTTaState :=
  emit_event (tx_target tx) (tx_tx_hash tx) (EvTransfer (tx_sender tx) to asset amount)
    (moved (tx_target tx) (tx_sender tx) to asset amount (charge_nonce tx s)).
Lemma transfer_run tx p w to asset amount :
  tx_args tx = [ArgPrincipal to; ArgAsset asset; ArgAmount amount] →
  ledger_ok (w_state w) (TotalSupply (tx_target tx) asset) → p ≠ to →
  amount ≤ balance (w_state w) (tx_target tx) p asset →
  transfer tx p w = (Ok RetUnit,
    {| w_state := emit_event (tx_target tx) (tx_tx_hash tx) (EvTransfer p to asset amount)
         (moved (tx_target tx) p to asset amount (w_state w)); w_ctx := w_ctx w |}).
Proof.
  intros Hargs Hok Hne Ha. unfold transfer, bind at 1 2 3 4 5, lift. rewrite Hargs. simpl.
  change {| fr_contract := _ |} with (pair_frame (tx_target tx) p p to asset).
  rewrite move_balance_run by done. by rewrite (proj2 (N.ltb_ge _ _) Ha).
Qed.
Lemma authorize_transfer tx p s :
  tx_method tx = Transfer → transfers_enabled s (tx_target tx) = true →
  ∃ r, authorize tx p s = Ok r ∧ cr_kind r = Token.
Proof.
  unfold transfers_enabled, authorize. intros ->. destruct (contracts s !! tx_target tx) as [r|]; [|done].
  rewrite !andb_true_iff, !bool_decide_eq_true. intros [[[Hk He] Hp] Hn]. exists r. simpl.
  rewrite bool_decide_eq_true_2 by done. cbn [ensure outcome_bind].
  destruct (method_policy r Transfer) as [policy|]; [|done]. cbn [ok_or outcome_bind].
  unfold enforce_method_authority. destruct (mp_authority policy); try done. cbn [outcome_bind].
  rewrite bool_decide_eq_false_2 by done. split; [done|]. by destruct (cr_kind r).
Qed.
Lemma apply_transfer tx s to asset amount :
  tx_method tx = Transfer → tx_args tx = [ArgPrincipal to; ArgAsset asset; ArgAmount amount] →
  tx_chain_id tx = chain_id s → tx_signature_ok tx = true → expired tx s = false →
  nonce_of tx ∉ used_nonces s → transaction_resource_units tx ≤ tx_budget tx → transfers_enabled s (tx_target tx) = true →
  ledger_ok s (TotalSupply (tx_target tx) asset) → tx_sender tx ≠ to →
  amount ≤ balance s (tx_target tx) (tx_sender tx) asset →
  apply_transaction tx s
  = (Ok (committed_receipt (transferred tx to asset amount s) (tx_tx_hash tx) RetUnit
           (transaction_resource_units tx)), transferred tx to asset amount s).
Proof.
  intros Hm Hargs Hc Hsig Hexp Hn Hb Ht Hok Hne Ha. unfold apply_transaction.
  rewrite bool_decide_eq_false_2 by (by intros []). rewrite Hsig, Hexp. cbn [negb].
  rewrite (bool_decide_eq_false_2 _ Hn). fold (nonce_of tx) (charge_nonce tx s).
  rewrite (proj2 (N.ltb_ge _ _)) by lia. cbv zeta.
  unfold call_fuel. rewrite Nat.add_comm. cbn [Nat.add execute_call]. unfold in_frame, enter, call_context_new.
  cbn [w_ctx cc_active_nonreentrant_contracts]. rewrite decide_False by set_solver.
  unfold finally, call_body, bind at 1, inspect. cbn [w_state w_ctx].
  destruct (authorize_transfer tx (tx_sender tx) (charge_nonce tx s)) as (r & Hr & Hk); [done..|].
  rewrite Hr, Hk. cbn [dispatch]. rewrite Hm. erewrite transfer_run by (done || exact Hargs). done.
Qed.
End presets.
