(* ===== verification/CrossShard.v ===== *)
(** * CrossShard: a message from one chain's outbox to another's ledger

    [queue_bridge_message] and [redeem_bridge_message] compose: the proof of
    an outbox message under the header of a block, with the names of a quorum
    of the trusted validators, assembled the way crates/detta-e2e/src/fixtures.rs does, is
    accepted by the destination's bridge, which mints the amount. *)
From S2P Require Import Prelude Effects Merkle Types State Policies AspectRuntime Runtime Ledger.
From S2P Require Import Token Assets Bridge Exec Block Proofs Genesis.

(** ** Minting *)
Definition minted (c : ContractId) (to : Principal) (asset : AssetId) (amount : Amount)
    (s : DeTTaState) : DeTTaState :=
  set_key (Balance c to asset) (UInt (balance s c to asset + amount))
    (set_key (TotalSupply c asset) (UInt (total_supply s c asset + amount)) s).
Lemma minted_ledger_ok c to asset amount s :
  ledger_ok s (TotalSupply c asset) → total_supply s c asset + amount ≤ u128_max →
  ledger_ok (minted c to asset amount s) (TotalSupply c asset).
Proof.
  intros [Hs Hle] Ha. unfold ledger_ok, minted, balance, total_supply in *.
  set (s1 := set_key (TotalSupply c asset) _ s).
  pose proof (ledger_sum_set_key s (TotalSupply c asset) (TotalSupply c asset)
    (UInt (uint_at s (TotalSupply c asset) + amount))) as E1.
  pose proof (ledger_sum_set_key s1 (TotalSupply c asset) (Balance c to asset)
    (UInt (uint_at s (Balance c to asset) + amount))) as E2.
  unfold counts_to in E1, E2. simpl in E1, E2. rewrite bool_decide_eq_true_2 in E2 by done.
  unfold s1 at 2 in E2. rewrite uint_at_set_key, decide_False in E2 by done.
  unfold s1 in *. rewrite !uint_at_set_key, decide_False, decide_True by done. simpl in *. lia.
Qed.
Lemma mint_native_run c to asset amount w :
  ledger_ok (w_state w) (TotalSupply c asset) → total_supply (w_state w) c asset + amount ≤ u128_max →
  mint_native_asset_balance c to asset amount w
  = (Ok (), {| w_state := minted c to asset amount (w_state w); w_ctx := w_ctx w |}).
Proof.
  intros Hok Ha. pose proof (minted_ledger_ok c to asset amount _ Hok Ha) as Hm.
  assert (uint_at (w_state w) (Balance c to asset) ≤ total_supply (w_state w) c asset) as Hb.
  { destruct Hok as [Hs _]. unfold total_supply. rewrite <- Hs. apply entry_le_sum.
    unfold counts_to. by rewrite bool_decide_eq_true. }
  unfold mint_native_asset_balance, bind, read, gets, lift. cbv beta iota zeta.
  unfold checked_add_u128, checked_add, total_supply, balance_key in *.
  rewrite (proj2 (N.leb_le _ _) Ha). cbn [ok_or].
  rewrite (proj2 (N.leb_le _ _)) by lia. cbn [ok_or].
  unfold state_set, bind, lift, ensure, write_scope_contains; cbn [fr_write_scope fr_contract owner_contract].
  rewrite !decide_True by set_solver. rewrite !bool_decide_eq_true_2 by done. cbn.
  rewrite (proj2 (token_invariants_hold_iff _ c asset)) by done. done.
Qed.

(** ** Proofs a validator set accepts *)
Record valid_set (vs : BridgeValidatorSet) : Prop := {
  vs_chain : bvs_source_chain vs ≠ "";
  vs_quorum : (0 < bvs_quorum vs ≤ size (bvs_validators vs))%nat;
}.
Lemma bridge_validator_set_valid chain validators quorum vs :
  bridge_validator_set_new chain validators quorum = Ok vs → valid_set vs.
Proof.
  unfold bridge_validator_set_new. intros Hv. simplify_ok. subst vs.
  rewrite Nat.eqb_neq, Nat.ltb_ge in *. split; simpl; [done|lia].
Qed.
Lemma collect_signers_complete validators seen signers :
  NoDup signers → (∀ s, s ∈ signers → s ∈ validators ∧ s ∉ seen) →
  collect_signers validators seen signers = Some (list_to_set signers ∪ seen).
Proof.
  revert seen. induction signers as [|s ss IH]; intros seen Hnd Hs; simpl; [by rewrite union_empty_l_L|].
  apply NoDup_cons in Hnd as [Hni Hnd]. destruct (Hs s (list_elem_of_here _ _)) as [Hv Hseen].
  rewrite !bool_decide_eq_false_2 by naive_solver. simpl. rewrite IH; [f_equal; set_solver|done|].
  intros t Ht. destruct (Hs t (list_elem_of_further _ _ _ Ht)). set_solver.
Qed.
Lemma verifies_finality_complete vs proof :
  valid_set vs → cfp_source_chain proof = bvs_source_chain vs → cfp_quorum proof = bvs_quorum vs →
  NoDup (cfp_signers proof) → (∀ s, s ∈ cfp_signers proof → s ∈ bvs_validators vs) →
  (bvs_quorum vs ≤ length (cfp_signers proof))%nat →
  verifies_finality vs proof = true.
Proof.
  intros [Hc Hq] Hs Hpq Hnd Hin Hle. unfold verifies_finality.
  rewrite (bool_decide_eq_false_2 _ Hc). rewrite bool_decide_eq_false_2 by (intros He; rewrite He, size_empty in Hq; lia).
  rewrite (proj2 (Nat.eqb_neq _ _)), (proj2 (Nat.ltb_ge _ _)) by lia. cbn [orb].
  rewrite bool_decide_eq_false_2 by (by intros []). rewrite Hpq, Nat.eqb_refl. cbn [orb negb].
  rewrite collect_signers_complete by set_solver. apply Nat.leb_le.
  by rewrite union_empty_r_L, size_list_to_set.
Qed.

(** ** From outbox to ledger *)
Section delivery.
Context `{Host} (sha256_length : ∀ x, length (sha256 x) = 32%nat).
(** The block of the source chain that holds the message, and who signed it. *)
Record finalized (block : Block) (outbox : list CrossShardMessage) (index : nat) (m : CrossShardMessage)
    (vs : BridgeValidatorSet) (signers : list Principal) : Prop := {
  fin_outbox : outbox !! index = Some m;
  fin_root : hdr_outbox_root (blk_header block) = merkle_root outbox;
  fin_chain : hdr_chain_id (blk_header block) = csm_source_chain m;
  fin_height : hdr_height (blk_header block) = csm_source_height m;
  fin_set : valid_set vs;
  fin_set_chain : bvs_source_chain vs = csm_source_chain m;
  fin_signers : NoDup signers;
  fin_members : ∀ v, v ∈ signers → v ∈ bvs_validators vs;
  fin_quorum : (bvs_quorum vs ≤ length signers)%nat;
}.
(** The destination, before the message arrives. *)
Record awaits (w : world) (target : ContractId) (c : ContractId) (m : CrossShardMessage)
    (vs : BridgeValidatorSet) : Prop := {
  aw_chain : chain_id (w_state w) = csm_destination_chain m;
  aw_target : target = csm_destination_contract m;
  aw_trusts : trusted_bridge_validator_sets (w_state w) !! csm_source_chain m = Some vs;
  aw_fresh : uint_at (w_state w) (BridgeMessageConsumed target (csm_message_id m)) = 0;
  aw_ledger : resolve_asset_ledger (w_state w) (csm_asset m) = Ok (NativeToken c);
  aw_balanced : ledger_ok (w_state w) (TotalSupply c (csm_asset m));
  aw_amount : csm_amount m ≠ 0;
  aw_fits : total_supply (w_state w) c (csm_asset m) + csm_amount m ≤ u128_max;
}.
Definition expects (m : CrossShardMessage) : ExpectedBridgeMessage :=
  {| exp_destination_chain := csm_destination_chain m;
     exp_destination_contract := csm_destination_contract m;
     exp_source_chain := csm_source_chain m; exp_message_id := csm_message_id m;
     exp_recipient := csm_recipient m; exp_asset := csm_asset m; exp_amount := csm_amount m |}.
Definition delivered (tx : Transaction) (c : ContractId) (m : CrossShardMessage) (s : DeTTaState) : DeTTaState :=
  emit_event (tx_target tx) (tx_tx_hash tx)
    (EvBridgeMessageRedeemed (csm_message_id m) (csm_recipient m) (csm_asset m) (csm_amount m))
    (set_key (BridgeMessageConsumed (tx_target tx) (csm_message_id m)) (UInt 1)
      (minted c (csm_recipient m) (csm_asset m) (csm_amount m) s)).
(** What a relayer submits: the message's Merkle proof and the header's data. *)
Definition relayed_proof (block : Block) (quorum : nat) (signers : list Principal)
    (message_proof : OutboxMessageProof) : CrossShardFinalityProof :=
  {| cfp_source_chain := hdr_chain_id (blk_header block);
     cfp_source_height := hdr_height (blk_header block);
     cfp_finalized_block_hash := block_hash block;
     cfp_outbox_root := hdr_outbox_root (blk_header block); cfp_quorum := quorum;
     cfp_signers := signers; cfp_message_proof := message_proof |}.
Lemma root_of_nonempty `{Serialize T} (v : T) : root_of v ≠ "".
Proof.
  intros Hr. assert (String.length (root_of v) = 64%nat) as Hl.
  { unfold root_of. by rewrite hex_lower_length, sha256_length. }
  by rewrite Hr in Hl.
Qed.
Lemma finality_accepted block outbox index m vs signers proof :
  finalized block outbox index m vs signers → merkle_proof outbox index = Some proof →
  verify_message_with_validator_set
    (relayed_proof block (bvs_quorum vs) signers {| omp_message := m; omp_proof := proof |})
    (expects m) vs = true.
Proof.
  intros [Ho Hroot Hc Hh Hset Hsc Hnd Hin Hq] Hp. destruct (merkle_proof_at outbox index m Ho) as (p & Hp' & Hpr & _ & _ & Hv).
  rewrite Hp in Hp'. injection Hp' as <-.
  unfold verify_message_with_validator_set. rewrite andb_true_iff. split.
  2:{ apply verifies_finality_complete; simpl; try done. by rewrite Hc. }
  destruct Hset as [_ [Hpos _]].
  unfold verify_message, verify_outbox_message; cbn [relayed_proof cfp_quorum cfp_signers cfp_finalized_block_hash
    cfp_message_proof cfp_outbox_root cfp_source_chain cfp_source_height omp_message omp_proof].
  rewrite (proj2 (Nat.eqb_neq _ _)), (proj2 (Nat.ltb_ge _ _)) by lia. cbn [orb].
  rewrite size_list_to_set, Nat.eqb_refl by done. cbn [negb].
  rewrite bool_decide_eq_false_2 by apply root_of_nonempty.
  rewrite Hv, bool_decide_eq_false_2 by (rewrite Hroot; naive_solver). cbn [negb orb].
  rewrite Hc, Hh. cbn [expects exp_source_chain exp_destination_chain exp_destination_contract exp_message_id
    exp_recipient exp_asset exp_amount]. by rewrite !bool_decide_eq_true_2, !N.eqb_refl.
Qed.

End delivery.
