(* ===== verification/RpcTypes.v ===== *)
(** * RpcTypes: requests, results and errors of the RPC interface

    The data of crates/detta-rpc/src/lib.rs: the requests a node answers, the
    results and reports it returns, and the stable codes and messages of its
    errors. *)
From S2P Require Import Prelude Effects Merkle Types State Proofs AspectRuntime Mempool Block.
From S2P Require Import Consensus Protocol Storage Evaluator Fixtures Rehearsal.

Definition DEFAULT_MAX_RPC_REQUEST_BYTES : N := 1024 * 1024.
Definition DEFAULT_MAX_HTTP_HEADER_BYTES : N := 16 * 1024.
Definition DEFAULT_MAX_EVENT_PAGE_SIZE : nat := N.to_nat 1000.
Definition DEFAULT_MAX_BLOCK_PAGE_SIZE : nat := 100.
Definition DEFAULT_MAX_SUBSCRIPTION_EVENT_PAGE_SIZE : nat := N.to_nat 1000.
Definition DEFAULT_MAX_SUBSCRIPTION_EVENTS : nat := N.to_nat 10000.
Definition DEFAULT_MAX_RESTRICTED_EVALUATOR_STEPS : N := 10000.

Inductive RpcError :=
| RpcMempool (error : MempoolError)
| RpcBlock (error : BlockError)
| BlockNotFound | CertificateNotFound | SlashingRecordNotFound | ReceiptNotFound
| TransactionNotFound | RpcContractNotFound | AspectModuleNotFound | ProofNotFound
| SubscriptionNotFound
| RpcExecution (error : ExecutionError)
| EvaluatorParse (error : string)
| EvaluatorExecution (error : EvaluatorError)
| EvaluatorStepBudgetTooLarge
| UnsupportedNodeMethod.

Record SignedClientTransaction := {
  sct_transaction : Transaction; sct_public_key_hex : string; sct_signature_hex : string;
}.
Record TransactionSigningPayload := {
  tsp_chain_id : string; tsp_tx_hash : string; tsp_sender : string; tsp_nonce : N;
  tsp_valid_until_height : option N; tsp_target : string; tsp_method : Method;
  tsp_args : list Argument; tsp_budget : N;
}.

(** ** Subscriptions *)
Inductive SubscriptionTopic := TopicBlocks | TopicReceipts | TopicEvents | TopicFinality.
#[export] Instance SubscriptionTopic_eq_dec : EqDecision SubscriptionTopic.
Proof. solve_decision. Defined.
Inductive SubscriptionNotification :=
| NotifyBlock (block : Block)
| NotifyReceipt (receipt : Receipt)
| NotifyEvent (event : Event)
| NotifyFinalityCertificate (certificate : FinalityCertificate).
Record SubscriptionEvent := {
  sev_sequence : N; sev_topic : SubscriptionTopic; sev_notification : SubscriptionNotification;
}.
Record SubscriptionStatus := {
  sst_subscription_id : string; sst_topics : list SubscriptionTopic; sst_next_sequence : N;
  sst_earliest_retained_sequence : N;
}.
Record SubscriptionEventPage := {
  sep_subscription_id : string; sep_events : list SubscriptionEvent; sep_from_sequence : N;
  sep_next_sequence : N; sep_earliest_retained_sequence : N; sep_limit : nat;
}.

(** ** Reports *)
Record ValidatorSetMetadataUpdateStatus := {
  vus_update_id : string; vus_pending_authorizations : nat; vus_required_quorum : nat; vus_applied : bool;
}.
Record SnapshotSyncClientMetricsReport := {
  smr_retry_attempts : N; smr_stream_failures : N; smr_requests_sent : N; smr_manifests_received : N;
  smr_chunks_received : N; smr_resume_requests : N; smr_metadata_roots_verified : bool;
  smr_required_metadata_roots_root : option string;
}.
Record PersistentNodeSnapshotRoots := {
  psr_storage_root : string; psr_registry_root : string; psr_policy_root : string;
  psr_event_root : string; psr_nonce_root : string; psr_outbox_root : string;
  psr_global_state_root : string; psr_validator_set_metadata_audit_root : string;
  psr_snapshot_import_audit_root : string; psr_snapshot_import_audit_record_count : nat;
  psr_snapshot_import_audit_max_records : N; psr_snapshot_import_audit_max_page_size : N;
  psr_snapshot_import_audit_config_root : option string;
  psr_required_snapshot_metadata_roots : gmap string string;
  psr_required_snapshot_metadata_roots_root : string;
  psr_snapshot_sync_client_metrics : option SnapshotSyncClientMetricsReport;
}.
Record RequiredSnapshotMetadataRootsReport := {
  rmr_roots : gmap string string; rmr_root : string;
}.
Record AspectModuleArtifactReport := {
  mar_module_hash : string; mar_module_id : string; mar_taxonomy_version : string;
  mar_source_root : string; mar_ir_root : string; mar_abi_root : string; mar_policy_root : string;
  mar_storage_schema_root : string; mar_registry_schema_root : string; mar_invariant_root : string;
  mar_has_canonical_source : bool; mar_has_ir : bool; mar_bundle_ids : list string;
  mar_abi : gmap string MethodAbiDef; mar_policies : gmap string MethodPolicyIr;
  mar_storage_schema : gmap string StateSchema; mar_registry_schema : gmap string RegistrySchema;
  mar_invariants : gmap string InvariantDef;
}.
(** One persisted root beside the local one: the root in effect, whether it
    was imported, and whether the persisted and the local one agree. *)
Record RootStatus (Root : Type) := {
  rts_effective : Root; rts_local : Root; rts_persisted : option string;
  rts_using_imported : bool; rts_persisted_matches_local : bool;
}.
Arguments rts_effective {Root}.
Arguments rts_local {Root}.
Arguments rts_persisted {Root}.
Arguments rts_using_imported {Root}.
Arguments rts_persisted_matches_local {Root}.
Record SnapshotMetadataRootStatus := {
  mrs_validator_set_metadata_audit : RootStatus string;
  mrs_snapshot_import_audit_config : RootStatus (option string);
  mrs_snapshot_import_audit : RootStatus (option string);
  mrs_required_snapshot_metadata_roots : RootStatus (option string);
  mrs_snapshot_sync_client_metrics : RootStatus (option string);
}.
Record NodeHealthReport := {
  nhr_chain_id : string; nhr_network_id : option string; nhr_validator_id : option string;
  nhr_height : N; nhr_pending_mempool_transactions : nat; nhr_trusted_validator_keys : option nat;
  nhr_pending_validator_set_metadata_updates : option nat; nhr_storage_root : string;
  nhr_registry_root : string; nhr_policy_root : string; nhr_event_root : string;
  nhr_nonce_root : string; nhr_outbox_root : string; nhr_global_state_root : string;
}.
Record OperatorMetricsReport := {
  omr_network_id : option string; omr_validator_id : option string; omr_peer_count : option nat;
  omr_mempool_size : nat; omr_consensus_height : N; omr_highest_finalized_height : option N;
  omr_finality_lag : option N; omr_last_block_execution_micros : option N;
  omr_last_proof_serving_micros : option N; omr_storage_bytes : option N; omr_rpc_error_count : N;
}.
Record OperatorAlertPolicy := {
  oap_min_peer_count : nat; oap_max_finality_lag : N; oap_max_storage_bytes : N;
  oap_max_rpc_error_count : N; oap_max_mempool_size : nat;
  oap_max_latest_block_failure_ratio_per_mille : N;
}.
Definition default_operator_alert_policy : OperatorAlertPolicy :=
  {| oap_min_peer_count := 1; oap_max_finality_lag := 2; oap_max_storage_bytes := u64_max;
     oap_max_rpc_error_count := 100; oap_max_mempool_size := N.to_nat 10000;
     oap_max_latest_block_failure_ratio_per_mille := 500 |}.
Inductive OperatorAlertSeverity := AlertWarning | AlertCritical.
Record OperatorAlert := {
  oa_code : string; oa_severity : OperatorAlertSeverity; oa_message : string;
}.
Record OperatorAlertReport := {
  oar_policy : OperatorAlertPolicy; oar_metrics : OperatorMetricsReport; oar_alerts : list OperatorAlert;
  oar_root_mismatch : bool; oar_slashing_record_count : nat; oar_latest_block_failure_count : nat;
  oar_latest_block_receipt_count : nat;
}.
Record MempoolStatus := {
  mst_pending_transactions : nat; mst_max_pending : nat; mst_max_pending_per_sender : nat;
  mst_max_transaction_bytes : nat; mst_block_resource_limit : N; mst_pending_by_sender : gmap string nat;
}.
Record EventPage := {
  evp_events : list Event; evp_offset : nat; evp_limit : nat; evp_total_events : nat;
}.
Record BlockPage := {
  bkp_blocks : list Block; bkp_start_height : N; bkp_limit : nat; bkp_highest_height : N;
}.
Record RestrictedEvaluationReport := {
  rer_evaluator : string; rer_source : string; rer_canonical_source : string; rer_max_steps : N;
  rer_report : ExecutionReport; rer_trace_root : string;
}.

(** ** Requests and results *)
Inductive RpcRequest :=
| ReqSubmitTransaction (transaction : Transaction)
| ReqSubmitSignedTransaction (signed : SignedClientTransaction)
| ReqProduceBlock (height timestamp : N)
| ReqImportBlock (block : Block)
| ReqGetTransaction (tx_hash : string)
| ReqGetReceipt (tx_hash : string)
| ReqGetReceiptProof (height : N) (index : nat)
| ReqGetBlock (height : N)
| ReqGetBlocksPage (start_height : N) (limit : nat)
| ReqGetFinalityCertificate (height : N)
| ReqGetSlashingRecord (validator_id : string)
| ReqGetNodeHealth | ReqGetOperatorMetrics | ReqGetOperatorAlerts | ReqGetMempoolStatus
| ReqGetStateRoot | ReqGetSnapshot | ReqGetPersistentNodeSnapshotRoots
| ReqGetSnapshotMetadataRootStatus | ReqGetSnapshotSyncClientMetrics
| ReqGetRequiredSnapshotMetadataRoots
| ReqGetBalance (contract : ContractId) (owner : Principal) (asset : AssetId)
| ReqGetTotalSupply (contract : ContractId) (asset : AssetId)
| ReqGetStorageProof (key : StateKey)
| ReqGetStorageNonInclusionProof (key : StateKey)
| ReqGetRegistryProof (key : GrantKey)
| ReqGetRegistryNonInclusionProof (key : GrantKey)
| ReqGetOutboxMessageProof (index : nat)
| ReqGetEventProof (index : nat)
| ReqGetEvents
| ReqGetEventsPage (offset limit : nat)
| ReqSubscribe (topics : list SubscriptionTopic)
| ReqGetSubscriptionEvents (subscription_id : string) (from_sequence : N) (limit : nat)
| ReqGetContract (contract : ContractId)
| ReqGetAspectModule (module_hash : string)
| ReqGetAspectModuleProof (module_hash : string)
| ReqGetAspectModuleArtifacts (module_hash : string)
| ReqGetAspectModules | ReqGetScheduledUpgrades | ReqGetScheduledPolicyUpdates
| ReqGetUpgradeRehearsalReport (upgrade_id : string)
| ReqEvaluateRestrictedScript (source : string) (max_steps : N)
| ReqGetRestrictedEvaluatorFixtureInventory
| ReqProposeValidatorSetMetadataUpdate (authorization : SignedValidatorMessage)
| ReqGetValidatorSetMetadataUpdateStatus (update_id : string)
| ReqGetValidatorSetMetadataAuditRecords (offset limit : nat)
| ReqGetSnapshotImportAuditRecords (offset limit : nat)
| ReqGetSnapshotImportAuditRoot | ReqGetSnapshotImportAuditConfigRoot | ReqGetSnapshotImportAuditConfig.

Inductive RpcResult :=
| ResSubmitted | ResImported
| ResBlock (block : Block)
| ResBlocksPage (page : BlockPage)
| ResFinalityCertificate (certificate : FinalityCertificate)
| ResSlashingRecord (record : SlashingRecord)
| ResTransaction (transaction : Transaction)
| ResReceipt (receipt : Receipt)
| ResNodeHealth (report : NodeHealthReport)
| ResOperatorMetrics (report : OperatorMetricsReport)
| ResOperatorAlerts (report : OperatorAlertReport)
| ResMempoolStatus (status : MempoolStatus)
| ResStateRoot (root : string)
| ResSnapshot (snapshot : StateSnapshot)
| ResPersistentNodeSnapshotRoots (roots : PersistentNodeSnapshotRoots)
| ResSnapshotMetadataRootStatus (status : SnapshotMetadataRootStatus)
| ResSnapshotSyncClientMetrics (metrics : option SnapshotSyncClientMetricsReport)
| ResRequiredSnapshotMetadataRoots (report : RequiredSnapshotMetadataRootsReport)
| ResAmount (amount : Amount)
| ResStorageProof (proof : EntryProof StateKey StateValue)
| ResStorageNonInclusionProof (proof : NonInclusionProof StateKey StateValue)
| ResRegistryProof (proof : EntryProof GrantKey Grant)
| ResRegistryNonInclusionProof (proof : NonInclusionProof GrantKey Grant)
| ResOutboxMessageProof (proof : OutboxMessageProof)
| ResReceiptProof (proof : Receipt * MerkleProof)
| ResEventProof (proof : Event * MerkleProof)
| ResEvents (events : list Event)
| ResEventsPage (page : EventPage)
| ResSubscriptionStatus (status : SubscriptionStatus)
| ResSubscriptionEvents (page : SubscriptionEventPage)
| ResContract (contract : ContractRecord)
| ResAspectModule (module_record : AspectModuleRecord)
| ResAspectModuleProof (proof : EntryProof string AspectModuleRecord)
| ResAspectModuleArtifacts (report : AspectModuleArtifactReport)
| ResAspectModules (modules : list AspectModuleRecord)
| ResScheduledUpgrades (upgrades : list ScheduledUpgrade)
| ResScheduledPolicyUpdates (updates : list ScheduledPolicyUpdate)
| ResUpgradeRehearsalReport (report : UpgradeRehearsalReport)
| ResRestrictedEvaluation (report : RestrictedEvaluationReport)
| ResRestrictedEvaluatorFixtureInventory (inventory : EvaluatorFixtureInventory)
| ResValidatorSetMetadataUpdateStatus (status : ValidatorSetMetadataUpdateStatus)
| ResValidatorSetMetadataAuditRecords (records : list ValidatorSetMetadataAuditRecord)
| ResSnapshotImportAuditRecords (records : list SnapshotImportAuditRecord)
| ResSnapshotImportAuditRoot (root : string)
| ResSnapshotImportAuditConfigRoot (root : option string)
| ResSnapshotImportAuditConfig (config : SnapshotImportAuditConfig).

Record RpcErrorBody := { reb_code : string; reb_message : string }.
Inductive RpcResponse := RpcOk (result : RpcResult) | RpcErr (error : RpcErrorBody).

(** ** Error codes and messages *)
Definition mempool_error_code (error : MempoolError) : string :=
  match error with
  | MpChainMismatch => "mempool.chain_mismatch"
  | MpInvalidSignature => "mempool.invalid_signature"
  | MpUnauthorizedSigner _ _ => "mempool.unauthorized_signer"
  | MpTransactionExpired _ _ => "mempool.transaction_expired"
  | MpDuplicateTransaction => "mempool.duplicate_transaction"
  | MpNonceAlreadyUsed => "mempool.nonce_already_used"
  | MpInsufficientBudget => "mempool.insufficient_budget"
  | MpTransactionTooLarge _ _ => "mempool.transaction_too_large"
  | MpPoolFull _ => "mempool.pool_full"
  | MpSenderPendingLimitExceeded _ _ => "mempool.sender_pending_limit_exceeded"
  end.
Definition block_error_code (error : BlockError) : string :=
  match error with
  | BlkChainMismatch => "block.chain_mismatch"
  | BlkPreviousBlockMismatch => "block.previous_block_mismatch"
  | BlkTxRootMismatch => "block.tx_root_mismatch"
  | BlkReceiptRootMismatch => "block.receipt_root_mismatch"
  | BlkReceiptMismatch => "block.receipt_mismatch"
  | BlkStorageRootMismatch => "block.storage_root_mismatch"
  | BlkRegistryRootMismatch => "block.registry_root_mismatch"
  | BlkPolicyRootMismatch => "block.policy_root_mismatch"
  | BlkEventRootMismatch => "block.event_root_mismatch"
  | BlkNonceRootMismatch => "block.nonce_root_mismatch"
  | BlkOutboxRootMismatch => "block.outbox_root_mismatch"
  | BlkGlobalStateRootMismatch => "block.global_state_root_mismatch"
  | BlkResourceLimitExceeded _ _ => "block.resource_limit_exceeded"
  end.
Definition rpc_error_code (error : RpcError) : string :=
  match error with
  | RpcMempool e => mempool_error_code e
  | RpcBlock e => block_error_code e
  | BlockNotFound => "rpc.block_not_found"
  | CertificateNotFound => "rpc.certificate_not_found"
  | SlashingRecordNotFound => "rpc.slashing_record_not_found"
  | ReceiptNotFound => "rpc.receipt_not_found"
  | TransactionNotFound => "rpc.transaction_not_found"
  | RpcContractNotFound => "rpc.contract_not_found"
  | AspectModuleNotFound => "rpc.aspect_module_not_found"
  | ProofNotFound => "rpc.proof_not_found"
  | SubscriptionNotFound => "rpc.subscription_not_found"
  | RpcExecution UpgradeNotFound => "execution.upgrade_not_found"
  | RpcExecution UpgradeAlreadyExecuted => "execution.upgrade_already_executed"
  | RpcExecution ContractNotFound => "execution.contract_not_found"
  | RpcExecution _ => "execution.failed"
  | EvaluatorParse _ => "evaluator.parse_error"
  | EvaluatorExecution EvForbiddenPrimitive => "evaluator.forbidden_primitive"
  | EvaluatorExecution EvStepBudgetExceeded => "evaluator.step_budget_exceeded"
  | EvaluatorExecution EvArithmeticOverflow => "evaluator.arithmetic_overflow"
  | EvaluatorExecution EvAborted => "evaluator.aborted"
  | EvaluatorStepBudgetTooLarge => "evaluator.step_budget_too_large"
  | UnsupportedNodeMethod => "rpc.unsupported_node_method"
  end.
Definition mempool_error_message (error : MempoolError) : string :=
  match error with
  | MpChainMismatch => "transaction chain ID does not match this node"
  | MpInvalidSignature => "transaction signature failed admission"
  | MpUnauthorizedSigner _ _ => "transaction signer is not registered for the sender account"
  | MpTransactionExpired _ _ => "transaction validity window has expired"
  | MpDuplicateTransaction => "transaction is already pending"
  | MpNonceAlreadyUsed => "transaction nonce has already been committed"
  | MpInsufficientBudget => "transaction budget is below deterministic execution cost"
  | MpTransactionTooLarge _ _ => "transaction exceeds the configured mempool byte limit"
  | MpPoolFull _ => "mempool has reached the configured pending transaction limit"
  | MpSenderPendingLimitExceeded _ _ => "sender has reached the configured pending transaction limit"
  end.
Definition block_error_message (error : BlockError) : string :=
  match error with
  | BlkChainMismatch => "block chain ID does not match this node"
  | BlkPreviousBlockMismatch => "block does not extend the latest committed block"
  | BlkTxRootMismatch => "block transaction root is invalid"
  | BlkReceiptRootMismatch => "block receipt root is invalid"
  | BlkReceiptMismatch => "block receipts are invalid"
  | BlkStorageRootMismatch => "block storage root is invalid"
  | BlkRegistryRootMismatch => "block registry root is invalid"
  | BlkPolicyRootMismatch => "block policy root is invalid"
  | BlkEventRootMismatch => "block event root is invalid"
  | BlkNonceRootMismatch => "block nonce root is invalid"
  | BlkOutboxRootMismatch => "block outbox root is invalid"
  | BlkGlobalStateRootMismatch => "block global state root is invalid"
  | BlkResourceLimitExceeded _ _ => "block resource limit exceeded"
  end.
Definition rpc_error_message (error : RpcError) : string :=
  match error with
  | RpcMempool e => mempool_error_message e
  | RpcBlock e => block_error_message e
  | BlockNotFound => "block was not found"
  | CertificateNotFound => "finality certificate was not found"
  | SlashingRecordNotFound => "slashing record was not found"
  | ReceiptNotFound => "receipt was not found"
  | TransactionNotFound => "transaction was not found"
  | RpcContractNotFound => "contract was not found"
  | AspectModuleNotFound => "aspect module was not found"
  | ProofNotFound => "proof was not found"
  | SubscriptionNotFound => "subscription was not found"
  | RpcExecution UpgradeNotFound => "upgrade was not found"
  | RpcExecution UpgradeAlreadyExecuted => "upgrade has already been executed"
  | RpcExecution ContractNotFound => "contract was not found"
  | RpcExecution _ => "execution failed"
  | EvaluatorParse _ => "restricted evaluator source failed to parse"
  | EvaluatorExecution EvForbiddenPrimitive => "restricted evaluator primitive is forbidden"
  | EvaluatorExecution EvStepBudgetExceeded => "restricted evaluator step budget was exceeded"
  | EvaluatorExecution EvArithmeticOverflow => "restricted evaluator arithmetic overflowed"
  | EvaluatorExecution EvAborted => "restricted evaluator aborted"
  | EvaluatorStepBudgetTooLarge => "restricted evaluator step budget is too large"
  | UnsupportedNodeMethod => "method must be handled by a persistent validator node"
  end.
Definition rpc_error_body (error : RpcError) : RpcErrorBody :=
  {| reb_code := rpc_error_code error; reb_message := rpc_error_message error |}.
(** [From<Result<RpcResult, RpcError>> for RpcResponse] *)
Definition into_response (result : outcome RpcError RpcResult) : outcome Empty_set RpcResponse :=
  match result with
  | Ok result => Ok (RpcOk result)
  | Err error => Ok (RpcErr (rpc_error_body error))
  | Panic => Panic
  | OutOfFuel => OutOfFuel
  end.
