(* ===== verification/Rpc.v ===== *)
(** * Rpc: the RPC service of a validator node

    [SignedClientTransaction] and [RpcService] of crates/detta-rpc/src/lib.rs:
    signed submission, the retained stream of notifications with its
    subscriptions, and the dispatch of requests.  serde_json at the signing
    payload and at kernel traces is a parameter, and so is the derived
    [Debug] text of a parse error. *)
From S2P Require Import Prelude Effects Merkle Types State Proofs AspectRuntime Aspects Runtime.
From S2P Require Import Exec Transactions Mempool Block Consensus Protocol Storage Verify Evaluator Fixtures Rehearsal RpcTypes.

(** [n += 1] on [u64] *)
Definition succ_u64 {E} (n : N) : outcome E N := if n <? u64_max then Ok (n + 1) else Panic.

(** ** Signed client transactions *)
Definition set_signature_ok (b : bool) (tx : Transaction) : Transaction :=
  {| tx_chain_id := tx_chain_id tx; tx_tx_hash := tx_tx_hash tx; tx_sender := tx_sender tx;
     tx_nonce := tx_nonce tx; tx_valid_until_height := tx_valid_until_height tx;
     tx_target := tx_target tx; tx_method := tx_method tx; tx_args := tx_args tx;
     tx_signature_ok := b; tx_budget := tx_budget tx |}.
(** [u8::to_ascii_lowercase] and [str::to_ascii_lowercase] *)
Definition to_lower (c : ascii) : ascii :=
  let n := N_of_ascii c in if (65 <=? n) && (n <=? 90) then ascii_of_N (n + 32) else c.
Fixpoint to_ascii_lowercase (s : string) : string :=
  match s with "" => "" | String c s => String (to_lower c) (to_ascii_lowercase s) end.

Section signed.
Context `{Host, Wire, !Serialize TransactionSigningPayload}.
Definition signing_payload (tx : Transaction) : list byte :=
  canonical_bytes {| tsp_chain_id := tx_chain_id tx; tsp_tx_hash := tx_tx_hash tx;
    tsp_sender := tx_sender tx; tsp_nonce := tx_nonce tx;
    tsp_valid_until_height := tx_valid_until_height tx; tsp_target := tx_target tx;
    tsp_method := tx_method tx; tsp_args := tx_args tx; tsp_budget := tx_budget tx |}.
(** The seed is the one of the signing key. *)
Definition sign_with_seed (transaction : Transaction) (signing_key : SigningKey) : SignedClientTransaction :=
  let transaction := set_signature_ok false transaction in
  {| sct_transaction := transaction; sct_public_key_hex := hex_lower (verifying_key signing_key);
     sct_signature_hex := hex_lower (sign signing_key (signing_payload transaction)) |}.
Definition verify_client (self : SignedClientTransaction) : bool :=
  if bool_decide (sct_public_key_hex self ≠ to_ascii_lowercase (sct_public_key_hex self))
     || bool_decide (sct_signature_hex self ≠ to_ascii_lowercase (sct_signature_hex self)) then false else
  match decode_hex_array 32 (sct_public_key_hex self), decode_hex_array 64 (sct_signature_hex self) with
  | Some public_key_bytes, Some signature_bytes =>
      valid_key public_key_bytes &&
      verify_signature public_key_bytes (signing_payload (sct_transaction self)) signature_bytes
  | _, _ => false
  end.
Definition into_verified_transaction (self : SignedClientTransaction) : outcome MempoolError Transaction :=
  do* ensure (verify_client self) MpInvalidSignature in
  Ok (set_signature_ok true (sct_transaction self)).
Definition into_authorized_transaction (self : SignedClientTransaction) (state : DeTTaState)
    : outcome MempoolError Transaction :=
  do* ensure (verify_client self) MpInvalidSignature in
  do* ensure (has_active_account_key state (tx_sender (sct_transaction self)) (sct_public_key_hex self))
    (MpUnauthorizedSigner (tx_sender (sct_transaction self)) (sct_public_key_hex self)) in
  Ok (set_signature_ok true (sct_transaction self)).
End signed.

(** ** The service *)
Record RpcService := {
  svc_node : ValidatorNode;
  svc_subscriptions : gmap string (list SubscriptionTopic);
  svc_subscription_events : list SubscriptionEvent;
  svc_next_subscription_id : N;
  svc_next_subscription_sequence : N;
}.
Definition rpc_new (node : ValidatorNode) : RpcService :=
  {| svc_node := node; svc_subscriptions := ∅; svc_subscription_events := [];
     svc_next_subscription_id := 1; svc_next_subscription_sequence := 1 |}.
Abbreviation RM := (SE RpcService RpcError).
Definition set_node (node : ValidatorNode) (svc : RpcService) : RpcService :=
  {| svc_node := node; svc_subscriptions := svc_subscriptions svc;
     svc_subscription_events := svc_subscription_events svc;
     svc_next_subscription_id := svc_next_subscription_id svc;
     svc_next_subscription_sequence := svc_next_subscription_sequence svc |}.
Definition set_feed (events : list SubscriptionEvent) (next : N) (svc : RpcService) : RpcService :=
  {| svc_node := svc_node svc; svc_subscriptions := svc_subscriptions svc;
     svc_subscription_events := events; svc_next_subscription_id := svc_next_subscription_id svc;
     svc_next_subscription_sequence := next |}.
Definition svc_state (svc : RpcService) : DeTTaState := vn_state (svc_node svc).
(** A method of the node, its error mapped. *)
Definition on_node {E A} (m : SE ValidatorNode E A) (wrap : E → RpcError) : RM A := λ svc,
  let '(o, node) := m (svc_node svc) in
  (match o with Ok a => Ok a | Err e => Err (wrap e) | Panic => Panic | OutOfFuel => OutOfFuel end,
   set_node node svc).

(** *** Subscriptions *)
Definition topic_index (topic : SubscriptionTopic) : N :=
  match topic with TopicBlocks => 0 | TopicReceipts => 1 | TopicEvents => 2 | TopicFinality => 3 end.
Definition topic_le (x y : SubscriptionTopic) : Prop := topic_index x ≤ topic_index y.
#[export] Instance topic_le_dec : RelDecision topic_le.
Proof. intros x y. unfold topic_le. apply _. Defined.
(** [Vec::dedup] *)
Fixpoint dedup {A} `{EqDecision A} (l : list A) : list A :=
  match l with
  | x :: (y :: _) as l => if decide (x = y) then dedup l else x :: dedup l
  | l => l
  end.
Definition normalize_subscription_topics (topics : list SubscriptionTopic) : list SubscriptionTopic :=
  let topics := match topics with
    | [] => [TopicBlocks; TopicReceipts; TopicEvents; TopicFinality]
    | topics => topics
    end in
  dedup (merge_sort topic_le topics).
Definition earliest_retained_subscription_sequence (svc : RpcService) : N :=
  match svc_subscription_events svc with
  | event :: _ => sev_sequence event
  | [] => svc_next_subscription_sequence svc
  end.
Definition subscribe (topics : list SubscriptionTopic) : RM SubscriptionStatus := λ svc,
  let topics := normalize_subscription_topics topics in
  let subscription_id := "sub-" +:+ pretty (svc_next_subscription_id svc) in
  match succ_u64 (E:=RpcError) (svc_next_subscription_id svc) with
  | Ok next_id =>
      let svc := {| svc_node := svc_node svc;
        svc_subscriptions := <[subscription_id := topics]> (svc_subscriptions svc);
        svc_subscription_events := svc_subscription_events svc; svc_next_subscription_id := next_id;
        svc_next_subscription_sequence := svc_next_subscription_sequence svc |} in
      (Ok {| sst_subscription_id := subscription_id; sst_topics := topics;
             sst_next_sequence := svc_next_subscription_sequence svc;
             sst_earliest_retained_sequence := earliest_retained_subscription_sequence svc |}, svc)
  | _ => (Panic, svc)
  end.
(** The loop over the retained events, [left_] pushes before it breaks. *)
Fixpoint page_events (topics : list SubscriptionTopic) (left_ : nat) (events : list SubscriptionEvent)
    : list SubscriptionEvent :=
  match left_, events with
  | S left', event :: events =>
      if decide (sev_topic event ∈ topics) then event :: page_events topics left' events
      else page_events topics left_ events
  | _, _ => []
  end.
Definition get_subscription_events (svc : RpcService) (subscription_id : string) (from_sequence : N)
    (limit : nat) : outcome RpcError SubscriptionEventPage :=
  let* topics := ok_or (svc_subscriptions svc !! subscription_id) SubscriptionNotFound in
  let effective_limit := Nat.min limit DEFAULT_MAX_SUBSCRIPTION_EVENT_PAGE_SIZE in
  let earliest := earliest_retained_subscription_sequence svc in
  let effective_from := N.max from_sequence earliest in
  let events := page_events topics effective_limit
    (filter (λ event, effective_from ≤ sev_sequence event) (svc_subscription_events svc)) in
  let* next_sequence := match last events with
    | Some event => succ_u64 (sev_sequence event)
    | None => Ok (svc_next_subscription_sequence svc)
    end in
  Ok {| sep_subscription_id := subscription_id; sep_events := events; sep_from_sequence := effective_from;
        sep_next_sequence := next_sequence; sep_earliest_retained_sequence := earliest;
        sep_limit := effective_limit |}.
Definition publish_subscription_event (topic : SubscriptionTopic) (notification : SubscriptionNotification)
    : RM () := λ svc,
  let events := svc_subscription_events svc ++
    [{| sev_sequence := svc_next_subscription_sequence svc; sev_topic := topic;
        sev_notification := notification |}] in
  match succ_u64 (E:=RpcError) (svc_next_subscription_sequence svc) with
  | Ok next =>
      let excess := (length events - DEFAULT_MAX_SUBSCRIPTION_EVENTS)%nat in
      (Ok (), set_feed (drop excess events) next svc)
  | _ => (Panic, set_feed events (svc_next_subscription_sequence svc) svc)
  end.
Definition publish_block_notifications (block : Block) (events : list Event) : RM () :=
  do! publish_subscription_event TopicBlocks (NotifyBlock block) in
  do! forM (λ receipt, publish_subscription_event TopicReceipts (NotifyReceipt receipt))
        (blk_receipts block) in
  forM (λ event, publish_subscription_event TopicEvents (NotifyEvent event)) events.
Definition publish_finality_certificate (certificate : FinalityCertificate) : RM () :=
  publish_subscription_event TopicFinality (NotifyFinalityCertificate certificate).

Section service.
Context `{Host, Wire, !Serialize TransactionSigningPayload, !Serialize (list TraceOp)}.
Context (debug_parse_error : ParseError → string) (model_file : string → list byte).

(** *** Submission and blocks *)
Definition rpc_submit_transaction (tx : Transaction) : RM () :=
  on_node (submit_transaction tx) RpcMempool.
(** [&events[event_start..]] panics past the end. *)
Definition events_from (event_start : nat) (svc : RpcService) : outcome RpcError (list Event) :=
  let events := events (svc_state svc) in
  if (event_start <=? length events)%nat then Ok (drop event_start events) else Panic.
Definition announce_block (event_start : nat) (block : Block) : RM () :=
  let! events := λ svc, (events_from event_start svc, svc) in
  publish_block_notifications block events.
Definition rpc_produce_block (height timestamp : N) : RM Block :=
  let! event_start := gets (λ svc, length (events (svc_state svc))) in
  let! block := on_node (propose_pending_block height timestamp) (λ e : Empty_set, match e with end) in
  do! on_node (validate_and_apply block) RpcBlock in
  do! announce_block event_start block in
  ret block.
Definition rpc_import_block (block : Block) : RM () :=
  let! event_start := gets (λ svc, length (events (svc_state svc))) in
  do! on_node (validate_and_apply block) RpcBlock in
  announce_block event_start block.

(** *** Queries *)
Definition blocks_from (node : ValidatorNode) (start_height : N) (limit : nat) : list Block :=
  (take limit (filter (λ entry, start_height ≤ entry.1) (entries (vn_blocks node)))).*2.
Definition rpc_get_blocks_page (svc : RpcService) (start_height : N) (limit : nat) : BlockPage :=
  let effective_limit := Nat.min limit DEFAULT_MAX_BLOCK_PAGE_SIZE in
  {| bkp_blocks := blocks_from (svc_node svc) start_height effective_limit;
     bkp_start_height := start_height; bkp_limit := effective_limit;
     bkp_highest_height := highest_block_height (svc_node svc) |}.
Definition rpc_get_receipt_proof (svc : RpcService) (height : N) (index : nat)
    : outcome RpcError (Receipt * MerkleProof) :=
  let* block := ok_or (vn_blocks (svc_node svc) !! height) BlockNotFound in
  ok_or (receipt_proof block index) ProofNotFound.
Definition node_health (svc : RpcService) : NodeHealthReport :=
  let state := svc_state svc in
  {| nhr_chain_id := chain_id state; nhr_network_id := None; nhr_validator_id := None;
     nhr_height := height state;
     nhr_pending_mempool_transactions := length (mem_pending (vn_mempool (svc_node svc)));
     nhr_trusted_validator_keys := None; nhr_pending_validator_set_metadata_updates := None;
     nhr_storage_root := storage_root state; nhr_registry_root := registry_root state;
     nhr_policy_root := policy_root state; nhr_event_root := event_root state;
     nhr_nonce_root := nonce_root state; nhr_outbox_root := outbox_root state;
     nhr_global_state_root := global_state_root state |}.
Definition count_sender (counts : gmap string nat) (tx : Transaction) : gmap string nat :=
  <[tx_sender tx := S (default O (counts !! tx_sender tx))]> counts.
Definition mempool_status (svc : RpcService) : MempoolStatus :=
  let node := svc_node svc in
  let pending := mem_pending (vn_mempool node) in
  let policy := mem_policy (vn_mempool node) in
  {| mst_pending_transactions := length pending; mst_max_pending := map_max_pending policy;
     mst_max_pending_per_sender := map_max_pending_per_sender policy;
     mst_max_transaction_bytes := map_max_transaction_bytes policy;
     mst_block_resource_limit := vn_block_resource_limit node;
     mst_pending_by_sender := foldl count_sender ∅ pending |}.
Definition get_events_page (svc : RpcService) (offset limit : nat) : EventPage :=
  let events := events (svc_state svc) in
  let effective_limit := Nat.min limit DEFAULT_MAX_EVENT_PAGE_SIZE in
  {| evp_events := take effective_limit (drop offset events); evp_offset := offset;
     evp_limit := effective_limit; evp_total_events := length events |}.
(** [AspectModuleArtifactReport::from_record] *)
Definition from_record (m : AspectModuleRecord) : AspectModuleArtifactReport :=
  let from_ir {A} (empty : A) (f : AspectModuleIr → A) : A :=
    match mod_ir m with Some ir => f ir | None => empty end in
  {| mar_module_hash := mod_module_hash m; mar_module_id := mod_module_id m;
     mar_taxonomy_version := mod_taxonomy_version m; mar_source_root := mod_source_root m;
     mar_ir_root := mod_ir_root m; mar_abi_root := mod_abi_root m; mar_policy_root := mod_policy_root m;
     mar_storage_schema_root := mod_storage_schema_root m;
     mar_registry_schema_root := mod_registry_schema_root m; mar_invariant_root := mod_invariant_root m;
     mar_has_canonical_source := bool_decide (is_Some (mod_canonical_source m));
     mar_has_ir := bool_decide (is_Some (mod_ir m));
     mar_bundle_ids := from_ir [] (λ ir, keys (ir_bundles ir)); mar_abi := from_ir ∅ ir_abi;
     mar_policies := from_ir ∅ ir_policies; mar_storage_schema := from_ir ∅ ir_storage_schema;
     mar_registry_schema := from_ir ∅ ir_registry_schema; mar_invariants := from_ir ∅ ir_invariants |}.
Definition map_parse_error {A} (o : outcome ParseError A) : outcome RpcError A :=
  match o with
  | Ok a => Ok a | Err e => Err (EvaluatorParse (debug_parse_error e))
  | Panic => Panic | OutOfFuel => OutOfFuel
  end.
Definition map_evaluator_error {A} (o : outcome EvaluatorError A) : outcome RpcError A :=
  match o with
  | Ok a => Ok a | Err e => Err (EvaluatorExecution e) | Panic => Panic | OutOfFuel => OutOfFuel
  end.
Definition map_rehearsal_error {A} (o : outcome ExecutionError A) : outcome RpcError A :=
  match o with
  | Ok a => Ok a | Err e => Err (RpcExecution e) | Panic => Panic | OutOfFuel => OutOfFuel
  end.
Definition evaluate_restricted_script (source : string) (max_steps : N)
    : outcome RpcError RestrictedEvaluationReport :=
  do* ensure (negb (DEFAULT_MAX_RESTRICTED_EVALUATOR_STEPS <? max_steps)) EvaluatorStepBudgetTooLarge in
  let* instructions := map_parse_error (parse_restricted_script source) in
  let canonical_source := canonical_script_source instructions in
  let* report := map_evaluator_error (execute max_steps instructions) in
  Ok {| rer_evaluator := "detta.restricted-script-evaluator"; rer_source := source;
        rer_canonical_source := canonical_source; rer_max_steps := max_steps; rer_report := report;
        rer_trace_root := trace_root (er_trace report) |}.

(** *** Dispatch *)
Definition found {A} (o : option A) (missing : RpcError) (result : A → RpcResult) : outcome RpcError RpcResult :=
  let* a := ok_or o missing in Ok (result a).
(** The requests that read the service. *)
Definition query (svc : RpcService) (request : RpcRequest) : outcome RpcError RpcResult :=
  let node := svc_node svc in
  let state := svc_state svc in
  match request with
  | ReqGetTransaction tx_hash => found (vn_transactions node !! tx_hash) TransactionNotFound ResTransaction
  | ReqGetReceipt tx_hash => found (get_receipt node tx_hash) ReceiptNotFound ResReceipt
  | ReqGetReceiptProof height index =>
      let* proof := rpc_get_receipt_proof svc height index in Ok (ResReceiptProof proof)
  | ReqGetBlock height => found (vn_blocks node !! height) BlockNotFound ResBlock
  | ReqGetBlocksPage start_height limit => Ok (ResBlocksPage (rpc_get_blocks_page svc start_height limit))
  | ReqGetNodeHealth => Ok (ResNodeHealth (node_health svc))
  | ReqGetMempoolStatus => Ok (ResMempoolStatus (mempool_status svc))
  | ReqGetStateRoot => Ok (ResStateRoot (global_state_root state))
  | ReqGetSnapshot => Ok (ResSnapshot (snapshot state))
  | ReqGetBalance contract owner asset => Ok (ResAmount (balance state contract owner asset))
  | ReqGetTotalSupply contract asset => Ok (ResAmount (total_supply state contract asset))
  | ReqGetStorageProof key => found (storage_proof state key) ProofNotFound ResStorageProof
  | ReqGetStorageNonInclusionProof key =>
      found (storage_non_inclusion_proof state key) ProofNotFound ResStorageNonInclusionProof
  | ReqGetRegistryProof key => found (registry_proof state key) ProofNotFound ResRegistryProof
  | ReqGetRegistryNonInclusionProof key =>
      found (registry_non_inclusion_proof state key) ProofNotFound ResRegistryNonInclusionProof
  | ReqGetOutboxMessageProof index =>
      found (outbox_message_proof state index) ProofNotFound ResOutboxMessageProof
  | ReqGetEventProof index => found (event_proof state index) ProofNotFound ResEventProof
  | ReqGetEvents => Ok (ResEvents (events state))
  | ReqGetEventsPage offset limit => Ok (ResEventsPage (get_events_page svc offset limit))
  | ReqGetSubscriptionEvents subscription_id from_sequence limit =>
      let* page := get_subscription_events svc subscription_id from_sequence limit in
      Ok (ResSubscriptionEvents page)
  | ReqGetContract contract => found (contracts state !! contract) RpcContractNotFound ResContract
  | ReqGetAspectModule module_hash =>
      found (aspect_modules state !! module_hash) AspectModuleNotFound ResAspectModule
  | ReqGetAspectModuleProof module_hash =>
      found (aspect_module_proof state module_hash) ProofNotFound ResAspectModuleProof
  | ReqGetAspectModuleArtifacts module_hash =>
      found (aspect_modules state !! module_hash) AspectModuleNotFound
        (λ m, ResAspectModuleArtifacts (from_record m))
  | ReqGetAspectModules => Ok (ResAspectModules (values (aspect_modules state)))
  | ReqGetScheduledUpgrades => Ok (ResScheduledUpgrades (values (scheduled_upgrades state)))
  | ReqGetScheduledPolicyUpdates => Ok (ResScheduledPolicyUpdates (values (scheduled_policy_updates state)))
  | ReqGetUpgradeRehearsalReport upgrade_id =>
      let* report := map_rehearsal_error (rehearse_scheduled_upgrade state upgrade_id) in
      Ok (ResUpgradeRehearsalReport report)
  | ReqEvaluateRestrictedScript source max_steps =>
      let* report := evaluate_restricted_script source max_steps in Ok (ResRestrictedEvaluation report)
  | ReqGetRestrictedEvaluatorFixtureInventory =>
      let* inventory := from_void (restricted_evaluator_fixture_inventory model_file) in
      Ok (ResRestrictedEvaluatorFixtureInventory inventory)
  | _ => Err UnsupportedNodeMethod
  end.
Definition map_result {A} (m : RM A) (f : A → RpcResult) : RM RpcResult := let! a := m in ret (f a).
Definition dispatch (request : RpcRequest) : RM RpcResult :=
  match request with
  | ReqSubmitTransaction transaction => map_result (rpc_submit_transaction transaction) (λ _, ResSubmitted)
  | ReqSubmitSignedTransaction signed => λ svc,
      match into_authorized_transaction signed (svc_state svc) with
      | Ok transaction => map_result (rpc_submit_transaction transaction) (λ _, ResSubmitted) svc
      | Err e => (Err (RpcMempool e), svc) | Panic => (Panic, svc) | OutOfFuel => (OutOfFuel, svc)
      end
  | ReqProduceBlock height timestamp => map_result (rpc_produce_block height timestamp) ResBlock
  | ReqImportBlock block => map_result (rpc_import_block block) (λ _, ResImported)
  | ReqSubscribe topics => map_result (subscribe topics) ResSubscriptionStatus
  | request => λ svc, (query svc request, svc)
  end.
Definition handle_request (request : RpcRequest) : SE RpcService Empty_set RpcResponse := λ svc,
  let '(result, svc') := dispatch request svc in (into_response result, svc').
End service.

(** ** The notification stream

    The service's feed is a window on the log of every notification since it
    started: the last [DEFAULT_MAX_SUBSCRIPTION_EVENTS] of them, numbered
    from one. *)
Definition topic_of (notification : SubscriptionNotification) : SubscriptionTopic :=
  match notification with
  | NotifyBlock _ => TopicBlocks
  | NotifyReceipt _ => TopicReceipts
  | NotifyEvent _ => TopicEvents
  | NotifyFinalityCertificate _ => TopicFinality
  end.
Definition numbered_from (first : N) (log : list SubscriptionNotification) : list SubscriptionEvent :=
  imap (λ i n, {| sev_sequence := first + N.of_nat i; sev_topic := topic_of n; sev_notification := n |}) log.
Definition numbered (log : list SubscriptionNotification) : list SubscriptionEvent := numbered_from 1 log.
Definition forgotten (log : list SubscriptionNotification) : nat :=
  (length log - DEFAULT_MAX_SUBSCRIPTION_EVENTS)%nat.
Record feeds (svc : RpcService) (log : list SubscriptionNotification) : Prop := {
  feed_next : svc_next_subscription_sequence svc = N.of_nat (length log) + 1;
  feed_window : svc_subscription_events svc = drop (forgotten log) (numbered log);
  feed_fits : N.of_nat (length log) + 1 ≤ u64_max;
}.
Definition block_notifications (block : Block) (events : list Event) : list SubscriptionNotification :=
  NotifyBlock block :: (NotifyReceipt <$> blk_receipts block) ++ (NotifyEvent <$> events).

Lemma max_events_pos : (0 < DEFAULT_MAX_SUBSCRIPTION_EVENTS)%nat.
Proof. unfold DEFAULT_MAX_SUBSCRIPTION_EVENTS. lia. Qed.
Lemma numbered_snoc log n :
  numbered (log ++ [n]) =
  numbered log ++ [{| sev_sequence := N.of_nat (length log) + 1; sev_topic := topic_of n; sev_notification := n |}].
Proof. unfold numbered, numbered_from. rewrite imap_app. simpl. do 3 f_equal. lia. Qed.
Lemma length_numbered log : length (numbered log) = length log.
Proof. apply length_imap. Qed.
Lemma succ_u64_Ok {E} n m : succ_u64 (E:=E) n = Ok m → m = n + 1 ∧ n < u64_max.
Proof. unfold succ_u64. destruct (N.ltb_spec n u64_max); [|done]. by intros [= <-]. Qed.
Lemma feeds_new node : feeds (rpc_new node) [].
Proof. by split. Qed.

Lemma publish_feeds n svc log u svc' :
  publish_subscription_event (topic_of n) n svc = (Ok u, svc') → feeds svc log →
  feeds svc' (log ++ [n]) ∧ svc_node svc' = svc_node svc.
Proof.
  unfold publish_subscription_event. destruct (succ_u64 _) as [next| | |] eqn:Hs; [|done..].
  apply succ_u64_Ok in Hs as [-> Hlt]. intros [= _ <-] [Hn Hw Hfit].
  split; [|done]. split; cbn [set_feed svc_next_subscription_sequence svc_subscription_events].
  - rewrite Hn, length_app. simpl. lia.
  - rewrite Hw, Hn, numbered_snoc, length_app, length_drop, length_numbered. cbn [length].
    unfold forgotten. rewrite length_app. cbn [length].
    pose proof max_events_pos. set (m := DEFAULT_MAX_SUBSCRIPTION_EVENTS) in *.
    destruct (decide (length log < m)%nat).
    + replace (length log - m)%nat with O by lia. rewrite drop_0.
      by replace (length log - 0 + 1 - m)%nat with (length log + 1 - m)%nat by lia.
    + replace (length log - (length log - m) + 1 - m)%nat with 1%nat by lia.
      replace (length log + 1 - m)%nat with (length log - m + 1)%nat by lia.
      rewrite <- drop_drop. rewrite (drop_app_le _ _ (length log - m)) by (rewrite length_numbered; lia). done.
  - rewrite length_app. cbn [length]. lia.
Qed.
Lemma forM_publish_feeds {A} (f : A → SubscriptionNotification) t l svc log u svc' :
  (∀ a, topic_of (f a) = t) → forM (λ a, publish_subscription_event t (f a)) l svc = (Ok u, svc') → feeds svc log →
  feeds svc' (log ++ (f <$> l)) ∧ svc_node svc' = svc_node svc.
Proof.
  intros Ht. revert svc log. induction l as [|a l IH]; intros svc log; cbn [forM fmap list_fmap].
  { intros [= <- <-] Hf. by rewrite app_nil_r. }
  intros Hrun Hf. unfold bind in Hrun.
  destruct (publish_subscription_event t (f a) svc) as [[] svc1] eqn:Hp; try done.
  rewrite <- (Ht a) in Hp. destruct (publish_feeds _ _ _ _ _ Hp Hf) as [Hf1 Hn].
  destruct (IH _ _ Hrun Hf1) as [Hf' Hn']. rewrite <- app_assoc in Hf'. split; [done|congruence].
Qed.
Lemma publish_block_feeds b evs svc log u svc' :
  publish_block_notifications b evs svc = (Ok u, svc') → feeds svc log →
  feeds svc' (log ++ block_notifications b evs) ∧ svc_node svc' = svc_node svc.
Proof.
  unfold publish_block_notifications. intros Hrun Hf. unfold bind in Hrun.
  destruct (publish_subscription_event _ _ svc) as [[] svc1] eqn:Hp; try done.
  destruct (publish_feeds (NotifyBlock b) _ _ _ _ Hp Hf) as [Hf1 Hn1].
  destruct (forM _ (blk_receipts b) svc1) as [[] svc2] eqn:Hr; try done.
  destruct (forM_publish_feeds NotifyReceipt TopicReceipts _ _ _ _ _ ltac:(done) Hr Hf1) as [Hf2 Hn2].
  destruct (forM_publish_feeds NotifyEvent TopicEvents _ _ _ _ _ ltac:(done) Hrun Hf2) as [Hf3 Hn3].
  rewrite <- !app_assoc in Hf3. split; [done|congruence].
Qed.

(** Publishing does not fail: it can only exhaust the counter. *)
Definition never_errs {S E A} (m : SE S E A) : Prop := ∀ s e s', m s ≠ (Err e, s').
Lemma never_errs_bind {S E A B} (m : SE S E A) (k : A → SE S E B) :
  never_errs m → (∀ a, never_errs (k a)) → never_errs (bind m k).
Proof. intros Hm Hk s e s'. unfold bind. specialize (Hm s). destruct (m s) as [[] ?]; naive_solver. Qed.
Lemma never_errs_forM {S E A} (f : A → SE S E ()) l : (∀ a, never_errs (f a)) → never_errs (forM f l).
Proof. intros Hf. induction l as [|a l IH]; [done|]. by apply never_errs_bind. Qed.
Lemma never_errs_publish t n : never_errs (publish_subscription_event t n).
Proof. intros s e s'. unfold publish_subscription_event. by destruct (succ_u64 _). Qed.
Lemma never_errs_publish_block b evs : never_errs (publish_block_notifications b evs).
Proof.
  apply never_errs_bind; [apply never_errs_publish|]. intros _.
  apply never_errs_bind; [|intros _]; apply never_errs_forM; intros; apply never_errs_publish.
Qed.

Section stream.
Context `{Host, Wire, !Serialize TransactionSigningPayload, !Serialize (list TraceOp)}.
Context (debug_parse_error : ParseError → string) (model_file : string → list byte).
Local Abbreviation handle := (handle_request debug_parse_error model_file).

Lemma set_node_feeds node svc log : feeds svc log → feeds (set_node node svc) log.
Proof. by intros []. Qed.
Lemma on_node_Ok {E A} (m : SE ValidatorNode E A) wrap svc a svc' :
  on_node m wrap svc = (Ok a, svc') → ∃ node, m (svc_node svc) = (Ok a, node) ∧ svc' = set_node node svc.
Proof. unfold on_node. destruct (m _) as [[] node]; intros Ho; try done. injection Ho as -> <-. by exists node. Qed.
Lemma on_node_feeds {E A} (m : SE ValidatorNode E A) wrap svc o svc' log :
  on_node m wrap svc = (o, svc') → feeds svc log → feeds svc' log.
Proof. unfold on_node. destruct (m _) as [o' node]. intros [= _ <-]. apply set_node_feeds. Qed.

(** What a request announces: the block it committed, with its receipts and
    the events the state gained. *)
Definition announced (request : RpcRequest) (response : RpcResponse) (before after : DeTTaState)
    : list SubscriptionNotification :=
  let gained := drop (length (events before)) (events after) in
  match request, response with
  | ReqProduceBlock _ _, RpcOk (ResBlock block) => block_notifications block gained
  | ReqImportBlock block, RpcOk _ => block_notifications block gained
  | _, _ => []
  end.
Lemma announce_feeds b start svc log o svc' :
  announce_block start b svc = (o, svc') → feeds svc log →
  match o with
  | Ok _ => feeds svc' (log ++ block_notifications b (drop start (events (svc_state svc'))))
  | Err _ => False
  | _ => True
  end.
Proof.
  unfold announce_block, bind at 1, events_from. destruct (_ <=? _)%nat; [|by intros [= <- <-]].
  intros Hrun Hf. destruct o as [u|e| |]; try done.
  - destruct (publish_block_feeds _ _ _ _ _ _ Hrun Hf) as [Hf' Hn]. unfold svc_state in *. by rewrite Hn.
  - exfalso. revert Hrun. apply never_errs_publish_block.
Qed.
Lemma produce_feeds h t svc log o svc' :
  rpc_produce_block h t svc = (o, svc') → feeds svc log →
  match o with
  | Ok b => feeds svc' (log ++ block_notifications b (drop (length (events (svc_state svc))) (events (svc_state svc'))))
  | Err _ => feeds svc' log
  | _ => True
  end.
Proof.
  unfold rpc_produce_block, bind, gets. intros Hrun Hf.
  destruct (on_node (propose_pending_block h t) _ svc) as [o1 svc1] eqn:H1.
  pose proof (on_node_feeds _ _ _ _ _ _ H1 Hf) as Hf1.
  destruct o1 as [b| | |]; [|by injection Hrun as <- <-..].
  destruct (on_node (validate_and_apply b) _ svc1) as [o2 svc2] eqn:H2.
  pose proof (on_node_feeds _ _ _ _ _ _ H2 Hf1) as Hf2.
  destruct o2 as [[]| | |]; [|by injection Hrun as <- <-..].
  destruct (announce_block _ b svc2) as [o3 svc3] eqn:H3.
  pose proof (announce_feeds _ _ _ _ _ _ H3 Hf2) as Hf3.
  destruct o3 as [[]| | |]; injection Hrun as <- <-; done.
Qed.
Lemma import_feeds b svc log o svc' :
  rpc_import_block b svc = (o, svc') → feeds svc log →
  match o with
  | Ok _ => feeds svc' (log ++ block_notifications b (drop (length (events (svc_state svc))) (events (svc_state svc'))))
  | Err _ => feeds svc' log
  | _ => True
  end.
Proof.
  unfold rpc_import_block, bind, gets. intros Hrun Hf.
  destruct (on_node (validate_and_apply b) _ svc) as [o2 svc2] eqn:H2.
  pose proof (on_node_feeds _ _ _ _ _ _ H2 Hf) as Hf2.
  destruct o2 as [[]| | |]; [|by injection Hrun as <- <-..].
  pose proof (announce_feeds _ _ _ _ _ _ Hrun Hf2) as Hf3. by destruct o.
Qed.

Lemma map_result_split {A} (m : RM A) f svc o svc' :
  map_result m f svc = (o, svc') →
  ∃ o1, m svc = (o1, svc') ∧
    o = match o1 with Ok a => Ok (f a) | Err e => Err e | Panic => Panic | OutOfFuel => OutOfFuel end.
Proof. unfold map_result, bind. destruct (m svc) as [[] s1]; intros [= <- <-]; eauto. Qed.

(** C12. The retained feed is a window on the full log: whatever a request
    does, the service holds the last 10,000 notifications, numbered
    consecutively from one; a committed block appends exactly the block, its
    receipts in order and the events the state gained, and every other
    request, failed ones included, appends nothing. *)
Theorem feed_is_log_window request svc log response svc' :
  feeds svc log → handle request svc = (Ok response, svc') →
  feeds svc' (log ++ announced request response (svc_state svc) (svc_state svc')).
Proof.
  intros Hf. unfold handle_request. destruct (dispatch _ _ request svc) as [o svc1] eqn:Hd.
  intros [= Hr ->]. destruct request; cbn [dispatch announced] in *;
    try (injection Hd as _ <-; by rewrite app_nil_r).
  - rewrite app_nil_r. apply map_result_split in Hd as (o1 & Hd & _). by eapply on_node_feeds.
  - rewrite app_nil_r. destruct (into_authorized_transaction _ _); [|by injection Hd as _ <-..].
    apply map_result_split in Hd as (o1 & Hd & _). by eapply on_node_feeds.
  - apply map_result_split in Hd as (o1 & Hd & ->). pose proof (produce_feeds _ _ _ _ _ _ Hd Hf) as Hp.
    destruct o1; try done; injection Hr as <-; cbn [into_response]; by rewrite ?app_nil_r.
  - apply map_result_split in Hd as (o1 & Hd & ->). pose proof (import_feeds _ _ _ _ _ Hd Hf) as Hp.
    destruct o1; try done; injection Hr as <-; cbn [into_response]; by rewrite ?app_nil_r.
  - rewrite app_nil_r. apply map_result_split in Hd as (o1 & Hd & _). unfold subscribe in Hd.
    destruct (succ_u64 _); injection Hd as _ <-; [|done..]. by destruct Hf.
Qed.

(** ** Polling *)
Definition wanted (topics : list SubscriptionTopic) (from : N) (events : list SubscriptionEvent)
    : list SubscriptionEvent :=
  filter (λ e, from ≤ sev_sequence e ∧ sev_topic e ∈ topics) events.
Lemma page_events_spec topics n evs :
  ∃ rest, filter (λ e, sev_topic e ∈ topics) evs = page_events topics n evs ++ rest ∧
    (length (page_events topics n evs) ≤ n)%nat ∧ (page_events topics n evs = [] → (0 < n)%nat → rest = []).
Proof.
  revert n. induction evs as [|e evs IH]; intros n; [exists []; destruct n; simpl; split_and!; (done || lia)|].
  rewrite filter_cons. destruct n as [|n]; [eexists; simpl; split_and!; [done|lia|lia]|].
  simpl page_events. case_decide.
  - destruct (IH n) as (rest & -> & Hl & _). exists rest. simpl. split_and!; [done|lia|done].
  - apply (IH (S n)).
Qed.
End stream.

Section polling.
Context (svc : RpcService) (log : list SubscriptionNotification) (subscription_id : string)
  (topics : list SubscriptionTopic) (limit : nat).
Hypothesis Hfeeds : feeds svc log.
Hypothesis Hsub : svc_subscriptions svc !! subscription_id = Some topics.
Hypothesis Hlimit : (0 < limit)%nat.
Local Abbreviation retained := (svc_subscription_events svc).

Lemma filter_all {A} (P : A → Prop) `{∀ x, Decision (P x)} l : Forall P l → filter P l = l.
Proof. induction 1 as [|x l Hx _ IH]; [done|]. rewrite filter_cons, decide_True by done. by rewrite IH. Qed.
Lemma filter_none {A} (P : A → Prop) `{∀ x, Decision (P x)} l : Forall (λ x, ¬ P x) l → filter P l = [].
Proof. induction 1 as [|x l Hx _ IH]; [done|]. by rewrite filter_cons, decide_False by done. Qed.
Definition seq_lt (x y : SubscriptionEvent) : Prop := sev_sequence x < sev_sequence y.
Lemma numbered_sorted first l : StronglySorted seq_lt (numbered_from first l).
Proof.
  revert first. induction l as [|n l IH]; intros first; [constructor|]. unfold numbered_from.
  rewrite imap_cons. constructor.
  - erewrite imap_ext; [apply (IH (first + 1))|]. intros i x _. simpl. f_equal. lia.
  - apply Forall_lookup. intros i x Hx. apply list_lookup_imap_Some in Hx as (y & _ & ->).
    unfold seq_lt. simpl. lia.
Qed.
Lemma StronglySorted_drop {A} (R : relation A) n l : StronglySorted R l → StronglySorted R (drop n l).
Proof. intros Hs. revert n. induction Hs as [|x l Hs IH Hx]; intros [|n]; simpl; try constructor; eauto. Qed.
Lemma retained_sorted : StronglySorted seq_lt retained.
Proof. rewrite (feed_window _ _ Hfeeds). apply StronglySorted_drop, numbered_sorted. Qed.
Lemma numbered_lookup i e : numbered log !! i = Some e → sev_sequence e = N.of_nat i + 1 ∧ (i < length log)%nat.
Proof.
  intros Hi. pose proof (lookup_lt_Some _ _ _ Hi) as Hl. rewrite length_numbered in Hl.
  apply list_lookup_imap_Some in Hi as (y & _ & ->). simpl. lia.
Qed.
Lemma retained_bound e : e ∈ retained → sev_sequence e < u64_max ∧ sev_sequence e < svc_next_subscription_sequence svc.
Proof.
  rewrite (feed_window _ _ Hfeeds), (feed_next _ _ Hfeeds). pose proof (feed_fits _ _ Hfeeds).
  intros Hin. apply list_elem_of_lookup in Hin as [i Hi]. rewrite lookup_drop in Hi.
  apply numbered_lookup in Hi as [-> ?]. lia.
Qed.
(** After a page, what is left starts at the page's [next_sequence]. *)
Lemma wanted_split from page rest e l :
  StronglySorted seq_lt l → wanted topics from l = page ++ rest → last page = Some e →
  rest = wanted topics (sev_sequence e + 1) l ∧ from ≤ sev_sequence e.
Proof.
  intros Hs Hw Hlast. apply last_Some in Hlast as [page' ->].
  assert (Hws : StronglySorted seq_lt (wanted topics from l)).
  { unfold wanted. clear -Hs. induction Hs as [|x l Hs IH Hx]; [constructor|]. rewrite filter_cons.
    case_decide; [|done]. constructor; [done|]. rewrite Forall_forall in *. intros y [_ Hy]%list_elem_of_filter. auto. }
  assert (He : from ≤ sev_sequence e).
  { assert (e ∈ wanted topics from l) as Hin by (rewrite Hw; set_solver). by apply list_elem_of_filter in Hin as [[? _] _]. }
  split; [|done]. rewrite Hw in Hws.
  assert (wanted topics (sev_sequence e + 1) l = filter (λ x, sev_sequence e + 1 ≤ sev_sequence x) (wanted topics from l)) as ->.
  { unfold wanted. rewrite list_filter_filter. apply list_filter_iff. intros x. split; [|tauto]. intros []; split; [done|]. split; [lia|done]. }
  rewrite Hw, filter_app, filter_none, filter_all; [done| |].
  - rewrite <- app_assoc in Hws. apply StronglySorted_app_1_r in Hws. apply StronglySorted_inv in Hws as [_ Hx].
    eapply Forall_impl; [exact Hx|]. unfold seq_lt. simpl. lia.
  - apply StronglySorted_app_1_l in Hws. clear -Hws. apply Forall_app. split; [|constructor; [lia|constructor]].
    induction page' as [|x page' IH]; [constructor|]. simpl in Hws. apply StronglySorted_inv in Hws as [Hws Hx].
    constructor; [|by apply IH]. rewrite Forall_app, Forall_singleton in Hx. destruct Hx as [_ Hx]. unfold seq_lt in Hx. lia.
Qed.
Local Abbreviation earliest := (earliest_retained_subscription_sequence svc).
Lemma page_spec from :
  ∃ page, get_subscription_events svc subscription_id from limit = Ok page ∧
    wanted topics (N.max from earliest) retained
      = sep_events page ++ wanted topics (sep_next_sequence page) retained ∧
    (sep_events page = [] → wanted topics (N.max from earliest) retained = []) ∧
    (sep_events page ≠ [] → N.max from earliest < sep_next_sequence page).
Proof.
  unfold get_subscription_events. rewrite Hsub. cbn [ok_or outcome_bind]. cbv zeta.
  set (n := Nat.min limit DEFAULT_MAX_SUBSCRIPTION_EVENT_PAGE_SIZE).
  assert (Hn : (0 < n)%nat) by (unfold n, DEFAULT_MAX_SUBSCRIPTION_EVENT_PAGE_SIZE; lia).
  set (f := N.max from earliest). set (evs := filter (λ e, f ≤ sev_sequence e) retained).
  destruct (page_events_spec topics n evs) as (rest & Hsplit & _ & Hnil).
  assert (Hw : wanted topics f retained = page_events topics n evs ++ rest).
  { rewrite <- Hsplit. unfold wanted, evs. rewrite list_filter_filter. apply list_filter_iff. intros x. tauto. }
  destruct (last (page_events topics n evs)) as [e|] eqn:Hlast.
  - destruct (wanted_split f _ _ _ _ retained_sorted Hw Hlast) as [Hrest Hf].
    assert (He : e ∈ retained).
    { apply last_Some in Hlast as [p Hp]. assert (e ∈ wanted topics f retained) as Hin by (rewrite Hw, Hp; set_solver).
      by apply list_elem_of_filter in Hin as [_ ?]. }
    unfold succ_u64. rewrite (proj2 (N.ltb_lt _ _)) by (apply retained_bound; done). cbn [outcome_bind].
    eexists. split; [reflexivity|]. cbn [sep_events sep_next_sequence]. rewrite Hw, Hrest. split_and!; [done| |lia].
    intros Hp. by rewrite Hp in Hlast.
  - apply last_None in Hlast. rewrite Hlast in *. rewrite (Hnil eq_refl Hn) in Hw. cbn [outcome_bind].
    eexists. split; [reflexivity|]. cbn [sep_events sep_next_sequence]. split_and!; [|done..].
    rewrite Hw. symmetry. apply filter_none. apply Forall_forall. intros x Hx [Hle _].
    apply retained_bound in Hx. lia.
Qed.

(** A client that polls until it gets an empty page. *)
Fixpoint poll_all (fuel : nat) (from : N) : outcome RpcError (list SubscriptionEvent) :=
  match fuel with
  | O => OutOfFuel
  | S fuel =>
      let* page := get_subscription_events svc subscription_id from limit in
      match sep_events page with
      | [] => Ok []
      | events => let* rest := poll_all fuel (sep_next_sequence page) in Ok (events ++ rest)
      end
  end.
Lemma wanted_above from : earliest ≤ from → N.max from earliest = from.
Proof. lia. Qed.
Lemma poll_all_spec fuel from :
  earliest ≤ from → (length (wanted topics from retained) < fuel)%nat →
  poll_all fuel from = Ok (wanted topics from retained).
Proof.
  revert from. induction fuel as [|fuel IH]; intros from He Hfuel; [lia|]. cbn [poll_all].
  destruct (page_spec from) as (page & -> & Hw & Hnil & Hpos). rewrite wanted_above in * by done. cbn [outcome_bind].
  destruct (sep_events page) as [|e evs] eqn:Hp; [by rewrite Hnil|].
  rewrite IH; [by rewrite Hw| |].
  - etrans; [exact He|]. specialize (Hpos ltac:(done)). lia.
  - rewrite Hw in Hfuel. rewrite length_app in Hfuel. cbn [length] in Hfuel. lia.
Qed.
Lemma wanted_window from : earliest ≤ from → wanted topics from retained = wanted topics from (numbered log).
Proof.
  intros He. unfold earliest_retained_subscription_sequence in He. rewrite (feed_window _ _ Hfeeds) in *.
  rewrite <- (take_drop (forgotten log) (numbered log)) at 2. unfold wanted. rewrite filter_app.
  rewrite (filter_none _ (take _ _)); [done|]. apply Forall_lookup. intros i x Hi [Hx _].
  apply lookup_take_Some in Hi as [Hi Hlt]. apply numbered_lookup in Hi as [Hi Hlen].
  destruct (drop (forgotten log) (numbered log)) as [|e l] eqn:Hd.
  - rewrite (feed_next _ _ Hfeeds) in He. lia.
  - assert (numbered log !! forgotten log = Some e) as Hf.
    { rewrite <- (Nat.add_0_r (forgotten log)), <- lookup_drop. by rewrite Hd. }
    apply numbered_lookup in Hf as [Hf _]. lia.
Qed.

(** C13. Polling misses nothing: a client that starts at or after the
    earliest retained number and asks for the next page until one is empty
    receives, in order and exactly once, every notification of the log from
    there on whose topic it subscribed to, whatever its positive page size. *)
Theorem polling_complete from :
  earliest ≤ from →
  poll_all (S (length retained)) from = Ok (wanted topics from (numbered log)).
Proof.
  intros He. rewrite <- wanted_window by done. apply poll_all_spec; [done|].
  unfold wanted. pose proof (length_filter (λ e, from ≤ sev_sequence e ∧ sev_topic e ∈ topics) retained). lia.
Qed.
End polling.

(** With a limit of zero the reply has no events and points past all of
    them: a client that follows its [next_sequence] skips what is retained. *)
Lemma zero_limit_skips svc subscription_id topics from :
  svc_subscriptions svc !! subscription_id = Some topics →
  ∃ page, get_subscription_events svc subscription_id from 0 = Ok page ∧ sep_events page = [] ∧
    sep_next_sequence page = svc_next_subscription_sequence svc.
Proof.
  intros Hs. unfold get_subscription_events. rewrite Hs. cbn [ok_or outcome_bind]. cbv zeta.
  assert (Hnil : ∀ evs, page_events topics 0 evs = []) by (by intros []).
  cbn [Nat.min]. rewrite Hnil. by eexists.
Qed.

(** ** Signed submission *)
Section submission.
Context `{Host, Wire, !Serialize TransactionSigningPayload, !Serialize (list TraceOp)}.
Context (debug_parse_error : ParseError → string) (model_file : string → list byte).

Lemma to_lower_hex n : n < 16 → to_lower (hex_digit n) = hex_digit n.
Proof.
  intros Hn. assert (n = 0 ∨ n = 1 ∨ n = 2 ∨ n = 3 ∨ n = 4 ∨ n = 5 ∨ n = 6 ∨ n = 7 ∨ n = 8 ∨ n = 9 ∨
    n = 10 ∨ n = 11 ∨ n = 12 ∨ n = 13 ∨ n = 14 ∨ n = 15) as Hc by lia.
  repeat destruct Hc as [->|Hc]; [reflexivity..|]. subst. reflexivity.
Qed.
Lemma lowercase_hex_lower bs : to_ascii_lowercase (hex_lower bs) = hex_lower bs.
Proof.
  induction bs as [|b bs IH]; [done|]. cbn [hex_lower to_ascii_lowercase]. rewrite IH.
  pose proof (Byte.to_N_bounded b). rewrite !to_lower_hex; [done| |].
  - change 15 with (N.ones 4). rewrite N.land_ones. apply N.mod_lt. done.
  - rewrite N.shiftr_div_pow2. change (2 ^ 4) with 16. apply N.Div0.div_lt_upper_bound. lia.
Qed.
Lemma signing_payload_flag b tx : signing_payload (set_signature_ok b tx) = signing_payload tx.
Proof. done. Qed.

(** What an honest client signs is accepted: a transaction signed with
    any key verifies, and is authorized in every state where the public key
    is an active signer of the sender's account; nothing of it changes but
    its [signature_ok] flag, which the node sets itself. *)
Theorem signed_transaction_authorized `{!WireLaws} tx key state :
  has_active_account_key state (tx_sender tx) (hex_lower (verifying_key key)) = true →
  verify_client (sign_with_seed tx key) = true ∧
  into_authorized_transaction (sign_with_seed tx key) state = Ok (set_signature_ok true tx).
Proof.
  intros Hk. assert (Hv : verify_client (sign_with_seed tx key) = true).
  { unfold verify_client, sign_with_seed. cbn [sct_public_key_hex sct_signature_hex sct_transaction].
    rewrite !lowercase_hex_lower, !bool_decide_eq_false_2 by (intros []; done). cbn [orb].
    rewrite !decode_hex_lower by (apply verifying_key_length || apply signature_length).
    by rewrite verifying_key_valid, signature_verifies. }
  split; [done|]. unfold into_authorized_transaction. rewrite Hv. cbn [ensure outcome_bind].
  cbn [sign_with_seed sct_transaction sct_public_key_hex set_signature_ok tx_sender]. by rewrite Hk.
Qed.

(** C11. A signed submission is authentic: when the node answers that it
    accepted one, the public key is an active signer of the sender's account,
    the signature verifies under that key over every field of the
    transaction, and the pool gained exactly that transaction, marked as
    signed, and its hash; the service is otherwise the one before, its state,
    blocks, committed transactions, receipts, subscriptions, feed and limits
    included. *)
Theorem signed_submission_authentic signed svc svc' :
  handle_request debug_parse_error model_file (ReqSubmitSignedTransaction signed) svc
    = (Ok (RpcOk ResSubmitted), svc') →
  let tx := sct_transaction signed in
  let pool := vn_mempool (svc_node svc) in
  has_active_account_key (svc_state svc) (tx_sender tx) (sct_public_key_hex signed) = true ∧
  (∃ public_key signature, decode_hex_array 32 (sct_public_key_hex signed) = Some public_key ∧
    decode_hex_array 64 (sct_signature_hex signed) = Some signature ∧
    verify_signature public_key (signing_payload tx) signature = true) ∧
  svc' = set_node (set_mempool
    {| mem_pending := mem_pending pool ++ [set_signature_ok true tx];
       mem_tx_hashes := {[tx_tx_hash tx]} ∪ mem_tx_hashes pool; mem_policy := mem_policy pool |}
    (svc_node svc)) svc.
Proof.
  unfold handle_request. cbn [dispatch].
  destruct (into_authorized_transaction signed (svc_state svc)) as [tx| | |] eqn:Ha; [|done..].
  unfold into_authorized_transaction in Ha. simplify_ok. subst tx. intros Hrun. cbv zeta. split; [done|].
  destruct (map_result _ _ svc) as [o svc1] eqn:Hm. injection Hrun as Hr ->.
  apply map_result_split in Hm as (o1 & Hm & ->). destruct o1 as [u| | |]; try done.
  apply on_node_Ok in Hm as (node & Hs & ->). unfold submit_transaction in Hs.
  destruct (submit _ _ _) as [o m] eqn:Hsub. injection Hs as -> <-.
  apply submit_Ok in Hsub as (_&_&_&_&_&_&_&_&->). split; [|done].
  unfold verify_client in *. destruct (_ || _); [done|].
  destruct (decode_hex_array 32 _); [|done]. destruct (decode_hex_array 64 _); [|done].
  simplify_ok. eauto.
Qed.
(** An unsigned submission is accepted on the client's own word: whoever sets
    [signature_ok] in the request needs no key. *)
Lemma unsigned_submission_trusts_client tx svc svc' :
  handle_request debug_parse_error model_file (ReqSubmitTransaction tx) svc = (Ok (RpcOk ResSubmitted), svc') ↔
  ∃ m, submit (svc_state svc) tx (vn_mempool (svc_node svc)) = (Ok (), m) ∧
    svc' = set_node (set_mempool m (svc_node svc)) svc.
Proof.
  unfold handle_request. cbn [dispatch]. unfold map_result, rpc_submit_transaction, on_node, bind, submit_transaction, svc_state.
  destruct (submit _ _ _) as [[[]| | |] m]; cbn; split; try done; try naive_solver.
Qed.
End submission.
