(* ===== verification/RpcTransport.v ===== *)
(** * RpcTransport: serving requests over a connection

    The transport of crates/detta-rpc/src/lib.rs: the [JsonRpcHandler] trait
    and its instances (the service, the authenticated and the rate-limited
    operator handlers), newline-delimited and HTTP connections, and the
    parsing of HTTP request heads.  A connection is the bytes its peer sends
    and the bytes written back; sockets that fail are not modelled.
    serde_json at the request and response types is the class [RpcJson]. *)
From S2P Require Import Prelude Effects Merkle Types State AspectRuntime AspectSource Decimal.
From S2P Require Import Block Consensus Protocol Storage Verify Evaluator Release RpcTypes Rpc.

Inductive RpcTransportError := TransportIo | TransportEncode | RequestTooLarge (max_bytes : N).
Record AuthenticatedRpcRequest := { arr_bearer_token : string; arr_request : RpcRequest }.

(** [serde_json::from_slice], its error text, and [serde_json::to_vec];
    [json_value] tells whether a buffer is a JSON value at all. *)
Class RpcJson := {
  request_of_json : list byte → RpcRequest + string;
  authenticated_of_json : list byte → AuthenticatedRpcRequest + string;
  json_value : list byte → bool;
  json_of_request : RpcRequest → option (list byte);
  json_of_response : RpcResponse → option (list byte);
}.

(** ** Handlers *)
Class JsonRpcHandler (Handler : Type) :=
  handle_json_request : list byte → SE Handler RpcTransportError (list byte).
Record Authenticated (Handler : Type) := { auth_inner : Handler; auth_bearer_token : string }.
Arguments auth_inner {Handler}.
Arguments auth_bearer_token {Handler}.
Record RateLimited (Handler : Type) := {
  rate_inner : Handler; rate_max_requests : nat; rate_served_requests : nat;
}.
Arguments rate_inner {Handler}.
Arguments rate_max_requests {Handler}.
Arguments rate_served_requests {Handler}.
Definition rate_limited_new {Handler} (inner : Handler) (max_requests : nat) : RateLimited Handler :=
  {| rate_inner := inner; rate_max_requests := max_requests; rate_served_requests := 0 |}.
Section handlers.
Context `{RpcJson}.
Definition rpc_error_response_bytes (code message : string) : outcome RpcTransportError (list byte) :=
  ok_or (json_of_response (RpcErr {| reb_code := code; reb_message := message |})) TransportEncode.
Definition json_rpc_response_for_request {S} (request : list byte)
    (handle : RpcRequest → SE S Empty_set RpcResponse) : SE S RpcTransportError (list byte) :=
  let! response := match request_of_json request with
    | inl request => λ s, let '(o, s) := handle request s in (from_void o, s)
    | inr error => ret (RpcErr {| reb_code := "rpc.decode_error"; reb_message := error |})
    end in
  lift (ok_or (json_of_response response) TransportEncode).

(** The handler of an operator endpoint: a bearer token guards the inner one. *)
Definition authentication_required : outcome RpcTransportError (list byte) :=
  rpc_error_response_bytes "rpc.authentication_required" "operator endpoint requires a valid bearer token".
#[export] Instance authenticated_handler `{JsonRpcHandler Handler} : JsonRpcHandler (Authenticated Handler) :=
  λ request h,
  match authenticated_of_json request with
  | inr error =>
      (if json_value request then authentication_required
       else rpc_error_response_bytes "rpc.decode_error" error, h)
  | inl envelope =>
      if bool_decide (arr_bearer_token envelope ≠ auth_bearer_token h) then (authentication_required, h) else
      match json_of_request (arr_request envelope) with
      | None => (Err TransportEncode, h)
      | Some inner_request =>
          let '(o, inner) := handle_json_request inner_request (auth_inner h) in
          (o, {| auth_inner := inner; auth_bearer_token := auth_bearer_token h |})
      end
  end.
(** The handler that serves a bounded number of requests. *)
#[export] Instance rate_limited_handler `{JsonRpcHandler Handler} : JsonRpcHandler (RateLimited Handler) :=
  λ request h,
  if (rate_max_requests h <=? rate_served_requests h)%nat then
    (rpc_error_response_bytes "rpc.rate_limited" "operator endpoint request limit exceeded", h)
  else
    let '(o, inner) := handle_json_request request (rate_inner h) in
    (o, {| rate_inner := inner; rate_max_requests := rate_max_requests h;
           rate_served_requests := S (rate_served_requests h) |}).
End handlers.

(** The plain service. *)
Definition service_handler `{RpcJson, Host, Wire, !Serialize TransactionSigningPayload, !Serialize (list TraceOp)}
    (debug_parse_error : ParseError → string) (model_file : string → list byte) : JsonRpcHandler RpcService :=
  λ request, json_rpc_response_for_request request (handle_request debug_parse_error model_file).

(** ** Newline-delimited connections *)
Fixpoint read_line (max_request_bytes : nat) (line input : list byte)
    : outcome RpcTransportError (option (list byte) * list byte) :=
  match input with
  | [] => Ok (match line with [] => None | _ => Some line end, [])
  | byte :: input =>
      let line := line ++ [byte] in
      if (max_request_bytes <? length line)%nat then Err (RequestTooLarge (N.of_nat max_request_bytes))
      else if decide (byte = x0a) then Ok (Some line, input)
      else read_line max_request_bytes line input
  end.
Definition read_bounded_json_line (input : list byte) (max_request_bytes : nat)
    : outcome RpcTransportError (option (list byte) * list byte) :=
  read_line max_request_bytes [] input.
Section connection.
Context `{RpcJson, JsonRpcHandler Handler}.
(** The state is the handler and the bytes written. *)
Abbreviation Conn := (SE (Handler * list byte) RpcTransportError).
Definition with_handler {A} (m : SE Handler RpcTransportError A) : Conn A := λ '(h, out),
  let '(o, h) := m h in (o, (h, out)).
Definition write_all (bytes : list byte) : Conn () := modify (λ '(h, out), (h, out ++ bytes)).
(** Each turn reads at least one byte: the length of the input bounds them. *)
Fixpoint serve_lines (fuel : nat) (max_request_bytes : nat) (input : list byte) : Conn () :=
  match fuel with
  | O => out_of_fuel
  | S fuel =>
      let? '(request, input) := read_bounded_json_line input max_request_bytes in
      match request with
      | None => ret ()
      | Some request =>
          let! response := with_handler (handle_json_request request) in
          do! write_all response in
          do! write_all [x0a] in
          serve_lines fuel max_request_bytes input
      end
  end.
Definition serve_json_rpc_handler_connection (max_request_bytes : nat) (input : list byte) : Conn () :=
  serve_lines (S (length input)) max_request_bytes input.
End connection.

(** ** Text

    [String::from_utf8_lossy]: the length of the first character, or of the
    invalid bytes one replacement character stands for. *)
Definition within (low high : N) (b : option byte) : bool :=
  match b with Some b => (low <=? Byte.to_N b) && (Byte.to_N b <=? high) | None => false end.
Definition utf8_step (bytes : list byte) : nat * bool :=
  match bytes with
  | [] => (1%nat, false)
  | first :: rest =>
      let n := Byte.to_N first in
      let continues i := within 128 191 (rest !! i) in
      if n <? 128 then (1%nat, true)
      else if (194 <=? n) && (n <=? 223) then
        if continues 0%nat then (2%nat, true) else (1%nat, false)
      else if (224 <=? n) && (n <=? 239) then
        if negb (within (if n =? 224 then 160 else 128) (if n =? 237 then 159 else 191) (rest !! 0%nat))
        then (1%nat, false) else if continues 1%nat then (3%nat, true) else (2%nat, false)
      else if (240 <=? n) && (n <=? 244) then
        if negb (within (if n =? 240 then 144 else 128) (if n =? 244 then 143 else 191) (rest !! 0%nat))
        then (1%nat, false) else if negb (continues 1%nat) then (2%nat, false)
        else if continues 2%nat then (4%nat, true) else (3%nat, false)
      else (1%nat, false)
  end.
Definition replacement : string := String.string_of_list_byte [xef; xbf; xbd].
(** [pending] bytes of the current character or invalid run are left. *)
Fixpoint lossy (pending : nat) (valid : bool) (bytes : list byte) : string :=
  match bytes with
  | [] => ""
  | b :: rest =>
      match pending with
      | S pending =>
          if valid then String (ascii_of_byte b) (lossy pending valid rest) else lossy pending valid rest
      | O =>
          let '(n, valid) := utf8_step bytes in
          if valid then String (ascii_of_byte b) (lossy (n - 1) true rest)
          else replacement +:+ lossy (n - 1) false rest
      end
  end.
Definition from_utf8_lossy (bytes : list byte) : string := lossy 0 true bytes.

(** [split_once("\r\n")], [split("\r\n")], [split_once(':')] and
    [split_whitespace]. *)
Fixpoint split_once_crlf (head s : string) : option (string * string) :=
  match s with
  | "" => None
  | String "013" (String "010" rest) => Some (head, rest)
  | String c rest => split_once_crlf (head +:+ String c "") rest
  end.
Fixpoint split_crlf (head s : string) : list string :=
  match s with
  | "" => [head]
  | String "013" (String "010" rest) => head :: split_crlf "" rest
  | String c rest => split_crlf (head +:+ String c "") rest
  end.
Fixpoint split_once_colon (head s : string) : option (string * string) :=
  match s with
  | "" => None
  | String c rest =>
      if decide (c = ":"%char) then Some (head, rest) else split_once_colon (head +:+ String c "") rest
  end.
Definition push_word (word : string) : list string := if bool_decide (word = "") then [] else [word].
Fixpoint split_whitespace (word : string) (skip : nat) (s : string) : list string :=
  match s, skip with
  | "", _ => push_word word
  | String _ rest, S skip => split_whitespace word skip rest
  | String c rest, O =>
      match whitespace_len s with
      | S k => push_word word ++ split_whitespace "" k rest
      | O => split_whitespace (word +:+ String c "") 0 rest
      end
  end.

(** ** HTTP *)
Inductive HttpRejection := http_rejection (status_code : N) (reason code message : string).
Definition malformed (message : string) : HttpRejection :=
  http_rejection 400 "Bad Request" "rpc.http_bad_request" message.
Definition header_line (content_length : option N) (line : string) : outcome HttpRejection (option N) :=
  let* field := ok_or (split_once_colon "" line) (malformed "malformed HTTP header") in
  if bool_decide (to_ascii_lowercase (trim field.1) = "content-length") then
    let* parsed := ok_or (parse_u64 (trim field.2)) (malformed "invalid Content-Length") in
    do* ensure (match content_length with Some existing => existing =? parsed | None => true end)
      (malformed "conflicting Content-Length") in
    Ok (Some parsed)
  else Ok content_length.
Fixpoint header_fields (content_length : option N) (lines : list string)
    : outcome HttpRejection (option N) :=
  match lines with
  | [] => Ok content_length
  | line :: lines =>
      let* content_length := header_line content_length line in header_fields content_length lines
  end.
Definition nth_word (words : list string) (i : nat) : string := default "" (words !! i).
Definition parse_http_json_rpc_request_head (headers : list byte) (max_request_bytes : N)
    : outcome HttpRejection N :=
  let header_text := from_utf8_lossy headers in
  let* parts := ok_or (split_once_crlf "" header_text) (malformed "malformed HTTP request") in
  let request_parts := split_whitespace "" 0 parts.1 in
  do* ensure ((length request_parts <=? 3)%nat && String.prefix "HTTP/1." (nth_word request_parts 2))
    (malformed "malformed HTTP request") in
  do* ensure (bool_decide (nth_word request_parts 0 = "POST"))
    (http_rejection 405 "Method Not Allowed" "rpc.http_method_not_allowed"
       "JSON RPC HTTP endpoint requires POST") in
  do* ensure (bool_decide (nth_word request_parts 1 = "/") || bool_decide (nth_word request_parts 1 = "/rpc"))
    (http_rejection 404 "Not Found" "rpc.http_not_found" "JSON RPC HTTP endpoint was not found") in
  let lines := filter (λ line, line ≠ "") (split_crlf "" parts.2) in
  let* content_length := header_fields None lines in
  let* content_length := ok_or content_length
    (http_rejection 411 "Length Required" "rpc.http_length_required"
       "JSON RPC HTTP endpoint requires Content-Length") in
  do* ensure (content_length <=? max_request_bytes)
    (http_rejection 413 "Payload Too Large" "rpc.request_too_large"
       "JSON RPC request body exceeded maximum size") in
  Ok content_length.
Definition crlf : string := String "013" (String "010" "").
Definition http_response_bytes (status_code : N) (reason : string) (body : list byte) : list byte :=
  bytes_of_string ("HTTP/1.1 " +:+ pretty status_code +:+ " " +:+ reason +:+ crlf
    +:+ "Content-Type: application/json" +:+ crlf
    +:+ "Content-Length: " +:+ pretty (N.of_nat (length body)) +:+ crlf
    +:+ "Connection: close" +:+ crlf +:+ crlf) ++ body.
(** [ends_with(b"\r\n\r\n")] *)
Definition ends_headers (headers : list byte) : bool :=
  bool_decide (drop (length headers - 4) headers = [x0d; x0a; x0d; x0a]).
Fixpoint read_headers (max_header_bytes : nat) (headers input : list byte)
    : outcome RpcTransportError (list byte * list byte) :=
  match input with
  | [] => Ok (headers, [])
  | byte :: input =>
      let headers := headers ++ [byte] in
      if (max_header_bytes <? length headers)%nat then Err (RequestTooLarge (N.of_nat max_header_bytes))
      else if ends_headers headers then Ok (headers, input)
      else read_headers max_header_bytes headers input
  end.
Definition read_http_headers (input : list byte) (max_header_bytes : nat)
    : outcome RpcTransportError (list byte * list byte) := read_headers max_header_bytes [] input.
Section http.
Context `{RpcJson, JsonRpcHandler Handler}.
(** [expect]s the error body to serialize. *)
Definition http_rpc_error_response (rejection : HttpRejection) : outcome RpcTransportError (list byte) :=
  let 'http_rejection status_code reason code message := rejection in
  match rpc_error_response_bytes code message with
  | Ok body => Ok (http_response_bytes status_code reason body)
  | _ => Panic
  end.
(** What the connection answers; [None] when nothing was sent. *)
Definition serve_http_json_rpc_handler_connection (max_request_bytes : N) (input : list byte)
    : SE Handler RpcTransportError (option (list byte)) :=
  let? '(headers, input) := read_http_headers input (N.to_nat DEFAULT_MAX_HTTP_HEADER_BYTES) in
  if bool_decide (headers = []) then ret None else
  match parse_http_json_rpc_request_head headers max_request_bytes with
  | Ok content_length =>
      let? body := (if (N.to_nat content_length <=? length input)%nat
                    then Ok (take (N.to_nat content_length) input) else Err TransportIo) in
      let! response := handle_json_request body in
      ret (Some (http_response_bytes 200 "OK" response))
  | Err rejection => let? response := http_rpc_error_response rejection in ret (Some response)
  | Panic => lift Panic
  | OutOfFuel => out_of_fuel
  end.
End http.

(** ** Theorems *)

(** The requests of a connection: its input cut after each line feed. *)
Fixpoint split_lines (line input : list byte) : list (list byte) :=
  match input with
  | [] => match line with [] => [] | _ => [line] end
  | byte :: input =>
      if decide (byte = x0a) then (line ++ [byte]) :: split_lines [] input
      else split_lines (line ++ [byte]) input
  end.
Lemma split_lines_head line input l ls :
  split_lines line input = l :: ls → ∃ suffix, l = line ++ suffix.
Proof.
  revert line. induction input as [|b input IH]; intros line; simpl.
  - destruct line; [done|]. intros [= <- <-]. exists []. by rewrite app_nil_r.
  - case_decide; [intros [= <- <-]; by eexists|]. intros [suffix ->]%IH. eexists. by rewrite <- app_assoc.
Qed.
Lemma split_lines_nil line input : split_lines line input = [] → line = [] ∧ input = [].
Proof.
  revert line. induction input as [|b input IH]; intros line; simpl; [by destruct line|].
  case_decide; [done|]. intros [Hl _]%IH. by destruct line.
Qed.
Lemma read_line_spec max line input :
  (length line ≤ max)%nat →
  match split_lines line input with
  | [] => read_line max line input = Ok (None, [])
  | l :: ls =>
      if decide (length l ≤ max)%nat then
        ∃ rest, read_line max line input = Ok (Some l, rest) ∧ split_lines [] rest = ls ∧
          (length rest ≤ length input)%nat ∧ (input ≠ [] → (length rest < length input)%nat)
      else read_line max line input = Err (RequestTooLarge (N.of_nat max))
  end.
Proof.
  revert line. induction input as [|b input IH]; intros line Hl; cbn [split_lines read_line].
  - destruct line; [done|]. rewrite decide_True by done. by exists [].
  - destruct (decide (b = x0a)) as [->|Hb].
    + destruct (Nat.ltb_spec max (length (line ++ [x0a]))).
      * by rewrite decide_False by lia.
      * rewrite decide_True by done. exists input. simpl. split_and!; (done || lia).
    + destruct (Nat.ltb_spec max (length (line ++ [b]))).
      * destruct (split_lines (line ++ [b]) input) as [|l ls] eqn:Hs.
        { apply split_lines_nil in Hs as [Hs _]. by destruct line. }
        apply split_lines_head in Hs as [suffix ->]. rewrite decide_False; [done|]. rewrite length_app. lia.
      * specialize (IH (line ++ [b]) ltac:(lia)). destruct (split_lines (line ++ [b]) input) as [|l ls]; [done|].
        case_decide; [|done]. destruct IH as (rest & ? & ? & ? & _). exists rest. simpl. split_and!; (done || lia).
Qed.

Section connection_theorem.
Context `{RpcJson, JsonRpcHandler Handler}.
(** The reference: the lines one after the other, until one is too long. *)
Fixpoint serve_each (max_request_bytes : nat) (requests : list (list byte))
    : SE (Handler * list byte) RpcTransportError () :=
  match requests with
  | [] => ret ()
  | request :: requests =>
      if decide (length request ≤ max_request_bytes)%nat then
        let! response := with_handler (handle_json_request request) in
        do! write_all (response ++ [x0a]) in
        serve_each max_request_bytes requests
      else throw (RequestTooLarge (N.of_nat max_request_bytes))
  end.
Lemma serve_lines_spec fuel max input s :
  (length input < fuel)%nat →
  serve_lines fuel max input s = serve_each max (split_lines [] input) s.
Proof.
  revert input s. induction fuel as [|fuel IH]; intros input s Hf; [lia|].
  cbn [serve_lines]. pose proof (read_line_spec max [] input ltac:(simpl; lia)) as Hr.
  unfold bind at 1, lift, read_bounded_json_line.
  destruct (split_lines [] input) as [|l ls] eqn:Hsplit; [by rewrite Hr|]. cbn [serve_each].
  destruct (decide _) as [Hle|Hgt]; [|by rewrite Hr].
  destruct Hr as (rest & -> & <- & Hlen & Hlt).
  unfold bind, with_handler. destruct s as [h out]. destruct (handle_json_request l h) as [[r| | |] h']; try done.
  unfold write_all, modify. rewrite <- app_assoc. apply IH.
  destruct input as [|b input]; [done|]. specialize (Hlt ltac:(done)). lia.
Qed.

(** A newline-delimited connection serves its lines: for any input the
    loop behaves, state, output and errors alike, as handling one by one the
    lines of the input, the last one possibly unterminated, until a line
    exceeds the limit; it always ends, and never buffers more than the limit. *)
Theorem connection_serves_lines max_request_bytes input s :
  serve_json_rpc_handler_connection max_request_bytes input s
  = serve_each max_request_bytes (split_lines [] input) s.
Proof. apply serve_lines_spec. lia. Qed.

End connection_theorem.

(** ** Guarded handlers *)
Definition after {S} `{JsonRpcHandler S} (requests : list (list byte)) (s : S) : S :=
  foldl (λ s request, (handle_json_request request s).2) s requests.
Section guards.
Context `{RpcJson, JsonRpcHandler Handler}.
(** The request an authenticated envelope carries. *)
Definition unwrap (token : string) (request : list byte) : option (list byte) :=
  match authenticated_of_json request with
  | inl envelope =>
      if decide (arr_bearer_token envelope = token) then json_of_request (arr_request envelope) else None
  | inr _ => None
  end.
Lemma after_rate_limited `{JsonRpcHandler Inner} requests (h : RateLimited Inner) :
  rate_inner (after requests h)
  = after (take (rate_max_requests h - rate_served_requests h) requests) (rate_inner h).
Proof.
  revert h. induction requests as [|r requests IH]; intros h; [by rewrite take_nil|].
  unfold after at 1. cbn [foldl]. fold (after requests (handle_json_request r h).2). rewrite IH.
  unfold handle_json_request at 1 2 3, rate_limited_handler.
  destruct (Nat.leb_spec (rate_max_requests h) (rate_served_requests h)); cbn [snd].
  - by replace (rate_max_requests h - rate_served_requests h)%nat with O by lia.
  - destruct (handle_json_request r (rate_inner h)) as [o inner] eqn:Hh.
    cbn [snd rate_inner rate_max_requests rate_served_requests].
    replace (rate_max_requests h - rate_served_requests h)%nat
      with (S (rate_max_requests h - S (rate_served_requests h))) by lia.
    unfold after at 2. cbn [firstn foldl]. by rewrite Hh.
Qed.
Lemma after_authenticated requests (h : Authenticated Handler) :
  auth_inner (after requests h) = after (omap (unwrap (auth_bearer_token h)) requests) (auth_inner h).
Proof.
  revert h. induction requests as [|r requests IH]; intros h; [done|].
  unfold after at 1. cbn [foldl]. fold (after requests (handle_json_request r h).2). rewrite IH.
  unfold handle_json_request at 1 2, authenticated_handler. cbn [omap list_omap]. unfold unwrap at 2.
  destruct (authenticated_of_json r) as [env|err]; [|done].
  destruct (decide (arr_bearer_token env = auth_bearer_token h)) as [He|He].
  - rewrite bool_decide_eq_false_2 by (by intros []). destruct (json_of_request (arr_request env)) as [inner|]; [|done].
    unfold after at 2. cbn [foldl]. by destruct (handle_json_request inner (auth_inner h)) as [o h'].
  - by rewrite bool_decide_eq_true_2.
Qed.

(** C37. An operator endpoint is guarded: behind the rate limit and the token
    check, the state of the inner handler depends on nothing but the requests
    that carry the right token among the first [max_requests]; it handles
    exactly those, unwrapped and in order. *)
Theorem operator_endpoint_guards token max_requests requests (inner : Handler) :
  auth_inner (rate_inner (after requests
    (rate_limited_new {| auth_inner := inner; auth_bearer_token := token |} max_requests)))
  = after (omap (unwrap token) (take max_requests requests)) inner.
Proof. rewrite after_rate_limited, after_authenticated. simpl. by rewrite Nat.sub_0_r. Qed.

(** ** HTTP bodies *)
Definition declares (line : string) (n : N) : Prop :=
  ∃ name value, split_once_colon "" line = Some (name, value) ∧
    to_ascii_lowercase (trim name) = "content-length" ∧ parse_u64 (trim value) = Some n.
Lemma header_fields_Ok acc lines n :
  header_fields acc lines = Ok (Some n) →
  (∀ m, acc = Some m → m = n) ∧ (∀ line m, line ∈ lines → declares line m → m = n) ∧
  (acc = None → ∃ line, line ∈ lines ∧ declares line n).
Proof.
  revert acc. induction lines as [|line lines IH]; intros acc; simpl.
  { intros [= ->]. split_and!; [by intros m [= ->]|set_solver|done]. }
  intros (acc1 & Hl & (Hacc & Hall & Hex)%IH)%outcome_bind_Ok. unfold header_line in Hl.
  apply outcome_bind_Ok in Hl as ([name value] & Hsp%ok_or_Ok & Hl). simpl in Hl.
  destruct (bool_decide_reflect (to_ascii_lowercase (trim name) = "content-length")) as [Hc|Hc].
  - simplify_ok. subst acc1. specialize (Hacc _ eq_refl). subst. split_and!.
    + intros m ->. by simplify_ok.
    + intros l m [->|Hin]%elem_of_cons Hd; [|by eapply Hall].
      destruct Hd as (name' & value' & Hsp' & _ & Hp). congruence.
    + intros _. exists line. split; [by left|]. by exists name, value.
  - injection Hl as <-. split_and!; [done| |].
    + intros l m [->|Hin]%elem_of_cons Hd; [|by eapply Hall].
      destruct Hd as (name' & value' & Hsp' & Hn & _). simplify_eq.
    + intros Hn. destruct (Hex Hn) as (l & ? & ?). exists l. split; [by right|done].
Qed.
Lemma read_headers_spec max headers input h rest :
  read_headers max headers input = Ok (h, rest) → (length headers ≤ max)%nat →
  headers ++ input = h ++ rest ∧ (length h ≤ max)%nat.
Proof.
  revert headers. induction input as [|b input IH]; intros headers; simpl.
  { intros [= <- <-] ?. done. }
  destruct (Nat.ltb_spec max (length (headers ++ [b]))); [done|].
  destruct (ends_headers _); [intros [= <- <-] ?; by rewrite <- app_assoc|].
  intros Hr ?. apply IH in Hr as [He ?]; [|done]. by rewrite <- app_assoc in He.
Qed.

(** C38. HTTP bodies are delimited without ambiguity, whatever is sent and
    however the connection ends.  Either the handler was not called and is
    untouched: the connection then ends without an answer (nothing sent, a
    head over 16 KiB, a body cut short) or with the error response its head
    earned.  Or it was called once, on a body that follows a head of at most
    16 KiB, that is within the limit and exactly as long as some header
    declares and every header that declares a length agrees on; the
    connection then ends with the handler's answer in a response that declares
    its length, or with the handler's failure. *)
Theorem http_body_delimited max_request_bytes input h :
  let '(o, h') := serve_http_json_rpc_handler_connection max_request_bytes input h in
  (h' = h ∧ ∀ response, o = Ok (Some response) → ∃ head rest rejection,
     read_http_headers input (N.to_nat DEFAULT_MAX_HTTP_HEADER_BYTES) = Ok (head, rest) ∧
     parse_http_json_rpc_request_head head max_request_bytes = Err rejection ∧
     http_rpc_error_response rejection = Ok response) ∨
  ∃ head body rest request_line fields,
    read_http_headers input (N.to_nat DEFAULT_MAX_HTTP_HEADER_BYTES) = Ok (head, body ++ rest) ∧
    input = head ++ body ++ rest ∧ (N.of_nat (length head) ≤ DEFAULT_MAX_HTTP_HEADER_BYTES) ∧
    N.of_nat (length body) ≤ max_request_bytes ∧
    split_once_crlf "" (from_utf8_lossy head) = Some (request_line, fields) ∧
    (∃ line, line ∈ split_crlf "" fields ∧ declares line (N.of_nat (length body))) ∧
    (∀ line n, line ∈ split_crlf "" fields → line ≠ "" → declares line n → n = N.of_nat (length body)) ∧
    match handle_json_request body h with
    | (Ok answer, h1) => h' = h1 ∧ o = Ok (Some (http_response_bytes 200 "OK" answer))
    | (Err e, h1) => h' = h1 ∧ o = Err e
    | (Panic, h1) => h' = h1 ∧ o = Panic
    | (OutOfFuel, h1) => h' = h1 ∧ o = OutOfFuel
    end.
Proof.
  unfold serve_http_json_rpc_handler_connection. unfold bind at 1, lift.
  destruct (read_http_headers _ _) as [[head rest]| | |] eqn:Hh; [|left; by split..].
  destruct (read_headers_spec _ _ _ _ _ Hh) as [Hin Hlen]; [simpl; lia|]. cbn [app] in Hin.
  case_bool_decide; [left; by split|].
  destruct (parse_http_json_rpc_request_head head max_request_bytes) as [n|rej| |] eqn:Hp; [| |left; by split..].
  2:{ unfold bind, lift. destruct (http_rpc_error_response rej) as [bytes| | |] eqn:Hrej; [|left; by split..].
      left. split; [done|]. intros response [= <-]. by exists head, rest, rej. }
  unfold bind at 1, lift. destruct (Nat.leb_spec (N.to_nat n) (length rest)) as [Hle|]; [|left; by split].
  destruct (bind _ _ _) as [o h'] eqn:Hrun. right. unfold parse_http_json_rpc_request_head in Hp. simplify_ok.
  match goal with H : split_once_crlf _ _ = Some ?p |- _ => destruct p as [request_line fields] end.
  simpl in *. subst.
  match goal with H : header_fields None _ = Ok _ |- _ => apply header_fields_Ok in H as (_ & Hall & Hex) end.
  exists head, (take (N.to_nat n) rest), (drop (N.to_nat n) rest), request_line, fields.
  assert (Hb : N.of_nat (length (take (N.to_nat n) rest)) = n) by (rewrite length_take; lia).
  rewrite take_drop, Hb. split_and!; try done; [lia| | |].
  - destruct (Hex eq_refl) as (line & [_ Hl]%list_elem_of_filter & Hd). by exists line.
  - intros line m Hl Hne Hd. eapply Hall; [|exact Hd]. by apply list_elem_of_filter.
  - unfold bind in Hrun. destruct (handle_json_request _ h) as [[answer| | |] h1]; by injection Hrun as <- <-.
Qed.
End guards.
