(* ===== verification/HttpText.v ===== *)
(** * HttpText: the text of HTTP heads

    Lines of printable ASCII text ended by CR LF, and what the functions that
    read heads (those of [RpcTransport] and of the clients) do with them. *)
From S2P Require Import Prelude Effects Merkle Types AspectRuntime AspectSource Decimal Release.
From S2P Require Import RpcTypes Rpc RpcTransport.

(** ** Text *)
Fixpoint all_chars (f : ascii → bool) (s : string) : bool :=
  match s with EmptyString => true | String c s => f c && all_chars f s end.
Definition printable (c : ascii) : bool := (32 <=? N_of_ascii c) && (N_of_ascii c <? 127).
Definition is_digit (c : ascii) : bool := (48 <=? N_of_ascii c) && (N_of_ascii c <=? 57).
Definition line_text (s : string) : Prop := all_chars printable s = true ∧ s ≠ "".

Lemma all_chars_app f a b : all_chars f (a +:+ b) = all_chars f a && all_chars f b.
Proof.
  induction a as [|c a IH]; [done|]. change (f c && all_chars f (a +:+ b) = f c && all_chars f a && all_chars f b).
  by rewrite IH, andb_assoc.
Qed.
Lemma all_chars_impl (f g : ascii → bool) s :
  (∀ c, f c = true → g c = true) → all_chars f s = true → all_chars g s = true.
Proof. intros Hi. induction s as [|c s IH]; [done|]. simpl. rewrite !andb_true_iff. intros []. auto. Qed.
Lemma bytes_of_string_app a b : bytes_of_string (a +:+ b) = bytes_of_string a ++ bytes_of_string b.
Proof.
  induction a as [|c a IH]; [done|].
  change (byte_of_ascii c :: bytes_of_string (a +:+ b) = byte_of_ascii c :: (bytes_of_string a ++ bytes_of_string b)).
  by rewrite IH.
Qed.
Lemma digit_char_pretty n : n < 10 → is_digit (pretty_N_char n) = true.
Proof.
  intros Hn. assert (n = 0 ∨ n = 1 ∨ n = 2 ∨ n = 3 ∨ n = 4 ∨ n = 5 ∨ n = 6 ∨ n = 7 ∨ n = 8 ∨ n = 9) as Hc by lia.
  repeat destruct Hc as [->|Hc]; [done..|]. by subst.
Qed.
Lemma pretty_digits (n : N) : all_chars is_digit (pretty n) = true ∧ pretty n ≠ "".
Proof.
  unfold pretty, pretty_N. case_decide as H0; [done|].
  assert (∀ s, all_chars is_digit s = true →
    all_chars is_digit (pretty_N_go n s) = true ∧ pretty_N_go n s ≠ "") as Hg; [|by apply Hg].
  assert (0 < n) as Hn by lia. clear H0. revert Hn. induction (N.lt_wf_0 n) as [n _ IH]; intros Hn s Hs.
  rewrite pretty_N_go_step by done.
  assert (all_chars is_digit (String (pretty_N_char (n mod 10)) s) = true) as Hd.
  { simpl. by rewrite digit_char_pretty by (apply N.mod_lt; lia). }
  destruct (decide (n / 10 = 0)) as [->|H0]; [by rewrite pretty_N_go_0|].
  apply IH; [by apply N.div_lt|by apply N.neq_0_lt_0|done].
Qed.
Lemma digit_printable c : is_digit c = true → printable c = true.
Proof. unfold is_digit, printable. rewrite !andb_true_iff, !N.leb_le, N.ltb_lt. lia. Qed.
Lemma pretty_line (n : N) : line_text (pretty n).
Proof.
  destruct (pretty_digits n) as [Hd Hne]. split; [|done]. eapply all_chars_impl; [|done]. apply digit_printable.
Qed.
Lemma line_text_app a b : line_text a → line_text b → line_text (a +:+ b).
Proof. intros [Ha Hn] [Hb _]. split; [by rewrite all_chars_app, Ha|]. by destruct a. Qed.
Lemma printable_neq c d : printable c = true → printable d = false → c ≠ d.
Proof. intros Hc Hd ->. congruence. Qed.

(** ** Lengths *)
Lemma pretty_length_go (k : nat) n s :
  n < 10 ^ N.of_nat k → (String.length (pretty_N_go n s) ≤ k + String.length s)%nat.
Proof.
  revert n s. induction k as [|k IH]; intros n s Hn.
  - assert (n = 0) as -> by (simpl in Hn; lia). by rewrite pretty_N_go_0.
  - destruct (decide (n = 0)) as [->|H0]; [rewrite pretty_N_go_0; lia|].
    rewrite pretty_N_go_step by lia. etrans; [apply IH|simpl; lia].
    apply N.Div0.div_lt_upper_bound. rewrite Nat2N.inj_succ, N.pow_succ_r' in Hn. lia.
Qed.
Lemma pretty_length (n : N) : n ≤ u64_max → (String.length (pretty n) ≤ 20)%nat.
Proof.
  intros Hn. unfold pretty, pretty_N. case_decide; [simpl; lia|].
  etrans; [apply (pretty_length_go 20)|simpl; lia]. unfold u64_max in Hn. change (10 ^ N.of_nat 20) with 100000000000000000000. lia.
Qed.

(** ** Bytes of text *)
Lemma byte_code c : Byte.to_N (byte_of_ascii c) = N_of_ascii c.
Proof. by destruct c as [[] [] [] [] [] [] [] []]. Qed.
Lemma byte_printable c d : printable c = true → printable (ascii_of_byte d) = false → byte_of_ascii c ≠ d.
Proof. intros Hc Hd <-. rewrite ascii_of_byte_of_ascii in Hd. congruence. Qed.
Lemma not_in_text s d : all_chars printable s = true → printable (ascii_of_byte d) = false → d ∉ bytes_of_string s.
Proof.
  intros Hs Hd. induction s as [|c s IH]; [by intros ?%elem_of_nil|]. simpl in Hs. apply andb_true_iff in Hs as [Hc Hs].
  change (d ∉ byte_of_ascii c :: bytes_of_string s). intros [->|Hin]%elem_of_cons; [|by apply IH].
  by eapply byte_printable.
Qed.
Definition crlf_bytes : list byte := [x0d; x0a].
Lemma lossy_ascii s : all_chars (λ c, N_of_ascii c <? 128) s = true → from_utf8_lossy (bytes_of_string s) = s.
Proof.
  unfold from_utf8_lossy. induction s as [|c s IH]; [done|]. simpl. rewrite andb_true_iff. intros [Hc Hs].
  change (lossy 0 true (byte_of_ascii c :: bytes_of_string s) = String c s). cbn [lossy utf8_step].
  rewrite byte_code, Hc. cbn [Nat.sub]. rewrite ascii_of_byte_of_ascii. f_equal. by apply IH.
Qed.

(** ** Heads *)
Fixpoint head_text (lines : list string) : string :=
  match lines with [] => "" | l :: ls => l +:+ (crlf +:+ head_text ls) end.
Lemma head_text_cons l ls rest : head_text (l :: ls) +:+ rest = l +:+ (crlf +:+ (head_text ls +:+ rest)).
Proof. cbn [head_text]. by rewrite !string_app_assoc. Qed.
Definition line_bytes (l : string) : list byte := bytes_of_string l ++ crlf_bytes.
Lemma head_bytes_cons l ls : bytes_of_string (head_text (l :: ls)) = line_bytes l ++ bytes_of_string (head_text ls).
Proof. unfold line_bytes. simpl. by rewrite !bytes_of_string_app, <- app_assoc. Qed.
Lemma head_ascii ls : Forall line_text ls → all_chars (λ c, N_of_ascii c <? 128) (head_text ls +:+ crlf) = true.
Proof.
  intros Hl. rewrite all_chars_app. apply andb_true_iff. split; [|done].
  induction Hl as [|l ls [Hp _] Hls IH]; [done|]. simpl. rewrite !all_chars_app, !andb_true_iff. split_and!; [|done..].
  eapply all_chars_impl; [|done]. unfold printable. intros c [_ Hc%N.ltb_lt]%andb_true_iff. apply N.ltb_lt. lia.
Qed.

Lemma ends_headers_inv h : ends_headers h = true → ∃ pre, h = pre ++ [x0d; x0a; x0d; x0a].
Proof.
  unfold ends_headers. rewrite bool_decide_eq_true. intros Hd. exists (take (length h - 4) h).
  rewrite <- Hd. by rewrite take_drop.
Qed.
Lemma ends_headers_app pre : ends_headers (pre ++ [x0d; x0a; x0d; x0a]) = true.
Proof.
  unfold ends_headers. rewrite length_app. simpl. rewrite Nat.add_sub, drop_app_length. by apply bool_decide_eq_true.
Qed.
Lemma not_ends_headers pre b : b ≠ x0a → ends_headers (pre ++ [b]) = false.
Proof.
  intros Hb. destruct (ends_headers (pre ++ [b])) eqn:He; [|done]. apply ends_headers_inv in He as [pre' He].
  change [x0d; x0a; x0d; x0a] with ([x0d; x0a; x0d] ++ [x0a]) in He. rewrite app_assoc in He.
  by apply app_inj_tail in He as [_ ->].
Qed.
Lemma not_ends_line pre b : b ≠ x0a → ends_headers (pre ++ [b; x0d; x0a]) = false.
Proof.
  intros Hb. destruct (ends_headers (pre ++ [b; x0d; x0a])) eqn:He; [|done]. apply ends_headers_inv in He as [pre' He].
  change [b; x0d; x0a] with ([b] ++ [x0d; x0a]) in He. change [x0d; x0a; x0d; x0a] with (([x0d] ++ [x0a]) ++ [x0d; x0a]) in He.
  rewrite !app_assoc in He. apply app_inj_2 in He as [He _]; [|done]. by apply app_inj_tail in He as [_ ->].
Qed.

Section read.
Context (max : nat).
Lemma read_headers_skip l headers rest :
  x0a ∉ l → (length headers + length l ≤ max)%nat →
  read_headers max headers (l ++ rest) = read_headers max (headers ++ l) rest.
Proof.
  revert headers. induction l as [|b l IH]; intros headers Hl Hm; [by rewrite app_nil_r|].
  apply not_elem_of_cons in Hl as [Hb Hl]. cbn [app read_headers length] in *.
  rewrite (proj2 (Nat.ltb_ge _ _)) by (rewrite length_app; simpl; lia).
  rewrite not_ends_headers by done. rewrite IH by (done || rewrite length_app; simpl; lia). by rewrite <- app_assoc.
Qed.
Lemma read_headers_line l headers rest :
  line_text l → (length headers + length (line_bytes l) ≤ max)%nat →
  read_headers max headers (line_bytes l ++ rest) = read_headers max (headers ++ line_bytes l) rest.
Proof.
  intros [Hp Hne] Hm. unfold line_bytes in *. rewrite length_app in Hm. simpl in Hm.
  change crlf_bytes with ([x0d] ++ [x0a]) at 1. rewrite app_assoc, <- (app_assoc _ [x0a] rest).
  rewrite read_headers_skip.
  2:{ intros [Hin|Hin]%elem_of_app; [by eapply not_in_text in Hin|set_solver]. }
  2:{ rewrite length_app. simpl. lia. }
  cbn [app read_headers]. rewrite (proj2 (Nat.ltb_ge _ _)) by (rewrite !length_app; simpl; lia).
  replace ((headers ++ bytes_of_string l ++ [x0d]) ++ [x0a]) with (headers ++ bytes_of_string l ++ crlf_bytes)
    by (by rewrite <- !app_assoc).
  pose proof (not_in_text l x0a Hp eq_refl) as Hl.
  destruct (bytes_of_string l) as [|b bs _] eqn:Hb using rev_ind; [by destruct l|].
  rewrite <- app_assoc. cbn [app crlf_bytes].
  rewrite (app_assoc headers bs), not_ends_line by set_solver. by rewrite <- !app_assoc.
Qed.
Lemma read_headers_lines ls headers rest :
  Forall line_text ls → (length headers + length (bytes_of_string (head_text ls)) ≤ max)%nat →
  read_headers max headers (bytes_of_string (head_text ls) ++ rest)
  = read_headers max (headers ++ bytes_of_string (head_text ls)) rest.
Proof.
  intros Hl. revert headers. induction Hl as [|l ls Ht Hls IH]; intros headers Hm; [by rewrite app_nil_r|].
  rewrite head_bytes_cons in *. rewrite length_app in Hm. rewrite <- app_assoc, read_headers_line by (done || lia).
  rewrite IH by (rewrite length_app; lia). by rewrite <- app_assoc.
Qed.
(** A head is read whole, up to the empty line. *)
Lemma read_head ls rest :
  Forall line_text ls → ls ≠ [] → (length (bytes_of_string (head_text ls +:+ crlf)) ≤ max)%nat →
  read_headers max [] (bytes_of_string (head_text ls +:+ crlf) ++ rest)
  = Ok (bytes_of_string (head_text ls +:+ crlf), rest).
Proof.
  intros Hl Hne. rewrite bytes_of_string_app, length_app. change (bytes_of_string crlf) with ([x0d] ++ [x0a]). simpl length. intros Hm.
  rewrite <- !app_assoc, read_headers_lines by (done || simpl; lia). cbn [app].
  assert (∃ pre, bytes_of_string (head_text ls) = pre ++ crlf_bytes) as [pre Hpre].
  { clear Hm. induction Hl as [|l ls Ht Hls IH]; [done|]. rewrite head_bytes_cons. destruct ls as [|l' ls].
    - exists (bytes_of_string l). simpl. by rewrite app_nil_r.
    - destruct IH as [pre ->]; [done|]. exists (line_bytes l ++ pre). by rewrite app_assoc. }
  rewrite Hpre in *. unfold crlf_bytes in *. rewrite length_app in Hm. simpl in Hm.
  cbn [read_headers]. rewrite !length_app. simpl length. rewrite (proj2 (Nat.ltb_ge _ _)) by lia.
  rewrite not_ends_headers, (proj2 (Nat.ltb_ge _ _)) by (done || lia).
  rewrite <- !app_assoc. cbn [app]. by rewrite ends_headers_app.
Qed.
End read.

(** ** Splitting heads into lines *)
Lemma printable_not_cr c : printable c = true → c ≠ "013"%char ∧ c ≠ "010"%char.
Proof. intros Hc. split; by eapply printable_neq. Qed.
Lemma split_once_crlf_line l head rest :
  all_chars printable l = true → split_once_crlf head (l +:+ (crlf +:+ rest)) = Some (head +:+ l, rest).
Proof.
  revert head. induction l as [|c l IH]; intros head Hl.
  - change ("" +:+ (crlf +:+ rest)) with (String "013" (String "010" rest)). simpl. by rewrite string_app_nil.
  - simpl in Hl. apply andb_true_iff in Hl as [[Hc _]%printable_not_cr Hl].
    change (String c l +:+ (crlf +:+ rest)) with (String c (l +:+ (crlf +:+ rest))).
    assert (split_once_crlf head (String c (l +:+ (crlf +:+ rest)))
      = split_once_crlf (head +:+ String c "") (l +:+ (crlf +:+ rest))) as ->.
    { destruct c as [[] [] [] [] [] [] [] []]; done. }
    rewrite IH by done. by rewrite string_app_assoc.
Qed.
Lemma split_crlf_line l head rest :
  all_chars printable l = true → split_crlf head (l +:+ (crlf +:+ rest)) = (head +:+ l) :: split_crlf "" rest.
Proof.
  revert head. induction l as [|c l IH]; intros head Hl.
  - change ("" +:+ (crlf +:+ rest)) with (String "013" (String "010" rest)). simpl. by rewrite string_app_nil.
  - simpl in Hl. apply andb_true_iff in Hl as [[Hc _]%printable_not_cr Hl].
    change (String c l +:+ (crlf +:+ rest)) with (String c (l +:+ (crlf +:+ rest))).
    assert (split_crlf head (String c (l +:+ (crlf +:+ rest)))
      = split_crlf (head +:+ String c "") (l +:+ (crlf +:+ rest))) as ->.
    { destruct c as [[] [] [] [] [] [] [] []]; done. }
    rewrite IH by done. by rewrite string_app_assoc.
Qed.
Lemma split_crlf_head ls : Forall line_text ls → split_crlf "" (head_text ls +:+ crlf) = ls ++ [""; ""].
Proof.
  intros Hl. induction Hl as [|l ls [Hp _] Hls IH]; [done|]. cbn [head_text]. rewrite !string_app_assoc.
  rewrite split_crlf_line by done. by rewrite IH.
Qed.
Lemma split_once_colon_text l head rest :
  all_chars (λ c, negb (bool_decide (c = ":"%char))) l = true →
  split_once_colon head (l +:+ String ":" rest) = Some (head +:+ l, rest).
Proof.
  revert head. induction l as [|c l IH]; intros head Hl.
  - change ("" +:+ String ":" rest) with (String ":" rest). cbn [split_once_colon].
    rewrite decide_True by done. by rewrite string_app_nil.
  - simpl in Hl. apply andb_true_iff in Hl as [Hc%negb_true_iff%bool_decide_eq_false Hl].
    change (String c l +:+ String ":" rest) with (String c (l +:+ String ":" rest)). cbn [split_once_colon].
    rewrite decide_False by done. rewrite IH by done. by rewrite string_app_assoc.
Qed.

(** ** Numbers in headers *)
Lemma digit_not_whitespace c s : is_digit c = true → whitespace_len (String c s) = 0%nat.
Proof.
  unfold is_digit. rewrite andb_true_iff, !N.leb_le. intros [Hl Hh]. rewrite whitespace_len_codes. simpl.
  unfold whitespace_codes, ascii_whitespace, whitespace_2, whitespace_3.
  repeat match goal with |- context [N_of_ascii c =? ?k] => rewrite (proj2 (N.eqb_neq (N_of_ascii c) k)) by lia end.
  rewrite (proj2 (N.leb_gt (N_of_ascii c) 13)) by lia. rewrite andb_false_r. simpl.
  by destruct s as [|? [|? ?]].
Qed.
Lemma trim_end_digits s : all_chars is_digit s = true → trim_end s = s.
Proof.
  induction s as [|c s IH]; [done|]. simpl all_chars. rewrite andb_true_iff. intros [Hc Hs].
  cbn [trim_end all_whitespace]. rewrite digit_not_whitespace by done. by rewrite IH.
Qed.
Lemma trim_number (n : N) : trim (" " +:+ pretty n) = pretty n.
Proof.
  destruct (pretty_digits n) as [Hd Hne]. unfold trim.
  destruct (pretty n) as [|c s] eqn:Hp; [done|].
  assert (trim_start 0 (" " +:+ String c s) = String c s) as ->.
  { change (trim_start 0 (String c s) = String c s). cbn [trim_start]. simpl in Hd. apply andb_true_iff in Hd as [Hc _]. by rewrite digit_not_whitespace. }
  by apply trim_end_digits.
Qed.
