(* ===== verification/RpcClient.v ===== *)
(** * RpcClient: the clients of the RPC interface

    [TcpRpcClient] and [HttpRpcClient] of crates/detta-e2e/src/client.rs, and
    the servers of crates/detta-rpc/src/lib.rs they talk to.  A TCP client and
    its server share a [Duplex]: what the client writes reaches the server
    byte by byte, and what the server writes waits for the client to read it.
    An HTTP client writes its request, ends its side and reads the answer.
    [ClientJson] is serde_json where the clients use it. *)
From S2P Require Import Prelude Effects Merkle Types State AspectRuntime AspectSource Decimal.
From S2P Require Import Verify Block Release RpcTypes Rpc RpcTransport HttpText.

(** ** Errors *)
Inductive HttpFault :=
| MissingHeaderTerminator | HeadNotUtf8 | MissingStatusLine | MissingStatusCode | InvalidStatusCode
| MissingContentLength | InvalidContentLength | BodyLength (actual declared : N).
(** [Blocks] is no error of the source: the client waits for a line that the
    server, which is still there, never sends. *)
Inductive ClientError :=
| ClientIo | ClientEncode | ClientDecode
| ClientRpc (error : RpcErrorBody)
| EmptyResponse
| InvalidHttpResponse (fault : HttpFault)
| UnexpectedResult (expected : string) (actual : RpcResult)
| UnexpectedSuccess (result : RpcResult)
| Blocks.

(** [str::from_utf8] *)
Fixpoint utf8_valid (pending : nat) (bytes : list byte) : bool :=
  match bytes with
  | [] => true
  | _ :: rest =>
      match pending with
      | S pending => utf8_valid pending rest
      | O => let '(n, valid) := utf8_step bytes in valid && utf8_valid (n - 1) rest
      end
  end.
Class ClientJson := response_of_json : list byte → option RpcResponse.
(** What serde_json promises: compact text is one line of UTF-8 and is read
    back, also when a line feed follows it. *)
Class ClientJsonLaws `{RpcJson, ClientJson} : Prop := {
  request_line r bytes : json_of_request r = Some bytes → x0a ∉ bytes;
  request_read_back r bytes : json_of_request r = Some bytes →
    request_of_json bytes = inl r ∧ request_of_json (bytes ++ [x0a]) = inl r;
  response_line r bytes : json_of_response r = Some bytes →
    x0a ∉ bytes ∧ utf8_valid 0 (bytes ++ [x0a]) = true;
  response_read_back r bytes : json_of_response r = Some bytes →
    response_of_json bytes = Some r ∧ response_of_json (bytes ++ [x0a]) = Some r;
}.

(** ** Line connections *)
Record Duplex (Handler : Type) := {
  dx_server : Handler;        (** the server's handler *)
  dx_partial : list byte;     (** the line the server is reading *)
  dx_unread : list byte;      (** written by the server, not yet read *)
  dx_ended : bool;            (** the server has left its loop *)
}.
Arguments dx_server {Handler}.
Arguments dx_partial {Handler}.
Arguments dx_unread {Handler}.
Arguments dx_ended {Handler}.
Definition connected {Handler} (h : Handler) : Duplex Handler :=
  {| dx_server := h; dx_partial := []; dx_unread := []; dx_ended := false |}.
(** The first line of the input, its line feed included. *)
Fixpoint take_line (bytes : list byte) : option (list byte * list byte) :=
  match bytes with
  | [] => None
  | b :: rest =>
      if decide (b = x0a) then Some ([b], rest)
      else '(line, rest) ← take_line rest; Some (b :: line, rest)
  end.
Section tcp.
Context `{RpcJson, ClientJson, JsonRpcHandler Handler} (max_request_bytes : nat).
(** One byte of input, for a server that waits in [read_bounded_json_line]
    and answers a line once it is whole. *)
Definition server_byte (d : Duplex Handler) (b : byte) : Duplex Handler :=
  if dx_ended d then d else
  let line := dx_partial d ++ [b] in
  if (max_request_bytes <? length line)%nat then
    {| dx_server := dx_server d; dx_partial := []; dx_unread := dx_unread d; dx_ended := true |}
  else if decide (b = x0a) then
    match handle_json_request line (dx_server d) with
    | (Ok response, h) =>
        {| dx_server := h; dx_partial := []; dx_unread := dx_unread d ++ response ++ [x0a];
           dx_ended := false |}
    | (_, h) => {| dx_server := h; dx_partial := []; dx_unread := dx_unread d; dx_ended := true |}
    end
  else {| dx_server := dx_server d; dx_partial := line; dx_unread := dx_unread d; dx_ended := false |}.
Definition send_bytes (bytes : list byte) : SE (Duplex Handler) ClientError () :=
  modify (λ d, foldl server_byte d bytes).
(** [BufRead::read_line] *)
Definition receive_line : SE (Duplex Handler) ClientError (list byte) := λ d,
  let rest unread := {| dx_server := dx_server d; dx_partial := dx_partial d; dx_unread := unread;
                        dx_ended := dx_ended d |} in
  match take_line (dx_unread d) with
  | Some (line, unread) => (if utf8_valid 0 line then Ok line else Err ClientIo, rest unread)
  | None =>
      if dx_ended d then (if utf8_valid 0 (dx_unread d) then Ok (dx_unread d) else Err ClientIo, rest [])
      else (Err Blocks, d)
  end.
Definition read_response : SE (Duplex Handler) ClientError RpcResponse :=
  let! line := receive_line in
  do? ensure (negb (bool_decide (line = []))) EmptyResponse in
  lift (ok_or (response_of_json line) ClientDecode).
Definition request (r : RpcRequest) : SE (Duplex Handler) ClientError RpcResponse :=
  let? bytes := ok_or (json_of_request r) ClientEncode in
  do! send_bytes bytes in
  do! send_bytes [x0a] in
  read_response.
Definition raw_line (line : list byte) : SE (Duplex Handler) ClientError RpcResponse :=
  do! send_bytes line in
  do! (if bool_decide (last line = Some x0a) then ret () else send_bytes [x0a]) in
  read_response.
Definition ok (r : RpcRequest) : SE (Duplex Handler) ClientError RpcResult :=
  let! response := request r in
  match response with RpcOk result => ret result | RpcErr error => throw (ClientRpc error) end.
Definition error (r : RpcRequest) : SE (Duplex Handler) ClientError RpcErrorBody :=
  let! response := request r in
  match response with RpcErr error => ret error | RpcOk result => throw (UnexpectedSuccess result) end.
End tcp.

(** ** HTTP *)
(** The bytes before and after the first CR LF CR LF. *)
Fixpoint split_head (head bytes : list byte) : option (list byte * list byte) :=
  match bytes with
  | [] => None
  | b :: rest =>
      if decide (take 4 bytes = [x0d; x0a; x0d; x0a]) then Some (head, drop 4 bytes)
      else split_head (head ++ [b]) rest
  end.
(** [str::lines] *)
Fixpoint strip_cr (s : string) : string :=
  match s with
  | EmptyString => ""
  | String c EmptyString => if decide (c = "013"%char) then "" else s
  | String c s => String c (strip_cr s)
  end.
Fixpoint text_lines (line s : string) : list string :=
  match s with
  | EmptyString => if bool_decide (line = "") then [] else [line]
  | String c s =>
      if decide (c = "010"%char) then strip_cr line :: text_lines "" s
      else text_lines (line +:+ String c "") s
  end.
Definition parse_u16 (s : string) : option N := n ← parse_u128 s; if n <=? 65535 then Some n else None.
Definition content_length_field (lines : list string) : option string :=
  snd <$> head (filter (λ field, to_ascii_lowercase field.1 = "content-length") (omap (split_once_colon "") lines)).
Section http.
Context `{RpcJson, ClientJson}.
Definition parse_http_rpc_response (response : list byte) : outcome ClientError (N * RpcResponse) :=
  let fault f := InvalidHttpResponse f in
  let* parts := ok_or (split_head [] response) (fault MissingHeaderTerminator) in
  do* ensure (utf8_valid 0 parts.1) (fault HeadNotUtf8) in
  let headers := String.string_of_list_byte parts.1 in
  let body := parts.2 in
  let* status_line := ok_or (head (text_lines "" headers)) (fault MissingStatusLine) in
  let* status := ok_or (split_whitespace "" 0 status_line !! 1%nat) (fault MissingStatusCode) in
  let* status := ok_or (parse_u16 status) (fault InvalidStatusCode) in
  let* content_length := ok_or (content_length_field (text_lines "" headers)) (fault MissingContentLength) in
  let* content_length := ok_or (parse_u64 (trim content_length)) (fault InvalidContentLength) in
  do* ensure (N.of_nat (length body) =? content_length) (fault (BodyLength (N.of_nat (length body)) content_length)) in
  let* response := ok_or (response_of_json body) ClientDecode in
  Ok (status, response).
Context `{JsonRpcHandler Handler} (max_request_bytes : N).
(** The server drops the connection where it fails: nothing was written. *)
Definition raw_request (request : list byte) : SE Handler ClientError (N * RpcResponse) := λ h,
  match serve_http_json_rpc_handler_connection max_request_bytes request h with
  | (Ok answer, h) => (parse_http_rpc_response (default [] answer), h)
  | (OutOfFuel, h) => (OutOfFuel, h)
  | (_, h) => (parse_http_rpc_response [], h)
  end.
Definition post_bytes (body : list byte) : SE Handler ClientError (N * RpcResponse) :=
  let headers := "POST /rpc HTTP/1.1" +:+ crlf +:+ "Host: localhost" +:+ crlf
    +:+ "Content-Type: application/json" +:+ crlf
    +:+ "Content-Length: " +:+ pretty (N.of_nat (length body)) +:+ crlf +:+ crlf in
  raw_request (bytes_of_string headers ++ body).
Definition post (r : RpcRequest) : SE Handler ClientError (N * RpcResponse) :=
  let? body := ok_or (json_of_request r) ClientEncode in
  post_bytes body.
End http.

(** ** What the server reads *)
Definition post_lines (n : N) : list string :=
  ["POST /rpc HTTP/1.1"; "Host: localhost"; "Content-Type: application/json"; "Content-Length: " +:+ pretty n].
Lemma post_lines_text n : Forall line_text (post_lines n).
Proof.
  unfold post_lines. repeat constructor; try done.
  all: destruct (line_text_app "Content-Length: " (pretty n)); [done|apply pretty_line|done].
Qed.
Lemma post_head_length n : n ≤ u64_max →
  (length (bytes_of_string (head_text (post_lines n) +:+ crlf)) ≤ N.to_nat DEFAULT_MAX_HTTP_HEADER_BYTES)%nat.
Proof.
  intros Hn. pose proof (pretty_length n Hn) as Hl.
  assert (∀ s, length (bytes_of_string s) = String.length s) as Hs.
  { induction s as [|c s IH]; [done|]. simpl. f_equal. exact IH. }
  rewrite bytes_of_string_app, length_app. unfold post_lines. rewrite !head_bytes_cons, !length_app. unfold line_bytes.
  rewrite !length_app, bytes_of_string_app, length_app, (Hs (pretty n)).
  apply (Nat.le_trans _ 200%nat); [|unfold DEFAULT_MAX_HTTP_HEADER_BYTES; lia].
  cbn -[pretty]. lia.
Qed.
Lemma post_head_parses n max : n ≤ max → n ≤ u64_max →
  parse_http_json_rpc_request_head (bytes_of_string (head_text (post_lines n) +:+ crlf)) max = Ok n.
Proof.
  intros Hm Hn. unfold parse_http_json_rpc_request_head.
  rewrite lossy_ascii by (apply head_ascii, post_lines_text).
  pose proof (post_lines_text n) as Hl. apply Forall_cons in Hl as [_ Hl]. unfold post_lines.
  rewrite head_text_cons, split_once_crlf_line by done. cbn [ok_or outcome_bind fst snd].
  rewrite (split_crlf_head _ Hl). 
  change (split_whitespace "" 0 _) with ["POST"; "/rpc"; "HTTP/1.1"]. cbn -[pretty filter header_fields].
  change (filter _ _) with ["Host: localhost"; "Content-Type: application/json"; "Content-Length: " +:+ pretty n].
  rewrite !bool_decide_eq_true_2 by done. rewrite orb_true_r. cbn [ensure outcome_bind header_fields].
  change (header_line None "Host: localhost") with (Ok (E:=HttpRejection) (None : option N)).
  cbn [outcome_bind].
  change (header_line None "Content-Type: application/json") with (Ok (E:=HttpRejection) (None : option N)).
  cbn [outcome_bind]. unfold header_line.
  change ("Content-Length: " +:+ pretty n) with ("Content-Length" +:+ String ":" (" " +:+ pretty n)).
  rewrite split_once_colon_text by done. cbn [ok_or outcome_bind fst snd].
  rewrite bool_decide_eq_true_2 by (vm_compute; reflexivity). rewrite trim_number, parse_u64_pretty by done. cbn [ok_or outcome_bind ensure].
  cbn [header_fields outcome_bind ok_or]. by rewrite (proj2 (N.leb_le _ _) Hm).
Qed.

(** ** What the client reads *)
Lemma utf8_valid_ascii bytes : Forall (λ b, Byte.to_N b < 128) bytes → utf8_valid 0 bytes = true.
Proof.
  induction 1 as [|b bytes Hb _ IH]; [done|]. cbn [utf8_valid utf8_step]. by rewrite (proj2 (N.ltb_lt _ _) Hb).
Qed.
Lemma text_bytes_ascii s : all_chars (λ c, N_of_ascii c <? 128) s = true → Forall (λ b, Byte.to_N b < 128) (bytes_of_string s).
Proof.
  induction s as [|c s IH]; [by constructor|]. simpl. rewrite andb_true_iff, N.ltb_lt. intros [Hc Hs].
  constructor; [by rewrite byte_code|by apply IH].
Qed.
Lemma split_head_skip l head rest : x0d ∉ l → split_head head (l ++ rest) = split_head (head ++ l) rest.
Proof.
  revert head. induction l as [|b l IH]; intros head Hl; [by rewrite app_nil_r|].
  apply not_elem_of_cons in Hl as [Hb Hl]. cbn [app split_head]. rewrite decide_False by (intros [= ?]; congruence).
  rewrite IH by done. by rewrite <- app_assoc.
Qed.
Lemma split_head_line l head b rest :
  line_text l → b ≠ x0d →
  split_head head (line_bytes l ++ b :: rest) = split_head (head ++ line_bytes l) (b :: rest).
Proof.
  intros [Hp _] Hb. unfold line_bytes, crlf_bytes. rewrite <- app_assoc, split_head_skip by (by apply not_in_text).
  cbn [app]. rewrite app_assoc.
  assert (∀ h, split_head h (x0d :: x0a :: b :: rest) = split_head (h ++ [x0d]) (x0a :: b :: rest)) as ->.
  { intros h. cbn [split_head]. rewrite decide_False; [done|]. simpl. intros [= ? ?]; congruence. }
  change (x0a :: b :: rest) with ([x0a] ++ b :: rest). rewrite split_head_skip by set_solver. by rewrite <- !app_assoc.
Qed.
Lemma split_head_lines ls l head rest :
  Forall line_text ls → line_text l →
  split_head head (bytes_of_string (head_text (ls ++ [l]) +:+ crlf) ++ rest)
  = Some (head ++ bytes_of_string (head_text ls +:+ l), rest).
Proof.
  intros Hl Ht. revert head. induction Hl as [|l' ls Ht' Hls IH]; intros head.
  - simpl. rewrite !bytes_of_string_app. rewrite <- !app_assoc. destruct Ht as [Hp _].
    rewrite split_head_skip by (by apply not_in_text). done.
  - rewrite bytes_of_string_app. cbn [app]. rewrite head_bytes_cons, <- app_assoc.
    assert (∃ b bs, bytes_of_string (head_text (ls ++ [l])) ++ bytes_of_string crlf ++ rest = b :: bs ∧ b ≠ x0d)
      as (b & bs & Hb & Hne).
    { assert (∃ k ks, ls ++ [l] = k :: ks ∧ line_text k) as (k & ks & -> & [Hk Hkne]).
      { destruct ls as [|k ks]; [by exists l, []|]. exists k, (ks ++ [l]). split; [done|]. by inv Hls. }
      destruct k as [|c k]; [done|]. rewrite head_bytes_cons. eexists _, _. split; [done|].
      simpl in Hk. apply andb_true_iff in Hk as [Hc _]. by apply byte_printable. }
    rewrite <- app_assoc, Hb, split_head_line by done. rewrite <- Hb, app_assoc, <- bytes_of_string_app, IH.
    f_equal. f_equal. rewrite head_text_cons, !bytes_of_string_app. unfold line_bytes. by rewrite <- !app_assoc.
Qed.

Lemma strip_cr_app l : strip_cr (l +:+ String "013" "") = l.
Proof.
  induction l as [|c l IH]; [done|]. change (String c l +:+ String "013" "") with (String c (l +:+ String "013" "")).
  cbn [strip_cr]. rewrite IH. by destruct (l +:+ String "013" "") eqn:Hl; [destruct l|].
Qed.
Lemma text_lines_skip l line rest :
  all_chars (λ c, negb (bool_decide (c = "010"%char))) l = true → text_lines line (l +:+ rest) = text_lines (line +:+ l) rest.
Proof.
  revert line. induction l as [|c l IH]; intros line Hl.
  - by rewrite string_app_nil.
  - simpl in Hl. apply andb_true_iff in Hl as [Hc%negb_true_iff%bool_decide_eq_false Hl].
    change (String c l +:+ rest) with (String c (l +:+ rest)). cbn [text_lines]. rewrite decide_False by done.
    rewrite IH by done. by rewrite string_app_assoc.
Qed.
Lemma printable_no_lf l : all_chars printable l = true → all_chars (λ c, negb (bool_decide (c = "010"%char))) l = true.
Proof. apply all_chars_impl. intros c [_ Hc]%printable_not_cr. by rewrite bool_decide_eq_false_2. Qed.
Lemma text_lines_line l rest : all_chars printable l = true → text_lines "" (l +:+ (crlf +:+ rest)) = l :: text_lines "" rest.
Proof.
  intros Hl. rewrite text_lines_skip by (by apply printable_no_lf).
  change (crlf +:+ rest) with (String "013" (String "010" rest)). cbn [text_lines].
  rewrite decide_False, decide_True by done. change ("" +:+ l) with l. by rewrite strip_cr_app.
Qed.
Lemma text_lines_head ls l : Forall line_text ls → line_text l → text_lines "" (head_text ls +:+ l) = ls ++ [l].
Proof.
  intros Hl [Hp Hne]. induction Hl as [|l' ls [Hp' _] _ IH].
  - change (text_lines "" l = [l]). rewrite <- (string_app_nil l) at 1.
    rewrite text_lines_skip by (by apply printable_no_lf). simpl. by rewrite bool_decide_eq_false_2.
  - by rewrite head_text_cons, text_lines_line, IH.
Qed.

(** The status lines the server writes. *)
Definition served_statuses : list (N * string) :=
  [(200, "OK"); (400, "Bad Request"); (404, "Not Found"); (405, "Method Not Allowed");
   (411, "Length Required"); (413, "Payload Too Large")].
Section http_answers.
Context `{RpcJson, ClientJson}.
Definition answer_lines (status_code : N) (reason : string) (n : N) : list string :=
  ["HTTP/1.1 " +:+ pretty status_code +:+ " " +:+ reason; "Content-Type: application/json";
   "Content-Length: " +:+ pretty n].
Lemma served_status status_code reason :
  (status_code, reason) ∈ served_statuses →
  let line := "HTTP/1.1 " +:+ pretty status_code +:+ " " +:+ reason in
  line_text line ∧ (split_whitespace "" 0 line !! 1%nat ≫= parse_u16) = Some status_code ∧
  split_once_colon "" line = None.
Proof.
  unfold served_statuses. intros Hin. 
  repeat (apply elem_of_cons in Hin as [[= -> ->]|Hin]; [vm_compute; done|]). by apply elem_of_nil in Hin.
Qed.
Lemma answer_lines_text status_code reason n :
  (status_code, reason) ∈ served_statuses → Forall line_text (answer_lines status_code reason n).
Proof.
  intros (Hs & _)%served_status. unfold answer_lines. apply Forall_cons. split; [done|].
  apply Forall_cons. split; [done|]. apply Forall_singleton. apply line_text_app; [done|apply pretty_line].
Qed.
Lemma answer_text status_code reason body :
  http_response_bytes status_code reason body
  = bytes_of_string (head_text (answer_lines status_code reason (N.of_nat (length body)) ++ ["Connection: close"]) +:+ crlf)
    ++ body.
Proof. unfold http_response_bytes, answer_lines. f_equal. f_equal. cbn [app head_text]. by rewrite !string_app_assoc. Qed.
Lemma string_of_text s : String.string_of_list_byte (bytes_of_string s) = s.
Proof. apply String.string_of_list_byte_of_string. Qed.
(** The client reads back every answer of the server. *)
Lemma answer_parses status_code reason body r :
  (status_code, reason) ∈ served_statuses → N.of_nat (length body) ≤ u64_max → response_of_json body = Some r →
  parse_http_rpc_response (http_response_bytes status_code reason body) = Ok (status_code, r).
Proof.
  intros Hs Hn Hr. pose proof (answer_lines_text _ _ (N.of_nat (length body)) Hs) as Hl.
  apply served_status in Hs as (_ & Hw & Hcolon).
  rewrite answer_text. unfold parse_http_rpc_response. rewrite split_head_lines by done. cbn [app ok_or outcome_bind fst snd].
  rewrite utf8_valid_ascii.
  2:{ apply text_bytes_ascii. pose proof (head_ascii _ Hl) as Ha. rewrite all_chars_app in Ha |- *.
      apply andb_true_iff in Ha as [Ha _]. by rewrite Ha. }
  cbn [ensure outcome_bind]. rewrite string_of_text, text_lines_head by done.
  set (status_line := "HTTP/1.1 " +:+ pretty status_code +:+ " " +:+ reason) in *.
  unfold answer_lines. cbn [app head ok_or outcome_bind]. fold status_line.
  destruct (split_whitespace "" 0 status_line !! 1%nat) as [word|]; [|done]. cbn [mbind option_bind] in Hw.
  cbn [ok_or outcome_bind]. rewrite Hw. cbn [ok_or outcome_bind].
  unfold content_length_field. cbn [omap list_omap]. rewrite Hcolon.
  change ("Content-Length: " +:+ pretty (N.of_nat (length body)))
    with ("Content-Length" +:+ String ":" (" " +:+ pretty (N.of_nat (length body)))).
  rewrite split_once_colon_text by done.
  change (split_once_colon "" "Content-Type: application/json") with (Some ("Content-Type", " application/json")).
  cbv beta iota. rewrite filter_cons_False by done. rewrite filter_cons_True by done. cbn [head fmap option_fmap option_map ok_or outcome_bind snd].
  rewrite trim_number, parse_u64_pretty by done. cbn [ok_or outcome_bind]. rewrite N.eqb_refl. cbn [ensure outcome_bind].
  by rewrite Hr.
Qed.
Context `{JsonRpcHandler Handler} (max_request_bytes : N).
Lemma post_bytes_served body h answer h' r :
  N.of_nat (length body) ≤ max_request_bytes → N.of_nat (length body) ≤ u64_max →
  handle_json_request body h = (Ok answer, h') → N.of_nat (length answer) ≤ u64_max →
  response_of_json answer = Some r →
  post_bytes max_request_bytes body h = (Ok (200, r), h').
Proof.
  intros Hm Hn Hh Ha Hr. set (n := N.of_nat (length body)).
  assert (post_bytes max_request_bytes body
    = raw_request max_request_bytes (bytes_of_string (head_text (post_lines n) +:+ crlf) ++ body)) as ->.
  { unfold post_bytes, post_lines. f_equal. f_equal. f_equal. cbn [head_text]. by rewrite !string_app_assoc. }
  unfold raw_request, serve_http_json_rpc_handler_connection, read_http_headers.
  unfold bind at 1, lift. rewrite read_head; [|apply post_lines_text|done|by apply post_head_length].
  rewrite bool_decide_eq_false_2 by done. rewrite post_head_parses by done.
  unfold bind at 1, lift, n. rewrite Nat2N.id, Nat.leb_refl, take_ge by done.
  unfold bind. rewrite Hh. cbn [ret default from_option id]. rewrite answer_parses with (r := r); [done| |done..].
  unfold served_statuses. set_solver.
Qed.
End http_answers.

(** ** Sessions on a line connection *)
Lemma take_line_app bytes rest : x0a ∉ bytes → take_line (bytes ++ x0a :: rest) = Some (bytes ++ [x0a], rest).
Proof.
  induction bytes as [|b bytes IH]; intros Hb; cbn [app take_line]; [by rewrite decide_True|].
  apply not_elem_of_cons in Hb as [Hb Hbs]. by rewrite decide_False, IH by congruence.
Qed.
Section session.
Context `{RpcJson, ClientJson, JsonRpcHandler Handler} (max_request_bytes : nat).
Implicit Types d : Duplex Handler.
Abbreviation served := (foldl (server_byte max_request_bytes)).
Lemma served_ended input d : dx_ended d = true → served d input = d.
Proof. intros He. induction input as [|b input IH]; [done|]. cbn [foldl]. unfold server_byte at 2. by rewrite He. Qed.
(** Input whose last line is whole. *)
Definition whole_lines (line input : list byte) : Prop :=
  match last input with Some b => b = x0a | None => line = [] end.
Definition ended_by {A} (o : outcome RpcTransportError A) : bool :=
  match o with Ok _ => false | _ => true end.
(** The connection loop, byte by byte. *)
Lemma served_lines line input h out o h' out' :
  whole_lines line input → (length line ≤ max_request_bytes)%nat →
  serve_each max_request_bytes (split_lines line input) (h, out) = (o, (h', out')) →
  served {| dx_server := h; dx_partial := line; dx_unread := out; dx_ended := false |} input
  = {| dx_server := h'; dx_partial := []; dx_unread := out'; dx_ended := ended_by o |}.
Proof.
  revert line h out. induction input as [|b input IH]; intros line h out Hw Hm.
  { unfold whole_lines in Hw. simpl in Hw. subst. by intros [= <- <- <-]. }
  assert (∀ line', whole_lines [] input ∧ (b ≠ x0a → whole_lines line' input)) as Hrest.
  { intros line'. unfold whole_lines in *. rewrite last_cons in Hw. destruct (last input); naive_solver. }
  cbn [split_lines foldl]. unfold server_byte at 2; cbn [dx_ended dx_partial dx_server dx_unread].
  destruct (Nat.ltb_spec max_request_bytes (length (line ++ [b]))) as [Hlong|Hfit].
  - rewrite served_ended by done.
    assert (∃ l ls, (if decide (b = x0a) then (line ++ [b]) :: split_lines [] input
                     else split_lines (line ++ [b]) input) = l :: ls ∧ (max_request_bytes < length l)%nat)
      as (l & ls & -> & Hl).
    { case_decide; [by eexists _, _|].
      destruct (split_lines (line ++ [b]) input) as [|l ls] eqn:Hs.
      { apply split_lines_nil in Hs as [Hs _]. by destruct line. }
      eexists _, _. split; [done|]. apply split_lines_head in Hs as [suffix ->]. rewrite length_app. lia. }
    cbn [serve_each]. rewrite decide_False by lia. by intros [= <- <- <-].
  - case_decide as Hb.
    + cbn [serve_each]. rewrite decide_True by done. unfold bind at 1, with_handler.
      destruct (handle_json_request (line ++ [b]) h) as [[r|e| |] h1].
      2-4: intros [= <- <- <-]; by rewrite served_ended.
      unfold bind, write_all, modify. rewrite app_assoc. apply IH; [exact (proj1 (Hrest []))|simpl; lia].
    + apply IH; [by apply Hrest|done].
Qed.
Lemma split_one_line bytes : x0a ∉ bytes → split_lines [] (bytes ++ [x0a]) = [bytes ++ [x0a]].
Proof.
  intros Hb. assert (∀ line, split_lines line (bytes ++ [x0a]) = [line ++ bytes ++ [x0a]]) as Hg; [|apply Hg].
  induction bytes as [|b bytes IH]; intros line; cbn [app split_lines]; [done|].
  apply not_elem_of_cons in Hb as [Hb Hbs]. rewrite decide_False, IH by congruence. by rewrite <- app_assoc.
Qed.
Lemma send_one bytes h o h' out :
  x0a ∉ bytes → (S (length bytes) ≤ max_request_bytes)%nat →
  serve_each max_request_bytes [bytes ++ [x0a]] (h, []) = (o, (h', out)) →
  served (connected h) (bytes ++ [x0a])
  = {| dx_server := h'; dx_partial := []; dx_unread := out; dx_ended := ended_by o |}.
Proof.
  intros Hb Hm Hs. apply (served_lines [] _ h []); [|simpl; lia|by rewrite split_one_line].
  unfold whole_lines. by rewrite last_snoc.
Qed.
Lemma send_line bytes h answer h' :
  x0a ∉ bytes → (S (length bytes) ≤ max_request_bytes)%nat →
  handle_json_request (bytes ++ [x0a]) h = (Ok answer, h') →
  served (connected h) (bytes ++ [x0a])
  = {| dx_server := h'; dx_partial := []; dx_unread := answer ++ [x0a]; dx_ended := false |}.
Proof.
  intros Hb Hm Hh. apply (send_one _ _ (Ok ())); [done..|]. cbn [serve_each].
  rewrite decide_True by (rewrite length_app; simpl; lia). unfold bind, with_handler, write_all, modify. by rewrite Hh.
Qed.
Lemma send_fails bytes h o h' :
  x0a ∉ bytes → (S (length bytes) ≤ max_request_bytes)%nat →
  handle_json_request (bytes ++ [x0a]) h = (o, h') → ended_by o = true →
  served (connected h) (bytes ++ [x0a]) = {| dx_server := h'; dx_partial := []; dx_unread := []; dx_ended := true |}.
Proof.
  intros Hb Hm Hh He. assert (∃ o', ended_by (A:=()) o' = true ∧
    serve_each max_request_bytes [bytes ++ [x0a]] (h, []) = (o', (h', []))) as (o' & <- & Hs); [|by apply send_one].
  cbn [serve_each]. rewrite decide_True by (rewrite length_app; simpl; lia). unfold bind, with_handler. rewrite Hh.
  destruct o; [done|by (eexists; split; [|reflexivity])..].
Qed.
Context `{!ClientJsonLaws}.
Lemma request_served r bytes h answer response h' :
  json_of_request r = Some bytes → (S (length bytes) ≤ max_request_bytes)%nat →
  handle_json_request (bytes ++ [x0a]) h = (Ok answer, h') → json_of_response response = Some answer →
  request max_request_bytes r (connected h) = (Ok response, connected h').
Proof.
  intros Hr Hm Hh Ha. pose proof (request_line _ _ Hr) as Hl. destruct (response_line _ _ Ha) as [Hal Hu].
  destruct (response_read_back _ _ Ha) as [_ Hback].
  unfold request, bind, lift, send_bytes, modify. rewrite Hr. cbn [ok_or].
  rewrite <- foldl_app, (send_line _ _ _ _ Hl Hm Hh). unfold read_response, bind, receive_line, lift.
  cbn [dx_unread dx_server dx_partial dx_ended]. rewrite take_line_app, Hu by done. cbn [ensure].
  rewrite bool_decide_eq_false_2 by (by destruct answer). cbn [negb ensure]. by rewrite Hback.
Qed.
End session.

(** ** Clients of a typed handler *)
Section clients.
Context `{RpcJson, ClientJson, !ClientJsonLaws} {S : Type} (handles : RpcRequest → SE S Empty_set RpcResponse).
#[local] Instance typed_handler : JsonRpcHandler S := λ bytes, json_rpc_response_for_request bytes handles.
Lemma typed_handled r bytes input h response answer h' :
  json_of_request r = Some bytes → input = bytes ∨ input = bytes ++ [x0a] →
  handles r h = (Ok response, h') → json_of_response response = Some answer →
  handle_json_request input h = (Ok answer, h').
Proof.
  intros Hr Hi Hh Ha. destruct (request_read_back _ _ Hr) as [Hb Hbl].
  assert (request_of_json input = inl r) as Hj by (by destruct Hi; subst).
  unfold handle_json_request, typed_handler, json_rpc_response_for_request, bind, lift.
  rewrite Hj, Hh. cbn [from_void]. by rewrite Ha.
Qed.
(** What a request must fit. *)
Definition fits (max_request_bytes : nat) (r : RpcRequest) : Prop :=
  ∃ bytes, json_of_request r = Some bytes ∧ (length bytes < max_request_bytes)%nat.

(** What the client got is what the handler gave. *)
Lemma request_answered max_request_bytes r h response d :
  fits max_request_bytes r → request max_request_bytes r (connected h) = (Ok response, d) →
  ∃ h', handles r h = (Ok response, h') ∧ d = connected h'.
Proof.
  intros (bytes & Hr & Hfit) Hq. destruct (handles r h) as [o h'] eqn:Hh. exists h'.
  assert (∀ o, handle_json_request (bytes ++ [x0a]) h = (o, h') → ended_by o = true → False) as Hfail.
  { intros e He Hend. unfold request, bind, lift, send_bytes, modify in Hq. rewrite Hr in Hq. cbn [ok_or] in Hq.
    rewrite <- foldl_app, (send_fails _ _ _ _ _ (request_line _ _ Hr) Hfit He Hend) in Hq. done. }
  assert (request_of_json (bytes ++ [x0a]) = inl r) as Hj by apply (request_read_back _ _ Hr).
  unfold handle_json_request, typed_handler, json_rpc_response_for_request, bind, lift in Hfail.
  rewrite Hj, Hh in Hfail. destruct o as [response'|[]| |]; [|by destruct (Hfail _ eq_refl)..].
  cbn [from_void] in Hfail. destruct (json_of_response response') as [answer|] eqn:Ha; [|by destruct (Hfail _ eq_refl)].
  assert (request max_request_bytes r (connected h) = (Ok response', connected h')) as Hq'.
  { eapply (request_served _ r bytes); [exact Hr|exact Hfit| |exact Ha].
    eapply typed_handled; [exact Hr|by right|exact Hh|exact Ha]. }
  rewrite Hq' in Hq. by injection Hq as -> <-.
Qed.

(** C16. A session on a line connection is the handler's own: a client that
    sends requests one after the other, each within the size limit, receives
    exactly the responses the handler gives to them in that order, none lost,
    mixed up or left over, and the server ends in the handler's state. *)
Theorem line_session_refines max_request_bytes requests h responses h' :
  mapM handles requests h = (Ok responses, h') →
  Forall (fits max_request_bytes) requests → Forall (λ r, is_Some (json_of_response r)) responses →
  mapM (request max_request_bytes) requests (connected h) = (Ok responses, connected h').
Proof.
  revert h responses. induction requests as [|r requests IH]; intros h responses; [by intros [= <- <-]|].
  cbn [mapM]. unfold bind at 1. destruct (handles r h) as [[response| | |] h1] eqn:Hh; try done.
  unfold bind at 1. destruct (mapM handles requests h1) as [[rest| | |] h2] eqn:Hrest; try done.
  intros [= <- <-] [(bytes & Hr & Hfit) Hfits]%Forall_cons [[answer Ha] Hans]%Forall_cons.
  assert (request max_request_bytes r (connected h) = (Ok response, connected h1)) as Hq.
  { eapply (request_served _ r bytes); [exact Hr|exact Hfit| |exact Ha].
    eapply typed_handled; [exact Hr|by right|exact Hh|exact Ha]. }
  unfold bind at 1. rewrite Hq. unfold bind. by rewrite (IH h1 rest).
Qed.

(** C17. Over HTTP a request whose encoding is within the server's size limit is
    answered by the handler: the client's head is accepted, its body
    delimited, the handler's response encoded, declared and read back with
    status 200, and the server ends in the handler's state.  The lengths
    declared in the two heads are 64-bit numbers. *)
Theorem http_post_answers max_request_bytes r bytes h response answer h' :
  json_of_request r = Some bytes → N.of_nat (length bytes) ≤ N.min max_request_bytes u64_max →
  handles r h = (Ok response, h') →
  json_of_response response = Some answer → N.of_nat (length answer) ≤ u64_max →
  post max_request_bytes r h = (Ok (200, response), h').
Proof.
  intros Hr Hm Hh Ha Hl. unfold post, bind, lift. rewrite Hr. cbn [ok_or].
  eapply post_bytes_served; [lia..| |done|by apply response_read_back].
  eapply typed_handled; [done|by left|done|done].
Qed.
End clients.
