(* ===== verification/Serving.v ===== *)
(** * Serving: connections one after the other

    [JsonRpcServer] and [HttpJsonRpcServer] of crates/detta-rpc/src/lib.rs, the
    loops of crates/detta-node/src/bin/detta-node.rs that serve a node, and the
    servers crates/detta-e2e/src/network.rs runs in a thread.  The connections
    that arrive are a list, each the bytes its peer sends; the loops wait when
    it is exhausted.  Addresses and threads are not modelled. *)
From S2P Require Import Prelude Effects Merkle Types State AspectRuntime Verify Block Release.
From S2P Require Import RpcTypes Rpc RpcTransport.

Record JsonRpcServer := { jrs_max_request_bytes : nat }.
Record HttpJsonRpcServer := { hjs_max_request_bytes : N }.
Definition tcp_bind : JsonRpcServer := {| jrs_max_request_bytes := N.to_nat DEFAULT_MAX_RPC_REQUEST_BYTES |}.
Definition tcp_with_max_request_bytes (max_request_bytes : nat) (server : JsonRpcServer) : JsonRpcServer :=
  {| jrs_max_request_bytes := max_request_bytes |}.
Definition http_bind : HttpJsonRpcServer := {| hjs_max_request_bytes := DEFAULT_MAX_RPC_REQUEST_BYTES |}.
Definition http_with_max_request_bytes (max_request_bytes : N) (server : HttpJsonRpcServer) : HttpJsonRpcServer :=
  {| hjs_max_request_bytes := max_request_bytes |}.

(** What the listener sees: connections not yet accepted, and what was
    written to each one accepted. *)
Record Listener (Handler : Type) := {
  ls_handler : Handler; ls_incoming : list (list byte); ls_answered : list (list byte);
}.
Arguments ls_handler {Handler}.
Arguments ls_incoming {Handler}.
Arguments ls_answered {Handler}.
(** How a loop ends: it waits for a connection, is done, or has failed. *)
Inductive Served := ServedWaiting | ServedDone | ServedFailed (error : RpcTransportError) | ServedPanicked.
Section serving.
Context `{RpcJson, JsonRpcHandler Handler}.
(** [serve_next_connection_with_handler], the connection already accepted. *)
Definition serve_tcp (server : JsonRpcServer) (input : list byte) (h : Handler)
    : outcome RpcTransportError () * Handler * list byte :=
  let '(o, (h, out)) := serve_json_rpc_handler_connection (jrs_max_request_bytes server) input (h, []) in
  (o, h, out).
Definition serve_http (server : HttpJsonRpcServer) (input : list byte) (h : Handler)
    : outcome RpcTransportError () * Handler * list byte :=
  let '(o, h) := serve_http_json_rpc_handler_connection (hjs_max_request_bytes server) input h in
  ((let* _ := o in Ok ()), h, match o with Ok answer => default [] answer | _ => [] end).
(** The loop both transports share: [while max_connections == 0 || served <
    max_connections]. *)
Fixpoint serve_connections (serve : list byte → Handler → outcome RpcTransportError () * Handler * list byte)
    (max_connections served : nat) (incoming : list (list byte)) (answered : list (list byte)) (h : Handler)
    : Served * Listener Handler :=
  let now h incoming answered := {| ls_handler := h; ls_incoming := incoming; ls_answered := answered |} in
  if negb (max_connections =? 0)%nat && (max_connections <=? served)%nat then (ServedDone, now h incoming answered)
  else match incoming with
  | [] => (ServedWaiting, now h [] answered)
  | input :: rest =>
      let '(o, h, out) := serve input h in
      match o with
      | Ok _ => serve_connections serve max_connections (S served) rest (answered ++ [out]) h
      | Err error => (ServedFailed error, now h rest (answered ++ [out]))
      | _ => (ServedPanicked, now h rest (answered ++ [out]))
      end
  end.
Definition serve_tcp_connections (server : JsonRpcServer) (max_connections : nat) (l : Listener Handler)
    : Served * Listener Handler :=
  serve_connections (serve_tcp server) max_connections 0 (ls_incoming l) (ls_answered l) (ls_handler l).
Definition serve_http_connections (server : HttpJsonRpcServer) (max_connections : nat) (l : Listener Handler)
    : Served * Listener Handler :=
  serve_connections (serve_http server) max_connections 0 (ls_incoming l) (ls_answered l) (ls_handler l).

(** ** What the loops do *)
(** A connection within the limits leaves the handler in the state its lines
    lead to; one that exceeds them stops the loop. *)
Definition line_answers (input : list byte) (h : Handler) (out : list byte) (h' : Handler) (server : JsonRpcServer) : Prop :=
  serve_each (jrs_max_request_bytes server) (split_lines [] input) (h, []) = (Ok (), (h', out)).
Inductive all_answered (server : JsonRpcServer) : list (list byte) → Handler → list (list byte) → Handler → Prop :=
| answered_none h : all_answered server [] h [] h
| answered_one input incoming h out h1 outs h2 :
    line_answers input h out h1 server → all_answered server incoming h1 outs h2 →
    all_answered server (input :: incoming) h (out :: outs) h2.
Lemma serve_tcp_lines server input h o h' out :
  serve_each (jrs_max_request_bytes server) (split_lines [] input) (h, []) = (o, (h', out)) →
  serve_tcp server input h = (o, h', out).
Proof.
  intros Hs. unfold serve_tcp, serve_json_rpc_handler_connection.
  rewrite serve_lines_spec by lia. by rewrite Hs.
Qed.
Lemma serve_answered server incoming h outs h' :
  all_answered server incoming h outs h' → ∀ max_connections served rest answered,
  max_connections = 0%nat ∨ (served + length incoming ≤ max_connections)%nat →
  serve_connections (serve_tcp server) max_connections served (incoming ++ rest) answered h
  = serve_connections (serve_tcp server) max_connections (served + length incoming) rest (answered ++ outs) h'.
Proof.
  induction 1 as [h|input incoming h out h1 outs h2 Hl _ IH]; intros max_connections served rest answered Hm.
  { by rewrite Nat.add_0_r, app_nil_r. }
  cbn [app serve_connections length] in *.
  assert (negb (max_connections =? 0)%nat && (max_connections <=? served)%nat = false) as ->.
  { destruct Hm as [->|Hm]; [done|]. rewrite (proj2 (Nat.leb_gt _ _)) by lia. by rewrite andb_false_r. }
  rewrite (serve_tcp_lines _ _ _ _ _ _ Hl). rewrite IH by (destruct Hm; [by left|right; lia]).
  by rewrite <- app_assoc, Nat.add_succ_r.
Qed.

(** One peer can end the service: the loop answers every connection in
    order as long as their lines fit, but a connection that sends a longer
    line makes it return the error; the connections after that one are never
    accepted, although [max_connections] is 0, "forever". *)
Theorem serving_ends_at_oversized_line server incoming h outs h' bad later line lines :
  all_answered server incoming h outs h' →
  split_lines [] bad = line :: lines → (jrs_max_request_bytes server < length line)%nat →
  serve_tcp_connections server 0 {| ls_handler := h; ls_incoming := incoming ++ bad :: later; ls_answered := [] |}
  = (ServedFailed (RequestTooLarge (N.of_nat (jrs_max_request_bytes server))),
     {| ls_handler := h'; ls_incoming := later; ls_answered := outs ++ [[]] |}).
Proof.
  intros Ha Hs Hl. unfold serve_tcp_connections. cbn [ls_incoming ls_answered ls_handler].
  rewrite (serve_answered _ _ _ _ _ Ha) by (by left). cbn [serve_connections Nat.eqb negb andb].
  rewrite (serve_tcp_lines server bad h' (Err (RequestTooLarge (N.of_nat (jrs_max_request_bytes server)))) h' []);
    [done|]. rewrite Hs. cbn [serve_each]. by rewrite decide_False by lia.
Qed.
(** Well-behaved peers are all served, in order, and the loop then waits. *)
Theorem serving_answers_all server incoming h outs h' :
  all_answered server incoming h outs h' →
  serve_tcp_connections server 0 {| ls_handler := h; ls_incoming := incoming; ls_answered := [] |}
  = (ServedWaiting, {| ls_handler := h'; ls_incoming := []; ls_answered := outs |}).
Proof.
  intros Ha. unfold serve_tcp_connections. cbn [ls_incoming ls_answered ls_handler].
  rewrite <- (app_nil_r incoming), (serve_answered _ _ _ _ _ Ha) by (by left). done.
Qed.
End serving.
