(* ===== verification/Node.v ===== *)
(** * Node: the persistent validator node

    [PersistentValidatorNode] of crates/detta-node/src/lib.rs: bootstrap and
    restart, transactions and blocks with their persistence, validator-set
    metadata updates behind a quorum of authorizations, the double-signing
    guard and the ingestion of network envelopes.  A node works on its
    in-memory state and on its files ([World]); the elapsed time it records
    is an argument of the operations that measure it. *)
From S2P Require Import Prelude Effects Merkle Types State AspectRuntime Runtime Exec Transactions Mempool Block.
From S2P Require Import Consensus Protocol Network Storage Verify Evaluator Fixtures RpcTypes Rpc.

Definition DEFAULT_NODE_NETWORK_ID : string := "detta-localnet".
Definition DEFAULT_MAX_PENDING_VALIDATOR_SET_METADATA_UPDATES : nat := 128.
Definition DEFAULT_MAX_PENDING_VALIDATOR_SET_METADATA_AUTHORIZATIONS_PER_VALIDATOR : nat := 32.
Definition DEFAULT_MAX_VALIDATOR_SET_METADATA_AUDIT_RECORDS : N := 4096.
Definition DEFAULT_MAX_VALIDATOR_SET_METADATA_AUDIT_PAGE_SIZE : nat := 100.
Definition DEFAULT_MAX_SNAPSHOT_IMPORT_AUDIT_RECORDS : N := 4096.
Definition DEFAULT_MAX_SNAPSHOT_IMPORT_AUDIT_PAGE_SIZE : N := 100.

Definition SNAPSHOT_METADATA_VALIDATOR_SET_AUDIT_ROOT : string := "validator_set_metadata_audit_root".
Definition SNAPSHOT_METADATA_STATE_SYNC_CLIENT_METRICS_ROOT : string := "state_sync_client_metrics_root".
Definition SNAPSHOT_METADATA_REQUIRED_METADATA_ROOTS_ROOT : string := "required_snapshot_metadata_roots_root".
Definition SNAPSHOT_METADATA_SNAPSHOT_IMPORT_AUDIT_ROOT : string := "snapshot_import_audit_root".
Definition SNAPSHOT_METADATA_SNAPSHOT_IMPORT_AUDIT_CONFIG_ROOT : string :=
  "snapshot_import_audit_config_root".

Inductive NodeError :=
| NodeRpc (error : RpcError)
| NodeStorage (error : StorageError)
| NodeBlock (error : BlockError)
| NodeMempool (error : MempoolError)
| NodeNetwork (error : NetworkError)
| NodeConsensus (error : ConsensusError)
| ValidatorKeyNotFound (signer : string)
| NodeSignature (error : SignatureError)
| NodeSnapshotSync (error : SnapshotSyncError)
| SnapshotRootNotFound (requested available : string)
| SigningKeyMismatch (expected actual : string)
| ConsensusMessageSignerMismatch (expected actual : string)
| BlockProposerMismatch (expected actual : string)
| UnexpectedSignedMessage (expected actual : ProtocolMessageKind)
| UnexpectedSnapshotSyncMessage (expected actual : ProtocolMessageKind)
| DuplicateValidatorKey (validator_id : string)
| ValidatorMetadataKeyNotFound (validator_id : string)
| ValidatorSetMetadataUpdateAlreadyApplied (update_id : string)
| ValidatorSetMetadataUpdateMismatch
| ValidatorSetMetadataUpdateNotFound (update_id : string)
| ValidatorSetMetadataUpdateExpired (update_id : string) (expires_at_height current_height : N)
| ValidatorSetMetadataAuthorizationPoolFull (pending_updates max_pending_updates : nat)
| ValidatorSetMetadataAuthorizationRateLimited (signer : string)
    (pending_authorizations max_pending_authorizations : nat)
| ValidatorSetChainMismatch (expected actual : string)
| UnsignedValidatorSetMetadataUpdate
| ConsensusSigningConflict (validator_id : string) (domain : ValidatorSignatureDomain) (height : N)
    (existing_block_hash attempted_block_hash : string).
Inductive NetworkIngestOutcome :=
| TransactionAccepted | BlockImported | VoteReceived | FinalityCertificateReceived
| EquivocationEvidencePersisted | ValidatorSetMetadataUpdated
| ValidatorSetMetadataAuthorizationStored | IgnoredControlMessage.

Record PersistentValidatorNode := {
  pvn_validator_id : string;
  pvn_network_id : string;
  pvn_chain_id : ChainId;
  pvn_validator_keys : gmap string ValidatorPublicKey;
  pvn_applied_validator_set_updates : gset string;
  pvn_pending_authorizations : gmap string (gmap string SignedValidatorMessage);
  pvn_max_pending_updates : nat;
  pvn_max_pending_authorizations_per_validator : nat;
  pvn_max_validator_set_metadata_audit_records : N;
  pvn_max_validator_set_metadata_audit_page_size : nat;
  pvn_max_snapshot_import_audit_records : N;
  pvn_max_snapshot_import_audit_page_size : N;
  pvn_observed_peer_ids : gset string;
  pvn_last_block_execution_micros : option N;
  pvn_last_proof_serving_micros : option N;
  pvn_rpc_error_count : N;
  pvn_operator_alert_policy : OperatorAlertPolicy;
  pvn_rpc : RpcService;
}.
Record World := { nw_node : PersistentValidatorNode; nw_files : FileSystem }.
Abbreviation NM := (SE World NodeError).

(** The node both constructors start from. *)
Definition fresh_node (validator_id : string) (chain_id : ChainId) (rpc : RpcService)
    : PersistentValidatorNode :=
  {| pvn_validator_id := validator_id; pvn_network_id := DEFAULT_NODE_NETWORK_ID;
     pvn_chain_id := chain_id; pvn_validator_keys := ∅; pvn_applied_validator_set_updates := ∅;
     pvn_pending_authorizations := ∅;
     pvn_max_pending_updates := DEFAULT_MAX_PENDING_VALIDATOR_SET_METADATA_UPDATES;
     pvn_max_pending_authorizations_per_validator :=
       DEFAULT_MAX_PENDING_VALIDATOR_SET_METADATA_AUTHORIZATIONS_PER_VALIDATOR;
     pvn_max_validator_set_metadata_audit_records := DEFAULT_MAX_VALIDATOR_SET_METADATA_AUDIT_RECORDS;
     pvn_max_validator_set_metadata_audit_page_size :=
       DEFAULT_MAX_VALIDATOR_SET_METADATA_AUDIT_PAGE_SIZE;
     pvn_max_snapshot_import_audit_records := DEFAULT_MAX_SNAPSHOT_IMPORT_AUDIT_RECORDS;
     pvn_max_snapshot_import_audit_page_size := DEFAULT_MAX_SNAPSHOT_IMPORT_AUDIT_PAGE_SIZE;
     pvn_observed_peer_ids := ∅; pvn_last_block_execution_micros := None;
     pvn_last_proof_serving_micros := None; pvn_rpc_error_count := 0;
     pvn_operator_alert_policy := default_operator_alert_policy; pvn_rpc := rpc |}.

(** ** Field updates *)
Definition set_validator_set (network_id : string) (keys : gmap string ValidatorPublicKey)
    (applied : gset string) (n : PersistentValidatorNode) : PersistentValidatorNode :=
  {| pvn_validator_id := pvn_validator_id n; pvn_network_id := network_id;
     pvn_chain_id := pvn_chain_id n; pvn_validator_keys := keys;
     pvn_applied_validator_set_updates := applied;
     pvn_pending_authorizations := pvn_pending_authorizations n;
     pvn_max_pending_updates := pvn_max_pending_updates n;
     pvn_max_pending_authorizations_per_validator := pvn_max_pending_authorizations_per_validator n;
     pvn_max_validator_set_metadata_audit_records := pvn_max_validator_set_metadata_audit_records n;
     pvn_max_validator_set_metadata_audit_page_size := pvn_max_validator_set_metadata_audit_page_size n;
     pvn_max_snapshot_import_audit_records := pvn_max_snapshot_import_audit_records n;
     pvn_max_snapshot_import_audit_page_size := pvn_max_snapshot_import_audit_page_size n;
     pvn_observed_peer_ids := pvn_observed_peer_ids n;
     pvn_last_block_execution_micros := pvn_last_block_execution_micros n;
     pvn_last_proof_serving_micros := pvn_last_proof_serving_micros n;
     pvn_rpc_error_count := pvn_rpc_error_count n;
     pvn_operator_alert_policy := pvn_operator_alert_policy n; pvn_rpc := pvn_rpc n |}.
Definition set_pending_authorizations (pending : gmap string (gmap string SignedValidatorMessage))
    (n : PersistentValidatorNode) : PersistentValidatorNode :=
  {| pvn_validator_id := pvn_validator_id n; pvn_network_id := pvn_network_id n;
     pvn_chain_id := pvn_chain_id n; pvn_validator_keys := pvn_validator_keys n;
     pvn_applied_validator_set_updates := pvn_applied_validator_set_updates n;
     pvn_pending_authorizations := pending; pvn_max_pending_updates := pvn_max_pending_updates n;
     pvn_max_pending_authorizations_per_validator := pvn_max_pending_authorizations_per_validator n;
     pvn_max_validator_set_metadata_audit_records := pvn_max_validator_set_metadata_audit_records n;
     pvn_max_validator_set_metadata_audit_page_size := pvn_max_validator_set_metadata_audit_page_size n;
     pvn_max_snapshot_import_audit_records := pvn_max_snapshot_import_audit_records n;
     pvn_max_snapshot_import_audit_page_size := pvn_max_snapshot_import_audit_page_size n;
     pvn_observed_peer_ids := pvn_observed_peer_ids n;
     pvn_last_block_execution_micros := pvn_last_block_execution_micros n;
     pvn_last_proof_serving_micros := pvn_last_proof_serving_micros n;
     pvn_rpc_error_count := pvn_rpc_error_count n;
     pvn_operator_alert_policy := pvn_operator_alert_policy n; pvn_rpc := pvn_rpc n |}.
Definition set_limits (pending_updates authorizations : nat) (audit_records : N) (audit_page : nat)
    (import_records import_page : N) (n : PersistentValidatorNode) : PersistentValidatorNode :=
  {| pvn_validator_id := pvn_validator_id n; pvn_network_id := pvn_network_id n;
     pvn_chain_id := pvn_chain_id n; pvn_validator_keys := pvn_validator_keys n;
     pvn_applied_validator_set_updates := pvn_applied_validator_set_updates n;
     pvn_pending_authorizations := pvn_pending_authorizations n;
     pvn_max_pending_updates := pending_updates;
     pvn_max_pending_authorizations_per_validator := authorizations;
     pvn_max_validator_set_metadata_audit_records := audit_records;
     pvn_max_validator_set_metadata_audit_page_size := audit_page;
     pvn_max_snapshot_import_audit_records := import_records;
     pvn_max_snapshot_import_audit_page_size := import_page;
     pvn_observed_peer_ids := pvn_observed_peer_ids n;
     pvn_last_block_execution_micros := pvn_last_block_execution_micros n;
     pvn_last_proof_serving_micros := pvn_last_proof_serving_micros n;
     pvn_rpc_error_count := pvn_rpc_error_count n;
     pvn_operator_alert_policy := pvn_operator_alert_policy n; pvn_rpc := pvn_rpc n |}.
Definition set_service (rpc : RpcService) (n : PersistentValidatorNode) : PersistentValidatorNode :=
  {| pvn_validator_id := pvn_validator_id n; pvn_network_id := pvn_network_id n;
     pvn_chain_id := pvn_chain_id n; pvn_validator_keys := pvn_validator_keys n;
     pvn_applied_validator_set_updates := pvn_applied_validator_set_updates n;
     pvn_pending_authorizations := pvn_pending_authorizations n;
     pvn_max_pending_updates := pvn_max_pending_updates n;
     pvn_max_pending_authorizations_per_validator := pvn_max_pending_authorizations_per_validator n;
     pvn_max_validator_set_metadata_audit_records := pvn_max_validator_set_metadata_audit_records n;
     pvn_max_validator_set_metadata_audit_page_size := pvn_max_validator_set_metadata_audit_page_size n;
     pvn_max_snapshot_import_audit_records := pvn_max_snapshot_import_audit_records n;
     pvn_max_snapshot_import_audit_page_size := pvn_max_snapshot_import_audit_page_size n;
     pvn_observed_peer_ids := pvn_observed_peer_ids n;
     pvn_last_block_execution_micros := pvn_last_block_execution_micros n;
     pvn_last_proof_serving_micros := pvn_last_proof_serving_micros n;
     pvn_rpc_error_count := pvn_rpc_error_count n;
     pvn_operator_alert_policy := pvn_operator_alert_policy n; pvn_rpc := rpc |}.
Definition set_observations (peers : gset string) (block_micros proof_micros : option N) (errors : N)
    (n : PersistentValidatorNode) : PersistentValidatorNode :=
  {| pvn_validator_id := pvn_validator_id n; pvn_network_id := pvn_network_id n;
     pvn_chain_id := pvn_chain_id n; pvn_validator_keys := pvn_validator_keys n;
     pvn_applied_validator_set_updates := pvn_applied_validator_set_updates n;
     pvn_pending_authorizations := pvn_pending_authorizations n;
     pvn_max_pending_updates := pvn_max_pending_updates n;
     pvn_max_pending_authorizations_per_validator := pvn_max_pending_authorizations_per_validator n;
     pvn_max_validator_set_metadata_audit_records := pvn_max_validator_set_metadata_audit_records n;
     pvn_max_validator_set_metadata_audit_page_size := pvn_max_validator_set_metadata_audit_page_size n;
     pvn_max_snapshot_import_audit_records := pvn_max_snapshot_import_audit_records n;
     pvn_max_snapshot_import_audit_page_size := pvn_max_snapshot_import_audit_page_size n;
     pvn_observed_peer_ids := peers; pvn_last_block_execution_micros := block_micros;
     pvn_last_proof_serving_micros := proof_micros; pvn_rpc_error_count := errors;
     pvn_operator_alert_policy := pvn_operator_alert_policy n; pvn_rpc := pvn_rpc n |}.

Definition the_node : NM PersistentValidatorNode := gets nw_node.
Definition on_pvn (f : PersistentValidatorNode → PersistentValidatorNode) : NM () :=
  modify (λ w, {| nw_node := f (nw_node w); nw_files := nw_files w |}).
(** Errors of a component, wrapped. *)
Definition wrapped {E A} (wrap : E → NodeError) (o : outcome E A) : outcome NodeError A :=
  match o with Ok a => Ok a | Err e => Err (wrap e) | Panic => Panic | OutOfFuel => OutOfFuel end.
Definition stored {A} (m : FM A) : NM A := λ w,
  let '(o, fs) := m (nw_files w) in
  (wrapped NodeStorage o, {| nw_node := nw_node w; nw_files := fs |}).
Definition on_rpc {A} (m : RM A) : NM A := λ w,
  let '(o, rpc) := m (pvn_rpc (nw_node w)) in
  (wrapped NodeRpc o, {| nw_node := set_service rpc (nw_node w); nw_files := nw_files w |}).
(** [if let Err(error) = m { handler }] *)
Definition catch {A} (m : NM A) (handler : NodeError → NM A) : NM A := λ w,
  match m w with
  | (Err error, w') => handler error w'
  | (o, w') => (o, w')
  end.
(** Time measured, in microseconds. *)
Definition elapsed_micros (elapsed : N) : N := N.max (N.min elapsed u64_max) 1.
Definition current_height (n : PersistentValidatorNode) : N := height (svc_state (pvn_rpc n)).

(** ** Validator keys and signed messages *)
Definition validator_set_metadata_update_expired (update : ValidatorSetMetadataUpdate)
    (current_height : N) : bool :=
  match vsm_expires_at_height update with
  | Some expires_at_height => expires_at_height <=? current_height
  | None => false
  end.
Definition add_key (keyring : gmap string ValidatorPublicKey) (public_key : ValidatorPublicKey)
    : outcome NodeError (gmap string ValidatorPublicKey) :=
  do* ensure (bool_decide (keyring !! vpk_validator_id public_key = None))
    (DuplicateValidatorKey (vpk_validator_id public_key)) in
  Ok (<[vpk_validator_id public_key := public_key]> keyring).
Definition remove_key (keyring : gmap string ValidatorPublicKey) (validator_id : string)
    : outcome NodeError (gmap string ValidatorPublicKey) :=
  do* ensure (bool_decide (is_Some (keyring !! validator_id))) (ValidatorMetadataKeyNotFound validator_id) in
  Ok (delete validator_id keyring).
(** [for x in l { acc = f(acc, x)?; }] *)
Fixpoint foldR {E A B} (f : A → B → outcome E A) (acc : A) (l : list B) : outcome E A :=
  match l with
  | [] => Ok acc
  | x :: l => let* acc := f acc x in foldR f acc l
  end.
Definition keyring_from_metadata (metadata : ValidatorSetMetadata)
    : outcome NodeError (gmap string ValidatorPublicKey) :=
  foldR add_key ∅ (vmd_validators metadata).
(** The keyring after an update: removals, then additions. *)
Definition updated_keyring (update : ValidatorSetMetadataUpdate)
    (keyring : gmap string ValidatorPublicKey) : outcome NodeError (gmap string ValidatorPublicKey) :=
  let* keyring := foldR remove_key keyring (vsm_remove_validators update) in
  foldR add_key keyring (vsm_add_validators update).
Definition validator_set_metadata_quorum (n : PersistentValidatorNode) : nat :=
  Nat.max (quorum_for (size (pvn_validator_keys n))) 1.
Definition validator_set_metadata_update_status (n : PersistentValidatorNode) (update_id : string)
    : ValidatorSetMetadataUpdateStatus :=
  {| vus_update_id := update_id;
     vus_pending_authorizations := match pvn_pending_authorizations n !! update_id with
                                   | Some authorizations => size authorizations | None => O end;
     vus_required_quorum := validator_set_metadata_quorum n;
     vus_applied := bool_decide (update_id ∈ pvn_applied_validator_set_updates n) |}.

Record ConsensusSigningCommitment := {
  cc_domain : ValidatorSignatureDomain; cc_height : N; cc_block_hash : string;
}.
#[export] Instance ValidatorPublicKey_eq_dec : EqDecision ValidatorPublicKey.
Proof. solve_decision. Defined.
#[export] Instance ValidatorSetMetadataUpdate_eq_dec : EqDecision ValidatorSetMetadataUpdate.
Proof. solve_decision. Defined.

Section node.
Context `{Host, Wire, !Json StateSnapshot, !Json Block, !Json FinalityCertificate, !Json SlashingRecord}.
Context `{!Json ValidatorSetMetadata, !Json (list SignedValidatorMessage), !Json (gmap string string)}.
Context `{!Json (list ValidatorSetMetadataAuditRecord), !Json SnapshotImportAuditConfig}.
Context `{!Json (list Transaction), !Json ConsensusSigningRecord}.

Definition verify_signed_validator_message (n : PersistentValidatorNode)
    (signed : SignedValidatorMessage) : outcome NodeError () :=
  let* public_key := ok_or (pvn_validator_keys n !! sm_signer signed)
    (ValidatorKeyNotFound (sm_signer signed)) in
  wrapped NodeSignature (verify_signed signed (pvn_network_id n) (pvn_chain_id n) public_key).
Definition verified_signed_validator_message (n : PersistentValidatorNode)
    (signed : SignedValidatorMessage) : outcome NodeError ProtocolMessage :=
  do* verify_signed_validator_message n signed in Ok (into_message signed).
Definition verified_validator_set_metadata_update (n : PersistentValidatorNode)
    (signed : SignedValidatorMessage) : outcome NodeError ValidatorSetMetadataUpdate :=
  let* message := verified_signed_validator_message n signed in
  match message with
  | MsgValidatorSetMetadataUpdate update => Ok update
  | other => Err (UnexpectedSignedMessage KindValidatorSetMetadataUpdate (kind other))
  end.
Definition verified_consensus_vote (n : PersistentValidatorNode) (message : ProtocolMessage)
    : outcome NodeError Vote :=
  match message with
  | MsgSignedValidator signed =>
      let* message := verified_signed_validator_message n signed in
      match message with
      | MsgVote vote => Ok vote
      | other => Err (UnexpectedSignedMessage KindVote (kind other))
      end
  | other => Err (UnexpectedSignedMessage KindVote (kind other))
  end.
Definition collect_finality_certificate (n : PersistentValidatorNode) (height : N) (block_hash : string)
    (messages : list ProtocolMessage) (quorum : nat) : outcome NodeError FinalityCertificate :=
  let* votes := mapR (verified_consensus_vote n) messages in
  wrapped NodeConsensus (certificate_from_votes height block_hash votes quorum).

(** ** Persistence *)
Definition persist_mempool : NM () :=
  let! n := the_node in
  stored (commit_mempool (mem_pending (vn_mempool (svc_node (pvn_rpc n))))).
Definition persist_committed_block (block : Block) : NM () :=
  do! stored (commit_block block) in
  let! n := the_node in
  do! stored (commit_snapshot (snapshot (svc_state (pvn_rpc n)))) in
  persist_mempool.
Definition persist_current_snapshot_metadata_roots : NM () :=
  let! metadata_roots := stored load_snapshot_metadata_roots in
  let! root := stored validator_set_metadata_audit_root in
  stored (commit_snapshot_metadata_roots
            (<[SNAPSHOT_METADATA_VALIDATOR_SET_AUDIT_ROOT := root]> metadata_roots)).
Definition record_validator_set_metadata_audit (update_id : string)
    (audit_outcome : ValidatorSetMetadataAuditOutcome) (signers : list string) (reason : string) : NM () :=
  let! n := the_node in
  do! stored (append_validator_set_metadata_audit_record_with_retention
        {| var_update_id := update_id; var_outcome := audit_outcome; var_height := current_height n;
           var_signers := signers; var_reason := reason |}
        (pvn_max_validator_set_metadata_audit_records n)) in
  persist_current_snapshot_metadata_roots.
(** The authorizations of every update, update by update and signer by
    signer. *)
Definition all_authorizations (pending : gmap string (gmap string SignedValidatorMessage))
    : list SignedValidatorMessage :=
  concat (values <$> values pending).
Definition persist_pending_validator_set_metadata_authorizations : NM () :=
  let! n := the_node in
  stored (commit_pending_validator_set_metadata_authorizations
            (all_authorizations (pvn_pending_authorizations n))).

(** ** Transactions, blocks and certificates *)
Definition node_submit_transaction (tx : Transaction) : NM () :=
  do! on_rpc (rpc_submit_transaction tx) in persist_mempool.
Definition record_block_time (elapsed : N) : NM () := on_pvn (λ n,
  set_observations (pvn_observed_peer_ids n) (Some (elapsed_micros elapsed))
    (pvn_last_proof_serving_micros n) (pvn_rpc_error_count n) n).
Definition node_produce_block (elapsed height timestamp : N) : NM Block :=
  let! block := on_rpc (rpc_produce_block height timestamp) in
  do! record_block_time elapsed in
  do! persist_committed_block block in
  ret block.
Definition node_import_block (elapsed : N) (block : Block) : NM () :=
  do! on_rpc (rpc_import_block block) in
  do! record_block_time elapsed in
  persist_committed_block block.
Definition persist_finality_certificate (certificate : FinalityCertificate) : NM () :=
  do! stored (commit_finality_certificate certificate) in
  on_rpc (publish_finality_certificate certificate).
Definition persist_equivocation_evidence (evidence : EquivocationEvidence) : NM SlashingRecord :=
  let record := {| sr_validator_id := ee_validator_id evidence; sr_slashed_at_height := ee_height evidence;
                   sr_evidence := evidence |} in
  do! stored (commit_slashing_record record) in
  ret record.

(** ** Validator-set metadata *)
Definition persist_validator_set_metadata (network_id : string) (validator_keys : list ValidatorPublicKey)
    : NM () :=
  let! n := the_node in
  let metadata := {| vmd_network_id := network_id; vmd_chain_id := pvn_chain_id n;
                     vmd_validators := validator_keys; vmd_applied_updates := [] |} in
  let? keyring := keyring_from_metadata metadata in
  do! stored (commit_validator_set_metadata metadata) in
  on_pvn (set_validator_set network_id keyring ∅).
Definition apply_validator_set_metadata (metadata : ValidatorSetMetadata) : NM () :=
  let! n := the_node in
  do? ensure (bool_decide (vmd_chain_id metadata = pvn_chain_id n))
    (ValidatorSetChainMismatch (pvn_chain_id n) (vmd_chain_id metadata)) in
  let? keyring := keyring_from_metadata metadata in
  on_pvn (set_validator_set (vmd_network_id metadata) keyring (list_to_set (vmd_applied_updates metadata))).
Definition apply_validator_set_metadata_update (update : ValidatorSetMetadataUpdate) : NM () :=
  let! n := the_node in
  do? ensure (negb (bool_decide (vsm_update_id update ∈ pvn_applied_validator_set_updates n)))
    (ValidatorSetMetadataUpdateAlreadyApplied (vsm_update_id update)) in
  let? next_keyring := updated_keyring update (pvn_validator_keys n) in
  let applied_updates := {[vsm_update_id update]} ∪ pvn_applied_validator_set_updates n in
  do! stored (commit_validator_set_metadata
        {| vmd_network_id := pvn_network_id n; vmd_chain_id := pvn_chain_id n;
           vmd_validators := values next_keyring; vmd_applied_updates := set_iter applied_updates |}) in
  on_pvn (set_validator_set (pvn_network_id n) next_keyring applied_updates).
(** The loop over the messages: the update they agree on and who signed it. *)
Definition authorize (n : PersistentValidatorNode)
    (acc : option ValidatorSetMetadataUpdate * gset string) (message : ProtocolMessage)
    : outcome NodeError (option ValidatorSetMetadataUpdate * gset string) :=
  match message with
  | MsgSignedValidator signed =>
      let* update := verified_validator_set_metadata_update n signed in
      do* ensure (negb (bool_decide (vsm_update_id update ∈ pvn_applied_validator_set_updates n)))
        (ValidatorSetMetadataUpdateAlreadyApplied (vsm_update_id update)) in
      let* authorized_update := match acc.1 with
        | Some expected =>
            do* ensure (bool_decide (expected = update)) ValidatorSetMetadataUpdateMismatch in Ok expected
        | None => Ok update
        end in
      Ok (Some authorized_update, {[sm_signer signed]} ∪ acc.2)
  | other => Err (UnexpectedSignedMessage KindValidatorSetMetadataUpdate (kind other))
  end.
Definition apply_quorum_authorized_validator_set_metadata_update_with_quorum
    (messages : list ProtocolMessage) (quorum : nat) : NM () :=
  let! n := the_node in
  let? authorized := foldR (authorize n) (None, ∅) messages in
  do? ensure (quorum <=? size authorized.2)%nat
    (NodeConsensus (QuorumNotReached (size authorized.2) quorum)) in
  let? update := ok_or authorized.1 (NodeConsensus (QuorumNotReached 0 quorum)) in
  apply_validator_set_metadata_update update.
Definition apply_quorum_authorized_validator_set_metadata_update (messages : list ProtocolMessage) : NM () :=
  let! n := the_node in
  apply_quorum_authorized_validator_set_metadata_update_with_quorum messages (validator_set_metadata_quorum n).

(** *** Pending authorizations *)
Definition node_rpc_error_code (error : NodeError) : string :=
  match error with
  | ValidatorSetMetadataUpdateAlreadyApplied _ => "node.validator_set_metadata_update_already_applied"
  | ValidatorSetMetadataUpdateMismatch => "node.validator_set_metadata_update_mismatch"
  | ValidatorSetMetadataUpdateNotFound _ => "node.validator_set_metadata_update_not_found"
  | ValidatorSetMetadataUpdateExpired _ _ _ => "node.validator_set_metadata_update_expired"
  | ValidatorSetMetadataAuthorizationPoolFull _ _ => "node.validator_set_metadata_authorization_pool_full"
  | ValidatorSetMetadataAuthorizationRateLimited _ _ _ =>
      "node.validator_set_metadata_authorization_rate_limited"
  | UnsignedValidatorSetMetadataUpdate => "node.unsigned_validator_set_metadata_update"
  | ConsensusSigningConflict _ _ _ _ _ => "node.consensus_signing_conflict"
  | ConsensusMessageSignerMismatch _ _ => "node.consensus_message_signer_mismatch"
  | NodeSignature _ => "node.validator_signature_error"
  | ValidatorKeyNotFound _ => "node.validator_key_not_found"
  | NodeConsensus (QuorumNotReached _ _) => "node.validator_quorum_not_reached"
  | NodeMempool e => mempool_error_code e
  | _ => "node.error"
  end.
(** The checks of [insert_pending_validator_set_metadata_authorization]: the
    update the authorization is for. *)
Definition admit_authorization (n : PersistentValidatorNode) (signed : SignedValidatorMessage)
    : outcome NodeError ValidatorSetMetadataUpdate :=
  let* update := verified_validator_set_metadata_update n signed in
  do* match vsm_expires_at_height update with
      | Some expires_at_height =>
          ensure (negb (expires_at_height <=? current_height n))
            (ValidatorSetMetadataUpdateExpired (vsm_update_id update) expires_at_height (current_height n))
      | None => Ok ()
      end in
  do* ensure (negb (bool_decide (vsm_update_id update ∈ pvn_applied_validator_set_updates n)))
    (ValidatorSetMetadataUpdateAlreadyApplied (vsm_update_id update)) in
  let signer := sm_signer signed in
  let pending := pvn_pending_authorizations n in
  let existing := pending !! vsm_update_id update in
  let replacing := match existing with
    | Some authorizations => bool_decide (is_Some (authorizations !! signer))
    | None => false
    end in
  do* ensure (negb (bool_decide (existing = None) && (pvn_max_pending_updates n <=? size pending)%nat))
    (ValidatorSetMetadataAuthorizationPoolFull (size pending) (pvn_max_pending_updates n)) in
  let for_signer := length (filter (λ authorizations, is_Some (authorizations !! signer)) (values pending)) in
  do* ensure (negb (negb replacing && (pvn_max_pending_authorizations_per_validator n <=? for_signer)%nat))
    (ValidatorSetMetadataAuthorizationRateLimited signer for_signer
       (pvn_max_pending_authorizations_per_validator n)) in
  do* match existing with
      | Some authorizations =>
          match values authorizations with
          | first :: _ =>
              let* existing_update := verified_validator_set_metadata_update n first in
              ensure (bool_decide (existing_update = update)) ValidatorSetMetadataUpdateMismatch
          | [] => Ok ()
          end
      | None => Ok ()
      end in
  Ok update.
Definition insert_pending_validator_set_metadata_authorization (signed : SignedValidatorMessage) : NM nat :=
  let! n := the_node in
  let? update := admit_authorization n signed in
  let entry := <[sm_signer signed := signed]>
    (default ∅ (pvn_pending_authorizations n !! vsm_update_id update)) in
  do! on_pvn (set_pending_authorizations
        (<[vsm_update_id update := entry]> (pvn_pending_authorizations n))) in
  ret (size entry).
Definition record_pending_validator_set_metadata_authorization (message : ProtocolMessage) : NM nat :=
  match message with
  | MsgSignedValidator signed =>
      let! n := the_node in
      let! count := catch (insert_pending_validator_set_metadata_authorization signed) (λ error,
        match verified_validator_set_metadata_update n signed with
        | Ok update =>
            do! record_validator_set_metadata_audit (vsm_update_id update) AuditRejected
                  [sm_signer signed] (node_rpc_error_code error) in
            throw error
        | _ => throw error
        end) in
      do! persist_pending_validator_set_metadata_authorizations in
      ret count
  | other => throw (UnexpectedSignedMessage KindValidatorSetMetadataUpdate (kind other))
  end.
Definition apply_pending_validator_set_metadata_update (update_id : string) : NM () :=
  let! n := the_node in
  let? authorizations := ok_or (pvn_pending_authorizations n !! update_id)
    (ValidatorSetMetadataUpdateNotFound update_id) in
  let signers := keys authorizations in
  let messages := MsgSignedValidator <$> values authorizations in
  do! catch (apply_quorum_authorized_validator_set_metadata_update messages) (λ error,
    do! record_validator_set_metadata_audit update_id AuditRejected signers (node_rpc_error_code error) in
    throw error) in
  do! record_validator_set_metadata_audit update_id AuditApplied signers "applied" in
  do! on_pvn (λ n, set_pending_authorizations (delete update_id (pvn_pending_authorizations n)) n) in
  persist_pending_validator_set_metadata_authorizations.
Definition propose_validator_set_metadata_update_authorization (authorization : SignedValidatorMessage)
    : NM ValidatorSetMetadataUpdateStatus :=
  let! n := the_node in
  let? update := verified_validator_set_metadata_update n authorization in
  let! authorization_count :=
    record_pending_validator_set_metadata_authorization (MsgSignedValidator authorization) in
  let! n := the_node in
  do! (if (validator_set_metadata_quorum n <=? authorization_count)%nat
       then apply_pending_validator_set_metadata_update (vsm_update_id update) else ret ()) in
  let! n := the_node in
  ret (validator_set_metadata_update_status n (vsm_update_id update)).
(** Why an update is pruned, if it is. *)
Definition prune_reason (n : PersistentValidatorNode) (update_id : string)
    (authorizations : gmap string SignedValidatorMessage) : outcome NodeError (option string) :=
  match values authorizations with
  | [] => Ok (Some "empty_authorization_set")
  | signed :: _ =>
      let* update := verified_validator_set_metadata_update n signed in
      if bool_decide (update_id ∈ pvn_applied_validator_set_updates n) then Ok (Some "already_applied")
      else if validator_set_metadata_update_expired update (current_height n) then Ok (Some "expired")
      else Ok None
  end.
Definition prune_validator_set_metadata_authorizations : NM nat :=
  let! n := the_node in
  let? reasons := mapR (λ '(update_id, authorizations),
    let* reason := prune_reason n update_id authorizations in
    Ok (match reason with Some reason => [(update_id, keys authorizations, reason)] | None => [] end))
    (entries (pvn_pending_authorizations n)) in
  let pruned_updates := concat reasons in
  match pruned_updates with
  | [] => ret O
  | _ =>
      do! forM (λ '(update_id, signers, reason),
        do! on_pvn (λ n, set_pending_authorizations (delete update_id (pvn_pending_authorizations n)) n) in
        record_validator_set_metadata_audit update_id AuditPruned signers reason) pruned_updates in
      do! persist_pending_validator_set_metadata_authorizations in
      ret (length pruned_updates)
  end.
Definition load_pending : NM () :=
  let! authorizations := stored load_pending_validator_set_metadata_authorizations in
  do! on_pvn (set_pending_authorizations ∅) in
  do! forM (λ signed,
    let! n := the_node in
    let? update := verified_validator_set_metadata_update n signed in
    if bool_decide (vsm_update_id update ∈ pvn_applied_validator_set_updates n)
       || validator_set_metadata_update_expired update (current_height n) then ret ()
    else do! insert_pending_validator_set_metadata_authorization signed in ret ()) authorizations in
  persist_pending_validator_set_metadata_authorizations.

(** ** Bootstrap and restart *)
Definition stored_only {A} (m : FM A) : SE FileSystem NodeError A := λ fs,
  let '(o, fs) := m fs in (wrapped NodeStorage o, fs).
Definition run_node {A} (m : NM A) (n : PersistentValidatorNode)
    : SE FileSystem NodeError PersistentValidatorNode := λ fs,
  let '(o, w) := m {| nw_node := n; nw_files := fs |} in
  (let* _ := o in Ok (nw_node w), nw_files w).
Definition bootstrap (validator_id : string) (state : DeTTaState)
    : SE FileSystem NodeError PersistentValidatorNode :=
  do! stored_only (commit_snapshot (snapshot state)) in
  do! stored_only (commit_mempool []) in
  ret (fresh_node validator_id (chain_id state) (rpc_new (validator_node_new validator_id state))).
Definition bootstrap_with_validator_set (validator_id : string) (state : DeTTaState) (network_id : string)
    (validator_keys : list ValidatorPublicKey) : SE FileSystem NodeError PersistentValidatorNode :=
  let! n := bootstrap validator_id state in
  run_node (persist_validator_set_metadata network_id validator_keys) n.
Definition restart (validator_id : string) : SE FileSystem NodeError PersistentValidatorNode :=
  let! snapshot := stored_only load_snapshot in
  let? state := wrapped (λ e, NodeStorage (StoreInvalidSnapshot e)) (from_snapshot snapshot) in
  let! pending := stored_only load_mempool in
  let? node := wrapped NodeMempool (with_pending_transactions validator_id state pending) in
  run_node (
    let! metadata := stored maybe_load_validator_set_metadata in
    do! match metadata with Some metadata => apply_validator_set_metadata metadata | None => ret () end in
    let! config := stored maybe_load_snapshot_import_audit_config in
    do! match config with
        | Some config => on_pvn (λ n, set_limits (pvn_max_pending_updates n)
            (pvn_max_pending_authorizations_per_validator n)
            (pvn_max_validator_set_metadata_audit_records n)
            (pvn_max_validator_set_metadata_audit_page_size n)
            (sic_max_records config) (sic_max_page_size config) n)
        | None => ret ()
        end in
    load_pending) (fresh_node validator_id (chain_id state) (rpc_new node)).

(** ** Signing *)
Definition consensus_signing_commitment (validator_id : string) (message : ProtocolMessage)
    : outcome NodeError (option ConsensusSigningCommitment) :=
  match message with
  | MsgBlock block =>
      do* ensure (bool_decide (hdr_proposer (blk_header block) = validator_id))
        (ConsensusMessageSignerMismatch validator_id (hdr_proposer (blk_header block))) in
      Ok (Some {| cc_domain := DomainBlockProposal; cc_height := hdr_height (blk_header block);
                  cc_block_hash := block_hash block |})
  | MsgVote vote =>
      do* ensure (bool_decide (vote_validator_id vote = validator_id))
        (ConsensusMessageSignerMismatch validator_id (vote_validator_id vote)) in
      Ok (Some {| cc_domain := DomainVote; cc_height := vote_height vote;
                  cc_block_hash := vote_block_hash vote |})
  | MsgFinalityCertificate certificate =>
      Ok (Some {| cc_domain := DomainFinalityCertificate; cc_height := fc_height certificate;
                  cc_block_hash := fc_block_hash certificate |})
  | _ => Ok None
  end.
(** [others] is what other processes do to the files meanwhile. *)
Definition reserve_consensus_signing_record (others : FileSystem → FileSystem) (message : ProtocolMessage)
    : NM () :=
  let! n := the_node in
  let? commitment := consensus_signing_commitment (pvn_validator_id n) message in
  match commitment with
  | None => ret ()
  | Some c =>
      let record := {| csr_validator_id := pvn_validator_id n; csr_domain := cc_domain c;
                       csr_height := cc_height c; csr_block_hash := cc_block_hash c |} in
      let! existing := stored (commit_consensus_signing_record_if_absent others record) in
      match existing with
      | Some existing => lift (ensure (bool_decide (csr_block_hash existing = csr_block_hash record))
          (ConsensusSigningConflict (csr_validator_id record) (csr_domain record) (csr_height record)
             (csr_block_hash existing) (csr_block_hash record)))
      | None => ret ()
      end
  end.
Definition sign_validator_message (others : FileSystem → FileSystem) (signing_key : ValidatorSigningKey)
    (message : ProtocolMessage) : NM ProtocolMessage :=
  let! n := the_node in
  do? ensure (bool_decide (vsk_validator_id signing_key = pvn_validator_id n))
    (SigningKeyMismatch (pvn_validator_id n) (vsk_validator_id signing_key)) in
  do! reserve_consensus_signing_record others message in
  let? signed := wrapped NodeSignature
    (sign_message signing_key (pvn_network_id n) (pvn_chain_id n) message) in
  ret (MsgSignedValidator signed).

(** ** Network envelopes *)
Definition observe_peer (from : PeerId) : NM () := on_pvn (λ n,
  if bool_decide (from = pvn_validator_id n) then n else
  set_observations ({[from]} ∪ pvn_observed_peer_ids n) (pvn_last_block_execution_micros n)
    (pvn_last_proof_serving_micros n) (pvn_rpc_error_count n) n).
(** The sender and the message of an envelope; [to] is not read. *)
Fixpoint ingest (elapsed : N) (from : PeerId) (message : ProtocolMessage) : NM NetworkIngestOutcome :=
  do! observe_peer from in
  match message with
  | MsgTransaction tx => do! node_submit_transaction tx in ret TransactionAccepted
  | MsgBlock block => do! node_import_block elapsed block in ret BlockImported
  | MsgVote _ => ret VoteReceived
  | MsgFinalityCertificate _ => ret FinalityCertificateReceived
  | MsgEquivocationEvidence evidence =>
      do! persist_equivocation_evidence evidence in ret EquivocationEvidencePersisted
  | MsgValidatorSetMetadataUpdate _ => throw UnsignedValidatorSetMetadataUpdate
  | MsgSignedValidator
      (signed_validator_message signer key_id network_id chain_id domain inner signature_hex) =>
      let signed := signed_validator_message signer key_id network_id chain_id domain inner signature_hex in
      let! n := the_node in
      do? verify_signed_validator_message n signed in
      match inner with
      | MsgValidatorSetMetadataUpdate update =>
          let! authorization_count :=
            record_pending_validator_set_metadata_authorization (MsgSignedValidator signed) in
          let! n := the_node in
          if (validator_set_metadata_quorum n <=? authorization_count)%nat then
            do! apply_pending_validator_set_metadata_update (vsm_update_id update) in
            ret ValidatorSetMetadataUpdated
          else ret ValidatorSetMetadataAuthorizationStored
      | inner => ingest elapsed from inner
      end
  | MsgValidatorSetUpdate _ | MsgStateSnapshot _ | MsgPeerHello _ | MsgSnapshotChunkRequest _
  | MsgSnapshotChunkManifest _ | MsgSnapshotChunk _ => ret IgnoredControlMessage
  end.
Definition ingest_network_envelope (elapsed : N) (envelope : Envelope) : NM NetworkIngestOutcome :=
  ingest elapsed (env_from envelope) (env_message envelope).
End node.
