(* ===== verification/NodeReports.v ===== *)
(** * NodeReports: a node's answers and what it gossips

    The rest of crates/detta-node/src/lib.rs but the snapshot client: limits,
    metadata roots, health, metrics and alerts, the RPC requests a persistent
    node answers from its files, and signing with gossip.  The elapsed time
    of a request and the [Debug] text of errors are arguments. *)
From S2P Require Import Prelude Effects Merkle Types State Proofs AspectRuntime Runtime Exec Transactions Mempool Block.
From S2P Require Import Consensus Protocol Network Storage Verify Evaluator Fixtures Rehearsal RpcTypes Rpc RpcTransport Node.

(** ** Settings *)
Definition set_network_id (network_id : string) (n : PersistentValidatorNode) : PersistentValidatorNode :=
  set_validator_set network_id (pvn_validator_keys n) (pvn_applied_validator_set_updates n) n.
Definition trust_validator_key (public_key : ValidatorPublicKey) (n : PersistentValidatorNode)
    : PersistentValidatorNode :=
  set_validator_set (pvn_network_id n) (<[vpk_validator_id public_key := public_key]> (pvn_validator_keys n))
    (pvn_applied_validator_set_updates n) n.
Definition set_validator_set_metadata_authorization_limits
    (max_pending_updates max_pending_authorizations_per_validator : nat) (n : PersistentValidatorNode)
    : PersistentValidatorNode :=
  set_limits max_pending_updates max_pending_authorizations_per_validator
    (pvn_max_validator_set_metadata_audit_records n) (pvn_max_validator_set_metadata_audit_page_size n)
    (pvn_max_snapshot_import_audit_records n) (pvn_max_snapshot_import_audit_page_size n) n.
Definition set_validator_set_metadata_audit_limits (max_records : N) (max_page_size : nat)
    (n : PersistentValidatorNode) : PersistentValidatorNode :=
  set_limits (pvn_max_pending_updates n) (pvn_max_pending_authorizations_per_validator n)
    max_records max_page_size
    (pvn_max_snapshot_import_audit_records n) (pvn_max_snapshot_import_audit_page_size n) n.
Definition set_operator_alert_policy (policy : OperatorAlertPolicy) (n : PersistentValidatorNode)
    : PersistentValidatorNode :=
  {| pvn_validator_id := pvn_validator_id n; pvn_network_id := pvn_network_id n;
     pvn_chain_id := pvn_chain_id n; pvn_validator_keys := pvn_validator_keys n;
     pvn_applied_validator_set_updates := pvn_applied_validator_set_updates n;
     pvn_pending_authorizations := pvn_pending_authorizations n;
     pvn_max_pending_updates := pvn_max_pending_updates n;
     pvn_max_pending_authorizations_per_validator := pvn_max_pending_authorizations_per_validator n;
     pvn_max_validator_set_metadata_audit_records := pvn_max_validator_set_metadata_audit_records n;
     pvn_max_validator_set_metadata_audit_page_size := pvn_max_validator_set_metadata_audit_page_size n;
     pvn_max_snapshot_import_audit_records := pvn_max_snapshot_import_audit_records n;
     pvn_max_snapshot_import_audit_page_size := pvn_max_snapshot_import_audit_page_size n;
     pvn_observed_peer_ids := pvn_observed_peer_ids n;
     pvn_last_block_execution_micros := pvn_last_block_execution_micros n;
     pvn_last_proof_serving_micros := pvn_last_proof_serving_micros n;
     pvn_rpc_error_count := pvn_rpc_error_count n;
     pvn_operator_alert_policy := policy; pvn_rpc := pvn_rpc n |}.
Definition snapshot_import_audit_config (n : PersistentValidatorNode) : SnapshotImportAuditConfig :=
  {| sic_max_records := pvn_max_snapshot_import_audit_records n;
     sic_max_page_size := pvn_max_snapshot_import_audit_page_size n |}.
Definition pending_validator_set_metadata_authorization_count (n : PersistentValidatorNode)
    (update_id : string) : nat :=
  match pvn_pending_authorizations n !! update_id with Some authorizations => size authorizations | None => O end.

(** ** Snapshot synchronisation metrics *)
Record SnapshotSyncClientMetrics := {
  ssm_retry_attempts : N; ssm_stream_failures : N; ssm_requests_sent : N; ssm_manifests_received : N;
  ssm_chunks_received : N; ssm_resume_requests : N; ssm_metadata_roots_verified : bool;
  ssm_required_metadata_roots_root : option string;
}.
Definition snapshot_sync_client_metrics_report (metrics : SnapshotSyncClientMetrics)
    : SnapshotSyncClientMetricsReport :=
  {| smr_retry_attempts := ssm_retry_attempts metrics; smr_stream_failures := ssm_stream_failures metrics;
     smr_requests_sent := ssm_requests_sent metrics;
     smr_manifests_received := ssm_manifests_received metrics;
     smr_chunks_received := ssm_chunks_received metrics;
     smr_resume_requests := ssm_resume_requests metrics;
     smr_metadata_roots_verified := ssm_metadata_roots_verified metrics;
     smr_required_metadata_roots_root := ssm_required_metadata_roots_root metrics |}.
Record PersistentNodeSnapshot := {
  pns_state_snapshot : StateSnapshot; pns_validator_set_metadata_audit_root : string;
}.

(** ** Alerts *)
Definition operator_alert (code : string) (severity : OperatorAlertSeverity) (message : string)
    : OperatorAlert :=
  {| oa_code := code; oa_severity := severity; oa_message := message |}.
Definition operator_alerts_for_state (policy : OperatorAlertPolicy) (metrics : OperatorMetricsReport)
    (root_mismatch : bool) (slashing_record_count latest_block_failure_count latest_block_receipt_count : nat)
    : list OperatorAlert :=
  report (match omr_peer_count metrics with Some peers => (peers <? oap_min_peer_count policy)%nat | None => false end)
    (operator_alert "operator.peer_isolation" AlertCritical "observed peer count is below policy minimum") ++
  report ((0 <? omr_consensus_height metrics)
          && match omr_finality_lag metrics with Some lag => oap_max_finality_lag policy <? lag | None => true end)
    (operator_alert "operator.stalled_consensus" AlertCritical "finality lag exceeds policy threshold") ++
  report root_mismatch
    (operator_alert "operator.root_mismatch" AlertCritical "persisted metadata roots do not match local roots") ++
  report ((0 <? latest_block_receipt_count)%nat
          && (oap_max_latest_block_failure_ratio_per_mille policy
              <? N.of_nat latest_block_failure_count * 1000 / N.of_nat latest_block_receipt_count))
    (operator_alert "operator.excessive_reverts" AlertWarning
       "latest block failure ratio exceeds policy threshold") ++
  report (0 <? slashing_record_count)%nat
    (operator_alert "operator.slashing_evidence" AlertCritical "durable slashing evidence is present") ++
  report (match omr_storage_bytes metrics with Some bytes => oap_max_storage_bytes policy <? bytes | None => false end)
    (operator_alert "operator.disk_pressure" AlertWarning "storage byte count exceeds policy threshold") ++
  report (oap_max_rpc_error_count policy <? omr_rpc_error_count metrics)
    (operator_alert "operator.rpc_overload" AlertWarning "RPC error count exceeds policy threshold") ++
  report (oap_max_mempool_size policy <? omr_mempool_size metrics)%nat
    (operator_alert "operator.mempool_saturation" AlertWarning "mempool size exceeds policy threshold").
Definition records_proof_latency (request : RpcRequest) : bool :=
  match request with
  | ReqGetReceiptProof _ _ | ReqGetAspectModuleProof _ | ReqGetStorageProof _
  | ReqGetStorageNonInclusionProof _ | ReqGetRegistryProof _ | ReqGetRegistryNonInclusionProof _
  | ReqGetOutboxMessageProof _ | ReqGetEventProof _ => true
  | _ => false
  end.

Section reports.
Context `{Host, Wire, !Json StateSnapshot, !Json Block, !Json FinalityCertificate, !Json SlashingRecord}.
Context `{!Json ValidatorSetMetadata, !Json (list SignedValidatorMessage), !Json (gmap string string)}.
Context `{!Json (list ValidatorSetMetadataAuditRecord), !Json SnapshotImportAuditConfig}.
Context `{!Json (list Transaction), !Json ConsensusSigningRecord}.
Context `{!Json (list SnapshotImportAuditRecord), !Json SnapshotSyncClientMetrics}.

Definition set_snapshot_import_audit_limits (max_records max_page_size : N) : NM () :=
  do! on_pvn (λ n, set_limits (pvn_max_pending_updates n) (pvn_max_pending_authorizations_per_validator n)
        (pvn_max_validator_set_metadata_audit_records n) (pvn_max_validator_set_metadata_audit_page_size n)
        max_records max_page_size n) in
  stored (commit_snapshot_import_audit_config {| sic_max_records := max_records; sic_max_page_size := max_page_size |}).
Definition persist_snapshot_sync_client_metrics (metrics : SnapshotSyncClientMetrics) : NM () :=
  stored (commit_snapshot_sync_client_metrics metrics).

(** ** Metadata roots *)
(** Insert what is there under its key. *)
Definition put_root (key : string) (root : option string) (roots : gmap string string) : gmap string string :=
  match root with Some root => <[key := root]> roots | None => roots end.
(** The root of a collection that is not empty. *)
Definition root_unless_empty {T} `{Json T} (empty : bool) (v : T) : FM (option string) :=
  if empty then ret None else let? root := hash_canonical_json v in ret (Some root).
Definition local_import_audit_root : FM (option string) :=
  let! records := load_snapshot_import_audit_records in
  root_unless_empty (bool_decide (length records = 0%nat)) records.
Definition local_required_roots_root : FM (option string) :=
  let! roots := load_required_snapshot_metadata_roots in
  root_unless_empty (bool_decide (size roots = 0%nat)) roots.
Definition effective_snapshot_metadata_roots : NM (gmap string string) :=
  let! metadata_roots := stored load_snapshot_metadata_roots in
  let! metadata_roots :=
    (if bool_decide (metadata_roots !! SNAPSHOT_METADATA_VALIDATOR_SET_AUDIT_ROOT = None) then
       let! root := stored validator_set_metadata_audit_root in
       ret (<[SNAPSHOT_METADATA_VALIDATOR_SET_AUDIT_ROOT := root]> metadata_roots)
     else ret metadata_roots) in
  let! metrics_root := stored (snapshot_sync_client_metrics_root (T:=SnapshotSyncClientMetrics)) in
  let! required_root := stored local_required_roots_root in
  let! import_root := stored local_import_audit_root in
  let! config_root := stored snapshot_import_audit_config_root in
  ret (put_root SNAPSHOT_METADATA_SNAPSHOT_IMPORT_AUDIT_CONFIG_ROOT config_root
        (put_root SNAPSHOT_METADATA_SNAPSHOT_IMPORT_AUDIT_ROOT import_root
          (put_root SNAPSHOT_METADATA_REQUIRED_METADATA_ROOTS_ROOT required_root
            (put_root SNAPSHOT_METADATA_STATE_SYNC_CLIENT_METRICS_ROOT metrics_root metadata_roots)))).
Definition node_snapshot : NM PersistentNodeSnapshot :=
  let! metadata_roots := effective_snapshot_metadata_roots in
  let! n := the_node in
  ret {| pns_state_snapshot := snapshot (svc_state (pvn_rpc n));
         pns_validator_set_metadata_audit_root :=
           default "" (metadata_roots !! SNAPSHOT_METADATA_VALIDATOR_SET_AUDIT_ROOT) |}.
Definition node_snapshot_roots : NM PersistentNodeSnapshotRoots :=
  let! snapshot := node_snapshot in
  let! import_records := stored load_snapshot_import_audit_records in
  let! required_roots := stored load_required_snapshot_metadata_roots in
  let! required_root := stored required_snapshot_metadata_roots_root in
  let! metrics := stored (load_snapshot_sync_client_metrics (T:=SnapshotSyncClientMetrics)) in
  let! config_root := stored snapshot_import_audit_config_root in
  let! import_root := stored snapshot_import_audit_root in
  let! n := the_node in
  let state := pns_state_snapshot snapshot in
  ret {| psr_storage_root := snap_storage_root state; psr_registry_root := snap_registry_root state;
         psr_policy_root := snap_policy_root state; psr_event_root := snap_event_root state;
         psr_nonce_root := snap_nonce_root state; psr_outbox_root := snap_outbox_root state;
         psr_global_state_root := snap_global_state_root state;
         psr_validator_set_metadata_audit_root := pns_validator_set_metadata_audit_root snapshot;
         psr_snapshot_import_audit_root := import_root;
         psr_snapshot_import_audit_record_count := length import_records;
         psr_snapshot_import_audit_max_records := pvn_max_snapshot_import_audit_records n;
         psr_snapshot_import_audit_max_page_size := pvn_max_snapshot_import_audit_page_size n;
         psr_snapshot_import_audit_config_root := config_root;
         psr_required_snapshot_metadata_roots := required_roots;
         psr_required_snapshot_metadata_roots_root := required_root;
         psr_snapshot_sync_client_metrics := snapshot_sync_client_metrics_report <$> metrics |}.
(** The five fields of one root; the validator-set root always has a local
    value and prefers the persisted one, the others prefer the local one. *)
Definition audit_root_status (local : string) (persisted : option string) : RootStatus string :=
  {| rts_effective := default local persisted; rts_local := local; rts_persisted := persisted;
     rts_using_imported := match persisted with Some root => bool_decide (root ≠ local) | None => false end;
     rts_persisted_matches_local :=
       match persisted with Some root => bool_decide (root = local) | None => false end |}.
Definition optional_root_status (local persisted : option string) : RootStatus (option string) :=
  {| rts_effective := match local with Some root => Some root | None => persisted end;
     rts_local := local; rts_persisted := persisted;
     rts_using_imported := bool_decide (local = None) && bool_decide (is_Some persisted);
     rts_persisted_matches_local :=
       match persisted with Some root => bool_decide (Some root = local) | None => false end |}.
Definition snapshot_metadata_root_status : NM SnapshotMetadataRootStatus :=
  let! persisted := stored load_snapshot_metadata_roots in
  let! local_audit_root := stored validator_set_metadata_audit_root in
  let! local_config_root := stored snapshot_import_audit_config_root in
  let! local_import_root := stored local_import_audit_root in
  let! local_required_root := stored local_required_roots_root in
  let! local_metrics_root := stored (snapshot_sync_client_metrics_root (T:=SnapshotSyncClientMetrics)) in
  ret {| mrs_validator_set_metadata_audit := audit_root_status local_audit_root
           (persisted !! SNAPSHOT_METADATA_VALIDATOR_SET_AUDIT_ROOT);
         mrs_snapshot_import_audit_config := optional_root_status local_config_root
           (persisted !! SNAPSHOT_METADATA_SNAPSHOT_IMPORT_AUDIT_CONFIG_ROOT);
         mrs_snapshot_import_audit := optional_root_status local_import_root
           (persisted !! SNAPSHOT_METADATA_SNAPSHOT_IMPORT_AUDIT_ROOT);
         mrs_required_snapshot_metadata_roots := optional_root_status local_required_root
           (persisted !! SNAPSHOT_METADATA_REQUIRED_METADATA_ROOTS_ROOT);
         mrs_snapshot_sync_client_metrics := optional_root_status local_metrics_root
           (persisted !! SNAPSHOT_METADATA_STATE_SYNC_CLIENT_METRICS_ROOT) |}.
Definition required_snapshot_metadata_roots_report : NM RequiredSnapshotMetadataRootsReport :=
  let! roots := stored load_required_snapshot_metadata_roots in
  let! root := stored required_snapshot_metadata_roots_root in
  ret {| rmr_roots := roots; rmr_root := root |}.

(** ** Health, metrics and alerts *)
Definition persistent_node_health (n : PersistentValidatorNode) : NodeHealthReport :=
  let health := node_health (pvn_rpc n) in
  {| nhr_chain_id := nhr_chain_id health; nhr_network_id := Some (pvn_network_id n);
     nhr_validator_id := Some (pvn_validator_id n); nhr_height := nhr_height health;
     nhr_pending_mempool_transactions := nhr_pending_mempool_transactions health;
     nhr_trusted_validator_keys := Some (size (pvn_validator_keys n));
     nhr_pending_validator_set_metadata_updates := Some (size (pvn_pending_authorizations n));
     nhr_storage_root := nhr_storage_root health; nhr_registry_root := nhr_registry_root health;
     nhr_policy_root := nhr_policy_root health; nhr_event_root := nhr_event_root health;
     nhr_nonce_root := nhr_nonce_root health; nhr_outbox_root := nhr_outbox_root health;
     nhr_global_state_root := nhr_global_state_root health |}.
(** The loop over [(1..=candidate).rev()]. *)
Fixpoint highest_certificate (candidate : nat) : FM (option N) :=
  match candidate with
  | O => ret None
  | S below =>
      let! certificate := maybe_load_finality_certificate (N.of_nat candidate) in
      match certificate with
      | Some _ => ret (Some (N.of_nat candidate))
      | None => highest_certificate below
      end
  end.
Definition highest_finalized_height : NM (option N) :=
  let! n := the_node in stored (highest_certificate (N.to_nat (current_height n))).
Definition latest_block_failure_counts : NM (nat * nat) :=
  let! n := the_node in
  if current_height n =? 0 then ret (0%nat, 0%nat) else
  let! block := stored (maybe_load_block (current_height n)) in
  match block with
  | None => ret (0%nat, 0%nat)
  | Some block =>
      ret (length (filter (λ receipt, rc_status receipt ≠ Committed) (blk_receipts block)),
           length (blk_receipts block))
  end.
Definition persisted_mismatch {Root} (status : RootStatus Root) : bool :=
  bool_decide (is_Some (rts_persisted status)) && negb (rts_persisted_matches_local status).
Definition snapshot_root_mismatch : NM bool :=
  let! status := snapshot_metadata_root_status in
  ret (persisted_mismatch (mrs_validator_set_metadata_audit status)
       || persisted_mismatch (mrs_snapshot_import_audit_config status)
       || persisted_mismatch (mrs_snapshot_import_audit status)
       || persisted_mismatch (mrs_required_snapshot_metadata_roots status)
       || persisted_mismatch (mrs_snapshot_sync_client_metrics status)).
Definition operator_metrics : NM OperatorMetricsReport :=
  let! n := the_node in
  let! finalized := highest_finalized_height in
  let! bytes := stored (gets storage_bytes) in
  ret {| omr_network_id := Some (pvn_network_id n); omr_validator_id := Some (pvn_validator_id n);
         omr_peer_count := Some (size (pvn_observed_peer_ids n));
         omr_mempool_size := length (mem_pending (vn_mempool (svc_node (pvn_rpc n))));
         omr_consensus_height := current_height n; omr_highest_finalized_height := finalized;
         omr_finality_lag := (λ height, saturating_sub (current_height n) height) <$> finalized;
         omr_last_block_execution_micros := pvn_last_block_execution_micros n;
         omr_last_proof_serving_micros := pvn_last_proof_serving_micros n;
         omr_storage_bytes := Some bytes; omr_rpc_error_count := pvn_rpc_error_count n |}.
Definition operator_alerts : NM OperatorAlertReport :=
  let! metrics := operator_metrics in
  let! root_mismatch := snapshot_root_mismatch in
  let! slashing_records := stored load_slashing_records in
  let! counts := latest_block_failure_counts in
  let! n := the_node in
  ret {| oar_policy := pvn_operator_alert_policy n; oar_metrics := metrics;
         oar_alerts := operator_alerts_for_state (pvn_operator_alert_policy n) metrics root_mismatch
           (length slashing_records) counts.1 counts.2;
         oar_root_mismatch := root_mismatch; oar_slashing_record_count := length slashing_records;
         oar_latest_block_failure_count := counts.1; oar_latest_block_receipt_count := counts.2 |}.

(** ** Requests *)
Section requests.
Context `{!Serialize TransactionSigningPayload, !Serialize (list TraceOp)}.
Context (debug_parse_error : ParseError → string) (model_file : string → list byte).
Context (debug_node_error : NodeError → string).

Definition node_rpc_error_response (error : NodeError) : RpcResponse :=
  RpcErr {| reb_code := node_rpc_error_code error; reb_message := debug_node_error error |}.
(** A result, or the error body of the RPC layer when nothing was found. *)
Definition found_response {A} (value : option A) (missing : RpcError) (result : A → RpcResult) : RpcResponse :=
  match value with Some a => RpcOk (result a) | None => RpcErr (rpc_error_body missing) end.
Definition result_of {A} (m : NM A) (result : A → RpcResult) : NM RpcResponse :=
  let! a := m in ret (RpcOk (result a)).
Definition stored_blocks_page (start_height : N) (limit : nat) (blocks : list Block) : BlockPage :=
  let effective_limit := Nat.min limit DEFAULT_MAX_BLOCK_PAGE_SIZE in
  {| bkp_blocks := take effective_limit (filter (λ b, start_height ≤ hdr_height (blk_header b)) blocks);
     bkp_start_height := start_height; bkp_limit := effective_limit;
     bkp_highest_height := foldr (λ b highest, N.max (hdr_height (blk_header b)) highest) 0 blocks |}.
(** The service answers what the node does not. *)
Definition service_answers (request : RpcRequest) : NM RpcResponse := λ w,
  let '(response, rpc) := handle_request debug_parse_error model_file request (pvn_rpc (nw_node w)) in
  (from_void response, {| nw_node := set_service rpc (nw_node w); nw_files := nw_files w |}).
Definition node_dispatch (elapsed : N) (request : RpcRequest) : NM RpcResponse :=
  match request with
  | ReqSubmitTransaction transaction => result_of (node_submit_transaction transaction) (λ _, ResSubmitted)
  | ReqSubmitSignedTransaction signed =>
      let! n := the_node in
      let? transaction := wrapped NodeMempool (into_authorized_transaction signed (svc_state (pvn_rpc n))) in
      result_of (node_submit_transaction transaction) (λ _, ResSubmitted)
  | ReqProduceBlock height timestamp => result_of (node_produce_block elapsed height timestamp) ResBlock
  | ReqImportBlock block => result_of (node_import_block elapsed block) (λ _, ResImported)
  | ReqGetBlock height =>
      let! block := stored (maybe_load_block height) in ret (found_response block BlockNotFound ResBlock)
  | ReqGetBlocksPage start_height limit =>
      result_of (stored load_blocks) (λ blocks, ResBlocksPage (stored_blocks_page start_height limit blocks))
  | ReqGetTransaction tx_hash =>
      let! tx := stored (find_transaction tx_hash) in ret (found_response tx TransactionNotFound ResTransaction)
  | ReqGetReceipt tx_hash =>
      let! receipt := stored (find_receipt tx_hash) in ret (found_response receipt ReceiptNotFound ResReceipt)
  | ReqGetReceiptProof height index =>
      let! block := stored (maybe_load_block height) in
      ret (match block with
           | Some block => found_response (receipt_proof block index) ProofNotFound ResReceiptProof
           | None => RpcErr (rpc_error_body BlockNotFound)
           end)
  | ReqGetFinalityCertificate height =>
      let! certificate := stored (maybe_load_finality_certificate height) in
      ret (found_response certificate CertificateNotFound ResFinalityCertificate)
  | ReqGetSlashingRecord validator_id =>
      let! record := stored (maybe_load_slashing_record validator_id) in
      ret (found_response record SlashingRecordNotFound ResSlashingRecord)
  | ReqGetNodeHealth => result_of the_node (λ n, ResNodeHealth (persistent_node_health n))
  | ReqGetOperatorMetrics => result_of operator_metrics ResOperatorMetrics
  | ReqGetOperatorAlerts => result_of operator_alerts ResOperatorAlerts
  | ReqProposeValidatorSetMetadataUpdate authorization =>
      result_of (propose_validator_set_metadata_update_authorization authorization)
        ResValidatorSetMetadataUpdateStatus
  | ReqGetValidatorSetMetadataUpdateStatus update_id =>
      result_of the_node (λ n,
        ResValidatorSetMetadataUpdateStatus (validator_set_metadata_update_status n update_id))
  | ReqGetValidatorSetMetadataAuditRecords offset limit =>
      let! n := the_node in
      result_of (stored (load_validator_set_metadata_audit_records_page offset
                   (Nat.min limit (pvn_max_validator_set_metadata_audit_page_size n))))
        ResValidatorSetMetadataAuditRecords
  | ReqGetSnapshotImportAuditRecords offset limit =>
      let! n := the_node in
      result_of (stored (load_snapshot_import_audit_records_page offset
                   (N.to_nat (N.min (N.of_nat limit) (pvn_max_snapshot_import_audit_page_size n)))))
        ResSnapshotImportAuditRecords
  | ReqGetSnapshotImportAuditRoot => result_of (stored snapshot_import_audit_root) ResSnapshotImportAuditRoot
  | ReqGetSnapshotImportAuditConfigRoot =>
      result_of (stored snapshot_import_audit_config_root) ResSnapshotImportAuditConfigRoot
  | ReqGetSnapshotImportAuditConfig =>
      result_of the_node (λ n, ResSnapshotImportAuditConfig (snapshot_import_audit_config n))
  | ReqGetPersistentNodeSnapshotRoots => result_of node_snapshot_roots ResPersistentNodeSnapshotRoots
  | ReqGetSnapshotMetadataRootStatus => result_of snapshot_metadata_root_status ResSnapshotMetadataRootStatus
  | ReqGetSnapshotSyncClientMetrics =>
      result_of (stored (load_snapshot_sync_client_metrics (T:=SnapshotSyncClientMetrics)))
        (λ metrics, ResSnapshotSyncClientMetrics (snapshot_sync_client_metrics_report <$> metrics))
  | ReqGetRequiredSnapshotMetadataRoots =>
      result_of required_snapshot_metadata_roots_report ResRequiredSnapshotMetadataRoots
  | request => service_answers request
  end.
(** The counters a request leaves behind. *)
Definition count_request (elapsed : N) (request : RpcRequest) (response : RpcResponse)
    (n : PersistentValidatorNode) : PersistentValidatorNode :=
  set_observations (pvn_observed_peer_ids n) (pvn_last_block_execution_micros n)
    (if records_proof_latency request then Some (elapsed_micros elapsed) else pvn_last_proof_serving_micros n)
    (match response with
     | RpcErr _ => saturating_add_u64 (pvn_rpc_error_count n) 1
     | RpcOk _ => pvn_rpc_error_count n
     end) n.
Definition handle_rpc_request (elapsed : N) (request : RpcRequest) : SE World Empty_set RpcResponse := λ w,
  let counted response w :=
    (Ok response, {| nw_node := count_request elapsed request response (nw_node w); nw_files := nw_files w |}) in
  match node_dispatch elapsed request w with
  | (Ok response, w) => counted response w
  | (Err error, w) => counted (node_rpc_error_response error) w
  | (Panic, w) => (Panic, w)
  | (OutOfFuel, w) => (OutOfFuel, w)
  end.
(** [JsonRpcHandler for PersistentValidatorNode] *)
Definition node_handler `{RpcJson} (elapsed : N) : JsonRpcHandler World :=
  λ request, json_rpc_response_for_request request (handle_rpc_request elapsed).
End requests.

(** ** Gossip *)
Section gossip.
(** What a node does with a transport at hand. *)
Definition gossip {A} (m : NM A) (message : A → ProtocolMessage)
    : SE (World * InMemoryTransport) NodeError nat := λ '(w, transport),
  match m w with
  | (Ok a, w) =>
      let '(sent, transport) := broadcast (pvn_validator_id (nw_node w)) (message a) transport in
      (wrapped NodeNetwork sent, (w, transport))
  | (Err error, w) => (Err error, (w, transport))
  | (Panic, w) => (Panic, (w, transport))
  | (OutOfFuel, w) => (OutOfFuel, (w, transport))
  end.
Definition submit_and_gossip_transaction (tx : Transaction) :=
  gossip (node_submit_transaction tx) (λ _, MsgTransaction tx).
Definition gossip_vote (vote : Vote) := gossip (ret ()) (λ _, MsgVote vote).
Definition gossip_finality_certificate (certificate : FinalityCertificate) :=
  gossip (ret ()) (λ _, MsgFinalityCertificate certificate).
Context (others : FileSystem → FileSystem) (signing_key : ValidatorSigningKey).
Definition persist_and_gossip_signed_finality_certificate (certificate : FinalityCertificate) :=
  gossip (do! persist_finality_certificate certificate in
          sign_validator_message others signing_key (MsgFinalityCertificate certificate)) id.
Definition persist_and_gossip_signed_equivocation_evidence (evidence : EquivocationEvidence) :=
  gossip (do! persist_equivocation_evidence evidence in
          sign_validator_message others signing_key (MsgEquivocationEvidence evidence)) id.
Definition sign_validator_set_metadata_update_authorization (update : ValidatorSetMetadataUpdate)
    : NM ProtocolMessage :=
  sign_validator_message others signing_key (MsgValidatorSetMetadataUpdate update).
Definition gossip_signed_validator_set_metadata_update_authorization (update : ValidatorSetMetadataUpdate) :=
  gossip (sign_validator_set_metadata_update_authorization update) id.
Definition gossip_signed_block_proposal (block : Block) :=
  gossip (let! n := the_node in
          do? ensure (bool_decide (hdr_proposer (blk_header block) = pvn_validator_id n))
            (BlockProposerMismatch (pvn_validator_id n) (hdr_proposer (blk_header block))) in
          sign_validator_message others signing_key (MsgBlock block)) id.
End gossip.
End reports.

