(* ===== verification/NodeTracks.v ===== *)
(** * NodeTracks: what a request may change

    A relation that every step of an operation keeps is kept by the whole:
    [tracks].  With equality it says that an operation only reads, and the
    queries of a node only read. *)
From S2P Require Import Prelude Effects Merkle Types State AspectRuntime Runtime Exec Transactions Mempool Block.
From S2P Require Import Consensus Protocol Network Storage Verify Evaluator Fixtures RpcTypes Rpc RpcTransport Node NodeReports.

(** ** Tracking a relation through an operation *)
Definition tracks {S E A} (R : relation S) (m : SE S E A) : Prop := ∀ s o s', m s = (o, s') → R s s'.
Section tracks.
Context {S E : Type} (R : relation S) `{!PreOrder R}.
Lemma tracks_ret {A} (a : A) : tracks (E:=E) R (ret a).
Proof. by intros s o s' [= _ <-]. Qed.
Lemma tracks_throw {A} (e : E) : tracks (A:=A) R (throw e).
Proof. by intros s o s' [= _ <-]. Qed.
Lemma tracks_lift {A} (o : outcome E A) : tracks R (lift o).
Proof. by intros s o' s' [= _ <-]. Qed.
Lemma tracks_gets {A} (f : S → A) : tracks (E:=E) R (gets f).
Proof. by intros s o s' [= _ <-]. Qed.
Lemma tracks_modify f : (∀ s, R s (f s)) → tracks (E:=E) R (modify f).
Proof. by intros Hf s o s' [= _ <-]. Qed.
Lemma tracks_bind {A B} (m : SE S E A) (k : A → SE S E B) :
  tracks R m → (∀ a, tracks R (k a)) → tracks R (bind m k).
Proof.
  intros Hm Hk s o s'. unfold bind. destruct (m s) as [[] s1] eqn:Hs; intros Hr;
    [by etrans; [eapply Hm|eapply Hk]|injection Hr as _ <-; by eapply Hm..].
Qed.
Lemma tracks_forM {A} (f : A → SE S E ()) l : (∀ a, tracks R (f a)) → tracks R (forM f l).
Proof. intros Hf. induction l as [|a l IH]; [apply tracks_ret|]. by apply tracks_bind. Qed.
Lemma tracks_mapM {A B} (f : A → SE S E B) l : (∀ a, tracks R (f a)) → tracks R (mapM f l).
Proof.
  intros Hf. induction l as [|a l IH]; [apply tracks_ret|]. apply tracks_bind; [done|]. intros.
  apply tracks_bind; [done|]. intros. apply tracks_ret.
Qed.
End tracks.
Create HintDb tracks discriminated.
#[export] Hint Constants Opaque : tracks.
#[export] Hint Resolve tracks_ret tracks_throw tracks_lift tracks_gets tracks_bind tracks_forM tracks_mapM : tracks.
#[export] Hint Extern 4 (tracks _ (match ?x with _ => _ end)) => destruct x : tracks.

Lemma bind_runs {S E A B} (m : SE S E A) (k : A → SE S E B) s a s1 :
  m s = (Ok a, s1) → bind m k s = k a s1.
Proof. unfold bind. by intros ->. Qed.

(** ** Operations that only read *)
Abbreviation reads := (tracks eq).
#[export] Instance eq_preorder {A} : PreOrder (@eq A).
Proof. split; [done|]. intros x y z. congruence. Qed.
Lemma reads_tracks {S E A} (R : relation S) `{!PreOrder R} (m : SE S E A) : reads m → tracks R m.
Proof. intros Hm s o s' <-%Hm. reflexivity. Qed.
Lemma reads_json {T} `{Json T} path : reads (read_json (T:=T) path).
Proof.
  intros fs o fs' Hr. pose proof (read_keeps (T:=T) path fs) as Hk. by rewrite Hr in Hk.
Qed.
Lemma reads_stored {A} (m : FM A) : reads m → reads (stored m).
Proof.
  intros Hm w o w'. unfold stored. destruct (m (nw_files w)) as [o1 fs] eqn:Hr. intros [= _ <-].
  apply Hm in Hr as <-. by destruct w.
Qed.
Ltac reads_step :=
  lazymatch goal with
  | |- reads (bind _ _) => apply tracks_bind; [apply _| |intros ?]
  | |- reads (ret _) => apply tracks_ret; apply _
  | |- reads (throw _) => apply tracks_throw; apply _
  | |- reads (lift _) => apply tracks_lift; apply _
  | |- reads (gets _) => apply tracks_gets; apply _
  | |- reads the_node => apply tracks_gets; apply _
  | |- reads (mapM _ _) => apply tracks_mapM; [apply _|intros ?]
  | |- reads (stored _) => apply reads_stored
  | |- reads (read_json _) => apply reads_json
  | |- reads (match ?x with _ => _ end) => destruct x
  end.
Ltac reads_tac := repeat (cbv beta zeta; reads_step).
Lemma reads_or {T} `{Json T} path (v : T) : reads (read_json_or path v).
Proof. unfold read_json_or, exists_path. reads_tac. Qed.
Lemma reads_maybe {T} `{Json T} path : reads (maybe_read_json (T:=T) path).
Proof. unfold maybe_read_json, exists_path. reads_tac. Qed.

(** The requests that submit, commit, subscribe or authorize. *)
Definition commands (request : RpcRequest) : bool :=
  match request with
  | ReqSubmitTransaction _ | ReqSubmitSignedTransaction _ | ReqProduceBlock _ _ | ReqImportBlock _
  | ReqSubscribe _ | ReqProposeValidatorSetMetadataUpdate _ => true
  | _ => false
  end.
Section queries.
Context `{Host, Wire, !Json StateSnapshot, !Json Block, !Json FinalityCertificate, !Json SlashingRecord}.
Context `{!Json ValidatorSetMetadata, !Json (list SignedValidatorMessage), !Json (gmap string string)}.
Context `{!Json (list ValidatorSetMetadataAuditRecord), !Json SnapshotImportAuditConfig}.
Context `{!Json (list Transaction), !Json ConsensusSigningRecord}.
Context `{!Json (list SnapshotImportAuditRecord), !Json SnapshotSyncClientMetrics}.
Context `{!Serialize TransactionSigningPayload, !Serialize (list TraceOp)}.
Context (debug_parse_error : ParseError → string) (model_file : string → list byte).
Context (debug_node_error : NodeError → string).

Lemma reads_blocks : reads load_blocks.
Proof. unfold load_blocks, load_block. reads_tac. Qed.
Lemma reads_effective_roots : reads effective_snapshot_metadata_roots.
Proof.
  unfold effective_snapshot_metadata_roots, load_snapshot_metadata_roots, validator_set_metadata_audit_root,
    snapshot_sync_client_metrics_root, load_snapshot_sync_client_metrics, local_required_roots_root,
    local_import_audit_root, snapshot_import_audit_config_root, maybe_load_snapshot_import_audit_config,
    load_validator_set_metadata_audit_records, load_required_snapshot_metadata_roots,
    load_snapshot_import_audit_records, root_unless_empty.
  reads_tac; auto using reads_or, reads_maybe.
Qed.
Lemma reads_snapshot_roots : reads node_snapshot_roots.
Proof.
  unfold node_snapshot_roots, node_snapshot, load_snapshot_import_audit_records,
    required_snapshot_metadata_roots_root, load_required_snapshot_metadata_roots, load_snapshot_sync_client_metrics,
    snapshot_import_audit_config_root, maybe_load_snapshot_import_audit_config, snapshot_import_audit_root,
    load_snapshot_import_audit_records.
  reads_tac; auto using reads_or, reads_maybe, reads_effective_roots.
Qed.
Lemma reads_root_status : reads snapshot_metadata_root_status.
Proof.
  unfold snapshot_metadata_root_status, load_snapshot_metadata_roots, validator_set_metadata_audit_root,
    snapshot_sync_client_metrics_root, load_snapshot_sync_client_metrics, local_required_roots_root,
    local_import_audit_root, snapshot_import_audit_config_root, maybe_load_snapshot_import_audit_config,
    load_validator_set_metadata_audit_records, load_required_snapshot_metadata_roots,
    load_snapshot_import_audit_records, root_unless_empty.
  reads_tac; auto using reads_or, reads_maybe.
Qed.
Lemma reads_highest_certificate k : reads (highest_certificate k).
Proof.
  induction k as [|k IH]; cbn [highest_certificate]; [reads_tac|].
  unfold maybe_load_finality_certificate. reads_tac; auto using reads_maybe.
Qed.
Lemma reads_metrics : reads operator_metrics.
Proof. unfold operator_metrics, highest_finalized_height. reads_tac. apply reads_highest_certificate. Qed.
Lemma reads_alerts : reads operator_alerts.
Proof.
  unfold operator_alerts, snapshot_root_mismatch, load_slashing_records, latest_block_failure_counts, maybe_load_block.
  reads_tac; auto using reads_metrics, reads_root_status, reads_maybe.
Qed.
Lemma service_reads request svc o svc' :
  commands request = false → handle_request debug_parse_error model_file request svc = (o, svc') → svc' = svc.
Proof. unfold handle_request. destruct request; intros Hc; try discriminate Hc; by intros [= _ <-]. Qed.
Lemma dispatch_reads elapsed request :
  commands request = false → reads (node_dispatch debug_parse_error model_file elapsed request).
Proof.
  intros Hc. destruct request; try discriminate Hc; cbn [node_dispatch]; unfold result_of;
    try (intros w o w'; unfold service_answers;
         match goal with |- context [handle_request ?a ?b ?r ?s] => destruct (handle_request a b r s) as [o1 svc] eqn:Hh end;
         intros [= _ <-]; apply service_reads in Hh as ->; [by destruct w as [[] ?]|done]);
    unfold maybe_load_block, find_transaction, find_receipt, maybe_load_finality_certificate, maybe_load_slashing_record,
      load_validator_set_metadata_audit_records_page, load_validator_set_metadata_audit_records,
      load_snapshot_import_audit_records_page, load_snapshot_import_audit_records, snapshot_import_audit_root,
      snapshot_import_audit_config_root, maybe_load_snapshot_import_audit_config, load_snapshot_sync_client_metrics,
      required_snapshot_metadata_roots_report, load_required_snapshot_metadata_roots,
      required_snapshot_metadata_roots_root, load_snapshot_import_audit_records, load_required_snapshot_metadata_roots;
    reads_tac; auto using reads_or, reads_maybe, reads_blocks, reads_metrics, reads_alerts, reads_snapshot_roots,
      reads_root_status.
Qed.
(** A request is its dispatch and the counters. *)
Lemma handle_dispatch elapsed request w o w' :
  handle_rpc_request debug_parse_error model_file debug_node_error elapsed request w = (o, w') →
  ∃ o1 w1, node_dispatch debug_parse_error model_file elapsed request w = (o1, w1) ∧
    (w' = w1 ∨ ∃ response, w' = {| nw_node := count_request elapsed request response (nw_node w1); nw_files := nw_files w1 |}).
Proof.
  unfold handle_rpc_request. destruct (node_dispatch _ _ _ _ _) as [[] w1]; intros [= _ <-];
    eexists _, _; (split; [reflexivity|]); [right; by eexists|right; by eexists|by left..].
Qed.

(** Queries change nothing: whatever a client asks that is not a
    submission, a block, a subscription or an authorization, the node keeps
    its files and its state; only the time of the last proof and the count of
    errors may move. *)
Theorem queries_change_nothing elapsed request w o w' :
  commands request = false →
  handle_rpc_request debug_parse_error model_file debug_node_error elapsed request w = (o, w') →
  nw_files w' = nw_files w ∧
  ∃ latency errors, nw_node w' = set_observations (pvn_observed_peer_ids (nw_node w))
    (pvn_last_block_execution_micros (nw_node w)) latency errors (nw_node w).
Proof.
  intros Hc (o1 & w1 & Hd & Hw)%handle_dispatch. apply (dispatch_reads _ _ Hc) in Hd as <-.
  destruct Hw as [->|[response ->]]; (split; [done|]); [|by eexists _, _].
  exists (pvn_last_proof_serving_micros (nw_node w)), (pvn_rpc_error_count (nw_node w)). by destruct (nw_node w).
Qed.

(** A transaction the mempool refuses is reported under the catch-all code
    when it was submitted unsigned: the error is the RPC layer's, for which
    the node has no code of its own. *)
Lemma refusal_code_lost elapsed tx w e m :
  submit (svc_state (pvn_rpc (nw_node w))) tx (vn_mempool (svc_node (pvn_rpc (nw_node w)))) = (Err e, m) →
  (handle_rpc_request debug_parse_error model_file debug_node_error elapsed (ReqSubmitTransaction tx) w).1
  = Ok (RpcErr {| reb_code := "node.error"; reb_message := debug_node_error (NodeRpc (RpcMempool e)) |}).
Proof.
  intros Hs. unfold handle_rpc_request. cbn [node_dispatch].
  unfold result_of, node_submit_transaction, bind at 1 2, on_rpc, rpc_submit_transaction, on_node, submit_transaction.
  unfold svc_state in Hs. by rewrite Hs.
Qed.
End queries.
