(* ===== verification/NodeFacts.v ===== *)
(** * NodeFacts: what holds of a persistent node over time

    The operations of [Node.v] as steps of a state machine: what every step
    leaves alone, the double-signing guard along any run, who can change the
    trusted keys, and what a restart recovers. *)
From S2P Require Import Prelude Effects Merkle Types State AspectRuntime Runtime Exec Transactions Mempool Block.
From S2P Require Import Consensus Protocol Network Storage Verify Evaluator Fixtures RpcTypes Rpc RpcTransport Node NodeReports NodeTracks.

(** ** Files outside the signing records *)
Definition record_file (p : Path) : Prop := head (path_dirs p) = Some "consensus_signing_records".
Definition keeps_records (fs fs' : FileSystem) : Prop :=
  ∀ p bytes, record_file p → fs !! p = Some bytes → fs' !! p = Some bytes.
#[export] Instance keeps_records_preorder : PreOrder keeps_records.
Proof. split; unfold keeps_records; [eauto|]. intros x y z Hxy Hyz p b Hp Hx. eauto. Qed.
Section files.
Lemma tracks_write {T} `{Json T} path (v : T) : ¬ record_file path → tracks keeps_records (write_json_atomic path v).
Proof.
  intros Hp fs o fs'. unfold write_json_atomic, bind, lift, modify.
  destruct (encode_json v) as [bytes| | |]; intros [= _ <-]; [|done..].
  intros p b Hr Hl. assert (Hne : p ≠ path ∧ p ≠ with_extension "tmp" path) by (split; intros ->; done).
  destruct Hne. by rewrite lookup_insert_ne, lookup_delete_ne, lookup_insert_ne.
Qed.
Lemma tracks_read {T} `{Json T} path : tracks keeps_records (read_json (T:=T) path).
Proof.
  intros fs o fs' Hr. pose proof (read_keeps (T:=T) path fs) as Hk. rewrite Hr in Hk. simpl in Hk. by subst.
Qed.
End files.
#[export] Hint Resolve tracks_read : tracks.
#[export] Hint Extern 0 (tracks keeps_records (write_json_atomic _ _)) => apply tracks_write; done : tracks.

Lemma tracks_read_or {T} `{Json T} path (v : T) : tracks keeps_records (read_json_or path v).
Proof. unfold read_json_or, exists_path. eauto with tracks typeclass_instances. Qed.
Lemma tracks_maybe_read {T} `{Json T} path : tracks keeps_records (maybe_read_json (T:=T) path).
Proof. unfold maybe_read_json, exists_path. eauto 10 with tracks typeclass_instances. Qed.

(** What every operation keeps: who the node is, and the signing records. *)
Definition steady (w w' : World) : Prop :=
  pvn_validator_id (nw_node w') = pvn_validator_id (nw_node w) ∧ keeps_records (nw_files w) (nw_files w').
#[export] Instance steady_preorder : PreOrder steady.
Proof. split; [by split|]. intros x y z [] []. split; [congruence|by etrans]. Qed.
Lemma steady_stored {A} (m : FM A) : tracks keeps_records m → tracks steady (stored m).
Proof.
  intros Hm w o w'. unfold stored. destruct (m (nw_files w)) as [o1 fs] eqn:Hr. intros [= _ <-].
  split; [done|]. by eapply Hm.
Qed.
Lemma steady_on_pvn f : (∀ n, pvn_validator_id (f n) = pvn_validator_id n) → tracks steady (on_pvn f).
Proof. intros Hf w o w' [= _ <-]. split; [apply Hf|reflexivity]. Qed.
Lemma steady_on_rpc {A} (m : RM A) : tracks steady (on_rpc m).
Proof. intros w o w'. unfold on_rpc. destruct (m _) as [o1 rpc]. intros [= _ <-]. by split. Qed.
Lemma steady_lift_bind {A B} (o : outcome NodeError A) (k : A → NM B) :
  (∀ a, tracks steady (k a)) → tracks steady (bind (lift o) k).
Proof. intros. apply tracks_bind; [apply _|apply tracks_lift; apply _|done]. Qed.
(** What the node trusts: its keys, its network and the updates applied. *)
Definition same_trust (w w' : World) : Prop :=
  pvn_validator_keys (nw_node w') = pvn_validator_keys (nw_node w) ∧
  pvn_network_id (nw_node w') = pvn_network_id (nw_node w) ∧
  pvn_chain_id (nw_node w') = pvn_chain_id (nw_node w) ∧
  pvn_applied_validator_set_updates (nw_node w') = pvn_applied_validator_set_updates (nw_node w).
#[export] Instance same_trust_preorder : PreOrder same_trust.
Proof. split; [by split|]. intros x y z (?&?&?&?) (?&?&?&?). split_and!; congruence. Qed.
Lemma trust_stored {A} (m : FM A) : tracks same_trust (stored m).
Proof. intros w o w'. unfold stored. destruct (m (nw_files w)) as [o1 fs]. by intros [= _ <-]. Qed.
Lemma trust_on_pvn f :
  (∀ n, pvn_validator_keys (f n) = pvn_validator_keys n ∧ pvn_network_id (f n) = pvn_network_id n ∧
    pvn_chain_id (f n) = pvn_chain_id n ∧
    pvn_applied_validator_set_updates (f n) = pvn_applied_validator_set_updates n) →
  tracks same_trust (on_pvn f).
Proof. intros Hf w o w' [= _ <-]. apply Hf. Qed.
Lemma trust_on_rpc {A} (m : RM A) : tracks same_trust (on_rpc m).
Proof. intros w o w'. unfold on_rpc. destruct (m _) as [o1 rpc]. by intros [= _ <-]. Qed.
Lemma tracks_catch {A} (R : relation World) `{!PreOrder R} (m : NM A) handler :
  tracks R m → (∀ e, tracks R (handler e)) → tracks R (catch m handler).
Proof.
  intros Hm Hh w o w'. unfold catch. destruct (m w) as [[] w1] eqn:Hw; intros Hr;
    [injection Hr as _ <-; by eapply Hm|by etrans; [eapply Hm|eapply Hh]|injection Hr as _ <-; by eapply Hm..].
Qed.
Ltac tracks_step :=
  lazymatch goal with
  | |- tracks _ (bind _ _) => apply tracks_bind; [apply _| |intros ?]
  | |- tracks _ (ret _) => apply tracks_ret; apply _
  | |- tracks _ (throw _) => apply tracks_throw; apply _
  | |- tracks _ (lift _) => apply tracks_lift; apply _
  | |- tracks _ (gets _) => apply tracks_gets; apply _
  | |- tracks _ the_node => apply tracks_gets; apply _
  | |- tracks _ (forM _ _) => apply tracks_forM; [apply _|intros ?]
  | |- tracks _ (mapM _ _) => apply tracks_mapM; [apply _|intros ?]
  | |- tracks _ (catch _ _) => apply tracks_catch; [apply _| |intros ?]
  | |- tracks steady (stored _) => apply steady_stored
  | |- tracks steady (on_pvn _) => apply steady_on_pvn; done
  | |- tracks steady (on_rpc _) => apply steady_on_rpc
  | |- tracks same_trust (stored _) => apply trust_stored
  | |- tracks same_trust (on_pvn _) => apply trust_on_pvn; done
  | |- tracks same_trust (on_rpc _) => apply trust_on_rpc
  | |- tracks _ (write_json_atomic _ _) => apply tracks_write; done
  | |- tracks _ (read_json _) => apply tracks_read
  | |- tracks _ (read_json_or _ _) => apply tracks_read_or
  | |- tracks _ (maybe_read_json _) => apply tracks_maybe_read
  | |- tracks _ (match ?x with _ => _ end) => destruct x
  end.
Ltac tracks_tac := repeat (cbv beta zeta; tracks_step).

Section steady.
Context `{Host, Wire, !Json StateSnapshot, !Json Block, !Json FinalityCertificate, !Json SlashingRecord}.
Context `{!Json ValidatorSetMetadata, !Json (list SignedValidatorMessage), !Json (gmap string string)}.
Context `{!Json (list ValidatorSetMetadataAuditRecord), !Json SnapshotImportAuditConfig}.
Context `{!Json (list Transaction), !Json ConsensusSigningRecord}.

Lemma steady_submit tx : tracks steady (node_submit_transaction tx).
Proof. unfold node_submit_transaction, persist_mempool, the_node, commit_mempool. tracks_tac. Qed.
Lemma steady_persist_block b : tracks steady (persist_committed_block b).
Proof. unfold persist_committed_block, persist_mempool, the_node, commit_block, commit_snapshot, commit_mempool. tracks_tac. Qed.
Lemma steady_import e b : tracks steady (node_import_block e b).
Proof. unfold node_import_block, record_block_time. tracks_tac. apply steady_persist_block. Qed.
Lemma steady_produce e h t : tracks steady (node_produce_block e h t).
Proof. unfold node_produce_block, record_block_time. tracks_tac. apply steady_persist_block. Qed.
Lemma steady_certificate c : tracks steady (persist_finality_certificate c).
Proof. unfold persist_finality_certificate, commit_finality_certificate. tracks_tac. Qed.
Lemma steady_evidence ev : tracks steady (persist_equivocation_evidence ev).
Proof. unfold persist_equivocation_evidence, commit_slashing_record. tracks_tac. Qed.
Lemma steady_audit id o l r : tracks steady (record_validator_set_metadata_audit id o l r).
Proof.
  unfold record_validator_set_metadata_audit, persist_current_snapshot_metadata_roots, the_node,
    append_validator_set_metadata_audit_record_with_retention, load_validator_set_metadata_audit_records,
    load_snapshot_metadata_roots, validator_set_metadata_audit_root, load_validator_set_metadata_audit_records,
    commit_snapshot_metadata_roots. tracks_tac.
Qed.
Lemma steady_persist_pending : tracks steady persist_pending_validator_set_metadata_authorizations.
Proof.
  unfold persist_pending_validator_set_metadata_authorizations, the_node,
    commit_pending_validator_set_metadata_authorizations. tracks_tac.
Qed.
Lemma steady_insert m : tracks steady (insert_pending_validator_set_metadata_authorization m).
Proof. unfold insert_pending_validator_set_metadata_authorization, the_node. tracks_tac. Qed.
Lemma steady_record m : tracks steady (record_pending_validator_set_metadata_authorization m).
Proof.
  unfold record_pending_validator_set_metadata_authorization, the_node.
  tracks_tac; auto using steady_insert, steady_audit, steady_persist_pending.
Qed.
Lemma steady_apply_update u : tracks steady (apply_validator_set_metadata_update u).
Proof. unfold apply_validator_set_metadata_update, the_node, commit_validator_set_metadata. tracks_tac. Qed.
Lemma steady_apply_pending id : tracks steady (apply_pending_validator_set_metadata_update id).
Proof.
  unfold apply_pending_validator_set_metadata_update, apply_quorum_authorized_validator_set_metadata_update,
    apply_quorum_authorized_validator_set_metadata_update_with_quorum, the_node.
  tracks_tac; auto using steady_apply_update, steady_audit, steady_persist_pending.
Qed.
Lemma steady_propose a : tracks steady (propose_validator_set_metadata_update_authorization a).
Proof.
  unfold propose_validator_set_metadata_update_authorization, the_node.
  tracks_tac; auto using steady_record, steady_apply_pending.
Qed.
Lemma tracks_dispatch (R : relation World) `{!PreOrder R} `{!Json (list SnapshotImportAuditRecord)}
    `{!Json SnapshotSyncClientMetrics, !Serialize TransactionSigningPayload, !Serialize (list TraceOp)}
    debug_parse_error model_file elapsed request :
  (∀ tx, tracks R (node_submit_transaction tx)) → (∀ h t, tracks R (node_produce_block elapsed h t)) →
  (∀ b, tracks R (node_import_block elapsed b)) →
  (∀ request, tracks R (service_answers debug_parse_error model_file request)) →
  (∀ a, request = ReqProposeValidatorSetMetadataUpdate a →
    tracks R (propose_validator_set_metadata_update_authorization a)) →
  tracks R (node_dispatch debug_parse_error model_file elapsed request).
Proof.
  intros Hs Hp Hi Hv Ha. destruct (commands request) eqn:Hc; [|apply reads_tracks; [done|by apply dispatch_reads]].
  destruct request; try discriminate Hc; cbn [node_dispatch]; try apply Hv; unfold result_of; tracks_tac; auto.
Qed.
Lemma steady_service `{!Serialize TransactionSigningPayload, !Serialize (list TraceOp)} dp mf request :
  tracks steady (service_answers dp mf request).
Proof. intros w o w'. unfold service_answers. destruct (handle_request _ _ _ _) as [o1 svc]. by intros [= _ <-]. Qed.
Lemma trust_service `{!Serialize TransactionSigningPayload, !Serialize (list TraceOp)} dp mf request :
  tracks same_trust (service_answers dp mf request).
Proof. intros w o w'. unfold service_answers. destruct (handle_request _ _ _ _) as [o1 svc]. by intros [= _ <-]. Qed.
Lemma steady_prune : tracks steady prune_validator_set_metadata_authorizations.
Proof.
  unfold prune_validator_set_metadata_authorizations, the_node.
  tracks_tac; auto using steady_audit, steady_persist_pending.
Qed.
(** Ingestion keeps what its parts keep. *)
Lemma tracks_ingest (R : relation World) `{!PreOrder R} elapsed from message :
  (∀ from, tracks R (observe_peer from)) → (∀ tx, tracks R (node_submit_transaction tx)) →
  (∀ b, tracks R (node_import_block elapsed b)) → (∀ e, tracks R (persist_equivocation_evidence e)) →
  (∀ m, tracks R (record_pending_validator_set_metadata_authorization m)) →
  (∀ id, tracks R (apply_pending_validator_set_metadata_update id)) →
  tracks R (ingest elapsed from message).
Proof.
  intros Ho Hs Hi He Hr Ha. revert message. fix IH 1. intros message.
  destruct message as [| | | | | | | |[signer key_id network_id chain_id domain inner sig]| | | |];
    cbn [ingest]; apply tracks_bind; try done; intros _; try (clear IH; tracks_tac; by auto).
  pose proof (IH inner) as Hin. apply tracks_bind; [apply _|apply tracks_gets; apply _|]. intros n.
  apply tracks_bind; [apply _|apply tracks_lift; apply _|]. intros _. destruct inner; try exact Hin.
  clear Hin IH. tracks_tac; auto.
Qed.
Lemma steady_ingest elapsed from message : tracks steady (ingest elapsed from message).
Proof.
  apply (tracks_ingest steady); try solve [auto using steady_submit, steady_import, steady_evidence, steady_record, steady_apply_pending].
  intros p. apply steady_on_pvn. intros n. by case_bool_decide.
Qed.
Lemma steady_persist_set net keys : tracks steady (persist_validator_set_metadata net keys).
Proof. unfold persist_validator_set_metadata, the_node, commit_validator_set_metadata. tracks_tac. Qed.
Lemma steady_load_pending : tracks steady load_pending.
Proof.
  unfold load_pending, the_node, load_pending_validator_set_metadata_authorizations.
  tracks_tac; auto using steady_insert, steady_persist_pending.
Qed.

(** ** The double-signing guard *)
Definition record_of (validator_id : string) (c : ConsensusSigningCommitment) : ConsensusSigningRecord :=
  {| csr_validator_id := validator_id; csr_domain := cc_domain c; csr_height := cc_height c;
     csr_block_hash := cc_block_hash c |}.
(** The files hold a record for the commitment's domain and height, of the
    commitment's block. *)
Definition recorded (validator_id : string) (c : ConsensusSigningCommitment) (fs : FileSystem) : Prop :=
  ∃ bytes r, fs !! record_path (record_of validator_id c) = Some bytes ∧ from_json bytes = Some r ∧
    csr_block_hash r = cc_block_hash c.
Lemma recorded_keeps id c fs fs' : keeps_records fs fs' → recorded id c fs → recorded id c fs'.
Proof. intros Hk (b & r & Hb & ? & ?). exists b, r. split; [by apply Hk|done]. Qed.
Lemma recorded_agree id c1 c2 fs :
  recorded id c1 fs → recorded id c2 fs → cc_domain c1 = cc_domain c2 → cc_height c1 = cc_height c2 →
  cc_block_hash c1 = cc_block_hash c2.
Proof.
  intros (b1 & r1 & Hb1 & Hj1 & Hh1) (b2 & r2 & Hb2 & Hj2 & Hh2) Hd Hh.
  assert (record_path (record_of id c1) = record_path (record_of id c2)) as Hp
    by (unfold record_path, record_of; simpl; congruence). congruence.
Qed.
Lemma read_json_Ok {T} `{Json T} path fs (v : T) fs' :
  read_json path fs = (Ok v, fs') → ∃ bytes, fs !! path = Some bytes ∧ from_json bytes = Some v ∧ fs' = fs.
Proof.
  unfold read_json, bind, gets, lift. destruct (fs !! path) as [b|]; simpl; [|done].
  destruct (len_N b <=? _); simpl; [|done]. destruct (from_json b) eqn:Hj; [|done]. intros [= <- <-]. eauto.
Qed.
Lemma claim_Some others r fs r' fs' :
  commit_consensus_signing_record_if_absent others r fs = (Ok (Some r'), fs') →
  ∃ bytes, fs' !! record_path r = Some bytes ∧ from_json bytes = Some r'.
Proof.
  unfold commit_consensus_signing_record_if_absent, bind at 1, exists_path at 1, gets. fold (record_path r).
  assert (Hread : ∀ fs0, (let! v := read_json (T:=ConsensusSigningRecord) (record_path r) in ret (Some v)) fs0
      = (Ok (Some r'), fs') → ∃ bytes, fs' !! record_path r = Some bytes ∧ from_json bytes = Some r').
  { intros fs0. unfold bind, ret. destruct (read_json _ _) as [[v| | |] fs1] eqn:Hr; try done.
    intros [= <- <-]. apply read_json_Ok in Hr as (b & Hb & Hj & ->). eauto. }
  case_bool_decide; [apply Hread|]. unfold bind at 1, modify.
  destruct (write_json_create_new _ _ _) as [[|[]| |] fs1]; try done.
  unfold bind at 1, exists_path, gets. case_bool_decide; [apply Hread|done].
Qed.
End steady.

Section signing_guard.
Context `{Host, Wire, !Json StateSnapshot, !Json Block, !Json FinalityCertificate, !Json SlashingRecord}.
Context `{!Json ValidatorSetMetadata, !Json (list SignedValidatorMessage), !Json (gmap string string)}.
Context `{!Json (list ValidatorSetMetadataAuditRecord), !Json SnapshotImportAuditConfig}.
Context `{!Json (list Transaction), !Json ConsensusSigningRecord, !JsonInverse ConsensusSigningRecord}.
Context `{!Json (list SnapshotImportAuditRecord), !Json SnapshotSyncClientMetrics}.
Context `{!Serialize TransactionSigningPayload, !Serialize (list TraceOp)}.
Context (debug_parse_error : ParseError → string) (model_file : string → list byte).
Context (debug_node_error : NodeError → string).

Lemma steady_reserve others message :
  keeps_files others → tracks steady (reserve_consensus_signing_record others message).
Proof.
  intros Hk. unfold reserve_consensus_signing_record, the_node.
  apply tracks_bind; [apply _|apply tracks_gets; apply _|]. intros n.
  apply tracks_bind; [apply _|apply tracks_lift; apply _|]. intros [c|]; [|apply tracks_ret; apply _].
  apply tracks_bind; [apply _| |intros [e|]; [apply tracks_lift|apply tracks_ret]; apply _].
  apply steady_stored. intros fs o fs' Hc p b _ Hp. eapply lookup_weaken; [exact Hp|].
  pose proof (claim_keeps others (record_of (pvn_validator_id n) c) fs Hk) as Hx. unfold record_of in Hx. by rewrite Hc in Hx.
Qed.
Lemma reserve_recorded others message w u w' c :
  reserve_consensus_signing_record others message w = (Ok u, w') →
  consensus_signing_commitment (pvn_validator_id (nw_node w)) message = Ok (Some c) →
  recorded (pvn_validator_id (nw_node w)) c (nw_files w').
Proof.
  unfold reserve_consensus_signing_record, the_node, bind, gets, lift, stored. intros Hrun Hc. rewrite Hc in Hrun.
  fold (record_of (pvn_validator_id (nw_node w)) c) in Hrun. set (r := record_of _ c) in *.
  destruct (commit_consensus_signing_record_if_absent others r (nw_files w)) as [[[e|]| | |] fs] eqn:Hcl; try done.
  - cbn [wrapped] in Hrun. injection Hrun as He <-. apply ensure_Ok, bool_decide_eq_true in He.
    apply claim_Some in Hcl as (b & Hb & Hj). by exists b, e.
  - cbn [wrapped ret] in Hrun. injection Hrun as _ <-. apply claim_Ok in Hcl as (_ & _ & b & [_ Hj]%encode_json_Ok & ->).
    exists b, r. cbn [nw_files]. by rewrite lookup_insert_eq.
Qed.

Lemma steady_rpc elapsed request :
  tracks steady (handle_rpc_request debug_parse_error model_file debug_node_error elapsed request).
Proof.
  intros w o w' (o1 & w1 & Hd & Hw)%handle_dispatch.
  apply (tracks_dispatch steady) in Hd;
    auto using steady_submit, steady_produce, steady_import, steady_service, steady_propose.
  destruct Hw as [->|[response ->]]; [done|]. etrans; [exact Hd|]. by split.
Qed.
(** *** Runs of a node *)
(** A step of a running node, with the message it signed if it signed one:
    its operations, whatever their outcome, and a restart from its files. *)
Inductive node_step : World → option ProtocolMessage → World → Prop :=
| step_ingest elapsed envelope w o w' :
    ingest_network_envelope elapsed envelope w = (o, w') → node_step w None w'
| step_submit tx w o w' : node_submit_transaction tx w = (o, w') → node_step w None w'
| step_produce elapsed height timestamp w o w' :
    node_produce_block elapsed height timestamp w = (o, w') → node_step w None w'
| step_import elapsed block w o w' : node_import_block elapsed block w = (o, w') → node_step w None w'
| step_certificate certificate w o w' :
    persist_finality_certificate certificate w = (o, w') → node_step w None w'
| step_evidence evidence w o w' : persist_equivocation_evidence evidence w = (o, w') → node_step w None w'
| step_rpc elapsed request w o w' :
    handle_rpc_request debug_parse_error model_file debug_node_error elapsed request w = (o, w') → node_step w None w'
| step_prune w o w' : prune_validator_set_metadata_authorizations w = (o, w') → node_step w None w'
| step_validator_set network_id validator_keys w o w' :
    persist_validator_set_metadata network_id validator_keys w = (o, w') → node_step w None w'
| step_sign others signing_key message w o w' :
    keeps_files others → sign_validator_message others signing_key message w = (o, w') →
    node_step w (match o with Ok signed => Some signed | _ => None end) w'
| step_restart w n fs :
    restart (pvn_validator_id (nw_node w)) (nw_files w) = (Ok n, fs) →
    node_step w None {| nw_node := n; nw_files := fs |}.
Inductive node_run : World → list ProtocolMessage → World → Prop :=
| run_nil w : node_run w [] w
| run_step w signed w1 messages w' :
    node_step w signed w1 → node_run w1 messages w' → node_run w (option_list signed ++ messages) w'.

Lemma steady_sign others key message :
  keeps_files others → tracks steady (sign_validator_message others key message).
Proof.
  intros Hk. unfold sign_validator_message, the_node.
  apply tracks_bind; [apply _|apply tracks_gets; apply _|]. intros n.
  apply tracks_bind; [apply _|apply tracks_lift; apply _|]. intros _.
  apply tracks_bind; [apply _|by apply steady_reserve|]. intros _.
  apply tracks_bind; [apply _|apply tracks_lift; apply _|]. intros ?. apply tracks_ret; apply _.
Qed.
Lemma stored_only_Ok {A} (m : FM A) fs a fs' : stored_only m fs = (Ok a, fs') → m fs = (Ok a, fs').
Proof. unfold stored_only. destruct (m fs) as [[] ?]; intros Hr; try done. by injection Hr as <- <-. Qed.
Lemma run_node_Ok {A} (m : NM A) n fs n' fs' :
  run_node m n fs = (Ok n', fs') →
  ∃ a, m {| nw_node := n; nw_files := fs |} = (Ok a, {| nw_node := n'; nw_files := fs' |}).
Proof.
  unfold run_node. destruct (m _) as [[a| | |] [n1 fs1]]; intros Hr; try done. injection Hr as <- <-. by exists a.
Qed.
(** The parts of a restart: the files it starts from and the work it does on
    the fresh node. *)
Definition restore_node : NM () :=
  let! metadata := stored maybe_load_validator_set_metadata in
  do! match metadata with Some metadata => apply_validator_set_metadata metadata | None => ret () end in
  let! config := stored maybe_load_snapshot_import_audit_config in
  do! match config with
      | Some config => on_pvn (λ n, set_limits (pvn_max_pending_updates n)
          (pvn_max_pending_authorizations_per_validator n)
          (pvn_max_validator_set_metadata_audit_records n)
          (pvn_max_validator_set_metadata_audit_page_size n)
          (sic_max_records config) (sic_max_page_size config) n)
      | None => ret ()
      end in
  load_pending.
Lemma restart_Ok id fs n fs' :
  restart id fs = (Ok n, fs') →
  ∃ snap s pending node fs1 fs2 u,
    load_snapshot fs = (Ok snap, fs1) ∧ from_snapshot snap = Ok s ∧ load_mempool fs1 = (Ok pending, fs2) ∧
    with_pending_transactions id s pending = Ok node ∧
    restore_node {| nw_node := fresh_node id (chain_id s) (rpc_new node); nw_files := fs2 |}
      = (Ok u, {| nw_node := n; nw_files := fs' |}).
Proof.
  intros (snap & fs1 & Hl%stored_only_Ok & Hr)%bind_Ok. apply bind_Ok in Hr as (s & fs2 & Hf & Hr).
  apply bind_Ok in Hr as (pending & fs3 & Hm%stored_only_Ok & Hr). apply bind_Ok in Hr as (node & fs4 & Hn & Hr).
  injection Hf as Hf <-. injection Hn as Hn <-. apply run_node_Ok in Hr as [u Hr].
  exists snap, s, pending, node, fs1, fs3, u. split_and!; try done.
  - by destruct (from_snapshot snap); try done; injection Hf as ->.
  - by destruct (with_pending_transactions id s pending); try done; injection Hn as ->.
Qed.
Lemma steady_restore : tracks steady restore_node.
Proof.
  unfold restore_node, maybe_load_validator_set_metadata, maybe_load_snapshot_import_audit_config,
    apply_validator_set_metadata. tracks_tac. apply steady_load_pending.
Qed.
Lemma load_snapshot_keeps : tracks keeps_records load_snapshot.
Proof. unfold load_snapshot. tracks_tac. Qed.
Lemma load_mempool_keeps : tracks keeps_records load_mempool.
Proof. unfold load_mempool. tracks_tac. Qed.
Lemma restart_steady w n fs :
  restart (pvn_validator_id (nw_node w)) (nw_files w) = (Ok n, fs) →
  steady w {| nw_node := n; nw_files := fs |}.
Proof.
  intros (snap & s & pending & node & fs1 & fs2 & u & Hl & _ & Hm & _ & Hr)%restart_Ok.
  apply steady_restore in Hr as [Hid Hk]. split; [done|].
  etrans; [by eapply load_snapshot_keeps|]. etrans; [by eapply load_mempool_keeps|done].
Qed.
Lemma node_step_steady w signed w' : node_step w signed w' → steady w w'.
Proof.
  destruct 1.
  - by eapply steady_ingest.
  - by eapply steady_submit.
  - by eapply steady_produce.
  - by eapply steady_import.
  - by eapply steady_certificate.
  - by eapply steady_evidence.
  - by eapply steady_rpc.
  - by eapply steady_prune.
  - by eapply steady_persist_set.
  - by eapply steady_sign.
  - by apply restart_steady.
Qed.
Lemma sign_Ok others key message w m w' :
  sign_validator_message others key message w = (Ok m, w') →
  ∃ signed u w1, m = MsgSignedValidator signed ∧ into_message signed = message ∧
    reserve_consensus_signing_record others message w = (Ok u, w1) ∧ w' = w1.
Proof.
  intros Hrun. unfold sign_validator_message, the_node in Hrun. unfold bind at 1, gets in Hrun.
  apply bind_Ok in Hrun as (? & ? & Hg & Hrun). injection Hg as _ <-.
  apply bind_Ok in Hrun as (u & w1 & Hres & Hrun). apply bind_Ok in Hrun as (signed & w2 & Hs & Hrun).
  injection Hs as Hs <-. injection Hrun as <- <-. exists signed, u, w1. split_and!; try done.
  destruct (sign_message _ _ _ message) as [sm| | |] eqn:Hsm; try done. injection Hs as ->.
  unfold sign_message in Hsm. simplify_ok. by subst.
Qed.

(** C7. A node never signs two blocks: along any run of its operations,
    restarts included, and whatever other processes that keep existing files
    do to them meanwhile, two proposals, votes or certificates it signed for
    the same domain and height are for the same block hash. *)
Theorem node_never_double_signs w messages w' m1 m2 s1 s2 c1 c2 :
  node_run w messages w' → m1 ∈ messages → m2 ∈ messages →
  m1 = MsgSignedValidator s1 → m2 = MsgSignedValidator s2 →
  consensus_signing_commitment (pvn_validator_id (nw_node w)) (into_message s1) = Ok (Some c1) →
  consensus_signing_commitment (pvn_validator_id (nw_node w)) (into_message s2) = Ok (Some c2) →
  cc_domain c1 = cc_domain c2 → cc_height c1 = cc_height c2 → cc_block_hash c1 = cc_block_hash c2.
Proof.
  intros Hrun Hm1 Hm2 -> -> Hc1 Hc2. revert Hc1 Hc2.
  assert (Hrec : ∀ s c, MsgSignedValidator s ∈ messages →
    consensus_signing_commitment (pvn_validator_id (nw_node w)) (into_message s) = Ok (Some c) →
    recorded (pvn_validator_id (nw_node w)) c (nw_files w')); [|intros; by eapply recorded_agree; eauto].
  clear Hm1 Hm2. intros s c. induction Hrun as [|w signed w1 messages w' Hstep Hrun IH]; [by intros ?%not_elem_of_nil|].
  pose proof (node_step_steady _ _ _ Hstep) as [Hid _]. rewrite Hid in IH.
  rewrite elem_of_app. intros [Hin|Hin] Hc; [|by apply IH].
  assert (Hk : keeps_records (nw_files w1) (nw_files w')).
  { clear -Hrun. induction Hrun as [|w signed w1 messages w' Hstep Hrun IH]; [reflexivity|].
    etrans; [apply (node_step_steady _ _ _ Hstep)|done]. }
  apply (recorded_keeps _ _ _ _ Hk). clear -Hstep Hin Hc JsonInverse0.
  destruct Hstep; try by apply not_elem_of_nil in Hin. destruct o as [signed| | |]; try by apply not_elem_of_nil in Hin.
  apply list_elem_of_singleton in Hin as <-.
  match goal with Hs : sign_validator_message _ _ _ _ = _ |- _ => apply sign_Ok in Hs as (sg & u & w2 & He & <- & Hres & ->) end.
  injection He as <-. by eapply reserve_recorded.
Qed.
End signing_guard.

(** ** Who can change the trusted keys *)
Section trust.
Context `{Host, Wire, !Json StateSnapshot, !Json Block, !Json FinalityCertificate, !Json SlashingRecord}.
Context `{!Json ValidatorSetMetadata, !Json (list SignedValidatorMessage), !Json (gmap string string)}.
Context `{!Json (list ValidatorSetMetadataAuditRecord), !Json SnapshotImportAuditConfig}.
Context `{!Json (list Transaction), !Json ConsensusSigningRecord}.
Context `{!Json (list SnapshotImportAuditRecord), !Json SnapshotSyncClientMetrics}.
Context `{!Serialize TransactionSigningPayload, !Serialize (list TraceOp)}.
Context (debug_parse_error : ParseError → string) (model_file : string → list byte).
Context (debug_node_error : NodeError → string).

(** The change is an update that a quorum of the trusted validators signed. *)
Definition authorized_change (w w' : World) : Prop :=
  ∃ update (signers : gset string),
    (validator_set_metadata_quorum (nw_node w) ≤ size signers)%nat ∧
    (∀ signer, signer ∈ signers → ∃ signed, sm_signer signed = signer ∧
      verified_validator_set_metadata_update (nw_node w) signed = Ok update) ∧
    vsm_update_id update ∉ pvn_applied_validator_set_updates (nw_node w) ∧
    updated_keyring update (pvn_validator_keys (nw_node w)) = Ok (pvn_validator_keys (nw_node w')) ∧
    pvn_applied_validator_set_updates (nw_node w')
      = {[vsm_update_id update]} ∪ pvn_applied_validator_set_updates (nw_node w).
Definition changes (w w' : World) : Prop := same_trust w w' ∨ authorized_change w w'.
Lemma verified_same_trust w w1 signed :
  same_trust w w1 →
  verified_validator_set_metadata_update (nw_node w1) signed
  = verified_validator_set_metadata_update (nw_node w) signed.
Proof.
  intros (Hk & Hn & Hc & _). unfold verified_validator_set_metadata_update, verified_signed_validator_message,
    verify_signed_validator_message. by rewrite Hk, Hn, Hc.
Qed.
Lemma changes_left w w1 w2 : same_trust w w1 → changes w1 w2 → changes w w2.
Proof.
  intros Hs [Hs2|(u & S & Hq & Hsig & Hni & Hk & Ha)]; [left; by etrans|right]. destruct Hs as (Ek & En & Ec & Ea).
  exists u, S. rewrite Ek in Hk. rewrite Ea in Hni, Ha. split_and!; try done.
  - unfold validator_set_metadata_quorum in *. by rewrite Ek in Hq.
  - intros s Hin. destruct (Hsig s Hin) as (sg & ? & Hv). exists sg. split; [done|].
    by rewrite (verified_same_trust w w1) in Hv.
Qed.
Lemma changes_right w w1 w2 : changes w w1 → same_trust w1 w2 → changes w w2.
Proof.
  intros [Hs|(u & S & Hq & Hsig & Hni & Hk & Ha)] Hs2; [left; by etrans|right]. destruct Hs2 as (Ek & En & Ec & Ea).
  exists u, S. rewrite Ek, Ea. done.
Qed.
Lemma changes_bind_l {A B} (m : NM A) (k : A → NM B) :
  tracks same_trust m → (∀ a, tracks changes (k a)) → tracks changes (bind m k).
Proof.
  intros Hm Hk w o w'. unfold bind. destruct (m w) as [[] w1] eqn:Hs; intros Hr;
    [by eapply changes_left; [eapply Hm|eapply Hk]|injection Hr as _ <-; left; by eapply Hm..].
Qed.
Lemma changes_bind_r {A B} (m : NM A) (k : A → NM B) :
  tracks changes m → (∀ a, tracks same_trust (k a)) → tracks changes (bind m k).
Proof.
  intros Hm Hk w o w'. unfold bind. destruct (m w) as [[] w1] eqn:Hs; intros Hr;
    [by eapply changes_right; [eapply Hm|eapply Hk]|injection Hr as _ <-; by eapply Hm..].
Qed.
Lemma changes_same {A} (m : NM A) : tracks same_trust m → tracks changes m.
Proof. intros Hm w o w' Hr. left. by eapply Hm. Qed.

Lemma trust_submit tx : tracks same_trust (node_submit_transaction tx).
Proof. unfold node_submit_transaction, persist_mempool. tracks_tac. Qed.
Lemma trust_import e b : tracks same_trust (node_import_block e b).
Proof. unfold node_import_block, record_block_time, persist_committed_block, persist_mempool. tracks_tac. Qed.
Lemma trust_produce e h t : tracks same_trust (node_produce_block e h t).
Proof. unfold node_produce_block, record_block_time, persist_committed_block, persist_mempool. tracks_tac. Qed.
Lemma trust_evidence e : tracks same_trust (persist_equivocation_evidence e).
Proof. unfold persist_equivocation_evidence. tracks_tac. Qed.
Lemma trust_audit id o l r : tracks same_trust (record_validator_set_metadata_audit id o l r).
Proof. unfold record_validator_set_metadata_audit, persist_current_snapshot_metadata_roots. tracks_tac. Qed.
Lemma trust_persist_pending : tracks same_trust persist_pending_validator_set_metadata_authorizations.
Proof. unfold persist_pending_validator_set_metadata_authorizations. tracks_tac. Qed.
Lemma trust_record m : tracks same_trust (record_pending_validator_set_metadata_authorization m).
Proof.
  unfold record_pending_validator_set_metadata_authorization, insert_pending_validator_set_metadata_authorization.
  tracks_tac; auto using trust_audit, trust_persist_pending.
Qed.
Lemma trust_observe from : tracks same_trust (observe_peer from).
Proof. apply trust_on_pvn. intros n. by case_bool_decide. Qed.

Lemma authorize_spec n msgs acc upd signers :
  foldR (authorize n) acc msgs = Ok (upd, signers) →
  (∀ u, acc.1 = Some u → upd = Some u) ∧
  (∀ s, s ∈ signers → s ∈ acc.2 ∨
    ∃ signed u, sm_signer signed = s ∧ upd = Some u ∧ verified_validator_set_metadata_update n signed = Ok u) ∧
  (∀ u, upd = Some u → acc.1 = Some u ∨ vsm_update_id u ∉ pvn_applied_validator_set_updates n).
Proof.
  revert acc. induction msgs as [|m msgs IH]; intros acc; cbn [foldR].
  { intros [= ->]. simpl. split_and!; auto. }
  intros ([u1 s1] & Ha & (Hu & Hs & Hni)%IH)%outcome_bind_Ok. destruct m; try done. simpl in *.
  simplify_ok. simplify_eq. specialize (Hu _ eq_refl). subst upd.
  match goal with H : match acc.1 with _ => _ end = Ok ?x |- _ => rename H into Hacc; rename x into u1 end.
  match goal with H : verified_validator_set_metadata_update _ _ = Ok ?x |- _ => rename H into Hv; rename x into v end.
  assert (u1 = v) as ->.
  { destruct acc.1; simplify_ok; congruence. }
  split_and!.
  - intros u He. rewrite He in Hacc. simplify_ok. congruence.
  - intros s Hin. destruct (Hs s Hin) as [[->%elem_of_singleton|Hin']%elem_of_union|Hex]; [right|by left|by right].
    by exists signed, v.
  - intros u [= <-]. by right.
Qed.
Lemma changes_apply_update u w o w' :
  apply_validator_set_metadata_update u w = (o, w') →
  same_trust w w' ∨
  (vsm_update_id u ∉ pvn_applied_validator_set_updates (nw_node w) ∧
   updated_keyring u (pvn_validator_keys (nw_node w)) = Ok (pvn_validator_keys (nw_node w')) ∧
   pvn_applied_validator_set_updates (nw_node w')
     = {[vsm_update_id u]} ∪ pvn_applied_validator_set_updates (nw_node w)).
Proof.
  unfold apply_validator_set_metadata_update, the_node. unfold bind at 1, gets. unfold bind at 1, lift.
  case_bool_decide as Hin; [by intros [= _ <-]; left|]. cbn [negb ensure]. unfold bind at 1.
  destruct (updated_keyring u _) as [kr| | |] eqn:Hk; [|by intros [= _ <-]; left..].
  unfold bind, stored. destruct (commit_validator_set_metadata _ _) as [[] fs];
    cbn [wrapped]; intros [= _ <-]; [right|left; done..]. done.
Qed.
Lemma changes_apply_quorum msgs : tracks changes (apply_quorum_authorized_validator_set_metadata_update msgs).
Proof.
  intros w o w'. unfold apply_quorum_authorized_validator_set_metadata_update,
    apply_quorum_authorized_validator_set_metadata_update_with_quorum, the_node.
  unfold bind at 1, gets. unfold bind at 1. unfold bind at 1, lift.
  destruct (foldR _ _ msgs) as [[upd signers]| | |] eqn:Hf; [|by intros [= _ <-]; left..].
  unfold bind at 1. cbn [fst snd]. destruct (_ <=? size signers)%nat eqn:Hq; [|by intros [= _ <-]; left].
  cbn [ensure]. unfold bind at 1. destruct upd as [u|]; [|by intros [= _ <-]; left]. cbn [ok_or].
  intros [Hs|(Hni & Hk & Ha)]%changes_apply_update; [by left|right].
  apply authorize_spec in Hf as (_ & Hs & _). exists u, signers. split_and!; try done; [by apply Nat.leb_le|].
  intros s [Hin|(sg & u' & He & [= <-] & Hv)]%Hs; [by apply elem_of_empty in Hin|]. by exists sg.
Qed.
Lemma changes_catch {A} (m : NM A) handler :
  tracks changes m → (∀ e, tracks same_trust (handler e)) → tracks changes (catch m handler).
Proof.
  intros Hm Hh w o w'. unfold catch. destruct (m w) as [[] w1] eqn:Hw; intros Hr;
    [injection Hr as _ <-; by eapply Hm|by eapply changes_right; [eapply Hm|eapply Hh]|injection Hr as _ <-; by eapply Hm..].
Qed.
Lemma changes_apply_pending id : tracks changes (apply_pending_validator_set_metadata_update id).
Proof.
  unfold apply_pending_validator_set_metadata_update. apply changes_bind_l; [tracks_tac|]. intros n.
  apply changes_bind_l; [tracks_tac|]. intros authorizations. cbv zeta. apply changes_bind_r.
  - apply changes_catch; [apply changes_apply_quorum|]. intros e. tracks_tac. apply trust_audit.
  - intros _. tracks_tac; auto using trust_audit, trust_persist_pending.
Qed.
Lemma changes_ingest elapsed from message : tracks changes (ingest elapsed from message).
Proof.
  revert message. fix IH 1. intros message.
  destruct message as [| | | | | | | |[signer key_id network_id chain_id domain inner sig]| | | |];
    cbn [ingest]; (apply changes_bind_l; [apply trust_observe|]); intros _;
    try (clear IH; apply changes_same; tracks_tac; auto using trust_submit, trust_import, trust_evidence; fail).
  pose proof (IH inner) as Hin. apply changes_bind_l; [tracks_tac|]. intros n.
  apply changes_bind_l; [tracks_tac|]. intros _. destruct inner; try exact Hin.
  clear Hin IH. apply changes_bind_l; [apply trust_record|]. intros count.
  apply changes_bind_l; [tracks_tac|]. intros n'.
  destruct (_ <=? count)%nat; [|apply changes_same; tracks_tac].
  apply changes_bind_r; [apply changes_apply_pending|]. intros _. tracks_tac.
Qed.
Lemma changes_propose a : tracks changes (propose_validator_set_metadata_update_authorization a).
Proof.
  unfold propose_validator_set_metadata_update_authorization. apply changes_bind_l; [tracks_tac|]. intros n.
  apply changes_bind_l; [tracks_tac|]. intros u. apply changes_bind_l; [apply trust_record|]. intros count.
  apply changes_bind_l; [tracks_tac|]. intros n'. apply changes_bind_r; [|intros _; tracks_tac].
  destruct (_ <=? count)%nat; [apply changes_apply_pending|apply changes_same; tracks_tac].
Qed.

Lemma changes_rpc elapsed request :
  tracks changes (handle_rpc_request debug_parse_error model_file debug_node_error elapsed request).
Proof.
  intros w o w' (o1 & w1 & Hd & Hw)%handle_dispatch. apply (changes_right w w1 w').
  - assert (Hp : (∃ a, request = ReqProposeValidatorSetMetadataUpdate a) ∨ ∀ a, request ≠ ReqProposeValidatorSetMetadataUpdate a)
      by (destruct request; eauto). destruct Hp as [[a ->]|Hno].
    + cbn [node_dispatch] in Hd. unfold result_of in Hd. eapply changes_bind_r; [apply changes_propose| |exact Hd].
      intros a'. tracks_tac.
    + left. apply (tracks_dispatch same_trust) in Hd; auto using trust_submit, trust_produce, trust_import, trust_service.
      intros a He. by destruct (Hno a).
  - destruct Hw as [->|[response ->]]; by split.
Qed.
(** What a peer or an RPC client can make a node do about its keys. *)
Definition remotely (w w' : World) : Prop :=
  (∃ elapsed envelope o, ingest_network_envelope elapsed envelope w = (o, w')) ∨
  (∃ elapsed request o,
     handle_rpc_request debug_parse_error model_file debug_node_error elapsed request w = (o, w')).

(** C8. Trusted keys change only by quorum: whatever a peer sends and
    whatever request a client makes, if a node's keys or its applied
    updates differ afterwards, then they changed by one update, not applied
    before, that at least a quorum of distinct validators, all of them
    trusted before, signed for this network and chain; nothing else of the
    keyring moved. *)
Theorem validator_keys_need_quorum w w' :
  remotely w w' → same_trust w w' ∨ authorized_change w w'.
Proof. intros [(e & env & o & Hr)|(e & r & o & Hr)]; [by eapply changes_ingest|by eapply changes_rpc]. Qed.
End trust.
