(* ===== verification/NodeRestart.v ===== *)
(** * NodeRestart: what a node recovers from its files

    The files of a persistent node stay in step with its memory: after every
    committed transaction or block, a restart from the files gives back the
    state, the pending transactions in order and the validator set. *)
From S2P Require Import Prelude Effects Merkle Types State Policies AspectRuntime Aspects Runtime Steps Exec Transactions Mempool Block.
From S2P Require Import Consensus Protocol Network Storage Verify Evaluator Fixtures RpcTypes Rpc RpcTransport Node NodeReports NodeTracks NodeFacts.

(** ** The pool that can be submitted again *)
Section pool.
Context `{Host}.
Record ready_tx (state : DeTTaState) (tx : Transaction) : Prop := {
  ready_chain : tx_chain_id tx = chain_id state;
  ready_signed : tx_signature_ok tx = true;
  ready_live : match tx_valid_until_height tx with Some v => height state < v | None => True end;
  ready_nonce : (tx_sender tx, tx_nonce tx) ∉ used_nonces state;
  ready_size : (length (canonical_bytes tx) ≤ map_max_transaction_bytes default_admission_policy)%nat;
  ready_budget : transaction_resource_units tx ≤ tx_budget tx;
}.
Record ready_pool (state : DeTTaState) (m : Mempool) : Prop := {
  pool_ok : mempool_ok m;
  pool_policy : mem_policy m = default_admission_policy;
  pool_ready : Forall (ready_tx state) (mem_pending m);
}.
Definition pool_of (txs : list Transaction) : Mempool :=
  {| mem_pending := txs; mem_tx_hashes := hashes txs; mem_policy := default_admission_policy |}.
Lemma submit_ready state tx txs :
  ready_tx state tx → mempool_ok (pool_of (txs ++ [tx])) →
  submit state tx (pool_of txs) = (Ok (), pool_of (txs ++ [tx])).
Proof.
  intros [Hc Hs Hl Hn Hb Hu] [_ Hd Hlen Hsnd]. cbn [pool_of mem_pending mem_policy] in *.
  rewrite length_app in Hlen. cbn [length] in Hlen. specialize (Hsnd (tx_sender tx)).
  rewrite sender_pending_app in Hsnd. unfold sender_pending at 2 in Hsnd. rewrite filter_cons, decide_True in Hsnd by done.
  cbn [length] in Hsnd. rewrite fmap_app in Hd. apply NoDup_app in Hd as (_ & Hni & _).
  assert (Hh : tx_tx_hash tx ∉ hashes txs).
  { intros (tx' & Hin & He)%elem_of_hashes. eapply (Hni (tx_tx_hash tx)); [|by left].
    rewrite <- He. by apply list_elem_of_fmap_2. }
  unfold submit, bind, lift, gets, modify. cbn [pool_of mem_tx_hashes mem_policy mem_pending].
  rewrite (bool_decide_true _ Hc), Hs. cbn [ensure].
  assert ((match tx_valid_until_height tx with
    | Some v => ensure (negb (v <=? height state)) (MpTransactionExpired (height state) v)
    | None => Ok () end) = Ok ()) as ->.
  { destruct (tx_valid_until_height tx); [|done]. by rewrite (proj2 (N.leb_gt _ _) Hl). }
  rewrite !bool_decide_false by done. cbn [negb ensure].
  rewrite (proj2 (Nat.ltb_ge _ _) Hb), (proj2 (N.ltb_ge _ _) Hu). cbn [negb ensure].
  rewrite !(proj2 (Nat.leb_gt _ _)) by lia. cbn [negb ensure]. unfold pool_of. do 2 f_equal.
  apply set_eq. intros h. rewrite elem_of_union, elem_of_singleton, !elem_of_hashes. set_solver.
Qed.
Lemma mempool_ok_prefix txs rest : mempool_ok (pool_of (txs ++ rest)) → mempool_ok (pool_of txs).
Proof. intros Hok. by apply (mempool_ok_sub _ txs rest Hok). Qed.
Lemma resubmit_all state txs done_ :
  Forall (ready_tx state) txs → mempool_ok (pool_of (done_ ++ txs)) →
  forM (submit state) txs (pool_of done_) = (Ok (), pool_of (done_ ++ txs)).
Proof.
  revert done_. induction txs as [|tx txs IH]; intros done_ Hr Hok; [by rewrite app_nil_r|].
  apply Forall_cons in Hr as [Htx Hr]. cbn [forM]. unfold bind at 1.
  replace (done_ ++ tx :: txs) with ((done_ ++ [tx]) ++ txs) in * by (by rewrite <- app_assoc).
  rewrite submit_ready; [|done|by eapply mempool_ok_prefix]. by apply IH.
Qed.
Lemma ready_pool_eta state m : ready_pool state m → m = pool_of (mem_pending m).
Proof. intros [[Hh _ _ _] Hp _]. destruct m as [p h pol]. simpl in *. subst. done. Qed.
Lemma from_transactions_ready state m :
  ready_pool state m → from_transactions state (mem_pending m) = Ok m.
Proof.
  intros Hr. pose proof (ready_pool_eta _ _ Hr) as He. destruct Hr as [Hok _ Hall]. unfold from_transactions.
  change mempool_new with (pool_of []). rewrite He in Hok. rewrite (resubmit_all state (mem_pending m) [] Hall Hok).
  by rewrite He at 2.
Qed.

(** *** It stays so *)
Lemma submit_bytes state tx m u m' :
  submit state tx m = (Ok u, m') → (length (canonical_bytes tx) ≤ map_max_transaction_bytes (mem_policy m))%nat.
Proof.
  unfold submit. intros Hrun.
  repeat match goal with
  | H : bind (lift _) _ _ = (Ok _, _) |- _ =>
      apply bind_Ok in H as (? & ? & Hl & H); apply lift_Ok in Hl as [? ->]
  | H : bind (gets _) _ _ = (Ok _, _) |- _ =>
      apply bind_Ok in H as (? & ? & Hl & H); unfold gets in Hl; injection Hl as <- <-
  end. simplify_ok. by apply Nat.ltb_ge.
Qed.
Lemma submit_keeps_ready state tx m u m' :
  submit state tx m = (Ok u, m') → ready_pool state m → ready_pool state m'.
Proof.
  intros Hs [Hok Hp Hall]. pose proof (submit_keeps_ok _ _ _ _ _ Hs Hok) as Hok'.
  pose proof (submit_bytes _ _ _ _ _ Hs) as Hb. rewrite Hp in Hb.
  apply submit_Ok in Hs as (Hc & Hsig & Hl & Hn & Hu & _ & _ & _ & ->). split; [done|done|]. simpl.
  apply Forall_app. split; [done|]. apply Forall_singleton. by split.
Qed.
Lemma retain_keeps_ready s s' m : ready_pool s m → ready_pool s' (retain_admissible s' m).
Proof.
  intros [Hok Hp Hall]. split; [|done|].
  - unfold retain_admissible. eapply mempool_ok_sub; [done|]. symmetry. apply filter_app_complement.
  - cbn [retain_admissible mem_pending]. rewrite Forall_forall in *. intros tx [Ha Hin]%list_elem_of_filter.
    destruct (Hall tx Hin) as [_ _ _ _ ? ?]. unfold admissible in Ha. simplify_ok. split; try done.
    destruct (tx_valid_until_height tx); simplify_ok; done.
Qed.
Lemma drain_keeps_ready s max m :
  ready_pool s m → ready_pool s (drain_ordered_with_resource_limit max m).2.
Proof.
  intros [Hok Hp Hall]. pose proof (drain_spec max m) as Hd.
  destruct (drain_ordered_with_resource_limit max m) as [sel m']. destruct Hd as (_ & _ & Hperm & He). cbn [snd].
  rewrite He. split; cbn [mem_policy mem_pending]; [|done|].
  - eapply (mempool_ok_sub m _ sel Hok). by rewrite Hperm, (Permutation_app_comm sel).
  - rewrite Hperm, Forall_app in Hall. by destruct Hall.
Qed.
Lemma ready_new s : ready_pool s mempool_new.
Proof.
  split; [|done|constructor]. split; simpl; [done|constructor|lia|unfold sender_pending; simpl; lia].
Qed.
Lemma apply_block_chain_id b s u s' : apply_block b s = (Ok u, s') → chain_id s' = chain_id s.
Proof.
  intros (ws & Hrun & -> & _)%apply_block_Ok. cbn.
  refine (apply_transactions_inv (λ s1, chain_id s1 = chain_id s) _ _ _ _ _ Hrun eq_refl).
  intros tx s1 r s2 Ha. apply (applied_inv (λ s3, chain_id s3 = chain_id s) tx s1 r); [done| |done].
  intros s3 s4 Hs <-. apply (pres_chain _ _ (steps_preserved _ _ _ _ Hs)).
Qed.
Lemma validate_ready b n n' :
  validate_and_apply b n = (Ok (), n') → ready_pool (vn_state n) (vn_mempool n) →
  ready_pool (vn_state n') (vn_mempool n') ∧ chain_id (vn_state n') = chain_id (vn_state n).
Proof.
  unfold validate_and_apply. destruct (_ <? _); [done|].
  destruct (apply_block b (vn_state n)) as [[[]| | |] s'] eqn:Hb; try done. intros [= <-] Hr. cbn.
  split; [by eapply retain_keeps_ready|by eapply apply_block_chain_id].
Qed.
End pool.

(** ** Files in step with memory *)
Section durable.
Context `{Host, Wire, !Json StateSnapshot, !Json Block, !Json FinalityCertificate, !Json SlashingRecord}.
Context `{!Json ValidatorSetMetadata, !Json (list SignedValidatorMessage), !Json (gmap string string)}.
Context `{!Json (list ValidatorSetMetadataAuditRecord), !Json SnapshotImportAuditConfig}.
Context `{!Json (list Transaction), !Json ConsensusSigningRecord}.
Context `{!JsonInverse StateSnapshot, !JsonInverse (list Transaction), !JsonInverse ValidatorSetMetadata}.
Context `{!JsonInverse Block}.

Definition holds {T} `{Json T} (fs : FileSystem) (path : Path) (v : T) : Prop := read_json path fs = (Ok v, fs).
Lemma holds_ext {T} `{Json T} fs fs' path (v : T) : fs' !! path = fs !! path → holds fs path v → holds fs' path v.
Proof.
  unfold holds, read_json, bind, gets, lift. intros ->. destruct (fs !! path) as [b|]; simpl; [|done].
  destruct (len_N b <=? _); simpl; [|done]. destruct (from_json b); [|done]. by intros [= ->].
Qed.
(** Every block in memory is on file. *)
Definition blocks_held (fs : FileSystem) (blocks : gmap N Block) : Prop :=
  ∀ h b, blocks !! h = Some b → holds fs (block_path h) b.
Record durable (w : World) : Prop := {
  dur_blocks : blocks_held (nw_files w) (vn_blocks (svc_node (pvn_rpc (nw_node w))));
  dur_snapshot : holds (nw_files w) snapshot_path (snapshot (svc_state (pvn_rpc (nw_node w))));
  dur_mempool : holds (nw_files w) mempool_path (mem_pending (vn_mempool (svc_node (pvn_rpc (nw_node w)))));
  dur_pool : ready_pool (svc_state (pvn_rpc (nw_node w))) (vn_mempool (svc_node (pvn_rpc (nw_node w))));
  dur_chain : pvn_chain_id (nw_node w) = chain_id (svc_state (pvn_rpc (nw_node w)));
  dur_set : match nw_files w !! validator_set_path with
    | None => pvn_validator_keys (nw_node w) = ∅ ∧ pvn_applied_validator_set_updates (nw_node w) = ∅ ∧
        pvn_network_id (nw_node w) = DEFAULT_NODE_NETWORK_ID
    | Some _ => ∃ metadata, holds (nw_files w) validator_set_path metadata ∧
        vmd_chain_id metadata = pvn_chain_id (nw_node w) ∧ vmd_network_id metadata = pvn_network_id (nw_node w) ∧
        keyring_from_metadata metadata = Ok (pvn_validator_keys (nw_node w)) ∧
        list_to_set (vmd_applied_updates metadata) = pvn_applied_validator_set_updates (nw_node w)
    end;
  dur_config : nw_files w !! snapshot_import_audit_config_path = None ∨
    ∃ config : SnapshotImportAuditConfig, holds (nw_files w) snapshot_import_audit_config_path config;
  dur_no_pending : pvn_pending_authorizations (nw_node w) = ∅ ∧
    (nw_files w !! pending_validator_set_metadata_authorizations_path = None ∨
     holds (T:=list SignedValidatorMessage) (nw_files w) pending_validator_set_metadata_authorizations_path []);
}.

(** *** Writing *)
Lemma write_holds {T} `{JsonInverse T} path (v : T) fs fs' :
  write_json_atomic path v fs = (Ok (), fs') →
  holds fs' path v ∧ ∀ p, p ≠ path → path_ext p ≠ "tmp" → fs' !! p = fs !! p.
Proof. apply write_read. Qed.
Lemma write_keeps {T} `{Json T} path (v : T) fs fs' :
  write_json_atomic path v fs = (Ok (), fs') → ∀ p, p ≠ path → path_ext p ≠ "tmp" → fs' !! p = fs !! p.
Proof.
  unfold write_json_atomic, bind, lift, modify. destruct (encode_json v) as [bytes| | |]; intros Hw; try done.
  injection Hw as <-. intros p Hp Ht. assert (p ≠ with_extension "tmp" path) by (intros ->; done).
  by rewrite lookup_insert_ne, lookup_delete_ne, lookup_insert_ne.
Qed.
Lemma stored_Ok {A} (m : FM A) w a w' :
  stored m w = (Ok a, w') → ∃ fs, m (nw_files w) = (Ok a, fs) ∧ w' = {| nw_node := nw_node w; nw_files := fs |}.
Proof.
  unfold stored. destruct (m (nw_files w)) as [[] fs]; intros Hr; try done. injection Hr as -> <-. by exists fs.
Qed.
Lemma on_rpc_Ok {A} (m : RM A) w a w' :
  on_rpc m w = (Ok a, w') → ∃ rpc, m (pvn_rpc (nw_node w)) = (Ok a, rpc) ∧
    w' = {| nw_node := set_service rpc (nw_node w); nw_files := nw_files w |}.
Proof.
  unfold on_rpc. destruct (m _) as [[] rpc]; intros Hr; try done. injection Hr as -> <-. by exists rpc.
Qed.
(** The files of the validator set, the limits and the authorizations. *)
Definition settings_path (p : Path) : Prop :=
  p = validator_set_path ∨ p = snapshot_import_audit_config_path ∨
  p = pending_validator_set_metadata_authorizations_path.
Definition same_settings (w w' : World) : Prop :=
  same_trust w w' ∧ pvn_pending_authorizations (nw_node w') = pvn_pending_authorizations (nw_node w) ∧
  pvn_validator_id (nw_node w') = pvn_validator_id (nw_node w) ∧
  ∀ p, settings_path p → nw_files w' !! p = nw_files w !! p.
(** A world is durable when its files hold the new state and pool and its
    settings did not move. *)
Lemma durable_settings w w' :
  durable w → same_settings w w' →
  chain_id (svc_state (pvn_rpc (nw_node w'))) = chain_id (svc_state (pvn_rpc (nw_node w))) →
  blocks_held (nw_files w') (vn_blocks (svc_node (pvn_rpc (nw_node w')))) →
  holds (nw_files w') snapshot_path (snapshot (svc_state (pvn_rpc (nw_node w')))) →
  holds (nw_files w') mempool_path (mem_pending (vn_mempool (svc_node (pvn_rpc (nw_node w'))))) →
  ready_pool (svc_state (pvn_rpc (nw_node w'))) (vn_mempool (svc_node (pvn_rpc (nw_node w')))) →
  durable w'.
Proof.
  intros [_ _ _ _ Hc Hset Hcfg [Hp Hpf]] ((Ek & En & Ec & Ea) & Ep & _ & Ef) Hch Hb Hs Hm Hr. split; try done.
  - congruence.
  - rewrite (Ef validator_set_path) by (by left). destruct (nw_files w !! validator_set_path).
    + destruct Hset as (md & Hh & ? & ? & ? & ?). exists md. rewrite Ek, En, Ec, Ea. split_and!; try done.
      eapply holds_ext; [|exact Hh]. apply Ef. by left.
    + by rewrite Ek, En, Ea.
  - rewrite (Ef snapshot_import_audit_config_path) by (right; by left). destruct Hcfg as [?|[c Hh]]; [by left|right].
    exists c. eapply holds_ext; [|exact Hh]. apply Ef. right; by left.
  - rewrite Ep, (Ef pending_validator_set_metadata_authorizations_path) by (right; by right). split; [done|].
    destruct Hpf as [?|Hh]; [by left|right]. eapply holds_ext; [|exact Hh]. apply Ef. right; by right.
Qed.
Lemma settings_differ p q : settings_path p → path_ext p ≠ "tmp" ∧ (q = snapshot_path ∨ q = mempool_path ∨ path_dirs q = ["blocks"] → p ≠ q).
Proof. intros [->|[->| ->]]; (split; [done|]); intros [->|[->|Hq]]; intros He; try done; by rewrite <- He in Hq. Qed.

Lemma blocks_held_ext fs fs' blocks :
  (∀ h, fs' !! block_path h = fs !! block_path h) → blocks_held fs blocks → blocks_held fs' blocks.
Proof. intros Hf Hb h b Hl. eapply holds_ext; [apply Hf|by apply Hb]. Qed.
Lemma persist_mempool_Ok w u w' :
  persist_mempool w = (Ok u, w') →
  nw_node w' = nw_node w ∧
  holds (nw_files w') mempool_path (mem_pending (vn_mempool (svc_node (pvn_rpc (nw_node w))))) ∧
  ∀ p, p ≠ mempool_path → path_ext p ≠ "tmp" → nw_files w' !! p = nw_files w !! p.
Proof.
  unfold persist_mempool, the_node, bind, gets, commit_mempool.
  intros (fs & Hw & ->)%stored_Ok. destruct u. apply write_holds in Hw as [Hh Ho]. done.
Qed.
Lemma persist_block_Ok b w u w' :
  persist_committed_block b w = (Ok u, w') →
  nw_node w' = nw_node w ∧
  holds (nw_files w') snapshot_path (snapshot (svc_state (pvn_rpc (nw_node w)))) ∧
  holds (nw_files w') mempool_path (mem_pending (vn_mempool (svc_node (pvn_rpc (nw_node w))))) ∧
  holds (nw_files w') (block_path (hdr_height (blk_header b))) b ∧
  ∀ p, p ≠ snapshot_path → p ≠ mempool_path → p ≠ block_path (hdr_height (blk_header b)) → path_ext p ≠ "tmp" →
    nw_files w' !! p = nw_files w !! p.
Proof.
  unfold persist_committed_block. intros ([] & w1 & Hb & Hrun)%bind_Ok.
  apply stored_Ok in Hb as (fs1 & Hb & ->). apply write_holds in Hb as [Hblk Ho1].
  apply bind_Ok in Hrun as (n & w2 & Hn & Hrun). injection Hn as <- <-. cbn [nw_node nw_files] in *.
  apply bind_Ok in Hrun as ([] & w3 & Hs & Hrun). apply stored_Ok in Hs as (fs2 & Hs & ->). cbn [nw_files nw_node] in *.
  unfold commit_snapshot in Hs. apply bind_Ok in Hs as (? & ? & Hv & Hs). injection Hv as _ <-.
  apply write_holds in Hs as [Hsnap Ho2].
  apply persist_mempool_Ok in Hrun as (En & Hmem & Ho3). cbn [nw_files nw_node] in *. split_and!; [done| |done| |].
  - eapply holds_ext; [|exact Hsnap]. by apply Ho3.
  - eapply holds_ext; [|exact Hblk]. by rewrite Ho3, Ho2.
  - intros p H1 H2 H3 Ht. by rewrite Ho3, Ho2, Ho1.
Qed.
Lemma settings_kept b (w w' : World) :
  (∀ p, p ≠ snapshot_path → p ≠ mempool_path → p ≠ block_path (hdr_height (blk_header b)) → path_ext p ≠ "tmp" →
    nw_files w' !! p = nw_files w !! p) →
  ∀ p, settings_path p → nw_files w' !! p = nw_files w !! p.
Proof.
  intros Ho p Hp. destruct (settings_differ p snapshot_path Hp) as [Ht Hd1].
  destruct (settings_differ p mempool_path Hp) as [_ Hd2].
  destruct (settings_differ p (block_path (hdr_height (blk_header b))) Hp) as [_ Hd3]. apply Ho; auto.
Qed.

(** *** Operations *)
Definition same_node (x y : RpcService) : Prop := svc_node y = svc_node x.
#[local] Instance same_node_preorder : PreOrder same_node.
Proof. split; [done|]. unfold same_node. congruence. Qed.
Lemma validate_blocks b n n' :
  validate_and_apply b n = (Ok (), n') → vn_blocks n' = <[hdr_height (blk_header b) := b]> (vn_blocks n).
Proof.
  unfold validate_and_apply. destruct (_ <? _); [done|].
  destruct (apply_block b (vn_state n)) as [[[]| | |] s']; try done. by intros [= <-].
Qed.
Lemma announce_same_node start b : tracks same_node (announce_block start b).
Proof.
  assert (Hp : ∀ t n, tracks same_node (publish_subscription_event t n)).
  { intros t n s o s'. unfold publish_subscription_event. destruct (succ_u64 _); by intros [= _ <-]. }
  unfold announce_block. apply tracks_bind; [apply _|by intros s o s' [= _ <-]|]. intros evs.
  unfold publish_block_notifications.
  repeat (apply tracks_bind; [apply _|auto using tracks_forM with typeclass_instances|intros _]).
  apply tracks_forM; [apply _|auto].
Qed.
Lemma import_Ok b svc u svc' :
  rpc_import_block b svc = (Ok u, svc') → validate_and_apply b (svc_node svc) = (Ok (), svc_node svc').
Proof.
  unfold rpc_import_block, bind at 1, gets. intros ([] & svc1 & Hv & Ha)%bind_Ok.
  apply on_node_Ok in Hv as (node & Hv & ->). apply announce_same_node in Ha. unfold same_node in Ha. by rewrite Ha.
Qed.
Lemma produce_Ok h t svc b svc' :
  rpc_produce_block h t svc = (Ok b, svc') →
  ∃ node, propose_pending_block h t (svc_node svc) = (Ok b, node) ∧ validate_and_apply b node = (Ok (), svc_node svc').
Proof.
  unfold rpc_produce_block, bind at 1, gets. intros (b1 & svc1 & Hp & Hrun)%bind_Ok.
  apply on_node_Ok in Hp as (node & Hp & ->). apply bind_Ok in Hrun as ([] & svc2 & Hv & Hrun).
  apply on_node_Ok in Hv as (node' & Hv & ->). apply bind_Ok in Hrun as ([] & svc3 & Ha & Hr). injection Hr as -> ->.
  apply announce_same_node in Ha. unfold same_node in Ha. exists node. rewrite Ha. done.
Qed.
Lemma durable_submit tx w w' : node_submit_transaction tx w = (Ok (), w') → durable w → durable w'.
Proof.
  unfold node_submit_transaction. intros ([] & w1 & Hs & Hp)%bind_Ok Hd.
  apply on_rpc_Ok in Hs as (svc & Hs & ->). apply on_node_Ok in Hs as (node & Hs & ->).
  unfold submit_transaction in Hs. destruct (submit _ _ _) as [o m] eqn:Hsub. injection Hs as -> <-.
  apply persist_mempool_Ok in Hp as (En & Hm & Ho). cbn [nw_node nw_files pvn_rpc set_service] in *.
  destruct w' as [n' fs']. cbn [nw_node nw_files] in *. subst n'.
  eapply durable_settings; [exact Hd|..]; cbn [nw_node nw_files]; try done.
  - split_and!; try done.
    intros p Hp. destruct (settings_differ p mempool_path Hp) as [? Hne]. apply Ho; [|done]. apply Hne. auto.
  - eapply blocks_held_ext; [|apply (dur_blocks _ Hd)]. intros h. by apply Ho.
  - eapply holds_ext; [|apply (dur_snapshot _ Hd)]. by apply Ho.
  - eapply submit_keeps_ready; [exact Hsub|]. apply (dur_pool _ Hd).
Qed.
Lemma durable_block e b w w1 w2 u w' :
  durable w →
  nw_files w1 = nw_files w → same_settings w w1 →
  ready_pool (svc_state (pvn_rpc (nw_node w1))) (vn_mempool (svc_node (pvn_rpc (nw_node w1)))) →
  chain_id (svc_state (pvn_rpc (nw_node w1))) = chain_id (svc_state (pvn_rpc (nw_node w))) →
  vn_blocks (svc_node (pvn_rpc (nw_node w1)))
    = <[hdr_height (blk_header b) := b]> (vn_blocks (svc_node (pvn_rpc (nw_node w)))) →
  record_block_time e w1 = (Ok (), w2) → persist_committed_block b w2 = (Ok u, w') → durable w'.
Proof.
  intros Hd Hf Hs Hr Hc Hb Ht Hp. injection Ht as <-. apply persist_block_Ok in Hp as (En & Hsnap & Hmem & Hblk & Ho). cbn in *.
  destruct w' as [n' fs']. cbn [nw_node nw_files] in *. subst n'.
  eapply durable_settings; [exact Hd|..]; cbn [nw_node nw_files]; try done.
  - destruct Hs as (Ht & Hpend & Hid & Hfs). split_and!; try done.
    intros p Hp. rewrite <- (Hfs p Hp). by apply (settings_kept b w1 {| nw_node := nw_node w1; nw_files := fs' |}).
  - cbn [pvn_rpc set_observations]. rewrite Hb. intros h b'. destruct (decide (h = hdr_height (blk_header b))) as [->|Hne].
    + rewrite lookup_insert_eq. by intros [= <-].
    + rewrite lookup_insert_ne by done. intros Hl. eapply holds_ext; [|by apply (dur_blocks _ Hd)].
      rewrite Ho, Hf; try done. by intros ?%block_path_inj.
Qed.
Lemma durable_import e b w w' : node_import_block e b w = (Ok (), w') → durable w → durable w'.
Proof.
  unfold node_import_block. intros ([] & w1 & Hi & Hrun)%bind_Ok Hd.
  apply on_rpc_Ok in Hi as (svc & Hi%import_Ok & ->). apply bind_Ok in Hrun as ([] & w2 & Ht & Hp).
  destruct (validate_ready _ _ _ Hi (dur_pool _ Hd)). apply validate_blocks in Hi.
  by eapply (durable_block e b w); [| | | | | |exact Ht|exact Hp].
Qed.
Lemma durable_produce e h t b w w' : node_produce_block e h t w = (Ok b, w') → durable w → durable w'.
Proof.
  unfold node_produce_block. intros (b1 & w1 & Hi & Hrun)%bind_Ok Hd.
  apply on_rpc_Ok in Hi as (svc & Hi%produce_Ok & ->). destruct Hi as (node & Hprop & Hv).
  apply bind_Ok in Hrun as ([] & w2 & Ht & Hrun). apply bind_Ok in Hrun as ([] & w3 & Hp & Hr). injection Hr as -> ->.
  assert (Hready : ready_pool (vn_state node) (vn_mempool node) ∧ vn_state node = svc_state (pvn_rpc (nw_node w)) ∧
    vn_blocks node = vn_blocks (svc_node (pvn_rpc (nw_node w)))).
  { unfold propose_pending_block in Hprop. pose proof (drain_keeps_ready _ (vn_block_resource_limit (svc_node (pvn_rpc (nw_node w)))) _ (dur_pool _ Hd)) as Hr.
    destruct (drain_ordered_with_resource_limit _ _) as [txs m]. by injection Hprop as _ <-. }
  destruct Hready as (Hready & Hst & Hbl). destruct (validate_ready _ _ _ Hv Hready). apply validate_blocks in Hv.
  eapply (durable_block e b w); [done| | | | | |exact Ht|exact Hp]; try done; cbn; unfold svc_state in *; congruence.
Qed.

(** *** Reading back *)
Lemma holds_Some {T} `{Json T} fs path (v : T) : holds fs path v → is_Some (fs !! path).
Proof. intros (b & Hb & _)%read_json_Ok. by exists b. Qed.
Lemma read_or_holds {T} `{Json T} fs path (v d : T) : holds fs path v → read_json_or path d fs = (Ok v, fs).
Proof.
  intros Hh. unfold read_json_or, bind, exists_path, gets. rewrite bool_decide_true by (by eapply holds_Some). exact Hh.
Qed.
Lemma read_or_none {T} `{Json T} fs path (d : T) : fs !! path = None → read_json_or path d fs = (Ok d, fs).
Proof. intros Hn. unfold read_json_or, bind, exists_path, gets. rewrite Hn. by rewrite bool_decide_false by (by intros []). Qed.
Lemma maybe_read_holds {T} `{Json T} fs path (v : T) :
  holds fs path v → maybe_read_json path fs = (Ok (Some v), fs).
Proof.
  intros Hh. unfold maybe_read_json, bind, exists_path, gets. rewrite bool_decide_true by (by eapply holds_Some).
  unfold holds in Hh. by rewrite Hh.
Qed.
Lemma maybe_read_none {T} `{Json T} fs path : fs !! path = None → maybe_read_json (T:=T) path fs = (Ok None, fs).
Proof.
  intros Hn. unfold maybe_read_json, bind, exists_path, gets. rewrite Hn. by rewrite bool_decide_false by (by intros []).
Qed.
Lemma load_snapshot_holds fs s : holds fs snapshot_path (snapshot s) → load_snapshot fs = (Ok (snapshot s), fs).
Proof.
  intros Hh. unfold load_snapshot, bind, holds in *. rewrite Hh. unfold lift, snapshot_valid.
  by rewrite (proj1 (snapshot_roundtrip s)).
Qed.
(** The node a restart gives: what memory had, with fresh counters. *)
Record restored (n n' : PersistentValidatorNode) : Prop := {
  rst_state : svc_state (pvn_rpc n') = svc_state (pvn_rpc n);
  rst_pool : vn_mempool (svc_node (pvn_rpc n')) = vn_mempool (svc_node (pvn_rpc n));
  rst_id : pvn_validator_id n' = pvn_validator_id n;
  rst_network : pvn_network_id n' = pvn_network_id n;
  rst_chain : pvn_chain_id n' = pvn_chain_id n;
  rst_keys : pvn_validator_keys n' = pvn_validator_keys n;
  rst_applied : pvn_applied_validator_set_updates n' = pvn_applied_validator_set_updates n;
}.
Definition same_blocks (fs fs' : FileSystem) : Prop := ∀ h, fs' !! block_path h = fs !! block_path h.
Lemma load_pending_nothing n fs bytes :
  encode_json (T:=list SignedValidatorMessage) [] = Ok bytes →
  fs !! pending_validator_set_metadata_authorizations_path = None ∨
    holds (T:=list SignedValidatorMessage) fs pending_validator_set_metadata_authorizations_path [] →
  ∃ fs', load_pending {| nw_node := n; nw_files := fs |}
    = (Ok (), {| nw_node := set_pending_authorizations ∅ n; nw_files := fs' |}) ∧ same_blocks fs fs'.
Proof.
  intros He Hf. unfold load_pending, bind at 1, stored at 1. cbn [nw_files].
  assert (load_pending_validator_set_metadata_authorizations fs = (Ok [], fs)) as ->.
  { destruct Hf as [Hn|Hh]; [by apply read_or_none|by apply read_or_holds]. }
  cbn [wrapped nw_node]. unfold bind at 1, on_pvn, modify. cbn [nw_node nw_files]. unfold bind at 1. cbn [forM ret].
  unfold persist_pending_validator_set_metadata_authorizations, bind, the_node, gets, stored.
  cbn [nw_node nw_files pvn_pending_authorizations set_pending_authorizations].
  change (all_authorizations ∅) with (@nil SignedValidatorMessage).
  unfold commit_pending_validator_set_metadata_authorizations, write_json_atomic, bind, lift. rewrite He.
  unfold modify. eexists. split; [reflexivity|]. intros h.
  by rewrite lookup_insert_ne, lookup_delete_ne, lookup_insert_ne.
Qed.
Lemma stored_runs {A} (m : FM A) n fs a fs' :
  m fs = (Ok a, fs') →
  stored m {| nw_node := n; nw_files := fs |} = (Ok a, {| nw_node := n; nw_files := fs' |}).
Proof. unfold stored. cbn [nw_files]. by intros ->. Qed.
Lemma run_node_runs {A} (m : NM A) n fs a n' fs' :
  m {| nw_node := n; nw_files := fs |} = (Ok a, {| nw_node := n'; nw_files := fs' |}) →
  run_node m n fs = (Ok n', fs').
Proof. unfold run_node. by intros ->. Qed.
(** The validator set on file replaces the one of the fresh node. *)
Lemma read_set_runs w id service :
  pvn_chain_id (nw_node w) = chain_id (svc_state service) → durable w →
  ∃ n, (let! metadata := stored maybe_load_validator_set_metadata in
    match metadata with Some metadata => apply_validator_set_metadata metadata | None => ret () end)
    {| nw_node := fresh_node id (chain_id (svc_state service)) service; nw_files := nw_files w |}
    = (Ok (), {| nw_node := n; nw_files := nw_files w |}) ∧
    pvn_rpc n = service ∧ pvn_validator_id n = id ∧ pvn_network_id n = pvn_network_id (nw_node w) ∧
    pvn_chain_id n = pvn_chain_id (nw_node w) ∧ pvn_validator_keys n = pvn_validator_keys (nw_node w) ∧
    pvn_applied_validator_set_updates n = pvn_applied_validator_set_updates (nw_node w).
Proof.
  intros Hc [_ _ _ _ _ Hset _ _]. destruct (nw_files w !! validator_set_path) eqn:Hf.
  - destruct Hset as (md & Hh & Hmc & Hnet & Hk & Ha).
    erewrite bind_runs by (eapply stored_runs, maybe_read_holds; exact Hh).
    unfold apply_validator_set_metadata, the_node, bind, gets, lift.
    cbn [nw_node nw_files pvn_chain_id fresh_node].
    rewrite bool_decide_true by congruence. cbn [ensure]. rewrite Hk.
    eexists. split; [reflexivity|]. by split_and!.
  - destruct Hset as (Hk & Ha & Hn). erewrite bind_runs by (eapply stored_runs, maybe_read_none; exact Hf).
    eexists. split; [reflexivity|]. rewrite Hk, Ha, Hn. by split_and!.
Qed.
Lemma read_limits_runs fs n :
  (fs !! snapshot_import_audit_config_path = None ∨
    ∃ config : SnapshotImportAuditConfig, holds fs snapshot_import_audit_config_path config) →
  ∃ config, stored maybe_load_snapshot_import_audit_config {| nw_node := n; nw_files := fs |}
    = (Ok config, {| nw_node := n; nw_files := fs |}).
Proof.
  intros [Hn|[c Hh]]; eexists; [apply stored_runs, maybe_read_none, Hn|eapply stored_runs, maybe_read_holds, Hh].
Qed.
Lemma restore_runs w id service bytes :
  pvn_chain_id (nw_node w) = chain_id (svc_state service) → durable w →
  encode_json (T:=list SignedValidatorMessage) [] = Ok bytes →
  ∃ n fs, restore_node {| nw_node := fresh_node id (chain_id (svc_state service)) service; nw_files := nw_files w |}
    = (Ok (), {| nw_node := n; nw_files := fs |}) ∧
    pvn_rpc n = service ∧ pvn_validator_id n = id ∧ pvn_network_id n = pvn_network_id (nw_node w) ∧
    pvn_chain_id n = pvn_chain_id (nw_node w) ∧ pvn_validator_keys n = pvn_validator_keys (nw_node w) ∧
    pvn_applied_validator_set_updates n = pvn_applied_validator_set_updates (nw_node w) ∧
    same_blocks (nw_files w) fs.
Proof.
  intros Hc Hd He. destruct (read_set_runs w id service Hc Hd) as (n1 & Hr & Hn1).
  destruct Hd as [_ _ _ _ _ _ Hcfg [_ Hpf]]. apply bind_Ok in Hr as (md & w1 & Hmd & Hr).
  unfold restore_node. erewrite bind_runs by exact Hmd. erewrite bind_runs by exact Hr.
  destruct (read_limits_runs (nw_files w) n1 Hcfg) as [config Hrc]. erewrite bind_runs by exact Hrc.
  set (n2 := match config with
    | Some c => set_limits (pvn_max_pending_updates n1) (pvn_max_pending_authorizations_per_validator n1)
        (pvn_max_validator_set_metadata_audit_records n1) (pvn_max_validator_set_metadata_audit_page_size n1)
        (sic_max_records c) (sic_max_page_size c) n1
    | None => n1 end).
  destruct (load_pending_nothing n2 (nw_files w) bytes He Hpf) as (fs' & Hlp & Hsb).
  exists (set_pending_authorizations ∅ n2), fs'. split; [|destruct config; by destruct_and!].
  erewrite bind_runs; [exact Hlp|]. by destruct config.
Qed.
Lemma restart_durable w bytes :
  durable w → encode_json (T:=list SignedValidatorMessage) [] = Ok bytes →
  ∃ n fs, restart (pvn_validator_id (nw_node w)) (nw_files w) = (Ok n, fs) ∧ restored (nw_node w) n ∧
    same_blocks (nw_files w) fs.
Proof.
  intros Hd He. pose proof Hd as [_ Hs Hm Hp Hc _ _ _]. unfold restart.
  unfold bind at 1, stored_only at 1. rewrite (load_snapshot_holds _ _ Hs). cbn [wrapped].
  unfold bind at 1, lift at 1. rewrite (proj1 (snapshot_roundtrip _)). cbn [wrapped].
  unfold bind at 1, stored_only at 1, load_mempool. rewrite (read_or_holds _ _ _ _ Hm). cbn [wrapped].
  unfold bind at 1, lift at 1, with_pending_transactions. rewrite (from_transactions_ready _ _ Hp). cbn [outcome_bind wrapped].
  set (node := validator_node _ _ _).   destruct (restore_runs w (pvn_validator_id (nw_node w)) (rpc_new node) bytes Hc Hd He)
    as (n & fs & Hr & Hrpc & Hid & Hnet & Hch & Hk & Ha & Hsb).
  exists n, fs. split; [exact (run_node_runs _ _ _ _ _ _ Hr)|]. split; [|done]. split; try done; by rewrite Hrpc.
Qed.

(** A restart submits the pending transactions on file again, to the state on
    file, and stops at the first one refused: files whose snapshot was
    replaced under pending transactions may not restart. *)
Lemma restart_needs_admissible_pool id fs s pending e :
  holds fs snapshot_path (snapshot s) → holds fs mempool_path pending → from_transactions s pending = Err e →
  restart id fs = (Err (NodeMempool e), fs).
Proof.
  intros Hs Hm Hf. unfold restart. unfold bind at 1, stored_only at 1. rewrite (load_snapshot_holds _ _ Hs). cbn [wrapped].
  unfold bind at 1, lift at 1. rewrite (proj1 (snapshot_roundtrip _)). cbn [wrapped].
  unfold bind at 1, stored_only at 1, load_mempool. rewrite (read_or_holds _ _ _ _ Hm). cbn [wrapped].
  unfold bind at 1, lift at 1, with_pending_transactions. by rewrite Hf.
Qed.

(** *** From the first start on *)
Lemma bootstrap_durable id state n fs :
  bootstrap id state ∅ = (Ok n, fs) →
  n = fresh_node id (chain_id state) (rpc_new (validator_node_new id state)) ∧
  durable {| nw_node := n; nw_files := fs |}.
Proof.
  unfold bootstrap. intros ([] & fs1 & Hs%stored_only_Ok & Hrun)%bind_Ok.
  apply bind_Ok in Hrun as ([] & fs2 & Hm%stored_only_Ok & Hr). injection Hr as <- <-.
  unfold commit_snapshot in Hs. apply bind_Ok in Hs as (? & ? & Hv & Hs). injection Hv as _ <-.
  apply write_holds in Hs as [Hsnap Ho1]. apply write_holds in Hm as [Hmem Ho2].
  assert (Hnone : ∀ p, settings_path p → fs2 !! p = None).
  { intros p Hp. destruct (settings_differ p snapshot_path Hp) as [Ht Hd1].
    destruct (settings_differ p mempool_path Hp) as [_ Hd2]. rewrite Ho2, Ho1 by auto. apply lookup_empty. }
  split; [done|]. split; cbn [nw_node nw_files].
  - intros h b Hl. by apply (lookup_empty_Some (M:=gmap N) h b) in Hl.
  - eapply holds_ext; [|exact Hsnap]. by apply Ho2.
  - exact Hmem.
  - apply ready_new.
  - done.
  - by rewrite (Hnone validator_set_path) by (by left).
  - left. apply Hnone. right; by left.
  - split; [done|]. left. apply Hnone. right; by right.
Qed.
(** A write that is not to the node's own files. *)
Lemma durable_elsewhere w fs :
  durable w → (∀ p, p = snapshot_path ∨ p = mempool_path ∨ settings_path p ∨ path_dirs p = ["blocks"] ∧ path_ext p ≠ "tmp" →
    fs !! p = nw_files w !! p) →
  durable {| nw_node := nw_node w; nw_files := fs |}.
Proof.
  intros Hd Ho. pose proof Hd as [Hb Hs Hm Hp Hch _ _ _]. eapply durable_settings; [exact Hd|..]; cbn [nw_node nw_files]; try done.
  - split_and!; try done. intros p Hpp. apply Ho. auto.
  - eapply blocks_held_ext; [|exact Hb]. intros h. apply Ho. by do 3 right.
  - eapply holds_ext; [|exact Hs]. apply Ho. by left.
  - eapply holds_ext; [|exact Hm]. apply Ho. right; by left.
Qed.
Lemma own_file p q :
  p = snapshot_path ∨ p = mempool_path ∨ settings_path p ∨ path_dirs p = ["blocks"] ∧ path_ext p ≠ "tmp" →
  path_dirs q ≠ [] → path_dirs q ≠ ["blocks"] → p ≠ q ∧ path_ext p ≠ "tmp".
Proof.
  intros [->|[->|[[->|[->| ->]]|[Hd He]]]] Hq Hq'; (split; [|done]); intros <-; by auto.
Qed.
Lemma durable_certificate c w u w' : persist_finality_certificate c w = (Ok u, w') → durable w → durable w'.
Proof.
  unfold persist_finality_certificate. intros ([] & w1 & Hc & Hr)%bind_Ok Hd.
  apply stored_Ok in Hc as (fs & Hk & ->). pose proof (write_keeps _ _ _ _ Hk) as Ho.
  assert (durable {| nw_node := nw_node w; nw_files := fs |}) as Hd1.
  { apply durable_elsewhere; [done|]. intros p Hp. eapply own_file in Hp as [? ?]; [by apply Ho|done..]. }
  apply on_rpc_Ok in Hr as (svc & Hr & ->). cbn [nw_node nw_files] in *.
  assert (svc_node svc = svc_node (pvn_rpc (nw_node w))) as He.
  { unfold publish_finality_certificate, publish_subscription_event in Hr.
    destruct (succ_u64 _); try done. by injection Hr as _ <-. }
  destruct Hd1 as [Hb Hs Hm Hp Hch Hset Hcfg Hpe]. cbn [nw_node nw_files] in *.
  split; cbn [nw_node nw_files]; unfold svc_state in *; cbn [pvn_rpc set_service]; rewrite ?He; done.
Qed.
Lemma durable_evidence e w r w' : persist_equivocation_evidence e w = (Ok r, w') → durable w → durable w'.
Proof.
  unfold persist_equivocation_evidence. intros ([] & w1 & Hc & Hr)%bind_Ok Hd. injection Hr as _ <-.
  apply stored_Ok in Hc as (fs & Hk & ->). pose proof (write_keeps _ _ _ _ Hk) as Ho.
  apply durable_elsewhere; [done|]. intros p Hp. eapply own_file in Hp as [? ?]; [by apply Ho|done..].
Qed.

(** *** Updates of the validator set

    A keyring is filed by validator id, so reading back its values gives it
    again. *)
Definition keyed (keyring : gmap string ValidatorPublicKey) : Prop :=
  ∀ id key, keyring !! id = Some key → vpk_validator_id key = id.
Lemma foldR_keyed {B} (f : gmap string ValidatorPublicKey → B → outcome NodeError (gmap string ValidatorPublicKey)) l m m' :
  (∀ m x m', keyed m → f m x = Ok m' → keyed m') → keyed m → foldR f m l = Ok m' → keyed m'.
Proof.
  intros Hf. revert m. induction l as [|x l IH]; intros m Hm; simpl; [by intros [= <-]|].
  intros (m1 & H1 & H2)%outcome_bind_Ok. eauto.
Qed.
Lemma add_key_keyed m x m' : keyed m → add_key m x = Ok m' → keyed m'.
Proof.
  unfold add_key. intros Hm ([] & _ & [= <-])%outcome_bind_Ok id key.
  intros [[<- <-]|[_ Hl]]%lookup_insert_Some; [done|by apply Hm].
Qed.
Lemma remove_key_keyed m x m' : keyed m → remove_key m x = Ok m' → keyed m'.
Proof.
  unfold remove_key. intros Hm ([] & _ & [= <-])%outcome_bind_Ok id key.
  intros [_ Hl]%lookup_delete_Some. by apply Hm.
Qed.
Lemma keyring_keyed metadata m : keyring_from_metadata metadata = Ok m → keyed m.
Proof. apply foldR_keyed; [apply add_key_keyed|done]. Qed.
Lemma add_keys_all keys m :
  NoDup (vpk_validator_id <$> keys) → (∀ key, key ∈ keys → m !! vpk_validator_id key = None) →
  foldR add_key m keys = Ok (foldl (λ m key, <[vpk_validator_id key := key]> m) m keys).
Proof.
  revert m. induction keys as [|key keys IH]; intros m Hnd Hm; [done|].
  apply NoDup_cons in Hnd as [Hni Hnd]. cbn [foldR foldl]. unfold add_key at 1.
  rewrite bool_decide_true by (apply Hm; by left). cbn [ensure outcome_bind]. apply IH; [done|].
  intros key' Hin. rewrite lookup_insert_ne; [apply Hm; by right|].
  intros He. apply Hni. rewrite He. by apply list_elem_of_fmap_2.
Qed.
Lemma insert_keys_lookup keys (m : gmap string ValidatorPublicKey) id :
  NoDup (vpk_validator_id <$> keys) →
  foldl (λ m key, <[vpk_validator_id key := key]> m) m keys !! id
  = match list_find (λ key, vpk_validator_id key = id) keys with
    | Some (_, key) => Some key | None => m !! id end.
Proof.
  revert m. induction keys as [|key keys IH]; intros m Hnd; [done|]. apply NoDup_cons in Hnd as [Hni Hnd].
  cbn [foldl list_find]. rewrite IH by done. case_decide as He.
  - destruct (list_find _ keys) as [[i key']|] eqn:Hf; [|by rewrite <- He, lookup_insert_eq].
    apply list_find_Some in Hf as (Hl & <- & _). destruct Hni. rewrite He.
    apply list_elem_of_fmap_2. by eapply list_elem_of_lookup_2.
  - destruct (list_find _ keys) as [[i key']|]; [done|]. by rewrite lookup_insert_ne.
Qed.
Lemma keyring_values m network chain updates :
  keyed m →
  keyring_from_metadata {| vmd_network_id := network; vmd_chain_id := chain; vmd_validators := values m;
                           vmd_applied_updates := updates |} = Ok m.
Proof.
  intros Hk. unfold keyring_from_metadata. cbn [vmd_validators].
  assert (Hnd : NoDup (vpk_validator_id <$> values m)).
  { replace (vpk_validator_id <$> values m) with (keys m); [apply NoDup_keys|].
    unfold keys, values. rewrite <- list_fmap_compose. apply list_fmap_ext. intros i [id key] Hl. simpl. symmetry.
    apply Hk, elem_of_entries. by eapply list_elem_of_lookup_2. }
  rewrite add_keys_all by done. f_equal. apply map_eq. intros id. rewrite insert_keys_lookup by done.
  destruct (list_find _ (values m)) as [[i key]|] eqn:Hf.
  - apply list_find_Some in Hf as (Hl & Hid & _). apply list_elem_of_lookup_2, elem_of_values in Hl as [id' Hl].
    pose proof (Hk _ _ Hl). congruence.
  - rewrite lookup_empty. symmetry. apply eq_None_not_Some. intros [key Hl]. apply list_find_None in Hf.
    rewrite Forall_forall in Hf. apply (Hf key); [apply elem_of_values; eauto|by apply Hk].
Qed.
Lemma durable_keyed w : durable w → keyed (pvn_validator_keys (nw_node w)).
Proof.
  intros [_ _ _ _ _ Hset _ _]. destruct (nw_files w !! validator_set_path).
  - destruct Hset as (md & _ & _ & _ & Hk & _). by eapply keyring_keyed.
  - destruct Hset as (-> & _). by intros id key ?%lookup_empty_Some.
Qed.
(** A node whose validator set was written and read into memory. *)
Lemma durable_set w fs metadata n :
  durable w → commit_validator_set_metadata metadata (nw_files w) = (Ok (), fs) →
  vmd_chain_id metadata = pvn_chain_id n → vmd_network_id metadata = pvn_network_id n →
  keyring_from_metadata metadata = Ok (pvn_validator_keys n) →
  list_to_set (vmd_applied_updates metadata) = pvn_applied_validator_set_updates n →
  pvn_rpc n = pvn_rpc (nw_node w) → pvn_chain_id n = pvn_chain_id (nw_node w) →
  pvn_pending_authorizations n = pvn_pending_authorizations (nw_node w) →
  durable {| nw_node := n; nw_files := fs |}.
Proof.
  intros [Hb Hs Hm Hp Hch _ Hcfg [Hpe Hpf]] [Hh Ho]%write_holds Hc Hn Hk Ha Er Ec Ep.
  split; cbn [nw_node nw_files]; rewrite ?Er; try done.
  - eapply blocks_held_ext; [|exact Hb]. intros h. by apply Ho.
  - eapply holds_ext; [|exact Hs]. by apply Ho.
  - eapply holds_ext; [|exact Hm]. by apply Ho.
  - congruence.
  - destruct (holds_Some _ _ _ Hh) as [b ->]. exists metadata. by split_and!.
  - rewrite Ho by done. destruct Hcfg as [?|[c Hc']]; [by left|right]. exists c.
    eapply holds_ext; [|exact Hc']. by apply Ho.
  - split; [congruence|]. rewrite Ho by done. destruct Hpf as [?|Hpf]; [by left|right].
    eapply holds_ext; [|exact Hpf]. by apply Ho.
Qed.
Lemma persist_set_durable net keys w u w' :
  persist_validator_set_metadata net keys w = (Ok u, w') → durable w → durable w'.
Proof.
  unfold persist_validator_set_metadata, the_node. unfold bind at 1, gets. intros (kr & w1 & Hk & Hrun)%bind_Ok Hd.
  injection Hk as Hk <-. apply bind_Ok in Hrun as ([] & w2 & Hc & Hr). injection Hr as _ <-.
  apply stored_Ok in Hc as (fs & Hc & ->). by eapply durable_set.
Qed.
Lemma durable_update messages quorum w u w' :
  apply_quorum_authorized_validator_set_metadata_update_with_quorum messages quorum w = (Ok u, w') →
  durable w → durable w'.
Proof.
  unfold apply_quorum_authorized_validator_set_metadata_update_with_quorum, the_node.
  intros (n & w0 & Hn & Hrun)%bind_Ok Hd. injection Hn as <- <-.
  apply bind_Ok in Hrun as (authorized & w1 & Ha & Hrun). apply lift_Ok in Ha as [_ ->].
  apply bind_Ok in Hrun as ([] & w1 & Hq & Hrun). apply lift_Ok in Hq as [_ ->].
  apply bind_Ok in Hrun as (update & w1 & Hu & Hrun). apply lift_Ok in Hu as [_ ->].
  unfold apply_validator_set_metadata_update, the_node in Hrun.
  apply bind_Ok in Hrun as (n & w1 & Hn & Hrun). injection Hn as <- <-.
  apply bind_Ok in Hrun as ([] & w1 & Hq & Hrun). apply lift_Ok in Hq as [_ ->].
  apply bind_Ok in Hrun as (keyring & w1 & Hk & Hrun). apply lift_Ok in Hk as [Hk ->]. cbv zeta in Hrun.
  apply bind_Ok in Hrun as ([] & w1 & Hc & Hr). injection Hr as _ <-. apply stored_Ok in Hc as (fs & Hc & ->).
  assert (Hkeyed : keyed keyring).
  { unfold updated_keyring in Hk. apply outcome_bind_Ok in Hk as (m & Hm & Hk).
    eapply foldR_keyed; [apply add_key_keyed| |exact Hk].
    eapply foldR_keyed; [apply remove_key_keyed|by apply durable_keyed|exact Hm]. }
  eapply (durable_set w); [done|exact Hc|done|done|by apply keyring_values| |done..].
  apply set_eq. intros x. cbn. by rewrite elem_of_list_to_set, elem_of_set_iter.
Qed.
(** A record that is there is read and nothing is written. *)
Lemma claim_found r fs r' fs' :
  commit_consensus_signing_record_if_absent id r fs = (Ok (Some r'), fs') → fs' = fs.
Proof.
  unfold commit_consensus_signing_record_if_absent, bind at 1, exists_path at 1, gets. fold (record_path r).
  case_bool_decide as Hx.
  - pose proof (read_keeps (T:=ConsensusSigningRecord) (record_path r) fs) as Hr. unfold bind, ret.
    destruct (read_json _ _) as [[] fs1]; simpl in *; [|done..]. by intros [= _ <-].
  - unfold bind at 1, modify, id, write_json_create_new, bind at 1 2 3, lift, gets.
    destruct (encode_json r) as [bytes|[]| |]; try done;
      [by rewrite bool_decide_true by (by apply eq_None_not_Some)|].
    unfold bind, exists_path, gets. by rewrite bool_decide_false.
Qed.
Lemma durable_sign key message w r w' :
  sign_validator_message id key message w = (Ok r, w') → durable w → durable w'.
Proof.
  unfold sign_validator_message, the_node. intros (n & w0 & Hn & Hrun)%bind_Ok Hd. injection Hn as <- <-.
  apply bind_Ok in Hrun as ([] & w1 & Hq & Hrun). apply lift_Ok in Hq as [_ ->].
  apply bind_Ok in Hrun as ([] & w1 & Hv & Hrun). apply bind_Ok in Hrun as (signed & w2 & Hs & Hr).
  apply lift_Ok in Hs as [_ ->]. injection Hr as _ <-. revert Hv.
  unfold reserve_consensus_signing_record, the_node. intros (n & w0 & Hn & Hrun)%bind_Ok. injection Hn as <- <-.
  apply bind_Ok in Hrun as (c & w2 & Hc & Hrun). apply lift_Ok in Hc as [_ ->].
  destruct c as [c|]; [|by injection Hrun as <-].
  apply bind_Ok in Hrun as (existing & w2 & He & Hrun). apply stored_Ok in He as (fs & He & ->).
  assert (w1 = {| nw_node := nw_node w; nw_files := fs |}) as ->.
  { destruct existing; [by apply lift_Ok in Hrun as [_ ->]|by injection Hrun as <-]. }
  apply durable_elsewhere; [done|]. intros p Hp. destruct existing as [existing|].
  - by apply claim_found in He as ->.
  - apply claim_Ok in He as (_ & _ & bytes & _ & ->).
    match goal with |- <[?path := _]> _ !! _ = _ => destruct (own_file p path Hp) as [? _]; [done..|] end.
    by rewrite lookup_insert_ne.
Qed.

(** The operations that committed: each returned without an error. *)
Inductive committed (w w' : World) : Prop :=
| committed_submit tx : node_submit_transaction tx w = (Ok (), w') → committed w w'
| committed_produce elapsed h t b : node_produce_block elapsed h t w = (Ok b, w') → committed w w'
| committed_import elapsed b : node_import_block elapsed b w = (Ok (), w') → committed w w'
| committed_certificate c : persist_finality_certificate c w = (Ok (), w') → committed w w'
| committed_evidence e r : persist_equivocation_evidence e w = (Ok r, w') → committed w w'
| committed_set net keys : persist_validator_set_metadata net keys w = (Ok (), w') → committed w w'
| committed_update messages quorum :
    apply_quorum_authorized_validator_set_metadata_update_with_quorum messages quorum w = (Ok (), w') →
    committed w w'
| committed_signature key message signed :
    sign_validator_message id key message w = (Ok signed, w') → committed w w'.
Lemma committed_durable w w' : committed w w' → durable w → durable w'.
Proof.
  destruct 1; [by eapply durable_submit|by eapply durable_produce|by eapply durable_import|
    by eapply durable_certificate|by eapply durable_evidence|by eapply persist_set_durable|
    by eapply durable_update|by eapply durable_sign].
Qed.
Lemma run_durable w w' : rtc committed w w' → durable w → durable w'.
Proof. induction 1; eauto using committed_durable. Qed.

Section served.
Context `{!Json (list SnapshotImportAuditRecord), !Json SnapshotSyncClientMetrics}.
Context `{!Serialize TransactionSigningPayload, !Serialize (list TraceOp)}.
Context (debug_parse_error : ParseError → string) (model_file : string → list byte).
Context (debug_node_error : NodeError → string).
Lemma get_block_answer n fs h b elapsed :
  holds fs (block_path h) b →
  (handle_rpc_request debug_parse_error model_file debug_node_error elapsed (ReqGetBlock h)
    {| nw_node := n; nw_files := fs |}).1 = Ok (RpcOk (ResBlock b)).
Proof.
  intros Hh. unfold handle_rpc_request, node_dispatch, maybe_load_block.
  by erewrite bind_runs by (eapply stored_runs, maybe_read_holds; exact Hh).
Qed.


End served.

(** A restart re-verifies every stored authorization and stops at the first
    one it cannot verify: an authorization of a validator that is no longer
    trusted keeps the node from starting. *)
Lemma restart_needs_every_signer n fs signed rest :
  load_pending_validator_set_metadata_authorizations fs = (Ok (signed :: rest), fs) →
  pvn_validator_keys n !! sm_signer signed = None →
  ∃ w, load_pending {| nw_node := n; nw_files := fs |} = (Err (ValidatorKeyNotFound (sm_signer signed)), w).
Proof.
  intros Hl Hk. unfold load_pending. erewrite bind_runs by (eapply stored_runs; exact Hl).
  unfold bind at 1, on_pvn, modify. cbn [nw_node nw_files]. unfold bind at 1. cbn [forM].
  unfold bind at 1. unfold bind at 1, the_node, gets. cbn [nw_node]. unfold bind at 1, lift.
  unfold verified_validator_set_metadata_update, verified_signed_validator_message, verify_signed_validator_message.
  cbn [pvn_validator_keys set_pending_authorizations]. rewrite Hk. cbn [ok_or outcome_bind]. by eexists.
Qed.
End durable.
