(* ===== verification/NodeSync.v ===== *)
(** * NodeSync: snapshots between nodes

    The state-sync part of crates/detta-node/src/lib.rs: the client that
    fetches a snapshot chunk by chunk, with its retries, the node that serves
    chunks and the node that imports them.  The client talks to any
    [ProtocolStream]: the byte stream of the TCP connection, or a peer that
    answers requests. *)
From S2P Require Import Prelude Effects Merkle Types State AspectRuntime AspectClosure Runtime Exec Transactions Mempool Block.
From S2P Require Import Consensus Protocol Network Storage Verify Evaluator Fixtures RpcTypes Rpc RpcTransport Node NodeReports NodeTracks NodeFacts NodeRestart.

(** ** Streams *)
Class ProtocolStream (Stream : Type) := {
  stream_send : ProtocolMessage → SE Stream NetworkError ();
  stream_receive : SE Stream NetworkError ProtocolMessage;
}.
(** The TCP stream: what is left to read and what was written. *)
Record TcpProtocolStream := { tcp_input : list byte; tcp_written : list byte }.
#[export] Instance tcp_stream `{Wire} : ProtocolStream TcpProtocolStream := {|
  stream_send message s :=
    match write_wire_message (tcp_written s) message with
    | Ok written => (Ok (), {| tcp_input := tcp_input s; tcp_written := written |})
    | Err e => (Err e, s) | Panic => (Panic, s) | OutOfFuel => (OutOfFuel, s)
    end;
  stream_receive s :=
    match read_wire_message (tcp_input s) with
    | Ok (message, rest) => (Ok message, {| tcp_input := rest; tcp_written := tcp_written s |})
    | Err e => (Err e, s) | Panic => (Panic, s) | OutOfFuel => (OutOfFuel, s)
    end;
|}.
(** A peer that answers chunk requests: what it sends for a request and what
    it has sent so far.  Reading from a peer that sent nothing fails. *)
Record SnapshotPeer := {
  sp_serves : SnapshotChunkRequest → list ProtocolMessage; sp_sent : list ProtocolMessage;
}.
#[export] Instance peer_stream : ProtocolStream SnapshotPeer := {|
  stream_send message p :=
    (Ok (), match message with
            | MsgSnapshotChunkRequest request =>
                {| sp_serves := sp_serves p; sp_sent := sp_sent p ++ sp_serves p request |}
            | _ => p
            end);
  stream_receive p :=
    match sp_sent p with
    | message :: sent => (Ok message, {| sp_serves := sp_serves p; sp_sent := sent |})
    | [] => (Err NetIo, p)
    end;
|}.

(** ** The client *)
Record SnapshotSyncRetryPolicy := { srp_max_attempts : nat }.
Definition default_snapshot_sync_retry_policy : SnapshotSyncRetryPolicy := {| srp_max_attempts := 3 |}.
Definition default_metrics : SnapshotSyncClientMetrics :=
  {| ssm_retry_attempts := 0; ssm_stream_failures := 0; ssm_requests_sent := 0; ssm_manifests_received := 0;
     ssm_chunks_received := 0; ssm_resume_requests := 0; ssm_metadata_roots_verified := false;
     ssm_required_metadata_roots_root := None |}.
(** [+] and [+=] on [u32] *)
Definition add_u32 {E} (a b : N) : outcome E N := if a + b <=? u32_max then Ok (a + b) else Panic.
Definition include_attempt (metrics attempt : SnapshotSyncClientMetrics)
    : outcome NodeError SnapshotSyncClientMetrics :=
  let* requests := add_u32 (ssm_requests_sent metrics) (ssm_requests_sent attempt) in
  let* manifests := add_u32 (ssm_manifests_received metrics) (ssm_manifests_received attempt) in
  let* chunks := add_u32 (ssm_chunks_received metrics) (ssm_chunks_received attempt) in
  let* resumes := add_u32 (ssm_resume_requests metrics) (ssm_resume_requests attempt) in
  Ok {| ssm_retry_attempts := ssm_retry_attempts metrics; ssm_stream_failures := ssm_stream_failures metrics;
        ssm_requests_sent := requests; ssm_manifests_received := manifests; ssm_chunks_received := chunks;
        ssm_resume_requests := resumes;
        ssm_metadata_roots_verified := ssm_metadata_roots_verified metrics || ssm_metadata_roots_verified attempt;
        ssm_required_metadata_roots_root := match ssm_required_metadata_roots_root attempt with
          | Some root => Some root | None => ssm_required_metadata_roots_root metrics end |}.
#[export] Instance SnapshotChunkManifest_eq_dec : EqDecision SnapshotChunkManifest.
Proof. solve_decision. Defined.
(** The client between two requests. *)
Record Fetching := {
  ft_manifest : option SnapshotChunkManifest; ft_chunks : list SnapshotChunk; ft_start_index : N;
  ft_requests : N; ft_manifests : N; ft_resumes : N; ft_received : N;
}.

Section client.
Context `{Host, Wire, !Json (gmap string string)} `{ProtocolStream Stream}.
Definition on_stream {A} (m : SE Stream NetworkError A) : SE Stream NodeError A := λ s,
  let '(o, s) := m s in (wrapped NodeNetwork o, s).
Fixpoint receive_chunks (count : nat) (received : N) : SE Stream NodeError (list SnapshotChunk * N) :=
  match count with
  | O => ret ([], received)
  | S count =>
      let! message := on_stream stream_receive in
      match message with
      | MsgSnapshotChunk chunk =>
          let? received := add_u32 received 1 in
          let! rest := receive_chunks count received in
          ret (chunk :: rest.1, rest.2)
      | other => throw (UnexpectedSnapshotSyncMessage KindSnapshotChunk (kind other))
      end
  end.
Definition same_manifest (expected actual : SnapshotChunkManifest) : outcome NodeError () :=
  if decide (expected = actual) then Ok () else
  let* expected_hash := wrapped NodeSnapshotSync (manifest_hash expected) in
  let* actual_hash := wrapped NodeSnapshotSync (manifest_hash actual) in
  Err (NodeSnapshotSync (ManifestHashMismatch expected_hash actual_hash)).
(** One turn of the loop. *)
Definition fetch_round (snapshot_root : string) (max_chunks_per_request : N)
    (required_metadata_roots : gmap string string) (required_root : string) (f : Fetching)
    : SE Stream NodeError (Fetching + SnapshotChunkSet * SnapshotSyncClientMetrics) :=
  let? requests := add_u32 (ft_requests f) 1 in
  let? resumes := if 0 <? ft_start_index f then add_u32 (ft_resumes f) 1 else Ok (ft_resumes f) in
  do! on_stream (stream_send (MsgSnapshotChunkRequest
        {| scr_snapshot_root := snapshot_root; scr_start_index := ft_start_index f;
           scr_max_chunks := max_chunks_per_request |})) in
  let! manifest_message := on_stream stream_receive in
  let? next_manifest := match manifest_message with
    | MsgSnapshotChunkManifest next_manifest => Ok next_manifest
    | other => Err (UnexpectedSnapshotSyncMessage KindSnapshotChunkManifest (kind other))
    end in
  let? manifests := add_u32 (ft_manifests f) 1 in
  let? manifest := match ft_manifest f with
    | Some manifest => do* same_manifest manifest next_manifest in Ok manifest
    | None => Ok next_manifest
    end in
  let remaining := saturating_sub (scm_chunk_count manifest) (ft_start_index f) in
  let expected_chunks := N.min remaining max_chunks_per_request in
  let! received := receive_chunks (N.to_nat expected_chunks) (ft_received f) in
  let chunks := ft_chunks f ++ received.1 in
  if scm_chunk_count manifest <=? len_N chunks then
    let chunk_set := {| scs_manifest := manifest; scs_chunks := chunks |} in
    do? wrapped NodeSnapshotSync (verify_with_metadata_roots chunk_set required_metadata_roots) in
    ret (inr (chunk_set,
      {| ssm_retry_attempts := 0; ssm_stream_failures := 0; ssm_requests_sent := requests;
         ssm_manifests_received := manifests; ssm_chunks_received := received.2;
         ssm_resume_requests := resumes; ssm_metadata_roots_verified := true;
         ssm_required_metadata_roots_root := Some required_root |}))
  else
    let? start_index := add_u32 (ft_start_index f) expected_chunks in
    ret (inl {| ft_manifest := Some manifest; ft_chunks := chunks; ft_start_index := start_index;
                ft_requests := requests; ft_manifests := manifests; ft_resumes := resumes;
                ft_received := received.2 |}).
Fixpoint fetch_rounds (fuel : nat) (snapshot_root : string) (max_chunks_per_request : N)
    (required_metadata_roots : gmap string string) (required_root : string) (f : Fetching)
    : SE Stream NodeError (SnapshotChunkSet * SnapshotSyncClientMetrics) :=
  match fuel with
  | O => λ s, (OutOfFuel, s)
  | S fuel =>
      let! next := fetch_round snapshot_root max_chunks_per_request required_metadata_roots required_root f in
      match next with
      | inl f => fetch_rounds fuel snapshot_root max_chunks_per_request required_metadata_roots required_root f
      | inr result => ret result
      end
  end.
Definition fetch_start : Fetching :=
  {| ft_manifest := None; ft_chunks := []; ft_start_index := 0; ft_requests := 0; ft_manifests := 0;
     ft_resumes := 0; ft_received := 0 |}.
Definition fetch_verified_snapshot_chunk_set_over_tcp_with_metrics (fuel : nat) (snapshot_root : string)
    (max_chunks_per_request : N) (required_metadata_roots : gmap string string)
    : SE Stream NodeError (SnapshotChunkSet * SnapshotSyncClientMetrics) :=
  do? ensure (negb (max_chunks_per_request =? 0)) (NodeSnapshotSync InvalidChunkSize) in
  let? required_root := wrapped NodeStorage (hash_canonical_json required_metadata_roots) in
  fetch_rounds fuel snapshot_root max_chunks_per_request required_metadata_roots required_root fetch_start.
Definition fetch_verified_snapshot_chunk_set_over_tcp (fuel : nat) (snapshot_root : string)
    (max_chunks_per_request : N) (required_metadata_roots : gmap string string)
    : SE Stream NodeError SnapshotChunkSet :=
  let! result := fetch_verified_snapshot_chunk_set_over_tcp_with_metrics fuel snapshot_root
                   max_chunks_per_request required_metadata_roots in
  ret result.1.

(** *** Retries *)
Context (debug_network_error : NetworkError → string) (connect : nat → outcome NetworkError Stream).
Definition bump (attempts failures : N) (m : SnapshotSyncClientMetrics)
    : outcome NodeError SnapshotSyncClientMetrics :=
  let* attempts := add_u32 (ssm_retry_attempts m) attempts in
  let* failures := add_u32 (ssm_stream_failures m) failures in
  Ok {| ssm_retry_attempts := attempts; ssm_stream_failures := failures;
        ssm_requests_sent := ssm_requests_sent m; ssm_manifests_received := ssm_manifests_received m;
        ssm_chunks_received := ssm_chunks_received m; ssm_resume_requests := ssm_resume_requests m;
        ssm_metadata_roots_verified := ssm_metadata_roots_verified m;
        ssm_required_metadata_roots_root := ssm_required_metadata_roots_root m |}.
(** [left_] attempts to go of [max_attempts]; the attempt's number is what
    [connect] depends on. *)
Fixpoint fetch_attempts (fuel : nat) (snapshot_root : string) (max_chunks_per_request : N)
    (required_metadata_roots : gmap string string) (max_attempts left_ : nat)
    (metrics : SnapshotSyncClientMetrics) (last_error : string)
    : outcome NodeError (SnapshotChunkSet * SnapshotSyncClientMetrics) :=
  match left_ with
  | O => Err (NodeNetwork (RetryExhausted max_attempts last_error))
  | S left_ =>
      let* metrics := bump 1 0 metrics in
      match connect (max_attempts - S left_) with
      | Err error =>
          let* metrics := bump 0 1 metrics in
          fetch_attempts fuel snapshot_root max_chunks_per_request required_metadata_roots max_attempts
            left_ metrics (debug_network_error error)
      | Ok stream =>
          match (fetch_verified_snapshot_chunk_set_over_tcp_with_metrics fuel snapshot_root
                   max_chunks_per_request required_metadata_roots stream).1 with
          | Ok (chunk_set, attempt_metrics) =>
              let* metrics := include_attempt metrics attempt_metrics in Ok (chunk_set, metrics)
          | Err (NodeNetwork error) =>
              if (0 <? left_)%nat then
                let* metrics := bump 0 1 metrics in
                fetch_attempts fuel snapshot_root max_chunks_per_request required_metadata_roots max_attempts
                  left_ metrics (debug_network_error error)
              else Err (NodeNetwork error)
          | Err error => Err error
          | Panic => Panic
          | OutOfFuel => OutOfFuel
          end
      | Panic => Panic
      | OutOfFuel => OutOfFuel
      end
  end.
Definition fetch_verified_snapshot_chunk_set_over_tcp_with_retries (fuel : nat) (snapshot_root : string)
    (max_chunks_per_request : N) (required_metadata_roots : gmap string string)
    (retry_policy : SnapshotSyncRetryPolicy) : outcome NodeError (SnapshotChunkSet * SnapshotSyncClientMetrics) :=
  fetch_attempts fuel snapshot_root max_chunks_per_request required_metadata_roots
    (srp_max_attempts retry_policy) (srp_max_attempts retry_policy) default_metrics "no attempts configured".
End client.

(** ** The server and the importer *)
Section server.
Context `{Host, Wire, !Json StateSnapshot, !Json Block, !Json FinalityCertificate, !Json SlashingRecord}.
Context `{!Json ValidatorSetMetadata, !Json (list SignedValidatorMessage), !Json (gmap string string)}.
Context `{!Json (list ValidatorSetMetadataAuditRecord), !Json SnapshotImportAuditConfig}.
Context `{!Json (list Transaction), !Json ConsensusSigningRecord}.
Context `{!Json (list SnapshotImportAuditRecord), !Json SnapshotSyncClientMetrics}.
Definition serve_snapshot_chunk_request (request : SnapshotChunkRequest) (max_chunk_bytes : N)
    : NM (list ProtocolMessage) :=
  let! snapshot := stored load_snapshot in
  do? ensure (bool_decide (scr_snapshot_root request = snap_global_state_root snapshot))
    (SnapshotRootNotFound (scr_snapshot_root request) (snap_global_state_root snapshot)) in
  let! metadata_roots := effective_snapshot_metadata_roots in
  let? chunk_set := wrapped NodeSnapshotSync
    (build_snapshot_chunks_with_metadata_roots snapshot max_chunk_bytes metadata_roots) in
  ret (MsgSnapshotChunkManifest (scs_manifest chunk_set) ::
       (MsgSnapshotChunk <$> take (N.to_nat (scr_max_chunks request))
          (drop (N.to_nat (scr_start_index request)) (scs_chunks chunk_set)))).
Definition import_snapshot_chunk_set (chunk_set : SnapshotChunkSet)
    (required_metadata_roots : gmap string string) : NM StateSnapshot :=
  let? snapshot := wrapped NodeSnapshotSync
    (reconstruct_snapshot_with_metadata_roots chunk_set required_metadata_roots) in
  do! stored (commit_snapshot snapshot) in
  let manifest := scs_manifest chunk_set in
  do! stored (commit_snapshot_metadata_roots (scm_metadata_roots manifest)) in
  do! stored (commit_required_snapshot_metadata_roots required_metadata_roots) in
  let? required_root := wrapped NodeStorage (hash_canonical_json required_metadata_roots) in
  let? hash := wrapped NodeSnapshotSync (manifest_hash manifest) in
  let! n := the_node in
  do! stored (append_snapshot_import_audit_record_with_retention
        {| sia_snapshot_root := snap_global_state_root snapshot; sia_manifest_hash := hash;
           sia_required_metadata_roots_root := required_root;
           sia_required_metadata_roots_count := N.of_nat (size required_metadata_roots);
           sia_manifest_metadata_roots_count := N.of_nat (size (scm_metadata_roots manifest));
           sia_chunk_count := scm_chunk_count manifest; sia_metadata_roots_verified := true |}
        (pvn_max_snapshot_import_audit_records n)) in
  ret snapshot.
(** A node as the peer of a client: it sends nothing when it refuses. *)
Definition serving (w : World) (max_chunk_bytes : N) (request : SnapshotChunkRequest) : list ProtocolMessage :=
  match serve_snapshot_chunk_request request max_chunk_bytes w with (Ok messages, _) => messages | _ => [] end.
End server.

(** ** A peer that holds the snapshot *)
Section complete.
Context `{Host, Wire, !Json (gmap string string)}.
Context (serves : SnapshotChunkRequest → list ProtocolMessage) (root : string) (per_request : N).
Context (set : SnapshotChunkSet) (required : gmap string string) (required_root : string).
Hypothesis served : ∀ start_index,
  serves {| scr_snapshot_root := root; scr_start_index := start_index; scr_max_chunks := per_request |}
  = MsgSnapshotChunkManifest (scs_manifest set) ::
    (MsgSnapshotChunk <$> take (N.to_nat per_request) (drop (N.to_nat start_index) (scs_chunks set))).
Hypothesis counted : scm_chunk_count (scs_manifest set) = len_N (scs_chunks set).
Hypothesis bounded : len_N (scs_chunks set) ≤ u32_max.
Hypothesis some_chunk : scs_chunks set ≠ [].
Hypothesis progress : 0 < per_request.
Hypothesis verified : verify_with_metadata_roots set required = Ok ().

Let peer (sent : list ProtocolMessage) : SnapshotPeer := {| sp_serves := serves; sp_sent := sent |}.
Lemma add_u32_Ok {E} a b : a + b ≤ u32_max → add_u32 (E:=E) a b = Ok (a + b).
Proof. intros Hb. unfold add_u32. by rewrite (proj2 (N.leb_le _ _) Hb). Qed.
Lemma receive_chunks_run cs rest received :
  received + len_N cs ≤ u32_max →
  receive_chunks (length cs) received (peer ((MsgSnapshotChunk <$> cs) ++ rest))
  = (Ok (cs, received + len_N cs), peer rest).
Proof.
  revert received. induction cs as [|c cs IH]; intros received Hb; unfold len_N in *; cbn [length] in *.
  - simpl. unfold ret. by rewrite N.add_0_r.
  - cbn [receive_chunks]. unfold bind at 1, on_stream at 1. simpl. unfold bind at 1, lift. rewrite add_u32_Ok by lia.
    unfold bind at 1. rewrite IH by lia. unfold ret. simpl. do 3 f_equal. lia.
Qed.
(** The client after [r] requests, with [k] chunks. *)
Record fetched (k r : nat) (f : Fetching) : Prop := {
  fd_manifest : ft_manifest f = None ∨ ft_manifest f = Some (scs_manifest set);
  fd_chunks : ft_chunks f = take k (scs_chunks set);
  fd_start : ft_start_index f = N.of_nat k;
  fd_received : ft_received f = N.of_nat k;
  fd_requests : ft_requests f = N.of_nat r;
  fd_manifests : ft_manifests f = N.of_nat r;
  fd_resumes : ft_resumes f ≤ N.of_nat r;
  fd_progress : (r ≤ k)%nat;
  fd_more : (k < length (scs_chunks set))%nat;
}.
Definition next_count (k : nat) : nat := Nat.min (length (scs_chunks set)) (k + N.to_nat per_request).
Lemma take_next k :
  (k < length (scs_chunks set))%nat →
  take k (scs_chunks set) ++ take (N.to_nat per_request) (drop k (scs_chunks set)) = take (next_count k) (scs_chunks set).
Proof.
  intros Hk. rewrite <- (take_drop k (scs_chunks set)) at 3. unfold next_count.
  rewrite take_app, length_take, take_take.
  replace (Nat.min (Nat.min (length (scs_chunks set)) (k + N.to_nat per_request)) k) with k by lia.
  f_equal. replace (take (N.to_nat per_request) (drop k (scs_chunks set)))
    with (take (Nat.min (N.to_nat per_request) (length (drop k (scs_chunks set)))) (drop k (scs_chunks set))).
  - f_equal. rewrite length_drop. lia.
  - destruct (Nat.le_ge_cases (N.to_nat per_request) (length (drop k (scs_chunks set)))).
    + f_equal. lia.
    + rewrite !take_ge; [done|lia..].
Qed.
Lemma send_run request sent :
  on_stream (stream_send (MsgSnapshotChunkRequest request)) (peer sent) = (Ok (), peer (sent ++ serves request)).
Proof. done. Qed.
Lemma receive_run message sent : on_stream stream_receive (peer (message :: sent)) = (Ok message, peer sent).
Proof. done. Qed.
Lemma lift_runs {S E A} (o : outcome E A) a (s : S) : o = Ok a → lift o s = (Ok a, s).
Proof. by intros ->. Qed.
Lemma next_chunks k :
  (k < length (scs_chunks set))%nat →
  length (take (N.to_nat per_request) (drop k (scs_chunks set)))
  = N.to_nat (N.min (saturating_sub (scm_chunk_count (scs_manifest set)) (N.of_nat k)) per_request) ∧
  length (take (N.to_nat per_request) (drop k (scs_chunks set))) = (next_count k - k)%nat ∧
  length (take (next_count k) (scs_chunks set)) = next_count k.
Proof.
  intros Hk. rewrite counted. unfold next_count, saturating_sub, len_N. rewrite !length_take, length_drop. lia.
Qed.
Lemma fetch_round_run k r f :
  fetched k r f →
  ∃ next, fetch_round root per_request required required_root f (peer []) = (Ok next, peer []) ∧
  match next with
  | inr (set', metrics) => set' = set ∧ ssm_chunks_received metrics = len_N (scs_chunks set)
  | inl f' => fetched (next_count k) (S r) f'
  end.
Proof.
  intros [Hm Hc Hs Hrc Hrq Hmf Hrs Hp Hk]. destruct (next_chunks k Hk) as (Hlen & Hcs & Hln).
  set (cs := take (N.to_nat per_request) (drop k (scs_chunks set))) in *. unfold len_N in *.
  assert (∃ resumes, (if 0 <? ft_start_index f then add_u32 (E:=NodeError) (ft_resumes f) 1 else Ok (ft_resumes f)) = Ok resumes ∧
    resumes ≤ N.of_nat (S r)) as (resumes & Hres & Hrsb).
  { destruct (0 <? ft_start_index f); [rewrite add_u32_Ok by lia|]; eexists; (split; [reflexivity|lia]). }
  assert ((match ft_manifest f with
    | Some manifest => do* same_manifest manifest (scs_manifest set) in Ok manifest
    | None => Ok (scs_manifest set) end) = Ok (scs_manifest set)) as Hman.
  { destruct Hm as [-> | ->]; [done|]. unfold same_manifest. by rewrite decide_True. }
  unfold fetch_round.
  erewrite bind_runs by (apply lift_runs; rewrite Hrq; apply add_u32_Ok; lia).
  erewrite bind_runs by (apply lift_runs; exact Hres).
  erewrite bind_runs by apply send_run. rewrite Hs, served, Nat2N.id. cbn [app]. fold cs.
  erewrite bind_runs by apply receive_run. erewrite bind_runs by (by apply lift_runs).
  erewrite bind_runs by (apply lift_runs; rewrite Hmf; apply add_u32_Ok; lia).
  erewrite bind_runs by (apply lift_runs; exact Hman). cbv zeta. rewrite <- Hlen.
  replace (MsgSnapshotChunk <$> cs) with ((MsgSnapshotChunk <$> cs) ++ []) by apply app_nil_r.
  erewrite bind_runs by (apply receive_chunks_run; rewrite Hrc; unfold len_N, next_count in *; lia).
  cbn [fst snd]. rewrite Hc. unfold cs at 1 2 3. rewrite (take_next k Hk), counted. unfold len_N at 1 2. rewrite Hln.
  destruct (N.leb_spec (N.of_nat (length (scs_chunks set))) (N.of_nat (next_count k))) as [Hdone|Hmore].
  - assert (next_count k = length (scs_chunks set)) as He by (unfold next_count in *; lia).
    rewrite He, take_ge by lia.
    replace {| scs_manifest := scs_manifest set; scs_chunks := scs_chunks set |} with set by (by destruct set).
    erewrite bind_runs by (apply lift_runs; by rewrite verified). eexists. split; [reflexivity|].
    split; [done|]. cbn. unfold len_N. lia.
  - erewrite bind_runs by (apply lift_runs, add_u32_Ok; unfold saturating_sub, next_count, len_N in *; lia).
    eexists. split; [reflexivity|].
    split; cbn; try done; unfold saturating_sub, next_count, len_N in *; try lia; [by right|].
    fold (next_count k). by apply take_next.
Qed.
Lemma fetch_rounds_run fuel k r f :
  fetched k r f → (length (scs_chunks set) - k < fuel)%nat →
  ∃ metrics, fetch_rounds fuel root per_request required required_root f (peer [])
    = (Ok (set, metrics), peer []) ∧ ssm_chunks_received metrics = len_N (scs_chunks set).
Proof.
  revert k r f. induction fuel as [|fuel IH]; intros k r f Hf Hfuel; [lia|]. cbn [fetch_rounds]. unfold bind.
  destruct (fetch_round_run k r f Hf) as ([f'|[set' metrics]] & -> & Hf'); [|destruct Hf' as [-> Hch]; by exists metrics].
  eapply IH; [exact Hf'|]. pose proof (fd_more _ _ _ Hf). pose proof (fd_more _ _ _ Hf').
  unfold next_count in *. lia.
Qed.
Lemma fetch_from_peer fuel :
  hash_canonical_json required = Ok required_root → (length (scs_chunks set) < fuel)%nat →
  ∃ metrics, fetch_verified_snapshot_chunk_set_over_tcp_with_metrics fuel root per_request required (peer [])
    = (Ok (set, metrics), peer []) ∧ ssm_chunks_received metrics = len_N (scs_chunks set).
Proof.
  intros Hroot Hfuel. unfold fetch_verified_snapshot_chunk_set_over_tcp_with_metrics, bind at 1, lift at 1.
  destruct (N.eqb_spec per_request 0); [lia|]. cbn [negb ensure]. unfold bind at 1, lift at 1. rewrite Hroot. cbn [wrapped].
  apply (fetch_rounds_run fuel 0 0); [|lia]. split; cbn; try done; [by left|].
  destruct (scs_chunks set); [done|]. simpl. lia.
Qed.
End complete.

(** ** Whatever the peer *)
Section any_peer.
Context `{Host, Wire, !Json (gmap string string)} `{ProtocolStream Stream}.
Lemma fetch_round_verified root per_request required required_root f (s : Stream) set metrics s' :
  fetch_round root per_request required required_root f s = (Ok (inr (set, metrics)), s') →
  verify_with_metadata_roots set required = Ok ().
Proof.
  unfold fetch_round. intros Hrun.
  repeat match goal with
  | H : bind (lift _) _ _ = (Ok _, _) |- _ => apply bind_Ok in H as (? & ? & ?%lift_Ok & H)
  | H : bind _ _ _ = (Ok _, _) |- _ => apply bind_Ok in H as (? & ? & _ & H)
  end. destruct (_ <=? _).
  - apply bind_Ok in Hrun as ([] & s2 & [Hv _]%lift_Ok & Hr). injection Hr as <- _ _.
    destruct (verify_with_metadata_roots _ required) as [[]| | |]; done.
  - apply bind_Ok in Hrun as (? & ? & _ & Hr). discriminate Hr.
Qed.
Lemma fetch_rounds_verified fuel root per_request required required_root f (s : Stream) set metrics s' :
  fetch_rounds fuel root per_request required required_root f s = (Ok (set, metrics), s') →
  verify_with_metadata_roots set required = Ok ().
Proof.
  revert f s. induction fuel as [|fuel IH]; intros f s; cbn [fetch_rounds]; [done|].
  intros ([f'|[set1 metrics1]] & s1 & Hr & Hrun)%bind_Ok; [by eapply IH|].
  injection Hrun as -> -> ->. by eapply fetch_round_verified.
Qed.
Lemma verify_Ok set required u :
  verify_with_metadata_roots set required = Ok u →
  ∃ snapshot state, reconstruct_snapshot_with_metadata_roots set required = Ok snapshot ∧
    reconstruct_snapshot set = Ok snapshot ∧ from_snapshot snapshot = Ok state ∧
    required ⊆ scm_metadata_roots (scs_manifest set).
Proof.
  unfold verify_with_metadata_roots. intros (snapshot & Hr & _)%outcome_bind_Ok. pose proof Hr as Hrec.
  unfold reconstruct_snapshot_with_metadata_roots in Hr. apply outcome_bind_Ok in Hr as (snap & Hs & Hr).
  apply outcome_bind_Ok in Hr as ([] & He & Hr). injection Hr as <-.
  pose proof Hs as (_ & _ & _ & _ & _ & _ & _ & _ & _ & _ & _ & _ & _ & state & Hf)%reconstruct_Ok.
  exists snap, state. split_and!; try done. apply map_subseteq_spec. intros k v Hk.
  apply each_Ok with (x := (k, v)) in He; [|by apply elem_of_entries]. by apply ensure_Ok, bool_decide_eq_true in He.
Qed.
Lemma roots_Ok set required snapshot :
  reconstruct_snapshot set = Ok snapshot → required ⊆ scm_metadata_roots (scs_manifest set) →
  reconstruct_snapshot_with_metadata_roots set required = Ok snapshot.
Proof.
  intros Hs Hr. unfold reconstruct_snapshot_with_metadata_roots. rewrite Hs. cbn [outcome_bind].
  assert (each (λ '(key, expected), ensure (bool_decide (scm_metadata_roots (scs_manifest set) !! key = Some expected))
    (MetadataRootMismatch key expected (scm_metadata_roots (scs_manifest set) !! key))) (entries required) = Ok ()) as ->; [|done].
  apply each_Ok. intros [k v] Hin%elem_of_entries. rewrite bool_decide_true; [done|]. by eapply lookup_weaken.
Qed.

(** Whatever the peer sends, what the client accepts is whole: a fetch
    that returns, from any stream, returns chunks that reconstruct a snapshot
    which restores to a state, under a manifest with every required metadata
    root. *)
Theorem fetched_snapshot_verified fuel root per_request required (s : Stream) set metrics s' :
  fetch_verified_snapshot_chunk_set_over_tcp_with_metrics fuel root per_request required s = (Ok (set, metrics), s') →
  ∃ snapshot state, reconstruct_snapshot_with_metadata_roots set required = Ok snapshot ∧
    from_snapshot snapshot = Ok state ∧ snap_global_state_root snapshot = scm_snapshot_root (scs_manifest set) ∧
    required ⊆ scm_metadata_roots (scs_manifest set).
Proof.
  unfold fetch_verified_snapshot_chunk_set_over_tcp_with_metrics.
  intros (? & ? & _ & Hrun)%bind_Ok. apply bind_Ok in Hrun as (required_root & s1 & _ & Hrun).
  apply fetch_rounds_verified, verify_Ok in Hrun as (snapshot & state & Hr & Hrec & Hf & Hsub).
  exists snapshot, state. split_and!; try done.
  by apply reconstruct_Ok in Hrec as (_ & _ & _ & _ & _ & _ & _ & _ & _ & _ & _ & _ & Hroot & _).
Qed.
End any_peer.
(** The client does not compare the manifest with the root it asked for: a
    peer that answers every request with a snapshot of its own is believed. *)
Lemma requested_root_unchecked `{Host, Wire, !Json (gmap string string)} set required required_root per_request root fuel :
  scm_chunk_count (scs_manifest set) = len_N (scs_chunks set) → len_N (scs_chunks set) ≤ u32_max →
  scs_chunks set ≠ [] → 0 < per_request → verify_with_metadata_roots set required = Ok () →
  hash_canonical_json required = Ok required_root → (length (scs_chunks set) < fuel)%nat →
  ∃ metrics peer, fetch_verified_snapshot_chunk_set_over_tcp_with_metrics fuel root per_request required
    {| sp_serves := λ request, MsgSnapshotChunkManifest (scs_manifest set) ::
         (MsgSnapshotChunk <$> take (N.to_nat (scr_max_chunks request))
            (drop (N.to_nat (scr_start_index request)) (scs_chunks set)));
       sp_sent := [] |} = (Ok (set, metrics), peer).
Proof.
  intros Hc Hb Hne Hp Hv Hr Hf. eapply (fetch_from_peer _ root per_request) in Hr as (metrics & -> & _); eauto.
Qed.

(** ** From node to node *)
Section node_to_node.
Context `{Host, Wire, !Json StateSnapshot, !Json Block, !Json FinalityCertificate, !Json SlashingRecord}.
Context `{!Json ValidatorSetMetadata, !Json (list SignedValidatorMessage), !Json (gmap string string)}.
Context `{!Json (list ValidatorSetMetadataAuditRecord), !Json SnapshotImportAuditConfig}.
Context `{!Json (list Transaction), !Json ConsensusSigningRecord}.
Context `{!Json (list SnapshotImportAuditRecord), !Json SnapshotSyncClientMetrics}.
Context `{!JsonInverse StateSnapshot, !JsonInverse (list Transaction), !JsonInverse ValidatorSetMetadata}.
Context `{!JsonInverse Block}.

Lemma serving_chunks server roots max_bytes set start_index per_request :
  durable server → effective_snapshot_metadata_roots server = (Ok roots, server) →
  build_snapshot_chunks_with_metadata_roots (snapshot (svc_state (pvn_rpc (nw_node server)))) max_bytes roots = Ok set →
  serving server max_bytes
    {| scr_snapshot_root := global_state_root (svc_state (pvn_rpc (nw_node server)));
       scr_start_index := start_index; scr_max_chunks := per_request |}
  = MsgSnapshotChunkManifest (scs_manifest set) ::
    (MsgSnapshotChunk <$> take (N.to_nat per_request) (drop (N.to_nat start_index) (scs_chunks set))).
Proof.
  intros Hd Hr Hb. pose proof (load_snapshot_holds _ _ (dur_snapshot _ Hd)) as Hl.
  unfold serving, serve_snapshot_chunk_request. destruct server as [n fs]. cbn [nw_node nw_files] in *.
  erewrite bind_runs by (apply stored_runs; exact Hl).
  erewrite bind_runs by (apply lift_runs; cbn; by rewrite bool_decide_true).
  erewrite bind_runs by exact Hr. by erewrite bind_runs by (apply lift_runs; by rewrite Hb).
Qed.
Lemma import_chunks_Ok set required w snap w' :
  import_snapshot_chunk_set set required w = (Ok snap, w') →
  reconstruct_snapshot_with_metadata_roots set required = Ok snap ∧ nw_node w' = nw_node w ∧
  holds (nw_files w') snapshot_path snap ∧
  ∀ p, p = mempool_path ∨ settings_path p → nw_files w' !! p = nw_files w !! p.
Proof.
  unfold import_snapshot_chunk_set. intros (snap1 & w1 & [Hr ->]%lift_Ok & Hrun)%bind_Ok.
  apply bind_Ok in Hrun as ([] & w2 & Hs & Hrun). apply stored_Ok in Hs as (fs1 & Hs & ->).
  unfold commit_snapshot in Hs. apply bind_Ok in Hs as (? & ? & Hv & Hs). injection Hv as _ <-.
  apply write_holds in Hs as [Hsnap Ho1].
  apply bind_Ok in Hrun as ([] & w3 & Hm & Hrun). apply stored_Ok in Hm as (fs2 & Hm & ->).
  pose proof (write_keeps _ _ _ _ Hm) as Ho2.
  apply bind_Ok in Hrun as ([] & w4 & Hq & Hrun). apply stored_Ok in Hq as (fs3 & Hq & ->).
  pose proof (write_keeps _ _ _ _ Hq) as Ho3.
  apply bind_Ok in Hrun as (rr & ? & [_ ->]%lift_Ok & Hrun). apply bind_Ok in Hrun as (hash & ? & [_ ->]%lift_Ok & Hrun).
  apply bind_Ok in Hrun as (n & ? & Hn & Hrun). injection Hn as <- <-.
  apply bind_Ok in Hrun as ([] & w5 & Ha & Hret). injection Hret as -> <-. apply stored_Ok in Ha as (fs4 & Ha & ->).
  apply bind_Ok in Ha as (records & fs5 & Hrd & Ha). apply reads_or in Hrd as <-.
  pose proof (write_keeps _ _ _ _ Ha) as Ho4. cbn [nw_node nw_files] in *. split_and!; [|done| |].
  - by destruct (reconstruct_snapshot_with_metadata_roots set required); try done; injection Hr as ->.
  - eapply holds_ext; [|exact Hsnap]. by rewrite Ho4, Ho3, Ho2.
  - intros p Hp. assert (p ≠ snapshot_path ∧ p ≠ snapshot_metadata_roots_path ∧
      p ≠ required_snapshot_metadata_roots_path ∧ p ≠ snapshot_import_audit_path ∧ path_ext p ≠ "tmp") as (?&?&?&?&?)
      by (destruct Hp as [->|[->|[->| ->]]]; done).
    by rewrite Ho4, Ho3, Ho2, Ho1.
Qed.

(** C10. State sync, end to end, between two nodes whose files are in step with
    their memory and that hold no pending authorizations, as after the
    operations of [committed].  The one serves its snapshot, in chunks of any
    size; a client that asks for the node's state root, any positive number of
    chunks at a time, and requires metadata roots among those served, gets the
    whole chunk set after as many requests as it takes; and the other node, of
    the same chain and without pending transactions, once it has imported the
    set, restarts in exactly the state of the serving node, with its own
    trusted keys and network unchanged. *)
Theorem state_sync_end_to_end `{!WireLaws} server client roots max_bytes set per_request required required_root fuel bytes :
  durable server → durable client →
  mem_pending (vn_mempool (svc_node (pvn_rpc (nw_node client)))) = [] →
  chain_id (svc_state (pvn_rpc (nw_node server))) = chain_id (svc_state (pvn_rpc (nw_node client))) →
  effective_snapshot_metadata_roots server = (Ok roots, server) →
  build_snapshot_chunks_with_metadata_roots (snapshot (svc_state (pvn_rpc (nw_node server)))) max_bytes roots = Ok set →
  required ⊆ roots → hash_canonical_json required = Ok required_root →
  encode_json (T:=list SignedValidatorMessage) [] = Ok bytes →
  0 < per_request → (length (scs_chunks set) < fuel)%nat →
  (∃ metrics peer,
    fetch_verified_snapshot_chunk_set_over_tcp_with_metrics fuel
      (global_state_root (svc_state (pvn_rpc (nw_node server)))) per_request required
      {| sp_serves := serving server max_bytes; sp_sent := [] |} = (Ok (set, metrics), peer)) ∧
  ∀ snap client', import_snapshot_chunk_set set required client = (Ok snap, client') →
    ∃ n fs, restart (pvn_validator_id (nw_node client)) (nw_files client') = (Ok n, fs) ∧
      svc_state (pvn_rpc n) = svc_state (pvn_rpc (nw_node server)) ∧
      pvn_validator_keys n = pvn_validator_keys (nw_node client) ∧
      pvn_network_id n = pvn_network_id (nw_node client).
Proof.
  intros Hds Hdc Hpool Hchain Hroots Hbuild Hreq Hhash Hbytes Hper Hfuel.
  set (state := svc_state (pvn_rpc (nw_node server))) in *.
  pose proof (chunks_roundtrip _ _ _ _ _ (proj1 (snapshot_roundtrip state)) Hbuild) as Hrec.
  pose proof Hbuild as (? & raw & ? & hash & _ & _ & Hne & _ & Hcount & _ & _ & Hch & Hman)%build_Ok.
  assert (Hlen : length (scs_chunks set) = length raw) by (rewrite Hch; apply length_imap).
  assert (Hsub : required ⊆ scm_metadata_roots (scs_manifest set)) by (by rewrite Hman).
  pose proof (roots_Ok _ _ _ Hrec Hsub) as Hrecr. split.
  - assert (∃ metrics, fetch_verified_snapshot_chunk_set_over_tcp_with_metrics fuel (global_state_root state) per_request
      required {| sp_serves := serving server max_bytes; sp_sent := [] |}
      = (Ok (set, metrics), {| sp_serves := serving server max_bytes; sp_sent := [] |}) ∧
      ssm_chunks_received metrics = len_N (scs_chunks set)) as (metrics & Hf & _); [|by eexists _, _].
    apply (fetch_from_peer (serving server max_bytes) (global_state_root state) per_request set required required_root); try done.
    + intros k. by apply (serving_chunks server roots).
    + rewrite Hman. unfold len_N. cbn. by rewrite Hlen.
    + unfold len_N in *. by rewrite Hlen.
    + intros Hnil. rewrite Hnil in Hlen. by destruct raw.
    + unfold verify_with_metadata_roots. by rewrite Hrecr.
  - intros snap client' (Hr & Hn & Hsnap & Ho)%import_chunks_Ok. rewrite Hrecr in Hr. injection Hr as <-.
    set (restored_node := set_service (rpc_new (validator_node_new (pvn_validator_id (nw_node client)) state)) (nw_node client)).
    assert (durable {| nw_node := restored_node; nw_files := nw_files client' |}) as Hd.
    { eapply durable_settings; [exact Hdc|..]; cbn [nw_node nw_files]; try done.
      - split_and!; try done. intros p Hp. apply Ho. by right.
      - eapply holds_ext; [apply Ho; by left|]. pose proof (dur_mempool _ Hdc) as Hm. rewrite Hpool in Hm. exact Hm.
      - apply ready_new. }
    destruct (restart_durable _ _ Hd Hbytes) as (n & fs & Hrs & [] & _). exists n, fs. done.
Qed.
End node_to_node.
