(* ===== verification/E2eServers.v ===== *)
(** * E2eServers: the servers of the end-to-end harness

    crates/detta-e2e/src/network.rs and proofs.rs: the servers the harness
    runs in a thread, each over the connections that reach it, and what
    joining the thread returns; the snapshot peer over the bytes of its
    connection; the checks of the harness on proofs. *)
From S2P Require Import Prelude Effects Merkle Types State Proofs AspectRuntime AspectClosure Bridge Block.
From S2P Require Import Consensus Protocol Network Storage Verify Evaluator RpcTypes Rpc RpcTransport.
From S2P Require Import Node NodeReports NodeTracks NodeFacts NodeRestart NodeSync Serving Genesis.

(** ** Threads *)
Inductive ThreadError :=
| ThreadTransport (error : RpcTransportError) | ThreadNode (error : NodeError)
| ThreadNetwork (error : NetworkError) | ExpectedChunkRequest (kind : ProtocolMessageKind)
| ThreadPanicked.
(** [RpcServerHandle::join]; a thread that still runs is never joined. *)
Definition join (o : outcome ThreadError ()) : outcome ThreadError () :=
  match o with Panic => Err ThreadPanicked | o => o end.
Definition in_thread {A E} (wrap : E → ThreadError) (o : outcome E A) : outcome ThreadError A :=
  match o with Ok a => Ok a | Err e => Err (wrap e) | Panic => Panic | OutOfFuel => OutOfFuel end.

(** ** RPC servers *)
Section rpc_servers.
Context `{Host, Wire, RpcJson}.
(** What the thread returns, the handler it ends with and what it wrote. *)
Definition serve_next_connection `{JsonRpcHandler Handler} (server : JsonRpcServer) (input : list byte) (h : Handler)
    : outcome ThreadError () * Handler * list byte :=
  let '(o, h, out) := serve_tcp server input h in (in_thread ThreadTransport o, h, out).
Definition spawn_tcp_rpc_server `{JsonRpcHandler RpcService} (state : DeTTaState) (input : list byte)
    : outcome ThreadError () * RpcService * list byte :=
  serve_next_connection tcp_bind input (rpc_new (validator_node_new E2e.VALIDATOR_ID state)).
Definition spawn_tcp_persistent_node `{JsonRpcHandler World} (node : World) (input : list byte)
    : outcome ThreadError () * World * list byte :=
  serve_next_connection tcp_bind input node.
(** The loop over [0..request_count]; [None] while it waits for a connection. *)
Fixpoint serve_count `{JsonRpcHandler Handler} (server : HttpJsonRpcServer) (request_count : nat)
    (incoming answered : list (list byte)) (h : Handler) : option (outcome ThreadError () * Handler * list (list byte)) :=
  match request_count with
  | O => Some (Ok (), h, answered)
  | S request_count =>
      match incoming with
      | [] => None
      | input :: incoming =>
          let '(o, h, out) := serve_http server input h in
          match in_thread ThreadTransport o with
          | Ok _ => serve_count server request_count incoming (answered ++ [out]) h
          | o => Some (o, h, answered ++ [out])
          end
      end
  end.
Definition spawn_http_rpc_server `{JsonRpcHandler RpcService} (state : DeTTaState) (request_count : nat)
    (incoming : list (list byte)) : option (outcome ThreadError () * RpcService * list (list byte)) :=
  serve_count http_bind request_count incoming [] (rpc_new (validator_node_new E2e.VALIDATOR_ID state)).
End rpc_servers.

(** ** The snapshot peer *)
Section sync_peer.
Context `{Host, Wire, !Json StateSnapshot, !Json Block, !Json FinalityCertificate, !Json SlashingRecord}.
Context `{!Json ValidatorSetMetadata, !Json (list SignedValidatorMessage), !Json (gmap string string)}.
Context `{!Json (list ValidatorSetMetadataAuditRecord), !Json SnapshotImportAuditConfig}.
Context `{!Json (list Transaction), !Json ConsensusSigningRecord}.
Context `{!Json (list SnapshotImportAuditRecord), !Json SnapshotSyncClientMetrics}.
Abbreviation PM := (SE (World * TcpProtocolStream) ThreadError).
Definition peer_node {A} (m : NM A) : PM A := λ '(w, s),
  let '(o, w) := m w in (in_thread ThreadNode o, (w, s)).
Definition peer_wire {A} (m : SE TcpProtocolStream NetworkError A) : PM A := λ '(w, s),
  let '(o, s) := m s in (in_thread ThreadNetwork o, (w, s)).
(** [while let Ok(message) = protocol.receive()]; every message read takes
    bytes of the input, which is the fuel. *)
Fixpoint sync_loop (fuel : nat) (max_chunk_bytes : N) : PM () := λ '(w, s),
  match fuel with
  | O => (OutOfFuel, (w, s))
  | S fuel =>
      match stream_receive s with
      | (Ok (MsgSnapshotChunkRequest request), s) =>
          (let! responses := peer_node (serve_snapshot_chunk_request request max_chunk_bytes) in
           do! forM (λ response, peer_wire (stream_send response)) responses in
           sync_loop fuel max_chunk_bytes) (w, s)
      | (Ok message, s) => (Err (ExpectedChunkRequest (kind message)), (w, s))
      | (Err _, s) => (Ok (), (w, s))
      | (Panic, s) => (Panic, (w, s))
      | (OutOfFuel, s) => (OutOfFuel, (w, s))
      end
  end.
Definition spawn_snapshot_sync_peer (node : World) (max_chunk_bytes : N) (input : list byte)
    : outcome ThreadError () * (World * TcpProtocolStream) :=
  sync_loop (S (length input)) max_chunk_bytes (node, {| tcp_input := input; tcp_written := [] |}).
End sync_peer.

(** ** Checks of proofs *)
Section proofs.
Context `{Host}.
(** [assert!(proof.verify()); assert_eq!(proof.proof.root, expected_root)] *)
Definition assert_matches (verified : bool) (proof : MerkleProof) (expected_root : string) : outcome Empty_set () :=
  if verified && bool_decide (mp_root proof = expected_root) then Ok () else Panic.
Definition assert_storage_proof_matches_root (proof : EntryProof StateKey StateValue) (expected_root : string)
    : outcome Empty_set () :=
  assert_matches (entry_proof_verify proof) (ep_proof proof) expected_root.
Definition assert_registry_proof_matches_root (proof : EntryProof GrantKey Grant) (expected_root : string)
    : outcome Empty_set () :=
  assert_matches (entry_proof_verify proof) (ep_proof proof) expected_root.
Definition assert_receipt_proof_matches_root (proof : Receipt * MerkleProof) (expected_root : string)
    : outcome Empty_set () :=
  assert_matches (verify proof.2 proof.1) proof.2 expected_root.
Definition assert_event_proof_matches_root (proof : Event * MerkleProof) (expected_root : string)
    : outcome Empty_set () :=
  assert_matches (verify proof.2 proof.1) proof.2 expected_root.
Definition assert_outbox_proof_matches_root (proof : OutboxMessageProof) (expected_root : string)
    : outcome Empty_set () :=
  assert_matches (verify_outbox_message proof) (omp_proof proof) expected_root.
End proofs.

(** ** What the snapshot peer writes *)
Section peer_facts.
Context `{Host, Wire, !Json StateSnapshot, !Json Block, !Json FinalityCertificate, !Json SlashingRecord}.
Context `{!Json ValidatorSetMetadata, !Json (list SignedValidatorMessage), !Json (gmap string string)}.
Context `{!Json (list ValidatorSetMetadataAuditRecord), !Json SnapshotImportAuditConfig}.
Context `{!Json (list Transaction), !Json ConsensusSigningRecord}.
Context `{!Json (list SnapshotImportAuditRecord), !Json SnapshotSyncClientMetrics}.
Lemma reads_serve request max_chunk_bytes : reads (serve_snapshot_chunk_request request max_chunk_bytes).
Proof.
  unfold serve_snapshot_chunk_request, load_snapshot. reads_tac; auto using reads_effective_roots.
Qed.
Lemma send_all responses w s written :
  fold_outcome write_wire_message responses (tcp_written s) = Ok written →
  forM (λ response, peer_wire (stream_send response)) responses (w, s)
  = (Ok (), (w, {| tcp_input := tcp_input s; tcp_written := written |})).
Proof.
  revert s. induction responses as [|r rs IH]; intros s; cbn [fold_outcome forM]; [intros [= <-]; by destruct s|].
  intros (w1 & Hw & Hf)%outcome_bind_Ok. unfold bind, peer_wire at 1. cbn [stream_send tcp_stream]. rewrite Hw.
  cbn [in_thread]. by apply (IH {| tcp_input := tcp_input s; tcp_written := w1 |}).
Qed.
Context `{!WireLaws}.
Lemma request_frame request written :
  write_wire_message [] (MsgSnapshotChunkRequest request) = Ok written →
  (0 < length written)%nat ∧
  ∀ rest, read_wire_message (written ++ rest) = Ok (MsgSnapshotChunkRequest request, rest).
Proof.
  unfold write_wire_message. intros (bytes & Hb & [= <-])%outcome_bind_Ok.
  assert (encode_message (MsgSnapshotChunkRequest request) = Ok bytes) as He
    by (destruct (encode_message _); simplify_eq/=; done).
  split; [|intros rest; by apply read_encoded].
  destruct bytes; [|simpl; lia]. apply decode_encoded in He. done.
Qed.
Lemma frames_length requests frames :
  Forall2 (λ request frame, write_wire_message [] (MsgSnapshotChunkRequest request) = Ok frame) requests frames →
  (length requests ≤ length (concat frames))%nat.
Proof.
  induction 1 as [|r f rs fs Hf _ IH]; simpl; [lia|]. rewrite length_app. apply request_frame in Hf as [Hf _]. lia.
Qed.

(** The snapshot peer of the harness is the peer the client is verified
    against: for framed chunk requests one after the other it writes exactly
    the frames of the node's answers, in order, keeps the node as it was, and
    returns when what follows is no frame, the end of the connection
    included. *)
Theorem sync_peer_answers requests frames answers written rest e max_chunk_bytes node :
  Forall2 (λ request frame, write_wire_message [] (MsgSnapshotChunkRequest request) = Ok frame) requests frames →
  Forall2 (λ request answer, (serve_snapshot_chunk_request request max_chunk_bytes node).1 = Ok answer) requests answers →
  fold_outcome write_wire_message (concat answers) [] = Ok written → read_wire_message rest = Err e →
  spawn_snapshot_sync_peer node max_chunk_bytes (concat frames ++ rest)
  = (Ok (), (node, {| tcp_input := rest; tcp_written := written |})).
Proof.
  intros Hframes Hanswers Hwritten Hrest. unfold spawn_snapshot_sync_peer.
  pose proof (frames_length _ _ Hframes) as Hfuel.
  assert (length requests < S (length (concat frames ++ rest)))%nat as Hlt by (rewrite length_app; lia). clear Hfuel.
  revert Hwritten Hlt. generalize (@nil byte) as out, (S (length (concat frames ++ rest))) as fuel.
  revert answers Hanswers. induction Hframes as [|request frame requests frames Hf Hframes IH];
    intros answers Hanswers out [|fuel] Hwritten Hlt; try (simpl in Hlt; lia).
  - inv Hanswers. injection Hwritten as <-. cbn [concat app sync_loop stream_receive tcp_stream tcp_input]. by rewrite Hrest.
  - inversion Hanswers as [|? answer ? answers' Ha Hanswers']; subst. cbn [concat] in *.
    rewrite fold_outcome_app in Hwritten. apply outcome_bind_Ok in Hwritten as (out' & Hout & Hwritten). apply request_frame in Hf as [_ Hf].
    cbn [sync_loop stream_receive tcp_stream tcp_input]. rewrite <- app_assoc, Hf. cbn [tcp_written].
    destruct (serve_snapshot_chunk_request request max_chunk_bytes node) as [o w] eqn:Hs. simpl in Ha. subst o.
    pose proof (reads_serve _ _ _ _ _ Hs) as <-. unfold bind at 1, peer_node. rewrite Hs. cbn [in_thread].
    unfold bind. rewrite (send_all _ _ {| tcp_input := _; tcp_written := out |} out' Hout). apply (IH answers'); [done..|simpl in Hlt; lia].
Qed.
End peer_facts.
