(* ===== verification/NodeCli.v ===== *)
(** * NodeCli: the node's command line

    crates/detta-node/src/bin/detta-node.rs: its options, and the commands
    that write a genesis file, serve a node from its storage directory and
    print a faucet transaction.  The operator's files (the genesis) are a map
    from paths; the storage directory is the node's [FileSystem].  What a
    command prints is its result, and an error is the case it reports, without
    the wording.  [PrettyJson] is serde_json's indented form. *)
From S2P Require Import Prelude Effects Merkle Types State AspectRuntime Decimal Ledger Token Policies Exec Transactions Block.
From S2P Require Import Consensus Protocol Storage Verify Evaluator RpcTypes Rpc RpcTransport Node NodeReports NodeTracks NodeFacts NodeRestart Serving Genesis.

Class PrettyJson (T : Type) := to_json_pretty : T → option (list byte).
Class PrettyInverse (T : Type) `{Json T, PrettyJson T} : Prop :=
  from_json_pretty (v : T) bytes : to_json_pretty v = Some bytes → from_json bytes = Some v.

Inductive NodeCliError :=
| NodeUsage | NodeUnknownCommand (command : string)
| ExpectedOption (argument : string) | NodeEmptyOptionName | NodeMissingRequired (name : string)
| NodeInvalidNumber (name value : string)
| UnsupportedPreset (preset : string) | GenesisFailed (error : GenesisError)
| FileNotOpened (path : string) | FileNotDecoded (path : string) | FileNotEncoded (path : string)
| RestartFailed (error : NodeError) | MissingGenesis | InvalidGenesis (error : SnapshotError)
| BootstrapFailed (error : NodeError) | UnsupportedTransport (transport : string)
| ServingFailed (error : RpcTransportError).

(** ** Options *)
Module NodeOptions.
Record ParsedOptions := { po_values : gmap string string; po_flags : gset string }.
Definition no_options : ParsedOptions := {| po_values := ∅; po_flags := ∅ |}.
Definition strip_dashes (s : string) : option string :=
  match s with String "-" (String "-" rest) => Some rest | _ => None end.
Fixpoint parse_from (parsed : ParsedOptions) (args : list string) : outcome NodeCliError ParsedOptions :=
  match args with
  | [] => Ok parsed
  | option :: args =>
      match strip_dashes option with
      | None => Err (ExpectedOption option)
      | Some name =>
          if bool_decide (name = "") then Err NodeEmptyOptionName else
          let flag := {| po_values := po_values parsed; po_flags := {[name]} ∪ po_flags parsed |} in
          match args with
          | next :: rest =>
              match strip_dashes next with
              | None => parse_from {| po_values := <[name := next]> (po_values parsed);
                                      po_flags := po_flags parsed |} rest
              | Some _ => parse_from flag args
              end
          | [] => Ok flag
          end
      end
  end.
Definition parse (args : list string) : outcome NodeCliError ParsedOptions := parse_from no_options args.
Definition required (o : ParsedOptions) (name : string) : outcome NodeCliError string :=
  ok_or (po_values o !! name) (NodeMissingRequired name).
Definition optional (o : ParsedOptions) (name : string) : option string := po_values o !! name.
Definition value_or (o : ParsedOptions) (name missing : string) : string := default missing (po_values o !! name).
(** [parse::<u64>], also [usize] *)
Definition number_u64 (value name : string) : outcome NodeCliError N :=
  ok_or (parse_u64 value) (NodeInvalidNumber name value).
Definition number_u128 (value name : string) : outcome NodeCliError N :=
  ok_or (parse_u128 value) (NodeInvalidNumber name value).
(** [optional(name).map(parse).transpose()] *)
Definition optional_u64 (o : ParsedOptions) (name : string) : outcome NodeCliError (option N) :=
  match optional o name with
  | Some value => let* n := number_u64 value name in Ok (Some n)
  | None => Ok None
  end.
End NodeOptions.
Import NodeOptions.

Definition DEFAULT_VALIDATOR_ID : string := "validator-1".
Definition DEFAULT_PRESET : string := "defi-demo".
Record GenesisSummary := {
  gs_output : string; gs_chain_id : string; gs_global_state_root : string; gs_storage_root : string;
  gs_registry_root : string; gs_policy_root : string;
}.
Abbreviation Files := (gmap string (list byte)).
Section commands.
Context `{Host, Wire, !Json StateSnapshot, !Json Block, !Json FinalityCertificate, !Json SlashingRecord}.
Context `{!Json ValidatorSetMetadata, !Json (list SignedValidatorMessage), !Json (gmap string string)}.
Context `{!Json (list ValidatorSetMetadataAuditRecord), !Json SnapshotImportAuditConfig}.
Context `{!Json (list Transaction), !Json ConsensusSigningRecord}.
Context `{!PrettyJson StateSnapshot}.

(** ** Files *)
Definition read_json_file {T} `{Json T} (path : string) : SE Files NodeCliError T :=
  let! file := gets (λ files, files !! path) in
  let? bytes := ok_or file (FileNotOpened path) in
  lift (ok_or (from_json bytes) (FileNotDecoded path)).
(** The file is emptied before the value is encoded into it. *)
Definition write_json_file {T} `{PrettyJson T} (path : string) (value : T) : SE Files NodeCliError () :=
  do! modify (λ files, <[path := []]> files) in
  let? bytes := ok_or (to_json_pretty value) (FileNotEncoded path) in
  modify (λ files, <[path := bytes]> files).

(** ** Commands *)
Definition write_genesis (options : ParsedOptions) : SE Files NodeCliError GenesisSummary :=
  let? output := required options "output" in
  let chain := value_or options "chain-id" Demo.DEFAULT_CHAIN_ID in
  let preset := value_or options "preset" DEFAULT_PRESET in
  do? ensure (bool_decide (preset = DEFAULT_PRESET)) (UnsupportedPreset preset) in
  let? state := match Demo.demo_defi_genesis_state chain with
    | Ok state => Ok state | Err error => Err (GenesisFailed error) | Panic => Panic | OutOfFuel => OutOfFuel
    end in
  let snap := snapshot state in
  do! write_json_file output snap in
  ret {| gs_output := output; gs_chain_id := chain; gs_global_state_root := snap_global_state_root snap;
         gs_storage_root := snap_storage_root snap; gs_registry_root := snap_registry_root snap;
         gs_policy_root := snap_policy_root snap |}.
Definition faucet_transaction (options : ParsedOptions) : outcome NodeCliError Transaction :=
  let* to := required options "to" in
  let* amount := required options "amount" in
  let* amount := number_u128 amount "amount" in
  let* nonce := optional_u64 options "nonce" in
  let nonce := default 1 nonce in
  let tx_hash := default ("faucet-" +:+ to +:+ "-" +:+ pretty nonce) (optional options "tx-hash") in
  let* valid_until_height := optional_u64 options "valid-until-height" in
  let* budget := optional_u64 options "budget" in
  Ok {| tx_chain_id := value_or options "chain-id" Demo.DEFAULT_CHAIN_ID; tx_tx_hash := tx_hash;
        tx_sender := value_or options "faucet" Demo.DEFAULT_FAUCET; tx_nonce := nonce;
        tx_valid_until_height := valid_until_height;
        tx_target := value_or options "token" Demo.DEFAULT_TOKEN_CONTRACT; tx_method := Transfer;
        tx_args := [ArgPrincipal to; ArgAsset (value_or options "asset" Demo.DEFAULT_USDC); ArgAmount amount];
        tx_signature_ok := true; tx_budget := default 1000000 budget |}.
(** The storage directory, and the operator's files, which are only read. *)
Definition load_or_bootstrap_node (files : Files) (validator_id : string) (genesis : option string)
    : SE FileSystem NodeCliError PersistentValidatorNode := λ fs,
  let renamed {A} (f : NodeError → NodeCliError) (r : outcome NodeError A * FileSystem)
      : outcome NodeCliError A * FileSystem :=
    (match r.1 with Ok a => Ok a | Err e => Err (f e) | Panic => Panic | OutOfFuel => OutOfFuel end, r.2) in
  if bool_decide (is_Some (fs !! snapshot_path)) then renamed RestartFailed (restart validator_id fs) else
  match genesis with
  | None => (Err MissingGenesis, fs)
  | Some genesis =>
      match (read_json_file (T:=StateSnapshot) genesis files).1 with
      | Ok snapshot =>
          match from_snapshot snapshot with
          | Ok state => renamed BootstrapFailed (bootstrap validator_id state fs)
          | Err error => (Err (InvalidGenesis error), fs)
          | Panic => (Panic, fs) | OutOfFuel => (OutOfFuel, fs)
          end
      | Err error => (Err error, fs) | Panic => (Panic, fs) | OutOfFuel => (OutOfFuel, fs)
      end
  end.

(** ** Serving *)
Section serve.
Context `{!Json (list SnapshotImportAuditRecord), !Json SnapshotSyncClientMetrics, !RpcJson}.
Context `{!Serialize TransactionSigningPayload, !Serialize (list TraceOp)}.
Context (debug_parse_error : ParseError → string) (model_file : string → list byte).
Context (debug_node_error : NodeError → string) (elapsed : N).
#[local] Instance served_node : JsonRpcHandler World :=
  node_handler debug_parse_error model_file debug_node_error elapsed.
(** The node's state root when it starts, and the connections served; a loop
    that waits has not returned. *)
Definition serve_node (files : Files) (incoming : list (list byte)) (options : ParsedOptions)
    : SE FileSystem NodeCliError (string * Served * Listener World) :=
  let? _ := required options "storage" in
  let validator_id := value_or options "validator-id" DEFAULT_VALIDATOR_ID in
  let transport := value_or options "transport" "tcp" in
  let? max_connections := optional_u64 options "max-connections" in
  let max_connections := N.to_nat (default 0 max_connections) in
  let! node := load_or_bootstrap_node files validator_id (optional options "genesis") in
  let root := global_state_root (svc_state (pvn_rpc node)) in
  let listening fs :=
    {| ls_handler := {| nw_node := node; nw_files := fs |}; ls_incoming := incoming; ls_answered := [] |} in
  let finish (r : Served * Listener World) :=
    (match r.1 with
     | ServedFailed error => Err (ServingFailed error)
     | ServedPanicked => Panic
     | _ => Ok (root, r.1, r.2)
     end, nw_files (ls_handler r.2)) in
  if bool_decide (transport = "tcp") then λ fs, finish (serve_tcp_connections tcp_bind max_connections (listening fs))
  else if bool_decide (transport = "http") then
    λ fs, finish (serve_http_connections http_bind max_connections (listening fs))
  else throw (UnsupportedTransport transport).

(** What the commands print. *)
Inductive NodePrinted :=
| PrintedGenesis (summary : GenesisSummary) | PrintedTransaction (tx : Transaction) | PrintedUsage
| PrintedServing (root : string) (served : Served).
Definition on_files {A} (m : SE Files NodeCliError A) : SE (Files * FileSystem) NodeCliError A := λ '(files, fs),
  let '(o, files) := m files in (o, (files, fs)).
Definition on_storage {A} (m : Files → SE FileSystem NodeCliError A) : SE (Files * FileSystem) NodeCliError A :=
  λ '(files, fs), let '(o, fs) := m files fs in (o, (files, fs)).
(** [args] includes the program's name. *)
Definition run (incoming : list (list byte)) (args : list string) : SE (Files * FileSystem) NodeCliError NodePrinted :=
  match args with
  | _ :: command :: args =>
      let? options := parse args in
      if bool_decide (command = "write-genesis") then
        let! summary := on_files (write_genesis options) in ret (PrintedGenesis summary)
      else if bool_decide (command = "serve") then
        let! served := on_storage (λ files, serve_node files incoming options) in
        ret (PrintedServing served.1.1 served.1.2)
      else if bool_decide (command = "faucet-tx") then
        let? tx := faucet_transaction options in ret (PrintedTransaction tx)
      else if bool_decide (command ∈ ["-h"; "--help"; "help"]) then ret PrintedUsage
      else throw (NodeUnknownCommand command)
  | _ => throw NodeUsage
  end.
End serve.
End commands.

(** ** Options read back *)
Section options.
Definition rendered (pairs : list (string * string)) : list string :=
  concat ((λ '(name, value), ["--" +:+ name; value]) <$> pairs).
Definition named_value (pair : string * string) : Prop := pair.1 ≠ "" ∧ strip_dashes pair.2 = None.
Lemma parse_rendered pairs parsed :
  Forall named_value pairs →
  parse_from parsed (rendered pairs)
  = Ok {| po_values := foldl (λ values '(name, value), <[name := value]> values) (po_values parsed) pairs;
          po_flags := po_flags parsed |}.
Proof.
  intros Hp. revert parsed. induction Hp as [|[name value] pairs [Hn Hv] _ IH]; intros parsed; [by destruct parsed|].
  simpl in Hn, Hv. change (rendered ((name, value) :: pairs)) with (("--" +:+ name) :: value :: rendered pairs).
  cbn [parse_from]. change (strip_dashes ("--" +:+ name)) with (Some name). cbv iota.
  rewrite bool_decide_eq_false_2, Hv, IH by done. done.
Qed.
(** A name joined to its value by [=] is taken for a flag, and flags are never
    looked at: the option is ignored without a word. *)
Lemma joined_option_ignored name value :
  parse ["--" +:+ name +:+ "=" +:+ value] = Ok {| po_values := ∅; po_flags := {[name +:+ "=" +:+ value]} ∪ ∅ |}.
Proof.
  unfold parse. cbn [parse_from]. change (strip_dashes ("--" +:+ ?s)) with (Some s). cbv iota.
  rewrite bool_decide_eq_false_2 by (by destruct name). done.
Qed.
End options.

(** ** A faucet transaction pays *)
Section theorems.
Context `{Host}.
(** The options name the demonstration chain's own faucet account, token
    contract and asset, or leave them out, and the budget covers the call. *)
Record plain_faucet (options : ParsedOptions) (tx : Transaction) : Prop := {
  pf_faucet : value_or options "faucet" Demo.DEFAULT_FAUCET = Demo.DEFAULT_FAUCET;
  pf_token : value_or options "token" Demo.DEFAULT_TOKEN_CONTRACT = Demo.DEFAULT_TOKEN_CONTRACT;
  pf_asset : value_or options "asset" Demo.DEFAULT_USDC = Demo.DEFAULT_USDC;
  pf_budget : transaction_resource_units tx ≤ tx_budget tx;
}.
Lemma faucet_Ok options tx :
  faucet_transaction options = Ok tx → plain_faucet options tx →
  ∃ to amount, optional options "to" = Some to ∧
    tx_args tx = [ArgPrincipal to; ArgAsset Demo.DEFAULT_USDC; ArgAmount amount] ∧
    (∃ text, optional options "amount" = Some text ∧ parse_u128 text = Some amount) ∧
    tx_chain_id tx = value_or options "chain-id" Demo.DEFAULT_CHAIN_ID ∧
    tx_sender tx = Demo.DEFAULT_FAUCET ∧ tx_target tx = Demo.DEFAULT_TOKEN_CONTRACT ∧
    tx_method tx = Transfer ∧ tx_signature_ok tx = true.
Proof.
  intros Ht [Hf Htk Ha _]. unfold faucet_transaction in Ht. rewrite Hf, Htk, Ha in Ht.
  unfold required, number_u128, optional in *. simplify_ok. subst tx.
  eexists _, _. split_and!; try done. by eexists.
Qed.

(** C19. The faucet pays on a fresh demonstration chain: the transaction that
    [faucet-tx] prints for another account and at most the faucet's million,
    from the chain's own faucet, token contract and asset and with a budget
    that covers the call, commits, whatever nonce, hash and expiry were asked
    for, credits exactly the amount, debits the faucet by it and leaves every
    ledger balanced.  The default budget covers the call. *)
Theorem faucet_pays options tx chain to text amount :
  faucet_transaction options = Ok tx → plain_faucet options tx →
  value_or options "chain-id" Demo.DEFAULT_CHAIN_ID = chain →
  optional options "to" = Some to → to ≠ Demo.DEFAULT_FAUCET →
  optional options "amount" = Some text → parse_u128 text = Some amount → amount ≤ 1000000 →
  ∃ s receipt s', Demo.demo_defi_genesis_state chain = Ok s ∧ apply_transaction tx s = (Ok receipt, s') ∧
    rc_status receipt = Committed ∧ ledgers_ok s' ∧
    balance s' Demo.DEFAULT_TOKEN_CONTRACT to Demo.DEFAULT_USDC
    = balance s Demo.DEFAULT_TOKEN_CONTRACT to Demo.DEFAULT_USDC + amount ∧
    balance s' Demo.DEFAULT_TOKEN_CONTRACT Demo.DEFAULT_FAUCET Demo.DEFAULT_USDC = 1000000 - amount ∧
    transaction_resource_units tx ≤ 1000000.
Proof.
  intros Ht Hp Hc Hto Hne Ham Hparse Hle. pose proof (pf_budget _ _ Hp) as Hbud.
  destruct (faucet_Ok _ _ Ht Hp) as (to' & amount' & Hto' & Hargs & (text' & Htext & Hamount) & Hch & Hs & Htg & Hm & Hsig).
  assert (to' = to) as -> by congruence. assert (amount' = amount) as -> by congruence.
  assert (transaction_resource_units tx ≤ 1000000) as Hunits
    by (unfold transaction_resource_units; rewrite Hm, Hargs; vm_compute; done).
  destruct (demo_genesis chain) as (s & Hd & Hchain & (Hl & _ & _ & Hn)%genesis_checked & Hen & Hbal & Hh).
  pose proof (apply_transfer tx s to Demo.DEFAULT_USDC amount Hm Hargs) as Ha.
  rewrite Hs, Htg in Ha. specialize (Ha ltac:(congruence) Hsig).
  set (paid := transferred tx to Demo.DEFAULT_USDC amount s) in Ha.
  assert (apply_transaction tx s
    = (Ok (committed_receipt paid (tx_tx_hash tx) RetUnit (transaction_resource_units tx)), paid)) as Hrun.
  { apply Ha; clear Ha.
    - unfold expired. destruct (tx_valid_until_height tx); [|done]. rewrite Hh. apply N.ltb_ge. lia.
    - rewrite Hn. apply not_elem_of_empty.
    - exact Hbud.
    - exact Hen.
    - apply Hl; [done|apply not_elem_of_nil].
    - exact (not_eq_sym Hne).
    - rewrite Hbal. exact Hle. }
  exists s, (committed_receipt paid (tx_tx_hash tx) RetUnit (transaction_resource_units tx)), paid.
  split; [exact Hd|]. split; [exact Hrun|]. split; [reflexivity|].
  destruct (moved_balances Demo.DEFAULT_TOKEN_CONTRACT Demo.DEFAULT_FAUCET to Demo.DEFAULT_USDC amount (charge_nonce tx s)
    (not_eq_sym Hne)) as (Hfrom & Hto1 & _).
  split; [|split; [|split; [|exact Hunits]]].
  - apply (transactions_ledgers [tx] s [committed_receipt paid (tx_tx_hash tx) RetUnit
      (transaction_resource_units tx)]); [|exact Hl]. unfold apply_transactions. cbn [mapM]. unfold bind.
    rewrite Hrun. reflexivity.
  - etrans; [|exact Hto1]. unfold paid, transferred. rewrite Htg, Hs. reflexivity.
  - etrans; [|etrans; [exact Hfrom|]]; [unfold paid, transferred; rewrite Htg, Hs; reflexivity|].
    rewrite <- Hbal. reflexivity.
Qed.
End theorems.

(** ** From a genesis file to a node that restarts *)
Section lifecycle.
Context `{Host, Wire, !Json StateSnapshot, !Json Block, !Json FinalityCertificate, !Json SlashingRecord}.
Context `{!Json ValidatorSetMetadata, !Json (list SignedValidatorMessage), !Json (gmap string string)}.
Context `{!Json (list ValidatorSetMetadataAuditRecord), !Json SnapshotImportAuditConfig}.
Context `{!Json (list Transaction), !Json ConsensusSigningRecord, !PrettyJson StateSnapshot}.
Context `{!JsonInverse StateSnapshot, !JsonInverse (list Transaction), !JsonInverse ValidatorSetMetadata}.
Context `{!JsonInverse Block, !PrettyInverse StateSnapshot}.

#[local] Opaque Demo.demo_defi_genesis_state.
Lemma write_genesis_Ok options files summary files' :
  write_genesis options files = (Ok summary, files') →
  ∃ s, Demo.demo_defi_genesis_state (gs_chain_id summary) = Ok s ∧
    gs_global_state_root summary = global_state_root s ∧
    read_json_file (gs_output summary) files' = (Ok (snapshot s), files').
Proof.
  unfold write_genesis. intros (output & f1 & Ho & Hrun)%bind_Ok. injection Ho as _ <-.
  apply bind_Ok in Hrun as ([] & f2 & Hp & Hrun). injection Hp as _ <-.
  apply bind_Ok in Hrun as (s & f3 & Hs & Hrun). unfold lift in Hs.
  destruct (Demo.demo_defi_genesis_state (value_or options "chain-id" Demo.DEFAULT_CHAIN_ID))
    as [state| | |] eqn:Hd; [|discriminate Hs..]. injection Hs as -> <-.
  apply bind_Ok in Hrun as ([] & f4 & Hw & Hr). injection Hr as <- <-.
  unfold write_json_file in Hw. apply bind_Ok in Hw as ([] & f5 & Hm & Hw). injection Hm as <-.
  apply bind_Ok in Hw as (bytes & f6 & Hb & Hw). injection Hb as Hb <-. injection Hw as <-.
  apply ok_or_Ok in Hb. exists s. split; [exact Hd|]. split; [reflexivity|].
  unfold read_json_file, bind, gets, lift. cbn [gs_output]. rewrite lookup_insert_eq. cbn [ok_or].
  by rewrite (from_json_pretty _ _ Hb).
Qed.
Lemma bootstrap_runs id state bytes empty_pool :
  encode_json (snapshot state) = Ok bytes → encode_json (T:=list Transaction) [] = Ok empty_pool →
  ∃ n fs, bootstrap id state ∅ = (Ok n, fs).
Proof.
  intros Hs He. unfold bootstrap, stored_only, bind at 1, commit_snapshot, snapshot_valid.
  rewrite (proj1 (snapshot_roundtrip _)). unfold bind at 1, lift. unfold write_json_atomic, bind at 1, lift. rewrite Hs.
  unfold commit_mempool, write_json_atomic, bind, lift, modify. rewrite He. by eexists _, _.
Qed.

End lifecycle.
