(* ===== verification/ClientCli.v ===== *)
(** * ClientCli: the client's command line

    crates/detta-node/src/bin/detta-client.rs: its options, the transactions it
    builds, and the session with a node in which a command submits one, may
    have a block produced and fetches the receipt.  The connection is the
    [Duplex] of [RpcClient]; what a command prints is its result, and an error
    is the case it reports. *)
From S2P Require Import Prelude Effects Merkle Types State AspectRuntime Decimal Transactions Mempool Block.
From S2P Require Import Consensus Protocol Storage Verify Evaluator RpcTypes Rpc RpcTransport RpcClient Node NodeReports NodeTracks NodeRestart.

Inductive ClientCliError :=
| ClientUsage | ClientUnknownCommand (command : string)
| UnexpectedPositional (argument : string) | ClientEmptyOptionName | MissingValue (name : string)
| ClientMissingRequired (name : string) | ClientInvalidNumber (name value : string)
| ClientFailed (error : ClientError)
| RefusedByNode (error : RpcErrorBody)
| ExpectedBlock (result : RpcResult) | ExpectedReceipt (result : RpcResult).

(** ** Options *)
Module ClientOptions.
Definition ParsedOptions : Type := gmap string string.
Definition strip_dashes (s : string) : option string :=
  match s with String "-" (String "-" rest) => Some rest | _ => None end.
(** [split_once('=')] *)
Fixpoint split_equals (head s : string) : option (string * string) :=
  match s with
  | EmptyString => None
  | String c rest =>
      if decide (c = "="%char) then Some (head, rest) else split_equals (head +:+ String c "") rest
  end.
Fixpoint parse_from (values : ParsedOptions) (args : list string) : outcome ClientCliError ParsedOptions :=
  match args with
  | [] => Ok values
  | raw :: args =>
      match strip_dashes raw with
      | None => Err (UnexpectedPositional raw)
      | Some option =>
          if bool_decide (option = "") then Err ClientEmptyOptionName else
          match split_equals "" option with
          | Some (key, value) =>
              if bool_decide (key = "") then Err ClientEmptyOptionName
              else parse_from (<[key := value]> values) args
          | None =>
              match args with
              | next :: rest =>
                  match strip_dashes next with
                  | None => parse_from (<[option := next]> values) rest
                  | Some _ => Err (MissingValue option)
                  end
              | [] => Err (MissingValue option)
              end
          end
      end
  end.
Definition parse (args : list string) : outcome ClientCliError ParsedOptions := parse_from ∅ args.
Definition required (o : ParsedOptions) (key : string) : outcome ClientCliError string :=
  ok_or (o !! key) (ClientMissingRequired key).
Definition optional (o : ParsedOptions) (key : string) : option string := o !! key.
Definition value_or (o : ParsedOptions) (key missing : string) : string := default missing (o !! key).
Definition number_u64 (value label : string) : outcome ClientCliError N :=
  ok_or (parse_u64 value) (ClientInvalidNumber label value).
Definition number_u128 (value label : string) : outcome ClientCliError N :=
  ok_or (parse_u128 value) (ClientInvalidNumber label value).
Definition required_u64 (o : ParsedOptions) (key : string) : outcome ClientCliError N :=
  let* value := required o key in number_u64 value key.
Definition required_u128 (o : ParsedOptions) (key : string) : outcome ClientCliError N :=
  let* value := required o key in number_u128 value key.
Definition optional_u64 (o : ParsedOptions) (key : string) : outcome ClientCliError (option N) :=
  match optional o key with
  | Some value => let* n := number_u64 value key in Ok (Some n)
  | None => Ok None
  end.
End ClientOptions.
Import ClientOptions.

(** ** Transactions *)
Definition DEFAULT_SENDER : string := "Alice".
Definition DEFAULT_BUDGET : N := 1000000.
Definition base_tx (options : ParsedOptions) (prefix sender : string) (nonce : N) (target : string)
    (method : Method) (args : list Argument) : outcome ClientCliError Transaction :=
  let* valid_until_height := optional_u64 options "valid-until-height" in
  let* budget := optional_u64 options "budget" in
  Ok {| tx_chain_id := value_or options "chain-id" "detta-local";
        tx_tx_hash := default (prefix +:+ "-" +:+ sender +:+ "-" +:+ pretty nonce) (optional options "tx-hash");
        tx_sender := sender; tx_nonce := nonce; tx_valid_until_height := valid_until_height;
        tx_target := target; tx_method := method; tx_args := args; tx_signature_ok := true;
        tx_budget := default DEFAULT_BUDGET budget |}.
Definition deploy_token_tx (options : ParsedOptions) : outcome ClientCliError Transaction :=
  let* contract := required options "contract" in
  let sender := value_or options "sender" DEFAULT_SENDER in
  let* nonce := required_u64 options "nonce" in
  let* asset := required options "asset" in
  let* initial_supply := required_u128 options "initial-supply" in
  base_tx options "deploy-token" sender nonce (value_or options "factory" "FactoryA") DeployToken
    [ArgText contract; ArgAsset asset; ArgPrincipal (value_or options "initial-holder" sender);
     ArgAmount initial_supply].
Definition deploy_pool_tx (options : ParsedOptions) : outcome ClientCliError Transaction :=
  let* contract := required options "contract" in
  let sender := value_or options "sender" DEFAULT_SENDER in
  let* nonce := required_u64 options "nonce" in
  let* asset_a := required options "asset-a" in
  let* asset_b := required options "asset-b" in
  base_tx options "deploy-pool" sender nonce (value_or options "factory" "FactoryA") DeployAmmPool
    [ArgText contract; ArgAsset asset_a; ArgAsset asset_b].
Definition add_liquidity_tx (options : ParsedOptions) : outcome ClientCliError Transaction :=
  let sender := value_or options "sender" DEFAULT_SENDER in
  let* nonce := required_u64 options "nonce" in
  let* asset_a_amount := required_u128 options "asset-a-amount" in
  let* asset_b_amount := required_u128 options "asset-b-amount" in
  base_tx options "add-liquidity" sender nonce (value_or options "pool" "PoolAB") AddLiquidity
    [ArgAmount asset_a_amount; ArgAmount asset_b_amount].
Definition swap_tx (options : ParsedOptions) : outcome ClientCliError Transaction :=
  let sender := value_or options "sender" DEFAULT_SENDER in
  let* nonce := required_u64 options "nonce" in
  let* input_asset := required options "input-asset" in
  let* amount_in := required_u128 options "amount-in" in
  let* min_output := required_u128 options "min-output" in
  base_tx options "swap" sender nonce (value_or options "pool" "PoolAB") Swap
    [ArgAsset input_asset; ArgAmount amount_in; ArgAmount min_output].

(** ** Sessions *)
Record BlockSummary := {
  bs_height : N; bs_block_hash : string; bs_global_state_root : string; bs_storage_root : string;
  bs_receipt_root : string; bs_transaction_count : nat;
}.
Definition from_block `{Host} (block : Block) : BlockSummary :=
  {| bs_height := hdr_height (blk_header block); bs_block_hash := block_hash block;
     bs_global_state_root := hdr_global_state_root (blk_header block);
     bs_storage_root := hdr_storage_root (blk_header block);
     bs_receipt_root := hdr_receipt_root (blk_header block);
     bs_transaction_count := length (blk_transactions block) |}.
Record ClientCommandReport := {
  ccr_submitted : RpcResult; ccr_produced_block : option BlockSummary; ccr_receipt : option Receipt;
}.
Inductive ClientPrinted := PrintedReport (report : ClientCommandReport) | PrintedResult (result : RpcResult) | PrintedClientUsage.
(** [height * 1_000] on [u64] *)
Definition default_timestamp {E} (height : N) : outcome E N :=
  if height * 1000 <=? u64_max then Ok (height * 1000) else Panic.
Section session.
Context `{Host, RpcJson, ClientJson, JsonRpcHandler Handler} (max_request_bytes : nat).
Abbreviation CM := (SE (Duplex Handler) ClientCliError).
(** [TcpRpcClient::ok] of this binary: the session of [RpcClient], the errors
    in its own words. *)
Definition cli_ok (r : RpcRequest) : CM RpcResult := λ d,
  match request max_request_bytes r d with
  | (Ok (RpcOk result), d) => (Ok result, d)
  | (Ok (RpcErr error), d) => (Err (RefusedByNode error), d)
  | (Err error, d) => (Err (ClientFailed error), d)
  | (Panic, d) => (Panic, d)
  | (OutOfFuel, d) => (OutOfFuel, d)
  end.
(** [given.unwrap_or(height * 1_000)]: the product is computed either way. *)
Definition timestamp_or (given : option N) (height : N) : outcome ClientCliError N :=
  let* fallback := default_timestamp height in
  Ok (default fallback given).
Definition submit_and_maybe_finalize (transaction : Transaction) (options : ParsedOptions)
    : CM ClientCommandReport :=
  let! submitted := cli_ok (ReqSubmitTransaction transaction) in
  match optional options "produce-height" with
  | None => ret {| ccr_submitted := submitted; ccr_produced_block := None; ccr_receipt := None |}
  | Some height =>
      let? height := number_u64 height "produce-height" in
      let? timestamp := optional_u64 options "produce-timestamp" in
      let? timestamp := timestamp_or timestamp height in
      let! produced := cli_ok (ReqProduceBlock height timestamp) in
      match produced with
      | ResBlock block =>
          let! found := cli_ok (ReqGetReceipt (tx_tx_hash transaction)) in
          match found with
          | ResReceipt receipt =>
              ret {| ccr_submitted := submitted; ccr_produced_block := Some (from_block block);
                     ccr_receipt := Some receipt |}
          | result => throw (ExpectedReceipt result)
          end
      | result => throw (ExpectedBlock result)
      end
  end.
(** [args] includes the program's name; the connection is open. *)
Definition run (args : list string) : CM ClientPrinted :=
  match args with
  | _ :: command :: args =>
      if bool_decide (command ∈ ["-h"; "--help"; "help"]) then ret PrintedClientUsage else
      let? options := parse args in
      let submits tx :=
        let? transaction := tx in
        let! report := submit_and_maybe_finalize transaction options in
        ret (PrintedReport report) in
      if bool_decide (command = "deploy-token") then submits (deploy_token_tx options)
      else if bool_decide (command = "deploy-pool") then submits (deploy_pool_tx options)
      else if bool_decide (command = "add-liquidity") then submits (add_liquidity_tx options)
      else if bool_decide (command = "swap") then submits (swap_tx options)
      else if bool_decide (command = "produce-block") then
        let? height := required_u64 options "height" in
        let? timestamp := optional_u64 options "timestamp" in
        let? timestamp := timestamp_or timestamp height in
        let! result := cli_ok (ReqProduceBlock height timestamp) in
        ret (PrintedResult result)
      else if bool_decide (command = "receipt") then
        let? tx_hash := required options "tx-hash" in
        let! result := cli_ok (ReqGetReceipt tx_hash) in
        ret (PrintedResult result)
      else if bool_decide (command = "state-root") then
        let! result := cli_ok ReqGetStateRoot in
        ret (PrintedResult result)
      else throw (ClientUnknownCommand command)
  | _ => throw ClientUsage
  end.
End session.

(** ** What a finalized report says *)
Lemma first_some_inv {A B} (f : A → option B) l b : first_some f l = Some b → ∃ a, a ∈ l ∧ f a = Some b.
Proof.
  induction l as [|a l IH]; [done|]. cbn [first_some]. destruct (f a) as [b'|] eqn:Ha.
  - intros [= ->]. exists a. split; [apply elem_of_cons; by left|done].
  - intros (a' & Hin & Hf)%IH. exists a'. split; [apply elem_of_cons; by right|done].
Qed.
Section report.
Context `{Host, Wire, !Json StateSnapshot, !Json Block, !Json FinalityCertificate, !Json SlashingRecord}.
Context `{!Json ValidatorSetMetadata, !Json (list SignedValidatorMessage), !Json (gmap string string)}.
Context `{!Json (list ValidatorSetMetadataAuditRecord), !Json SnapshotImportAuditConfig}.
Context `{!Json (list Transaction), !Json ConsensusSigningRecord}.
Context `{!Json (list SnapshotImportAuditRecord), !Json SnapshotSyncClientMetrics}.
Context `{!Serialize TransactionSigningPayload, !Serialize (list TraceOp)}.
Context `{!JsonInverse StateSnapshot, !JsonInverse (list Transaction), !JsonInverse Block}.
Context `{RpcJson, ClientJson, !ClientJsonLaws}.
Context (debug_parse_error : ParseError → string) (model_file : string → list byte).
Context (debug_node_error : NodeError → string) (elapsed : N) (max_request_bytes : nat).
Abbreviation handles := (handle_rpc_request debug_parse_error model_file debug_node_error elapsed).
#[local] Instance node_server : JsonRpcHandler World := typed_handler handles.

Lemma cli_ok_handled r w result d :
  fits max_request_bytes r → cli_ok max_request_bytes r (connected w) = (Ok result, d) →
  ∃ w1 w', node_dispatch debug_parse_error model_file elapsed r w = (Ok (RpcOk result), w1) ∧
    nw_files w' = nw_files w1 ∧ d = connected w'.
Proof.
  intros Hfit. unfold cli_ok. destruct (request max_request_bytes r (connected w)) as [[[result'|e]| | |] d1] eqn:Hq; try done.
  intros [= -> ->]. apply (request_answered handles) in Hq as (w' & Hh & ->); [|done].
  unfold handle_rpc_request in Hh. destruct (node_dispatch _ _ _ _ w) as [[response| | |] w1] eqn:Hd; try done.
  injection Hh as -> <-. eexists _, _. split; [reflexivity|split; [|reflexivity]; done].
Qed.
Lemma produced h t w b w' :
  node_produce_block elapsed h t w = (Ok b, w') →
  hdr_height (blk_header b) = h ∧ holds (nw_files w') (block_path h) b.
Proof.
  unfold node_produce_block. intros (b1 & w1 & Hp & Hrun)%bind_Ok. apply on_rpc_Ok in Hp as (rpc & Hp & ->).
  apply produce_Ok in Hp as (node & Hp & _).
  apply bind_Ok in Hrun as ([] & w2 & _ & Hrun). apply bind_Ok in Hrun as ([] & w3 & Hs & Hr). injection Hr as -> ->.
  apply persist_block_Ok in Hs as (_ & _ & _ & Hb & _).
  assert (hdr_height (blk_header b) = h) as <-; [|done].
  unfold propose_pending_block in Hp. destruct (drain_ordered_with_resource_limit _ _) as [txs m].
  injection Hp as Hp _. unfold propose_block in Hp.
  edestruct build_block_Ok as (rs & ws & b' & _ & Hb' & _ & _ & Hh). rewrite Hb' in Hp. by injection Hp as <-.
Qed.
Lemma receipt_found tx_hash fs r fs' :
  find_receipt tx_hash fs = (Ok (Some r), fs') →
  fs' = fs ∧ rc_tx_hash r = tx_hash ∧ ∃ blocks b, load_blocks fs = (Ok blocks, fs) ∧ b ∈ blocks ∧ r ∈ blk_receipts b.
Proof.
  unfold find_receipt. intros (blocks & fs1 & Hl & Hr)%bind_Ok. injection Hr as Hr <-.
  pose proof (reads_blocks _ _ _ Hl) as <-. split; [done|].
  apply first_some_inv in Hr as (b & Hb & Hr). apply fmap_Some in Hr as ([i r'] & Hf & ->).
  apply list_find_Some in Hf as (Hi & Hh & _). split; [done|]. eexists _, b. split_and!; [done..|].
  by eapply list_elem_of_lookup_2.
Qed.
(** C15. A finalized report is truthful: when a command that submits and asks
    for a block reports success, the node stored a block of the height asked
    for, which is the one summarised, and the receipt shown carries the
    transaction's hash and is one of a block on the node's disk. *)
Theorem finalized_report_stored tx options text height timestamp w report d :
  optional options "produce-height" = Some text → parse_u64 text = Some height →
  (let* given := optional_u64 options "produce-timestamp" in timestamp_or given height) = Ok timestamp →
  Forall (fits max_request_bytes)
    [ReqSubmitTransaction tx; ReqProduceBlock height timestamp; ReqGetReceipt (tx_tx_hash tx)] →
  submit_and_maybe_finalize max_request_bytes tx options (connected w) = (Ok report, d) →
  ∃ block receipt blocks b w',
    report = {| ccr_submitted := ResSubmitted; ccr_produced_block := Some (from_block block);
                ccr_receipt := Some receipt |} ∧
    d = connected w' ∧
    hdr_height (blk_header block) = height ∧ holds (nw_files w') (block_path height) block ∧
    rc_tx_hash receipt = tx_tx_hash tx ∧
    load_blocks (nw_files w') = (Ok blocks, nw_files w') ∧ b ∈ blocks ∧ receipt ∈ blk_receipts b.
Proof.
  intros Ho Hp Hts [Hf1 [Hf2 [Hf3 _]%Forall_cons]%Forall_cons]%Forall_cons. unfold submit_and_maybe_finalize. rewrite Ho.
  intros (submitted & d1 & Hs & Hrun)%bind_Ok. apply cli_ok_handled in Hs as (w1 & w1' & Hs & _ & ->); [|done].
  cbn [node_dispatch] in Hs. apply bind_Ok in Hs as ([] & w2 & _ & Hs). injection Hs as <- _.
  unfold bind at 1, lift, number_u64 in Hrun. rewrite Hp in Hrun. cbn [ok_or] in Hrun. unfold bind at 1, lift in Hrun.
  destruct (optional_u64 options "produce-timestamp") as [given| | |]; try done. cbn [outcome_bind] in Hts.
  unfold bind at 1, lift in Hrun. rewrite Hts in Hrun.
  apply bind_Ok in Hrun as (produced_ & d2 & Hb & Hrun). apply cli_ok_handled in Hb as (w3 & w3' & Hb & Hfs & ->); [|done].
  cbn [node_dispatch] in Hb. apply bind_Ok in Hb as (block & w4 & Hb & Hr). injection Hr as <- <-.
  apply produced in Hb as [Hh Hheld].
  apply bind_Ok in Hrun as (found_ & d3 & Hr & Hrun). apply cli_ok_handled in Hr as (w5 & w5' & Hr & Hfs' & ->); [|done].
  cbn [node_dispatch] in Hr. apply bind_Ok in Hr as (receipt & w6 & Hr & Hret). apply stored_Ok in Hr as (fs & Hr & ->).
  injection Hret as Hfound <-. destruct receipt as [receipt|]; [|done]. injection Hfound as <-.
  injection Hrun as <- <-. apply receipt_found in Hr as (-> & Hx & blocks & b & Hl & Hin & Hrin).
  cbn [nw_files] in Hfs'. rewrite <- Hfs' in Hl. rewrite <- Hfs, <- Hfs' in Hheld.
  exists block, receipt, blocks, b, w5'. split_and!; try done.
Qed.
End report.
(** The product is computed, and overflows, with an explicit timestamp too. *)
Lemma timestamp_overflow given height : u64_max < height * 1000 → timestamp_or given height = Panic.
Proof. intros Ho. unfold timestamp_or, default_timestamp. by rewrite (proj2 (N.leb_gt _ _) Ho). Qed.
