(* ===== verification/Artifacts.v ===== *)
(** * Artifacts: what a release publishes

    The tables of crates/detta-verify/src/lib.rs (the coverage of the safety
    theorems, the artifacts a proof manifest lists, with the contents of the
    files as the parameter [model_file]) and the tool
    crates/detta-verify/src/bin/refresh_aspect_stdlib_artifacts.rs that
    recomputes the standard library's artifact, its obligations and their
    attestations.  The repository's files are a map from paths relative to its
    root; serde_json is a parameter. *)
From S2P Require Import Prelude Effects Merkle Types State AspectRuntime AspectSource AspectClosure AspectLower AspectVerify.
From S2P Require Import Block Consensus Protocol Storage Verify Evaluator Release RpcTypes Rpc RpcTransport RpcClient Node NodeReports NodeTracks NodeCli.

(** ** Proof artifacts *)
Inductive TheoremEvidenceKind := RuntimeTest | Model | Verifier | Fixture.
#[export] Instance TheoremEvidenceKind_eq_dec : EqDecision TheoremEvidenceKind.
Proof. solve_decision. Defined.
Record TheoremEvidence := evidence { te_kind : TheoremEvidenceKind; te_reference : string }.
Record SafetyTheoremCoverage := theorem { stc_id : string; stc_name : string; stc_evidence : list TheoremEvidence }.
Record ModelArtifactRoot := { mar_path : string; mar_sha256 : string }.
Record ProofArtifactManifest := {
  pam_schema : string; pam_schema_version : N; pam_project : string; pam_scope : string;
  pam_model_artifacts : list ModelArtifactRoot; pam_runtime_artifacts : list ModelArtifactRoot;
  pam_theorem_count : nat; pam_coverage : list SafetyTheoremCoverage;
}.
Definition PROOF_ARTIFACT_MANIFEST_SCHEMA : string := "detta.proof-artifact-manifest.v2".
Definition PROOF_ARTIFACT_MANIFEST_SCHEMA_VERSION : N := 2.
Definition PROOF_ARTIFACT_MANIFEST_PROJECT : string := "DeTTa".
Definition PROOF_ARTIFACT_MANIFEST_SCOPE : string := "Secured Contract Spaces runtime safety obligations".
Definition PROOF_MODEL_ARTIFACT_COUNT : nat := 2.
Definition PROOF_RUNTIME_ARTIFACT_COUNT : nat := 11.
Definition scs_theorem_coverage : list SafetyTheoremCoverage :=
  [theorem "THM-001" "Dispatcher-Only External Mutation"
     [evidence RuntimeTest "detta_core::tests::missing_method_policy_is_denied";
      evidence Model "models/DeTTaBlockExecution.tla::DispatcherOnlyMutation"];
   theorem "THM-002" "Contract Isolation"
     [evidence Verifier "detta_verify::verify_kernel_trace";
      evidence RuntimeTest "detta_verify::tests::symbolic_trace_rejects_cross_contract_write"];
   theorem "THM-003" "Method Write-Scope Safety"
     [evidence Verifier "detta_verify::verify_kernel_trace";
      evidence RuntimeTest "detta_verify::tests::symbolic_trace_rejects_out_of_scope_write";
      evidence Fixture "models/detta-restricted-evaluator-proof-trace.json"];
   theorem "THM-004" "No Authority From Syntax"
     [evidence RuntimeTest "detta_evaluator::tests::transfer_like_arguments_are_plain_data_not_authority"];
   theorem "THM-005" "Live Registry Authorization"
     [evidence RuntimeTest "detta_core::tests::transfer_from_requires_live_registry_allowance"];
   theorem "THM-006" "Registry Consumption Atomicity"
     [evidence RuntimeTest "detta_core::tests::allowance_consumption_reverts_with_failed_transfer";
      evidence Model "models/DeTTaBlockExecution.tla::AtomicRevert"];
   theorem "THM-007" "Event Atomicity"
     [evidence RuntimeTest "detta_core::tests::insufficient_balance_reverts_storage_registry_and_events";
      evidence Model "models/DeTTaBlockExecution.tla::AtomicRevert"];
   theorem "THM-008" "Invariant Preservation"
     [evidence RuntimeTest "detta_core::tests::transfer_preserves_supply_and_commits_event";
      evidence RuntimeTest "detta_core::tests::invariant_failure_reverts_full_transition"];
   theorem "THM-009" "Determinism"
     [evidence Verifier "detta_verify::verify_differential_replay";
      evidence RuntimeTest "detta_core::tests::deterministic_replay_produces_identical_roots";
      evidence Fixture "models/detta-restricted-evaluator-resource-exhaustion.json"];
   theorem "THM-010" "Replay Safety"
     [evidence RuntimeTest "detta_core::tests::replayed_nonce_is_rejected";
      evidence Model "models/DeTTaBlockExecution.tla::ReplaySafety"];
   theorem "THM-011" "Caller Integrity"
     [evidence RuntimeTest "detta_core::tests::caller_identity_cannot_be_forged"];
   theorem "THM-012" "No Write-Scope Leakage Across Calls"
     [evidence RuntimeTest "detta_core::tests::router_cross_contract_call_does_not_inherit_user_allowance";
      evidence Model "models/DeTTaBlockExecution.tla::WriteScopeSafety"];
   theorem "THM-013" "View Read-Only Safety"
     [evidence RuntimeTest "detta_core::tests::view_reads_are_read_only"];
   theorem "THM-014" "Schema Safety"
     [evidence RuntimeTest "detta_core::tests::arithmetic_overflow_reverts_without_state_or_events";
      evidence Fixture "models/detta-restricted-evaluator-arithmetic-overflow.json";
      evidence Model "models/DeTTaBlockExecution.tla::TypeOK"];
   theorem "THM-015" "Raw Primitive Exclusion"
     [evidence RuntimeTest "detta_evaluator::tests::evaluator_rejects_forbidden_primitive";
      evidence Fixture "models/detta-restricted-evaluator-forbidden-primitives.json"];
   theorem "THM-016" "Programmable Module Soundness"
     [evidence Verifier "detta_verify::validate_aspect_stdlib_artifact";
      evidence Verifier "detta_verify::validate_aspect_proof_obligations";
      evidence RuntimeTest "detta_e2e::tests::aspect_module_client_flows::client_submits_inspects_deploys_and_calls_aspect_token";
      evidence Model "models/DeTTaBlockExecution.tla::ProgrammableModuleSoundness"]].
Section manifest.
Context `{Sha256} (model_file : string → list byte).
Definition proof_artifact_manifest_root_bytes (bytes : list byte) : string := hex_lower (sha256 bytes).
Definition artifact_root (path : string) : ModelArtifactRoot :=
  {| mar_path := path; mar_sha256 := proof_artifact_manifest_root_bytes (model_file path) |}.
Definition proof_model_artifacts : list ModelArtifactRoot :=
  artifact_root <$> ["models/DeTTaBlockExecution.tla"; "models/DeTTaBlockExecution.cfg"].
Definition proof_runtime_artifacts : list ModelArtifactRoot :=
  artifact_root <$>
  ["models/detta-restricted-evaluator-proof-trace.json";
   "models/detta-restricted-evaluator-proof-trace.sha256";
   "models/detta-restricted-evaluator-proof-trace-root.sha256";
   "models/detta-restricted-evaluator-forbidden-primitives.json";
   "models/detta-restricted-evaluator-forbidden-primitives.sha256";
   "models/detta-restricted-evaluator-resource-exhaustion.json";
   "models/detta-restricted-evaluator-resource-exhaustion.sha256";
   "models/detta-restricted-evaluator-arithmetic-overflow.json";
   "models/detta-restricted-evaluator-arithmetic-overflow.sha256";
   "models/detta-restricted-evaluator-fixture-inventory.json";
   "models/detta-restricted-evaluator-fixture-inventory.sha256"].
Definition proof_artifact_manifest : ProofArtifactManifest :=
  let coverage := scs_theorem_coverage in
  {| pam_schema := PROOF_ARTIFACT_MANIFEST_SCHEMA;
     pam_schema_version := PROOF_ARTIFACT_MANIFEST_SCHEMA_VERSION;
     pam_project := PROOF_ARTIFACT_MANIFEST_PROJECT; pam_scope := PROOF_ARTIFACT_MANIFEST_SCOPE;
     pam_model_artifacts := proof_model_artifacts; pam_runtime_artifacts := proof_runtime_artifacts;
     pam_theorem_count := length coverage; pam_coverage := coverage |}.
Definition checked_in_proof_artifact_manifest_root : string :=
  proof_artifact_manifest_root_bytes (model_file "models/detta-proof-artifact-manifest.json").
(** The manifest is consistent: it lists as many artifacts as the release
    expects, every theorem once and with evidence, and every fixture given as
    evidence is one of the files whose hash it attests. *)
Theorem manifest_consistent :
  length (pam_model_artifacts proof_artifact_manifest) = PROOF_MODEL_ARTIFACT_COUNT ∧
  length (pam_runtime_artifacts proof_artifact_manifest) = PROOF_RUNTIME_ARTIFACT_COUNT ∧
  NoDup (stc_id <$> pam_coverage proof_artifact_manifest) ∧
  Forall (λ t, stc_evidence t ≠ []) (pam_coverage proof_artifact_manifest) ∧
  ∀ t e, t ∈ pam_coverage proof_artifact_manifest → e ∈ stc_evidence t → te_kind e = Fixture →
    te_reference e ∈ mar_path <$> pam_runtime_artifacts proof_artifact_manifest.
Proof.
  split; [reflexivity|]. split; [reflexivity|]. split; [|split].
  - apply (bool_decide_eq_true (NoDup (stc_id <$> scs_theorem_coverage))). vm_compute. reflexivity.
  - repeat constructor; discriminate.
  - intros t e Ht He Hk. assert (Forall (λ t, Forall (λ e, te_kind e = Fixture →
      te_reference e ∈ mar_path <$> proof_runtime_artifacts) (stc_evidence t)) scs_theorem_coverage) as Hall.
    { apply (bool_decide_eq_true (Forall (λ t, Forall (λ e, te_kind e = Fixture →
        te_reference e ∈ mar_path <$> proof_runtime_artifacts) (stc_evidence t)) scs_theorem_coverage)).
      vm_compute. reflexivity. }
    rewrite Forall_forall in Hall. specialize (Hall _ Ht). rewrite Forall_forall in Hall. by apply Hall.
Qed.
End manifest.

(** ** Paths *)
(** The parts before and after the last [c]. *)
Fixpoint rsplit_once (c : ascii) (s : string) : option (string * string) :=
  match s with
  | EmptyString => None
  | String a rest =>
      match rsplit_once c rest with
      | Some (head, tail) => Some (String a head, tail)
      | None => if decide (a = c) then Some ("", rest) else None
      end
  end.
Definition file_name (path : string) : string := default path (snd <$> rsplit_once "/" path).
Definition extension (path : string) : option string :=
  match rsplit_once "." (file_name path) with
  | Some (stem, ext) => if bool_decide (stem = "") then None else Some ext
  | None => None
  end.
(** [with_extension] of a path that has one. *)
Definition with_extension (path ext : string) : string :=
  match rsplit_once "." path with Some (stem, _) => stem +:+ "." +:+ ext | None => path +:+ "." +:+ ext end.
Definition attestation_path (target_path : string) : string :=
  if bool_decide (extension target_path = Some "json") then with_extension target_path "sha256"
  else target_path +:+ ".sha256".
Definition ASPECT_STDLIB_PROOF_OBLIGATIONS_PATH : string :=
  "models/aspects/stdlib/minimal-transfer-token.proof-obligations.json".
(** The closest directory above, itself included, that looks like the
    repository; the components of a directory are innermost first. *)
Fixpoint repo_root (is_root : list string → bool) (directory : list string) : option (list string) :=
  if is_root directory then Some directory
  else match directory with [] => None | _ :: parent => repo_root is_root parent end.

(** ** Refreshing *)
Inductive RefreshError :=
| RefreshIo (path : string) | RefreshDecode (path : string) | RefreshEncode (path : string)
| RefreshSource (error : AspectVerifyError)
| RefreshArtifact (errors : list AspectStdlibArtifactError)
| RefreshObligations (errors : list AspectProofObligationError).
Section refresh.
Context `{Host}.
Context `{!Json AspectStdlibArtifactManifest, !Json AspectProofObligationManifest}.
Context `{!PrettyJson AspectStdlibArtifactManifest, !PrettyJson AspectProofObligationManifest}.
Abbreviation Repo := (gmap string (list byte)).
Abbreviation RefreshM := (SE Repo RefreshError).
Definition read_file (path : string) : RefreshM (list byte) :=
  let! file := gets (λ files, files !! path) in lift (ok_or file (RefreshIo path)).
Definition read_to_string (path : string) : RefreshM string :=
  let! bytes := read_file path in
  do? ensure (utf8_valid 0 bytes) (RefreshIo path) in
  ret (String.string_of_list_byte bytes).
Definition read_manifest {T} `{Json T} (path : string) : RefreshM T :=
  let! text := read_to_string path in
  lift (ok_or (from_json (bytes_of_string text)) (RefreshDecode path)).
Definition write_pretty_json {T} `{PrettyJson T} (path : string) (value : T) : RefreshM () :=
  let? json := ok_or (to_json_pretty value) (RefreshEncode path) in
  modify (λ files, <[path := json ++ [x0a]]> files).
Definition write_sha256sum (attestation_path target_path : string) : RefreshM () :=
  let! bytes := read_file target_path in
  modify (λ files, <[attestation_path :=
    bytes_of_string (sha256_hex bytes +:+ "  " +:+ file_name target_path) ++ [x0a]]> files).
Definition refreshed_artifact (module_id : string) (canonical_source : string) (ir : AspectModuleIr)
    (module_verified : VerifiedAspectModule) : AspectStdlibArtifactManifest :=
  let module := module_artifact module_id canonical_source module_verified in
  {| sam_schema := ASPECT_STDLIB_ARTIFACT_SCHEMA; sam_schema_version := ASPECT_STDLIB_ARTIFACT_SCHEMA_VERSION;
     sam_module_id := module_id; sam_source_path := ASPECT_STDLIB_SOURCE_PATH;
     sam_taxonomy_version := art_taxonomy_version module;
     sam_accepted_language := art_accepted_language module;
     sam_verifier_version := art_verifier_version module;
     sam_source_root := art_source_root module; sam_ir_root := art_ir_root module;
     sam_abi_root := art_abi_root module; sam_policy_root := art_policy_root module;
     sam_storage_schema_root := art_storage_schema_root module;
     sam_registry_schema_root := art_registry_schema_root module;
     sam_invariant_root := art_invariant_root module;
     sam_bundle_count := size (ir_bundles ir); sam_aspect_count := size (ir_aspects ir);
     sam_projection_count := size (ir_projections ir); sam_abi_count := size (ir_abi ir);
     sam_policy_count := size (ir_policies ir); sam_storage_schema_count := size (ir_storage_schema ir);
     sam_registry_schema_count := size (ir_registry_schema ir);
     sam_invariant_count := size (ir_invariants ir) |}.
Definition refreshed_obligations (artifact : AspectStdlibArtifactManifest)
    (obligations : list AspectProofObligation) : AspectProofObligationManifest :=
  {| pom_schema := ASPECT_STDLIB_PROOF_OBLIGATIONS_SCHEMA;
     pom_schema_version := ASPECT_STDLIB_PROOF_OBLIGATIONS_SCHEMA_VERSION;
     pom_module_id := sam_module_id artifact; pom_source_path := ASPECT_STDLIB_SOURCE_PATH;
     pom_artifact_path := ASPECT_STDLIB_ARTIFACT_PATH; pom_source_root := sam_source_root artifact;
     pom_ir_root := sam_ir_root artifact; pom_obligations := obligations |}.
(** [main], in the repository's root. *)
Definition refresh_main : RefreshM () :=
  let! source := read_to_string ASPECT_STDLIB_SOURCE_PATH in
  let! existing_artifact := read_manifest (T:=AspectStdlibArtifactManifest) ASPECT_STDLIB_ARTIFACT_PATH in
  let! existing_obligations := read_manifest (T:=AspectProofObligationManifest) ASPECT_STDLIB_PROOF_OBLIGATIONS_PATH in
  let? parsed := match parse_verify_module source with
    | Ok parsed => Ok parsed | Err error => Err (RefreshSource error) | Panic => Panic | OutOfFuel => OutOfFuel
    end in
  let '(canonical_source, ir, module_verified) := parsed in
  let artifact := refreshed_artifact (sam_module_id existing_artifact) canonical_source ir module_verified in
  let obligations := refreshed_obligations artifact (pom_obligations existing_obligations) in
  let? artifact_errors := from_void (validate_aspect_stdlib_artifact source artifact) in
  do? ensure (bool_decide (length artifact_errors = 0%nat)) (RefreshArtifact artifact_errors) in
  let obligation_errors := validate_aspect_proof_obligations obligations artifact in
  do? ensure (bool_decide (length obligation_errors = 0%nat)) (RefreshObligations obligation_errors) in
  do! write_pretty_json ASPECT_STDLIB_ARTIFACT_PATH artifact in
  do! write_pretty_json ASPECT_STDLIB_PROOF_OBLIGATIONS_PATH obligations in
  do! write_sha256sum (attestation_path ASPECT_STDLIB_SOURCE_PATH) ASPECT_STDLIB_SOURCE_PATH in
  do! write_sha256sum (attestation_path ASPECT_STDLIB_ARTIFACT_PATH) ASPECT_STDLIB_ARTIFACT_PATH in
  write_sha256sum (attestation_path ASPECT_STDLIB_PROOF_OBLIGATIONS_PATH) ASPECT_STDLIB_PROOF_OBLIGATIONS_PATH.
End refresh.

(** ** What is published *)
Section published.
Context `{Host}.
Lemma report_same {A E} `{EqDecision A} (x : A) (e : E) : report (bool_decide (x ≠ x)) e = [].
Proof. apply report_nil, bool_decide_eq_false. intros Hx. by apply Hx. Qed.
Lemma refreshed_valid module_id canonical ir module_verified source :
  parse_verify_module source = Ok (canonical, ir, module_verified) →
  validate_aspect_stdlib_artifact source (refreshed_artifact module_id canonical ir module_verified)
  = Ok (report (blank_text module_id) EmptyModuleId ++
        report (bool_decide (ir_bundles ir !! module_id = None)) (MissingBundle module_id)).
Proof.
  intros Hp. unfold validate_aspect_stdlib_artifact. rewrite Hp. f_equal.
  unfold validate_artifact_header, validate_artifact_module, push_root_mismatch, push_count_mismatch.
  cbn [refreshed_artifact sam_schema sam_schema_version sam_module_id sam_source_path sam_taxonomy_version
    sam_accepted_language sam_verifier_version sam_source_root sam_ir_root sam_abi_root sam_policy_root
    sam_storage_schema_root sam_registry_schema_root sam_invariant_root sam_bundle_count sam_aspect_count
    sam_projection_count sam_abi_count sam_policy_count sam_storage_schema_count sam_registry_schema_count
    sam_invariant_count].
  rewrite !report_same, !app_nil_r. done.
Qed.
(** The obligations by themselves: each is filled in and named once, and none
    that is required is missing. *)
Definition obligations_valid (obligations : list AspectProofObligation) : Prop :=
  let visited := foldl visit_obligation ([], ∅) obligations in
  visited.1 = [] ∧ Forall (λ required, required ∈ visited.2) REQUIRED_ASPECT_PROOF_OBLIGATION_IDS.
Lemma refreshed_obligations_valid artifact obligations :
  validate_aspect_proof_obligations (refreshed_obligations artifact obligations) artifact = [] ↔
  obligations_valid obligations.
Proof.
  unfold validate_aspect_proof_obligations, obligations_valid. cbv zeta.
  cbn [refreshed_obligations pom_schema pom_schema_version pom_module_id pom_source_path pom_artifact_path
    pom_source_root pom_ir_root pom_obligations].
  rewrite !report_same. cbn [app]. rewrite app_nil.
  assert (∀ l (seen : gset string),
    concat ((λ required, report (bool_decide (required ∉ seen)) (MissingRequiredObligation required)) <$> l) = [] ↔
    Forall (λ required, required ∈ seen) l) as Hreq; [|by rewrite Hreq].
  induction l as [|r l IH]; intros seen; [done|]. cbn [fmap list_fmap concat].
  rewrite app_nil, report_nil, bool_decide_eq_false, Forall_cons, IH.
  split; (intros [Hr Hl]; split; [|exact Hl]); [by apply dec_stable|by intros Hn].
Qed.
Context `{!Json AspectStdlibArtifactManifest, !Json AspectProofObligationManifest}.
Context `{!PrettyJson AspectStdlibArtifactManifest, !PrettyJson AspectProofObligationManifest}.
Abbreviation Repo := (gmap string (list byte)).
Definition checksum_line (path : string) (bytes : list byte) : list byte :=
  bytes_of_string (sha256_hex bytes +:+ "  " +:+ file_name path) ++ [x0a].
Definition republished (source artifact obligations : list byte) (files : Repo) : Repo :=
  <[attestation_path ASPECT_STDLIB_PROOF_OBLIGATIONS_PATH :=
      checksum_line ASPECT_STDLIB_PROOF_OBLIGATIONS_PATH obligations]>
  (<[attestation_path ASPECT_STDLIB_ARTIFACT_PATH := checksum_line ASPECT_STDLIB_ARTIFACT_PATH artifact]>
  (<[attestation_path ASPECT_STDLIB_SOURCE_PATH := checksum_line ASPECT_STDLIB_SOURCE_PATH source]>
  (<[ASPECT_STDLIB_PROOF_OBLIGATIONS_PATH := obligations]> (<[ASPECT_STDLIB_ARTIFACT_PATH := artifact]> files)))).
(** What a refresh computes from the files it reads. *)
Record computes (files : Repo) (bytes : list byte) (source : string) (artifact : AspectStdlibArtifactManifest)
    (obligations : AspectProofObligationManifest) (artifact_json obligations_json : list byte) : Prop := {
  cp_bytes : files !! ASPECT_STDLIB_SOURCE_PATH = Some bytes;
  cp_source : read_to_string ASPECT_STDLIB_SOURCE_PATH files = (Ok source, files);
  cp_module : ∃ existing canonical ir module_verified,
    read_manifest (T:=AspectStdlibArtifactManifest) ASPECT_STDLIB_ARTIFACT_PATH files = (Ok existing, files) ∧
    parse_verify_module source = Ok (canonical, ir, module_verified) ∧
    artifact = refreshed_artifact (sam_module_id existing) canonical ir module_verified;
  cp_obligations : ∃ existing,
    read_manifest (T:=AspectProofObligationManifest) ASPECT_STDLIB_PROOF_OBLIGATIONS_PATH files = (Ok existing, files) ∧
    obligations = refreshed_obligations artifact (pom_obligations existing);
  cp_artifact_valid : validate_aspect_stdlib_artifact source artifact = Ok [];
  cp_obligations_valid : validate_aspect_proof_obligations obligations artifact = [];
  cp_artifact_json : to_json_pretty artifact = Some artifact_json;
  cp_obligations_json : to_json_pretty obligations = Some obligations_json;
}.
Ltac paths_differ := let Hx := fresh in intros Hx; vm_compute in Hx; discriminate Hx.
Lemma reads_text path : reads (read_to_string path).
Proof. unfold read_to_string, read_file. reads_tac. Qed.
Lemma reads_manifest {T} `{Json T} path : reads (read_manifest (T:=T) path).
Proof. unfold read_manifest, read_to_string, read_file. reads_tac. Qed.
Lemma sum_run att target bytes (files : Repo) :
  files !! target = Some bytes →
  write_sha256sum att target files = (Ok (), <[att := checksum_line target bytes]> files).
Proof. intros Ht. unfold write_sha256sum, read_file, bind, gets, lift, modify. by rewrite Ht. Qed.
Lemma refresh_run files bytes source artifact obligations artifact_json obligations_json :
  computes files bytes source artifact obligations artifact_json obligations_json →
  refresh_main files = (Ok (), republished bytes (artifact_json ++ [x0a]) (obligations_json ++ [x0a]) files).
Proof.
  intros [Hb Hs (ea & canonical & ir & v & Ha & Hp & Ea) (eo & Ho & Eo) Hva Hvo Hja Hjo]. unfold refresh_main.
  rewrite (bind_runs _ _ _ _ _ Hs), (bind_runs _ _ _ _ _ Ha), (bind_runs _ _ _ _ _ Ho). unfold bind at 1, lift.
  rewrite Hp, <- Ea, <- Eo. unfold bind at 1, lift. rewrite Hva. cbn [from_void].
  rewrite Hvo. rewrite (bind_runs _ _ _ () files), (bind_runs _ _ _ () files) by reflexivity.
  unfold bind at 1, write_pretty_json at 1, bind at 1, lift, modify. rewrite Hja. cbn [ok_or].
  unfold bind at 1, write_pretty_json at 1, bind at 1, lift, modify. rewrite Hjo. cbn [ok_or].
  erewrite (bind_runs _ _ _ ()); [|apply sum_run; rewrite !lookup_insert_ne by paths_differ; exact Hb].
  erewrite (bind_runs _ _ _ ()); [|apply sum_run].
  2:{ do 2 rewrite lookup_insert_ne by paths_differ. apply lookup_insert_eq. }
  apply sum_run. do 2 rewrite lookup_insert_ne by paths_differ. apply lookup_insert_eq.
Qed.
Lemma refresh_inv files u files' :
  refresh_main files = (Ok u, files') →
  ∃ bytes source artifact obligations artifact_json obligations_json,
    computes files bytes source artifact obligations artifact_json obligations_json.
Proof.
  unfold refresh_main. intros (source & f1 & Hs & Hrun)%bind_Ok. pose proof (reads_text _ _ _ _ Hs) as <-.
  apply bind_Ok in Hrun as (ea & f2 & Ha & Hrun). pose proof (reads_manifest _ _ _ _ Ha) as <-.
  apply bind_Ok in Hrun as (eo & f3 & Ho & Hrun). pose proof (reads_manifest _ _ _ _ Ho) as <-.
  apply bind_Ok in Hrun as ([[canonical ir] v] & f & Hp & Hrun). unfold lift in Hp.
  destruct (parse_verify_module source) as [parsed| | |] eqn:Hparse; try done. injection Hp as -> <-.
  set (artifact := refreshed_artifact (sam_module_id ea) canonical ir v) in *.
  set (obligations := refreshed_obligations artifact (pom_obligations eo)) in *.
  apply bind_Ok in Hrun as (errors & f & He & Hrun). unfold lift in He.
  destruct (validate_aspect_stdlib_artifact source artifact) as [errors'| | |] eqn:Hva; try done.
  injection He as -> <-.
  apply bind_Ok in Hrun as ([] & f & He & Hrun). injection He as He%ensure_Ok <-.
  apply bool_decide_eq_true, nil_length_inv in He as ->.
  apply bind_Ok in Hrun as ([] & f & He & Hrun). injection He as He%ensure_Ok <-.
  apply bool_decide_eq_true, nil_length_inv in He.
  apply bind_Ok in Hrun as ([] & f4 & Hw & Hrun). apply bind_Ok in Hw as (aj & f5 & Hja & _). injection Hja as Hja%ok_or_Ok _.
  apply bind_Ok in Hrun as ([] & f6 & Hw & _). apply bind_Ok in Hw as (oj & f7 & Hjo & _). injection Hjo as Hjo%ok_or_Ok _.
  assert (∃ bytes, files !! ASPECT_STDLIB_SOURCE_PATH = Some bytes) as [bytes Hb].
  { unfold read_to_string, read_file, bind, gets, lift in Hs.
    destruct (files !! ASPECT_STDLIB_SOURCE_PATH) as [bytes|]; [by exists bytes|done]. }
  exists bytes, source, artifact, obligations, aj, oj. split; try done.
  - by exists ea, canonical, ir, v.
  - by exists eo.
Qed.
(** Indented text, with the line feed the tool adds, is UTF-8 and read back. *)
Definition read_back (T : Type) `{Json T, PrettyJson T} : Prop := ∀ (v : T) bytes,
  to_json_pretty v = Some bytes → utf8_valid 0 (bytes ++ [x0a]) = true ∧ from_json (bytes ++ [x0a]) = Some v.
Lemma bytes_of_text bytes : bytes_of_string (String.string_of_list_byte bytes) = bytes.
Proof. apply String.list_byte_of_string_of_list_byte. Qed.
Lemma read_published {T} `{Json T, PrettyJson T} path (v : T) json (files : Repo) :
  read_back T → to_json_pretty v = Some json → files !! path = Some (json ++ [x0a]) →
  read_manifest path files = (Ok v, files).
Proof.
  intros Hback [Hu Hj]%Hback Hf. unfold read_manifest, read_to_string, read_file, bind, gets, lift, ret. rewrite Hf.
  cbn [ok_or]. rewrite Hu. cbn [ensure]. by rewrite bytes_of_text, Hj.
Qed.
Definition released_paths : list string :=
  [ASPECT_STDLIB_SOURCE_PATH; ASPECT_STDLIB_ARTIFACT_PATH; ASPECT_STDLIB_PROOF_OBLIGATIONS_PATH].
Section files.
Context (source artifact obligations : list byte) (files : Repo).
Abbreviation files' := (republished source artifact obligations files).
Lemma republished_source : files' !! ASPECT_STDLIB_SOURCE_PATH = files !! ASPECT_STDLIB_SOURCE_PATH.
Proof. unfold republished. by rewrite !lookup_insert_ne by paths_differ. Qed.
Lemma republished_artifact : files' !! ASPECT_STDLIB_ARTIFACT_PATH = Some artifact.
Proof. unfold republished. do 4 rewrite lookup_insert_ne by paths_differ. apply lookup_insert_eq. Qed.
Lemma republished_obligations : files' !! ASPECT_STDLIB_PROOF_OBLIGATIONS_PATH = Some obligations.
Proof. unfold republished. do 3 rewrite lookup_insert_ne by paths_differ. apply lookup_insert_eq. Qed.
Lemma republished_sums :
  files' !! attestation_path ASPECT_STDLIB_SOURCE_PATH = Some (checksum_line ASPECT_STDLIB_SOURCE_PATH source) ∧
  files' !! attestation_path ASPECT_STDLIB_ARTIFACT_PATH = Some (checksum_line ASPECT_STDLIB_ARTIFACT_PATH artifact) ∧
  files' !! attestation_path ASPECT_STDLIB_PROOF_OBLIGATIONS_PATH
  = Some (checksum_line ASPECT_STDLIB_PROOF_OBLIGATIONS_PATH obligations).
Proof.
  unfold republished. split_and!; [do 2 rewrite lookup_insert_ne by paths_differ|rewrite lookup_insert_ne by paths_differ|];
    apply lookup_insert_eq.
Qed.
Lemma republished_twice : republished source artifact obligations files' = files'.
Proof.
  destruct republished_sums as (Hs & Ha & Ho). unfold republished at 1.
  rewrite (insert_id files' ASPECT_STDLIB_ARTIFACT_PATH) by apply republished_artifact.
  rewrite (insert_id files' ASPECT_STDLIB_PROOF_OBLIGATIONS_PATH) by apply republished_obligations.
  by rewrite (insert_id files' _ _ Hs), (insert_id files' _ _ Ha), (insert_id files' _ _ Ho).
Qed.
End files.

(** C40. A refresh of the standard library's release that reports success
    leaves a consistent release: the artifact and the obligations on disk are
    read back and pass the validators against the source on disk, each of the
    three files has an attestation of exactly its content, no other file is
    touched, and refreshing once more changes nothing. *)
Theorem refresh_publishes files files' :
  read_back AspectStdlibArtifactManifest → read_back AspectProofObligationManifest →
  refresh_main files = (Ok (), files') →
  ∃ source artifact obligations,
    read_to_string ASPECT_STDLIB_SOURCE_PATH files' = (Ok source, files') ∧
    read_manifest ASPECT_STDLIB_ARTIFACT_PATH files' = (Ok artifact, files') ∧
    read_manifest ASPECT_STDLIB_PROOF_OBLIGATIONS_PATH files' = (Ok obligations, files') ∧
    validate_aspect_stdlib_artifact source artifact = Ok [] ∧
    validate_aspect_proof_obligations obligations artifact = [] ∧
    (∀ path, path ∈ released_paths → ∃ bytes, files' !! path = Some bytes ∧
      files' !! attestation_path path = Some (checksum_line path bytes)) ∧
    (∀ path, path ∉ released_paths → path ∉ attestation_path <$> released_paths → files' !! path = files !! path) ∧
    refresh_main files' = (Ok (), files').
Proof.
  intros Hba Hbo Hrun. destruct (refresh_inv _ _ _ Hrun) as (bytes & source & artifact & obligations & aj & oj & Hc).
  rewrite (refresh_run _ _ _ _ _ _ _ Hc) in Hrun. injection Hrun as <-.
  set (a := aj ++ [x0a]). set (o := oj ++ [x0a]). set (files' := republished bytes a o files).
  pose proof (republished_source bytes a o files) as Hs. pose proof (republished_artifact bytes a o files) as Ha.
  pose proof (republished_obligations bytes a o files) as Ho. pose proof (republished_sums bytes a o files) as (Ss & Sa & So).
  fold files' in Hs, Ha, Ho, Ss, Sa, So. destruct Hc as [Hb Hsrc Hmod Hobl Hva Hvo Hja Hjo].
  pose proof (read_published _ _ _ _ Hba Hja Ha) as Hra. pose proof (read_published _ _ _ _ Hbo Hjo Ho) as Hro.
  assert (read_to_string ASPECT_STDLIB_SOURCE_PATH files' = (Ok source, files')) as Hsrc'.
  { revert Hsrc. unfold read_to_string, read_file, bind, gets, lift, ret. rewrite Hs, Hb. cbn [ok_or].
    destruct (utf8_valid 0 bytes); cbn [ensure]; [|done]. by intros [= ->]. }
  exists source, artifact, obligations. split_and!; try done.
  - unfold released_paths. intros path Hin.
    apply elem_of_cons in Hin as [->|Hin]; [exists bytes; split; [by rewrite Hs|exact Ss]|].
    apply elem_of_cons in Hin as [->|Hin]; [by exists a|]. apply elem_of_cons in Hin as [->|Hin]; [by exists o|].
    by apply elem_of_nil in Hin.
  - intros path Hp Hq. unfold files', republished. unfold released_paths in Hp, Hq. cbn [fmap list_fmap] in Hq.
    rewrite !lookup_insert_ne; [done|set_solver..].
  - rewrite (refresh_run files' bytes source artifact obligations aj oj).
    + unfold files', a, o. by rewrite republished_twice.
    + destruct Hmod as (ea & canonical & ir & v & _ & Hp & ->). destruct Hobl as (eo & _ & ->).
      split; try done; [by rewrite Hs|..].
      * by eexists _, canonical, ir, v.
      * by eexists.
Qed.
End published.
