(* ===== verification/Sample.v ===== *)
(** * Sample: a concrete host and genesis

    A host whose hash and serializer are constant, a genesis with one contract
    of each kind, and a few transactions: the concrete inputs at which the
    theorems with hypotheses are exercised. *)
From S2P Require Import Prelude Effects Merkle Types State Policies AspectRuntime Aspects.
From S2P Require Import AspectSource AspectLower AspectVerify.
From S2P Require Import Runtime Ledger Token Assets Bridge Factory Steps Exec Transactions.

Definition flat {T} : Serialize T := λ _, [].
Definition sample_validators : BridgeValidatorSet :=
  {| bvs_source_chain := "east"; bvs_validators := {["v1"; "v2"; "v3"]}; bvs_quorum := 2 |}.
Definition inbound_message : CrossShardMessage :=
  {| csm_source_chain := "east"; csm_source_contract := "lock"; csm_source_height := 7;
     csm_destination_chain := "west"; csm_destination_contract := "bridge";
     csm_message_id := "m1"; csm_recipient := "bob"; csm_asset := "usd"; csm_amount := 25 |}.
Definition zeros : list byte := replicate 32 x00.
Definition zero_root : string := hex_lower zeros.
Definition inbound_proof : CrossShardFinalityProof :=
  {| cfp_source_chain := "east"; cfp_source_height := 7; cfp_finalized_block_hash := "h7";
     cfp_outbox_root := zero_root; cfp_quorum := 2; cfp_signers := ["v1"; "v3"];
     cfp_message_proof := {| omp_message := inbound_message;
       omp_proof := {| mp_root := zero_root; mp_leaf_hash := zero_root; mp_index := 0;
                       mp_leaf_count := 1; mp_path := [] |} |} |}.
#[export] Instance sample_host : Host := {|
  host_sha256 := λ _, zeros;
  host_serde_json := {| json_transaction := flat; json_receipt := flat; json_event := flat;
    json_message := flat; json_storage_entry := flat; json_registry_entry := flat;
    json_policy_entry := flat; json_module_entry := flat; json_header := flat;
    json_nonces := flat; json_global := flat; json_ir := flat; json_abi := flat; json_policies := flat;
    json_storage_schema := flat; json_registry_schema := flat; json_invariants := flat; json_str2 := flat; json_str3 := flat;
    json_str3_u64 := flat; json_str4_u64 := flat; json_str5_u64x4 := flat;
    json_str3_u64x3 := flat; json_str9 := flat |};
  finality_proof_from_str := λ c, if bool_decide (c = "proof-m1") then Some inbound_proof else None;
|}.

Definition genesis_script : M () :=
  do! deploy_token "tok" "usd" [("alice", 100); ("bob", 50)] in
  do! deploy_token "tok2" "eth" [("alice", 40)] in
  do! deploy_amm_pool "pool" "usd" "eth" in
  do! deploy_oracle "orc" "eth" "feed" 10 in
  do! deploy_bridge_with_validator_set "bridge" "east" ["v1"; "v2"; "v3"] 2 in
  do! deploy_governance_with_timelock "gov" "tok" "admin" 2 in
  do! deploy_lending_vault "vault" "eth" "usd" "orc" 5000 10 in
  do! deploy_staking_with_rewards "stk" "usd" 3 0 in
  do! deploy_router "router" "tok" in
  do! deploy_factory "fac" in
  deploy_account_registry "acc".
Definition genesis : DeTTaState :=
  w_state (genesis_script {| w_state := state_new "west"; w_ctx := call_context_new "root" |}).2.

Definition sample_tx (hash sender : string) (nonce : N) (target : ContractId) (method : Method)
    (args : list Argument) : Transaction :=
  {| tx_chain_id := "west"; tx_tx_hash := hash; tx_sender := sender; tx_nonce := nonce;
     tx_valid_until_height := None; tx_target := target; tx_method := method; tx_args := args;
     tx_signature_ok := true; tx_budget := 1000 |}.
Definition pay (hash : string) (nonce amount : N) : Transaction :=
  sample_tx hash "alice" nonce "tok" Transfer [ArgPrincipal "bob"; ArgAsset "usd"; ArgAmount amount].

Example genesis_runs :
  (genesis_script {| w_state := state_new "west"; w_ctx := call_context_new "root" |}).1 = Ok ().
Proof. vm_compute. reflexivity. Qed.

(** ** An aspect asset that sends a cross-shard message of its own

    A verified module whose [ERC20-transfer] appends an outbox message with
    the id ["m9"]. *)
Definition courier_source : string := "
  (: Bool Type)
  (: Address Type)
  (: Amount Type)
  (aspect Notes)
  (action Notes note)
  (derived Notes note (= (note) (cross-shard-outbox-append! east vault m9 carol courier 1)))
  (bundle courier)
  (bundle-includes courier Notes)
  (projection courier ERC20-transfer (= (ERC20-transfer $to $amount) (note)))
  (method-abi courier ERC20-transfer (args (to Address) (amount Amount)) Bool)
  (method-policy courier ERC20-transfer TxSender (effects CrossShardOutboxAppend) (invariants))
".
Definition courier_ir : AspectModuleIr :=
  match parse_verify_module courier_source with
  | Ok (_, ir, _) => ir
  | _ => empty_ir ""
  end.
Example courier_verified :
  (let* v := parse_verify_module courier_source in Ok (keys (ir_projections v.1.2))) =
  Ok ["courier::ERC20-transfer"].
Proof. vm_compute. reflexivity. Qed.
Definition courier_module : AspectModuleRecord :=
  {| mod_module_id := "courier"; mod_module_hash := "courier-hash"; mod_taxonomy_version := "1";
     mod_source_root := "s"; mod_canonical_source := None; mod_ir_root := "i";
     mod_ir := Some courier_ir; mod_abi_root := "a"; mod_policy_root := "p";
     mod_storage_schema_root := "st"; mod_registry_schema_root := "r"; mod_invariant_root := "n" |}.
Definition courier_state : DeTTaState :=
  w_state (deploy_aspect_contract "courier" "courier-hash" "courier"
    {| w_state := set_aspect_modules {["courier-hash" := courier_module]} genesis;
       w_ctx := call_context_new "root" |}).2.
Definition courier_tx : Transaction :=
  sample_tx "q1" "alice" 0 "bridge" QueueBridgeMessage
    [ArgText "east"; ArgText "dst"; ArgText "m9"; ArgPrincipal "bob"; ArgAsset "courier"; ArgAmount 5].

(** ** The transfer method of the standard library

    From models/aspects/stdlib/minimal-transfer-token.metta. *)
Definition transfer_token_source : string := "
  ; Minimal taxonomy-aligned executable transfer token fixture.
  (: Address Type)
  (: Amount Type)
  (: Bool Type)
  (abstract-aspect BalanceAspect)
  (aspect StaticBalanceAspect)
  (aspect TransferableBalanceAspect)
  (aspect SelfTransferAspect)
  (extends StaticBalanceAspect BalanceAspect)
  (extends TransferableBalanceAspect BalanceAspect)
  (extends SelfTransferAspect TransferableBalanceAspect)
  (owns StaticBalanceAspect balanceOf (-> Address Amount))
  (provides TransferableBalanceAspect Balance-Transfer)
  (requires SelfTransferAspect Balance-Transfer)
  (action TransferableBalanceAspect transferBalance)
  (action SelfTransferAspect transferFromSelf)
  (derived TransferableBalanceAspect transferBalance
    (= (transferBalance $from $to $amount)
       (begin
         (require (>= (state-get balanceOf $from) $amount) INSUFFICIENT_BALANCE)
         (state-set! balanceOf $from
           (safe-sub (state-get balanceOf $from) $amount))
         (state-set! balanceOf $to
           (safe-add (state-get balanceOf $to) $amount))
         (emit! (Transfer $from $to $amount))
         True)))
  (derived SelfTransferAspect transferFromSelf
    (= (transferFromSelf $caller $to $amount)
       (transferBalance $caller $to $amount)))
  (bundle MinimalTransferToken)
  (bundle-includes MinimalTransferToken StaticBalanceAspect)
  (bundle-includes MinimalTransferToken TransferableBalanceAspect)
  (bundle-includes MinimalTransferToken SelfTransferAspect)
  (projection MinimalTransferToken ERC20-transfer
    (= (ERC20.transfer $to $amount)
       (transferFromSelf tx.sender $to $amount)))
  (method-abi MinimalTransferToken ERC20-transfer
    (args (to Address) (amount Amount))
    Bool)
  (method-policy MinimalTransferToken ERC20-transfer
    TxSender
    (effects ReadState WriteState EmitEvent)
    (invariants))
".
Definition transfer_token : string * AspectModuleIr * VerifiedAspectModule :=
  match parse_verify_module transfer_token_source with
  | Ok v => v
  | _ => ("", empty_ir "", {| vm_ir := empty_ir ""; vm_bundle_aspect_closures := ∅;
                             vm_roots := artifact_roots (empty_ir "") |})
  end.
Lemma transfer_token_verified :
  parse_verify_module transfer_token_source = Ok (transfer_token.1.1, transfer_token.1.2, transfer_token.2).
Proof. vm_compute. reflexivity. Qed.
Definition transfer_policy : MethodPolicyIr :=
  {| mpi_bundle := "MinimalTransferToken"; mpi_projection := "ERC20-transfer";
     mpi_authority := AuthTxSender; mpi_effects := {[FxReadState; FxWriteState; FxEmitEvent]};
     mpi_invariants := ∅; mpi_call_allowlist := ∅; mpi_read_allowlist := ∅ |}.
Definition transfer_report : AspectExecutionReport :=
  match execute_projection_with_contract_state transfer_token.1.2 100 "MinimalTransferToken"
    "ERC20-transfer" [VAtom "bob"; VAmount 4] sample_context
    (list_to_map [(("balanceOf", ["alice"]), VAmount 10)]) ∅ with
  | Ok report => report
  | _ => {| rep_trace := []; rep_return_value := VUnit; rep_steps_used := 0 |}
  end.

(** ** Running the sample *)
Definition world_of (s : DeTTaState) : world := {| w_state := s; w_ctx := call_context_new "root" |}.
Definition after (txs : list Transaction) (s : DeTTaState) : DeTTaState :=
  (apply_transactions txs s).2.
Definition receipts_of (txs : list Transaction) (s : DeTTaState) : list Receipt :=
  match (apply_transactions txs s).1 with Ok rs => rs | _ => [] end.
Lemma run_eq {S E A} (m : SE S E A) (s : S) (a : A) : (m s).1 = Ok a → m s = (Ok a, (m s).2).
Proof. destruct (m s); simpl; by intros ->. Qed.
Lemma after_eq txs s : apply_transactions txs s = (Ok (receipts_of txs s), after txs s).
Proof.
  unfold after, receipts_of. destruct txs as [|tx txs]; [done|].
  by destruct (apply_transactions_cons tx txs s) as (?&?&?&?&_&_&_&->).
Qed.

Definition provide : Transaction :=
  sample_tx "p1" "alice" 10 "pool" AddLiquidity [ArgAmount 50; ArgAmount 20].
Definition price (hash : string) (nonce value : N) : Transaction :=
  sample_tx hash "feed" nonce "orc" SubmitPrice [ArgAsset "eth"; ArgAmount value; ArgAmount 0].
Definition fund_vault : Transaction :=
  sample_tx "f1" "alice" 11 "tok" Transfer [ArgPrincipal "vault"; ArgAsset "usd"; ArgAmount 50].
Definition deposit : Transaction :=
  sample_tx "d1" "alice" 12 "vault" DepositCollateral [ArgAsset "eth"; ArgAmount 20].
Definition borrow_tx : Transaction :=
  sample_tx "b1" "alice" 13 "vault" Borrow [ArgAsset "usd"; ArgAmount 15].
Definition liquidate_tx : Transaction :=
  sample_tx "l1" "bob" 0 "vault" Liquidate [ArgPrincipal "alice"; ArgAsset "usd"; ArgAmount 15].
Definition redeem_tx : Transaction :=
  sample_tx "r1" "bob" 1 "bridge" RedeemBridgeMessage
    [ArgText "m1"; ArgPrincipal "bob"; ArgAsset "usd"; ArgAmount 25; ArgCertificate "proof-m1"].
Definition approve_tx : Transaction :=
  sample_tx "a1" "alice" 14 "tok" Approve [ArgPrincipal "bob"; ArgAsset "usd"; ArgAmount 40].
Definition transfer_from_tx : Transaction :=
  sample_tx "a2" "bob" 2 "tok" TransferFrom
    [ArgPrincipal "alice"; ArgPrincipal "carol"; ArgAsset "usd"; ArgAmount 15].
Definition permit_tx (hash : string) (nonce : N) : Transaction :=
  sample_tx hash "bob" nonce "tok" Permit
    [ArgPrincipal "alice"; ArgPrincipal "bob"; ArgAsset "usd"; ArgAmount 7;
     ArgCertificate "permit:west:tok:alice:bob:usd:7:n1"].
Definition schedule_tx : Transaction :=
  sample_tx "g1" "admin" 0 "gov" ScheduleUpgrade [ArgText "u1"; ArgText "code2"].
Definition upgrade_tx : Transaction := sample_tx "g2" "admin" 1 "gov" ExecuteUpgrade [ArgText "u1"].
Definition stake_tx : Transaction :=
  sample_tx "s1" "alice" 15 "stk" Stake [ArgAsset "usd"; ArgAmount 30].
Definition unbond_tx : Transaction :=
  sample_tx "s2" "alice" 16 "stk" RequestUnstake [ArgAsset "usd"; ArgAmount 20].
Definition withdraw_tx : Transaction :=
  sample_tx "s3" "alice" 17 "stk" CompleteUnstake [ArgAsset "usd"; ArgAmount 20].
Definition receipt_of (tx : Transaction) (s : DeTTaState) : Receipt :=
  match (apply_transaction tx s).1 with Ok r => r | _ => rejected_receipt s "" InvalidArguments end.
Definition after_one (tx : Transaction) (s : DeTTaState) : DeTTaState := (apply_transaction tx s).2.
Lemma after_one_eq tx s : apply_transaction tx s = (Ok (receipt_of tx s), after_one tx s).
Proof.
  unfold after_one, receipt_of. by destruct (apply_transaction_applied tx s) as (? & ? & -> & _).
Qed.
Lemma deployed s c : bool_decide (is_Some (contracts s !! c)) = true → ∃ r, contracts s !! c = Some r.
Proof. intros [r Hr]%bool_decide_eq_true. by exists r. Qed.
