(* ===== verification/Witnesses.v ===== *)
(** * Witnesses: the theorems at concrete inputs

    For every theorem with hypotheses, the sample genesis of [Sample] and a
    few transactions give inputs at which the hypotheses hold. *)
From S2P Require Import AspectSource AspectLower AspectVerify AspectWellFormed AspectSound.
From S2P Require Import Prelude Effects Merkle Types State Policies AspectRuntime Aspects.
From S2P Require Import Runtime Ledger Token Assets Amm Oracle Bridge Governance Lending.
From S2P Require Import Staking Factory Steps Exec Transactions Mempool Block Consensus Proofs.
From S2P Require Import Sample.

(** ** Transactions *)
Lemma genesis_ledgers : ledgers_ok genesis.
Proof. apply ledgers_check. vm_compute. reflexivity. Qed.
Definition session : list Transaction :=
  [price "o1" 0 2; fund_vault; deposit; borrow_tx; approve_tx; transfer_from_tx;
   stake_tx; redeem_tx].

Lemma transactions_keep_ledgers_witness :
  ledgers_ok genesis ∧ ledgers_ok (after session genesis).
Proof.
  split; [exact genesis_ledgers|].
  exact (transactions_keep_ledgers session genesis (receipts_of session genesis)
    (after session genesis) (after_eq session genesis) genesis_ledgers).
Defined.

Definition overdraw : Transaction := pay "t9" 0 1000.
Lemma transaction_atomic_witness :
  rc_status (receipt_of overdraw genesis) = Reverted ∧
  after_one overdraw genesis = set_used_nonces ({[("alice", 0)]} ∪ used_nonces genesis) genesis.
Proof.
  assert (rc_status (receipt_of overdraw genesis) = Reverted) as Hst by (vm_compute; reflexivity).
  destruct (transaction_atomic overdraw genesis _ _ (after_one_eq overdraw genesis))
    as [[Hrej _]|[_ Hs]]; [by rewrite Hst|congruence|]. exact (conj Hst Hs).
Defined.

Definition replayed : list Transaction := [pay "t1" 0 30; pay "t2" 0 20].
Lemma no_nonce_replay_witness :
  rc_status <$> receipts_of replayed genesis = [Committed; Rejected] ∧
  ∀ r2, receipts_of replayed genesis !! 1%nat = Some r2 → rc_status r2 = Rejected.
Proof.
  split; [vm_compute; reflexivity|]. intros r2 Hr2.
  destruct (receipts_of replayed genesis !! 0%nat) as [r1|] eqn:Hr1; [|by vm_compute in Hr1].
  refine (no_nonce_replay replayed genesis _ _ 0 1 (pay "t1" 0 30) (pay "t2" 0 20) r1 r2
    (after_eq replayed genesis) _ _ _ _ _ Hr1 Hr2 _); try reflexivity; [lia|].
  assert (rc_status <$> receipts_of replayed genesis !! 0%nat = Some Committed) as Hst
    by (vm_compute; reflexivity).
  rewrite Hr1 in Hst. by injection Hst as ->.
Defined.

Lemma consumed_message_stays_witness :
  uint_at (after session (after_one redeem_tx genesis)) (bridge_message_consumed_key "bridge" "m1") = 1.
Proof.
  assert (storage (after_one redeem_tx genesis) !! bridge_message_consumed_key "bridge" "m1"
    = Some (UInt 1)) as Hc by (vm_compute; reflexivity).
  unfold uint_at. by rewrite (consumed_message_stays session (after_one redeem_tx genesis) _ _
    "bridge" "m1" (after_eq _ _) Hc).
Defined.

Lemma transactions_append_only_witness :
  length (events genesis) = 0%nat ∧ length (events (after session genesis)) = 8%nat ∧
  events genesis `prefix_of` events (after session genesis).
Proof.
  split; [vm_compute; reflexivity|]. split; [vm_compute; reflexivity|].
  exact (proj1 (transactions_append_only session genesis _ _ (after_eq session genesis))).
Defined.

Lemma transactions_keep_grants_witness :
  allowances_within genesis ∧ account_signer_keys_canonical (after session genesis) = true.
Proof.
  assert (allowances_within genesis) as Ha
    by (apply allowances_within_iff, (bool_decide_unpack _); vm_compute; exact I).
  split; [exact Ha|].
  refine (proj2 (transactions_keep_grants session genesis _ _ (after_eq session genesis) Ha _)).
  vm_compute. reflexivity.
Defined.

Definition due : DeTTaState := set_height 2 (after_one schedule_tx genesis).
Lemma transaction_changes_code_witness :
  code_hash_of (after_one upgrade_tx due) "tok" = Some "code2" ∧
  ∃ id, upgraded_by due (after_one upgrade_tx due) "tok" id.
Proof.
  assert (code_hash_of (after_one upgrade_tx due) "tok" = Some "code2") as Hnew by (vm_compute; reflexivity).
  split; [exact Hnew|].
  destruct (deployed due "tok") as [record Hc]; [vm_compute; reflexivity|].
  refine (transaction_changes_code upgrade_tx due _ _ "tok" record (after_one_eq upgrade_tx due) Hc _).
  rewrite Hnew. by vm_compute.
Defined.

(** The staking contract is active while another call runs. *)
Definition busy : world :=
  {| w_state := after [stake_tx] genesis;
     w_ctx := {| cc_tx_sender := "alice"; cc_stack := [];
                 cc_active_nonreentrant_contracts := {["stk"]} |} |}.
Lemma call_isolated_witness :
  storage (w_state (execute_call 4 unbond_tx "alice" busy).2) !! TotalStaked "stk" "usd"
  = Some (UInt 30).
Proof.
  destruct (deployed (w_state busy) "stk") as [record Hc]; [vm_compute; reflexivity|].
  assert (owner_contract (TotalStaked "stk" "usd") ∈ cc_active_nonreentrant_contracts (w_ctx busy))
    as Hin by (apply (bool_decide_unpack _); vm_compute; exact I).
  destruct (call_isolated 4 unbond_tx "alice" busy (TotalStaked "stk" "usd") record Hin Hc eq_refl)
    as [_ Hs]. rewrite Hs. vm_compute. reflexivity.
Defined.

(** ** Blocks, nodes and the pool *)
Definition sample_txs : list Transaction := [pay "t1" 0 30; approve_tx].
Lemma sample_units : block_resource_units sample_txs ≤ DEFAULT_BLOCK_RESOURCE_LIMIT.
Proof. apply N.leb_le. vm_compute. reflexivity. Qed.
Lemma built_block_applies_example :
  ∃ b s', build_block genesis 1 sample_txs 1000 "v1" "cert" = Ok (b, s') ∧
    apply_block b genesis = (Ok (), s').
Proof. exact (built_block_applies genesis 1 sample_txs 1000 "v1" "cert" sample_units). Defined.

Definition sample_block : Block :=
  match build_block genesis 1 sample_txs 1000 "v1" "cert" with
  | Ok (b, _) => b
  | _ => {| blk_header := {| hdr_chain_id := ""; hdr_height := 0; hdr_previous_block_hash := "";
      hdr_tx_root := ""; hdr_receipt_root := ""; hdr_global_state_root := "";
      hdr_storage_root := ""; hdr_registry_root := ""; hdr_policy_root := "";
      hdr_event_root := ""; hdr_nonce_root := ""; hdr_outbox_root := ""; hdr_timestamp := 0;
      hdr_proposer := ""; hdr_consensus_certificate := "" |};
      blk_transactions := []; blk_receipts := [] |}
  end.
Definition next_state : DeTTaState := (apply_block sample_block genesis).2.
Lemma sample_block_applies : apply_block sample_block genesis = (Ok (), next_state).
Proof. unfold next_state. apply (run_eq (apply_block sample_block)). vm_compute. reflexivity. Qed.

Lemma accepted_block_commits_witness :
  height next_state = 1 ∧ balance next_state "tok" "bob" "usd" = 80.
Proof.
  destruct (accepted_block_commits sample_block genesis () next_state sample_block_applies)
    as (_ & _ & _ & _ & Hh & _). rewrite Hh. split; vm_compute; reflexivity.
Defined.
Lemma chain_keeps_ledgers_witness : ledgers_ok next_state ∧ used_nonces genesis ⊆ used_nonces next_state.
Proof.
  exact (chain_keeps_ledgers genesis [sample_block] next_state
    (chain_cons _ _ _ _ _ sample_block_applies (chain_nil next_state)) genesis_ledgers).
Defined.

Definition sample_pool : Mempool := (forM (submit genesis) sample_txs mempool_new).2.
Definition sample_node (id : string) : ValidatorNode := validator_node id genesis sample_pool.
Lemma sample_pool_ok : mempool_ok sample_pool.
Proof.
  assert ((forM (submit genesis) sample_txs mempool_new).1 = Ok ()) as Hrun%run_eq by (vm_compute; reflexivity).
  refine (wp_Ok _ (λ _ m, mempool_ok m) _ _ _ _ Hrun). apply (wp_forM _ mempool_ok).
  - intros tx m _ Hm. unfold wp. destruct (submit genesis tx m) as [[u| | |] m'] eqn:Hs; [|done..].
    by eapply submit_keeps_ok.
  - split; simpl; [done|constructor|lia|unfold sender_pending; simpl; lia].
Qed.
Lemma drain_selects_witness :
  length (drain_ordered_with_resource_limit 40 sample_pool).1 = 1%nat ∧
  mempool_ok (drain_ordered_with_resource_limit 40 sample_pool).2.
Proof.
  split; [vm_compute; reflexivity|].
  pose proof (drain_selects 40 sample_pool sample_pool_ok) as Hd.
  destruct (drain_ordered_with_resource_limit 40 sample_pool) as [sel m'].
  exact (proj2 (proj2 (proj2 Hd))).
Defined.
Lemma admitted_executes_witness :
  rc_status (receipt_of (pay "t1" 0 30) (set_height 1 genesis)) ≠ Rejected ∧
  rc_resource_units_used (receipt_of (pay "t1" 0 30) (set_height 1 genesis)) = 36.
Proof.
  assert (submit genesis (pay "t1" 0 30) mempool_new
    = (Ok (), (submit genesis (pay "t1" 0 30) mempool_new).2)) as Hs by (apply run_eq; vm_compute; reflexivity).
  destruct (admitted_executes genesis (pay "t1" 0 30) mempool_new _ 1 _ _ Hs I
    (after_one_eq (pay "t1" 0 30) (set_height 1 genesis))) as (Hr & Hu & _).
  split; [exact Hr|]. rewrite Hu. vm_compute. reflexivity.
Defined.

Definition proposal : outcome Empty_set Block * ValidatorNode :=
  propose_pending_block 1 1000 (sample_node "v1").
Definition proposed : Block := match proposal.1 with Ok b => b | _ => sample_block end.
Lemma proposal_accepted_witness :
  ∃ validator', validate_and_apply proposed (sample_node "v2") = (Ok (), validator') ∧
    vn_blocks validator' !! 1 = Some proposed.
Proof.
  assert (propose_pending_block 1 1000 (sample_node "v1") = (Ok proposed, proposal.2)) as Hp
    by (unfold proposal; apply (run_eq (propose_pending_block 1 1000)); vm_compute; reflexivity).
  destruct (proposal_accepted (sample_node "v1") 1 1000 proposed _ (sample_node "v2") Hp)
    as (v' & Hv & _ & Hb & _); [apply N.leb_le; vm_compute; reflexivity|reflexivity|reflexivity|].
  exists v'. exact (conj Hv Hb).
Defined.

(** ** Consensus *)
Definition four : gset string := {["v1"; "v2"; "v3"; "v4"]}.
Definition cert_a : FinalityCertificate :=
  {| fc_height := 5; fc_block_hash := "h"; fc_signers := ["v1"; "v2"; "v3"] |}.
Definition cert_b : FinalityCertificate :=
  {| fc_height := 5; fc_block_hash := "h"; fc_signers := ["v2"; "v3"; "v4"] |}.
Lemma finality_safety_witness : fc_block_hash cert_a = fc_block_hash cert_b.
Proof.
  apply (finality_safety cert_a cert_b 5 (fc_block_hash cert_a) (fc_block_hash cert_b) four {["v4"]});
    [vm_compute; reflexivity|vm_compute; reflexivity| |vm_compute; lia].
  intros v _ _ Hne. by destruct Hne.
Defined.

Definition sample_cluster : ConsensusCluster :=
  {| cl_validators := {["v1" := sample_node "v1"; "v2" := sample_node "v2"; "v3" := sample_node "v3"]};
     cl_slashing_records := {["v3" := {| sr_validator_id := "v3"; sr_slashed_at_height := 1;
       sr_evidence := evidence_of "v3" 1 "x" "y" |}]};
     cl_applied_validator_set_updates := ∅ |}.
Lemma sample_cluster_ok : cluster_ok sample_cluster.
Proof. split; apply (bool_decide_unpack _); vm_compute; exact I. Qed.
Definition sample_votes : list Vote :=
  [{| vote_validator_id := "v1"; vote_height := 5; vote_block_hash := "h" |};
   {| vote_validator_id := "v2"; vote_height := 5; vote_block_hash := "h" |}].
Lemma certificate_verifies_witness :
  cluster_verify_finality_certificate sample_cluster
    {| fc_height := 5; fc_block_hash := "h"; fc_signers := ["v1"; "v2"] |} 5 "h" = Ok ().
Proof.
  refine (proj1 (proj2 (certificate_verifies sample_cluster 5 "h" sample_votes _
    (certificate_from_active_votes 5 "h" sample_votes sample_cluster).2 sample_cluster_ok _ _ _))).
  - apply (bool_decide_unpack _); vm_compute; exact I.
  - intros v Hv. apply (bool_decide_unpack _). apply elem_of_cons in Hv as [->|Hv]; [vm_compute; exact I|].
    apply list_elem_of_singleton in Hv as ->. vm_compute. exact I.
  - apply (run_eq (certificate_from_active_votes 5 "h" sample_votes)). vm_compute. reflexivity.
Defined.
Lemma lookup_pick {A} (i j : string) (x y : A) m :
  bool_decide (i ≠ j) → <[i:=x]> (<[j:=y]> m : gmap string A) !! j = Some y.
Proof. intros Hne%bool_decide_unpack. by rewrite lookup_insert_ne, lookup_insert_eq. Qed.
Definition finalized : outcome ConsensusError FinalityCertificate * ConsensusCluster :=
  finalize_block sample_block sample_cluster.
Lemma finalized_by_all_witness :
  ∃ node', cl_validators finalized.2 !! "v2" = Some node' ∧
    apply_block sample_block genesis = (Ok (), vn_state node').
Proof.
  assert (finalize_block sample_block sample_cluster = (Ok {| fc_height := 1;
    fc_block_hash := block_hash sample_block; fc_signers := ["v1"; "v2"] |}, finalized.2)) as Hf
    by (unfold finalized; apply (run_eq (finalize_block sample_block)); vm_compute; reflexivity).
  destruct (finalized_by_all sample_block sample_cluster _ _ Hf) as (Hall & _).
  destruct (Hall "v2" (sample_node "v2")) as (node' & Hn & Ha);
    [apply (bool_decide_unpack _); vm_compute; exact I|exact (lookup_pick "v1" "v2" _ _ _ I)|].
  exists node'. exact (conj Hn Ha).
Defined.

Lemma sample_cluster_nodes id node :
  id ∈ active_set sample_cluster → cl_validators sample_cluster !! id = Some node →
  vn_validator_id node = id ∧ vn_state node = genesis ∧
  block_resource_units sample_txs ≤ vn_block_resource_limit node.
Proof.
  intros _ Hn. unfold sample_cluster in Hn. cbn [cl_validators] in Hn.
  repeat (apply lookup_insert_Some in Hn as [[<- <-]|[_ Hn]]; [by split_and!; [..|apply sample_units]|]).
  apply lookup_singleton_Some in Hn as [<- <-]. by split_and!; [..|apply sample_units].
Qed.
Lemma proposed_block_finalized_witness :
  ∃ b c', cluster_propose_block sample_cluster "v1" 1 sample_txs 1000 = Ok b ∧
    finalize_block b sample_cluster = (Ok {| fc_height := 1; fc_block_hash := block_hash b;
      fc_signers := ["v1"; "v2"] |}, c').
Proof.
  destruct (proposed_block_finalized sample_cluster genesis "v1" sample_txs 1000 sample_cluster_ok)
    as (b & s' & cert & c' & Hp & _ & _ & _ & _ & _ & Hf & Hc & _).
  - apply (bool_decide_unpack _); vm_compute; exact I.
  - exact sample_cluster_nodes.
  - exact sample_units.
  - exists b, c'. split; [exact Hp|]. rewrite Hf, Hc. reflexivity.
Defined.

(** ** Contracts *)
Lemma transfer_outcome_witness :
  (transfer (pay "t1" 0 30) "alice" (world_of genesis)).1 = Ok RetUnit ∧
  (transfer (pay "t1" 0 30) "bob" (world_of genesis)).1 = Err InvariantViolation.
Proof.
  assert (∀ asset, ledger_ok (w_state (world_of genesis)) (TotalSupply "tok" asset)) as Hok
    by (intros asset; apply genesis_ledgers; [reflexivity|set_solver]).
  rewrite !transfer_outcome by exact Hok. split; vm_compute; reflexivity.
Defined.
Definition approved : DeTTaState := after_one approve_tx genesis.
Lemma transfer_from_spends_allowance_witness :
  15 ≤ balance approved "tok" "alice" "usd".
Proof.
  destruct (transfer_from_spends_allowance transfer_from_tx "bob" (world_of approved) RetUnit
    (transfer_from transfer_from_tx "bob" (world_of approved)).2 "alice" "carol" "usd" 15)
    as (g & _ & _ & _ & _ & _ & _ & Hle & _).
  - reflexivity.
  - apply (run_eq (transfer_from transfer_from_tx "bob")). vm_compute. reflexivity.
  - exact Hle.
Defined.
Lemma permit_single_use_witness :
  let w' := (permit (permit_tx "x" 5) (world_of genesis)).2 in
  permit (permit_tx "y" 6) w' = (Err CertificateReplay, w').
Proof.
  refine (permit_single_use (permit_tx "x" 5) (world_of genesis) RetUnit _ (permit_tx "y" 6) _
    "alice" "bob" "usd" 7 "permit:west:tok:alice:bob:usd:7:n1" "n1"
    "alice" "bob" "usd" 7 "permit:west:tok:alice:bob:usd:7:n1" _ _ _ _ _ _).
  - reflexivity.
  - apply (run_eq (permit (permit_tx "x" 5))). vm_compute. reflexivity.
  - vm_compute. reflexivity.
  - reflexivity.
  - vm_compute. reflexivity.
  - done.
Defined.
Definition forged : Transaction :=
  sample_tx "z" "mallory" 0 "tok" Permit
    [ArgPrincipal "alice"; ArgPrincipal "mallory"; ArgAsset "usd"; ArgAmount 100;
     ArgCertificate "permit:west:tok:alice:mallory:usd:100:k"].
Lemma permit_certificate_unsigned_witness :
  registry (w_state (permit forged (world_of genesis)).2) !! Allowance "tok" "alice" "mallory" "usd"
  = Some (grant_allowance "alice" "mallory" 100).
Proof.
  refine (proj2 (permit_certificate_unsigned forged (world_of genesis) "alice" "mallory" "usd" 100 "k" _ _ _)).
  - apply (bool_decide_unpack _). vm_compute. exact I.
  - apply (bool_decide_unpack _). vm_compute. exact I.
  - vm_compute. reflexivity.
Defined.
Definition traded : Transaction :=
  sample_tx "w1" "bob" 0 "pool" Swap [ArgAsset "usd"; ArgAmount 25; ArgAmount 1].
Definition pooled : world := world_of (after_one provide genesis).
Lemma swap_constant_product_witness :
  ∃ out, reserve (w_state (swap (execute_call 4) traded "bob" "usd" "eth" 30 pooled).2) "pool" "eth"
    = reserve (w_state pooled) "pool" "eth" - out ∧ 0 < out.
Proof.
  destruct (swap_constant_product (execute_call 4) traded "bob" "usd" "eth" 30 pooled (RetUInt 6)
    (swap (execute_call 4) traded "bob" "usd" "eth" 30 pooled).2 "usd" 25 1)
    as (output & out & li & lo & [[_ ->]|[Hdir _]] & _ & Hpos & _ & _ & Hout & _).
  - done.
  - reflexivity.
  - apply (run_eq (swap (execute_call 4) traded "bob" "usd" "eth" 30)). vm_compute. reflexivity.
  - exists out. exact (conj Hout Hpos).
  - discriminate Hdir.
Defined.

Definition vault_config : LendingConfig :=
  {| lc_collateral_asset := "eth"; lc_debt_asset := "usd"; lc_oracle_contract := "orc";
     lc_ltv_bps := 5000; lc_max_oracle_age := 10; lc_interest_bps_per_block := 0;
     lc_liquidation_threshold_bps := 5000 |}.
Definition funded : world := world_of (after [price "o1" 0 2; fund_vault; deposit] genesis).
Lemma borrow_within_limit_witness :
  let w' := (borrow (execute_call 4) borrow_tx "alice" vault_config funded).2 in
  debt (w_state w') "vault" "alice" "usd" = 15 ∧
  debt (w_state w') "vault" "alice" "usd" ≤ debt_limit (w_state funded) vault_config "vault" "alice".
Proof.
  split; [vm_compute; reflexivity|].
  refine (proj2 (proj2 (proj2 (proj2 (proj2 (borrow_within_limit (execute_call 4) borrow_tx "alice"
    funded RetUnit (borrow (execute_call 4) borrow_tx "alice" vault_config funded).2 vault_config
    "usd" 15 _ _)))))).
  - reflexivity.
  - apply (run_eq (borrow (execute_call 4) borrow_tx "alice" vault_config)). vm_compute. reflexivity.
Defined.
Definition underwater : world :=
  world_of (after [borrow_tx; price "o2" 1 1] (w_state funded)).
Lemma deployed_as s c k :
  (λ r, (cr_kind r, cr_contract_id r)) <$> contracts s !! c = Some (k, c) →
  ∃ r, contracts s !! c = Some r ∧ cr_kind r = k ∧ cr_contract_id r = c.
Proof. destruct (contracts s !! c) as [r|]; simpl; [intros [= <- <-]; by exists r|done]. Qed.
Lemma liquidate_restores_limits_witness :
  let w' := (liquidate (execute_call 4) liquidate_tx "bob" vault_config underwater).2 in
  debt (w_state w') "vault" "alice" "usd" ≤ debt_limit (w_state w') vault_config "vault" "alice".
Proof.
  cbv zeta. destruct (deployed_as (w_state (liquidate (execute_call 4) liquidate_tx "bob" vault_config underwater).2)
    "vault" (config_kind vault_config)) as (record & Hc & Hk & Hid); [vm_compute; reflexivity|].
  refine (proj2 (proj2 (proj2 (proj2 (proj2 (liquidate_restores_limits (execute_call 4) liquidate_tx
    "bob" underwater (RetUInt 15) (liquidate (execute_call 4) liquidate_tx "bob" vault_config underwater).2
    vault_config record "alice" "usd" 15 eq_refl Hc Hk Hid _))))) "alice").
  apply (run_eq (liquidate (execute_call 4) liquidate_tx "bob" vault_config)). vm_compute. reflexivity.
Defined.
Lemma redeem_mints_exactly_witness :
  uint_at (w_state (redeem_bridge_message redeem_tx "bob" "east" (world_of genesis)).2)
    (BridgeMessageConsumed "bridge" "m1") = 1.
Proof.
  destruct (redeem_mints_exactly redeem_tx "bob" (world_of genesis) RetUnit
    (redeem_bridge_message redeem_tx "bob" "east" (world_of genesis)).2 "east" "m1" "bob" "usd" 25
    "proof-m1") as (vs & c & _ & _ & _ & _ & Hs).
  - reflexivity.
  - apply (run_eq (redeem_bridge_message redeem_tx "bob" "east")). vm_compute. reflexivity.
  - unfold uint_at. rewrite Hs. change (tx_target redeem_tx) with "bridge".
    by rewrite lookup_insert_eq.
Defined.
Lemma finality_needs_quorum_witness :
  NoDup (cfp_signers inbound_proof) ∧ (2 ≤ length (cfp_signers inbound_proof))%nat.
Proof.
  destruct (finality_needs_quorum sample_validators inbound_proof) as (Hd & Hq & _);
    [vm_compute; reflexivity|]. exact (conj Hd Hq).
Defined.
Lemma lookup_some {A} (x : option A) (P : A → bool) :
  match x with Some a => P a | None => false end = true → ∃ a, x = Some a ∧ P a = true.
Proof. destruct x as [a|]; [|done]. by exists a. Qed.
Lemma execute_upgrade_outcome_witness :
  (execute_upgrade upgrade_tx "admin" "tok" (world_of (after_one schedule_tx genesis))).1
    = Err TimelockNotReady ∧
  (execute_upgrade upgrade_tx "admin" "tok" (world_of due)).1 = Ok RetUnit.
Proof.
  split; [vm_compute; reflexivity|].
  destruct (deployed due "tok") as [r Hr]; [vm_compute; reflexivity|].
  destruct (lookup_some (scheduled_upgrades due !! "u1") (λ u,
    bool_decide (su_governance_contract u = "gov" ∧ su_target_contract u = "tok" ∧
      su_executed u = false ∧ su_execute_after_height u = 2))) as (u & Hu & Hb); [vm_compute; reflexivity|].
  apply bool_decide_eq_true in Hb as (Hg & Ht & He & Hh).
  assert (live_admin due "gov" "admin") as Hadmin.
  { destruct (lookup_some (registry due !! GovernanceAdmin "gov" "admin") (λ g,
      bool_decide (g_active g = true ∧ g_revoked g = false ∧ g_subject g = "admin" ∧
        RightGovernanceAdmin ∈ g_rights g))) as (g & Hl & Hp); [vm_compute; reflexivity|].
    apply bool_decide_eq_true in Hp. exists g. exact (conj Hl Hp). }
  rewrite (execute_upgrade_outcome upgrade_tx "admin" (world_of due) "tok" "u1" u r eq_refl Hadmin Hu Hg Ht Hr).
  rewrite He, Hh. vm_compute. reflexivity.
Defined.
Definition staked : world := world_of (after_one stake_tx genesis).
Lemma request_unstake_moves_witness :
  stake_balance (w_state (request_unstake unbond_tx "alice" "usd" 0 3 0 staked).2) "stk" "alice" "usd"
  = stake_balance (w_state staked) "stk" "alice" "usd" - 20.
Proof.
  destruct (request_unstake_moves unbond_tx "alice" staked RetUnit
    (request_unstake unbond_tx "alice" "usd" 0 3 0 staked).2 "usd" 0 3 0 "usd" 20)
    as (? & ? & _ & _ & _ & _ & Hs & _).
  - reflexivity.
  - apply (run_eq (request_unstake unbond_tx "alice" "usd" 0 3 0)). vm_compute. reflexivity.
  - exact Hs.
Defined.
Definition unlocked : world := world_of (set_height 3 (after [stake_tx; unbond_tx] genesis)).
Lemma complete_unstake_after_lock_witness :
  20 ≤ pending_unbond (w_state unlocked) "stk" "alice" "usd" ∧
  ledger_ok (w_state (complete_unstake (execute_call 4) withdraw_tx "alice" "usd" unlocked).2)
    (TotalPendingUnbond "stk" "usd").
Proof.
  destruct (complete_unstake_after_lock (execute_call 4) withdraw_tx "alice" unlocked RetUnit
    (complete_unstake (execute_call 4) withdraw_tx "alice" "usd" unlocked).2 "usd" "usd" 20)
    as (_ & _ & _ & Hp & Hl).
  - reflexivity.
  - apply (run_eq (complete_unstake (execute_call 4) withdraw_tx "alice" "usd")). vm_compute. reflexivity.
  - exact (conj Hp Hl).
Defined.
Lemma submit_price_authorized_witness :
  live_updater (w_state (world_of genesis)) "orc" "feed" ∧ height (w_state (world_of genesis)) ≤ 0 + 10.
Proof.
  destruct (submit_price_authorized (price "o1" 0 2) "feed" (world_of genesis) RetUnit
    (submit_price (price "o1" 0 2) "feed" "eth" 10 (world_of genesis)).2 "eth" 10 "eth" 2 0)
    as (_ & _ & Hh & Hl & _).
  - reflexivity.
  - apply (run_eq (submit_price (price "o1" 0 2) "feed" "eth" 10)). vm_compute. reflexivity.
  - exact (conj Hl Hh).
Defined.
Lemma non_inclusion_forgeable_witness :
  ∃ p, non_inclusion_verify {| nip_key := Balance "tok" "aaron" "usd"; nip_root := storage_root genesis;
    nip_leaf_count := 1; nip_predecessor := None; nip_successor := Some (relocate p 0 1) |} = true.
Proof.
  assert (storage genesis !! Balance "tok" "alice" "usd" = Some (UInt 100)) as Hs by (vm_compute; reflexivity).
  destruct (non_inclusion_forgeable genesis _ _ (Balance "tok" "aaron" "usd") Hs) as (p & _ & Hv);
    [vm_compute; reflexivity|]. exists p. exact Hv.
Defined.

(** ** A queued message can repeat an outbound identifier

    The uniqueness check of [queue_bridge_message] comes before the asset is
    moved, and moving an aspect asset runs code that may append a message of
    its own. *)
Theorem outbox_ids_repeat :
  outbound_messages_are_unique courier_state = true ∧
  rc_status (receipt_of courier_tx courier_state) = Committed ∧
  outbound_messages_are_unique (after_one courier_tx courier_state) = false.
Proof. split_and!; vm_compute; reflexivity. Qed.

(** ** Verified aspect modules *)
Lemma verified_well_formed_witness :
  verify_module transfer_token.1.2 = Ok transfer_token.2 ∧
  well_formed transfer_token.1.2 (vm_bundle_aspect_closures transfer_token.2).
Proof.
  assert (verify_module transfer_token.1.2 = Ok transfer_token.2) as Hv by (vm_compute; reflexivity).
  exact (conj Hv (proj2 (verified_well_formed _ _ Hv))).
Defined.
Lemma verified_lowered source canonical ir vm :
  parse_verify_module source = Ok (canonical, ir, vm) → ∃ ast, lower_to_ir ast = Ok ir.
Proof.
  unfold parse_verify_module.
  intros (ast & _ & (ir' & Hl & (vm' & _ & [= _ -> _])%outcome_bind_Ok)%outcome_bind_Ok)%outcome_bind_Ok. eauto.
Qed.
Lemma call_graph_acyclic_witness :
  is_Some (ir_actions transfer_token.1.2 !! "SelfTransferAspect::transferFromSelf") ∧
  ¬ tc (action_calls transfer_token.1.2) "SelfTransferAspect::transferFromSelf"
      "SelfTransferAspect::transferFromSelf".
Proof.
  split; [apply (bool_decide_unpack _); vm_compute; exact I|].
  destruct (verified_lowered _ _ _ _ transfer_token_verified) as [ast Hl].
  apply (proj1 (call_graph_acyclic ast transfer_token.1.2 Hl)). vm_compute. reflexivity.
Defined.
Lemma verified_effects_sound_witness :
  length (rep_trace transfer_report) = 6%nat ∧
  Forall (permitted transfer_token.1.2 (vm_bundle_aspect_closures transfer_token.2)
    "MinimalTransferToken" transfer_policy) (rep_trace transfer_report).
Proof.
  destruct (verified_effects_sound transfer_token_source transfer_token.1.1 transfer_token.1.2
    transfer_token.2 100 "MinimalTransferToken" "ERC20-transfer" transfer_policy
    [VAtom "bob"; VAmount 4] sample_context (list_to_map [(("balanceOf", ["alice"]), VAmount 10)]) ∅
    transfer_report) as (p & Hp & Hf).
  - apply transfer_token_verified.
  - vm_compute; reflexivity.
  - vm_compute; reflexivity.
  - vm_compute; reflexivity.
  - split; [vm_compute; reflexivity|].
    assert ((pd_bundle <$> ir_projections transfer_token.1.2 !!
      qualified "MinimalTransferToken" "ERC20-transfer") = Some "MinimalTransferToken") as Hb
      by (vm_compute; reflexivity).
    rewrite Hp in Hb. injection Hb as Hb. by rewrite Hb in Hf.
Defined.
Lemma verifier_misses_effects_witness :
  undeclared_effects hole_argument "B" "Send" = Some [FxCrossShardOutboxAppend].
Proof. apply (verifier_misses_effects hole_argument). right. left. Defined.
