(* ===== verification/WitnessesIo.v ===== *)
(** * WitnessesIo: messages, streams and files at concrete inputs

    A serializer for votes, for the snapshot of an empty state, for signing
    records and for blocks without transactions, a signature scheme with one
    key, and the theorems of [Protocol], [Network] and [Storage] at them. *)
From S2P Require Import Prelude Effects Merkle Types State AspectRuntime AspectClosure Aspects Factory.
From S2P Require Import Block Consensus Protocol Network Storage Verify Sample.

(** ** A serializer *)
Fixpoint bits (p : positive) : list byte :=
  match p with xH => [] | xO p => x00 :: bits p | xI p => x01 :: bits p end.
Definition of_bits (l : list byte) : positive :=
  foldr (λ b p, if bool_decide (b = x00) then xO p else xI p) xH l.
Lemma of_bits_bits p : of_bits (bits p) = p.
Proof. induction p as [p IH|p IH|]; simpl; [by rewrite IH..|done]. Qed.
Definition vote_bytes (v : Vote) : list byte :=
  bits (encode (vote_validator_id v, vote_height v, vote_block_hash v)).
Definition vote_from (bytes : list byte) : option Vote :=
  t ← decode (of_bits bytes);
  Some {| vote_validator_id := t.1.1; vote_height := t.1.2; vote_block_hash := t.2 |}.
Lemma vote_from_bytes v : vote_from (vote_bytes v) = Some v.
Proof. unfold vote_from, vote_bytes. rewrite of_bits_bits, decode_encode. by destruct v. Qed.

Definition blank (s : DeTTaState) : bool :=
  bool_decide (chain_id s = "west") && bool_decide (height s = 0) &&
  bool_decide (finalized_block_hash s = "genesis") &&
  bool_decide (size (contracts s) = 0%nat) && bool_decide (size (aspect_modules s) = 0%nat) &&
  bool_decide (storage s = ∅) && bool_decide (size (registry s) = 0%nat) &&
  bool_decide (used_nonces s = ∅) && bool_decide (used_certificate_nonces s = ∅) &&
  bool_decide (paused_contracts s = ∅) && bool_decide (size (scheduled_upgrades s) = 0%nat) &&
  bool_decide (size (scheduled_policy_updates s) = 0%nat) &&
  bool_decide (size (trusted_bridge_validator_sets s) = 0%nat) &&
  bool_decide (outbound_message_ids s = ∅) &&
  match cross_shard_outbox s, events s with [], [] => true | _, _ => false end.
Lemma blank_new s : blank s = true → s = state_new "west".
Proof.
  unfold blank, state_new. destruct s; simpl. intros Hb.
  repeat (apply andb_true_iff in Hb as [Hb ?]). repeat match goal with
  | Hx : bool_decide _ = true |- _ => apply bool_decide_eq_true in Hx
  | Hx : size _ = 0%nat |- _ => apply map_size_empty_inv in Hx
  end. subst. by destruct cross_shard_outbox, events.
Qed.
Definition west : StateSnapshot := snapshot (state_new "west").
Definition west_bytes : list byte := bytes_of_string "west".
Definition snapshot_bytes (s : StateSnapshot) : option (list byte) :=
  match from_snapshot s with Ok state => if blank state then Some west_bytes else None | _ => None end.
Lemma snapshot_bytes_west s bytes : snapshot_bytes s = Some bytes → s = west.
Proof.
  unfold snapshot_bytes. destruct (from_snapshot s) as [state| | |] eqn:Hs; try done.
  destruct (blank state) eqn:Hb; [|done]. intros _. apply blank_new in Hb as ->.
  revert Hs. unfold from_snapshot, west, snapshot. destruct s; simpl. intros. simplify_ok. by subst.
Qed.

#[export] Instance sample_wire : Wire := {|
  to_vec_message := λ m, match m with MsgVote v => Some (vote_bytes v) | _ => None end;
  from_slice_message := λ bytes, MsgVote <$> vote_from bytes;
  to_vec_snapshot := snapshot_bytes;
  from_slice_snapshot := λ _, Some west;
  to_vec_manifest := λ _, Some [];
  to_vec_hashes := λ _, Some [];
  SigningKey := ();
  verifying_key := λ _, zeros;
  sign := λ _ _, zeros ++ zeros;
  valid_key := λ _, true;
  verify_signature := λ _ _ _, true;
|}.
#[export] Instance sample_wire_laws : WireLaws.
Proof.
  split; simpl; try done.
  - intros [] bytes; simplify_eq/=; try done. intros [= <-]. by rewrite vote_from_bytes.
  - by intros s bytes ->%snapshot_bytes_west.
Qed.
Definition vote (id : string) (h : N) : ProtocolMessage :=
  MsgVote {| vote_validator_id := id; vote_height := h; vote_block_hash := "b" |}.
Definition key1 : ValidatorSigningKey :=
  {| vsk_validator_id := "v"; vsk_key_id := "k"; vsk_signing_key := () |}.
Definition ok_value {E A} (default : A) (o : outcome E A) : A := match o with Ok a => a | _ => default end.

(** ** Protocol *)
Lemma signing_payload_injective_witness :
  ∃ p, validator_signing_payload DomainVote "n" "c" (vote "v" 1) = Ok p ∧
  validator_signing_payload DomainFinalityCertificate "n" "c" (vote "v" 1) ≠ Ok p.
Proof.
  eexists. split; [vm_compute; reflexivity|]. intros Hp.
  refine (match signing_payload_injective DomainVote "n" "c" (vote "v" 1) DomainFinalityCertificate "n" "c"
    (vote "v" 1) _ _ Hp with conj Hd _ => _ end); [vm_compute; reflexivity|discriminate Hd].
Defined.
Lemma signed_message_verifies_witness :
  ∃ signed, sign_message key1 "n" "c" (vote "v" 1) = Ok signed ∧
  verify_signed signed "n" "c" (public_key key1) = Ok ().
Proof.
  eexists. split; [vm_compute; reflexivity|].
  refine (signed_message_verifies key1 "n" "c" (vote "v" 1) _ _ _); [vm_compute; reflexivity|].
  intros s Hs. vm_compute in Hs. by injection Hs as <-.
Defined.
Definition west_chunks : SnapshotChunkSet :=
  ok_value {| scs_manifest := {| scm_snapshot_root := ""; scm_snapshot_hash := ""; scm_metadata_roots := ∅;
      scm_chunk_size := 0; scm_total_bytes := 0; scm_chunk_count := 0; scm_chunk_hashes := [];
      scm_chunk_root := "" |}; scs_chunks := [] |}
    (build_snapshot_chunks_with_metadata_roots west 3 ∅).
Lemma chunks_roundtrip_witness :
  length (scs_chunks west_chunks) = 2%nat ∧ reconstruct_snapshot west_chunks = Ok west.
Proof.
  split; [vm_compute; reflexivity|].
  apply (chunks_roundtrip west (state_new "west") 3 ∅); vm_compute; reflexivity.
Defined.
Lemma chunk_order_irrelevant_witness :
  reconstruct_snapshot {| scs_manifest := scs_manifest west_chunks;
    scs_chunks := reverse (scs_chunks west_chunks) |} = Ok west.
Proof.
  apply (chunk_order_irrelevant (scs_manifest west_chunks) (scs_chunks west_chunks)).
  - symmetry. apply reverse_Permutation.
  - vm_compute. reflexivity.
Defined.
Lemma reconstruction_determined_witness :
  snap_global_state_root west = scm_snapshot_root (scs_manifest west_chunks).
Proof.
  refine (proj1 (proj2 (reconstruction_determined west_chunks west_chunks west west _ _ eq_refl)));
    vm_compute; reflexivity.
Defined.

(** ** Network *)
Definition votes : list ProtocolMessage := [vote "v" 1; vote "w" 2].
Lemma stream_roundtrip_witness :
  ∃ written, fold_outcome write_wire_message votes [] = Ok written ∧
  read_messages 2 written = Ok (votes, []).
Proof.
  eexists. split; [vm_compute; reflexivity|].
  apply (stream_roundtrip votes). vm_compute. reflexivity.
Defined.
Definition three_peers : list PeerId := ["a"; "b"; "c"].
Definition traffic : list net_op :=
  [DoSend "a" "b" (vote "v" 1); DoBroadcast "c" (vote "w" 2); DoDrain "b" 1].
Definition empty_network : InMemoryTransport := ok_value ∅ (transport_new three_peers).
Lemma transport_fifo_witness :
  sent_to "b" (run_ops traffic empty_network).1
    = [envelope "a" (vote "v" 1) "b"; envelope "c" (vote "w" 2) "b"] ∧
  received_by "b" (run_ops traffic empty_network).1 = [envelope "a" (vote "v" 1) "b"] ∧
  ∃ pending, sent_to "b" (run_ops traffic empty_network).1
    = received_by "b" (run_ops traffic empty_network).1 ++ pending.
Proof.
  split; [vm_compute; reflexivity|]. split; [vm_compute; reflexivity|].
  assert (∃ wires, (run_ops traffic empty_network).2 !! "b" = Some wires) as [wires Hw]
    by (eexists; vm_compute; reflexivity).
  destruct (transport_fifo three_peers empty_network traffic "b" wires) as (pending & _ & Hp);
    [vm_compute; reflexivity|exact Hw|]. exists pending. exact Hp.
Defined.

(** ** Storage *)
Definition domains : list ValidatorSignatureDomain :=
  [DomainBlockProposal; DomainVote; DomainFinalityCertificate; DomainValidatorSetUpdate;
   DomainEquivocationEvidence; DomainValidatorSetMetadataUpdate].
Definition domain_code (d : ValidatorSignatureDomain) : nat :=
  match list_find (λ d', d' = d) domains with Some (i, _) => i | None => 0%nat end.
#[export] Instance sample_record_json : Json ConsensusSigningRecord := {|
  to_json r := Some (bits (encode
    (csr_validator_id r, domain_code (csr_domain r), csr_height r, csr_block_hash r)));
  from_json bytes := t ← decode (of_bits bytes); d ← domains !! t.1.1.2;
    Some {| csr_validator_id := t.1.1.1; csr_domain := d; csr_height := t.1.2; csr_block_hash := t.2 |};
|}.
#[export] Instance sample_record_inverse : JsonInverse ConsensusSigningRecord.
Proof.
  intros [id d h b] bytes. cbn [to_json sample_record_json]. intros [= <-]. cbn [from_json sample_record_json].
  rewrite of_bits_bits, decode_encode. by destruct d.
Qed.
Definition empty_block (c : string) (h : N) : Block :=
  {| blk_header := {| hdr_chain_id := c; hdr_height := h; hdr_previous_block_hash := ""; hdr_tx_root := "";
       hdr_receipt_root := ""; hdr_global_state_root := ""; hdr_storage_root := ""; hdr_registry_root := "";
       hdr_policy_root := ""; hdr_event_root := ""; hdr_nonce_root := ""; hdr_outbox_root := "";
       hdr_timestamp := 0; hdr_proposer := ""; hdr_consensus_certificate := "" |};
     blk_transactions := []; blk_receipts := [] |}.
#[export] Instance sample_block_json : Json Block := {|
  to_json b :=
    let c := hdr_chain_id (blk_header b) in
    let h := hdr_height (blk_header b) in
    match blk_transactions b, blk_receipts b with
    | [], [] => if decide (blk_header b = blk_header (empty_block c h)) then Some (bits (encode (c, h))) else None
    | _, _ => None
    end;
  from_json bytes := t ← decode (of_bits bytes); Some (empty_block t.1 t.2);
|}.
#[export] Instance sample_block_inverse : JsonInverse Block.
Proof.
  intros [hdr [] []] bytes; cbn [to_json sample_block_json blk_header blk_transactions blk_receipts]; try done.
  destruct (decide _) as [He|]; [|done]. intros [= <-]. cbn [from_json sample_block_json].
  rewrite of_bits_bits, decode_encode. cbn [mbind option_bind fst snd]. f_equal. unfold empty_block at 1.
  by rewrite He at 3.
Qed.
Definition claim (validator block : string) (h : N) : ConsensusSigningRecord :=
  {| csr_validator_id := validator; csr_domain := DomainVote; csr_height := h; csr_block_hash := block |}.
(** Two processes race for one height and a third record is for another. *)
Definition race : list ((FileSystem → FileSystem) * ConsensusSigningRecord) :=
  [(id, claim "v" "b1" 1); (id, claim "v" "b2" 1); (id, claim "v" "b3" 2)].
Lemma no_double_signing_witness :
  claim_all race ∅ = [Ok None; Ok (Some (claim "v" "b1" 1)); Ok None] ∧
  (csr_validator_id (claim "v" "b1" 1), csr_domain (claim "v" "b1" 1), csr_height (claim "v" "b1" 1)) ≠
  (csr_validator_id (claim "v" "b3" 2), csr_domain (claim "v" "b3" 2), csr_height (claim "v" "b3" 2)).
Proof.
  split; [vm_compute; reflexivity|].
  refine (no_double_signing race ∅ 0 2 id id (claim "v" "b1" 1) (claim "v" "b3" 2) _ eq_refl eq_refl _ _ _).
  - repeat constructor; by intros fs.
  - discriminate.
  - vm_compute. reflexivity.
  - vm_compute. reflexivity.
Defined.
Definition first_claim : FileSystem := (commit_consensus_signing_record_if_absent id (claim "v" "b1" 1) ∅).2.
Lemma signing_claim_stands_witness :
  commit_consensus_signing_record_if_absent id (claim "v" "b2" 1) first_claim
    = (Ok (Some (claim "v" "b1" 1)), first_claim).
Proof.
  refine (signing_claim_stands id (claim "v" "b1" 1) ∅ first_claim first_claim id (claim "v" "b2" 1)
    _ eq_refl eq_refl eq_refl eq_refl).
  apply (run_eq (commit_consensus_signing_record_if_absent id (claim "v" "b1" 1))). vm_compute. reflexivity.
Defined.
Definition block1_bytes : list byte := ok_value [] (encode_json (empty_block "west" 1)).
Definition crashed : FileSystem := <[with_extension "tmp" (block_path 1) := []]> ∅.
Lemma crash_leaves_old_or_new_witness :
  crashed !! block_path 1 = (∅ : FileSystem) !! block_path 1 ∨
  read_json (block_path 1) crashed = (Ok (empty_block "west" 1), crashed).
Proof.
  refine (proj1 (proj2 (crash_leaves_old_or_new (block_path 1) (empty_block "west" 1) block1_bytes ∅
    (Writing [], crashed) _ _ _))).
  - discriminate.
  - vm_compute. reflexivity.
  - apply rtc_once, ws_create.
Defined.
Definition one_block : FileSystem := (commit_block (empty_block "west" 1) ∅).2.
Lemma block_store_refines_map_witness :
  maybe_load_block 1 one_block = (Ok (Some (empty_block "west" 1)), one_block).
Proof.
  assert (commit_block (empty_block "west" 1) ∅ = (Ok (), one_block)) as Hc
    by (apply (run_eq (commit_block (empty_block "west" 1))); vm_compute; reflexivity).
  refine (proj1 (proj2 (block_store_refines_map ∅ ∅ (empty_block "west" 1) one_block stores_empty _ Hc)) 1).
  vm_compute. discriminate.
Defined.
