(* ===== verification/WitnessesNode.v ===== *)
(** * WitnessesNode: services and nodes at concrete inputs

    A serializer for the files of a node in the empty state of chain west,
    and the theorems about scripts, the RPC service, its connections and the
    persistent node at it. *)
From S2P Require Import Prelude Effects Merkle Types State AspectRuntime AspectClosure Aspects Runtime Factory Exec Transactions Mempool Block.
From S2P Require Import Consensus Protocol Network Storage Verify Release Evaluator Fixtures Rehearsal RpcTypes Rpc RpcTransport.
From S2P Require Import Node NodeReports NodeTracks NodeFacts NodeRestart NodeSync E2eServers Sample WitnessesIo.

(** ** Scripts *)
Definition script_text : string := "(state-get (balance token alice usd)) (pure-add 40 2)".
Definition script : list Instruction :=
  [InsStateGet (Balance "token" "alice" "usd"); PureAdd 40 2].
Lemma script_source_roundtrip_witness :
  parse_restricted_script script_text = Ok script ∧
  parse_restricted_script (canonical_script_source script) = Ok script.
Proof.
  split; [vm_compute; reflexivity|]. apply (script_source_roundtrip script_text). vm_compute. reflexivity.
Defined.

(** ** The service *)
#[export] Instance sample_payload : Serialize TransactionSigningPayload := flat.
#[export] Instance sample_trace : Serialize (list TraceOp) := flat.
Definition no_debug {A} (_ : A) : string := "".
Definition no_file (_ : string) : list byte := [].
Definition west_node : ValidatorNode := validator_node_new "v" (state_new "west").
Definition after_block : outcome Empty_set RpcResponse * RpcService :=
  handle_request no_debug no_file (ReqProduceBlock 1 7) (rpc_new west_node).
Definition response_of (o : outcome Empty_set RpcResponse) : RpcResponse := ok_value (RpcOk ResSubmitted) o.
Lemma feed_is_log_window_witness :
  svc_next_subscription_sequence after_block.2 = 2 ∧
  feeds after_block.2 ([] ++ announced (ReqProduceBlock 1 7) (response_of after_block.1)
    (svc_state (rpc_new west_node)) (svc_state after_block.2)).
Proof.
  split; [vm_compute; reflexivity|].
  refine (feed_is_log_window no_debug no_file (ReqProduceBlock 1 7) (rpc_new west_node) [] _ _ (feeds_new west_node) _).
  apply (run_eq (handle_request no_debug no_file (ReqProduceBlock 1 7))). vm_compute. reflexivity.
Defined.
Definition subscribed : RpcService :=
  (handle_request no_debug no_file (ReqProduceBlock 1 7)
    (handle_request no_debug no_file (ReqSubscribe [TopicBlocks]) (rpc_new west_node)).2).2.
Definition the_log : list SubscriptionNotification := sev_notification <$> svc_subscription_events subscribed.
Lemma polling_complete_witness :
  length the_log = 1%nat ∧
  poll_all subscribed "sub-1" 1 2 1 = Ok (wanted [TopicBlocks] 1 (numbered the_log)).
Proof.
  split; [vm_compute; reflexivity|].
  refine (polling_complete subscribed the_log "sub-1" [TopicBlocks] 1 _ _ _ 1 _).
  - split; [vm_compute; reflexivity| |vm_compute; discriminate].
    unfold forgotten. replace (length the_log) with 1%nat by (vm_compute; reflexivity).
    replace (1 - DEFAULT_MAX_SUBSCRIPTION_EVENTS)%nat with 0%nat by (pose proof max_events_pos; lia).
    vm_compute. reflexivity.
  - vm_compute. reflexivity.
  - lia.
  - vm_compute. discriminate.
Defined.

(** A signed submission to a state where the key is registered. *)
Definition registered : DeTTaState :=
  w_state (register_account_key "alice" zero_root {| w_state := genesis; w_ctx := call_context_new "root" |}).2.
Definition alice_signed : SignedClientTransaction := sign_with_seed (pay "t1" 1 5) ().
Definition registered_service : RpcService := rpc_new (validator_node_new "v" registered).
Lemma signed_submission_authentic_witness :
  let svc' := (handle_request no_debug no_file (ReqSubmitSignedTransaction alice_signed) registered_service).2 in
  mem_pending (vn_mempool (svc_node svc')) = [set_signature_ok true (sct_transaction alice_signed)].
Proof.
  cbv zeta.
  assert (handle_request no_debug no_file (ReqSubmitSignedTransaction alice_signed) registered_service
    = (Ok (RpcOk ResSubmitted),
       (handle_request no_debug no_file (ReqSubmitSignedTransaction alice_signed) registered_service).2)) as Hrun;
    [|rewrite (proj2 (proj2 (signed_submission_authentic no_debug no_file alice_signed registered_service _ Hrun)));
      reflexivity].
  apply (run_eq (handle_request no_debug no_file (ReqSubmitSignedTransaction alice_signed))). vm_compute. reflexivity.
Defined.

(** ** An HTTP connection *)
#[export] Instance counting_handler : JsonRpcHandler nat := λ request n, (Ok request, S n).
#[export] Instance sample_rpc_json : RpcJson := {|
  request_of_json _ := inr ""; authenticated_of_json _ := inr ""; json_value _ := false;
  json_of_request _ := None; json_of_response _ := Some [];
|}.
Definition http_request : list byte :=
  bytes_of_string ("POST / HTTP/1.1" +:+ crlf +:+ "Content-Length: 2" +:+ crlf +:+
    "Content-Type: application/json" +:+ crlf +:+ crlf +:+ "{}").
(** The handler is called once, on the two bytes of the body. *)
Example http_request_answered :
  serve_http_json_rpc_handler_connection 10 http_request 0%nat
  = (Ok (Some (http_response_bytes 200 "OK" (bytes_of_string "{}"))), 1%nat).
Proof. vm_compute. reflexivity. Qed.
(** A body cut short does not reach it. *)
Example http_request_cut :
  serve_http_json_rpc_handler_connection 10 (take (length http_request - 1) http_request) 0%nat
  = (Err TransportIo, 0%nat).
Proof. vm_compute. reflexivity. Qed.

(** ** A node's files *)
Definition only {T} (v : T) : Json T := {| to_json _ := Some []; from_json _ := Some v |}.
#[export] Instance snapshot_json : Json StateSnapshot := {| to_json := snapshot_bytes; from_json _ := Some west |}.
#[export] Instance snapshot_json_inverse : JsonInverse StateSnapshot.
Proof. by intros s bytes ->%snapshot_bytes_west. Qed.
#[export] Instance transactions_json : Json (list Transaction) :=
  {| to_json l := match l with [] => Some [] | _ => None end; from_json _ := Some [] |}.
#[export] Instance transactions_json_inverse : JsonInverse (list Transaction).
Proof. by intros [] bytes. Qed.
Definition key_tuple (k : ValidatorPublicKey) : string * string * string :=
  (vpk_validator_id k, vpk_key_id k, vpk_public_key_hex k).
Definition tuple_key (t : string * string * string) : ValidatorPublicKey :=
  {| vpk_validator_id := t.1.1; vpk_key_id := t.1.2; vpk_public_key_hex := t.2 |}.
#[export] Instance metadata_json : Json ValidatorSetMetadata := {|
  to_json m := Some (bits (encode
    (vmd_network_id m, vmd_chain_id m, key_tuple <$> vmd_validators m, vmd_applied_updates m)));
  from_json bytes := t ← decode (of_bits bytes);
    Some {| vmd_network_id := t.1.1.1; vmd_chain_id := t.1.1.2; vmd_validators := tuple_key <$> t.1.2;
            vmd_applied_updates := t.2 |};
|}.
#[export] Instance metadata_json_inverse : JsonInverse ValidatorSetMetadata.
Proof.
  intros [net c keys upd] bytes. cbn [to_json metadata_json]. intros [= <-]. cbn [from_json metadata_json].
  rewrite of_bits_bits, decode_encode. cbn [mbind option_bind fst snd vmd_validators]. do 2 f_equal.
  rewrite <- list_fmap_compose. rewrite <- (list_fmap_id keys) at 2. apply list_fmap_ext. by intros i [].
Qed.
#[export] Instance certificate_json : Json FinalityCertificate :=
  only {| fc_height := 0; fc_block_hash := ""; fc_signers := [] |}.
#[export] Instance slashing_json : Json SlashingRecord :=
  {| to_json _ := Some []; from_json _ := None |}.
#[export] Instance authorizations_json : Json (list SignedValidatorMessage) := only [].
#[export] Instance roots_json : Json (gmap string string) := only ∅.
#[export] Instance audit_json : Json (list ValidatorSetMetadataAuditRecord) := only [].
#[export] Instance import_json : Json (list SnapshotImportAuditRecord) := only [].
#[export] Instance config_json : Json SnapshotImportAuditConfig := only {| sic_max_records := 1; sic_max_page_size := 1 |}.
#[export] Instance metrics_json : Json SnapshotSyncClientMetrics := only default_metrics.

Definition started : outcome NodeError PersistentValidatorNode * FileSystem := bootstrap "v" (state_new "west") ∅.
Definition node_of (o : outcome NodeError PersistentValidatorNode) : PersistentValidatorNode :=
  ok_value (fresh_node "" "" (rpc_new west_node)) o.
Definition first_world : World := {| nw_node := node_of started.1; nw_files := started.2 |}.
Definition trusted_key : ValidatorPublicKey := public_key key1.
Definition trusting : NM () := persist_validator_set_metadata "net" [trusted_key].
Definition world1 : World := (trusting first_world).2.
Definition runs {S E A} (m : SE S E A) (s : S) : bool := match (m s).1 with Ok _ => true | _ => false end.
Lemma runs_eq {S E A} (m : SE S E A) (s : S) (d : A) : runs m s = true → m s = (Ok (ok_value d (m s).1), (m s).2).
Proof. unfold runs. by destruct (m s) as [[] ?]. Qed.
Lemma started_eq : bootstrap "v" (state_new "west") ∅ = (Ok (node_of started.1), started.2).
Proof. apply (runs_eq (bootstrap "v" (state_new "west"))). vm_compute. reflexivity. Qed.
Lemma trusting_eq : trusting first_world = (Ok (), world1).
Proof. apply (run_eq trusting). vm_compute. reflexivity. Qed.
Lemma queries_change_nothing_witness :
  let asked := handle_rpc_request no_debug no_file no_debug 5 (ReqGetReceiptProof 1 0) world1 in
  pvn_rpc_error_count (nw_node asked.2) = 1 ∧ nw_files asked.2 = nw_files world1.
Proof.
  cbv zeta. split; [vm_compute; reflexivity|].
  refine (proj1 (queries_change_nothing no_debug no_file no_debug 5 (ReqGetReceiptProof 1 0) world1
    (handle_rpc_request no_debug no_file no_debug 5 (ReqGetReceiptProof 1 0) world1).1 _ eq_refl _)).
  apply surjective_pairing.
Defined.

(** ** Signing *)
Definition vote_for (block : string) : ProtocolMessage :=
  MsgVote {| vote_validator_id := "v"; vote_height := 1; vote_block_hash := block |}.
Definition signs (block : string) : NM ProtocolMessage := sign_validator_message id key1 (vote_for block).
Definition world2 : World := (signs "b" world1).2.
Definition signed_vote : SignedValidatorMessage :=
  signed_validator_message "v" "k" "net" "west" DomainVote (vote_for "b") (hex_lower (zeros ++ zeros)).
Lemma signs_eq : signs "b" world1 = (Ok (MsgSignedValidator signed_vote), world2).
Proof. apply (run_eq (signs "b")). vm_compute. reflexivity. Qed.
(** The second block of the same height is refused, and what was signed is
    for one block. *)
Lemma node_never_double_signs_witness :
  (signs "c" world2).1 = Err (ConsensusSigningConflict "v" DomainVote 1 "b" "c") ∧ "b" = "b".
Proof.
  split; [vm_compute; reflexivity|].
  refine (node_never_double_signs no_debug no_file no_debug world1 [MsgSignedValidator signed_vote] world2
    (MsgSignedValidator signed_vote) (MsgSignedValidator signed_vote) signed_vote signed_vote
    {| cc_domain := DomainVote; cc_height := 1; cc_block_hash := "b" |}
    {| cc_domain := DomainVote; cc_height := 1; cc_block_hash := "b" |} _ _ _ eq_refl eq_refl _ _ eq_refl eq_refl).
  - apply (run_step no_debug no_file no_debug world1 (Some (MsgSignedValidator signed_vote)) world2 [] world2).
    + apply (step_sign no_debug no_file no_debug id key1 (vote_for "b") world1 (Ok (MsgSignedValidator signed_vote))).
      * intros fs. reflexivity.
      * exact signs_eq.
    + apply run_nil.
  - by left.
  - by left.
  - vm_compute. reflexivity.
  - vm_compute. reflexivity.
Defined.

(** ** A quorum of one adds a validator *)
Module Quorum.
#[local] Instance open_wire : Wire := {|
  to_vec_message _ := Some []; from_slice_message _ := None; to_vec_snapshot := snapshot_bytes;
  from_slice_snapshot _ := Some west; to_vec_manifest _ := Some []; to_vec_hashes _ := Some [];
  SigningKey := (); verifying_key _ := zeros; sign _ _ := zeros ++ zeros; valid_key _ := true;
  verify_signature _ _ _ := true;
|}.
Definition new_key : ValidatorPublicKey :=
  {| vpk_validator_id := "w"; vpk_key_id := "k2"; vpk_public_key_hex := zero_root |}.
Definition addition : ValidatorSetMetadataUpdate :=
  {| vsm_update_id := "u1"; vsm_add_validators := [new_key]; vsm_remove_validators := [];
     vsm_expires_at_height := None |}.
Definition authorization : SignedValidatorMessage :=
  signed_validator_message "v" "k" "net" "west" DomainValidatorSetMetadataUpdate
    (MsgValidatorSetMetadataUpdate addition) (hex_lower (zeros ++ zeros)).
Definition proposes : SE World Empty_set RpcResponse :=
  handle_rpc_request no_debug no_file no_debug 5 (ReqProposeValidatorSetMetadataUpdate authorization).
Lemma validator_keys_need_quorum_witness :
  keys (pvn_validator_keys (nw_node (proposes world1).2)) = ["v"; "w"] ∧
  (same_trust world1 (proposes world1).2 ∨ authorized_change world1 (proposes world1).2).
Proof.
  split; [vm_compute; reflexivity|]. refine (validator_keys_need_quorum no_debug no_file no_debug _ _ _). right.
  exists 5, (ReqProposeValidatorSetMetadataUpdate authorization), (proposes world1).1. apply surjective_pairing.
Defined.
End Quorum.

(** ** State sync *)
Lemma first_durable : durable first_world.
Proof. exact (proj2 (bootstrap_durable _ _ _ _ started_eq)). Qed.
Definition sync_roots : gmap string string := ok_value ∅ (effective_snapshot_metadata_roots first_world).1.
Definition sync_set : SnapshotChunkSet :=
  ok_value west_chunks (build_snapshot_chunks_with_metadata_roots west 3 sync_roots).
Definition imported : outcome NodeError StateSnapshot * World := import_snapshot_chunk_set sync_set ∅ first_world.
Lemma state_sync_end_to_end_witness :
  length (scs_chunks sync_set) = 2%nat ∧
  ∃ n fs, restart "v" (nw_files imported.2) = (Ok n, fs) ∧ svc_state (pvn_rpc n) = state_new "west".
Proof.
  split; [vm_compute; reflexivity|].
  assert (effective_snapshot_metadata_roots first_world = (Ok sync_roots, first_world)) as Hroots.
  { pose proof (runs_eq effective_snapshot_metadata_roots first_world ∅) as He.
    rewrite He by (vm_compute; reflexivity). reflexivity. }
  destruct (state_sync_end_to_end first_world first_world sync_roots 3 sync_set 1 ∅ (ok_value "" (hash_canonical_json ∅)) 3 []
    first_durable first_durable eq_refl eq_refl Hroots) as [_ Hi].
  - vm_compute. reflexivity.
  - apply map_empty_subseteq.
  - vm_compute. reflexivity.
  - vm_compute. reflexivity.
  - lia.
  - replace (length (scs_chunks sync_set)) with 2%nat by (vm_compute; reflexivity). lia.
  - destruct (Hi west imported.2) as (n & fs & Hr & Hs & _).
    { apply (run_eq (import_snapshot_chunk_set sync_set ∅)). vm_compute. reflexivity. }
    exists n, fs. split; [exact Hr|exact Hs].
Defined.

(** ** The snapshot peer *)
Module Peer.
#[local] Instance chunk_eq : EqDecision SnapshotChunk.
Proof. solve_decision. Defined.
Definition request_bytes (r : SnapshotChunkRequest) : list byte :=
  bits (encode (scr_snapshot_root r, scr_start_index r, scr_max_chunks r)).
Definition request_from (bytes : list byte) : option ProtocolMessage :=
  t ← decode (of_bits bytes);
  Some (MsgSnapshotChunkRequest {| scr_snapshot_root := t.1.1; scr_start_index := t.1.2; scr_max_chunks := t.2 |}).
(** Requests, and the answers of one chunk set. *)
Definition message_bytes (m : ProtocolMessage) : option (list byte) :=
  match m with
  | MsgSnapshotChunkRequest r => Some (x02 :: request_bytes r)
  | MsgSnapshotChunkManifest m => if decide (m = scs_manifest sync_set) then Some [x03] else None
  | MsgSnapshotChunk c =>
      (λ found, x04 :: replicate found.1 x05) <$> list_find (λ c', c' = c) (scs_chunks sync_set)
  | _ => None
  end.
Definition message_from (bytes : list byte) : option ProtocolMessage :=
  match bytes with
  | x02 :: bytes => request_from bytes
  | x03 :: _ => Some (MsgSnapshotChunkManifest (scs_manifest sync_set))
  | x04 :: bytes => MsgSnapshotChunk <$> scs_chunks sync_set !! length bytes
  | _ => None
  end.
#[local] Instance sync_wire : Wire := {|
  to_vec_message := message_bytes; from_slice_message := message_from; to_vec_snapshot := snapshot_bytes;
  from_slice_snapshot _ := Some west; to_vec_manifest _ := Some []; to_vec_hashes _ := Some [];
  SigningKey := (); verifying_key _ := zeros; sign _ _ := zeros ++ zeros; valid_key _ := true;
  verify_signature _ _ _ := true;
|}.
#[local] Opaque sync_set.
#[local] Instance sync_wire_laws : WireLaws.
Proof.
  split; cbn [to_vec_message from_slice_message to_vec_snapshot from_slice_snapshot sync_wire]; try (intros; reflexivity).
  - intros m bytes. destruct m; cbn [message_bytes]; intros Hm;
      try (lazymatch type of Hm with None = Some _ => discriminate Hm end).
    + injection Hm as <-. cbn [message_from]. unfold request_from, request_bytes.
      rewrite of_bits_bits, decode_encode. by destruct request.
    + case_decide as He; [|discriminate Hm]. injection Hm as <-. cbn [message_from]. by rewrite He.
    + apply fmap_Some in Hm as ([i c] & (Hi & -> & _)%list_find_Some & ->). cbn [message_from fst].
      by rewrite length_replicate, Hi.
  - by intros s bytes ->%snapshot_bytes_west.
Qed.
Definition first_chunks : SnapshotChunkRequest :=
  {| scr_snapshot_root := scm_snapshot_root (scs_manifest sync_set); scr_start_index := 0; scr_max_chunks := 5 |}.
Definition frame : list byte := ok_value [] (write_wire_message [] (MsgSnapshotChunkRequest first_chunks)).
Definition answer : list ProtocolMessage := ok_value [] (serve_snapshot_chunk_request first_chunks 3 first_world).1.
Definition answer_frames : list byte := ok_value [] (fold_outcome write_wire_message (concat [answer]) []).
Lemma ok_value_eq {E A} (o : outcome E A) (d : A) : match o with Ok _ => true | _ => false end = true → o = Ok (ok_value d o).
Proof. by destruct o. Qed.
Lemma sync_peer_answers_witness :
  length answer = 3%nat ∧
  spawn_snapshot_sync_peer first_world 3 (concat [frame] ++ [])
  = (Ok (), (first_world, {| tcp_input := []; tcp_written := answer_frames |})).
Proof.
  split; [vm_compute; reflexivity|].
  apply (sync_peer_answers [first_chunks] [frame] [answer] answer_frames [] NetIo 3 first_world).
  - constructor; [|constructor]. apply ok_value_eq. vm_compute. reflexivity.
  - constructor; [|constructor]. apply ok_value_eq. vm_compute. reflexivity.
  - apply ok_value_eq. vm_compute. reflexivity.
  - reflexivity.
Defined.
End Peer.
