(* ===== verification/WitnessesCli.v ===== *)
(** * WitnessesCli: the command lines at concrete inputs

    A serializer for the states, blocks and messages of one session on the
    demonstration chain: a genesis file is written, a node serves it, and a
    client pays from the faucet, has a block produced and reads the receipt.
    The theorems about the binaries, the clients and cross-shard messages are
    exercised there. *)
From S2P Require Import Prelude Effects Merkle Types State Policies AspectRuntime AspectClosure Aspects Runtime Ledger Token Decimal.
From S2P Require Import Assets Bridge Factory Exec Transactions Mempool Block Consensus Protocol Network Storage Verify.
From S2P Require Import Evaluator RpcTypes Rpc RpcTransport HttpText RpcClient Node NodeReports NodeTracks NodeFacts NodeRestart.
From S2P Require Import AspectSource AspectVerify Release Artifacts Genesis CrossShard Serving NodeCli ClientCli Sample WitnessesIo WitnessesNode.

(** ** States compared *)
#[export] Instance kind_eq : EqDecision ContractKind.
Proof. solve_decision. Defined.
#[export] Instance reentrancy_eq : EqDecision ReentrancyMode.
Proof. solve_decision. Defined.
#[export] Instance method_policy_eq : EqDecision MethodPolicy.
Proof. solve_decision. Defined.
#[export] Instance contract_record_eq : EqDecision ContractRecord.
Proof. solve_decision. Defined.
#[export] Instance cross_shard_message_eq : EqDecision CrossShardMessage.
Proof. solve_decision. Defined.
#[export] Instance grant_eq : EqDecision Grant.
Proof. solve_decision. Defined.
#[export] Instance scheduled_upgrade_eq : EqDecision ScheduledUpgrade.
Proof. solve_decision. Defined.
#[export] Instance event_payload_eq : EqDecision EventPayload.
Proof. solve_decision. Defined.
#[export] Instance event_eq : EqDecision Event.
Proof. solve_decision. Defined.
(** Equal, and without modules or scheduled policy updates. *)
Definition same_state (s t : DeTTaState) : bool :=
  bool_decide (chain_id s = chain_id t) && bool_decide (height s = height t) &&
  bool_decide (finalized_block_hash s = finalized_block_hash t) && bool_decide (contracts s = contracts t) &&
  bool_decide (size (aspect_modules s) = 0%nat) && bool_decide (size (aspect_modules t) = 0%nat) &&
  bool_decide (storage s = storage t) && bool_decide (registry s = registry t) &&
  bool_decide (used_nonces s = used_nonces t) && bool_decide (used_certificate_nonces s = used_certificate_nonces t) &&
  bool_decide (paused_contracts s = paused_contracts t) && bool_decide (scheduled_upgrades s = scheduled_upgrades t) &&
  bool_decide (size (scheduled_policy_updates s) = 0%nat) && bool_decide (size (scheduled_policy_updates t) = 0%nat) &&
  bool_decide (trusted_bridge_validator_sets s = trusted_bridge_validator_sets t) &&
  bool_decide (outbound_message_ids s = outbound_message_ids t) &&
  bool_decide (cross_shard_outbox s = cross_shard_outbox t) && bool_decide (events s = events t).
Lemma same_state_eq s t : same_state s t = true → s = t.
Proof.
  unfold same_state. destruct s, t; simpl. intros Hb. repeat (apply andb_true_iff in Hb as [Hb ?]).
  repeat match goal with
  | Hx : bool_decide _ = true |- _ => apply bool_decide_eq_true in Hx
  | Hx : size _ = 0%nat |- _ => apply map_size_empty_inv in Hx
  end. by subst.
Qed.

(** ** One session on the demonstration chain *)
Definition demo : DeTTaState := ok_value (state_new "") (Demo.demo_defi_genesis_state "detta-local").
Definition faucet_options : NodeOptions.ParsedOptions :=
  ok_value NodeOptions.no_options (NodeOptions.parse ["--to"; "Carol"; "--amount"; "25"]).
Definition no_tx : Transaction := pay "" 0 0.
Definition faucet_tx : Transaction := ok_value no_tx (faucet_transaction faucet_options).
Definition demo_built : Block * DeTTaState :=
  ok_value (empty_block "" 0, demo) (build_block demo 1 [faucet_tx] 1000 "validator-1" "sim-cert:validator-1:1").
Definition demo_block : Block := demo_built.1.
Definition demo_receipt : option Receipt := head (blk_receipts demo_block).
#[local] Opaque demo demo_built demo_block demo_receipt faucet_tx.
(** A file holds one of the values it is known to hold. *)
Definition code (n : nat) : list byte := replicate n x31.
Definition index_of {T} (same : T → T → bool) (v : T) (known : list T) : option nat :=
  fst <$> list_find (λ k, same v k = true) known.
Definition coded {T} (same : T → T → bool) (known : list T) : Json T := {|
  to_json v := code <$> index_of same v known; from_json bytes := known !! length bytes;
|}.
Lemma coded_inverse {T} (same : T → T → bool) known :
  (∀ v k, same v k = true → v = k) → @JsonInverse T (coded same known).
Proof.
  intros Hs v bytes. cbn [to_json from_json coded]. unfold index_of. intros Hc.
  destruct (list_find _ _) as [[i k]|] eqn:Hf; [|done]. apply list_find_Some in Hf as (Hi & Hsame%Hs & _).
  injection Hc as <-. unfold code. cbn [fst]. rewrite length_replicate. by rewrite Hsame.
Qed.
Definition decided {T} `{EqDecision T} (x y : T) : bool := bool_decide (x = y).
Lemma decided_eq {T} `{EqDecision T} (x y : T) : decided x y = true → x = y.
Proof. apply bool_decide_eq_true. Qed.
Definition same_snapshot (x y : StateSnapshot) : bool :=
  match from_snapshot x with Ok _ => same_state (snap_state x) (snap_state y) | _ => false end &&
  match from_snapshot y with Ok _ => true | _ => false end.
Lemma same_snapshot_eq x y : same_snapshot x y = true → x = y.
Proof.
  unfold same_snapshot. destruct (from_snapshot x) eqn:Hx, (from_snapshot y) eqn:Hy; try (by rewrite ?andb_false_r).
  rewrite andb_true_r. intros Hs%same_state_eq. unfold from_snapshot in Hx, Hy.
  destruct x, y; simpl in *. simplify_ok. by subst.
Qed.
#[export] Instance demo_snapshot_json : Json StateSnapshot :=
  coded same_snapshot [snapshot demo; snapshot demo_built.2].
#[export] Instance demo_snapshot_inverse : JsonInverse StateSnapshot.
Proof. apply coded_inverse, same_snapshot_eq. Qed.
#[export] Instance demo_snapshot_pretty : PrettyJson StateSnapshot := to_json.
#[export] Instance demo_pretty_inverse : PrettyInverse StateSnapshot.
Proof. exact demo_snapshot_inverse. Qed.
#[export] Instance demo_pool_json : Json (list Transaction) := coded decided [[]; [faucet_tx]].
#[export] Instance demo_pool_inverse : JsonInverse (list Transaction).
Proof. apply coded_inverse, decided_eq. Qed.
#[export] Instance demo_block_json : Json Block := coded decided [demo_block].
#[export] Instance demo_block_inverse : JsonInverse Block.
Proof. apply coded_inverse, decided_eq. Qed.

(** The messages of the session, each one letter. *)
Definition known_request (r : RpcRequest) : option nat :=
  match r with
  | ReqSubmitTransaction tx => if decide (tx = faucet_tx) then Some 1%nat else None
  | ReqProduceBlock h t => if decide ((h, t) = (1, 1000)) then Some 2%nat else None
  | ReqGetReceipt hash => if decide (hash = tx_tx_hash faucet_tx) then Some 3%nat else None
  | _ => None
  end.
Definition request_text (bytes : list byte) : RpcRequest + string :=
  match length (filter (λ b, b = x31) bytes) with
  | 1%nat => inl (ReqSubmitTransaction faucet_tx) | 2%nat => inl (ReqProduceBlock 1 1000)
  | 3%nat => inl (ReqGetReceipt (tx_tx_hash faucet_tx)) | _ => inr "unknown"
  end.
Definition known_response (r : RpcResponse) : option nat :=
  match r with
  | RpcOk ResSubmitted => Some 1%nat
  | RpcOk (ResBlock b) => if decide (b = demo_block) then Some 2%nat else None
  | RpcOk (ResReceipt receipt) => if decide (Some receipt = demo_receipt) then Some 3%nat else None
  | _ => None
  end.
Definition response_text (bytes : list byte) : option RpcResponse :=
  match length (filter (λ b, b = x31) bytes) with
  | 1%nat => Some (RpcOk ResSubmitted) | 2%nat => Some (RpcOk (ResBlock demo_block))
  | 3%nat => (λ receipt, RpcOk (ResReceipt receipt)) <$> demo_receipt | _ => None
  end.
#[export] Instance session_json : RpcJson := {|
  request_of_json := request_text; authenticated_of_json _ := inr ""; json_value _ := false;
  json_of_request r := code <$> known_request r; json_of_response r := code <$> known_response r;
|}.
#[export] Instance session_client_json : ClientJson := response_text.
Lemma known_request_text r n : known_request r = Some n →
  (n ≤ 3)%nat ∧ request_text (code n) = inl r ∧ request_text (code n ++ [x0a]) = inl r.
Proof. destruct r; cbn [known_request]; try done; case_decide; intros [= <-]; simplify_eq; (split; [lia|done]). Qed.
Lemma known_response_text r n : known_response r = Some n →
  (n ≤ 3)%nat ∧ response_text (code n) = Some r ∧ response_text (code n ++ [x0a]) = Some r.
Proof.
  destruct r as [[]|]; cbn [known_response]; intros Hk;
    try (lazymatch type of Hk with None = Some _ => discriminate Hk end).
  - injection Hk as <-. split; [lia|]. split; reflexivity.
  - case_decide as He; [|discriminate Hk]. injection Hk as <-. subst. split; [lia|]. split; reflexivity.
  - case_decide as He; [|discriminate Hk]. injection Hk as <-. split; [lia|].
    unfold response_text. change (length _) with 3%nat. cbn iota. change (length _) with 3%nat. cbn iota.
    rewrite <- He. split; reflexivity.
Qed.
Lemma code_line n : x0a ∉ code n.
Proof. unfold code. intros [Hx _]%elem_of_replicate. discriminate Hx. Qed.
#[export] Instance session_laws : ClientJsonLaws.
Proof.
  split; cbn [json_of_request json_of_response request_of_json session_json]; unfold response_of_json, session_client_json;
    intros r bytes (n & Hn & ->)%fmap_Some_1.
  - apply code_line.
  - apply (known_request_text _ _ Hn).
  - split; [apply code_line|]. apply known_response_text in Hn as (Hn & _). by destruct n as [|[|[|[|n]]]]; [..|lia].
  - apply (known_response_text _ _ Hn).
Qed.

(** ** A genesis file and the node it starts *)
Definition genesis_options : NodeOptions.ParsedOptions :=
  ok_value NodeOptions.no_options (NodeOptions.parse ["--output"; "genesis.json"]).
Definition wrote : outcome NodeCliError GenesisSummary * gmap string (list byte) := write_genesis genesis_options ∅.
Definition demo_summary : GenesisSummary :=
  ok_value {| gs_output := ""; gs_chain_id := ""; gs_global_state_root := ""; gs_storage_root := "";
              gs_registry_root := ""; gs_policy_root := "" |} wrote.1.
Definition booted : outcome NodeCliError PersistentValidatorNode * FileSystem :=
  load_or_bootstrap_node wrote.2 "validator-1" (Some (gs_output demo_summary)) ∅.
Definition demo_world : World :=
  {| nw_node := ok_value (fresh_node "" "" (rpc_new west_node)) booted.1; nw_files := booted.2 |}.
Definition paid_world : World := (node_submit_transaction faucet_tx demo_world).2.
Definition demo_handles : RpcRequest → SE World Empty_set RpcResponse :=
  handle_rpc_request no_debug no_file no_debug 5.
Definition session_requests : list RpcRequest :=
  [ReqSubmitTransaction faucet_tx; ReqProduceBlock 1 1000; ReqGetReceipt (tx_tx_hash faucet_tx)].
Definition client_options : ClientOptions.ParsedOptions :=
  ok_value ∅ (ClientOptions.parse ["--produce-height=1"]).
#[export] Instance demo_server : JsonRpcHandler World := typed_handler demo_handles.
Definition finalizing : SE (Duplex World) ClientCliError ClientCommandReport :=
  submit_and_maybe_finalize 100 faucet_tx client_options.
Lemma wrote_eq : write_genesis genesis_options ∅ = (Ok demo_summary, wrote.2).
Proof. apply (runs_eq (write_genesis genesis_options)). vm_compute. reflexivity. Qed.
Lemma demo_encoded s :
  Demo.demo_defi_genesis_state (gs_chain_id demo_summary) = Ok s → encode_json (snapshot s) = Ok [].
Proof.
  intros Hs. assert (ok_value (state_new "") (Demo.demo_defi_genesis_state (gs_chain_id demo_summary)) = s) as <-
    by (by rewrite Hs). clear Hs. vm_compute. reflexivity.
Qed.

(** ** Payments and sessions *)
Lemma faucet_pays_witness :
  faucet_transaction faucet_options = Ok faucet_tx ∧
  ∃ s receipt s', apply_transaction faucet_tx s = (Ok receipt, s') ∧ rc_status receipt = Committed ∧
    balance s' Demo.DEFAULT_TOKEN_CONTRACT Demo.DEFAULT_FAUCET Demo.DEFAULT_USDC = 999975.
Proof.
  assert (faucet_transaction faucet_options = Ok faucet_tx) as Ht by (vm_compute; reflexivity). split; [exact Ht|].
  destruct (faucet_pays faucet_options faucet_tx "detta-local" "Carol" "25" 25 Ht) as (s & r & s' & _ & Ha & Hc & _ & _ & Hb & _).
  - split; vm_compute; (reflexivity || discriminate).
  - vm_compute. reflexivity.
  - vm_compute. reflexivity.
  - discriminate.
  - vm_compute. reflexivity.
  - vm_compute. reflexivity.
  - lia.
  - exists s, r, s'. split; [exact Ha|]. split; [exact Hc|exact Hb].
Defined.
Definition answered : outcome Empty_set (list RpcResponse) * World := mapM demo_handles session_requests demo_world.
Definition the_answers : list RpcResponse := ok_value [] answered.1.
Lemma requests_fit : Forall (fits 100) session_requests.
Proof. repeat constructor; (eexists; split; [vm_compute; reflexivity|vm_compute; lia]). Qed.
Lemma line_session_refines_witness :
  length the_answers = 3%nat ∧
  mapM (request 100) session_requests (connected demo_world) = (Ok the_answers, connected answered.2).
Proof.
  split; [vm_compute; reflexivity|]. apply (line_session_refines demo_handles).
  - apply (runs_eq (mapM demo_handles session_requests)). vm_compute. reflexivity.
  - exact requests_fit.
  - apply (bool_decide_eq_true (Forall (λ r, is_Some (json_of_response r)) the_answers)). vm_compute. reflexivity.
Defined.
Definition submitted : outcome Empty_set RpcResponse * World := demo_handles (ReqSubmitTransaction faucet_tx) demo_world.
Lemma http_post_answers_witness :
  post 100 (ReqSubmitTransaction faucet_tx) demo_world = (Ok (200, RpcOk ResSubmitted), submitted.2).
Proof.
  apply (http_post_answers demo_handles 100 (ReqSubmitTransaction faucet_tx) (code 1) demo_world (RpcOk ResSubmitted) (code 1)).
  - vm_compute. reflexivity.
  - vm_compute. discriminate.
  - apply (run_eq (demo_handles (ReqSubmitTransaction faucet_tx))). vm_compute. reflexivity.
  - reflexivity.
  - vm_compute. discriminate.
Defined.
Definition demo_report : ClientCommandReport :=
  ok_value {| ccr_submitted := ResImported; ccr_produced_block := None; ccr_receipt := None |}
    (finalizing (connected demo_world)).1.
Lemma finalized_report_stored_witness :
  (bs_height <$> ccr_produced_block demo_report) = Some 1 ∧
  ∃ block receipt w', holds (nw_files w') (block_path 1) block ∧ ccr_receipt demo_report = Some receipt ∧
    rc_tx_hash receipt = "faucet-Carol-1".
Proof.
  split; [vm_compute; reflexivity|].
  destruct (finalized_report_stored no_debug no_file no_debug 5 100 faucet_tx client_options "1" 1 1000 demo_world
    demo_report (finalizing (connected demo_world)).2 eq_refl eq_refl eq_refl requests_fit)
    as (block & receipt & blocks & b & w' & Hr & _ & _ & Hb & Hh & _).
  - apply (runs_eq finalizing). vm_compute. reflexivity.
  - exists block, receipt, w'. split; [exact Hb|]. split; [by rewrite Hr|exact Hh].
Defined.

(** ** A message from one chain to another *)
Module Delivery.
Definition outbox : list CrossShardMessage := [inbound_message].
Definition source_block : Block :=
  {| blk_header := {| hdr_chain_id := "east"; hdr_height := 7; hdr_previous_block_hash := ""; hdr_tx_root := "";
       hdr_receipt_root := ""; hdr_global_state_root := ""; hdr_storage_root := ""; hdr_registry_root := "";
       hdr_policy_root := ""; hdr_event_root := ""; hdr_nonce_root := ""; hdr_outbox_root := merkle_root outbox;
       hdr_timestamp := 0; hdr_proposer := ""; hdr_consensus_certificate := "" |};
     blk_transactions := []; blk_receipts := [] |}.
Definition relayed : option CrossShardFinalityProof :=
  (λ proof, relayed_proof source_block 2 ["v1"; "v3"] {| omp_message := inbound_message; omp_proof := proof |})
  <$> merkle_proof outbox 0.
#[local] Instance relay_host : Host := {|
  host_sha256 := host_sha256; host_serde_json := host_serde_json; finality_proof_from_str _ := relayed;
|}.
Definition relay_tx : Transaction :=
  sample_tx "t9" "bob" 1 "bridge" RedeemBridgeMessage
    [ArgText "m1"; ArgPrincipal "bob"; ArgAsset "usd"; ArgAmount 25; ArgCertificate "certificate"].
Definition destination : world := {| w_state := genesis; w_ctx := call_context_new "bob" |}.
Lemma source_finalized : finalized source_block outbox 0 inbound_message sample_validators ["v1"; "v3"].
Proof.
  split; try reflexivity.
  - split; [discriminate|]. vm_compute. lia.
  - apply (bool_decide_eq_true (NoDup ["v1"; "v3"])). vm_compute. reflexivity.
  - set_solver.
Qed.
Lemma destination_awaits : awaits destination "bridge" "tok" inbound_message sample_validators.
Proof.
  split; try (vm_compute; (reflexivity || discriminate)).
  apply (bool_decide_eq_true (ledger_ok genesis (TotalSupply "tok" "usd"))). vm_compute. reflexivity.
Qed.
Lemma relay_length (x : list byte) : length (sha256 x) = 32%nat.
Proof. reflexivity. Qed.
End Delivery.

(** ** A release refreshed *)
Module Refreshed.
#[local] Instance artifact_eq : EqDecision AspectStdlibArtifactManifest.
Proof. solve_decision. Defined.
#[local] Instance obligation_eq : EqDecision AspectProofObligation.
Proof. solve_decision. Defined.
#[local] Instance obligations_eq : EqDecision AspectProofObligationManifest.
Proof. solve_decision. Defined.
Definition parsed_module : option (string * AspectModuleIr * VerifiedAspectModule) :=
  match parse_verify_module courier_source with Ok parsed => Some parsed | _ => None end.
Definition known_artifacts : list AspectStdlibArtifactManifest :=
  match parsed_module with
  | Some (canonical, ir, module) => [refreshed_artifact "courier" canonical ir module]
  | None => []
  end.
Definition obligation (id : string) : AspectProofObligation :=
  {| apo_id := id; apo_category := "effects"; apo_statement := "holds"; apo_discharged_by := ["the verifier"] |}.
Definition known_obligations : list AspectProofObligationManifest :=
  (λ artifact, refreshed_obligations artifact (obligation <$> REQUIRED_ASPECT_PROOF_OBLIGATION_IDS)) <$> known_artifacts.
(** As [coded], with a line feed after the text allowed. *)
Definition lined {T} (known : list T) : Json T :=
  {| to_json _ := None; from_json bytes := known !! length (filter (λ b, b = x31) bytes) |}.
Definition pretty_coded {T} `{EqDecision T} (known : list T) : PrettyJson T := λ v, code <$> index_of decided v known.
Lemma pretty_read_back {T} `{EqDecision T} (known : list T) :
  @read_back T (lined known) (pretty_coded known).
Proof.
  intros v bytes. unfold to_json_pretty, pretty_coded, index_of. intros Hc.
  destruct (list_find _ _) as [[i k]|] eqn:Hf; [|done]. apply list_find_Some in Hf as (Hi & Hsame%decided_eq & _).
  injection Hc as <-. unfold code. cbn [fst]. split.
  - apply utf8_valid_ascii, Forall_app. split; [by apply Forall_replicate|by apply Forall_singleton].
  - cbn [from_json lined]. rewrite filter_app, length_app. change (length (filter _ [x0a])) with 0%nat.
    rewrite Nat.add_0_r. assert (filter (λ b, b = x31) (replicate i x31) = replicate i x31) as ->.
    { clear. induction i as [|i IH]; [done|]. cbn [replicate]. by rewrite filter_cons_True, IH. }
    by rewrite length_replicate, Hsame.
Qed.
#[local] Instance artifact_json : Json AspectStdlibArtifactManifest := lined known_artifacts.
#[local] Instance artifact_pretty : PrettyJson AspectStdlibArtifactManifest := pretty_coded known_artifacts.
#[local] Instance obligations_json : Json AspectProofObligationManifest := lined known_obligations.
#[local] Instance obligations_pretty : PrettyJson AspectProofObligationManifest := pretty_coded known_obligations.
Definition old_release : gmap string (list byte) :=
  <[ASPECT_STDLIB_SOURCE_PATH := bytes_of_string courier_source]>
  (<[ASPECT_STDLIB_ARTIFACT_PATH := []]> (<[ASPECT_STDLIB_PROOF_OBLIGATIONS_PATH := []]> ∅)).
Definition new_release : gmap string (list byte) := (refresh_main old_release).2.
Lemma refresh_publishes_witness :
  size new_release = 6%nat ∧ refresh_main new_release = (Ok (), new_release).
Proof.
  split; [vm_compute; reflexivity|].
  destruct (refresh_publishes old_release new_release (pretty_read_back known_artifacts)
    (pretty_read_back known_obligations)) as (source & artifact & obligations & _ & _ & _ & _ & _ & _ & _ & Hagain).
  - apply (run_eq refresh_main). vm_compute. reflexivity.
  - exact Hagain.
Defined.
End Refreshed.
